(* ===== verification/_CoqProject ===== *)
-Q . S2P
Prelude.v
Config.v
Bytes.v
BlockStore.v
BlockCache.v
Bitmap.v
Layout.v
BlockTree.v
InodeForest.v
LayoutGrow.v
LayoutClear.v
LayoutIO.v
Efs.v
Vfs.v
VfsSpec.v
Directory.v
FileSystem.v
Pack.v
StateMonad.v
Address.v
FrameAllocator.v
PageTable.v
PageTableSpec.v
VirtioHal.v
MemorySet.v
MemorySetSpec.v
UserMemory.v
Utf8.v
Pipe.v
Scheduler.v
SchedulerSpec.v
TaskId.v
Paths.v
Files.v
IntrCell.v
Plic.v
InputDevice.v
SyncCalls.v
SchedulerRuns.v
BlockDriver.v
Process.v
ProcessTree.v
ProcessSpec.v
ExecArgs.v
Shell.v
Apps.v
UserLib.v
Programs.v
ShellMain.v
Gui.v
Console.v
FileCalls.v
FileCallsSpec.v
FileTable.v
FileResults.v
PathCalls.v
Syscall.v
WorldSteps.v
IoSteps.v
Machine.v
MachineSpec.v
MachineRuns.v
