(* ===== verification/Prelude.v ===== *)
(** * LemonCore: a verification library for the lemon-core kernel

    lemon-core is a uniprocessor RISC-V kernel in Rust with its own file
    system.  This library models its code as executable Gallina and proves
    what makes each part correct.

    ** The program and its parts

    - [easy-fs/src] is the file system: a cache of 512-byte blocks over a
      block device, two bitmaps, disk inodes with three levels of indirect
      blocks, and inodes that are files or directories.
    - [kernel/src/mm] is memory: addresses, frames, Sv39 page tables, address
      spaces, and access to the memory of a user from the kernel.
    - [kernel/src/task], [sync] and [timer.rs] are processes and threads, their
      stacks and identifiers, the ready queue, mutexes, semaphores, condition
      variables, timers, and cells that mask interrupts.
    - [kernel/src/fs] is what a program sees as files: inodes with an offset,
      pipes, the standard streams, and paths.
    - [kernel/src/syscall] is the interface to programs, [user/src] the
      other side of it.
    - [kernel/src/trap] connects them: a trap of the running program enters
      the handler, which performs a call, serves a device, or takes the
      processor from the program.
    - [kernel/src/drivers] and [boards] are the devices.
    - [apps/src/bin] are programs, among them the shell, and [easy-fs-fuse]
      makes the disk image.

    ** Files of the library

    Foundations: [Prelude] (faults, the [res] monad, machine integers, lists,
    tactics and the hint database [lemon]), [Config] (constants of
    [easy-fs/src/config.rs], [kernel/src/config.rs], [boards/qemu.rs]), [Bytes]
    (little-endian values and the class [Repr] of types laid out in bytes),
    [StateMonad] (computations [st S A] over a state that may panic).

    The file system.  [BlockStore] has programs over a block store as trees
    of accesses and the plain store; [BlockCache] ([block_cache.rs],
    [block_dev.rs]) has the cache and the refinement of the plain store, for
    every program.  [Bitmap] ([bitmap.rs]), [Layout] ([layout.rs]), [Efs]
    ([efs.rs]) and [Vfs] ([vfs.rs]) have the operations, one definition for
    each function.  [BlockTree] and [InodeForest] are the abstract block trees
    of an inode; [LayoutGrow], [LayoutClear] and [LayoutIO] relate growing,
    clearing, reading and writing to them.  [VfsSpec] has the effect of the
    inode operations on one inode, [Directory] directories as lists of
    entries, and [FileSystem] the invariant of a whole file system and the
    operations as updates of a map from inode numbers to contents.  [Pack] is
    the image builder ([easy-fs-fuse/src/main.rs]), which runs on the cache
    over the image file.

    Memory.  [Address] ([address.rs]), [FrameAllocator] ([frame_allocator.rs]
    and the recycling allocator of [task/id.rs], behind the class
    [AllocatorSpec]), [PageTable] ([page_table.rs]) with [PageTableSpec] (page
    tables refine finite maps), [MemorySet] ([memory_set.rs], [mm/mod.rs]) with
    [MemorySetSpec] (frames owned by a space; mapping, cloning, dropping),
    [UserMemory] (buffers of the user), [VirtioHal] (memory for devices,
    [drivers/bus/virtio.rs]).

    Tasks.  [Scheduler] ([task/manager.rs], [processor.rs], [mod.rs],
    [sync/*.rs], [timer.rs]) with [SchedulerSpec] and [SchedulerRuns] (what an
    operation does to the queues and to the processor); [SyncCalls]
    ([syscall/sync.rs]); [TaskId] ([task/id.rs]); [IntrCell] ([sync/up.rs]);
    [Process] ([task/pcb.rs], [tcb.rs], [signal.rs], [trap/context.rs],
    [syscall/process.rs], [thread.rs]) with the abstraction [ProcessTree] and
    the simulation [ProcessSpec]; [ExecArgs] (the arguments of [exec] and
    [_start] of [user/src/lib.rs]).

    Files.  [Paths] and [Files] ([fs/mod.rs], [fs/inode.rs]), [Pipe]
    ([fs/pipe.rs]), [Utf8] (the check of [core::str::from_utf8]), [FileCalls]
    ([syscall/fs.rs], [fs/stdio.rs] and [sys_exec], with the user's memory and
    files shared between processes), [FileCallsSpec] ([read] and [write]),
    [FileTable] (the invariant of the open files, a part of that of the
    machine), [FileResults] (descriptors) and [PathCalls] (the calls that take
    a path, against the directories of the disk).

    Devices and interface.  [Plic] ([drivers/plic.rs], [boards/qemu.rs]),
    [InputDevice] ([drivers/chardev/ns16550a.rs], [drivers/input/mod.rs],
    [syscall/input.rs], [user/src/input.rs]), [BlockDriver]
    ([drivers/block/virtio_blk.rs]), [Syscall] ([syscall/mod.rs] and
    [user/src/syscall.rs]).

    The machine.  [Machine] ([trap/mod.rs], [task/processor.rs], [task/mod.rs],
    [syscall/gui.rs]) puts the states of the parts together: its events are a
    stretch of a program in user mode, a trap from user mode, a round of
    [run_tasks] and a trap inside the kernel, and a task that waits is kept
    with the rest of its call; the interrupts of the keyboard, the mouse, the
    serial line, the disk and the timer wake the tasks that wait for them.
    [WorldSteps] and [IoSteps] say how the calls
    on processes and on files use the scheduler, [MachineSpec] has the
    invariant of the machine and [MachineRuns] theorems about its runs.

    Programs.  [UserLib] ([user/src/fs.rs], [process.rs], [thread.rs],
    [sync.rs], [signal.rs], [console.rs], [lang_items.rs]) has programs as trees
    of system calls, the weakest precondition [wp] of a program over every
    kernel that replies as a relation says, and the classes [Kernel] and
    [FileServer] of what programs rely on; [FileResults] and [PathCalls] have
    what the calls of [FileCalls] do.  [Shell] has the parser and the line
    editor of [apps/src/bin/shell.rs] and [Apps] the parser of [sleep.rs] and
    the listing of [ls.rs]; [Programs] ([mkdir.rs], [rm.rs], [rmdir.rs],
    [touch.rs], [echo.rs], [cat.rs], [ls.rs], [sleep.rs], [daemon.rs]) and
    [ShellMain] ([shell.rs]) have the programs themselves.  [Gui]
    ([user/src/gui.rs], the cursor of [drivers/gpu/mod.rs]) is the display and
    [Console] ([kernel/src/console.rs], [logging.rs], [lang_items.rs]) the log.

    ** How the code is modelled

    Integers are [Z] with [w32], [w64], [i64] where the code wraps (the
    release profile of the repository does not check overflow).  A function
    that can panic returns a [res] or is a computation of [st]; every [unwrap],
    [assert!], index and [panic!] of the code is a fault of its own.  Shared
    objects ([Arc]) are named by identity in maps of the state, so that
    aliasing is visible; where the code reads a reference count, the model
    counts the references in the state ([sys_waitpid] counts those that reads
    and writes keep while they wait, too).  An object whose last reference is
    gone may stay in its map, where nothing names it.  A reference into memory is the
    address it points to.  A call that gives up the processor is cut there:
    the operation ends with what is left to do, and a later turn goes on.
    References to physical address 0 panic, as [as_ref] and [as_mut] do.

    Parameters stand for code outside the repository: the block device, the
    symbols of the linker script, the ELF parser [xmas_elf], the address of
    the trap handler and the value of [sstatus], the inodes of [/] and [/proc],
    the bytes between the fields of [Stat], and devices behind volatile loads
    and stores or behind [virtio_drivers].  What theorems assume of them are
    laws of classes ([BlockDeviceSpec], [UartLaws], [EventLaws], ...), each
    with an instance; the channels of the disk's queue and the pieces in which
    the host reads a file are parameters of [BlockDriver] and [Pack].

    Fuel.  Loops that are not structural take fuel, and the theorems show the
    stated amount to be enough: the loops over the blocks of a file take the
    length of the buffer, those of [translated_byte_buffer] the number of
    pages plus one, a turn of a pipe two rounds, [check_timer] the number of
    timers plus one, [read_all] the number of chunks of the file, the
    interrupt handlers the number of items the device holds plus one, a write
    to the serial line the number of polls it is busy; the loops of the shell
    take one more than the number of keys, and the loop that waits for a child
    the number of times the kernel may be asked.  The bounds on the
    length of strings and argument lists of users are parameters
    ([str_fuel]): there the theorems are about calls that return.  Decimal
    numbers of a [usize] have at most 20 digits.

    ** What the theorems show

    - The file system: the cache refines the plain store and [sync_all] makes
      it durable; growing, clearing, reading and writing an inode are right
      for all three levels; every operation keeps the invariant of the whole
      file system and is the expected update of one file or directory; a
      formatted disk opens again.
    - Memory: a page table refines a finite map; cloning an address space
      copies every page into frames of its own, dropping it returns them all;
      translated buffers are the user's bytes in order.
    - Tasks: every task is in one place and its status says which; mutual
      exclusion; the balance of semaphores; interrupts are masked exactly
      while a cell is borrowed; the tree of processes stays a tree rooted at
      the first process, a child is reaped once, by its parent; a call on a
      mutex or the like performs its operation on the object it names and
      touches no object of another process.
    - Files: [read] and [write] move exactly the bytes of the file, the pipe
      or the serial line from and to the user's memory; pipes are first in,
      first out and deliver the end of file when no writer is left; [open],
      [dup], [dup2], [close], [fstat] and [pipe] do to the table of descriptors
      what their results tell, and to no other one; [chdir], [getcwd], [mkdir]
      and [unlink] return the number that says how their path resolves, and
      make or remove exactly what it names.
    - Devices and interface: the registers of the interrupt controller do not
      overlap; input is delivered once and in order and a single reader is
      never left asleep; events survive packing; a task that waits for the
      disk is woken by the interrupt of its own request; the kernel performs
      the system call the user library asked for.
    - The machine: in every run the scheduler has exactly the tasks that have
      not ended, the invariants of the parts hold together, and a task on the
      processor is in the middle of no call; a task in the ready queue runs
      after as many rounds as it has predecessors; the timer takes the
      processor from every program and wakes exactly the sleepers whose time
      has come; interrupts take the processor from no task inside the kernel
      and lose nothing; a call that returns puts its result into [a0], behind
      the [ecall], and changes nothing else on the way.
    - Programs: the arguments of [exec] arrive in [main]; the shell parses
      every command line into its arguments and redirections, and shows the
      line it reads; a session of the shell never panics on lines that have an
      argument while the working directory has at most 128 bytes, and its child redirects and runs exactly the command of the
      line; [cat] and [ls] print what the files hold and close them; [mkdir],
      [rm] and [rmdir] try every operand and report each result; drawing never
      leaves the display; the image builder makes a file system that holds
      the tree of the host, and when a file came last, all of it is in the
      image.

    Theorems about faults of the code are here too ([decrease_size_collects_kept],
    [thread_create_truncates], [stdout_split_char], [lost_wakeup],
    [long_args_stray], [no_argument_panics], [sleep_oddities],
    [dma_realloc_panics], [find_behind_file_panics], [right_of_screen_wraps],
    [dup2_largest_panics], [getcwd_long_panics], [sleep_window]).

    ** Not modelled

    The kernel heap and the heap of programs (a static array handed to a
    crate): memory that is allocated is taken to be there.  The driver of the
    graphics device, but for its cursor (calls into [virtio_drivers]); the
    assembly of traps and context switches and the control registers it sets;
    the boot, which calls the initialisation of the parts; the programs under
    [tests]; the command line and the input errors of [easy-fs-fuse].

    Programs run on a kernel that is a relation between calls and replies, not
    on the machine: the promises of [Kernel] and [ShellKernel] are ranges of
    results, within what the theorems on the calls say of them.

    In the machine a call on files is one step: the waits of the disk driver
    inside it, which [BlockDriver] models by themselves, are not interleaved
    with other tasks (the spin locks of the file system exclude other calls on
    files meanwhile).  A trap inside the kernel is an event between the steps
    of tasks, not in the middle of one; in particular [sys_sleep] is one step,
    and the window between its two parts is only in [sleep_window]. *)

From stdpp Require Export prelude gmap list fin_maps sets strings.
From Stdlib Require Export ZArith Lia.

#[global] Open Scope Z_scope.

(** ** Faults and results

    A Rust computation either returns or panics.  A spin lock taken twice
    hangs the machine and an out-of-range enum discriminant is undefined
    behaviour; both are faults of the model as well. *)

Inductive fault :=
  | UnwrapNone           (** [Option::unwrap]/[expect] on [None] *)
  | AssertFailed         (** [assert!], [assert_eq!] *)
  | IndexOutOfBounds     (** slice or array index *)
  | RunOutOfBlockCache   (** [panic!("Run out of BlockCache")] *)
  | DeviceFailed         (** a block device rejects an access *)
  | SpinDeadlock         (** [spin::Mutex::lock] on a lock already held *)
  | InvalidValue         (** bytes that are no value of the type they are read at *)
  | AlreadyBorrowed      (** [RefCell::borrow_mut] on a borrowed cell *)
  | ExplicitPanic        (** any other [panic!] *)
  | OutOfFuel.           (** the model's loop bound is exhausted *)

#[global] Instance fault_eq_dec : EqDecision fault.
Proof. solve_decision. Defined.

Inductive res (A : Type) :=
  | Ok (a : A)
  | Panic (f : fault).
Arguments Ok {A} a.
Arguments Panic {A} f.

#[global] Instance res_eq_dec {A} `{EqDecision A} : EqDecision (res A).
Proof. solve_decision. Defined.

Definition res_bind {A B} (m : res A) (k : A -> res B) : res B :=
  match m with
  | Ok a => k a
  | Panic f => Panic f
  end.

Definition unwrap {A} (o : option A) : res A :=
  match o with
  | Some a => Ok a
  | None => Panic UnwrapNone
  end.

Definition assert (b : bool) : res () :=
  if b then Ok tt else Panic AssertFailed.

Declare Scope lemon_scope.
Delimit Scope lemon_scope with lemon.
Notation "'let?' x ':=' m 'in' k" := (res_bind m (fun x => k))
  (at level 10, x pattern, m at level 100, k at level 200) : lemon_scope.
#[global] Open Scope lemon_scope.

Lemma res_bind_Ok {A B} (m : res A) (k : A -> res B) b :
  res_bind m k = Ok b <-> exists a, m = Ok a /\ k a = Ok b.
Proof.
  destruct m as [a|f]; simpl; split; [eauto|by intros (? & [= ->] & ?)|done|].
  by intros (? & ? & ?).
Qed.

Lemma unwrap_Ok {A} (o : option A) a : unwrap o = Ok a <-> o = Some a.
Proof. destruct o; naive_solver. Qed.

Lemma assert_Ok b u : assert b = Ok u <-> b = true.
Proof. destruct b, u; naive_solver. Qed.

(** ** Machine integers

    [usize] and [u64] are 64-bit, [u32] 32-bit; the kernel is built in
    release mode, where arithmetic wraps around. *)

Definition w32 (x : Z) : Z := x mod 2 ^ 32.
Definition w64 (x : Z) : Z := x mod 2 ^ 64.
(** [as isize] *)
Definition i64 (x : Z) : Z := (x + 2 ^ 63) mod 2 ^ 64 - 2 ^ 63.

Definition is_u32 (x : Z) : Prop := 0 <= x < 2 ^ 32.
Definition is_u64 (x : Z) : Prop := 0 <= x < 2 ^ 64.

Definition div_ceil (a b : Z) : Z := (a + b - 1) / b.

Lemma w32_id x : is_u32 x -> w32 x = x.
Proof. unfold is_u32, w32. apply Z.mod_small. Qed.
Lemma w64_id x : is_u64 x -> w64 x = x.
Proof. unfold is_u64, w64. apply Z.mod_small. Qed.
Lemma w32_range x : is_u32 (w32 x).
Proof. unfold is_u32, w32. apply Z.mod_pos_bound. lia. Qed.
Lemma w64_range x : is_u64 (w64 x).
Proof. unfold is_u64, w64. apply Z.mod_pos_bound. lia. Qed.

Lemma div_ceil_spec a b q :
  0 < b -> div_ceil a b = q <-> b * (q - 1) < a <= b * q.
Proof.
  intros Hb. unfold div_ceil. split.
  - intros <-. pose proof (Z.div_mod (a + b - 1) b ltac:(lia)).
    pose proof (Z.mod_pos_bound (a + b - 1) b Hb). nia.
  - intros H. symmetry. apply (Z.div_unique _ _ _ (a + b - 1 - b * q)); nia.
Qed.

Lemma div_ceil_bounds a b :
  0 < b -> b * (div_ceil a b - 1) < a <= b * div_ceil a b.
Proof. intros Hb. by apply div_ceil_spec. Qed.

Lemma div_ceil_nonneg a b : 0 < b -> 0 <= a -> 0 <= div_ceil a b.
Proof. intros. apply Z.div_pos; lia. Qed.

Lemma div_ceil_mono a a' b : 0 < b -> a <= a' -> div_ceil a b <= div_ceil a' b.
Proof. intros. apply Z.div_le_mono; lia. Qed.

(** ** Slices of lists *)

(** [l[off .. off + n]] *)
Definition slice {A} (off n : nat) (l : list A) : list A := take n (drop off l).

(** [l[off .. off + new.len()].copy_from_slice(new)] *)
Definition splice {A} (off : nat) (new l : list A) : list A :=
  take off l ++ new ++ drop (off + length new) l.

Section slices.
Context {A : Type}.
Implicit Types (l new : list A) (off n i : nat).

Lemma length_slice off n l :
  (off + n <= length l)%nat -> length (slice off n l) = n.
Proof. intros. unfold slice. rewrite length_take, length_drop. lia. Qed.

Lemma length_splice off new l :
  (off + length new <= length l)%nat -> length (splice off new l) = length l.
Proof.
  intros. unfold splice. rewrite !length_app, length_take, length_drop. lia.
Qed.

Lemma slice_splice_same off new l :
  (off + length new <= length l)%nat -> slice off (length new) (splice off new l) = new.
Proof.
  intros. unfold slice, splice.
  rewrite drop_app_le by (rewrite length_take; lia).
  rewrite (drop_ge (take _ _)) by (rewrite length_take; lia).
  simpl. by rewrite take_app_length.
Qed.

Lemma splice_all (new l : list A) : length new = length l -> splice 0 new l = new.
Proof. intros Hl. unfold splice. cbn. by rewrite Hl, drop_all, app_nil_r. Qed.

Lemma splice_slice_same off n l :
  (off + n <= length l)%nat -> splice off (slice off n l) l = l.
Proof.
  intros. unfold splice. rewrite length_slice by done. unfold slice.
  rewrite <- drop_drop, take_drop. apply take_drop.
Qed.

Lemma splice_splice_same off new new' l :
  length new = length new' -> (off + length new <= length l)%nat ->
  splice off new' (splice off new l) = splice off new' l.
Proof.
  intros Hlen Hle. unfold splice. f_equal.
  - rewrite take_app_le by (rewrite length_take; lia).
    rewrite take_take. f_equal. lia.
  - f_equal. rewrite <- Hlen, <- drop_drop.
    rewrite drop_app_le by (rewrite length_take; lia).
    rewrite (drop_ge (take _ _)) by (rewrite length_take; lia). simpl.
    by rewrite drop_app_length.
Qed.

Lemma lookup_splice_in off new l i :
  (off <= i < off + length new)%nat -> (off + length new <= length l)%nat ->
  splice off new l !! i = new !! (i - off)%nat.
Proof.
  intros. unfold splice.
  rewrite lookup_app_r by (rewrite length_take; lia).
  rewrite lookup_app_l by (rewrite length_take; lia).
  f_equal. rewrite length_take. lia.
Qed.

Lemma lookup_splice_out off new l i :
  (i < off \/ off + length new <= i)%nat -> (off + length new <= length l)%nat ->
  splice off new l !! i = l !! i.
Proof.
  intros [Hi|Hi] Hle; unfold splice.
  - rewrite lookup_app_l by (rewrite length_take; lia). by apply lookup_take_lt.
  - rewrite lookup_app_r by (rewrite length_take; lia).
    rewrite lookup_app_r by (rewrite length_take; lia).
    rewrite lookup_drop, length_take. f_equal. lia.
Qed.

Lemma lookup_slice off n l i :
  (i < n)%nat -> slice off n l !! i = l !! (off + i)%nat.
Proof. intros. unfold slice. by rewrite lookup_take_lt, lookup_drop. Qed.

Lemma slice_splice_disjoint off n off' new l :
  (off + n <= off' \/ off' + length new <= off)%nat ->
  (off' + length new <= length l)%nat ->
  slice off n (splice off' new l) = slice off n l.
Proof.
  intros Hd Hle. apply list_eq. intros i.
  destruct (decide (i < n)%nat) as [Hi|Hi].
  - rewrite !lookup_slice by done. apply lookup_splice_out; [lia|done].
  - unfold slice. rewrite !lookup_take_ge by lia. done.
Qed.
End slices.

(** Adjacent slices. *)
Lemma splice_app {A} off (a b l : list A) :
  (off + length a + length b <= length l)%nat ->
  splice (off + length a) b (splice off a l) = splice off (a ++ b) l.
Proof.
  intros H. apply list_eq. intros i.
  destruct (decide (i < off)%nat).
  { rewrite !lookup_splice_out; rewrite ?length_app, ?length_splice; try lia. done. }
  destruct (decide (i < off + length a)%nat).
  { rewrite lookup_splice_out by (rewrite ?length_splice; lia).
    rewrite !lookup_splice_in by (rewrite ?length_app; lia).
    rewrite lookup_app_l by lia. done. }
  destruct (decide (i < off + length a + length b)%nat).
  - rewrite !lookup_splice_in by (rewrite ?length_app, ?length_splice; lia).
    rewrite lookup_app_r by lia. f_equal. lia.
  - rewrite !lookup_splice_out; rewrite ?length_app, ?length_splice; try lia. done.
Qed.

Lemma splice_app_l {A} off (new l k : list A) :
  (off + length new <= length l)%nat -> splice off new (l ++ k) = splice off new l ++ k.
Proof. intros H. unfold splice. rewrite take_app_le, drop_app_le by lia. by rewrite <- !app_assoc. Qed.

Lemma slice_app {A} off n m (l : list A) :
  slice off (n + m) l = slice off n l ++ slice (off + n) m l.
Proof. unfold slice. rewrite <- drop_drop. generalize (drop off l). intros l'. by rewrite take_take_drop. Qed.

Lemma slice_take {A} off n m (l : list A) :
  (off + n <= m)%nat -> slice off n (take m l) = slice off n l.
Proof.
  intros. apply list_eq. intros i. destruct (decide (i < n)%nat).
  - rewrite !lookup_slice by done. rewrite lookup_take_lt by lia. done.
  - unfold slice. rewrite !lookup_take_ge by lia. done.
Qed.

Lemma take_splice {A} off (new : list A) m l :
  (off + length new <= m)%nat -> (m <= length l)%nat ->
  take m (splice off new l) = splice off new (take m l).
Proof.
  intros Hm Hl. apply list_eq. intros i. destruct (decide (i < m)%nat) as [Hi|Hi].
  - rewrite lookup_take_lt by done.
    destruct (decide (off <= i < off + length new)%nat).
    + rewrite !lookup_splice_in by (rewrite ?length_take; lia). done.
    + rewrite !lookup_splice_out by (rewrite ?length_take; lia). by rewrite lookup_take_lt.
  - rewrite lookup_take_ge by lia. symmetry. apply lookup_ge_None_2.
    rewrite length_splice, length_take; rewrite ?length_take; lia.
Qed.

(** Concatenations of pieces of the same length [w]. *)
Section pieces.
Context {A B : Type} (w : nat).
Implicit Types (g : A -> list B) (l : list A).

Lemma length_pieces g l :
  Forall (fun x => length (g x) = w) l -> length (flat_map g l) = (w * length l)%nat.
Proof. induction 1 as [|x l Hx _ IH]; simpl; rewrite ?length_app, ?IH, ?Hx; lia. Qed.

Lemma slice_piece g l i x o n :
  Forall (fun x => length (g x) = w) l -> l !! i = Some x -> (o + n <= w)%nat ->
  slice (w * i + o) n (flat_map g l) = slice o n (g x).
Proof.
  intros Hl Hx Ho. rewrite <- (take_drop_middle _ _ _ Hx), flat_map_app. cbn [flat_map].
  assert (length (flat_map g (take i l)) = w * i)%nat as E.
  { rewrite length_pieces by (by apply Forall_take). rewrite length_take.
    apply lookup_lt_Some in Hx. f_equal. lia. }
  assert (length (g x) = w) by (by eapply (Forall_lookup_1 _ _ _ _ Hl)).
  unfold slice. rewrite drop_app_ge by lia. rewrite E, drop_app_le by lia.
  rewrite take_app_le by (rewrite length_drop; lia). do 2 f_equal. lia.
Qed.

(** Updating one piece. *)
Lemma splice_piece g g' l i x o new :
  Forall (fun x => length (g x) = w) l -> NoDup l -> l !! i = Some x ->
  (o + length new <= w)%nat -> g' x = splice o new (g x) ->
  (forall y, y <> x -> g' y = g y) ->
  flat_map g' l = splice (w * i + o) new (flat_map g l).
Proof.
  intros Hl Hnd Hx Ho Hgx Hg.
  assert (length (g x) = w) as Hw by (by eapply (Forall_lookup_1 _ _ _ _ Hl)).
  revert i Hx. induction l as [|y l IH]; intros i Hx; [done|].
  inversion Hl; subst. apply NoDup_cons in Hnd as [Hy Hnd]. destruct i as [|i]; simpl in *.
  - injection Hx as ->. rewrite Nat.mul_0_r, Nat.add_0_l, Hgx.
    assert (flat_map g' l = flat_map g l) as ->.
    { clear -Hy Hg. induction l as [|z l IH]; [done|]. cbn. rewrite not_elem_of_cons in Hy.
      rewrite Hg, IH; naive_solver. }
    unfold splice. rewrite take_app_le by lia. rewrite drop_app_le by lia. by rewrite <- !app_assoc.
  - rewrite Hg by (intros ->; apply Hy; by eapply list_elem_of_lookup_2).
    rewrite (IH ltac:(done) ltac:(done) i Hx). unfold splice.
    rewrite take_app_ge by lia. rewrite drop_app_ge by lia. rewrite <- !app_assoc.
    do 2 f_equal; [f_equal; lia|]. do 2 f_equal. lia.
Qed.
End pieces.

(** ** Filters *)

Lemma filter_ext_in {A} (P Q : A -> Prop) `{forall x, Decision (P x)} `{forall x, Decision (Q x)} (l : list A) :
  (forall x, x ∈ l -> (P x <-> Q x)) -> filter P l = filter Q l.
Proof.
  intros HPQ. induction l as [|x l IH]; [done|]. rewrite !filter_cons.
  rewrite IH by (intros y Hy; apply HPQ; by right).
  destruct (HPQ x) as [H1 H2]; [by left|]. repeat case_decide; naive_solver.
Qed.

Lemma filter_none {A} (P : A -> Prop) `{forall x, Decision (P x)} (l : list A) :
  (forall x, x ∈ l -> ~ P x) -> filter P l = [].
Proof.
  intros HP. induction l as [|x l IH]; [done|]. rewrite filter_cons, decide_False by (apply HP; by left).
  apply IH. intros y Hy. apply HP. by right.
Qed.

(** ** Automation *)

Lemma perm_end {A} (a : list A) : a ≡ₚ a ++ [].
Proof. by rewrite app_nil_r. Qed.

Lemma perm_pull {A} (b a r r' : list A) : r ≡ₚ a ++ r' -> b ++ r ≡ₚ a ++ b ++ r'.
Proof. intros ->. apply Permutation_app_swap_app. Qed.

(** A proof that [l] is [a] followed by something, for an [a] among the
    appended parts of [l]. *)
Ltac perm_find a l :=
  lazymatch l with
  | a ++ ?r => constr:(Permutation_refl (a ++ r))
  | a => constr:(perm_end a)
  | ?b ++ ?r => let p := perm_find a r in constr:(perm_pull b a _ _ p)
  end.

(** Permutations of the same appended lists. *)
Ltac perm_solve :=
  rewrite <- ?app_assoc, ?app_nil_r; simpl;
  repeat (rewrite <- ?app_assoc, ?app_nil_r;
    lazymatch goal with
    | |- ?a ++ _ ≡ₚ ?l =>
        let p := perm_find a l in
        etransitivity; [|symmetry; exact p]; apply Permutation_app_head
    end);
  rewrite ?app_nil_r; reflexivity.

Create HintDb lemon.
Create Rewrite HintDb lemon.
#[export] Hint Rewrite @length_app @length_take @length_drop @length_replicate
  @length_insert @length_fmap @length_seqZ : lemon.
#[export] Hint Resolve w32_range w64_range : lemon.

(** Turn the boolean tests of the code into propositions. *)
Ltac reflect_bools :=
  repeat match goal with
  | H : (_ <? _) = true |- _ => apply Z.ltb_lt in H
  | H : (_ <? _) = false |- _ => apply Z.ltb_ge in H
  | H : (_ <=? _) = true |- _ => apply Z.leb_le in H
  | H : (_ <=? _) = false |- _ => apply Z.leb_gt in H
  | H : (_ =? _) = true |- _ => apply Z.eqb_eq in H
  | H : (_ =? _) = false |- _ => apply Z.eqb_neq in H
  | H : (_ && _)%bool = true |- _ => apply andb_prop in H as [? ?]
  | H : (_ || _)%bool = false |- _ => apply orb_false_elim in H as [? ?]
  | H : negb _ = true |- _ => apply negb_true_iff in H
  | H : negb _ = false |- _ => apply negb_false_iff in H
  end.

(** Case analysis on the [if] of the goal, with its condition reflected. *)
Ltac case_if :=
  match goal with
  | |- context [if ?b then _ else _] =>
      let E := fresh "E" in destruct b eqn:E; reflect_bools
  end.

(** Invert the successful steps of a [res] computation. *)
Ltac inv_res :=
  repeat match goal with
  | H : res_bind _ _ = Ok _ |- _ =>
      let a := fresh "a" in let E := fresh "E" in
      apply res_bind_Ok in H as (a & E & H)
  | H : unwrap _ = Ok _ |- _ => apply unwrap_Ok in H
  | H : assert _ = Ok _ |- _ => apply assert_Ok in H
  | H : Ok _ = Ok _ |- _ => injection H as H
  | H : Panic _ = Ok _ |- _ => discriminate H
  end; subst.

Ltac list_len := autorewrite with lemon in *; simpl in *; try lia.

(** Drop the wrap-arounds of values in range, innermost first. *)
Ltac wrap_id :=
  repeat match goal with
  | |- context [w32 ?x] =>
      lazymatch x with context [w32 _] => fail | _ => rewrite (w32_id x) by (unfold is_u32; lia) end
  | |- context [w64 ?x] =>
      lazymatch x with context [w64 _] => fail | _ => rewrite (w64_id x) by (unfold is_u64; lia) end
  end.
