(* ===== verification/Config.v ===== *)
(** * Constants

    The configuration constants of the file system
    ([easy-fs/src/config.rs]) and of the kernel ([kernel/src/config.rs],
    [kernel/src/boards/qemu.rs]). *)

From S2P Require Import Prelude.

(** ** easy-fs *)

Definition BLOCK_SIZE : Z := 512.
Definition BLOCK_BITS : Z := BLOCK_SIZE * 8.
Definition BLOCK_CACHE_SIZE : Z := 16.
Definition EFS_MAGIC : Z := 0x3b800001.

Definition DIRECT_COUNT : Z := 27.
Definition INDIRECT_COUNT : Z := BLOCK_SIZE / 4.
Definition INDIRECT1_COUNT : Z := INDIRECT_COUNT.
Definition INDIRECT2_COUNT : Z := INDIRECT_COUNT ^ 2.
Definition INDIRECT3_COUNT : Z := INDIRECT_COUNT ^ 3.

Definition DIRECT_BOUND : Z := DIRECT_COUNT.
Definition INDIRECT1_BOUND : Z := DIRECT_BOUND + INDIRECT1_COUNT.
Definition INDIRECT2_BOUND : Z := INDIRECT1_BOUND + INDIRECT2_COUNT.
Definition INDIRECT3_BOUND : Z := INDIRECT2_BOUND + INDIRECT3_COUNT.

Definition NAME_LENGTH_LIMIT : Z := 27.

(** Unfold every easy-fs constant to its value. *)
Ltac efs_consts :=
  change BLOCK_SIZE with 512 in *; change BLOCK_BITS with 4096 in *;
  change BLOCK_CACHE_SIZE with 16 in *;
  change DIRECT_COUNT with 27 in *; change INDIRECT_COUNT with 128 in *;
  change INDIRECT1_COUNT with 128 in *; change INDIRECT2_COUNT with 16384 in *;
  change INDIRECT3_COUNT with 2097152 in *; change DIRECT_BOUND with 27 in *;
  change INDIRECT1_BOUND with 155 in *; change INDIRECT2_BOUND with 16539 in *;
  change INDIRECT3_BOUND with 2113691 in *; change NAME_LENGTH_LIMIT with 27 in *.

(** ** Kernel *)

Definition USER_STACK_SIZE : Z := 4096 * 2.
Definition KERNEL_STACK_SIZE : Z := 4096 * 2.
Definition KERNEL_HEAP_SIZE : Z := 0x300000.
Definition PAGE_SIZE : Z := 0x1000.
Definition PAGE_SIZE_BITS : Z := 0xc.
Definition usize_MAX : Z := 2 ^ 64 - 1.
Definition TRAMPOLINE : Z := usize_MAX - PAGE_SIZE + 1.
Definition TRAP_CONTEXT_BASE : Z := TRAMPOLINE - PAGE_SIZE.

Definition CLOCK_FREQ : Z := 10000000.
Definition MEMORY_END : Z := 0x88000000.
Definition MMIO : list (Z * Z) :=
  [(0x00100000, 0x000200); (0x0C000000, 0x210000); (0x10000000, 0x009000)].
