(* ===== verification/Bytes.v ===== *)
(** * Bytes in memory and on disk

    Little-endian integers, arrays of them, and the [Repr] class: how a
    [#[repr(C)]] value is laid out in the bytes of a block.  [as_ref] and
    [as_mut_ref] of the block cache reinterpret a part of the 512-byte array
    at such a type. *)

From S2P Require Import Prelude.
From coqutil Require Export Byte.
From coqutil Require Import Word.LittleEndianList.

Abbreviation u8 := Init.Byte.byte.

#[global] Instance u8_eq_dec : EqDecision u8.
Proof. intros x y. destruct (Byte.eqb x y) eqn:E.
  - left. by apply Byte.byte_dec_bl.
  - right. intros ->. by rewrite Byte.byte_dec_lb in E.
Defined.

(** Little-endian value of a byte list, and the [n] bytes of a value. *)
Definition le_get (bs : list u8) : Z := le_combine bs.
Definition le_put (n : nat) (z : Z) : list u8 := le_split n z.

Lemma length_le_put n z : length (le_put n z) = n.
Proof. apply length_le_split. Qed.

Lemma le_get_put n z : 0 <= z < 2 ^ (8 * Z.of_nat n) -> le_get (le_put n z) = z.
Proof.
  intros. unfold le_get, le_put. rewrite le_combine_split, Z.mul_comm.
  by apply Z.mod_small.
Qed.

Lemma le_put_get bs : le_put (length bs) (le_get bs) = bs.
Proof. apply split_le_combine. Qed.

Lemma le_get_bound bs : 0 <= le_get bs < 2 ^ (8 * Z.of_nat (length bs)).
Proof. apply le_combine_bound. Qed.

Lemma le_get_zero n : le_get (replicate n Byte.x00) = 0.
Proof.
  unfold le_get. rewrite <- (le_combine_0 n). f_equal.
  induction n; simpl; congruence.
Qed.

(** Arrays of [n] words of [w] bytes. *)
Fixpoint words_get (w n : nat) (bs : list u8) : list Z :=
  match n with
  | O => []
  | S n => le_get (take w bs) :: words_get w n (drop w bs)
  end.

Fixpoint words_put (w : nat) (ws : list Z) : list u8 :=
  match ws with
  | [] => []
  | z :: ws => le_put w z ++ words_put w ws
  end.

Lemma length_words_get w n bs : length (words_get w n bs) = n.
Proof. revert bs. induction n; intros; simpl; auto. Qed.

Lemma length_words_put w ws : length (words_put w ws) = (w * length ws)%nat.
Proof.
  induction ws as [|x ws IH]; simpl; [lia|].
  rewrite length_app, length_le_put, IH. lia.
Qed.

Lemma words_get_put w ws :
  Forall (fun z => 0 <= z < 2 ^ (8 * Z.of_nat w)) ws ->
  words_get w (length ws) (words_put w ws) = ws.
Proof.
  induction 1 as [|z ws Hz _ IH]; simpl; [done|].
  rewrite take_app_length', drop_app_length' by (by rewrite length_le_put).
  by rewrite le_get_put, IH.
Qed.

Lemma words_put_get w n bs :
  length bs = (w * n)%nat -> words_put w (words_get w n bs) = bs.
Proof.
  revert bs. induction n as [|n IH]; intros bs Hlen; simpl.
  { destruct bs; [done|]. simpl in Hlen. lia. }
  rewrite IH by (rewrite length_drop; lia).
  transitivity (take w bs ++ drop w bs); [|apply take_drop]. f_equal.
  rewrite <- (le_put_get (take w bs)) at 2. f_equal. rewrite length_take. lia.
Qed.

Lemma words_get_bound w n bs :
  (w * n <= length bs)%nat ->
  Forall (fun z => 0 <= z < 2 ^ (8 * Z.of_nat w)) (words_get w n bs).
Proof.
  revert bs. induction n as [|n IH]; intros bs Hle; simpl; constructor.
  - pose proof (le_get_bound (take w bs)) as H. rewrite length_take in H.
    by replace (w `min` length bs)%nat with w in H by lia.
  - apply IH. rewrite length_drop. lia.
Qed.

Lemma words_get_zero w n m :
  words_get w n (replicate m Byte.x00) = replicate n 0.
Proof.
  revert m. induction n as [|n IH]; intros m; simpl; [done|].
  rewrite take_replicate, drop_replicate, le_get_zero, IH. done.
Qed.

(** ** Values with a byte representation

    [into_bytes old t] is what the bytes [old] become when the fields of the
    value are overwritten with those of [t]: padding keeps its old bytes.
    [of_bytes] is [None] on bytes that are no value of the type, which to
    read is undefined behaviour. *)

Class Repr (T : Type) := {
  type_size : nat;
  type_wf : T -> Prop;
  of_bytes : list u8 -> option T;
  into_bytes : list u8 -> T -> list u8;
}.

Class ReprLaws (T : Type) `{Repr T} := {
  length_into_bytes old t :
    length old = type_size -> type_wf t -> length (into_bytes old t) = type_size;
  of_into_bytes old t :
    length old = type_size -> type_wf t -> of_bytes (into_bytes old t) = Some t;
  into_of_bytes bs t :
    length bs = type_size -> of_bytes bs = Some t -> into_bytes bs t = bs;
  of_bytes_wf bs t :
    length bs = type_size -> of_bytes bs = Some t -> type_wf t;
}.
#[global] Hint Mode Repr ! : typeclass_instances.
#[global] Hint Mode ReprLaws ! - : typeclass_instances.

Arguments type_size T {_}.

(** Arrays of little-endian words, as [[u32; n]] and [[u64; n]]. *)
Definition words_wf (w n : nat) (ws : list Z) : Prop :=
  length ws = n /\ Forall (fun z => 0 <= z < 2 ^ (8 * Z.of_nat w)) ws.

Record words (w n : nat) := Words { word_list : list Z }.
Arguments Words {w n} word_list.
Arguments word_list {w n} _.

#[global] Instance words_repr w n : Repr (words w n) := {
  type_size := (w * n)%nat;
  type_wf ws := words_wf w n (word_list ws);
  of_bytes bs := Some (Words (words_get w n bs));
  into_bytes _ ws := words_put w (word_list ws);
}.

#[global] Instance words_repr_laws w n : ReprLaws (words w n).
Proof.
  constructor; cbn; intros.
  - destruct H0 as [Hlen _]. by rewrite length_words_put, Hlen.
  - destruct t as [ws], H0 as [Hlen Hb]; simpl in *.
    by rewrite <- Hlen, words_get_put.
  - simplify_eq. simpl. by apply words_put_get.
  - simplify_eq. simpl. split; [apply length_words_get|].
    apply words_get_bound. lia.
Qed.

(** Arrays of bytes, as [[u8; n]]. *)
Record bytes (n : nat) := Bytes { byte_list : list u8 }.
Arguments Bytes {n} byte_list.
Arguments byte_list {n} _.

#[global] Instance bytes_repr n : Repr (bytes n) := {
  type_size := n;
  type_wf bs := length (byte_list bs) = n;
  of_bytes bs := Some (Bytes bs);
  into_bytes _ bs := byte_list bs;
}.

#[global] Instance bytes_repr_laws n : ReprLaws (bytes n).
Proof. constructor; cbn; intros; destruct t || idtac; by simplify_eq. Qed.
