(* ===== verification/BlockStore.v ===== *)
(** * Programs over a block store

    The file system reaches the disk only through
    [block_cache::get(id, dev).lock().read/modify(off, closure)] and
    [block_cache::sync_all()].  A computation of the file system is a tree
    of these steps ([prog]); a [Store] gives them a meaning.  This file has
    the tree, the typed accesses, and the plain store [disk], a map from
    block numbers to contents; [BlockCache.v] has the cached one and the
    proof that a program cannot tell them apart. *)

From S2P Require Import Prelude Bytes Config.

Abbreviation block := (list u8).

Definition zero_block : block := replicate (Z.to_nat BLOCK_SIZE) Byte.x00.

Inductive prog (A : Type) : Type :=
  | Ret (a : A)
  | Fail (f : fault)
  | Acquire (block_id : Z) (k : block -> prog A)
  | Release (block_id : Z) (new : option block) (k : prog A)
  | SyncAll (k : prog A).
Arguments Ret {A} a.
Arguments Fail {A} f.
Arguments Acquire {A} block_id k.
Arguments Release {A} block_id new k.
Arguments SyncAll {A} k.

Fixpoint bind {A B} (m : prog A) (f : A -> prog B) : prog B :=
  match m with
  | Ret a => f a
  | Fail e => Fail e
  | Acquire i k => Acquire i (fun b => bind (k b) f)
  | Release i n k => Release i n (bind k f)
  | SyncAll k => SyncAll (bind k f)
  end.

Notation "'let!' x ':=' m 'in' k" := (bind m (fun x => k))
  (at level 10, x pattern, m at level 100, k at level 200) : lemon_scope.
Notation "m ';;;' k" := (bind m (fun _ => k))
  (at level 100, right associativity) : lemon_scope.

Definition lift {A} (r : res A) : prog A :=
  match r with
  | Ok a => Ret a
  | Panic f => Fail f
  end.

(** [for x in l] with an accumulator. *)
Fixpoint fold_prog {A X} (f : A -> X -> prog A) (a : A) (l : list X) : prog A :=
  match l with
  | [] => Ret a
  | x :: l => let! a := f a x in fold_prog f a l
  end.

Definition for_each {X} (f : X -> prog ()) (l : list X) : prog () :=
  fold_prog (fun _ x => f x) tt l.

(** ** Typed access to the bytes of a block *)

(** [BlockCache::as_ref] *)
Definition as_ref {T} `{Repr T} (cache : block) (offset : Z) : res T :=
  let? _ := assert (offset + Z.of_nat (type_size T) <=? BLOCK_SIZE) in
  match of_bytes (slice (Z.to_nat offset) (type_size T) cache) with
  | Some t => Ok t
  | None => Panic InvalidValue
  end.

(** The cached bytes after a write through [BlockCache::as_mut_ref]. *)
Definition write_ref {T} `{Repr T} (cache : block) (offset : Z) (t : T) : block :=
  splice (Z.to_nat offset)
    (into_bytes (slice (Z.to_nat offset) (type_size T) cache) t) cache.

(** [block_cache::get(block_id, dev).lock().read(offset, f)] *)
Definition get_read {T V} `{Repr T} (block_id offset : Z) (f : T -> prog V) : prog V :=
  Acquire block_id (fun cache =>
    let! t := lift (as_ref cache offset) in
    let! v := f t in
    Release block_id None (Ret v)).

(** [block_cache::get(block_id, dev).lock().modify(offset, f)] *)
Definition get_modify {T V} `{Repr T} (block_id offset : Z)
    (f : T -> prog (V * T)) : prog V :=
  Acquire block_id (fun cache =>
    let! t := lift (as_ref cache offset) in
    let! (v, t') := f t in
    Release block_id (Some (write_ref cache offset t')) (Ret v)).

(** ** Stores *)

Class Store (S : Type) := {
  acquire : Z -> S -> res (block * S);
  release : Z -> option block -> S -> res S;
  sync_all : S -> res S;
}.

Fixpoint run {S A} `{Store S} (m : prog A) (s : S) : res (A * S) :=
  match m with
  | Ret a => Ok (a, s)
  | Fail f => Panic f
  | Acquire i k => let? (b, s) := acquire i s in run (k b) s
  | Release i n k => let? s := release i n s in run k s
  | SyncAll k => let? s := sync_all s in run k s
  end.

Lemma run_bind {S A B} `{Store S} (m : prog A) (f : A -> prog B) s :
  run (bind m f) s = let? (a, s') := run m s in run (f a) s'.
Proof.
  revert s. induction m as [a|e|i k IH|i n k IH|k IH]; intros s; simpl; try done.
  - destruct (acquire i s) as [[b s']|]; simpl; [apply IH|done].
  - destruct (release i n s); simpl; [apply IH|done].
  - destruct (sync_all s); simpl; [apply IH|done].
Qed.

Lemma run_bind_Ok {S A B} `{Store S} (m : prog A) (f : A -> prog B) s a s' :
  run m s = Ok (a, s') -> run (bind m f) s = run (f a) s'.
Proof. intros E. by rewrite run_bind, E. Qed.

Lemma run_lift {S A} `{Store S} (r : res A) s :
  run (lift r) s = let? a := r in Ok (a, s).
Proof. by destruct r. Qed.

(** ** The plain store

    Contents of the blocks, and the blocks whose cache is locked.  A block
    can be locked once, and at most [BLOCK_CACHE_SIZE] at a time. *)

Record disk := Disk { blocks : gmap Z block; held : gset Z }.

Definition disk_acquire (i : Z) (d : disk) : res (block * disk) :=
  if decide (i ∈ held d) then Panic SpinDeadlock
  else if BLOCK_CACHE_SIZE <=? Z.of_nat (size (held d)) then Panic RunOutOfBlockCache
  else match blocks d !! i with
       | Some b => Ok (b, Disk (blocks d) ({[i]} ∪ held d))
       | None => Panic DeviceFailed
       end.

(** A release is only ever of a held block, with 512 bytes: the guard and
    the array type of the code say so. *)
Definition disk_release (i : Z) (new : option block) (d : disk) : res disk :=
  if decide (i ∈ held d) then
    match new with
    | None => Ok (Disk (blocks d) (held d ∖ {[i]}))
    | Some b =>
        if decide (length b = Z.to_nat BLOCK_SIZE)
        then Ok (Disk (<[i:=b]> (blocks d)) (held d ∖ {[i]}))
        else Panic InvalidValue
    end
  else Panic InvalidValue.

Definition disk_sync_all (d : disk) : res disk :=
  if decide (held d = ∅) then Ok d else Panic SpinDeadlock.

#[global] Instance disk_store : Store disk := {
  acquire := disk_acquire;
  release := disk_release;
  sync_all := disk_sync_all;
}.

Definition disk_wf (d : disk) : Prop :=
  map_Forall (fun _ b => length b = Z.to_nat BLOCK_SIZE) (blocks d).

(** [d] can lock [n] more blocks. *)
Definition room (n : Z) (d : disk) : Prop :=
  Z.of_nat (size (held d)) + n <= BLOCK_CACHE_SIZE.

Definition hold (i : Z) (d : disk) : disk := Disk (blocks d) ({[i]} ∪ held d).

Lemma room_hold n i d : room (n + 1) d -> room n (hold i d).
Proof.
  unfold room, hold. simpl. intros.
  pose proof (size_union_alt {[i]} (held d)).
  pose proof (subseteq_size (held d ∖ {[i]}) (held d) ltac:(set_solver)).
  rewrite size_singleton in *. lia.
Qed.

Lemma room_weaken n m d : m <= n -> room n d -> room m d.
Proof. unfold room. lia. Qed.

(** ** Running a typed access on the plain store *)

Section typed.
Context {T V : Type} `{Repr T}.

Lemma disk_acquire_ok i d b :
  i ∉ held d -> room 1 d -> blocks d !! i = Some b ->
  acquire i d = Ok (b, hold i d).
Proof.
  intros Hi Hr Hb. cbn. unfold disk_acquire. rewrite decide_False by done.
  unfold room in Hr. efs_consts. case_if; [lia|]. by rewrite Hb.
Qed.

Lemma run_get_read i off (f : T -> prog V) d b t v bs' :
  i ∉ held d -> room 1 d -> blocks d !! i = Some b -> as_ref b off = Ok t ->
  run (f t) (hold i d) = Ok (v, Disk bs' (held (hold i d))) ->
  run (get_read i off f) d = Ok (v, Disk bs' (held d)).
Proof.
  intros Hi Hr Hb Ht Hf. cbn [get_read run].
  rewrite (disk_acquire_ok i d b) by done. cbn [res_bind].
  rewrite Ht. cbn [lift bind]. erewrite run_bind_Ok by exact Hf.
  cbn. unfold disk_release. rewrite decide_True by (simpl; set_solver).
  cbn. do 3 f_equal. set_solver.
Qed.

Lemma run_get_modify i off (f : T -> prog (V * T)) d b t v t' bs' :
  i ∉ held d -> room 1 d -> blocks d !! i = Some b -> as_ref b off = Ok t ->
  run (f t) (hold i d) = Ok (v, t', Disk bs' (held (hold i d))) ->
  length (write_ref b off t') = Z.to_nat BLOCK_SIZE ->
  run (get_modify i off f) d =
    Ok (v, Disk (<[i := write_ref b off t']> bs') (held d)).
Proof.
  intros Hi Hr Hb Ht Hf Hlen. cbn [get_modify run].
  rewrite (disk_acquire_ok i d b) by done. cbn [res_bind].
  rewrite Ht. cbn [lift bind]. erewrite run_bind_Ok by exact Hf.
  cbn [run]. cbn [release disk_store]. unfold disk_release.
  rewrite decide_True by (simpl; set_solver).
  rewrite decide_True by done. cbn. do 3 f_equal. set_solver.
Qed.
End typed.

Lemma run_sync {A} (a : A) d : held d = ∅ -> run (SyncAll (Ret a)) d = Ok (a, d).
Proof.
  intros Hh. cbn [run sync_all disk_store]. unfold disk_sync_all. by rewrite decide_True by done.
Qed.

(** ** Laws of the typed views *)

Section views.
Context {T : Type} `{ReprLaws T}.
Implicit Types (b : block) (off : Z) (t : T).

(** [off] is a place for a [T] in a block. *)
Definition fits (off : Z) : Prop :=
  0 <= off /\ off + Z.of_nat (type_size T) <= BLOCK_SIZE.

Lemma length_write_ref b off t :
  length b = Z.to_nat BLOCK_SIZE -> fits off -> type_wf t ->
  length (write_ref b off t) = Z.to_nat BLOCK_SIZE.
Proof.
  intros Hb [Ho Hs] Ht. unfold write_ref. efs_consts.
  assert (length (slice (Z.to_nat off) (type_size T) b) = type_size T) as Hl
    by (apply length_slice; lia).
  rewrite length_splice; [done|].
  rewrite length_into_bytes by done. lia.
Qed.

Lemma as_write_ref b off t :
  length b = Z.to_nat BLOCK_SIZE -> fits off -> type_wf t ->
  as_ref (write_ref b off t) off = Ok t.
Proof.
  intros Hb [Ho Hs] Ht. unfold as_ref, write_ref. efs_consts.
  rewrite (proj2 (Z.leb_le _ _)) by lia. cbn [assert res_bind].
  assert (length (slice (Z.to_nat off) (type_size T) b) = type_size T) as Hl
    by (apply length_slice; lia).
  pose proof (length_into_bytes _ t Hl Ht) as Hi.
  rewrite <- Hi at 1. rewrite slice_splice_same by lia.
  by rewrite of_into_bytes.
Qed.

Lemma as_ref_wf b off t :
  length b = Z.to_nat BLOCK_SIZE -> 0 <= off -> as_ref b off = Ok t -> type_wf t.
Proof.
  unfold as_ref. intros Hb Ho E. inv_res. reflect_bools. efs_consts.
  destruct (of_bytes _) eqn:Et; simplify_eq.
  eapply of_bytes_wf; [|done]. apply length_slice. lia.
Qed.

Lemma write_as_ref b off t :
  length b = Z.to_nat BLOCK_SIZE -> 0 <= off -> as_ref b off = Ok t ->
  write_ref b off t = b.
Proof.
  unfold as_ref, write_ref. intros Hb Ho E. inv_res. reflect_bools. efs_consts.
  destruct (of_bytes _) eqn:Et; simplify_eq.
  rewrite into_of_bytes by (done || apply length_slice; lia).
  apply splice_slice_same. lia.
Qed.

(** A type that fills the block. *)
Lemma as_ref_whole b :
  length b = Z.to_nat BLOCK_SIZE -> type_size T = Z.to_nat BLOCK_SIZE ->
  as_ref (T := T) b 0 =
    match of_bytes b with Some t => Ok t | None => Panic InvalidValue end.
Proof.
  intros Hb HT. unfold as_ref. efs_consts. rewrite (proj2 (Z.leb_le _ _)) by lia.
  cbn [assert res_bind]. unfold slice. rewrite drop_0, HT, take_ge by lia. done.
Qed.

Lemma write_ref_whole b t :
  length b = Z.to_nat BLOCK_SIZE -> type_size T = Z.to_nat BLOCK_SIZE -> type_wf t ->
  write_ref b 0 t = into_bytes b t.
Proof.
  intros Hb HT Ht. unfold write_ref, splice. efs_consts. simpl. unfold slice.
  rewrite drop_0, HT, (take_ge b) by lia.
  rewrite drop_ge, app_nil_r; [done|].
  rewrite length_into_bytes by congruence. lia.
Qed.
End views.
Arguments fits T {_} off.

(** The whole block as [n] words of [w] bytes, or as bytes. *)
Lemma as_ref_words w n b :
  length b = Z.to_nat BLOCK_SIZE -> (w * n)%nat = Z.to_nat BLOCK_SIZE ->
  as_ref b 0 = Ok (Words (w := w) (n := n) (words_get w n b)).
Proof. intros. by rewrite as_ref_whole. Qed.

Lemma write_ref_words w n b (ws : words w n) :
  length b = Z.to_nat BLOCK_SIZE -> (w * n)%nat = Z.to_nat BLOCK_SIZE ->
  words_wf w n (word_list ws) -> write_ref b 0 ws = words_put w (word_list ws).
Proof. intros. by rewrite write_ref_whole. Qed.

Lemma as_ref_bytes b :
  length b = Z.to_nat BLOCK_SIZE ->
  as_ref b 0 = Ok (Bytes (n := Z.to_nat BLOCK_SIZE) b).
Proof. intros. by rewrite as_ref_whole. Qed.

Lemma write_ref_bytes b (bs : bytes (Z.to_nat BLOCK_SIZE)) :
  length b = Z.to_nat BLOCK_SIZE -> length (byte_list bs) = Z.to_nat BLOCK_SIZE ->
  write_ref b 0 bs = byte_list bs.
Proof. intros. by rewrite write_ref_whole. Qed.

(** A device of [n] zeroed blocks. *)
Definition blank_disk (n : Z) : disk :=
  Disk (gset_to_gmap zero_block (list_to_set (seqZ 0 n))) ∅.

Lemma blank_lookup n i : 0 <= i < n -> blocks (blank_disk n) !! i = Some zero_block.
Proof.
  intros. simpl. apply lookup_gset_to_gmap_Some. split; [|done].
  apply elem_of_list_to_set, elem_of_seqZ. lia.
Qed.

Lemma blank_wf n : disk_wf (blank_disk n).
Proof. intros i b [_ <-]%lookup_gset_to_gmap_Some. by vm_compute. Qed.

Lemma blank_room n k : k <= BLOCK_CACHE_SIZE -> room k (blank_disk n).
Proof. intros. unfold room, blank_disk. cbn [held]. rewrite size_empty. lia. Qed.
