(* ===== verification/BlockCache.v ===== *)
(** * The block cache

    [easy-fs/src/block_cache.rs] over a block device
    ([easy-fs/src/block_dev.rs]): at most 16 blocks in memory, each behind a
    reference-counted spin lock, written back when replaced and by
    [sync_all].  The module proves that the cache over any device that keeps
    what it is given behaves, for every program of the file system, exactly
    as the plain store of [BlockStore.v] does, faults included. *)

From S2P Require Import Prelude Bytes Config BlockStore.

(** ** Block devices *)

(** The trait [BlockDevice]; the interrupt handler plays no part here. *)
Class BlockDevice (D : Type) := {
  read_block : D -> Z -> res block;
  write_block : D -> Z -> block -> res D;
}.

(** What a device promises to the cache: the blocks it has are read back as
    last written, and a block it does not have is refused. *)
Class BlockDeviceSpec (D : Type) `{BlockDevice D} := {
  contents : D -> gmap Z block;
  contents_wf dev i b : contents dev !! i = Some b -> length b = Z.to_nat BLOCK_SIZE;
  read_block_ok dev i b : contents dev !! i = Some b -> read_block dev i = Ok b;
  read_block_oob dev i : contents dev !! i = None -> read_block dev i = Panic DeviceFailed;
  write_block_ok dev i b :
    is_Some (contents dev !! i) -> length b = Z.to_nat BLOCK_SIZE ->
    exists dev', write_block dev i b = Ok dev' /\ contents dev' = <[i:=b]> (contents dev);
}.

(** [BlockFile] of [easy-fs-fuse/src/block_file.rs]: an image file whose
    length is a multiple of the block size, as its list of blocks. *)
Record BlockFile := { file : list block }.

Definition BlockFile_read_block (f : BlockFile) (i : Z) : res block :=
  if decide (0 <= i) then
    match file f !! Z.to_nat i with
    | Some b => if decide (length b = Z.to_nat BLOCK_SIZE) then Ok b else Panic DeviceFailed
    | None => Panic DeviceFailed
    end
  else Panic DeviceFailed.

(** A write past the end extends the file, the gap reads as zeros. *)
Definition BlockFile_write_block (f : BlockFile) (i : Z) (b : block) : res BlockFile :=
  if decide (0 <= i) then
    if decide (length b = Z.to_nat BLOCK_SIZE) then
      let n := Z.to_nat i in
      if decide (n < length (file f))%nat
      then Ok {| file := <[n := b]> (file f) |}
      else Ok {| file := file f ++ replicate (n - length (file f)) zero_block ++ [b] |}
    else Panic DeviceFailed
  else Panic DeviceFailed.

#[global] Instance BlockFile_device : BlockDevice BlockFile := {
  read_block := BlockFile_read_block;
  write_block := BlockFile_write_block;
}.

(** Only complete blocks count. *)
Definition BlockFile_contents (f : BlockFile) : gmap Z block :=
  filter (fun p => length p.2 = Z.to_nat BLOCK_SIZE) (map_seqZ 0 (file f)).

Lemma BlockFile_contents_lookup f i b :
  BlockFile_contents f !! i = Some b <->
  0 <= i /\ file f !! Z.to_nat i = Some b /\ length b = Z.to_nat BLOCK_SIZE.
Proof.
  unfold BlockFile_contents. rewrite map_lookup_filter_Some, lookup_map_seqZ_Some.
  rewrite Z.sub_0_r. naive_solver.
Qed.

#[global] Program Instance BlockFile_spec : BlockDeviceSpec BlockFile := {
  contents := BlockFile_contents;
}.
Next Obligation. intros dev i b. rewrite BlockFile_contents_lookup. tauto. Qed.
Next Obligation.
  intros dev i b. rewrite BlockFile_contents_lookup. intros (? & Hb & ?).
  cbn. unfold BlockFile_read_block. rewrite decide_True by done.
  rewrite Hb. by rewrite decide_True.
Qed.
Next Obligation.
  intros dev i Hn. cbn. unfold BlockFile_read_block.
  case_decide; [|done]. destruct (file dev !! Z.to_nat i) as [b|] eqn:E; [|done].
  case_decide; [|done].
  assert (BlockFile_contents dev !! i = Some b) by (by apply BlockFile_contents_lookup).
  congruence.
Qed.
Next Obligation.
  intros dev i b [b0 Hb0] Hlen. apply BlockFile_contents_lookup in Hb0 as (Hi & Hb0 & _).
  pose proof (lookup_lt_Some _ _ _ Hb0) as Hlt.
  cbn. unfold BlockFile_write_block. rewrite !decide_True by done.
  eexists. split; [done|]. apply map_eq. intros j. apply option_eq. intros c.
  rewrite lookup_insert_Some, !BlockFile_contents_lookup. cbn [file].
  rewrite list_lookup_insert_Some.
  destruct (decide (i = j)) as [<-|Hne]; [naive_solver|].
  split.
  - intros (Hj & [(Heq & -> & _)|(? & Hl)] & ?); [lia|]. tauto.
  - intros [[? ?]|(? & ? & ? & ?)]; [done|]. split; [done|]. split; [|done].
    right. split; [lia|done].
Qed.

(** ** The cache *)

Record BlockCache := MkBlockCache {
  cache : block;
  block_id : Z;
  modified : bool;
}.

(** An [Arc<Mutex<BlockCache>>], by the cell it points to. *)
Record Arc := MkArc {
  strong_count : Z;
  locked : bool;
  inner : BlockCache;
}.

Section cache.
Context {D : Type} `{BlockDevice D}.

(** The manager's queue and the device below it. *)
Record cached := Cached { queue : list (Z * Arc); device : D }.

Definition BlockCache_new (i : Z) (dev : D) : res BlockCache :=
  let? b := read_block dev i in
  Ok {| cache := b; block_id := i; modified := false |}.

Definition BlockCache_sync (c : BlockCache) (dev : D) : res (BlockCache * D) :=
  if modified c then
    let? dev := write_block dev (block_id c) (cache c) in
    Ok ({| cache := cache c; block_id := block_id c; modified := false |}, dev)
  else Ok (c, dev).

Definition BlockCache_drop (c : BlockCache) (dev : D) : res D :=
  let? (_, dev) := BlockCache_sync c dev in Ok dev.

(** [Vec::swap_remove] *)
Definition swap_remove {A} (idx : nat) (l : list A) : list A :=
  match last l with
  | Some x => take (length l - 1) (<[idx := x]> l)
  | None => l
  end.

(** Apply [f] to the cell that entry [i] points to. *)
Definition update_entry (i : Z) (f : Arc -> Arc) (q : list (Z * Arc)) : list (Z * Arc) :=
  (fun e => if e.1 =? i then (e.1, f e.2) else e) <$> q.

Definition arc_clone (a : Arc) : Arc :=
  {| strong_count := strong_count a + 1; locked := locked a; inner := inner a |}.

(** [BlockCacheManager::get]; the handle it returns is to entry [i]. *)
Definition manager_get (i : Z) (s : cached) : res cached :=
  match list_find (fun e => e.1 = i) (queue s) with
  | Some _ => Ok (Cached (update_entry i arc_clone (queue s)) (device s))
  | None =>
      let? s :=
        (if Z.of_nat (length (queue s)) =? BLOCK_CACHE_SIZE then
           match list_find (fun e => strong_count e.2 = 1) (queue s) with
           | Some (idx, e) =>
               let? dev := BlockCache_drop (inner e.2) (device s) in
               Ok (Cached (swap_remove idx (queue s)) dev)
           | None => Panic RunOutOfBlockCache
           end
         else Ok s) in
      let? c := BlockCache_new i (device s) in
      Ok (Cached (queue s ++ [(i, MkArc 2 false c)]) (device s))
  end.

(** [.lock()]: waits for ever on a lock that is held. *)
Definition arc_lock (i : Z) (s : cached) : res (block * cached) :=
  match list_find (fun e => e.1 = i) (queue s) with
  | Some (_, (_, a)) =>
      if locked a then Panic SpinDeadlock
      else Ok (cache (inner a),
               Cached (update_entry i
                 (fun a => MkArc (strong_count a) true (inner a)) (queue s)) (device s))
  | None => Panic InvalidValue
  end.

Definition cached_acquire (i : Z) (s : cached) : res (block * cached) :=
  let? s := manager_get i s in arc_lock i s.

(** The end of the statement: a [modify] has written through
    [as_mut_ref], which marks the block; the guard and the handle drop. *)
Definition end_access (new : option block) (a : Arc) : Arc :=
  {| strong_count := strong_count a - 1;
     locked := false;
     inner := match new with
              | None => inner a
              | Some b => {| cache := b; block_id := block_id (inner a); modified := true |}
              end |}.

Definition cached_release (i : Z) (new : option block) (s : cached) : res cached :=
  match list_find (fun e => e.1 = i) (queue s) with
  | Some (_, (_, a)) =>
      if locked a then
        if decide (from_option length (Z.to_nat BLOCK_SIZE) new = Z.to_nat BLOCK_SIZE)
        then Ok (Cached (update_entry i (end_access new) (queue s)) (device s))
        else Panic InvalidValue
      else Panic InvalidValue
  | None => Panic InvalidValue
  end.

(** [sync_all]: lock each cache in turn and write it back. *)
Fixpoint sync_entries (q : list (Z * Arc)) (dev : D) : res (list (Z * Arc) * D) :=
  match q with
  | [] => Ok ([], dev)
  | (i, a) :: q =>
      if locked a then Panic SpinDeadlock
      else
        let? (c, dev) := BlockCache_sync (inner a) dev in
        let? (q, dev) := sync_entries q dev in
        Ok ((i, MkArc (strong_count a) false c) :: q, dev)
  end.

Definition cached_sync_all (s : cached) : res cached :=
  let? (q, dev) := sync_entries (queue s) (device s) in Ok (Cached q dev).

#[global] Instance cached_store : Store cached := {
  acquire := cached_acquire;
  release := cached_release;
  sync_all := cached_sync_all;
}.

(** [BlockCacheManager::new] over a device. *)
Definition cached_new (dev : D) : cached := Cached [] dev.
End cache.
Arguments cached D : clear implicits.
Arguments Cached {D} queue device.

(** ** What is written back at the end

    [ends c m Q]: with [c] whether nothing is touched since the last
    [sync_all], every result [a] of [m] comes with [Q c' a] for the [c'] at the
    end. *)

Fixpoint ends {A} (c : bool) (m : prog A) (Q : bool -> A -> Prop) : Prop :=
  match m with
  | Ret a => Q c a
  | Fail _ => True
  | Acquire _ k => forall b, ends false (k b) Q
  | Release _ _ k => ends false k Q
  | SyncAll k => ends true k Q
  end.

Lemma ends_mono {A} (m : prog A) : forall c (Q Q' : bool -> A -> Prop),
  ends c m Q -> (forall c' a, Q c' a -> Q' c' a) -> ends c m Q'.
Proof. induction m; intros c Q Q' He HQ; cbn in *; eauto. Qed.
Lemma ends_bind {A B} (m : prog A) (f : A -> prog B) : forall c Q R,
  ends c m R -> (forall c' a, R c' a -> ends c' (f a) Q) -> ends c (bind m f) Q.
Proof. induction m; intros c Q R He HQ; cbn in *; eauto. Qed.
Lemma ends_any {A} (m : prog A) : forall c, ends c m (fun _ _ => True).
Proof. induction m; intros c; cbn; auto. Qed.

(** A program whose last step is one that ends with [Q] whatever was before. *)
Lemma ends_last {A B} (m : prog A) (f : A -> prog B) c Q :
  (forall c' a, ends c' (f a) Q) -> ends c (bind m f) Q.
Proof. intros H. eapply ends_bind; [apply ends_any|]. intros c' a _. apply H. Qed.

(** ** The cache refines the plain store *)

Section swap_remove.
Lemma swap_remove_perm {A} (l : list A) idx x :
  l !! idx = Some x -> l ≡ₚ x :: swap_remove idx l.
Proof.
  intros Hx. unfold swap_remove.
  destruct l as [|y l _] using rev_ind; [done|].
  rewrite last_snoc, length_app. simpl.
  replace (length l + 1 - 1)%nat with (length l) by lia.
  destruct (decide (idx < length l)%nat) as [Hlt|Hge].
  - rewrite lookup_app_l in Hx by done.
    rewrite insert_app_l by done. rewrite take_app_length' by (by rewrite length_insert).
    rewrite insert_take_drop by done.
    rewrite <- (take_drop_middle l idx x Hx) at 1. solve_Permutation.
  - rewrite lookup_app_r in Hx by lia.
    destruct (idx - length l)%nat eqn:E; simplify_eq/=.
    replace idx with (length l + 0)%nat by lia. rewrite insert_app_r. simpl.
    rewrite take_app_length. solve_Permutation.
Qed.
End swap_remove.

Section refinement.
Context {D : Type} `{BlockDeviceSpec D}.
Implicit Types (s : cached D) (d : disk) (q : list (Z * Arc)) (a : Arc).

(** The queue as a map. *)
Definition qmap (q : list (Z * Arc)) : gmap Z Arc := list_to_map q.

Definition arc_wf (dev : D) (i : Z) (a : Arc) : Prop :=
  block_id (inner a) = i /\
  length (cache (inner a)) = Z.to_nat BLOCK_SIZE /\
  strong_count a = (if locked a then 2 else 1) /\
  exists b, contents dev !! i = Some b /\
            (modified (inner a) = false -> b = cache (inner a)).

Definition cached_wf (s : cached D) : Prop :=
  NoDup (queue s).*1 /\
  Z.of_nat (length (queue s)) <= BLOCK_CACHE_SIZE /\
  map_Forall (arc_wf (device s)) (qmap (queue s)).

(** What a reader sees: the cached copy if there is one. *)
Definition overlay (s : cached D) : gmap Z block :=
  ((fun a => cache (inner a)) <$> qmap (queue s)) ∪ contents (device s).

Definition locked_ids (q : list (Z * Arc)) : gset Z :=
  dom (filter (fun p => locked p.2 = true) (qmap q)).

Definition abstracts (s : cached D) (d : disk) : Prop :=
  cached_wf s /\ blocks d = overlay s /\ held d = locked_ids (queue s).

Lemma qmap_find q i :
  qmap q !! i = (fun p => p.2.2) <$> list_find (fun e => e.1 = i) q.
Proof.
  induction q as [|[j a] q IH]; [done|].
  unfold qmap in *. cbn [list_to_map foldr list_find fst snd].
  destruct (decide (j = i)) as [->|Hne]; simpl.
  - by rewrite lookup_insert_eq.
  - rewrite lookup_insert_ne, IH by done.
    by destruct (list_find _ q) as [[? ?]|].
Qed.

Lemma qmap_update i f q : qmap (update_entry i f q) = alter f i (qmap q).
Proof.
  unfold qmap, update_entry. induction q as [|[j a] q IH].
  { symmetry. by apply alter_id. }
  rewrite fmap_cons. cbn [fst snd].
  destruct (Z.eqb_spec j i) as [->|Hne]; rewrite !list_to_map_cons, IH.
  - apply map_eq. intros k. rewrite !lookup_insert, !lookup_alter, !lookup_insert.
    by repeat case_decide.
  - by rewrite alter_insert_ne.
Qed.

Lemma update_entry_ids i f q : (update_entry i f q).*1 = q.*1.
Proof.
  unfold update_entry. rewrite <- list_fmap_compose. apply list_fmap_ext.
  intros _ [j a] _. simpl. by case_match.
Qed.

Lemma locked_ids_elem q i :
  i ∈ locked_ids q <-> exists a, qmap q !! i = Some a /\ locked a = true.
Proof.
  unfold locked_ids. rewrite elem_of_dom. unfold is_Some.
  setoid_rewrite map_lookup_filter_Some. naive_solver.
Qed.

Lemma qmap_perm q1 q2 : NoDup q1.*1 -> q1 ≡ₚ q2 -> qmap q1 = qmap q2.
Proof. apply list_to_map_proper. Qed.

Lemma qmap_size q : NoDup q.*1 -> size (qmap q) = length q.
Proof. intros Hnd. unfold qmap. by rewrite map_size_list_to_map. Qed.

Lemma overlay_lookup s i :
  overlay s !! i =
    match qmap (queue s) !! i with
    | Some a => Some (cache (inner a))
    | None => contents (device s) !! i
    end.
Proof.
  unfold overlay. rewrite lookup_union, lookup_fmap.
  destruct (qmap (queue s) !! i); simpl; [by rewrite union_Some_l|].
  by destruct (contents (device s) !! i).
Qed.

Lemma overlay_wf s i b :
  cached_wf s -> overlay s !! i = Some b -> length b = Z.to_nat BLOCK_SIZE.
Proof.
  intros (_ & _ & Hwf). rewrite overlay_lookup.
  destruct (qmap (queue s) !! i) as [a|] eqn:E; [|apply contents_wf].
  intros [= <-]. by apply (Hwf i a).
Qed.

(** Two states with the same view and locks stand for the same disk. *)
Lemma abstracts_intro s d :
  cached_wf s -> (forall i, blocks d !! i = overlay s !! i) ->
  (forall i, i ∈ held d <-> exists a, qmap (queue s) !! i = Some a /\ locked a = true) ->
  abstracts s d.
Proof.
  intros Hwf Hb Hh. split; [done|]. split; [by apply map_eq|].
  apply set_eq. intros i. by rewrite locked_ids_elem, Hh.
Qed.

(** *** Writing a block back *)

Lemma sync_ok dev i a :
  arc_wf dev i a ->
  exists c dev', BlockCache_sync (inner a) dev = Ok (c, dev') /\
    cache c = cache (inner a) /\ block_id c = i /\ modified c = false /\
    contents dev' = <[i := cache (inner a)]> (contents dev).
Proof.
  intros (Hid & Hlen & _ & b & Hb & Hm).
  unfold BlockCache_sync. destruct (modified (inner a)) eqn:Em.
  - rewrite Hid.
    destruct (write_block_ok dev i (cache (inner a))) as (dev' & -> & Hc); eauto.
    simpl. eauto 10.
  - exists (inner a), dev. rewrite (Hm eq_refl) in Hb.
    repeat split; auto. symmetry. by apply insert_id.
Qed.

Lemma arc_wf_write dev dev' i b :
  contents dev' = <[i := b]> (contents dev) ->
  forall j a, j <> i -> arc_wf dev j a -> arc_wf dev' j a.
Proof.
  intros Hc j a Hne (? & ? & ? & c & Hcj & ?).
  do 3 (split; [done|]). exists c. by rewrite Hc, lookup_insert_ne.
Qed.

(** *** Looking an entry up *)

Lemma find_Some q i a :
  qmap q !! i = Some a -> exists n, list_find (fun e => e.1 = i) q = Some (n, (i, a)).
Proof.
  rewrite qmap_find. intros ([n [j a']] & Hf & ->)%fmap_Some_1.
  exists n. rewrite Hf. apply list_find_Some in Hf as (_ & Hj & _). by simpl in *; subst.
Qed.

Lemma find_None q i : qmap q !! i = None -> list_find (fun e => e.1 = i) q = None.
Proof. rewrite qmap_find. by intros ?%fmap_None. Qed.

Lemma elem_qmap q i a : NoDup q.*1 -> (i, a) ∈ q <-> qmap q !! i = Some a.
Proof. intros. by apply elem_of_list_to_map. Qed.

(** *** Replacement *)

Lemma evict_ok s idx i a :
  cached_wf s -> queue s !! idx = Some (i, a) -> strong_count a = 1 ->
  exists dev', BlockCache_drop (inner a) (device s) = Ok dev' /\
    let s' := Cached (swap_remove idx (queue s)) dev' in
    cached_wf s' /\ qmap (queue s') = delete i (qmap (queue s)) /\
    length (queue s) = S (length (queue s')) /\
    overlay s' = overlay s /\ locked_ids (queue s') = locked_ids (queue s).
Proof.
  intros Hwf Hidx Hsc. pose proof Hwf as (Hnd & Hlen & Harc).
  pose proof (swap_remove_perm _ _ _ Hidx) as Hp.
  assert (qmap (queue s) !! i = Some a) as Hq
    by (apply elem_qmap; [done|]; by eapply list_elem_of_lookup_2).
  destruct (Harc _ _ Hq) as (_ & _ & Hl & _).
  destruct (sync_ok _ _ _ (Harc _ _ Hq)) as (c & dev' & Hs & _ & _ & _ & Hc).
  exists dev'. unfold BlockCache_drop. rewrite Hs. split; [done|]. cbn [queue device].
  set (q' := swap_remove idx (queue s)) in *.
  assert (NoDup (i :: q'.*1)) as Hnd'.
  { assert (NoDup ((i, a) :: q').*1) as HH by (by rewrite <- Hp). done. }
  apply NoDup_cons in Hnd' as [Hni Hnd'].
  assert (qmap q' !! i = None) as Hn by (by apply not_elem_of_list_to_map_1).
  assert (qmap (queue s) = <[i:=a]> (qmap q')) as Hqq.
  { rewrite (qmap_perm _ _ Hnd Hp). done. }
  assert (qmap q' = delete i (qmap (queue s))) as Hq'.
  { by rewrite Hqq, delete_insert_id. }
  assert (length (queue s) = S (length q')) as Hlen' by (by rewrite Hp).
  split_and!; try done.
  - split_and!; cbn [queue device]; [done|lia|].
    intros j b Hj. rewrite Hq', lookup_delete_Some in Hj. destruct Hj as [Hne Hj].
    eapply arc_wf_write; [exact Hc|done|]. by apply Harc.
  - apply map_eq. intros j. rewrite !overlay_lookup. cbn [queue device].
    rewrite Hq', lookup_delete. case_decide as Hij.
    + subst j. by rewrite Hq, Hc, lookup_insert_eq.
    + destruct (qmap (queue s) !! j); [done|]. by rewrite Hc, lookup_insert_ne.
  - apply set_eq. intros j. rewrite !locked_ids_elem, Hq'.
    setoid_rewrite lookup_delete_Some. split; [naive_solver|].
    intros (b & Hb & Hlk). exists b. split_and!; [|done..]. intros <-.
    rewrite Hb in Hq. injection Hq as ->. rewrite Hlk in Hl. lia.
Qed.

Lemma all_locked_size s :
  cached_wf s -> list_find (fun e => strong_count e.2 = 1) (queue s) = None ->
  size (locked_ids (queue s)) = length (queue s).
Proof.
  intros (Hnd & _ & Harc) Hn%list_find_None.
  rewrite <- (qmap_size _ Hnd), <- size_dom. f_equal. apply set_eq. intros i.
  rewrite locked_ids_elem, elem_of_dom. split; [naive_solver|].
  intros [a Ha]. exists a. split; [done|]. destruct (Harc _ _ Ha) as (_ & _ & Hl & _).
  apply elem_qmap in Ha; [|done].
  rewrite Forall_forall in Hn. specialize (Hn _ Ha). simpl in Hn. by destruct (locked a).
Qed.

Lemma locked_size_le s : cached_wf s ->
  (size (locked_ids (queue s)) <= length (queue s))%nat.
Proof.
  intros (Hnd & _ & _). rewrite <- (qmap_size _ Hnd), <- size_dom.
  apply subseteq_size. intros i. rewrite locked_ids_elem, elem_of_dom. naive_solver.
Qed.

Lemma room_not_full s d i a :
  abstracts s d -> qmap (queue s) !! i = Some a -> locked a = false ->
  Z.of_nat (size (held d)) < BLOCK_CACHE_SIZE.
Proof.
  intros ((Hnd & Hlen & _) & _ & ->) Ha Hl.
  assert (locked_ids (queue s) ⊂ dom (qmap (queue s))) as Hss.
  { split.
    - intros j. rewrite locked_ids_elem, elem_of_dom. naive_solver.
    - intros Hs. assert (i ∈ locked_ids (queue s)) as Hi by (apply Hs; by apply elem_of_dom_2 in Ha).
      apply locked_ids_elem in Hi as (b & ? & ?). congruence. }
  apply subset_size in Hss. rewrite size_dom, (qmap_size _ Hnd) in Hss. lia.
Qed.

(** *** The steps agree *)

Definition agree {A} (r : res (A * cached D)) (r' : res (A * disk)) : Prop :=
  match r, r' with
  | Ok (a, s), Ok (a', d) => a = a' /\ abstracts s d
  | Panic f, Panic f' => f = f'
  | _, _ => False
  end.

(** [get] followed by [lock] on a block that is in the queue. *)
Lemma lock_present s d i a :
  abstracts s d -> qmap (queue s) !! i = Some a -> locked a = false ->
  exists s', arc_lock i (Cached (update_entry i arc_clone (queue s)) (device s)) =
    Ok (cache (inner a), s') /\ abstracts s' (hold i d).
Proof.
  intros (Hwf & Hb & Hh) Ha Hla. pose proof Hwf as (Hnd & Hlen & Harc).
  destruct (find_Some (update_entry i arc_clone (queue s)) i (arc_clone a)) as [n Hf].
  { by rewrite qmap_update, lookup_alter_eq, Ha. }
  unfold arc_lock. cbn [queue device]. rewrite Hf. cbn. rewrite Hla.
  eexists. split; [done|]. apply abstracts_intro.
  - split_and!; cbn [queue device].
    + by rewrite !update_entry_ids.
    + unfold update_entry. by rewrite !length_fmap.
    + rewrite !qmap_update. intros j c. destruct (decide (i = j)) as [<-|Hij];
        [|rewrite !lookup_alter_ne by done; apply Harc].
      rewrite !lookup_alter_eq, Ha. cbn. intros [= <-]. destruct (Harc _ _ Ha) as (? & ? & Hsc & ?).
      split_and!; cbn; try done. rewrite Hla in Hsc. lia.
  - intros j. cbn [hold blocks]. rewrite Hb, !overlay_lookup. cbn [queue device].
    rewrite !qmap_update. destruct (decide (i = j)) as [<-|Hij];
      [by rewrite !lookup_alter_eq, Ha|by rewrite !lookup_alter_ne].
  - intros j. cbn [hold held queue]. rewrite !qmap_update.
    rewrite elem_of_union, elem_of_singleton, Hh, locked_ids_elem.
    destruct (decide (i = j)) as [<-|Hij];
      [rewrite !lookup_alter_eq, Ha|rewrite !lookup_alter_ne by done]; simpl; naive_solver.
Qed.

(** A miss with a free place in the queue: the block is loaded. *)
Lemma load_and_lock s d i :
  abstracts s d -> qmap (queue s) !! i = None ->
  Z.of_nat (length (queue s)) < BLOCK_CACHE_SIZE ->
  agree (let? s := (let? c := BlockCache_new i (device s) in
                    Ok (Cached (queue s ++ [(i, MkArc 2 false c)]) (device s))) in
         arc_lock i s)
        (match blocks d !! i with
         | Some b => Ok (b, hold i d)
         | None => Panic DeviceFailed
         end).
Proof.
  intros (Hwf & Hb & Hh) Hi Hlt. pose proof Hwf as (Hnd & Hlen & Harc).
  unfold BlockCache_new. rewrite Hb, overlay_lookup, Hi.
  destruct (contents (device s) !! i) as [b|] eqn:Eb; cbn;
    [rewrite (read_block_ok _ _ _ Eb)|by rewrite (read_block_oob _ _ Eb)].
  cbn. set (a := MkArc 2 false (MkBlockCache b i false)).
  assert (i ∉ (queue s).*1) as Hni by (by apply not_elem_of_list_to_map_2).
  assert (NoDup (queue s ++ [(i, a)]).*1) as Hnd'.
  { rewrite fmap_app. apply NoDup_app. split; [done|]. split; [|by apply NoDup_singleton].
    intros j Hj Hj'. apply list_elem_of_singleton in Hj'. simpl in Hj'. by subst. }
  assert (qmap (queue s ++ [(i, a)]) = <[i := a]> (qmap (queue s))) as Hq.
  { rewrite (qmap_perm _ ((i, a) :: queue s)); [done|done|]. by rewrite Permutation_app_comm. }
  destruct (find_Some (queue s ++ [(i, a)]) i a) as [n Hf].
  { by rewrite Hq, lookup_insert_eq. }
  unfold arc_lock. cbn [queue device]. rewrite Hf. cbn [locked a inner cache agree].
  split; [done|]. apply abstracts_intro.
  - split_and!; cbn [queue device].
    + by rewrite !update_entry_ids.
    + unfold update_entry. rewrite length_fmap, length_app. simpl. lia.
    + rewrite qmap_update, Hq. intros j c. destruct (decide (i = j)) as [<-|Hij];
        [|rewrite lookup_alter_ne, lookup_insert_ne by done; apply Harc].
      rewrite lookup_alter_eq, lookup_insert_eq. cbn. intros [= <-]. split_and!; cbn; try done; [by eapply contents_wf|eauto].
  - intros j. cbn [hold blocks]. rewrite Hb, !overlay_lookup. cbn [queue device].
    rewrite qmap_update, Hq. destruct (decide (i = j)) as [<-|Hij];
      [by rewrite lookup_alter_eq, lookup_insert_eq, Hi|by rewrite lookup_alter_ne, lookup_insert_ne].
  - intros j. cbn [hold held queue]. rewrite qmap_update, Hq.
    rewrite elem_of_union, elem_of_singleton, Hh, locked_ids_elem.
    destruct (decide (i = j)) as [<-|Hij];
      [rewrite lookup_alter_eq, lookup_insert_eq|rewrite lookup_alter_ne, lookup_insert_ne by done];
      simpl; naive_solver.
Qed.

Lemma acquire_agree i s d : abstracts s d -> agree (acquire i s) (acquire i d).
Proof.
  intros Habs. pose proof Habs as (Hwf & Hb & Hh). pose proof Hwf as (Hnd & Hlen & Harc).
  cbn. unfold cached_acquire, manager_get, disk_acquire.
  destruct (qmap (queue s) !! i) as [a|] eqn:Ha.
  - destruct (find_Some _ _ _ Ha) as [n ->]. cbn [res_bind].
    destruct (locked a) eqn:Hla.
    + rewrite decide_True by (rewrite Hh, locked_ids_elem; eauto).
      destruct (find_Some (update_entry i arc_clone (queue s)) i (arc_clone a)) as [n' Hf].
      { by rewrite qmap_update, lookup_alter_eq, Ha. }
      unfold arc_lock. cbn [queue device]. rewrite Hf. cbn. by rewrite Hla.
    + assert (i ∉ held d) as Hni by (rewrite Hh, locked_ids_elem, Ha; intros (? & [= <-] & ?); congruence).
      rewrite decide_False by done.
      destruct (lock_present s d i a) as (s' & -> & Habs'); [done..|].
      pose proof (room_not_full s d i a Habs Ha Hla).
      case_if; [lia|].
      assert (blocks d !! i = Some (cache (inner a))) as -> by (by rewrite Hb, overlay_lookup, Ha).
      by split.
  - rewrite (find_None _ _ Ha).
    rewrite decide_False by (rewrite Hh, locked_ids_elem, Ha; by intros (? & ? & ?)).
    pose proof (locked_size_le s Hwf) as Hle. rewrite <- Hh in Hle.
    destruct (Z.eqb_spec (Z.of_nat (length (queue s))) BLOCK_CACHE_SIZE) as [Hfull|Hnf].
    + destruct (list_find _ (queue s)) as [[idx [j a]]|] eqn:Hf; cbn [res_bind snd].
      * apply list_find_Some in Hf as (Hidx & Hsc & _). simpl in Hsc.
        destruct (evict_ok s idx j a Hwf Hidx Hsc)
          as (dev' & -> & Hwf' & Hq' & Hlen' & Ho' & Hl').
        cbn [res_bind device queue].
        pose proof (locked_size_le _ Hwf') as Hle'.
        cbn [queue device] in *. rewrite Hl', <- Hh in Hle'. case_if; [lia|].
        apply (load_and_lock (Cached (swap_remove idx (queue s)) dev') d i).
        -- split_and!; [done|by rewrite Ho'|by cbn [queue]; rewrite Hl'].
        -- cbn [queue]. rewrite Hq'. by rewrite lookup_delete_None; right.
        -- cbn [queue]. lia.
      * rewrite Hh, (all_locked_size s Hwf Hf). case_if; [done|lia].
    + case_if; [lia|]. apply load_and_lock; [done..|lia].
Qed.

Lemma release_agree i new s d :
  abstracts s d ->
  match release i new s, release i new d with
  | Ok s', Ok d' => abstracts s' d'
  | Panic f, Panic f' => f = f'
  | _, _ => False
  end.
Proof.
  intros (Hwf & Hb & Hh). pose proof Hwf as (Hnd & Hlen & Harc).
  cbn. unfold cached_release, disk_release.
  destruct (qmap (queue s) !! i) as [a|] eqn:Ha; last first.
  { rewrite (find_None _ _ Ha).
    by rewrite decide_False by (rewrite Hh, locked_ids_elem, Ha; by intros (? & ? & ?)). }
  destruct (find_Some _ _ _ Ha) as [n ->].
  destruct (locked a) eqn:Hla; last first.
  { rewrite decide_False; [done|].
    rewrite Hh, locked_ids_elem, Ha. intros (? & [= <-] & ?); congruence. }
  rewrite (decide_True (P := i ∈ held d)) by (rewrite Hh, locked_ids_elem; eauto).
  set (bs' := match new with Some b => <[i:=b]> (blocks d) | None => blocks d end).
  assert (from_option length (Z.to_nat BLOCK_SIZE) new = Z.to_nat BLOCK_SIZE ->
    abstracts (Cached (update_entry i (end_access new) (queue s)) (device s))
      (Disk bs' (held d ∖ {[i]}))) as Hgoal; last first.
  { destruct new as [b|]; cbn in *; [by case_decide; auto|].
    rewrite decide_True by done. auto. }
  intros Hnew. destruct (Harc _ _ Ha) as (Hid & Hl & Hsc & b0 & Hb0 & Hm).
  rewrite Hla in Hsc. apply abstracts_intro.
  - split_and!; cbn [queue device].
    + by rewrite update_entry_ids.
    + unfold update_entry. by rewrite length_fmap.
    + rewrite qmap_update. intros j c. destruct (decide (i = j)) as [<-|Hij];
        [|rewrite lookup_alter_ne by done; apply Harc].
      rewrite lookup_alter_eq, Ha. cbn. intros [= <-].
      split_and!; cbn; [by destruct new|by destruct new|lia|].
      exists b0. split; [done|]. by destruct new.
  - intros j. cbn [blocks]. subst bs'. rewrite overlay_lookup. cbn [queue device].
    rewrite qmap_update. destruct (decide (i = j)) as [<-|Hij].
    + rewrite lookup_alter_eq, Ha. cbn. destruct new; [by rewrite lookup_insert_eq|].
      by rewrite Hb, overlay_lookup, Ha.
    + rewrite lookup_alter_ne by done.
      transitivity (overlay s !! j); [|by rewrite overlay_lookup].
      rewrite <- Hb. destruct new; [by rewrite lookup_insert_ne|done].
  - intros j. cbn [held queue]. rewrite qmap_update.
    rewrite elem_of_difference, not_elem_of_singleton, Hh, locked_ids_elem.
    destruct (decide (i = j)) as [<-|Hij];
      [rewrite lookup_alter_eq, Ha|rewrite lookup_alter_ne by done]; simpl; naive_solver.
Qed.

Lemma locked_ids_cons i a q :
  locked a = false -> locked_ids q = ∅ -> qmap q !! i = None ->
  locked_ids ((i, a) :: q) = ∅.
Proof.
  intros Ha Hq Hi. apply set_eq. intros j. rewrite locked_ids_elem.
  unfold qmap. cbn [list_to_map foldr fst snd]. split; [|set_solver].
  intros (b & [[<- <-]|[? Hb]]%lookup_insert_Some & Hl); [congruence|].
  rewrite <- Hq. apply locked_ids_elem. eauto.
Qed.

(** [sync_all] leaves the view as it is and makes the device agree. *)
Lemma sync_entries_spec q dev :
  NoDup q.*1 -> map_Forall (arc_wf dev) (qmap q) ->
  match sync_entries q dev with
  | Ok (q', dev') =>
      locked_ids q = ∅ /\ q'.*1 = q.*1 /\ locked_ids q' = ∅ /\
      map_Forall (arc_wf dev') (qmap q') /\
      overlay (Cached q' dev') = overlay (Cached q dev) /\
      contents dev' = overlay (Cached q dev)
  | Panic f => f = SpinDeadlock /\ locked_ids q <> ∅
  end.
Proof.
  revert dev. induction q as [|[i a] q IH]; intros dev Hnd Harc.
  { simpl. split_and!; try done; try by apply set_eq.
    apply map_eq. intros j. by rewrite overlay_lookup. }
  rewrite fmap_cons, NoDup_cons in Hnd. destruct Hnd as [Hni Hnd]. simpl in Hni.
  assert (qmap q !! i = None) as Hqi by (by apply not_elem_of_list_to_map_1).
  change (qmap ((i, a) :: q)) with (<[i := a]> (qmap q)) in Harc.
  apply map_Forall_insert in Harc as [Ha Harc]; [|done].
  cbn [sync_entries]. destruct (locked a) eqn:Hla.
  { split; [done|]. apply non_empty_inhabited_L with i. apply locked_ids_elem.
    exists a. split; [apply lookup_insert_eq|done]. }
  destruct (sync_ok dev i a Ha) as (c & dev' & -> & Hc1 & Hc2 & Hc3 & Hc).
  cbn [res_bind]. specialize (IH dev' Hnd).
  destruct (sync_entries q dev') as [[q' dev'']|f].
  - destruct IH as (Hl & Hids & Hl' & Harc' & Ho & Hcont).
    { intros j b Hj. eapply arc_wf_write; [exact Hc| |by apply Harc]. congruence. }
    cbn [res_bind].
    assert (qmap q' !! i = None) as Hqi' by (apply not_elem_of_list_to_map_1; by rewrite Hids).
    assert (contents dev'' !! i = Some (cache (inner a))) as Hdi.
    { rewrite Hcont, overlay_lookup. cbn [queue device]. by rewrite Hqi, Hc, lookup_insert_eq. }
    assert (forall j, j <> i -> contents dev'' !! j = overlay (Cached q dev) !! j) as Hdj.
    { intros j Hj. rewrite Hcont, !overlay_lookup. cbn [queue device].
      by rewrite Hc, lookup_insert_ne. }
    assert (contents dev'' = overlay (Cached ((i, a) :: q) dev)) as Hco.
    { apply map_eq. intros j. rewrite overlay_lookup. cbn [queue device].
      change (qmap ((i, a) :: q)) with (<[i := a]> (qmap q)).
      destruct (decide (i = j)) as [<-|Hij]; [by rewrite lookup_insert_eq|].
      rewrite lookup_insert_ne, Hdj by done. by rewrite overlay_lookup. }
    split_and!; [by apply locked_ids_cons|by rewrite !fmap_cons; f_equal|by apply locked_ids_cons| | |done].
    + change (qmap ((i, ?x) :: q')) with (<[i := x]> (qmap q')).
      apply map_Forall_insert; [done|]. split; [|done].
      destruct Ha as (? & ? & Hsc & _). rewrite Hla in Hsc.
      split_and!; cbn; try done; [by rewrite Hc1|]. exists (cache (inner a)).
      split; [done|]. by rewrite Hc1.
    + rewrite <- Hco. apply map_eq. intros j. rewrite overlay_lookup. cbn [queue device].
      change (qmap ((i, ?x) :: q')) with (<[i := x]> (qmap q')).
      destruct (decide (i = j)) as [<-|Hij]; [rewrite lookup_insert_eq; cbn; by rewrite Hc1|].
      rewrite lookup_insert_ne by done.
      transitivity (overlay (Cached q' dev'') !! j); [by rewrite overlay_lookup|].
      by rewrite Ho, Hcont.
  - destruct IH as [-> Hl].
    { intros j b Hj. eapply arc_wf_write; [exact Hc| |by apply Harc]. congruence. }
    split; [done|]. apply set_choose_L in Hl as [j (b & Hb & ?)%locked_ids_elem].
    apply non_empty_inhabited_L with j. apply locked_ids_elem. exists b.
    split; [|done]. unfold qmap. cbn [list_to_map foldr fst snd].
    rewrite lookup_insert_ne by congruence. done.
Qed.

Lemma sync_all_agree s d :
  abstracts s d ->
  match sync_all s, sync_all d with
  | Ok s', Ok d' => abstracts s' d' /\ contents (device s') = blocks d'
  | Panic f, Panic f' => f = f'
  | _, _ => False
  end.
Proof.
  intros ((Hnd & Hlen & Harc) & Hb & Hh).
  pose proof (sync_entries_spec (queue s) (device s) Hnd Harc) as HS.
  cbn. unfold cached_sync_all, disk_sync_all.
  destruct (sync_entries _ _) as [[q' dev']|f]; cbn.
  - destruct HS as (Hl & Hids & Hl' & Harc' & Ho & Hc).
    rewrite decide_True by (by rewrite Hh). split; [|by rewrite Hc, Hb; destruct s].
    split_and!; [split_and!; cbn [queue device]; [by rewrite Hids| |done]| |].
    + by rewrite <- (length_fmap fst q'), Hids, length_fmap.
    + rewrite Hb, Ho. by destruct s.
    + cbn [queue]. by rewrite Hl', Hh.
  - destruct HS as [-> Hne]. rewrite decide_False by (by rewrite Hh). done.
Qed.

Lemma run_agree {A} (m : prog A) s d :
  abstracts s d -> agree (run m s) (run m d).
Proof.
  revert s d. induction m as [a|f|i k IH|i new k IH|k IH]; intros s d Habs; cbn [run].
  - by split.
  - done.
  - pose proof (acquire_agree i s d Habs) as Hag.
    destruct (acquire i s) as [[b s']|f], (acquire i d) as [[b' d']|f'];
      simpl in Hag |- *; try done.
    destruct Hag as [<- Habs']. by apply IH.
  - pose proof (release_agree i new s d Habs) as Hag.
    destruct (release i new s), (release i new d); simpl in Hag |- *; try done. by apply IH.
  - pose proof (sync_all_agree s d Habs) as Hag.
    destruct (sync_all s), (sync_all d); simpl in Hag |- *; try done. by apply IH, Hag.
Qed.

(** A program that [ends] with everything written back leaves the device with
    the blocks that its readers see. *)
Lemma run_ends {A} (m : prog A) : forall c s d Q (a : A) d',
  abstracts s d -> (c = true -> contents (device s) = blocks d) -> ends c m Q -> run m d = Ok (a, d') ->
  exists c' s', run m s = Ok (a, s') /\ abstracts s' d' /\ Q c' a /\
    (c' = true -> contents (device s') = blocks d').
Proof.
  induction m as [x|f|i k IH|i new k IH|k IH]; intros c s d Q a d' Habs Hc He Hrun; cbn [run ends] in *.
  - injection Hrun as <- <-. by exists c, s.
  - done.
  - pose proof (acquire_agree i s d Habs) as Hag.
    destruct (acquire i s) as [[b s']|f], (acquire i d) as [[b' d1]|f']; simpl in Hag, Hrun |- *; try done.
    destruct Hag as [<- Habs']. by eapply (IH b false).
  - pose proof (release_agree i new s d Habs) as Hag.
    destruct (release i new s), (release i new d); simpl in Hag, Hrun |- *; try done. by eapply (IH false).
  - pose proof (sync_all_agree s d Habs) as Hag.
    destruct (sync_all s), (sync_all d); simpl in Hag, Hrun |- *; try done. destruct Hag as [Habs' Hd]. by eapply (IH true).
Qed.

(** C1: every file-system program, run on the block cache over a device,
    returns the same value or raises the same fault as on the plain store
    that holds the device's blocks overlaid with the cached ones, and ends
    in a cache state that again stands for the plain store's. *)
Theorem cache_refines_disk {A} (m : prog A) s d :
  abstracts s d -> agree (run m s) (run m d).
Proof. apply run_agree. Qed.

(** A fresh cache stands for the device's own contents. *)
Lemma cached_new_abstracts (dev : D) :
  abstracts (cached_new dev) (Disk (contents dev) ∅).
Proof.
  apply abstracts_intro; simpl.
  - split_and!; simpl; [by apply NoDup_nil_2|by efs_consts|by apply map_Forall_empty].
  - intros i. by rewrite overlay_lookup.
  - intros i. split; [set_solver|]. by intros (? & ? & ?).
Qed.

(** C2: after [sync_all] the device holds exactly what a reader of the cache
    sees: no write is left in memory only. *)
Theorem sync_all_durable s s' :
  cached_wf s -> sync_all s = Ok s' ->
  contents (device s') = overlay s /\ overlay s' = overlay s.
Proof.
  intros Hwf Hs.
  pose proof (sync_all_agree s (Disk (overlay s) (locked_ids (queue s)))) as Hag.
  rewrite Hs in Hag. cbn [sync_all disk_store] in Hag. unfold disk_sync_all in Hag.
  cbn [held] in Hag. case_decide; [|exfalso; by apply Hag].
  destruct Hag as [(_ & Ho & _) Hc]; [done|]. by rewrite Hc, <- Ho.
Qed.
End refinement.

(** ** Witnesses *)

Definition demo_file : BlockFile := {| file := replicate 20 zero_block |}.
Definition demo_block : block := replicate (Z.to_nat BLOCK_SIZE) Byte.x2a.

(** Touch all of the first 18 blocks, more than the cache holds. *)
Definition demo_prog : prog (list Z) :=
  for_each (fun i => get_modify i 0 (fun _ : bytes 512 => Ret (tt, Bytes demo_block)))
    (seqZ 0 18) ;;;
  fold_prog (fun acc i =>
    let! x := get_read i 0 (fun b : words 4 128 => Ret (word_list b !!! 5%nat)) in
    Ret (acc ++ [x])) [] [17; 0; 19].

Lemma cache_refines_disk_witness :
  agree (run demo_prog (cached_new demo_file))
        (run demo_prog (Disk (contents demo_file) ∅)) /\
  fst <$> (match run demo_prog (cached_new demo_file) with Ok r => Some r | _ => None end)
    = Some [707406378; 707406378; 0].
Proof.
  split.
  - apply (cache_refines_disk demo_prog), cached_new_abstracts.
  - vm_compute. reflexivity.
Defined.

Definition dirty_cache : cached BlockFile :=
  Cached [(3, MkArc 1 false (MkBlockCache demo_block 3 true))] demo_file.

Lemma dirty_cache_wf : cached_wf dirty_cache.
Proof.
  split_and!; simpl.
  - apply NoDup_singleton.
  - by efs_consts.
  - intros i a [[<- <-]|[_ ?]]%lookup_insert_Some; [|done].
    do 2 (split; [reflexivity|]). split; [reflexivity|].
    exists zero_block. split; [|intros [=]].
    apply BlockFile_contents_lookup. split; [lia|]. split; reflexivity.
Qed.

Lemma sync_all_durable_witness :
  exists s', sync_all dirty_cache = Ok s' /\
    contents (device s') !! 3 = Some demo_block.
Proof.
  destruct (sync_all dirty_cache) as [s'|] eqn:E; [|by vm_compute in E].
  exists s'. split; [done|].
  rewrite (proj1 (sync_all_durable dirty_cache s' dirty_cache_wf E)).
  by rewrite overlay_lookup.
Defined.
