(* ===== verification/Bitmap.v ===== *)
(** * The block bitmaps

    [easy-fs/src/bitmap.rs]: a bitmap is a run of blocks, each an array of 64
    64-bit words, one bit per inode or data block.  [alloc] takes the first
    clear bit, [dealloc] clears a set one. *)

From S2P Require Import Prelude Bytes Config BlockStore.

Abbreviation BitmapBlock := (words 8 64).

Record Bitmap := { start_block_id : Z; bitmap_blocks : Z }.

Definition u64_MAX : Z := 2 ^ 64 - 1.

(** [u64::trailing_ones] *)
Fixpoint trailing_ones_from (fuel : nat) (i w : Z) : Z :=
  match fuel with
  | O => i
  | S fuel => if Z.testbit w i then trailing_ones_from fuel (i + 1) w else i
  end.
Definition trailing_ones (w : Z) : Z := trailing_ones_from 64 0 w.

(** The closure of [Bitmap::alloc] on one bitmap block. *)
Definition alloc_in_block (block_id : Z) (bb : BitmapBlock) : option Z * BitmapBlock :=
  match list_find (fun w => w <> u64_MAX) (word_list bb) with
  | Some (bit64_id, bits64) =>
      let inner_id := trailing_ones bits64 in
      (Some (block_id * BLOCK_BITS + Z.of_nat bit64_id * 64 + inner_id),
       Words (<[bit64_id := Z.lor bits64 (Z.shiftl 1 inner_id)]> (word_list bb)))
  | None => (None, bb)
  end.

Fixpoint alloc_from (bm : Bitmap) (block_ids : list Z) : prog (option Z) :=
  match block_ids with
  | [] => Ret None
  | block_id :: rest =>
      let! id := get_modify (start_block_id bm + block_id) 0
                   (fun bb : BitmapBlock => Ret (alloc_in_block block_id bb)) in
      match id with
      | Some _ => Ret id
      | None => alloc_from bm rest
      end
  end.

(** [Bitmap::alloc] *)
Definition Bitmap_alloc (bm : Bitmap) : prog (option Z) :=
  alloc_from bm (seqZ 0 (bitmap_blocks bm)).

Definition decomposition (bit : Z) : Z * Z * Z :=
  let block_id := bit / BLOCK_BITS in
  let bit_in_block := bit mod BLOCK_BITS in
  (block_id, bit_in_block / 64, bit_in_block mod 64).

(** The closure of [Bitmap::dealloc]; [w &= !m] clears the bits of [m]. *)
Definition dealloc_in_block (bits64_id inner_id : Z) (bb : BitmapBlock) : res (() * BitmapBlock) :=
  let w := word_list bb !!! Z.to_nat bits64_id in
  let? _ := assert (0 <? Z.land w (Z.shiftl 1 inner_id)) in
  Ok (tt, Words (<[Z.to_nat bits64_id := Z.ldiff w (Z.shiftl 1 inner_id)]> (word_list bb))).

(** [Bitmap::dealloc] *)
Definition Bitmap_dealloc (bm : Bitmap) (bit : Z) : prog () :=
  let '(block_id, bits64_id, inner_id) := decomposition bit in
  get_modify (start_block_id bm + block_id) 0
    (fun bb : BitmapBlock => lift (dealloc_in_block bits64_id inner_id bb)).

(** [Bitmap::maximum] *)
Definition Bitmap_maximum (bm : Bitmap) : Z := bitmap_blocks bm * BLOCK_BITS.

(** ** The bits of a bitmap *)

(** Bit [i] of one bitmap block. *)
Definition block_bit (b : block) (i : Z) : bool :=
  Z.testbit (words_get 8 64 b !!! Z.to_nat (i / 64)) (i mod 64).

(** Bit [i] of the bitmap on a disk. *)
Definition bit_at (bm : Bitmap) (d : disk) (i : Z) : bool :=
  match blocks d !! (start_block_id bm + i / BLOCK_BITS) with
  | Some b => block_bit b (i mod BLOCK_BITS)
  | None => false
  end.

(** The bitmap's blocks are on the disk and not locked. *)
Definition bitmap_ready (bm : Bitmap) (d : disk) : Prop :=
  room 1 d /\
  forall k, 0 <= k < bitmap_blocks bm ->
    ((start_block_id bm + k) ∉ held d) /\
    exists b, blocks d !! (start_block_id bm + k) = Some b /\
              length b = Z.to_nat BLOCK_SIZE.

(** ** Words *)

Lemma trailing_ones_from_spec fuel i w :
  0 <= i ->
  let t := trailing_ones_from fuel i w in
  i <= t <= i + Z.of_nat fuel /\
  (forall j, i <= j < t -> Z.testbit w j = true) /\
  (t < i + Z.of_nat fuel -> Z.testbit w t = false).
Proof.
  revert i. induction fuel as [|fuel IH]; intros i Hi; simpl.
  { split_and!; intros; lia. }
  destruct (Z.testbit w i) eqn:E.
  - destruct (IH (i + 1)) as (H1 & H2 & H3); [lia|]. split_and!; try lia.
    + intros j Hj. destruct (decide (j = i)) as [->|]; [done|]. apply H2. lia.
    + intros. apply H3. lia.
  - split_and!; try lia. done.
Qed.

Lemma trailing_ones_spec w :
  is_u64 w -> w <> u64_MAX ->
  let t := trailing_ones w in
  0 <= t < 64 /\ (forall j, 0 <= j < t -> Z.testbit w j = true) /\ Z.testbit w t = false.
Proof.
  intros Hw Hne t.
  destruct (trailing_ones_from_spec 64 0 w) as (H1 & H2 & H3); [lia|].
  fold (trailing_ones w) in *. fold t in H1, H2, H3.
  destruct (decide (t < 64)) as [Hlt|Hge]; [split_and!; auto; lia|].
  exfalso. apply Hne. apply Z.bits_inj'. intros j Hj. unfold u64_MAX.
  change (2 ^ 64 - 1) with (Z.ones 64). rewrite Z.testbit_ones_nonneg by lia.
  destruct (Z.ltb_spec j 64); [apply H2; lia|].
  apply (Z.bits_above_log2 w j); [apply Hw|].
  destruct (decide (w = 0)) as [->|]; [simpl; lia|].
  apply Z.log2_lt_pow2; [destruct Hw; lia|].
  destruct Hw. apply (Z.lt_le_trans _ (2 ^ 64)); [lia|]. apply Z.pow_le_mono_r; lia.
Qed.

Lemma testbit_set w n j :
  0 <= n -> 0 <= j -> Z.testbit (Z.lor w (Z.shiftl 1 n)) j = (Z.testbit w j || (j =? n)).
Proof.
  intros. rewrite Z.lor_spec. f_equal. rewrite Z.shiftl_1_l.
  destruct (Z.eqb_spec j n) as [->|]; [by apply Z.pow2_bits_true|].
  apply Z.pow2_bits_false. lia.
Qed.

Lemma testbit_clear w n j :
  0 <= n -> 0 <= j ->
  Z.testbit (Z.ldiff w (Z.shiftl 1 n)) j = (Z.testbit w j && negb (j =? n)).
Proof.
  intros. rewrite Z.ldiff_spec. do 2 f_equal. rewrite Z.shiftl_1_l.
  destruct (Z.eqb_spec j n) as [->|]; [by apply Z.pow2_bits_true|].
  apply Z.pow2_bits_false. lia.
Qed.

Lemma land_bit_pos w n :
  is_u64 w -> 0 <= n -> (0 <? Z.land w (Z.shiftl 1 n)) = Z.testbit w n.
Proof.
  intros Hw Hn. rewrite Z.shiftl_1_l.
  assert (Z.land w (2 ^ n) = if Z.testbit w n then 2 ^ n else 0) as ->.
  { apply Z.bits_inj'. intros j Hj. rewrite Z.land_spec.
    destruct (decide (j = n)) as [->|].
    - rewrite Z.pow2_bits_true by done. destruct (Z.testbit w n) eqn:E; simpl.
      + by rewrite Z.pow2_bits_true.
      + by rewrite Z.bits_0.
    - rewrite Z.pow2_bits_false, andb_false_r by lia.
      destruct (Z.testbit w n); [by rewrite Z.pow2_bits_false by lia|by rewrite Z.bits_0]. }
  destruct (Z.testbit w n); [|done]. apply Z.ltb_lt. by apply Z.pow_pos_nonneg.
Qed.

Lemma is_u64_bits w : 0 <= w -> (forall j, 64 <= j -> Z.testbit w j = false) -> is_u64 w.
Proof.
  intros Hw Hb. split; [done|]. destruct (decide (w = 0)) as [->|]; [lia|].
  apply Z.log2_lt_pow2; [lia|]. destruct (Z.lt_ge_cases (Z.log2 w) 64); [done|].
  assert (Z.testbit w (Z.log2 w) = true) by (apply Z.bit_log2; lia).
  rewrite Hb in *; done.
Qed.

Lemma is_u64_bits_above w j : is_u64 w -> 64 <= j -> Z.testbit w j = false.
Proof.
  intros [H0 Hlt] Hj. destruct (decide (w = 0)) as [->|]; [by rewrite Z.bits_0|].
  apply Z.bits_above_log2; [done|].
  apply Z.log2_lt_pow2; [lia|]. apply (Z.lt_le_trans _ (2 ^ 64)); [lia|].
  apply Z.pow_le_mono_r; lia.
Qed.

Lemma is_u64_set w n : is_u64 w -> 0 <= n < 64 -> is_u64 (Z.lor w (Z.shiftl 1 n)).
Proof.
  intros Hw Hn. apply is_u64_bits.
  - apply Z.lor_nonneg. split; [apply Hw|]. apply Z.shiftl_nonneg. lia.
  - intros j Hj. rewrite testbit_set by lia. rewrite is_u64_bits_above by done.
    simpl. apply Z.eqb_neq. lia.
Qed.

Lemma is_u64_clear w n : is_u64 w -> 0 <= n < 64 -> is_u64 (Z.ldiff w (Z.shiftl 1 n)).
Proof.
  intros Hw Hn. apply is_u64_bits.
  - apply Z.ldiff_nonneg. left. apply Hw.
  - intros j Hj. rewrite testbit_clear by lia. by rewrite is_u64_bits_above.
Qed.

(** ** One bitmap block *)

Lemma block_words_wf b :
  length b = Z.to_nat BLOCK_SIZE -> words_wf 8 64 (words_get 8 64 b).
Proof.
  intros Hb. efs_consts. split; [apply length_words_get|].
  apply words_get_bound. lia.
Qed.

Lemma word_is_u64 b k :
  length b = Z.to_nat BLOCK_SIZE -> is_u64 (words_get 8 64 b !!! k).
Proof.
  intros Hb. destruct (block_words_wf b Hb) as [Hl Hf].
  destruct (decide (k < 64)%nat).
  - eapply Forall_lookup_total_1 in Hf; [exact Hf|lia].
  - rewrite list_lookup_total_alt, lookup_ge_None_2 by lia. unfold is_u64; simpl; lia.
Qed.

Lemma words_wf_insert b k w :
  length b = Z.to_nat BLOCK_SIZE -> is_u64 w ->
  words_wf 8 64 (<[k := w]> (words_get 8 64 b)).
Proof.
  intros Hb Hw. destruct (block_words_wf b Hb) as [Hl Hf].
  split; [by rewrite length_insert|]. by apply Forall_insert.
Qed.

Lemma block_bit_insert b k w i :
  length b = Z.to_nat BLOCK_SIZE -> is_u64 w -> 0 <= i < BLOCK_BITS -> (k < 64)%nat ->
  block_bit (words_put 8 (<[k := w]> (words_get 8 64 b))) i =
    if i / 64 =? Z.of_nat k then Z.testbit w (i mod 64) else block_bit b i.
Proof.
  intros Hb Hw Hi Hk. pose proof (words_wf_insert b k w Hb Hw) as [Hl Hf].
  efs_consts. unfold block_bit.
  replace 64%nat with (length (<[k := w]> (words_get 8 64 b))) at 1 by done.
  rewrite words_get_put by done.
  assert (0 <= i / 64 < 64) by (split; [apply Z.div_pos|apply Z.div_lt_upper_bound]; lia).
  destruct (Z.eqb_spec (i / 64) (Z.of_nat k)) as [->|Hne].
  - rewrite Nat2Z.id, list_lookup_total_insert_eq; [done|]. by rewrite length_words_get.
  - rewrite list_lookup_total_insert_ne by lia. done.
Qed.

(** A bit set or cleared in the word that holds it. *)
Lemma block_bit_update b i f g :
  length b = Z.to_nat BLOCK_SIZE -> 0 <= i < BLOCK_BITS ->
  let k := Z.to_nat (i / 64) in
  let w := words_get 8 64 b !!! k in
  is_u64 (f w) ->
  (forall j, 0 <= j < 64 -> Z.testbit (f w) j = g (Z.testbit w j) (j =? i mod 64)) ->
  (forall x, g x false = x) ->
  forall j, 0 <= j < BLOCK_BITS ->
    block_bit (words_put 8 (<[k := f w]> (words_get 8 64 b))) j =
      g (block_bit b j) (j =? i).
Proof.
  intros Hb Hi k w Hf Hbits Hg j Hj. efs_consts.
  assert (0 <= i / 64 < 64) by (split; [apply Z.div_pos|apply Z.div_lt_upper_bound]; lia).
  rewrite block_bit_insert; [|by efs_consts|done|by efs_consts|subst k; lia].
  subst k. rewrite Z2Nat.id by lia.
  pose proof (Z.div_mod i 64 ltac:(lia)). pose proof (Z.div_mod j 64 ltac:(lia)).
  pose proof (Z.mod_pos_bound j 64 ltac:(lia)).
  destruct (Z.eqb_spec (j / 64) (i / 64)) as [Heq|Hne].
  - rewrite Hbits by done. unfold block_bit. rewrite Heq. f_equal.
    apply Bool.eq_iff_eq_true. rewrite !Z.eqb_eq. lia.
  - replace (j =? i) with false by (symmetry; apply Z.eqb_neq; congruence).
    by rewrite Hg.
Qed.

Lemma alloc_in_block_spec b block_id :
  length b = Z.to_nat BLOCK_SIZE ->
  match alloc_in_block block_id (Words (words_get 8 64 b)) with
  | (Some r, bb) =>
      exists i, r = block_id * BLOCK_BITS + i /\ 0 <= i < BLOCK_BITS /\
        block_bit b i = false /\ (forall j, 0 <= j < i -> block_bit b j = true) /\
        words_wf 8 64 (word_list bb) /\
        (forall j, 0 <= j < BLOCK_BITS ->
           block_bit (words_put 8 (word_list bb)) j = (block_bit b j || (j =? i)))
  | (None, bb) =>
      bb = Words (words_get 8 64 b) /\
      (forall j, 0 <= j < BLOCK_BITS -> block_bit b j = true)
  end.
Proof.
  intros Hb. pose proof (block_words_wf b Hb) as [Hl _]. unfold alloc_in_block. cbn [word_list].
  destruct (list_find _ _) as [[k w]|] eqn:Hf.
  - apply list_find_Some in Hf as (Hk & Hw & Hmin).
    pose proof (lookup_lt_Some _ _ _ Hk) as Hk64. rewrite Hl in Hk64.
    pose proof (list_lookup_total_correct _ _ _ Hk) as Hkw.
    assert (is_u64 w) as Hwu by (rewrite <- Hkw; by apply word_is_u64).
    destruct (trailing_ones_spec w Hwu Hw) as (Ht & Hbelow & Hbit).
    set (t := trailing_ones w) in *. efs_consts.
    exists (Z.of_nat k * 64 + t). cbn [word_list].
    assert ((Z.of_nat k * 64 + t) / 64 = Z.of_nat k) as Hdiv by (symmetry; apply (Z.div_unique _ _ _ t); lia).
    assert ((Z.of_nat k * 64 + t) mod 64 = t) as Hmod by (symmetry; apply (Z.mod_unique _ _ (Z.of_nat k)); lia).
    split; [lia|]. split; [lia|]. split; [|split; [|split]].
    + unfold block_bit. by rewrite Hdiv, Nat2Z.id, Hmod, Hkw.
    + intros j Hj. unfold block_bit.
      pose proof (Z.div_mod j 64 ltac:(lia)). pose proof (Z.mod_pos_bound j 64 ltac:(lia)).
      assert (0 <= j / 64) by (apply Z.div_pos; lia).
      destruct (decide (j / 64 = Z.of_nat k)) as [He|Hne].
      * rewrite He, Nat2Z.id, Hkw. apply Hbelow. nia.
      * assert (j / 64 < Z.of_nat k) by nia.
        destruct (lookup_lt_is_Some_2 (words_get 8 64 b) (Z.to_nat (j / 64))) as [x Hx]; [lia|].
        rewrite (list_lookup_total_correct _ _ _ Hx).
        destruct (decide (x = u64_MAX)) as [->|Hx']; [|exfalso; apply (Hmin _ _ Hx ltac:(lia)); done].
        unfold u64_MAX. change (2 ^ 64 - 1) with (Z.ones 64).
        rewrite Z.testbit_ones_nonneg by lia. apply Z.ltb_lt. lia.
    + apply words_wf_insert; [done|]. by apply is_u64_set.
    + intros j Hj.
      pose proof (block_bit_update b (Z.of_nat k * 64 + t) (fun w => Z.lor w (Z.shiftl 1 t)) orb) as HU.
      cbv zeta in HU. rewrite Hdiv, Nat2Z.id, Hkw, Hmod in HU. efs_consts.
      apply HU; [done|lia|by apply is_u64_set| |apply orb_false_r|done].
      intros i Hi. apply testbit_set; lia.
  - apply list_find_None in Hf. split; [done|]. intros j Hj. efs_consts. unfold block_bit.
    pose proof (Z.mod_pos_bound j 64 ltac:(lia)).
    assert (0 <= j / 64 < 64) by (split; [apply Z.div_pos|apply Z.div_lt_upper_bound]; lia).
    destruct (lookup_lt_is_Some_2 (words_get 8 64 b) (Z.to_nat (j / 64))) as [x Hx]; [lia|].
    rewrite (list_lookup_total_correct _ _ _ Hx).
    eapply Forall_lookup_1 in Hf; [|exact Hx]. apply dec_stable in Hf. subst x.
    unfold u64_MAX. change (2 ^ 64 - 1) with (Z.ones 64).
    rewrite Z.testbit_ones_nonneg by lia. apply Z.ltb_lt. lia.
Qed.

(** ** The bitmap on disk *)

Section on_disk.
Context (bm : Bitmap).
Implicit Types (d : disk) (i j k : Z).

Lemma run_bitmap_block {V} d k b (f : BitmapBlock -> prog (V * BitmapBlock)) v bb :
  bitmap_ready bm d -> 0 <= k < bitmap_blocks bm ->
  blocks d !! (start_block_id bm + k) = Some b ->
  f (Words (words_get 8 64 b)) = Ret (v, bb) -> words_wf 8 64 (word_list bb) ->
  run (get_modify (start_block_id bm + k) 0 f) d =
    Ok (v, Disk (<[start_block_id bm + k := words_put 8 (word_list bb)]> (blocks d)) (held d)).
Proof.
  intros [Hr Hk] Hkr Hb Hf Hwf. destruct (Hk k Hkr) as (Hnh & b' & Hb' & Hlen).
  rewrite Hb in Hb'. injection Hb' as <-.
  rewrite <- (write_ref_words 8 64 b bb) by done.
  eapply run_get_modify; [done..|by apply as_ref_words| |].
  - rewrite Hf. done.
  - rewrite write_ref_words by done. rewrite length_words_put. destruct Hwf as [-> _]. done.
Qed.

(** One block of the bitmap replaced. *)
Lemma bit_at_insert d i b b' (g : bool -> bool -> bool) :
  blocks d !! (start_block_id bm + i / BLOCK_BITS) = Some b ->
  (forall x, g x false = x) ->
  (forall j, 0 <= j < BLOCK_BITS ->
     block_bit b' j = g (block_bit b j) (j =? i mod BLOCK_BITS)) ->
  forall j, bit_at bm (Disk (<[start_block_id bm + i / BLOCK_BITS := b']> (blocks d)) (held d)) j =
    g (bit_at bm d j) (j =? i).
Proof.
  intros Hb Hg Hbits j. unfold bit_at. cbn [blocks]. efs_consts.
  pose proof (Z.div_mod i 4096 ltac:(lia)). pose proof (Z.div_mod j 4096 ltac:(lia)).
  destruct (decide (i / 4096 = j / 4096)) as [Heq|Hne].
  - rewrite <- Heq, lookup_insert_eq, Hb, Hbits by (apply Z.mod_pos_bound; lia).
    f_equal. apply Bool.eq_iff_eq_true. rewrite !Z.eqb_eq. lia.
  - rewrite lookup_insert_ne by lia.
    replace (j =? i) with false by (symmetry; apply Z.eqb_neq; congruence).
    by rewrite Hg.
Qed.

Lemma bit_at_block d k b i :
  blocks d !! (start_block_id bm + k) = Some b -> 0 <= i < BLOCK_BITS ->
  bit_at bm d (k * BLOCK_BITS + i) = block_bit b i.
Proof.
  intros Hb Hi. unfold bit_at. efs_consts.
  assert ((k * 4096 + i) / 4096 = k) as -> by (symmetry; apply (Z.div_unique _ _ _ i); lia).
  assert ((k * 4096 + i) mod 4096 = i) as -> by (symmetry; apply (Z.mod_unique _ _ k); lia).
  by rewrite Hb.
Qed.

(** The bits only depend on the bitmap's blocks. *)
Lemma bit_at_frame d d' j :
  (forall k, 0 <= k < bitmap_blocks bm ->
     blocks d' !! (start_block_id bm + k) = blocks d !! (start_block_id bm + k)) ->
  0 <= j < Bitmap_maximum bm -> bit_at bm d' j = bit_at bm d j.
Proof.
  intros Hk Hj. unfold bit_at, Bitmap_maximum in *. efs_consts. rewrite Hk; [done|].
  split; [apply Z.div_pos; lia|apply Z.div_lt_upper_bound; lia].
Qed.

(** The effect of setting or clearing one bit. *)
Definition bit_set (i : Z) (v : bool) (d d' : disk) : Prop :=
  held d' = held d /\
  (exists b', length b' = Z.to_nat BLOCK_SIZE /\
     blocks d' = <[start_block_id bm + i / BLOCK_BITS := b']> (blocks d)) /\
  forall j, bit_at bm d' j = if j =? i then v else bit_at bm d j.

Lemma alloc_from_spec n m d :
  0 <= m -> m + Z.of_nat n = bitmap_blocks bm -> bitmap_ready bm d ->
  exists r d', run (alloc_from bm (seqZ m (Z.of_nat n))) d = Ok (r, d') /\
    match r with
    | Some i => m * BLOCK_BITS <= i < Bitmap_maximum bm /\ bit_at bm d i = false /\
        (forall j, m * BLOCK_BITS <= j < i -> bit_at bm d j = true) /\ bit_set i true d d'
    | None => d' = d /\
        forall j, m * BLOCK_BITS <= j < Bitmap_maximum bm -> bit_at bm d j = true
    end.
Proof.
  revert m. induction n as [|n IH]; intros m Hm Hmn Hready.
  { exists None, d. split; [done|]. split; [done|]. unfold Bitmap_maximum. efs_consts. lia. }
  rewrite seqZ_cons by lia. cbn [alloc_from].
  destruct (proj2 Hready m ltac:(lia)) as (_ & b & Hb & Hlen).
  pose proof (alloc_in_block_spec b m Hlen) as Hspec.
  destruct (alloc_in_block m _) as [[r|] bb] eqn:Ea.
  - destruct Hspec as (i & -> & Hi & Hbit & Hbelow & Hwf & Hbits).
    assert ((m * BLOCK_BITS + i) / BLOCK_BITS = m) as Hdiv
      by (efs_consts; symmetry; apply (Z.div_unique _ _ _ i); lia).
    assert ((m * BLOCK_BITS + i) mod BLOCK_BITS = i) as Hmod
      by (efs_consts; symmetry; apply (Z.mod_unique _ _ m); lia).
    do 2 eexists. split.
    { rewrite (run_bind_Ok _ _ _ _ _
        (run_bitmap_block d m b _ _ _ Hready ltac:(lia) Hb (f_equal Ret Ea) Hwf)).
      reflexivity. }
    cbn [blocks held]. split_and!.
    + lia.
    + unfold Bitmap_maximum. efs_consts. nia.
    + by rewrite (bit_at_block d m b).
    + intros j Hj. replace j with (m * BLOCK_BITS + (j - m * BLOCK_BITS)) by lia.
      rewrite (bit_at_block d m b) by (done || lia). apply Hbelow. lia.
    + split; [done|]. split.
      { exists (words_put 8 (word_list bb)). rewrite Hdiv. split; [|done].
        rewrite length_words_put. by destruct Hwf as [-> _]. }
      intros j. pose proof (bit_at_insert d (m * BLOCK_BITS + i) b (words_put 8 (word_list bb)) orb) as HI.
      rewrite Hdiv, Hmod in HI. rewrite HI; [|done|apply orb_false_r|done].
      destruct (j =? _); [apply orb_true_r|apply orb_false_r].
  - destruct Hspec as (-> & Hall).
    destruct (IH (Z.succ m)) as (r & d' & Hrun & Hr); [lia|lia|done|].
    exists r, d'. replace (Z.pred (Z.of_nat (S n))) with (Z.of_nat n) by lia. split.
    { rewrite run_bind.
      rewrite (run_bitmap_block d m b _ _ _ Hready ltac:(lia) Hb (f_equal Ret Ea) (block_words_wf b Hlen)).
      cbn [word_list res_bind]. rewrite words_put_get, insert_id by done.
      destruct d. exact Hrun. }
    assert (forall j, m * BLOCK_BITS <= j < Z.succ m * BLOCK_BITS -> bit_at bm d j = true) as Hm0.
    { intros j Hj. replace j with (m * BLOCK_BITS + (j - m * BLOCK_BITS)) by lia.
      rewrite (bit_at_block d m b) by (done || lia). apply Hall. lia. }
    destruct r as [i|].
    + destruct Hr as (Hi & Hbit & Hbelow & Hset). split_and!; [|lia|done| |done].
      * efs_consts. nia.
      * intros j Hj. destruct (decide (j < Z.succ m * BLOCK_BITS)); [apply Hm0; lia|].
        apply Hbelow. lia.
    + destruct Hr as [-> Hr]. split; [done|]. intros j Hj.
      destruct (decide (j < Z.succ m * BLOCK_BITS)); [apply Hm0; lia|]. apply Hr. lia.
Qed.

(** The state after clearing a set bit, or the failed assertion. *)
Lemma Bitmap_dealloc_run d i :
  bitmap_ready bm d -> 0 <= i < Bitmap_maximum bm ->
  if bit_at bm d i
  then exists d', run (Bitmap_dealloc bm i) d = Ok (tt, d') /\ bit_set i false d d'
  else run (Bitmap_dealloc bm i) d = Panic AssertFailed.
Proof.
  intros Hready Hi. unfold Bitmap_maximum in Hi.
  assert (0 <= i / BLOCK_BITS < bitmap_blocks bm) as Hk.
  { efs_consts. split; [apply Z.div_pos; lia|]. apply Z.div_lt_upper_bound; lia. }
  destruct (proj2 Hready _ Hk) as (Hnh & b & Hb & Hlen).
  unfold bit_at. rewrite Hb. unfold Bitmap_dealloc, decomposition.
  set (ib := i mod BLOCK_BITS).
  assert (0 <= ib < BLOCK_BITS) as Hib by (apply Z.mod_pos_bound; by efs_consts).
  pose proof (Z.mod_pos_bound ib 64 ltac:(lia)) as Hib64.
  pose proof (word_is_u64 b (Z.to_nat (ib / 64)) Hlen) as Hwu.
  unfold block_bit.
  destruct (Z.testbit (words_get 8 64 b !!! Z.to_nat (ib / 64)) (ib mod 64)) eqn:Ebit.
  - eexists. split.
    { apply (run_bitmap_block d (i / BLOCK_BITS) b _ tt
        (Words (<[Z.to_nat (ib / 64) := Z.ldiff (words_get 8 64 b !!! Z.to_nat (ib / 64))
           (Z.shiftl 1 (ib mod 64))]> (words_get 8 64 b)))); try done.
      - unfold dealloc_in_block. cbn [word_list].
        rewrite land_bit_pos, Ebit by (done || lia). done.
      - apply words_wf_insert; [done|]. by apply is_u64_clear. }
    cbn [word_list]. split; [done|]. split.
    { eexists. split; [|done]. rewrite length_words_put, length_insert, length_words_get. done. }
    intros j.
    rewrite (bit_at_insert d i b _ (fun x y => x && negb y)); [|done|intros []; done|].
    + destruct (j =? i); [apply andb_false_r|apply andb_true_r].
    + fold ib. apply (block_bit_update b ib (fun w => Z.ldiff w (Z.shiftl 1 (ib mod 64)))
        (fun x y => x && negb y)); try done.
      * by apply is_u64_clear.
      * intros j' Hj'. apply testbit_clear; lia.
      * by intros [].
  - cbn [get_modify run]. rewrite (disk_acquire_ok _ d b) by (done || apply Hready).
    cbn [res_bind]. rewrite (as_ref_words 8 64) by done. cbn [lift bind].
    unfold dealloc_in_block. cbn [word_list].
    rewrite land_bit_pos, Ebit by (done || lia). done.
Qed.
End on_disk.

Lemma block_bit_ext b b' :
  length b = Z.to_nat BLOCK_SIZE -> length b' = Z.to_nat BLOCK_SIZE ->
  (forall j, 0 <= j < BLOCK_BITS -> block_bit b j = block_bit b' j) -> b = b'.
Proof.
  intros Hb Hb' Hbits.
  rewrite <- (words_put_get 8 64 b), <- (words_put_get 8 64 b') by done. f_equal.
  apply list_eq_same_length with 64%nat; [apply length_words_get..|].
  intros k x y Hk Hx Hy. efs_consts.
  apply list_lookup_total_correct in Hx as <-, Hy as <-.
  apply Z.bits_inj'. intros j Hj. destruct (decide (j < 64)) as [Hlt|Hge].
  - specialize (Hbits (Z.of_nat k * 64 + j) ltac:(lia)). unfold block_bit in Hbits.
    assert ((Z.of_nat k * 64 + j) / 64 = Z.of_nat k) as Hd by (symmetry; apply (Z.div_unique _ _ _ j); lia).
    assert ((Z.of_nat k * 64 + j) mod 64 = j) as Hm by (symmetry; apply (Z.mod_unique _ _ (Z.of_nat k)); lia).
    by rewrite Hd, Hm, Nat2Z.id in Hbits.
  - by rewrite !is_u64_bits_above by (done || lia || by apply word_is_u64; efs_consts).
Qed.

Section claims.
Context (bm : Bitmap).

Lemma bit_set_ready i v d d' : bit_set bm i v d d' -> bitmap_ready bm d -> bitmap_ready bm d'.
Proof.
  intros (Hh & (b' & Hlen & Hb) & _) [Hr Hk].
  split; [unfold room in *; by rewrite Hh|]. intros k Hkr.
  rewrite Hh, Hb. destruct (Hk k Hkr) as (? & b & Hbk & ?). split; [done|].
  destruct (decide (i / BLOCK_BITS = k)) as [<-|].
  - exists b'. by rewrite lookup_insert_eq.
  - exists b. by rewrite lookup_insert_ne by lia.
Qed.

(** The blocks of the bitmap are determined by its bits. *)
Lemma bit_set_undo i v w d d' d'' :
  bitmap_ready bm d -> 0 <= i < Bitmap_maximum bm ->
  bit_set bm i v d d' -> bit_set bm i w d' d'' -> bit_at bm d i = w -> d'' = d.
Proof.
  intros [_ Hk] Hi (Hh & (b1 & Hl1 & Hb1) & Hbit1) (Hh' & (b2 & Hl2 & Hb2) & Hbit2) Hw.
  unfold Bitmap_maximum in Hi.
  assert (0 <= i / BLOCK_BITS < bitmap_blocks bm) as Hkr.
  { efs_consts. split; [apply Z.div_pos; lia|]. apply Z.div_lt_upper_bound; lia. }
  destruct (Hk _ Hkr) as (_ & b & Hb & Hlen).
  assert (b2 = b) as ->.
  { apply block_bit_ext; [done..|]. intros j Hj.
    rewrite <- (bit_at_block bm d'' (i / BLOCK_BITS) b2) by (done || by rewrite Hb2, lookup_insert_eq).
    rewrite <- (bit_at_block bm d (i / BLOCK_BITS) b) by done.
    rewrite Hbit2, Hbit1. destruct (Z.eqb_spec (i / BLOCK_BITS * BLOCK_BITS + j) i) as [->|]; done. }
  destruct d as [bs h], d'' as [bs'' h'']; simpl in *. f_equal; [|congruence].
  by rewrite Hb2, Hb1, insert_insert_eq, insert_id.
Qed.

(** [Bitmap::alloc] always returns; it returns the lowest clear bit, sets
    it and changes no other bit and no block outside the bitmap, or returns
    [None] and changes nothing, exactly when every bit is set. *)
Theorem Bitmap_alloc_first_fit d :
  bitmap_ready bm d -> 0 <= bitmap_blocks bm ->
  exists r d', run (Bitmap_alloc bm) d = Ok (r, d') /\
    match r with
    | Some i => 0 <= i < Bitmap_maximum bm /\ bit_at bm d i = false /\
        (forall j, 0 <= j < i -> bit_at bm d j = true) /\ bit_set bm i true d d'
    | None => d' = d /\ forall j, 0 <= j < Bitmap_maximum bm -> bit_at bm d j = true
    end.
Proof.
  intros Hready Hn. unfold Bitmap_alloc. rewrite <- (Z2Nat.id (bitmap_blocks bm)) by done.
  apply (alloc_from_spec bm (Z.to_nat (bitmap_blocks bm)) 0 d); [lia|lia|done].
Qed.

(** [Bitmap::dealloc] of a set bit clears that bit and nothing else;
    of a clear bit it fails its assertion, so a double free is caught. *)
Theorem Bitmap_dealloc_spec d i :
  bitmap_ready bm d -> 0 <= i < Bitmap_maximum bm ->
  if bit_at bm d i
  then exists d', run (Bitmap_dealloc bm i) d = Ok (tt, d') /\ bit_set bm i false d d'
  else run (Bitmap_dealloc bm i) d = Panic AssertFailed.
Proof. apply Bitmap_dealloc_run. Qed.

(** Freeing the bit just allocated restores the disk exactly. *)
Theorem Bitmap_alloc_dealloc d d' i :
  bitmap_ready bm d -> 0 <= bitmap_blocks bm ->
  run (Bitmap_alloc bm) d = Ok (Some i, d') ->
  run (Bitmap_dealloc bm i) d' = Ok (tt, d).
Proof.
  intros Hready Hn Hrun. unfold Bitmap_alloc in Hrun.
  destruct (alloc_from_spec bm (Z.to_nat (bitmap_blocks bm)) 0 d) as (r & d1 & Hrun' & Hr);
    [lia|lia|done|].
  rewrite Z2Nat.id, Hrun in Hrun' by lia. injection Hrun' as <- <-.
  destruct Hr as (Hi & Hbit & _ & Hset).
  pose proof (Bitmap_dealloc_run bm d' i (bit_set_ready _ _ _ _ Hset Hready) ltac:(lia)) as Hde.
  pose proof Hset as (_ & _ & Hbits). rewrite (Hbits i), Z.eqb_refl in Hde.
  destruct Hde as (d2 & -> & Hset2).
  by rewrite (bit_set_undo i true false d d' d2) by (done || lia).
Qed.
End claims.

(** ** Witnesses *)

Definition demo_bitmap : Bitmap := {| start_block_id := 1; bitmap_blocks := 1 |}.
Definition demo_bitmap_disk : disk :=
  Disk {[1 := words_put 8 (11 :: replicate 63 0)]} ∅.

Lemma demo_bitmap_ready : bitmap_ready demo_bitmap demo_bitmap_disk.
Proof.
  split; [unfold room; vm_compute; discriminate|]. intros k Hk. simpl in Hk.
  replace k with 0 by lia. simpl. split; [set_solver|].
  eexists. split; reflexivity.
Qed.

Lemma Bitmap_alloc_first_fit_witness :
  (exists r d', run (Bitmap_alloc demo_bitmap) demo_bitmap_disk = Ok (r, d') /\
    match r with
    | Some i => 0 <= i < 4096 /\ bit_at demo_bitmap demo_bitmap_disk i = false /\
        (forall j, 0 <= j < i -> bit_at demo_bitmap demo_bitmap_disk j = true) /\
        bit_set demo_bitmap i true demo_bitmap_disk d'
    | None => d' = demo_bitmap_disk /\
        forall j, 0 <= j < 4096 -> bit_at demo_bitmap demo_bitmap_disk j = true
    end) /\
  (match run (Bitmap_alloc demo_bitmap) demo_bitmap_disk with
   | Ok (r, _) => r | _ => None end) = Some 2.
Proof.
  split; [|vm_compute; reflexivity].
  apply (Bitmap_alloc_first_fit demo_bitmap); [apply demo_bitmap_ready|simpl; lia].
Defined.

Lemma Bitmap_dealloc_spec_witness :
  (exists d', run (Bitmap_dealloc demo_bitmap 3) demo_bitmap_disk = Ok (tt, d') /\
    bit_set demo_bitmap 3 false demo_bitmap_disk d') /\
  run (Bitmap_dealloc demo_bitmap 2) demo_bitmap_disk = Panic AssertFailed.
Proof.
  split.
  - assert (bit_at demo_bitmap demo_bitmap_disk 3 = true) as Hb by (vm_compute; reflexivity).
    pose proof (Bitmap_dealloc_spec demo_bitmap demo_bitmap_disk 3 demo_bitmap_ready
      ltac:(unfold Bitmap_maximum; simpl; efs_consts; lia)) as HH.
    rewrite Hb in HH. exact HH.
  - vm_compute. reflexivity.
Defined.

Lemma Bitmap_alloc_dealloc_witness :
  exists d', run (Bitmap_alloc demo_bitmap) demo_bitmap_disk = Ok (Some 2, d') /\
    run (Bitmap_dealloc demo_bitmap 2) d' = Ok (tt, demo_bitmap_disk).
Proof.
  destruct (run (Bitmap_alloc demo_bitmap) demo_bitmap_disk) as [[[i|] d']|] eqn:E;
    [|exfalso; vm_compute in E; discriminate E..].
  assert (i = 2) as -> by (vm_compute in E; congruence).
  exists d'. split; [reflexivity|].
  apply (Bitmap_alloc_dealloc demo_bitmap demo_bitmap_disk d' 2 demo_bitmap_ready); [simpl; lia|exact E].
Defined.
