(* ===== verification/Layout.v ===== *)
(** * The on-disk layout

    [easy-fs/src/layout.rs]: super block, disk inodes with their direct and
    one-, two- and three-level indirect blocks, directory entries, and the
    operations on a disk inode: finding a data block, growing, shrinking and
    clearing the block tree, reading and writing at an offset. *)

From S2P Require Import Prelude Bytes Config BlockStore.

(** ** Super block *)

Record SuperBlock := {
  magic : Z;
  total_blocks : Z;
  inode_bitmap_blocks : Z;
  inode_area_blocks : Z;
  data_bitmap_blocks : Z;
  data_area_blocks : Z;
}.

Definition SuperBlock_words (sb : SuperBlock) : list Z :=
  [magic sb; total_blocks sb; inode_bitmap_blocks sb; inode_area_blocks sb;
   data_bitmap_blocks sb; data_area_blocks sb].

#[global] Instance SuperBlock_repr : Repr SuperBlock := {
  type_size := 24;
  type_wf sb := Forall is_u32 (SuperBlock_words sb);
  of_bytes bs :=
    match words_get 4 6 bs with
    | [m; t; ib; ia; db; da] =>
        Some {| magic := m; total_blocks := t; inode_bitmap_blocks := ib;
                inode_area_blocks := ia; data_bitmap_blocks := db;
                data_area_blocks := da |}
    | _ => None
    end;
  into_bytes _ sb := words_put 4 (SuperBlock_words sb);
}.

(** [SuperBlock::init] *)
Definition SuperBlock_init (total ib ia db da : Z) : SuperBlock :=
  {| magic := EFS_MAGIC; total_blocks := total; inode_bitmap_blocks := ib;
     inode_area_blocks := ia; data_bitmap_blocks := db; data_area_blocks := da |}.

(** [SuperBlock::is_valid] *)
Definition SuperBlock_is_valid (sb : SuperBlock) : bool := magic sb =? EFS_MAGIC.

(** ** Disk inode *)

Inductive DiskInodeKind := File | Directory.

#[global] Instance DiskInodeKind_eq_dec : EqDecision DiskInodeKind.
Proof. solve_decision. Defined.

Definition kind_byte (k : DiskInodeKind) : u8 :=
  match k with File => Byte.x00 | Directory => Byte.x01 end.

Definition byte_kind (b : u8) : option DiskInodeKind :=
  match b with
  | Byte.x00 => Some File
  | Byte.x01 => Some Directory
  | _ => None
  end.

Abbreviation IndirectBlock := (words 4 128).
Abbreviation DataBlock := (bytes 512).

Record DiskInode := MkDiskInode {
  kind : DiskInodeKind;
  size : Z;
  direct : list Z;
  indirect1 : Z;
  indirect2 : Z;
  indirect3 : Z;
}.

Definition DiskInode_words (di : DiskInode) : list Z :=
  size di :: direct di ++ [indirect1 di; indirect2 di; indirect3 di].

Definition DiskInode_wf (di : DiskInode) : Prop :=
  length (direct di) = 27%nat /\ Forall is_u32 (DiskInode_words di).

(** One byte of kind, three of padding, 31 words. *)
#[global] Instance DiskInode_repr : Repr DiskInode := {
  type_size := 128;
  type_wf := DiskInode_wf;
  of_bytes bs :=
    match byte_kind (nth 0 bs Byte.x00) with
    | Some k =>
        let ws := words_get 4 31 (drop 4 bs) in
        Some {| kind := k; size := ws !!! 0%nat; direct := slice 1 27 ws;
                indirect1 := ws !!! 28%nat; indirect2 := ws !!! 29%nat;
                indirect3 := ws !!! 30%nat |}
    | None => None
    end;
  into_bytes old di :=
    kind_byte (kind di) :: slice 1 3 old ++ words_put 4 (DiskInode_words di);
}.

(** [DiskInode::init]: [indirect3] is not touched. *)
Definition DiskInode_init (k : DiskInodeKind) (self : DiskInode) : DiskInode :=
  {| kind := k; size := 0; direct := replicate 27 0; indirect1 := 0; indirect2 := 0;
     indirect3 := indirect3 self |}.

Definition is_dir (self : DiskInode) : bool := bool_decide (kind self = Directory).
Definition is_file (self : DiskInode) : bool := bool_decide (kind self = File).

(** [array[i]] *)
Definition index (l : list Z) (i : Z) : prog Z :=
  match l !! Z.to_nat i with
  | Some x => Ret x
  | None => Fail IndexOutOfBounds
  end.

Definition read_indirect (block_id i : Z) : prog Z :=
  get_read block_id 0 (fun b : IndirectBlock => index (word_list b) i).

(** [DiskInode::block_id] *)
Definition DiskInode_block_id (self : DiskInode) (block_index : Z) : prog Z :=
  if block_index <? DIRECT_BOUND then index (direct self) block_index
  else if block_index <? INDIRECT1_BOUND then
    read_indirect (indirect1 self) (block_index - DIRECT_BOUND)
  else if block_index <? INDIRECT2_BOUND then
    let idx := block_index - INDIRECT1_BOUND in
    let! ind1 := read_indirect (indirect2 self) (idx / INDIRECT1_COUNT) in
    read_indirect ind1 (idx mod INDIRECT1_COUNT)
  else
    let idx := block_index - INDIRECT2_BOUND in
    let! ind2 := read_indirect (indirect3 self) (idx / INDIRECT2_COUNT) in
    let! ind1 := read_indirect ind2 (idx mod INDIRECT2_COUNT / INDIRECT1_COUNT) in
    read_indirect ind1 (idx mod INDIRECT2_COUNT mod INDIRECT1_COUNT).

Definition count_data_block (size : Z) : Z := div_ceil size BLOCK_SIZE.

(** [DiskInode::count_total_block] *)
Definition count_total_block (size : Z) : Z :=
  let data_blocks := count_data_block size in
  let total := data_blocks in
  let total := if DIRECT_BOUND <? data_blocks then total + 1 else total in
  let total :=
    if INDIRECT1_BOUND <? data_blocks then
      let remaining := data_blocks - INDIRECT1_BOUND in
      let indirect1_needed := div_ceil remaining INDIRECT1_COUNT in
      total + 1 + Z.min indirect1_needed INDIRECT1_COUNT
    else total in
  let total :=
    if INDIRECT2_BOUND <? data_blocks then
      let remaining := data_blocks - INDIRECT2_BOUND in
      let indirect2_needed := div_ceil remaining INDIRECT2_COUNT in
      let indirect3_needed := div_ceil remaining INDIRECT1_COUNT in
      total + 1 + (indirect2_needed + indirect3_needed)
    else total in
  w32 total.

(** [DiskInode::blocks_num_needed] *)
Definition blocks_num_needed (self : DiskInode) (new_size : Z) : res Z :=
  let? _ := assert (size self <=? new_size) in
  Ok (w32 (count_total_block new_size - count_total_block (size self))).

(** [blocks.next().unwrap()] *)
Definition next_block (blocks : list Z) : prog (Z * list Z) :=
  match blocks with
  | b :: blocks => Ret (b, blocks)
  | [] => Fail UnwrapNone
  end.

(** The loop of [build_tree] over the entries of one indirect block. *)
Fixpoint build_children (rec : list Z -> Z -> Z -> prog (Z * list Z)) (src_leaf dst_leaf : Z)
    (ws : list Z) (cur_leaf : Z) (blocks : list Z) : prog ((Z * list Z) * list Z) :=
  match ws with
  | [] => Ret ((cur_leaf, blocks), [])
  | w :: ws =>
      if dst_leaf <=? cur_leaf then Ret ((cur_leaf, blocks), w :: ws)
      else
        let! (w, blocks) :=
          if src_leaf <=? cur_leaf then next_block blocks else Ret (w, blocks) in
        let! (cur_leaf, blocks) := rec blocks w cur_leaf in
        let! (r, ws) := build_children rec src_leaf dst_leaf ws cur_leaf blocks in
        Ret (r, w :: ws)
  end.

(** [DiskInode::build_tree]; [depth] is [dst_depth - cur_depth].  Returns the
    leaf reached and the blocks not used. *)
Fixpoint build_tree (depth : nat) (src_leaf dst_leaf : Z)
    (blocks : list Z) (block_id cur_leaf : Z) : prog (Z * list Z) :=
  match depth with
  | O => Ret (cur_leaf + 1, blocks)
  | S depth =>
      get_modify block_id 0 (fun indirect_block : IndirectBlock =>
        let! (r, ws) := build_children (build_tree depth src_leaf dst_leaf)
                          src_leaf dst_leaf (word_list indirect_block) cur_leaf blocks in
        Ret (r, Words ws))
  end.

(** The loop over the direct entries: [n] is the number of iterations. *)
Fixpoint fill_direct (n : nat) (block_index : Z) (direct : list Z) (blocks : list Z) :
    prog (list Z * list Z) :=
  match n with
  | O => Ret (direct, blocks)
  | S n =>
      let! (b, blocks) := next_block blocks in
      fill_direct n (block_index + 1) (<[Z.to_nat block_index := b]> direct) blocks
  end.

Definition set_tree (self : DiskInode) (level : nat) (b : Z) : DiskInode :=
  match level with
  | 1%nat => {| kind := kind self; size := size self; direct := direct self;
                indirect1 := b; indirect2 := indirect2 self; indirect3 := indirect3 self |}
  | 2%nat => {| kind := kind self; size := size self; direct := direct self;
                indirect1 := indirect1 self; indirect2 := b; indirect3 := indirect3 self |}
  | _ => {| kind := kind self; size := size self; direct := direct self;
            indirect1 := indirect1 self; indirect2 := indirect2 self; indirect3 := b |}
  end.

Definition tree_root (self : DiskInode) (level : nat) : Z :=
  match level with
  | 1%nat => indirect1 self
  | 2%nat => indirect2 self
  | _ => indirect3 self
  end.

(** One of the three "Indirect Level" passages of [increase_size]: a new root
    when the levels below are exactly full, then the tree below it.
    [before] is the number of leaves of the previous level. *)
Definition grow_level (level : nat) (before block_index new_total_blocks : Z)
    (self : DiskInode) (blocks : list Z) : prog (DiskInode * list Z * Z) :=
  let! (self, blocks) :=
    if block_index =? before then
      let! (b, blocks) := next_block blocks in Ret (set_tree self level b, blocks)
    else Ret (self, blocks) in
  let block_index := w64 (block_index - before) in
  let new_total_blocks := w64 (new_total_blocks - before) in
  let! (cur_leaf, blocks) :=
    build_tree level block_index new_total_blocks blocks (tree_root self level) 0 in
  Ret (self, blocks, Z.max block_index cur_leaf).

(** [DiskInode::increase_size] *)
Definition DiskInode_increase_size (self : DiskInode) (new_size : Z) (new_blocks : list Z) :
    prog DiskInode :=
  let block_index := count_data_block (size self) in
  let new_total_blocks := count_data_block new_size in
  let! (direct', blocks) :=
    fill_direct (Z.to_nat (Z.min new_total_blocks DIRECT_COUNT - block_index))
      block_index (direct self) new_blocks in
  let self := {| kind := kind self; size := new_size; direct := direct';
                 indirect1 := indirect1 self; indirect2 := indirect2 self;
                 indirect3 := indirect3 self |} in
  let block_index := Z.max block_index (Z.min new_total_blocks DIRECT_COUNT) in
  if new_total_blocks <=? DIRECT_COUNT then Ret self
  else
    let! (self, blocks, block_index) :=
      grow_level 1 DIRECT_COUNT block_index new_total_blocks self blocks in
    let new_total_blocks := w64 (new_total_blocks - DIRECT_COUNT) in
    if new_total_blocks <=? INDIRECT1_COUNT then Ret self
    else
      let! (self, blocks, block_index) :=
        grow_level 2 INDIRECT1_COUNT block_index new_total_blocks self blocks in
      let new_total_blocks := w64 (new_total_blocks - INDIRECT1_COUNT) in
      if new_total_blocks <=? INDIRECT2_COUNT then Ret self
      else
        let! (self, _, _) :=
          grow_level 3 INDIRECT2_COUNT block_index new_total_blocks self blocks in
        Ret self.

(** [DiskInode::collect_tree]; [depth] is [dst_depth - cur_depth]. *)
Fixpoint collect_children (rec : list Z -> Z -> Z -> prog (list Z * Z)) (max_leaf : Z)
    (ws : list Z) (collected : list Z) (cur_leaf : Z) : prog (list Z * Z) :=
  match ws with
  | [] => Ret (collected, cur_leaf)
  | w :: ws =>
      if max_leaf <=? cur_leaf then Ret (collected, cur_leaf)
      else
        let! (collected, cur_leaf) := rec (collected ++ [w]) w cur_leaf in
        collect_children rec max_leaf ws collected cur_leaf
  end.

Fixpoint collect_tree (depth : nat) (max_leaf : Z)
    (collected : list Z) (block_id cur_leaf : Z) : prog (list Z * Z) :=
  match depth with
  | O => Ret (collected, cur_leaf + 1)
  | S depth =>
      get_read block_id 0 (fun indirect_block : IndirectBlock =>
        collect_children (collect_tree depth max_leaf) max_leaf
          (word_list indirect_block) collected cur_leaf)
  end.

(** The loop over the direct entries of [decrease_size]. *)
Fixpoint drop_direct (n : nat) (recycled_blocks : Z) (direct collected : list Z) :
    list Z * list Z :=
  match n with
  | O => (direct, collected)
  | S n => drop_direct n (recycled_blocks + 1) (<[Z.to_nat recycled_blocks := 0]> direct)
             (collected ++ [direct !!! Z.to_nat recycled_blocks])
  end.

(** One "Indirect Level" passage of [decrease_size]. *)
Definition shrink_level (level : nat) (before block_index recycled_blocks : Z)
    (self : DiskInode) (collected : list Z) : prog (DiskInode * list Z * Z) :=
  let '(self, collected) :=
    if block_index =? before
    then (set_tree self level 0, collected ++ [tree_root self level])
    else (self, collected) in
  let! (collected, cur_leaf) :=
    collect_tree level recycled_blocks collected (tree_root self level) 0 in
  Ret (self, collected, cur_leaf).

(** [DiskInode::decrease_size] *)
Definition DiskInode_decrease_size (self : DiskInode) (new_size : Z) :
    prog (DiskInode * list Z) :=
  let block_index := count_data_block (size self) in
  let recycled_blocks := count_data_block new_size in
  let direct_recycle_count := Z.min block_index DIRECT_COUNT in
  let '(direct', collected) :=
    drop_direct (Z.to_nat (direct_recycle_count - recycled_blocks))
      recycled_blocks (direct self) [] in
  let recycled_blocks := Z.max recycled_blocks direct_recycle_count in
  let self := {| kind := kind self; size := new_size; direct := direct';
                 indirect1 := indirect1 self; indirect2 := indirect2 self;
                 indirect3 := indirect3 self |} in
  if recycled_blocks <=? DIRECT_COUNT then Ret (self, collected)
  else
    let recycled_blocks := w64 (recycled_blocks - DIRECT_COUNT) in
    let! (self, collected, cur_leaf) :=
      shrink_level 1 DIRECT_COUNT block_index recycled_blocks self collected in
    let block_index := Z.min (w64 (block_index - DIRECT_COUNT)) cur_leaf in
    if recycled_blocks <=? INDIRECT1_COUNT then Ret (self, collected)
    else
      let recycled_blocks := w64 (recycled_blocks - INDIRECT1_COUNT) in
      let! (self, collected, cur_leaf) :=
        shrink_level 2 INDIRECT1_COUNT block_index recycled_blocks self collected in
      let block_index := Z.min (w64 (block_index - INDIRECT1_COUNT)) cur_leaf in
      if recycled_blocks <=? INDIRECT2_COUNT then Ret (self, collected)
      else
        let recycled_blocks := w64 (recycled_blocks - INDIRECT1_COUNT) in
        let! (self, collected, _) :=
          shrink_level 3 INDIRECT2_COUNT block_index recycled_blocks self collected in
        Ret (self, collected).

(** [DiskInode::clear_size] *)
Definition DiskInode_clear_size (self : DiskInode) : prog (DiskInode * list Z) :=
  let data_blocks := count_data_block (size self) in
  let collected := take (Z.to_nat (Z.min data_blocks DIRECT_COUNT)) (direct self) in
  let self := {| kind := kind self; size := 0; direct := replicate 27 0;
                 indirect1 := indirect1 self; indirect2 := indirect2 self;
                 indirect3 := indirect3 self |} in
  if data_blocks <=? DIRECT_COUNT then Ret (self, collected)
  else
    let data_blocks := data_blocks - DIRECT_COUNT in
    let! (collected, _) :=
      collect_tree 1 data_blocks (collected ++ [indirect1 self]) (indirect1 self) 0 in
    let self := set_tree self 1 0 in
    if data_blocks <=? INDIRECT1_COUNT then Ret (self, collected)
    else
      let data_blocks := data_blocks - INDIRECT1_COUNT in
      let! (collected, _) :=
        collect_tree 2 data_blocks (collected ++ [indirect2 self]) (indirect2 self) 0 in
      let self := set_tree self 2 0 in
      if data_blocks <=? INDIRECT2_COUNT then Ret (self, collected)
      else
        let data_blocks := data_blocks - INDIRECT2_COUNT in
        let! (collected, _) :=
          collect_tree 3 data_blocks (collected ++ [indirect3 self]) (indirect3 self) 0 in
        Ret (set_tree self 3 0, collected).

(** The end of the part of [start .. end_] that lies in one block. *)
Definition end_current_block (start end_ : Z) : Z :=
  Z.min ((start / BLOCK_SIZE + 1) * BLOCK_SIZE) end_.

(** The loop of [DiskInode::read_at]; returns the bytes read and the buffer. *)
Fixpoint read_loop (fuel : nat) (self : DiskInode) (buf : list u8)
    (start start_block read_size end_ : Z) : prog (Z * list u8) :=
  match fuel with
  | O => Fail OutOfFuel
  | S fuel =>
      let ecb := end_current_block start end_ in
      let block_read_size := ecb - start in
      let! block_id := DiskInode_block_id self (w32 start_block) in
      let! buf := get_read block_id 0 (fun data_block : DataBlock =>
        Ret (splice (Z.to_nat read_size)
               (slice (Z.to_nat (start mod BLOCK_SIZE)) (Z.to_nat block_read_size)
                  (byte_list data_block)) buf)) in
      let read_size := read_size + block_read_size in
      if ecb =? end_ then Ret (read_size, buf)
      else read_loop fuel self buf ecb (start_block + 1) read_size end_
  end.

Definition loop_fuel (start end_ : Z) : nat :=
  Z.to_nat (end_ / BLOCK_SIZE - start / BLOCK_SIZE + 1).

(** [DiskInode::read_at] *)
Definition DiskInode_read_at (self : DiskInode) (offset : Z) (buf : list u8) :
    prog (Z * list u8) :=
  let start := offset in
  let end_ := Z.min (w64 (offset + Z.of_nat (length buf))) (size self) in
  if end_ <=? start then Ret (0, buf)
  else read_loop (loop_fuel start end_) self buf start (start / BLOCK_SIZE) 0 end_.

(** The loop of [DiskInode::write_at]. *)
Fixpoint write_loop (fuel : nat) (self : DiskInode) (buf : list u8)
    (start start_block write_size end_ : Z) : prog Z :=
  match fuel with
  | O => Fail OutOfFuel
  | S fuel =>
      let ecb := end_current_block start end_ in
      let block_write_size := ecb - start in
      let! block_id := DiskInode_block_id self (w32 start_block) in
      get_modify block_id 0 (fun data_block : DataBlock =>
        Ret (tt, Bytes (splice (Z.to_nat (start mod BLOCK_SIZE))
                   (slice (Z.to_nat write_size) (Z.to_nat block_write_size) buf)
                   (byte_list data_block)))) ;;;
      let write_size := write_size + block_write_size in
      if ecb =? end_ then Ret write_size
      else write_loop fuel self buf ecb (start_block + 1) write_size end_
  end.

(** [DiskInode::write_at] *)
Definition DiskInode_write_at (self : DiskInode) (offset : Z) (buf : list u8) : prog Z :=
  let start := offset in
  let end_ := Z.min (w64 (offset + Z.of_nat (length buf))) (size self) in
  lift (assert (start <=? end_)) ;;;
  write_loop (loop_fuel start end_) self buf start (start / BLOCK_SIZE) 0 end_.

(** ** Directory entries *)

Record DirEntry := { name : list u8; inode_number : Z }.

Definition DIRENT_SIZE : Z := 32.

(** [DirEntry::new]: the copy is out of range for a name of over 28 bytes. *)
Definition DirEntry_new (nm : list u8) (inode : Z) : res DirEntry :=
  if Z.of_nat (length nm) <=? NAME_LENGTH_LIMIT + 1
  then Ok {| name := splice 0 nm (replicate 28 Byte.x00); inode_number := inode |}
  else Panic IndexOutOfBounds.

Definition DirEntry_empty : DirEntry :=
  {| name := replicate 28 Byte.x00; inode_number := 0 |}.

Definition as_bytes (e : DirEntry) : list u8 := name e ++ le_put 4 (inode_number e).

(** The entry whose bytes, as [as_mut_bytes] exposes them, are [bs]. *)
Definition DirEntry_of_bytes (bs : list u8) : DirEntry :=
  {| name := take 28 bs; inode_number := le_get (drop 28 bs) |}.

(** Bytes a UTF-8 decoder accepts, as [core::str::from_utf8]. *)
Definition byte_in (lo hi : Z) (b : u8) : bool :=
  (lo <=? byte.unsigned b) && (byte.unsigned b <=? hi).

Fixpoint utf8_valid (bs : list u8) : bool :=
  match bs with
  | [] => true
  | b0 :: t =>
      if byte_in 0x00 0x7F b0 then utf8_valid t
      else match t with
      | b1 :: t1 =>
          if byte_in 0xC2 0xDF b0 then byte_in 0x80 0xBF b1 && utf8_valid t1
          else match t1 with
          | b2 :: t2 =>
              if byte_in 0xE0 0xEF b0 then
                (if byte_in 0xE0 0xE0 b0 then byte_in 0xA0 0xBF b1
                 else if byte_in 0xED 0xED b0 then byte_in 0x80 0x9F b1
                 else byte_in 0x80 0xBF b1)
                && byte_in 0x80 0xBF b2 && utf8_valid t2
              else match t2 with
              | b3 :: t3 =>
                  byte_in 0xF0 0xF4 b0 &&
                  (if byte_in 0xF0 0xF0 b0 then byte_in 0x90 0xBF b1
                   else if byte_in 0xF4 0xF4 b0 then byte_in 0x80 0x8F b1
                   else byte_in 0x80 0xBF b1)
                  && byte_in 0x80 0xBF b2 && byte_in 0x80 0xBF b3 && utf8_valid t3
              | [] => false
              end
          | [] => false
          end
      | [] => false
      end
  end.

(** [DirEntry::name] *)
Definition DirEntry_name (e : DirEntry) : res (list u8) :=
  let len := from_option fst (length (name e)) (list_find (fun c => c = Byte.x00) (name e)) in
  let bs := take len (name e) in
  if utf8_valid bs then Ok bs else Panic UnwrapNone.

(** ** Laws of the representations *)

#[global] Instance SuperBlock_repr_laws : ReprLaws SuperBlock.
Proof.
  constructor; cbn [type_size type_wf of_bytes into_bytes SuperBlock_repr]; intros.
  - by rewrite length_words_put.
  - pose proof (words_get_put 4 (SuperBlock_words t) H0) as E. cbn [length SuperBlock_words] in E.
    rewrite E. by destruct t.
  - destruct (words_get 4 6 bs) as [|? [|? [|? [|? [|? [|? [|? ?]]]]]]] eqn:E; simplify_eq.
    change (words_put 4 [z; z0; z1; z2; z3; z4] = bs). rewrite <- E. by apply words_put_get.
  - pose proof (words_get_bound 4 6 bs ltac:(lia)) as Hb.
    destruct (words_get 4 6 bs) as [|? [|? [|? [|? [|? [|? [|? ?]]]]]]]; simplify_eq. done.
Qed.

Lemma byte_kind_byte k : byte_kind (kind_byte k) = Some k.
Proof. by destruct k. Qed.

Lemma kind_byte_kind b k : byte_kind b = Some k -> kind_byte k = b.
Proof. destruct b; simpl; intros [= <-]; done. Qed.

(** The 31 words of a disk inode, as [of_bytes] splits them. *)
Lemma inode_words_split (ws : list Z) :
  length ws = 31%nat ->
  ws = ws !!! 0%nat :: slice 1 27 ws ++ [ws !!! 28%nat; ws !!! 29%nat; ws !!! 30%nat].
Proof.
  intros Hl. do 31 (destruct ws as [|? ws]; [done|]). by destruct ws.
Qed.

#[global] Instance DiskInode_repr_laws : ReprLaws DiskInode.
Proof.
  constructor; cbn [type_size type_wf of_bytes into_bytes DiskInode_repr].
  - intros old di Ho [Hl Hu]. cbn [length]. rewrite length_app, length_slice, length_words_put by lia.
    cbn [length DiskInode_words]. rewrite length_app, Hl. done.
  - intros old di Ho [Hl Hu]. cbn [nth]. rewrite byte_kind_byte.
    rewrite app_comm_cons, drop_app_length' by (cbn [length]; rewrite length_slice; lia).
    assert (length (DiskInode_words di) = 31%nat) as Hw.
    { cbn [length DiskInode_words]. rewrite length_app, Hl. done. }
    rewrite <- Hw, words_get_put by done. destruct di as [k s dir i1 i2 i3].
    cbn [direct] in Hl. do 27 (destruct dir as [|? dir]; [done|]). destruct dir; done.
  - intros bs di Hl E. destruct (byte_kind _) as [k|] eqn:Ek; simplify_eq.
    unfold DiskInode_words. cbn [kind size direct indirect1 indirect2 indirect3].
    rewrite <- inode_words_split by apply length_words_get.
    rewrite words_put_get by (rewrite length_drop; lia).
    rewrite (kind_byte_kind _ _ Ek). destruct bs as [|b bs]; [done|]. cbn [nth slice drop].
    f_equal. apply (take_drop 3 bs).
  - intros bs di Hl E. destruct (byte_kind _) as [k|] eqn:Ek; simplify_eq.
    pose proof (length_words_get 4 31 (drop 4 bs)) as Hw. split.
    + cbn [direct]. rewrite length_slice; lia.
    + unfold DiskInode_words. cbn [size direct indirect1 indirect2 indirect3].
      rewrite <- inode_words_split by done.
      eapply Forall_impl; [apply words_get_bound; rewrite length_drop; lia|done].
Qed.

(** ** Directory entries and bytes *)

Lemma DirEntry_bytes e :
  length (name e) = 28%nat -> is_u32 (inode_number e) -> DirEntry_of_bytes (as_bytes e) = e.
Proof.
  intros Hl Hi. unfold DirEntry_of_bytes, as_bytes.
  rewrite take_app_length', drop_app_length' by done. rewrite le_get_put by done. by destruct e.
Qed.

Lemma list_find_zero nm m :
  Byte.x00 ∉ nm -> list_find (fun c => c = Byte.x00) (nm ++ replicate (S m) Byte.x00)
    = Some (length nm, Byte.x00).
Proof.
  intros Hn. apply list_find_Some. split_and!; [|done|].
  - rewrite lookup_app_r by lia. by rewrite Nat.sub_diag.
  - intros j y Hj Hlt. rewrite lookup_app_l in Hj by lia. intros ->. apply Hn.
    by eapply list_elem_of_lookup_2.
Qed.

(** An entry made of a name of at most 28 bytes without a zero byte, and
    an inode number, comes back from the 32 bytes it is stored as, with the
    same name and number; a longer name panics. *)
Theorem DirEntry_roundtrip nm i :
  Byte.x00 ∉ nm -> utf8_valid nm = true -> is_u32 i ->
  if decide (length nm <= 28)%nat then
    exists e, DirEntry_new nm i = Ok e /\ length (as_bytes e) = Z.to_nat DIRENT_SIZE /\
      DirEntry_of_bytes (as_bytes e) = e /\ DirEntry_name e = Ok nm /\ inode_number e = i
  else DirEntry_new nm i = Panic IndexOutOfBounds.
Proof.
  intros Hz Hu Hi. unfold DirEntry_new. efs_consts. case_decide as Hl; case_if; try lia; [|done].
  eexists. split; [done|].
  assert (splice 0 nm (replicate 28 Byte.x00) = nm ++ replicate (28 - length nm) Byte.x00) as Es.
  { unfold splice. simpl take. by rewrite drop_replicate. }
  assert (length (splice 0 nm (replicate 28 Byte.x00)) = 28%nat) as Hn.
  { rewrite Es, length_app, length_replicate. lia. }
  split_and!; try done.
  - unfold as_bytes. cbn [name inode_number]. by rewrite length_app, length_le_put, Hn.
  - by apply DirEntry_bytes.
  - unfold DirEntry_name. cbn [name]. rewrite Hn, Es.
    destruct (28 - length nm)%nat as [|m] eqn:Em.
    + cbn [replicate]. rewrite app_nil_r.
      assert (list_find (fun c => c = Byte.x00) nm = None) as ->.
      { apply list_find_None, Forall_forall. intros x Hx ->. done. }
      cbn [from_option]. rewrite take_ge by lia. by rewrite Hu.
    + rewrite list_find_zero by done. simpl. rewrite take_app_length. by rewrite Hu.
Qed.

Lemma DirEntry_roundtrip_witness :
  exists e, DirEntry_new [Byte.x61; Byte.x62] 7 = Ok e /\ length (as_bytes e) = 32%nat /\
    DirEntry_of_bytes (as_bytes e) = e /\ DirEntry_name e = Ok [Byte.x61; Byte.x62] /\
    inode_number e = 7.
Proof. apply (DirEntry_roundtrip [Byte.x61; Byte.x62] 7); [set_solver|done|done]. Defined.
