(* ===== verification/BlockTree.v ===== *)
(** * Trees of indirect blocks

    The abstract side of [DiskInode]'s block trees: a tree of depth [k] is a
    data block, or an indirect block with up to 128 subtrees of depth [k - 1].
    [repr] says that the disk holds a tree, [shape] that it is filled from
    the left with a given number of leaves; [block_count] is the number of
    blocks of such a tree.  [LayoutGrow.v] and [LayoutClear.v] relate
    [build_tree], [collect_tree] and [block_id] to these trees. *)

From S2P Require Import Prelude Bytes Config BlockStore.

Arguments words_get : simpl never.
Arguments words_put : simpl never.

(** ** Trees *)

Fixpoint tree (k : nat) : Type :=
  match k with
  | O => Z
  | S k => (Z * list (tree k))%type
  end.

(** Leaves below a node of depth [k]. *)
Definition cap (k : nat) : Z := 128 ^ Z.of_nat k.

Definition root {k} : tree k -> Z :=
  match k with
  | O => fun t => t
  | S k => fun t => t.1
  end.

Fixpoint leaves {k} : tree k -> list Z :=
  match k with
  | O => fun t => [t]
  | S k => fun t => flat_map leaves t.2
  end.

(** All blocks, a node before its children. *)
Fixpoint preorder {k} : tree k -> list Z :=
  match k with
  | O => fun t => [t]
  | S k => fun t => t.1 :: flat_map preorder t.2
  end.

(** All blocks but the root. *)
Definition below {k} : tree k -> list Z :=
  match k with
  | O => fun _ => []
  | S k => fun t => flat_map preorder t.2
  end.

(** The indirect blocks. *)
Fixpoint metas {k} : tree k -> list Z :=
  match k with
  | O => fun _ => []
  | S k => fun t => t.1 :: flat_map metas t.2
  end.

(** A tree with nothing below its root. *)
Definition bare (k : nat) (b : Z) : tree k :=
  match k with
  | O => b
  | S k => (b, [])
  end.

(** The disk holds the tree. *)
Fixpoint repr (d : disk) {k} : tree k -> Prop :=
  match k with
  | O => fun t => is_Some (blocks d !! t)
  | S k => fun t =>
      exists b rest, blocks d !! t.1 = Some b /\
        words_get 4 128 b = (root <$> t.2) ++ rest /\
        Forall (repr d) t.2
  end.

(** [cs] are subtrees with [n] leaves in all, filled from the left. *)
Fixpoint cshape {T} (shape : Z -> T -> Prop) (c : Z) (n : Z) (cs : list T) : Prop :=
  match cs with
  | [] => n = 0
  | t :: cs => 0 < n /\ shape (Z.min n c) t /\ cshape shape c (Z.max 0 (n - c)) cs
  end.

Fixpoint shape {k} (n : Z) : tree k -> Prop :=
  match k with
  | O => fun _ => n = 1
  | S k => fun t => cshape shape (cap k) n t.2
  end.

(** Blocks of the levels [0 .. k] of trees with [n] leaves. *)
Fixpoint block_count (k : nat) (n : Z) : Z :=
  match k with
  | O => n
  | S k => block_count k n + div_ceil n (cap (S k))
  end.

(** ** Arithmetic *)

Lemma cap_pos k : 0 < cap k.
Proof. unfold cap. apply Z.pow_pos_nonneg; lia. Qed.

Lemma cap_S k : cap (S k) = 128 * cap k.
Proof. unfold cap. rewrite Nat2Z.inj_succ, Z.pow_succ_r; lia. Qed.

Lemma cap_add j k : cap (j + k) = cap j * cap k.
Proof. unfold cap. rewrite Nat2Z.inj_add, Z.pow_add_r; lia. Qed.

Lemma div_ceil_0 b : 0 < b -> div_ceil 0 b = 0.
Proof. intros. apply div_ceil_spec; lia. Qed.

Lemma div_ceil_add a q b : 0 < b -> div_ceil (a + q * b) b = div_ceil a b + q.
Proof.
  intros. apply div_ceil_spec; [done|]. pose proof (div_ceil_bounds a b ltac:(done)). nia.
Qed.

Lemma block_count_0 k : block_count k 0 = 0.
Proof.
  induction k as [|k IH]; simpl; [done|]. rewrite IH, div_ceil_0; [done|apply cap_pos].
Qed.

Lemma block_count_mono k n n' : n <= n' -> block_count k n <= block_count k n'.
Proof.
  intros. induction k as [|k IH]; simpl; [done|].
  pose proof (div_ceil_mono n n' (cap (S k)) (cap_pos _) ltac:(done)). lia.
Qed.

Lemma block_count_pos k n : 0 < n -> 1 <= block_count k n.
Proof.
  intros. induction k as [|k IH]; simpl; [lia|].
  pose proof (div_ceil_nonneg n (cap (S k)) (cap_pos _) ltac:(lia)). lia.
Qed.

(** Whole subtrees count separately. *)
Lemma block_count_add j k n :
  (j <= k)%nat -> block_count j (n + cap k) = block_count j n + block_count j (cap k).
Proof.
  intros Hjk. induction j as [|j IH]; simpl; [done|]. rewrite IH by lia.
  assert (cap k = cap (k - S j) * cap (S j)) as E by (rewrite <- cap_add; f_equal; lia).
  pose proof (div_ceil_add n (cap (k - S j)) (cap (S j)) (cap_pos _)) as H1.
  pose proof (div_ceil_add 0 (cap (k - S j)) (cap (S j)) (cap_pos _)) as H0.
  rewrite div_ceil_0 in H0 by apply cap_pos. rewrite Z.add_0_l, <- E in H0.
  rewrite <- E in H1. lia.
Qed.

Lemma block_count_split k n :
  0 <= n -> block_count k n = block_count k (Z.min n (cap k)) + block_count k (Z.max 0 (n - cap k)).
Proof.
  intros Hn. destruct (Z.le_ge_cases (cap k) n).
  - rewrite Z.min_r, Z.max_r by lia.
    replace n with (n - cap k + cap k) at 1 by lia. rewrite block_count_add by done. lia.
  - rewrite Z.min_l, Z.max_l by lia. rewrite block_count_0. lia.
Qed.

(** The one root above. *)
Lemma block_count_root k n :
  0 < n <= cap (S k) -> block_count (S k) n = 1 + block_count k n.
Proof.
  intros Hn. simpl. assert (div_ceil n (cap (S k)) = 1) as ->; [|lia].
  apply div_ceil_spec; [apply cap_pos|lia].
Qed.

(** ** Shapes *)

Lemma preorder_root {k} (t : tree k) : preorder t = root t :: below t.
Proof. by destruct k. Qed.

Lemma root_bare k b : root (bare k b) = b.
Proof. by destruct k. Qed.

Lemma preorder_bare k b : preorder (bare k b) = [b].
Proof. by destruct k. Qed.

Lemma below_bare k b : below (bare k b) = [].
Proof. by destruct k. Qed.

Lemma flat_map_mono {A B} (f g : A -> list B) l :
  (forall x, f x ⊆ g x) -> flat_map f l ⊆ flat_map g l.
Proof. intros Hf. induction l as [|x l IH]; simpl; [done|]. specialize (Hf x). set_solver. Qed.

Lemma metas_preorder {k} (t : tree k) : metas t ⊆ preorder t.
Proof.
  induction k as [|k IH]; simpl; [set_solver|].
  pose proof (flat_map_mono metas preorder t.2 IH). set_solver.
Qed.

Lemma metas_preorder_list {k} (cs : list (tree k)) :
  flat_map metas cs ⊆ flat_map preorder cs.
Proof. apply flat_map_mono, metas_preorder. Qed.

Lemma leaves_preorder {k} (t : tree k) : leaves t ⊆ preorder t.
Proof.
  induction k as [|k IH]; simpl; [set_solver|].
  pose proof (flat_map_mono leaves preorder t.2 IH). set_solver.
Qed.

(** Lengths follow from the shape. *)
Lemma cshape_leaves {k} n (cs : list (tree k)) :
  (forall m (t : tree k), 0 < m <= cap k -> shape m t -> Z.of_nat (length (leaves t)) = m) ->
  0 <= n -> cshape shape (cap k) n cs -> Z.of_nat (length (flat_map leaves cs)) = n.
Proof.
  intros Hl. pose proof (cap_pos k). revert n.
  induction cs as [|t cs IH]; intros n Hn Hs; simpl in Hs |- *; [lia|].
  destruct Hs as (Hp & Ht & Hcs). rewrite length_app, Nat2Z.inj_add.
  rewrite (Hl (Z.min n (cap k)) t), (IH (Z.max 0 (n - cap k))) by (done || lia). lia.
Qed.

Lemma shape_leaves {k} n (t : tree k) :
  0 < n <= cap k -> shape n t -> Z.of_nat (length (leaves t)) = n.
Proof.
  revert n. induction k as [|k IH]; intros n Hn Hs; simpl in *; [done|].
  apply cshape_leaves; [intros m c; apply IH|lia|done].
Qed.

Lemma cshape_count {k} n (cs : list (tree k)) :
  (forall m (t : tree k), 0 < m <= cap k -> shape m t ->
     Z.of_nat (length (preorder t)) = block_count k m) ->
  0 <= n -> cshape shape (cap k) n cs ->
  Z.of_nat (length (flat_map preorder cs)) = block_count k n.
Proof.
  intros Hl. pose proof (cap_pos k). revert n.
  induction cs as [|t cs IH]; intros n Hn Hs; cbn [cshape flat_map length] in Hs |- *.
  { subst n. by rewrite block_count_0. }
  destruct Hs as (Hp & Ht & Hcs). rewrite length_app, Nat2Z.inj_add.
  rewrite (Hl (Z.min n (cap k)) t), (IH (Z.max 0 (n - cap k))) by (done || lia).
  symmetry. by apply block_count_split.
Qed.

Lemma shape_count {k} n (t : tree k) :
  0 < n <= cap k -> shape n t -> Z.of_nat (length (preorder t)) = block_count k n.
Proof.
  revert n. induction k as [|k IH]; intros n Hn Hs.
  { simpl in *. lia. }
  rewrite block_count_root by done. cbn [preorder length]. cbn [shape] in Hs.
  pose proof (cshape_count n t.2 (fun m c => IH c m) ltac:(lia) Hs). lia.
Qed.

Lemma cshape_length {k} n (cs : list (tree k)) r :
  cshape shape (cap k) n cs -> 0 <= n <= r * cap k -> Z.of_nat (length cs) <= r.
Proof.
  pose proof (cap_pos k). revert n r.
  induction cs as [|t cs IH]; intros n r Hs Hn; simpl in Hs |- *; [nia|].
  destruct Hs as (Hp & _ & Hcs). assert (1 <= r) by nia.
  assert (0 <= (r - 1) * cap k) by (apply Z.mul_nonneg_nonneg; lia).
  pose proof (IH _ (r - 1) Hcs ltac:(lia)). lia.
Qed.

(** ** Frames *)

(** [d'] differs from [d] at most in the contents of the blocks [X]. *)
Definition same_except (X : list Z) (d d' : disk) : Prop :=
  held d' = held d /\ dom (blocks d') = dom (blocks d) /\
  (disk_wf d -> disk_wf d') /\
  forall i, i ∉ X -> blocks d' !! i = blocks d !! i.

Lemma same_except_refl X d : same_except X d d.
Proof. by split_and!. Qed.

Lemma same_except_weaken X Y d d' : X ⊆ Y -> same_except X d d' -> same_except Y d d'.
Proof. intros HXY (? & ? & ? & Hs). split_and!; try done. intros i Hi. apply Hs. set_solver. Qed.

Lemma same_except_trans X Y d1 d2 d3 :
  same_except X d1 d2 -> same_except Y d2 d3 -> same_except (X ++ Y) d1 d3.
Proof.
  intros (H1 & H2 & H3 & H4) (H1' & H2' & H3' & H4'). split_and!; try congruence; [by auto|].
  intros i Hi. rewrite H4', H4; set_solver.
Qed.

Lemma same_except_lookup X d d' i :
  same_except X d d' -> is_Some (blocks d !! i) -> is_Some (blocks d' !! i).
Proof. intros (_ & Hdom & _ & _). by rewrite <- !elem_of_dom, Hdom. Qed.

(** Overwriting a node whose block the run had locked. *)
Lemma same_except_node X d d1 b blk :
  same_except X (hold b d) d1 -> is_Some (blocks d !! b) -> length blk = Z.to_nat BLOCK_SIZE ->
  same_except (b :: X) d (Disk (<[b := blk]> (blocks d1)) (held d)).
Proof.
  intros (_ & Hdom & Hwf & Hs) Hb Hlen. split_and!; [done| | |].
  - simpl in *. rewrite dom_insert_L, Hdom. apply elem_of_dom in Hb. set_solver.
  - intros Hd. apply map_Forall_insert_2; [done|]. by apply Hwf.
  - intros i Hi. simpl in *. rewrite lookup_insert_ne by set_solver. apply Hs. set_solver.
Qed.

Lemma repr_frame {k} X d d' (t : tree k) :
  same_except X d d' -> metas t ## X -> repr d t -> repr d' t.
Proof.
  intros Hs. induction k as [|k IH]; simpl.
  { intros _. by apply same_except_lookup with X. }
  intros Hd (b & rest & Hb & Hw & Hcs). exists b, rest. split_and!; [|done|].
  - destruct Hs as (_ & _ & _ & Hs). rewrite Hs; [done|]. set_solver.
  - apply Forall_forall. intros c Hc. rewrite Forall_forall in Hcs.
    apply IH; [|by apply Hcs]. intros i Hi HX. apply (Hd i); [|done].
    apply list_elem_of_further. apply list_elem_of_In, in_flat_map.
    exists c. split; by apply list_elem_of_In.
Qed.

Lemma Forall_repr_frame {k} X d d' (cs : list (tree k)) :
  same_except X d d' -> flat_map metas cs ## X -> Forall (repr d) cs -> Forall (repr d') cs.
Proof.
  intros Hs Hd Hcs. induction Hcs as [|c cs Hc _ IH]; constructor.
  - eapply repr_frame; [exact Hs| |done]. simpl in Hd. set_solver.
  - apply IH. simpl in Hd. set_solver.
Qed.

Lemma repr_bare k d b : is_Some (blocks d !! b) -> repr d (bare k b).
Proof.
  intros [x Hx]. destruct k; [by exists x|]. exists x, (words_get 4 128 x). by split_and!.
Qed.

Lemma repr_held {k} d h (t : tree k) : repr d t <-> repr (Disk (blocks d) h) t.
Proof.
  induction k as [|k IH]; simpl; [done|].
  pose proof (Forall_iff (repr d) t.2 (repr (Disk (blocks d) h)) IH) as Hiff.
  split; intros (b & rest & ? & ? & ?%Hiff); eauto.
Qed.

(** ** Available blocks *)

(** Distinct blocks of the disk, none of them locked. *)
Definition avail (d : disk) (l : list Z) : Prop :=
  NoDup l /\ Forall (fun i => is_u32 i /\ (i ∉ held d) /\ is_Some (blocks d !! i)) l.

#[global] Instance avail_proper d : Proper (Permutation ==> iff) (avail d).
Proof. intros l l' E. unfold avail. by rewrite E. Qed.

Lemma avail_app d l l' : avail d (l ++ l') -> avail d l /\ avail d l' /\ (l ## l').
Proof.
  intros [Hnd Hf]. apply NoDup_app in Hnd as (? & Hx & ?). apply Forall_app in Hf as [? ?].
  split_and!; [by split|by split|]. intros i Hi Hi'. by apply (Hx i).
Qed.

Lemma avail_same X d d' l : same_except X d d' -> avail d l -> avail d' l.
Proof.
  intros Hs [Hnd Hf]. split; [done|]. eapply Forall_impl; [exact Hf|].
  intros i (? & Hh & Hb). simpl. split_and!; [done| |].
  - by destruct Hs as (-> & _).
  - by eapply same_except_lookup.
Qed.

Lemma avail_hold d i l : avail d (i :: l) -> avail (hold i d) l.
Proof.
  intros [Hnd Hf]. apply NoDup_cons in Hnd as [Hi Hnd]. inversion Hf as [|? ? _ Hf']; subst.
  split; [done|]. rewrite Forall_forall in Hf' |- *. intros j Hj.
  destruct (Hf' j Hj) as (? & ? & ?). split_and!; [done| |done].
  simpl. rewrite elem_of_union, elem_of_singleton. intros [->|]; done.
Qed.

Lemma avail_elem d l i :
  avail d l -> i ∈ l -> is_u32 i /\ (i ∉ held d) /\ is_Some (blocks d !! i).
Proof. intros [_ Hf] Hi. rewrite Forall_forall in Hf. by apply Hf. Qed.

Lemma avail_same' X d d' l : same_except X d d' -> avail d' l -> avail d l.
Proof.
  intros (Hh & Hdom & _) [Hnd Hf]. split; [done|]. eapply Forall_impl; [exact Hf|].
  intros i. simpl. rewrite Hh. by rewrite <- !elem_of_dom, Hdom.
Qed.

Lemma blank_avail n l : NoDup l -> Forall (fun i => 0 <= i < n) l -> n <= 2 ^ 32 -> avail (blank_disk n) l.
Proof.
  intros Hnd Hl Hn. split; [done|]. eapply Forall_impl; [exact Hl|]. intros i Hi. cbn beta in *.
  rewrite blank_lookup by done. split_and!; [unfold is_u32; lia|set_solver|done].
Qed.
