(* ===== verification/InodeForest.v ===== *)
(** * The blocks of a disk inode

    A [forest] is what a [DiskInode] points to: the direct data blocks and
    the trees below [indirect1], [indirect2] and [indirect3].  [forest_ok]
    says that the disk holds exactly this forest for the inode, with the
    number of leaves that its size asks for. *)

From S2P Require Import Prelude Bytes Config BlockStore Layout BlockTree.

(** [x] cut to [0 .. hi]. *)
Definition clip (x hi : Z) : Z := Z.max 0 (Z.min x hi).

(** Data blocks in the levels before level [k]. *)
Definition before (k : nat) : Z :=
  match k with
  | 1%nat => DIRECT_BOUND
  | 2%nat => INDIRECT1_BOUND
  | 3%nat => INDIRECT2_BOUND
  | _ => 0
  end.

(** Leaves of the tree of level [k] of a file with [n] data blocks. *)
Definition level_leaves (k : nat) (n : Z) : Z := clip (n - before k) (cap k).

(** The tree of one level: none when the file does not reach the level. *)
Definition oleaves {k} (o : option (tree k)) : list Z := from_option leaves [] o.
Definition oblocks {k} (o : option (tree k)) : list Z := from_option preorder [] o.
Definition ometas {k} (o : option (tree k)) : list Z := from_option metas [] o.

Definition slot_ok (d : disk) {k} (n r : Z) (o : option (tree k)) : Prop :=
  match o with
  | None => n = 0
  | Some t => 0 < n /\ shape n t /\ root t = r /\ repr d t
  end.

Record forest := Forest {
  fdirect : list Z;
  f1 : option (tree 1);
  f2 : option (tree 2);
  f3 : option (tree 3);
}.

Definition data_blocks (f : forest) : list Z :=
  fdirect f ++ oleaves (f1 f) ++ oleaves (f2 f) ++ oleaves (f3 f).
Definition all_blocks (f : forest) : list Z :=
  fdirect f ++ oblocks (f1 f) ++ oblocks (f2 f) ++ oblocks (f3 f).
Definition meta_blocks (f : forest) : list Z :=
  ometas (f1 f) ++ ometas (f2 f) ++ ometas (f3 f).

Definition empty_forest : forest := Forest [] None None None.

Record forest_ok (d : disk) (di : DiskInode) (f : forest) : Prop := {
  fo_wf : DiskInode_wf di;
  fo_bound : count_data_block (size di) <= INDIRECT3_BOUND;
  fo_direct : fdirect f = take (Z.to_nat (count_data_block (size di))) (direct di);
  fo_1 : slot_ok d (level_leaves 1 (count_data_block (size di))) (indirect1 di) (f1 f);
  fo_2 : slot_ok d (level_leaves 2 (count_data_block (size di))) (indirect2 di) (f2 f);
  fo_3 : slot_ok d (level_leaves 3 (count_data_block (size di))) (indirect3 di) (f3 f);
}.

(** ** Counting *)

(** Blocks of a file with [n] data blocks. *)
Definition forest_count (n : Z) : Z :=
  Z.min n DIRECT_COUNT + block_count 1 (level_leaves 1 n) +
  block_count 2 (level_leaves 2 n) + block_count 3 (level_leaves 3 n).

Lemma level_leaves_range k n : 0 <= level_leaves k n <= cap k.
Proof. pose proof (cap_pos k). unfold level_leaves, clip. lia. Qed.

Lemma count_data_block_range s : is_u32 s -> 0 <= count_data_block s <= 2 ^ 23.
Proof.
  unfold is_u32, count_data_block. intros. efs_consts.
  pose proof (div_ceil_bounds s 512 ltac:(lia)). lia.
Qed.

Lemma count_data_block_bounds s :
  512 * (count_data_block s - 1) < s <= 512 * count_data_block s.
Proof. by apply (div_ceil_bounds s BLOCK_SIZE). Qed.

Lemma count_data_block_mono s s' : s <= s' -> count_data_block s <= count_data_block s'.
Proof. intros. apply div_ceil_mono; [done|lia]. Qed.

Ltac div_ceil_facts :=
  repeat match goal with
  | |- context [div_ceil ?a ?b] =>
      lazymatch goal with
      | _ : b * (div_ceil a b - 1) < a <= _ |- _ => fail
      | _ => pose proof (div_ceil_bounds a b ltac:(lia))
      end
  end.

(** The full levels, and one that is not reached. *)
Lemma level_leaves_full k n : before k + cap k <= n -> level_leaves k n = cap k.
Proof. pose proof (cap_pos k). unfold level_leaves, clip. lia. Qed.

Lemma level_leaves_none k n : n <= before k -> level_leaves k n = 0.
Proof. pose proof (cap_pos k). unfold level_leaves, clip. lia. Qed.

Lemma level_leaves_part k n : before k <= n <= before k + cap k -> level_leaves k n = n - before k.
Proof. pose proof (cap_pos k). unfold level_leaves, clip. lia. Qed.

Ltac level_consts :=
  change (before 1) with 27 in *; change (before 2) with 155 in *;
  change (before 3) with 16539 in *; change (cap 0) with 1 in *; change (cap 1) with 128 in *;
  change (cap 2) with 16384 in *; change (cap 3) with 2097152 in *.

(** Reduce every [level_leaves] of the goal by the position of [n]. *)
Ltac level_cases :=
  repeat match goal with
  | |- context [level_leaves ?k ?n] =>
      first [ rewrite (level_leaves_none k n) by (level_consts; lia)
            | rewrite (level_leaves_full k n) by (level_consts; lia)
            | rewrite (level_leaves_part k n) by (level_consts; lia) ]
  end.

Lemma count_total_forest s :
  is_u32 s -> count_data_block s <= INDIRECT3_BOUND ->
  count_total_block s = forest_count (count_data_block s).
Proof.
  intros Hs Hb. pose proof (count_data_block_range s Hs) as Hn.
  unfold count_total_block, forest_count. generalize dependent (count_data_block s). intros n Hb Hn.
  efs_consts.
  destruct (Z.ltb_spec 27 n); [destruct (Z.ltb_spec 155 n); [destruct (Z.ltb_spec 16539 n)|]|];
    repeat (case_if; try lia); level_cases; rewrite ?block_count_0; cbn [block_count];
    level_consts;
    change (div_ceil 128 128) with 1; change (div_ceil 16384 128) with 128;
    change (div_ceil 16384 16384) with 1;
    div_ceil_facts; rewrite w32_id by (unfold is_u32; lia); lia.
Qed.

(** ** Lengths *)

Lemma slot_length d k n r (o : option (tree k)) :
  0 <= n <= cap k -> slot_ok d n r o ->
  Z.of_nat (length (oleaves o)) = n /\ Z.of_nat (length (oblocks o)) = block_count k n.
Proof.
  intros Hn. destruct o as [t|]; simpl.
  - intros (? & Hs & _). by rewrite (shape_leaves n t), (shape_count n t) by (done || lia).
  - intros ->. by rewrite block_count_0.
Qed.

Lemma forest_lengths d di f :
  forest_ok d di f -> 
  Z.of_nat (length (data_blocks f)) = count_data_block (size di) /\
  Z.of_nat (length (all_blocks f)) = count_total_block (size di).
Proof.
  intros [[Hl Hu] Hb Hd H1 H2 H3]. inversion Hu as [|? ? Hs _]; subst.
  rewrite count_total_forest by done. pose proof (count_data_block_range _ Hs).
  apply slot_length in H1 as [? ?], H2 as [? ?], H3 as [? ?]; try apply level_leaves_range.
  unfold data_blocks, all_blocks. rewrite !length_app, Hd, length_take, Hl.
  unfold forest_count. efs_consts. split; [|lia].
  unfold level_leaves, clip in *. level_consts. lia.
Qed.

Lemma forest_slots d di f :
  forest_ok d di f -> let n := count_data_block (size di) in
  Z.of_nat (length (fdirect f)) = Z.min n 27 /\
  Z.of_nat (length (oblocks (f1 f))) = block_count 1 (level_leaves 1 n) /\
  Z.of_nat (length (oblocks (f2 f))) = block_count 2 (level_leaves 2 n) /\
  Z.of_nat (length (oblocks (f3 f))) = block_count 3 (level_leaves 3 n).
Proof.
  intros [[Hl Hu] Hb Hd H1 H2 H3]. inversion Hu as [|? ? Hs _]; subst.
  pose proof (count_data_block_range _ Hs). cbv zeta. rewrite Hd, length_take, Hl.
  apply slot_length in H1 as [_ ->], H2 as [_ ->], H3 as [_ ->]; try apply level_leaves_range.
  split_and!; [lia|done..].
Qed.

Lemma level_leaves_mono k n n' : n <= n' -> level_leaves k n <= level_leaves k n'.
Proof. unfold level_leaves, clip. lia. Qed.

(** ** Frames *)

Lemma ometas_oblocks {k} (o : option (tree k)) : ometas o ⊆ oblocks o.
Proof. destruct o as [t|]; [apply (metas_preorder t)|done]. Qed.

Lemma slot_frame X d d' {k} n r (o : option (tree k)) :
  same_except X d d' -> ometas o ## X -> slot_ok d n r o -> slot_ok d' n r o.
Proof.
  destruct o as [t|]; [|done]. simpl. intros Hs Hd (? & ? & ? & ?). split_and!; try done.
  by eapply repr_frame.
Qed.

(** The inode's trees only depend on its indirect blocks. *)
Lemma forest_frame X d d' di f :
  same_except X d d' -> meta_blocks f ## X -> forest_ok d di f -> forest_ok d' di f.
Proof.
  intros Hs Hd [? ? ? H1 H2 H3]. unfold meta_blocks in Hd.
  split; try done; (eapply slot_frame; [exact Hs| |done]); set_solver.
Qed.

Lemma leaves_metas {k} (t : tree k) : leaves t ++ metas t ≡ₚ preorder t.
Proof.
  induction k as [|k IH]; [done|]. cbn [leaves metas preorder].
  rewrite <- Permutation_middle. f_equiv.
  induction t.2 as [|c cs IHcs]; [done|]. cbn [flat_map]. rewrite <- IHcs, <- (IH c). perm_solve.
Qed.

Lemma data_meta_blocks f : data_blocks f ++ meta_blocks f ≡ₚ all_blocks f.
Proof.
  assert (forall k (o : option (tree k)), oleaves o ++ ometas o ≡ₚ oblocks o) as E.
  { intros k [t|]; [apply leaves_metas|done]. }
  unfold data_blocks, meta_blocks, all_blocks. rewrite <- (E _ (f1 f)), <- (E _ (f2 f)), <- (E _ (f3 f)).
  perm_solve.
Qed.

Lemma avail_data d f :
  avail d (all_blocks f) -> avail d (data_blocks f) /\ (data_blocks f ## meta_blocks f).
Proof. rewrite <- data_meta_blocks. by intros (? & _ & ?)%avail_app. Qed.
