(* ===== verification/LayoutGrow.v ===== *)
(** * Growing a block tree

    [DiskInode::build_tree] extends a tree filled from the left with the
    blocks it takes from an iterator, keeps the leaves that were there, and
    uses exactly as many blocks as the larger tree has more. *)

From S2P Require Import Prelude Bytes Config BlockStore Layout BlockTree InodeForest.

(** A tree with [s] leaves, or a root fresh from the iterator. *)
Definition seed {k} (s : Z) (t : tree k) : Prop :=
  (s = 0 /\ t = bare k (root t)) \/ (0 < s /\ shape s t).

(** What [rec] has to do for the subtrees of depth [k]. *)
Definition builds (k : nat) (src dst : Z) (rec : list Z -> Z -> Z -> prog (Z * list Z)) : Prop :=
  forall d c bl (t0 : tree k),
    0 <= c < dst -> disk_wf d -> room (Z.of_nat k) d ->
    seed (clip (src - c) (cap k)) t0 -> repr d t0 -> avail d (preorder t0 ++ bl) ->
    block_count k (clip (dst - c) (cap k)) <= Z.of_nat (length (preorder t0) + length bl) ->
    exists (t : tree k) d' used bl',
      run (rec bl (root t0) c) d = Ok ((c + clip (dst - c) (cap k), bl'), d') /\
      bl = used ++ bl' /\ root t = root t0 /\ shape (clip (dst - c) (cap k)) t /\
      repr d' t /\ preorder t ≡ₚ preorder t0 ++ used /\
      leaves t0 `prefix_of` leaves t /\ same_except (metas t) d d'.

Section children.
Context (k : nat) (src dst : Z) (rec : list Z -> Z -> Z -> prog (Z * list Z)).
Hypothesis Hsd : src <= dst.
Hypothesis Hrec : builds k src dst rec.

(** The subtree the loop descends into at entry [w]: the existing one, or a
    fresh root. *)
Lemma child_start d c w (cs : list (tree k)) ws rest bl r :
  0 <= c < dst -> 0 < r -> w :: ws = (root <$> cs) ++ rest ->
  cshape shape (cap k) (clip (src - c) (r * cap k)) cs ->
  Forall (repr d) cs -> avail d (flat_map preorder cs ++ bl) -> (cs = [] -> bl <> []) ->
  exists (t0 : tree k) cs1 rest1 pre bl1,
    run (if src <=? c then next_block bl else Ret (w, bl)) d = Ok ((root t0, bl1), d) /\
    bl = pre ++ bl1 /\ preorder t0 ++ flat_map preorder cs1 ≡ₚ flat_map preorder cs ++ pre /\
    ws = (root <$> cs1) ++ rest1 /\ seed (clip (src - c) (cap k)) t0 /\ repr d t0 /\
    cshape shape (cap k) (Z.max 0 (clip (src - c) (r * cap k) - cap k)) cs1 /\
    Forall (repr d) cs1 /\ (cs = [] /\ cs1 = [] \/ cs = t0 :: cs1).
Proof.
  intros Hc Hr Hw Hcs Hre Hav Hbl. pose proof (cap_pos k).
  destruct (Z.leb_spec src c) as [Hle|Hlt].
  - assert (clip (src - c) (r * cap k) = 0) as E by (unfold clip; nia).
    rewrite E in *. destruct cs as [|t cs]; [|simpl in Hcs; lia].
    destruct bl as [|b bl]; [by destruct Hbl|]. simpl in Hav, Hw. subst rest.
    exists (bare k b), [], ws, [b], bl. rewrite root_bare, preorder_bare.
    split_and!; try done; try (by left); simpl.
    + left. rewrite root_bare. split; [unfold clip; lia|done].
    + apply repr_bare. eapply avail_elem; [exact Hav|set_solver].
    + lia.
  - assert (0 < clip (src - c) (r * cap k)) by (unfold clip; nia).
    destruct cs as [|t cs]; [simpl in Hcs; lia|]. simpl in Hw, Hcs.
    injection Hw as -> ->. destruct Hcs as (_ & Ht & Hcs). inversion Hre; subst.
    exists t, cs, rest, [], bl. split_and!; try done; try (by right); simpl.
    + simpl. by rewrite app_nil_r.
    + right. unfold clip in *. split; [lia|].
      replace (Z.max 0 (Z.min (src - c) (cap k)))
        with (Z.min (Z.max 0 (Z.min (src - c) (r * cap k))) (cap k)) by nia. done.
Qed.

(** The rest of the tree after the subtree at [c] is done. *)
Lemma clip_next c x r :
  0 < r -> src <= dst -> (x = src \/ x = dst) ->
  clip (x - (c + clip (dst - c) (cap k))) ((r - 1) * cap k) =
    Z.max 0 (clip (x - c) (r * cap k) - cap k).
Proof. pose proof (cap_pos k). unfold clip. nia. Qed.

Lemma clip_first c x r :
  0 < r -> Z.min (clip (x - c) (r * cap k)) (cap k) = clip (x - c) (cap k).
Proof. pose proof (cap_pos k). unfold clip. nia. Qed.

Lemma leaves_prefix n (cs cs1 cs1' : list (tree k)) (t0 t : tree k) :
  (cs = [] /\ cs1 = [] \/ cs = t0 :: cs1) ->
  cshape shape (cap k) n cs -> (cap k < n -> length (leaves t) = length (leaves t0)) ->
  leaves t0 `prefix_of` leaves t ->
  flat_map leaves cs1 `prefix_of` flat_map leaves cs1' ->
  flat_map leaves cs `prefix_of` flat_map leaves (t :: cs1').
Proof.
  intros [[-> ->]| ->] Hcs Hlen Ht Hcs'; [apply prefix_nil|]. simpl in *.
  destruct Hcs as (Hn & _ & Hcs). destruct cs1 as [|c1 cs1].
  { simpl. rewrite app_nil_r. by apply prefix_app_r. }
  simpl in Hcs. assert (leaves t = leaves t0) as ->; [|by apply prefix_app].
  symmetry. apply prefix_length_eq; [done|]. rewrite Hlen; lia.
Qed.

(** After the subtree [t0] has become [t]: what the loop needs for the rest. *)
Lemma child_next d d' c r (t0 t : tree k) (cs cs1 : list (tree k)) pre used bl1' :
  preorder t0 ++ flat_map preorder cs1 ≡ₚ flat_map preorder cs ++ pre ->
  preorder t ≡ₚ preorder t0 ++ used -> same_except (metas t) d d' ->
  shape (clip (dst - c) (cap k)) t -> 0 <= c < dst -> 0 < r ->
  avail d (flat_map preorder cs ++ pre ++ used ++ bl1') -> Forall (repr d) cs1 ->
  block_count k (clip (dst - c) (r * cap k)) <=
    Z.of_nat (length (flat_map preorder cs) + length (pre ++ used ++ bl1')) ->
  Forall (repr d') cs1 /\ avail d' (preorder t ++ flat_map preorder cs1 ++ bl1') /\
  block_count k (clip (dst - (c + clip (dst - c) (cap k))) ((r - 1) * cap k)) <=
    Z.of_nat (length (flat_map preorder cs1) + length bl1').
Proof.
  intros Hp Ht Hsame Hsh Hc Hr Hav Hre Hcnt. pose proof (cap_pos k).
  assert (avail d (preorder t ++ flat_map preorder cs1 ++ bl1')) as Hav'.
  { eapply avail_proper; [|exact Hav]. rewrite Ht, (app_assoc _ pre), <- Hp, <- !app_assoc.
    f_equiv. rewrite (app_assoc used), (Permutation_app_comm used), <- app_assoc. done. }
  split_and!.
  - eapply Forall_repr_frame; [exact Hsame| |done].
    apply avail_app in Hav' as (_ & _ & Hd). pose proof (metas_preorder t).
    pose proof (metas_preorder_list cs1). set_solver.
  - by eapply avail_same.
  - rewrite clip_next by auto. pose proof (Permutation_length Hp) as Hlp.
    pose proof (Permutation_length Ht) as Hlt.
    assert (0 < clip (dst - c) (cap k) <= cap k) by (unfold clip; lia).
    pose proof (shape_count _ t ltac:(done) Hsh) as Hct.
    rewrite block_count_split, clip_first in Hcnt by (done || unfold clip; nia).
    rewrite !length_app in *. lia.
Qed.

Lemma child_count c r (t0 : tree k) (cs cs1 : list (tree k)) pre bl1 :
  preorder t0 ++ flat_map preorder cs1 ≡ₚ flat_map preorder cs ++ pre ->
  cshape shape (cap k) (Z.max 0 (clip (src - c) (r * cap k) - cap k)) cs1 ->
  0 < r -> block_count k (clip (dst - c) (r * cap k)) <=
    Z.of_nat (length (flat_map preorder cs) + length (pre ++ bl1)) ->
  block_count k (clip (dst - c) (cap k)) <= Z.of_nat (length (preorder t0) + length bl1).
Proof.
  intros Hp Hcs1 Hr Hcnt. pose proof (cap_pos k).
  pose proof (Permutation_length Hp) as Hlp. rewrite !length_app in *.
  rewrite block_count_split, clip_first in Hcnt by (done || unfold clip; nia).
  assert (Z.of_nat (length (flat_map preorder cs1)) <=
          block_count k (Z.max 0 (clip (dst - c) (r * cap k) - cap k))); [|lia].
  rewrite (cshape_count (Z.max 0 (clip (src - c) (r * cap k) - cap k)) cs1);
    [|intros; by apply shape_count|lia|done].
  apply block_count_mono. unfold clip. lia.
Qed.

(** The loop's result from those of the first subtree and of the rest. *)
Lemma children_cons d1 d2 c r (t0 t : tree k) (cs cs1 cs' : list (tree k)) pre used used2 bl' :
  (cs = [] /\ cs1 = [] \/ cs = t0 :: cs1) ->
  seed (clip (src - c) (cap k)) t0 -> 0 < r -> 0 <= c < dst ->
  cshape shape (cap k) (clip (src - c) (r * cap k)) cs ->
  preorder t0 ++ flat_map preorder cs1 ≡ₚ flat_map preorder cs ++ pre ->
  preorder t ≡ₚ preorder t0 ++ used -> shape (clip (dst - c) (cap k)) t -> repr d1 t ->
  flat_map preorder cs' ≡ₚ flat_map preorder cs1 ++ used2 ->
  avail d1 (preorder t ++ flat_map preorder cs1 ++ used2 ++ bl') ->
  leaves t0 `prefix_of` leaves t ->
  flat_map leaves cs1 `prefix_of` flat_map leaves cs' ->
  same_except (flat_map metas cs') d1 d2 ->
  repr d2 t /\ flat_map preorder (t :: cs') ≡ₚ flat_map preorder cs ++ pre ++ used ++ used2 /\
  flat_map leaves cs `prefix_of` flat_map leaves (t :: cs').
Proof.
  intros Hcase Hseed Hr Hc Hcs Hp Ht Hsh Hre Hcs' Hav Hlv Hlv' Hsame. split_and!.
  - eapply repr_frame; [exact Hsame| |done].
    assert (avail d1 (preorder t ++ flat_map preorder cs' ++ bl')) as Hav'.
    { by rewrite Hcs', <- app_assoc. }
    apply avail_app in Hav' as (_ & _ & Hd). pose proof (metas_preorder t).
    pose proof (metas_preorder_list cs'). set_solver.
  - simpl. rewrite Ht, Hcs', (app_assoc _ pre), <- Hp, <- !app_assoc. f_equiv.
    rewrite !(app_assoc _ _ used2). f_equiv. apply Permutation_app_comm.
  - eapply leaves_prefix; try done. intros Hbig.
    assert (clip (src - c) (cap k) = cap k /\ clip (dst - c) (cap k) = cap k) as [Es Ed].
    { pose proof (cap_pos k). unfold clip in *. nia. }
    rewrite Es in Hseed. rewrite Ed in Hsh. pose proof (cap_pos k).
    destruct Hseed as [[? _]|[_ Hsh0]]; [lia|].
    apply shape_leaves in Hsh, Hsh0; lia.
Qed.

Lemma build_children_spec ws : forall d c (cs : list (tree k)) rest bl r,
  r = Z.of_nat (length ws) -> 0 <= c -> disk_wf d -> room (Z.of_nat k) d ->
  ws = (root <$> cs) ++ rest -> Forall is_u32 ws ->
  cshape shape (cap k) (clip (src - c) (r * cap k)) cs -> Forall (repr d) cs ->
  avail d (flat_map preorder cs ++ bl) ->
  block_count k (clip (dst - c) (r * cap k)) <=
    Z.of_nat (length (flat_map preorder cs) + length bl) ->
  exists (cs' : list (tree k)) rest' d' used bl',
    run (build_children rec src dst ws c bl) d =
      Ok ((c + clip (dst - c) (r * cap k), bl'), (root <$> cs') ++ rest', d') /\
    bl = used ++ bl' /\ length ((root <$> cs') ++ rest') = length ws /\
    Forall is_u32 ((root <$> cs') ++ rest') /\
    cshape shape (cap k) (clip (dst - c) (r * cap k)) cs' /\ Forall (repr d') cs' /\
    flat_map preorder cs' ≡ₚ flat_map preorder cs ++ used /\
    flat_map leaves cs `prefix_of` flat_map leaves cs' /\
    same_except (flat_map metas cs') d d'.
Proof.
  pose proof (cap_pos k) as Hcap.
  induction ws as [|w ws IH]; intros d c cs rest bl r Hr Hc Hwf Hroom Hw Hu Hcs Hre Hav Hcnt.
  { assert (r = 0) as -> by (simpl in Hr; lia). destruct cs; [|done]. exists [], [], d, [], bl.
    replace (clip (dst - c) (0 * cap k)) with 0 by (unfold clip; lia).
    rewrite Z.add_0_r. split_and!; try done; apply same_except_refl. }
  assert (0 < r) by (simpl in Hr; lia).
  cbn [build_children]. destruct (Z.leb_spec dst c) as [Hle|Hlt].
  { assert (clip (src - c) (r * cap k) = 0) as E0 by (unfold clip; lia).
    rewrite E0 in Hcs. destruct cs; [|simpl in Hcs; lia]. simpl in Hw. subst rest.
    exists [], (w :: ws), d, [], bl.
    replace (clip (dst - c) (r * cap k)) with 0 by (unfold clip; nia).
    rewrite Z.add_0_r. split_and!; try done; apply same_except_refl. }
  destruct (child_start d c w cs ws rest bl r) as
    (t0 & cs1 & rest1 & pre & bl1 & Hrun & -> & Hp & -> & Hseed & Ht0 & Hcs1 & Hre1 & Hcase);
    try done.
  { intros -> ->. pose proof (block_count_pos k (clip (dst - c) (r * cap k)) ltac:(unfold clip; nia)).
    simpl in Hcnt. lia. }
  destruct (Hrec d c bl1 t0) as
    (t & d1 & used & bl1' & Hrun1 & -> & Hroot & Hsh & Ht & Hpt & Hlv & Hsame); try done.
  { eapply (avail_app _ _ (flat_map preorder cs1)).
    eapply avail_proper; [|exact Hav]. rewrite (app_assoc _ pre), <- Hp, <- !app_assoc.
    f_equiv. apply Permutation_app_comm. }
  { by eapply (child_count c r t0 cs cs1 pre). }
  destruct (child_next d d1 c r t0 t cs cs1 pre used bl1') as (Hre1' & Hav1 & Hcnt1); try done.
  pose proof (clip_next c src r ltac:(done) Hsd ltac:(auto)) as Ensrc.
  pose proof (clip_next c dst r ltac:(done) Hsd ltac:(auto)) as Endst.
  assert (0 < clip (dst - c) (cap k) <= cap k) by (unfold clip; lia).
  destruct (IH d1 (c + clip (dst - c) (cap k)) cs1 rest1 bl1' (r - 1)) as
    (cs' & rest' & d2 & used2 & bl' & Hrun2 & -> & Hlen & Hu' & Hsh' & Hre' & Hp' & Hlv' & Hsame');
    try done.
  { simpl in Hr. lia. }
  { lia. }
  { destruct Hsame as (_ & _ & Hs & _). auto. }
  { destruct Hsame as (Hh & _). unfold room. by rewrite Hh. }
  { by inversion Hu. }
  { by rewrite Ensrc. }
  { rewrite app_comm_cons in Hav1 || idtac. by apply avail_app in Hav1 as (_ & ? & _). }
  destruct (children_cons d1 d2 c r t0 t cs cs1 cs' pre used used2 bl')
    as (Ht2 & Hp2 & Hlv2); try done.
  rewrite Endst in *.
  exists (t :: cs'), rest', d2, (pre ++ used ++ used2), bl'. split_and!; try done.
  - rewrite (run_bind_Ok _ _ _ _ _ Hrun), (run_bind_Ok _ _ _ _ _ Hrun1).
    rewrite (run_bind_Ok _ _ _ _ _ Hrun2). simpl. rewrite Hroot. do 4 f_equal.
    unfold clip. nia.
  - by rewrite <- !app_assoc.
  - rewrite fmap_cons. cbn [app length]. congruence.
  - simpl. constructor; [|done]. eapply avail_elem; [exact Hav1|].
    rewrite preorder_root. set_solver.
  - cbn [cshape]. split_and!; [unfold clip; nia|by rewrite clip_first|done].
  - by constructor.
  - simpl. by eapply same_except_trans.
Qed.
End children.

Lemma repr_node_frame {k} d b blk h (cs : list (tree k)) :
  is_Some (blocks d !! b) -> length blk = Z.to_nat BLOCK_SIZE -> b ∉ flat_map metas cs ->
  Forall (repr d) cs -> Forall (repr (Disk (<[b := blk]> (blocks d)) h)) cs.
Proof.
  intros Hb Hlen Hn Hre. assert (same_except [b] d (Disk (<[b := blk]> (blocks d)) (held d))) as Hs.
  { apply (same_except_node [] d (hold b d)); [apply same_except_refl|done|done]. }
  eapply Forall_impl; [eapply Forall_repr_frame; [exact Hs|set_solver|done]|].
  intros t Ht. apply repr_held with (h := h) in Ht. done.
Qed.

Lemma words_wf_u32 ws : length ws = 128%nat -> Forall is_u32 ws -> words_wf 4 128 ws.
Proof. by split. Qed.

Lemma words_u32 b : length b = Z.to_nat BLOCK_SIZE -> Forall is_u32 (words_get 4 128 b).
Proof.
  intros Hb. eapply Forall_impl; [apply words_get_bound|done]. rewrite Hb. efs_consts. lia.
Qed.

Lemma seed_children {k} s (t : tree (S k)) : seed s t -> cshape shape (cap k) s t.2.
Proof. intros [[-> ->]|[_ Hs]]; [done|exact Hs]. Qed.

Theorem build_tree_spec k src dst : src <= dst -> builds k src dst (build_tree k src dst).
Proof.
  intros Hsd. induction k as [|k IH]; intros d c bl t0 Hc Hwf Hroom Hseed Hre Hav Hcnt.
  { assert (clip (dst - c) (cap 0) = 1) as -> by (unfold clip; change (cap 0) with 1; lia).
    exists t0, d, [], bl. rewrite app_nil_r. split_and!; done || apply same_except_refl. }
  destruct t0 as [b cs]. cbn [build_tree root fst]. apply seed_children in Hseed. simpl in Hseed.
  destruct Hre as (blk & rest & Hb & Hws & Hre). cbn [fst snd] in *.
  pose proof (Hwf _ _ Hb) as Hlen. cbn [preorder fst snd app] in Hav.
  destruct (avail_elem d _ b Hav ltac:(set_solver)) as (_ & Hbh & _).
  pose proof (proj1 Hav) as Hnd. apply NoDup_cons in Hnd as [Hbn _].
  pose proof (cap_S k) as Ecap. pose proof (cap_pos k).
  assert (0 < clip (dst - c) (cap (S k)) <= cap (S k)) as Hm by (unfold clip; lia).
  rewrite block_count_root in Hcnt by done. cbn [preorder fst snd length] in Hcnt.
  rewrite Ecap in *.
  destruct (build_children_spec k src dst _ Hsd IH (words_get 4 128 blk) (hold b d) c cs rest bl 128)
    as (cs' & rest' & d1 & used & bl' & Hrun & -> & Hl & Hu & Hsh & Hre' & Hp & Hlv & Hsame);
    try done.
  { lia. }
  { apply room_hold. eapply room_weaken; [|exact Hroom]. lia. }
  { by apply words_u32. }
  { eapply Forall_impl; [exact Hre|]. intros t. apply repr_held. }
  { by apply avail_hold. }
  { lia. }
  rewrite length_words_get in Hl. pose proof (words_wf_u32 _ Hl Hu) as Hww.
  set (ws := (root <$> cs') ++ rest') in *.
  assert (length (words_put 4 ws) = Z.to_nat BLOCK_SIZE) as Hlp
    by (rewrite length_words_put, Hl; done).
  pose proof (same_except_node _ _ _ _ _ Hsame ltac:(eauto) Hlp) as Hsame'.
  exists (b, cs'), (Disk (<[b := words_put 4 ws]> (blocks d1)) (held d)), used, bl'.
  split_and!; try done.
  - pose proof (write_ref_words 4 128 blk (Words ws) Hlen eq_refl Hww) as Ew.
    cbn [word_list] in Ew. rewrite <- Ew in Hlp |- *.
    eapply run_get_modify; [done|eapply room_weaken; [|exact Hroom]; lia|done|by apply as_ref_words| |].
    + rewrite (run_bind_Ok _ _ _ _ _ Hrun). cbn [run].
      destruct Hsame as (Hh & _). rewrite <- Hh. by destruct d1.
    + exact Hlp.
  - exists (words_put 4 ws), rest'. cbn [fst snd]. split_and!.
    + simpl. apply lookup_insert_eq.
    + rewrite <- Hl. by apply words_get_put.
    + apply repr_node_frame; try done; [by eapply same_except_lookup|].
      intros Hin%metas_preorder_list. rewrite Hp in Hin. apply Hbn.
      rewrite app_assoc. apply elem_of_app. by left.
  - cbn [preorder fst snd]. by rewrite Hp.
Qed.

(** ** One level of [increase_size] *)

Lemma tree_root_set di k b : tree_root (set_tree di k b) k = b.
Proof. by destruct k as [|[|[|k]]]. Qed.

Lemma set_tree_root di k : set_tree di k (tree_root di k) = di.
Proof. by destruct di, k as [|[|[|k]]]. Qed.

(** The root of a level: kept, or taken from the iterator. *)
Lemma grow_root k bf bi di bl d (o : option (tree k)) :
  0 <= bf <= bi -> slot_ok d (clip (bi - bf) (cap k)) (tree_root di k) o ->
  avail d bl -> (o = None -> bl <> []) ->
  exists (t0 : tree k) pre bl1,
    run (if bi =? bf then let! (b, bl) := next_block bl in Ret (set_tree di k b, bl)
         else Ret (di, bl)) d = Ok ((set_tree di k (root t0), bl1), d) /\
    bl = pre ++ bl1 /\ seed (clip (bi - bf) (cap k)) t0 /\ repr d t0 /\
    preorder t0 = oblocks o ++ pre /\ oleaves o `prefix_of` leaves t0.
Proof.
  intros Hbf Ho Hav Hne. pose proof (cap_pos k). destruct (Z.eqb_spec bi bf) as [->|Hlt].
  - destruct o as [t|]; [simpl in Ho; unfold clip in Ho; lia|].
    destruct bl as [|b bl]; [by destruct Hne|].
    exists (bare k b), [b], bl. rewrite root_bare, preorder_bare. simpl.
    split_and!; try done; [| |apply prefix_nil].
    + left. rewrite root_bare. split; [unfold clip; lia|done].
    + eapply repr_bare, avail_elem; [exact Hav|set_solver].
  - destruct o as [t|]; simpl in Ho; [|unfold clip in Ho; lia].
    destruct Ho as (Hs & Hsh & Hr & Hre). exists t, [], bl. rewrite Hr, set_tree_root.
    simpl. rewrite app_nil_r. split_and!; try done. by right.
Qed.

Lemma grow_level_spec k bf bi nt di bl d (o : option (tree k)) Y :
  0 <= bf <= bi -> bi <= nt -> bf < nt -> is_u32 nt -> disk_wf d -> room (Z.of_nat k) d ->
  slot_ok d (clip (bi - bf) (cap k)) (tree_root di k) o ->
  avail d (oblocks o ++ Y ++ bl) ->
  block_count k (clip (nt - bf) (cap k)) <= Z.of_nat (length (oblocks o) + length bl) ->
  exists (t : tree k) d' used bl',
    run (grow_level k bf bi nt di bl) d =
      Ok ((set_tree di k (root t), bl', Z.max (bi - bf) (clip (nt - bf) (cap k))), d') /\
    bl = used ++ bl' /\ slot_ok d' (clip (nt - bf) (cap k)) (root t) (Some t) /\
    preorder t ≡ₚ oblocks o ++ used /\ oleaves o `prefix_of` leaves t /\
    same_except (metas t) d d' /\ avail d' (preorder t ++ Y ++ bl').
Proof.
  intros Hbf Hbi Hnt Hu Hwf Hroom Ho Hav Hcnt. pose proof (cap_pos k) as Hcap.
  assert (0 < clip (nt - bf) (cap k) <= cap k) as Hm by (unfold clip; lia).
  destruct (grow_root k bf bi di bl d o) as
    (t0 & pre & bl1 & Hrun0 & -> & Hseed & Hre & Hp0 & Hlv0); try done.
  { apply avail_app in Hav as (_ & Hav & _). by apply avail_app in Hav as (_ & ? & _). }
  { intros -> ->. pose proof (block_count_pos k _ (proj1 Hm)). simpl in Hcnt. lia. }
  unfold is_u32 in Hu. unfold grow_level. rewrite (run_bind_Ok _ _ _ _ _ Hrun0), tree_root_set.
  rewrite !w64_id by (unfold is_u64; lia).
  destruct (build_tree_spec k (bi - bf) (nt - bf) ltac:(lia) d 0 bl1 t0) as
    (t & d' & used & bl' & Hrun & -> & Hroot & Hsh & Ht & Hp & Hlv & Hs); rewrite ?Z.sub_0_r; try done.
  { lia. }
  { rewrite Hp0, <- app_assoc. apply (avail_app _ _ Y).
    eapply avail_proper; [|exact Hav]. rewrite <- !app_assoc. f_equiv.
    rewrite (app_assoc pre), (Permutation_app_comm _ Y). done. }
  { rewrite Hp0. rewrite !length_app in *. lia. }
  rewrite Z.sub_0_r in *.
  exists t, d', (pre ++ used), bl'. split_and!; try done.
  - rewrite (run_bind_Ok _ _ _ _ _ Hrun). by rewrite Hroot.
  - by rewrite app_assoc.
  - simpl. split_and!; try done. lia.
  - by rewrite Hp, Hp0, app_assoc.
  - by etrans.
  - eapply avail_same; [exact Hs|]. eapply avail_proper; [|exact Hav].
    rewrite Hp, Hp0, <- !app_assoc. f_equiv.
    rewrite (app_assoc pre used bl'), (app_assoc pre used (Y ++ bl')).
    apply Permutation_app_swap_app.
Qed.

(** ** [increase_size] *)

Lemma fill_direct_spec n : forall bi dir bl d,
  0 <= bi -> (Z.to_nat bi + n <= length dir)%nat -> (n <= length bl)%nat ->
  Forall is_u32 dir -> Forall is_u32 bl ->
  exists dir', run (fill_direct n bi dir bl) d = Ok ((dir', drop n bl), d) /\
    length dir' = length dir /\ Forall is_u32 dir' /\
    take (Z.to_nat bi + n) dir' = take (Z.to_nat bi) dir ++ take n bl.
Proof.
  induction n as [|n IH]; intros bi dir bl d Hbi Hlen Hbl Hu Hub.
  { exists dir. rewrite drop_0, Nat.add_0_r, app_nil_r. done. }
  destruct bl as [|b bl]; [simpl in Hbl; lia|]. inversion Hub; subst. cbn [fill_direct next_block bind].
  destruct (IH (bi + 1) (<[Z.to_nat bi := b]> dir) bl d) as (dir' & Hrun & Hl & Hu' & Ht);
    try done; rewrite ?length_insert; simpl in *; try lia.
  { by apply Forall_insert. }
  exists dir'. rewrite length_insert in Hl. split_and!; try done.
  replace (Z.to_nat bi + S n)%nat with (Z.to_nat (bi + 1) + n)%nat by lia. rewrite Ht.
  replace (Z.to_nat (bi + 1)) with (S (Z.to_nat bi)) by lia.
  rewrite (take_S_r _ _ b) by (apply list_lookup_insert_eq; lia).
  rewrite take_insert_ge by lia. by rewrite <- app_assoc.
Qed.

Lemma prefix_app_both {A} (a a' b b' : list A) :
  a `prefix_of` a' -> b `prefix_of` b' -> (b = [] \/ length a' = length a) ->
  a ++ b `prefix_of` a' ++ b'.
Proof.
  intros Ha Hb [->|Hl].
  - rewrite app_nil_r. by apply prefix_app_r.
  - rewrite (prefix_length_eq a a') by (done || lia). by apply prefix_app.
Qed.

(** [di'] is [di] with more blocks: [u0 .. u3] joined its four levels. *)
Definition extends (d d' : disk) (di di' : DiskInode) (f f' : forest) (u : list Z) : Prop :=
  forest_ok d' di' f' /\ kind di' = kind di /\ all_blocks f' ≡ₚ all_blocks f ++ u /\
  data_blocks f `prefix_of` data_blocks f' /\ same_except (meta_blocks f') d d'.

Lemma oleaves_nil d k n r (o : option (tree k)) :
  slot_ok d n r o -> n = 0 -> oleaves o = [].
Proof. intros Ho ->. destruct o; [simpl in Ho; lia|done]. Qed.

Lemma data_blocks_prefix d d' di di' f f' :
  forest_ok d di f -> forest_ok d' di' f' -> size di <= size di' ->
  fdirect f `prefix_of` fdirect f' -> oleaves (f1 f) `prefix_of` oleaves (f1 f') ->
  oleaves (f2 f) `prefix_of` oleaves (f2 f') -> oleaves (f3 f) `prefix_of` oleaves (f3 f') ->
  data_blocks f `prefix_of` data_blocks f'.
Proof.
  intros [[Hl Hu] Hb Hd H1 H2 H3] [[Hl' Hu'] Hb' Hd' H1' H2' H3'] Hs P0 P1 P2 P3.
  apply count_data_block_mono in Hs.
  pose proof (slot_length _ _ _ _ _ (level_leaves_range 1 _) H1) as [L1 _].
  pose proof (slot_length _ _ _ _ _ (level_leaves_range 2 _) H2) as [L2 _].
  pose proof (slot_length _ _ _ _ _ (level_leaves_range 1 _) H1') as [L1' _].
  pose proof (slot_length _ _ _ _ _ (level_leaves_range 2 _) H2') as [L2' _].
  pose proof (slot_length _ _ _ _ _ (level_leaves_range 3 _) H3) as [L3 _].
  unfold level_leaves, clip in *. level_consts.
  assert (forall l : list Z, Z.of_nat (length l) <= 0 -> l = []) as Hnil.
  { intros [|??]; simpl; [done|lia]. }
  unfold data_blocks. apply prefix_app_both; [done| |].
  - apply prefix_app_both; [done| |].
    + apply prefix_app_both; [done..|].
      destruct (Z.le_gt_cases (count_data_block (size di)) 16539); [left; apply Hnil|right]; lia.
    + destruct (Z.le_gt_cases (count_data_block (size di)) 155); [left; apply Hnil|right];
        rewrite ?length_app; lia.
  - destruct (Z.le_gt_cases (count_data_block (size di)) 27); [left; apply Hnil|right];
      rewrite ?length_app; [lia|]. rewrite Hd, Hd', !length_take, Hl, Hl'. clear -H Hs. lia.
Qed.

Lemma extends_intro d d' di di' f f' u0 u1 u2 u3 :
  forest_ok d di f -> forest_ok d' di' f' -> size di <= size di' -> kind di' = kind di ->
  fdirect f' = fdirect f ++ u0 ->
  oblocks (f1 f') ≡ₚ oblocks (f1 f) ++ u1 -> oleaves (f1 f) `prefix_of` oleaves (f1 f') ->
  oblocks (f2 f') ≡ₚ oblocks (f2 f) ++ u2 -> oleaves (f2 f) `prefix_of` oleaves (f2 f') ->
  oblocks (f3 f') ≡ₚ oblocks (f3 f) ++ u3 -> oleaves (f3 f) `prefix_of` oleaves (f3 f') ->
  same_except (meta_blocks f') d d' ->
  extends d d' di di' f f' (u0 ++ u1 ++ u2 ++ u3).
Proof.
  intros Hf Hf' Hs Hk Hd E1 P1 E2 P2 E3 P3 Hsame. split_and!; try done.
  - unfold all_blocks. rewrite E1, E2, E3, Hd. perm_solve.
  - eapply data_blocks_prefix; try done. rewrite Hd. by apply prefix_app_r.
Qed.

(** The direct blocks after the first loop. *)
Lemma fill_direct_inode d di f n' bl :
  forest_ok d di f -> count_data_block (size di) <= n' -> Forall is_u32 bl ->
  let n := count_data_block (size di) in
  let m := Z.to_nat (Z.min n' DIRECT_COUNT - n) in
  (m <= length bl)%nat ->
  exists dir', run (fill_direct m n (direct di) bl) d = Ok ((dir', drop m bl), d) /\
    length dir' = 27%nat /\ Forall is_u32 dir' /\
    take (Z.to_nat n') dir' = fdirect f ++ take m bl.
Proof.
  intros [[Hl Hu] Hb Hd _ _ _] Hn Hub n m Hm. inversion Hu as [|? ? Hs Hu']; subst.
  pose proof (count_data_block_range _ Hs) as Hr. fold n in Hr, Hn, Hd, Hb.
  apply Forall_app in Hu' as [Hu' _]. efs_consts. rewrite Hd.
  destruct (Z.le_gt_cases n 27).
  - destruct (fill_direct_spec m n (direct di) bl d) as (dir' & Hrun & Hl' & Hu2 & Ht);
      try done; [lia|lia|]. exists dir'. split_and!; try done; [by rewrite Hl'|].
    rewrite <- Ht. destruct (Z.le_gt_cases n' 27).
    + f_equal. lia.
    + rewrite !take_ge by lia. done.
  - assert (m = 0%nat) as -> by lia. exists (direct di). rewrite take_0, app_nil_r, !take_ge by lia.
    done.
Qed.

(** ** The levels one after the other

    [increase_size] from the test of a level on, as a function of its local
    variables. *)

Definition grow_from3 (self : DiskInode) (bl : list Z) (bi nt : Z) : prog DiskInode :=
  if nt <=? INDIRECT2_COUNT then Ret self
  else let! (self, _, _) := grow_level 3 INDIRECT2_COUNT bi nt self bl in Ret self.

Definition grow_from2 (self : DiskInode) (bl : list Z) (bi nt : Z) : prog DiskInode :=
  if nt <=? INDIRECT1_COUNT then Ret self
  else let! (self, bl, bi) := grow_level 2 INDIRECT1_COUNT bi nt self bl in
       grow_from3 self bl bi (w64 (nt - INDIRECT1_COUNT)).

Definition grow_from1 (self : DiskInode) (bl : list Z) (bi nt : Z) : prog DiskInode :=
  if nt <=? DIRECT_COUNT then Ret self
  else let! (self, bl, bi) := grow_level 1 DIRECT_COUNT bi nt self bl in
       grow_from2 self bl bi (w64 (nt - DIRECT_COUNT)).

(** Level [k], with [n'] leaves now: its tree [o] has become [o'] by the blocks [u]. *)
Record level_grown (d' : disk) {k} (n' r : Z) (o o' : option (tree k)) (u : list Z) : Prop := {
  lg_slot : slot_ok d' n' r o';
  lg_blocks : oblocks o' ≡ₚ oblocks o ++ u;
  lg_leaves : oleaves o `prefix_of` oleaves o';
  lg_root : is_u32 r;
}.

Lemma room_le a d : room 3 d -> a <= 3 -> room a d.
Proof. intros. by eapply room_weaken. Qed.

Lemma same_room a X d d' : same_except X d d' -> room a d -> room a d'.
Proof. intros (Hh & _). unfold room. by rewrite Hh. Qed.

Lemma same_wf X d d' : same_except X d d' -> disk_wf d -> disk_wf d'.
Proof. intros (_ & _ & H & _). exact H. Qed.

(** The other levels keep their trees while level [k] grows. *)
Lemma slot_other {k j} d d' m r (o : option (tree k)) (o1 : option (tree j)) Y X :
  same_except (ometas o) d d' -> avail d' (oblocks o ++ Y ++ X) -> oblocks o1 ⊆ Y ->
  slot_ok d m r o1 -> slot_ok d' m r o1.
Proof.
  intros Hs Hav HY. eapply slot_frame; [exact Hs|].
  apply avail_app in Hav as (_ & _ & Hd). pose proof (ometas_oblocks o).
  pose proof (ometas_oblocks o1). set_solver.
Qed.

Lemma level_used d' k n' r (o o' : option (tree k)) u :
  level_grown d' (level_leaves k n') r o o' u ->
  Z.of_nat (length (oblocks o) + length u) = block_count k (level_leaves k n').
Proof.
  intros [Hs Hb _ _]. apply slot_length in Hs as [_ Hs]; [|apply level_leaves_range].
  apply Permutation_length in Hb. rewrite length_app in Hb. lia.
Qed.

Section levels.
Context (n n' : Z).
Hypothesis Hnn : 0 <= n <= n'.
Hypothesis Hn' : n' <= 2 ^ 23.

Lemma level_untouched {k} d r (o : option (tree k)) :
  n' <= before k -> slot_ok d (level_leaves k n) r o -> is_u32 r ->
  level_grown d (level_leaves k n') r o o [].
Proof.
  intros Hk Ho Hr. split; try done; [|by rewrite app_nil_r].
  rewrite level_leaves_none in * by lia. done.
Qed.

(** A level that is reached, at [bf] leaves of the previous level. *)
Lemma level_run k bf bi nt di bl d (o : option (tree k)) Y :
  bi = Z.max (n - (before k - bf)) bf -> nt = n' - (before k - bf) -> 0 <= bf <= before k ->
  before k < n' -> disk_wf d -> room (Z.of_nat k) d ->
  slot_ok d (level_leaves k n) (tree_root di k) o -> avail d (oblocks o ++ Y ++ bl) ->
  block_count k (level_leaves k n') <= Z.of_nat (length (oblocks o) + length bl) ->
  exists r (o' : option (tree k)) d' used bl',
    run (grow_level k bf bi nt di bl) d =
      Ok ((set_tree di k r, bl', Z.max (bi - bf) (level_leaves k n')), d') /\
    bl = used ++ bl' /\ level_grown d' (level_leaves k n') r o o' used /\
    same_except (ometas o') d d' /\ avail d' (oblocks o' ++ Y ++ bl').
Proof.
  intros Hbi Hnt Hbf Hlt Hwf Hroom Ho Hav Hcnt.
  assert (clip (bi - bf) (cap k) = level_leaves k n) as E.
  { unfold level_leaves, clip. pose proof (cap_pos k). lia. }
  assert (clip (nt - bf) (cap k) = level_leaves k n') as E'.
  { unfold level_leaves, clip. f_equal. f_equal. lia. }
  destruct (grow_level_spec k bf bi nt di bl d o Y) as
    (t & d' & u & bl' & Hrun & -> & S1 & P1 & V1 & X1 & A1); rewrite ?E, ?E'; try done; try lia.
  { unfold is_u32. lia. }
  rewrite E' in *. exists (root t), (Some t), d', u, bl'. split_and!; try done.
  split; try done. eapply avail_elem; [exact A1|]. rewrite preorder_root. set_solver.
Qed.

Lemma grow_from3_spec di bl d (o3 : option (tree 3)) Y bi :
  (16539 < n' -> bi = Z.max (n - 155) 16384) -> n' - 155 >= 0 -> disk_wf d -> room 3 d ->
  slot_ok d (level_leaves 3 n) (indirect3 di) o3 -> is_u32 (indirect3 di) ->
  avail d (oblocks o3 ++ Y ++ bl) ->
  block_count 3 (level_leaves 3 n') <= Z.of_nat (length (oblocks o3) + length bl) ->
  exists r3 (o3' : option (tree 3)) u3 bl' d',
    run (grow_from3 di bl bi (n' - 155)) d = Ok (set_tree di 3 r3, d') /\
    bl = u3 ++ bl' /\ level_grown d' (level_leaves 3 n') r3 o3 o3' u3 /\
    same_except (ometas o3') d d' /\ avail d' (oblocks o3' ++ Y ++ bl').
Proof.
  intros Hbi Hn Hwf Hroom Ho Hr Hav Hcnt. unfold grow_from3. efs_consts.
  destruct (Z.leb_spec (n' - 155) 16384).
  - exists (indirect3 di), o3, [], bl, d. split_and!; try done.
    + by destruct di.
    + apply level_untouched; try done. level_consts. lia.
  - destruct (level_run 3 16384 bi (n' - 155) di bl d o3 Y) as
      (r3 & o3' & d' & u & bl' & Hrun & ? & ? & ? & ?); try done; level_consts; try lia.
    exists r3, o3', u, bl', d'. split_and!; try done. by rewrite (run_bind_Ok _ _ _ _ _ Hrun).
Qed.

Lemma grow_from2_spec di bl d (o2 : option (tree 2)) (o3 : option (tree 3)) Y bi :
  (155 < n' -> bi = Z.max (n - 27) 128) -> n' - 27 >= 0 -> disk_wf d -> room 3 d ->
  slot_ok d (level_leaves 2 n) (indirect2 di) o2 -> is_u32 (indirect2 di) ->
  slot_ok d (level_leaves 3 n) (indirect3 di) o3 -> is_u32 (indirect3 di) ->
  avail d (oblocks o2 ++ oblocks o3 ++ Y ++ bl) ->
  block_count 2 (level_leaves 2 n') + block_count 3 (level_leaves 3 n') <=
    Z.of_nat (length (oblocks o2) + length (oblocks o3) + length bl) ->
  block_count 3 (level_leaves 3 n) <= block_count 3 (level_leaves 3 n') ->
  exists r2 r3 (o2' : option (tree 2)) (o3' : option (tree 3)) u2 u3 bl' d' d1,
    run (grow_from2 di bl bi (n' - 27)) d = Ok (set_tree (set_tree di 2 r2) 3 r3, d') /\
    bl = u2 ++ u3 ++ bl' /\
    level_grown d' (level_leaves 2 n') r2 o2 o2' u2 /\
    level_grown d' (level_leaves 3 n') r3 o3 o3' u3 /\
    same_except (ometas o2') d d1 /\ same_except (ometas o3') d1 d' /\
    avail d' (oblocks o2' ++ oblocks o3' ++ Y ++ bl').
Proof.
  intros Hbi Hn Hwf Hroom Ho2 Hr2 Ho3 Hr3 Hav Hcnt Hmono. unfold grow_from2. efs_consts.
  destruct (Z.leb_spec (n' - 27) 128).
  - exists (indirect2 di), (indirect3 di), o2, o3, [], [], bl, d, d. split_and!; try done.
    + by destruct di.
    + apply level_untouched; try done. level_consts. lia.
    + apply level_untouched; try done. level_consts. lia.
  - pose proof (slot_length _ _ _ _ _ (level_leaves_range 3 n) Ho3) as [_ L3].
    destruct (level_run 2 128 bi (n' - 27) di bl d o2 (oblocks o3 ++ Y)) as
      (r2 & o2' & d1 & u2 & bl1 & Hrun & -> & G2 & X2 & A2);
      try done; level_consts; try lia.
    { by apply room_le. }
    { by rewrite <- app_assoc. }
    pose proof (Permutation_length (lg_blocks _ _ _ _ _ _ G2)) as LP.
    pose proof (slot_length _ _ _ _ _ (level_leaves_range 2 n') (lg_slot _ _ _ _ _ _ G2)) as [_ L2].
    rewrite !length_app in *.
    destruct (grow_from3_spec (set_tree di 2 r2) bl1 d1 o3 (Y ++ oblocks o2')
      (Z.max (bi - 128) (level_leaves 2 n'))) as
      (r3 & o3' & u3 & bl' & d' & Hrun3 & -> & G3 & X3 & A3); try done; try lia.
    { intros. rewrite (level_leaves_full 2) by (level_consts; lia). level_consts. lia. }
    { by eapply same_wf. }
    { by eapply same_room. }
    { eapply slot_other; [exact X2|exact A2|set_solver|done]. }
    { eapply avail_proper; [|exact A2]. perm_solve. }
    exists r2, r3, o2', o3', u2, u3, bl', d', d1. split_and!; try done.
    + rewrite (run_bind_Ok _ _ _ _ _ Hrun). rewrite w64_id by (unfold is_u64; lia).
      replace (n' - 27 - 128) with (n' - 155) by lia. done.
    + destruct G2. split; try done.
      eapply (slot_other _ _ _ _ o3' o2'); [exact X3|exact A3|set_solver|done].
    + eapply avail_proper; [|exact A3]. perm_solve.
Qed.
End levels.

Lemma grown_ok d ki new_size dir' i1 i2 i3 D o1 o2 o3 :
  is_u32 new_size -> count_data_block new_size <= INDIRECT3_BOUND ->
  length dir' = 27%nat -> Forall is_u32 dir' -> Forall is_u32 [i1; i2; i3] ->
  take (Z.to_nat (count_data_block new_size)) dir' = D ->
  slot_ok d (level_leaves 1 (count_data_block new_size)) i1 o1 ->
  slot_ok d (level_leaves 2 (count_data_block new_size)) i2 o2 ->
  slot_ok d (level_leaves 3 (count_data_block new_size)) i3 o3 ->
  forest_ok d (MkDiskInode ki new_size dir' i1 i2 i3) (Forest D o1 o2 o3).
Proof.
  intros. split; try done. split; [done|]. constructor; [done|]. by apply Forall_app.
Qed.

Lemma grow_from1_spec n n' di bl d o1 o2 o3 Y :
  0 <= n <= n' -> n' <= 2 ^ 23 -> disk_wf d -> room 3 d ->
  slot_ok d (level_leaves 1 n) (indirect1 di) o1 -> is_u32 (indirect1 di) ->
  slot_ok d (level_leaves 2 n) (indirect2 di) o2 -> is_u32 (indirect2 di) ->
  slot_ok d (level_leaves 3 n) (indirect3 di) o3 -> is_u32 (indirect3 di) ->
  avail d (oblocks o1 ++ oblocks o2 ++ oblocks o3 ++ Y ++ bl) ->
  block_count 1 (level_leaves 1 n') + block_count 2 (level_leaves 2 n') +
    block_count 3 (level_leaves 3 n') <=
    Z.of_nat (length (oblocks o1) + length (oblocks o2) + length (oblocks o3) + length bl) ->
  exists r1 r2 r3 (o1' : option (tree 1)) (o2' : option (tree 2)) (o3' : option (tree 3))
      u1 u2 u3 bl' d',
    run (grow_from1 di bl (Z.max n (Z.min n' 27)) n') d =
      Ok (set_tree (set_tree (set_tree di 1 r1) 2 r2) 3 r3, d') /\
    bl = u1 ++ u2 ++ u3 ++ bl' /\
    level_grown d' (level_leaves 1 n') r1 o1 o1' u1 /\
    level_grown d' (level_leaves 2 n') r2 o2 o2' u2 /\
    level_grown d' (level_leaves 3 n') r3 o3 o3' u3 /\
    same_except (ometas o1' ++ ometas o2' ++ ometas o3') d d'.
Proof.
  intros Hnn Hn' Hwf Hroom Ho1 Hr1 Ho2 Hr2 Ho3 Hr3 Hav Hcnt. unfold grow_from1. efs_consts.
  destruct (Z.leb_spec n' 27).
  { exists (indirect1 di), (indirect2 di), (indirect3 di), o1, o2, o3, [], [], [], bl, d.
    split_and!; try done; [by destruct di|..];
      apply (level_untouched n n'); try done; level_consts; lia. }
  pose proof (block_count_mono 2 _ _ (level_leaves_mono 2 _ _ (proj2 Hnn))) as M2.
  pose proof (block_count_mono 3 _ _ (level_leaves_mono 3 _ _ (proj2 Hnn))) as M3.
  pose proof (slot_length _ _ _ _ _ (level_leaves_range 2 n) Ho2) as [_ L2].
  pose proof (slot_length _ _ _ _ _ (level_leaves_range 3 n) Ho3) as [_ L3].
  destruct (level_run n n' Hnn Hn' 1 27 (Z.max n (Z.min n' 27)) n' di bl d o1
              (oblocks o2 ++ oblocks o3 ++ Y)) as
    (r1 & o1' & d1 & u1 & bl1 & Hrun & -> & G1 & X1 & A1); try done; level_consts; try lia.
  { by apply room_le. }
  { eapply avail_proper; [|exact Hav]. perm_solve. }
  pose proof (Permutation_length (lg_blocks _ _ _ _ _ _ G1)) as LP.
  pose proof (slot_length _ _ _ _ _ (level_leaves_range 1 n') (lg_slot _ _ _ _ _ _ G1)) as [_ L1].
  rewrite !length_app in *.
  destruct (grow_from2_spec n n' Hnn Hn' (set_tree di 1 r1) bl1 d1 o2 o3 (Y ++ oblocks o1')
    (Z.max (Z.max n (Z.min n' 27) - 27) (level_leaves 1 n'))) as
    (r2 & r3 & o2' & o3' & u2 & u3 & bl' & d' & d2 & Hrun2 & -> & G2 & G3 & X2 & X3 & A3);
    try done; try lia.
  { intros. rewrite (level_leaves_full 1) by (level_consts; lia). level_consts. lia. }
  { by eapply same_wf. }
  { by eapply same_room. }
  { eapply slot_other; [exact X1|exact A1|set_solver|done]. }
  { eapply slot_other; [exact X1|exact A1|set_solver|done]. }
  { eapply avail_proper; [|exact A1]. perm_solve. }
  exists r1, r2, r3, o1', o2', o3', u1, u2, u3, bl', d'. split_and!; try done.
  - rewrite (run_bind_Ok _ _ _ _ _ Hrun). rewrite w64_id by (unfold is_u64; lia). done.
  - destruct G1. split; try done.
    assert (avail d' (oblocks o3' ++ (oblocks o2' ++ Y ++ oblocks o1') ++ bl')) as A3'.
    { eapply avail_proper; [|exact A3]. perm_solve. }
    eapply (slot_other _ _ _ _ o3' o1'); [exact X3|exact A3'|set_solver|].
    assert (avail d2 (oblocks o2' ++ (Y ++ oblocks o1') ++ oblocks o3' ++ bl')) as A2'.
    { eapply avail_same'; [exact X3|]. eapply avail_proper; [|exact A3]. perm_solve. }
    eapply (slot_other _ _ _ _ o2' o1'); [exact X2|exact A2'|set_solver|done].
  - eapply same_except_trans; [exact X1|]. by eapply same_except_trans.
Qed.

(** [di'] is [di] grown by the blocks [u]: the levels of [f] are prefixes of
    those of [f'], and only indirect blocks of [f'] were written. *)
Theorem increase_size_spec d di f new_size bl :
  forest_ok d di f -> size di <= new_size -> is_u32 new_size ->
  count_data_block new_size <= INDIRECT3_BOUND -> disk_wf d -> room 3 d ->
  avail d (all_blocks f ++ bl) ->
  count_total_block new_size - count_total_block (size di) = Z.of_nat (length bl) ->
  exists di' d' f', run (DiskInode_increase_size di new_size bl) d = Ok (di', d') /\
    size di' = new_size /\ extends d d' di di' f f' bl.
Proof.
  intros Hf Hsz Hu Hbd Hwf Hroom Hav Hcnt. pose proof (fo_wf _ _ _ Hf) as [Hl Hui].
  pose proof (fo_bound _ _ _ Hf) as Hb. inversion Hui as [|? ? Hus Hui']; subst.
  rewrite !count_total_forest in Hcnt by done. unfold forest_count in Hcnt.
  pose proof (count_data_block_mono _ _ Hsz) as Hnn.
  pose proof (count_data_block_range _ Hus) as Hrn. pose proof (count_data_block_range _ Hu) as Hrn'.
  destruct (forest_slots _ _ _ Hf) as (L0 & L1 & L2 & L3).
  pose proof (block_count_mono 1 _ _ (level_leaves_mono 1 _ _ Hnn)) as M1.
  pose proof (block_count_mono 2 _ _ (level_leaves_mono 2 _ _ Hnn)) as M2.
  pose proof (block_count_mono 3 _ _ (level_leaves_mono 3 _ _ Hnn)) as M3.
  pose proof (avail_app _ _ _ Hav) as (_ & [_ Hab] & _).
  assert (Forall is_u32 bl) as Hub by (eapply Forall_impl; [exact Hab|naive_solver]).
  assert (Z.to_nat (Z.min (count_data_block new_size) DIRECT_COUNT - count_data_block (size di))
            <= length bl)%nat as Hm by (efs_consts; lia).
  destruct (fill_direct_inode d di f (count_data_block new_size) bl Hf Hnn Hub Hm) as
    (dir' & Hrun & Hl' & Hu' & Ht).
  apply Forall_app in Hui' as [_ Hui']. rewrite !Forall_cons in Hui'.
  destruct Hui' as (Hi1 & Hi2 & Hi3 & _).
  set (m := Z.to_nat _) in *. rewrite <- (take_drop m bl) in Hav, Hcnt. unfold all_blocks in Hav.
  destruct (grow_from1_spec (count_data_block (size di)) (count_data_block new_size)
    (MkDiskInode (kind di) new_size dir' (indirect1 di) (indirect2 di) (indirect3 di)) (drop m bl) d
    (f1 f) (f2 f) (f3 f) (fdirect f ++ take m bl)) as
    (r1 & r2 & r3 & o1' & o2' & o3' & u1 & u2 & u3 & bl' & d' & Hrun1 & Ebl & G1 & G2 & G3 & X);
    try apply Hf; try done; try lia.
  { eapply avail_proper; [|exact Hav]. perm_solve. }
  { subst m. rewrite length_app, length_take in Hcnt. efs_consts. lia. }
  eexists _, d', (Forest (fdirect f ++ take m bl) o1' o2' o3'). split_and!.
  { unfold DiskInode_increase_size. rewrite (run_bind_Ok _ _ _ _ _ Hrun). exact Hrun1. }
  { done. }
  assert (bl' = []) as ->.
  { apply level_used in G1, G2, G3. rewrite Ebl, !length_app, length_take in Hcnt.
    destruct bl'; [done|]. subst m. cbn [length] in Hcnt. efs_consts. lia. }
  assert (bl = take m bl ++ u1 ++ u2 ++ u3) as E.
  { by rewrite <- (take_drop m bl) at 1; rewrite Ebl, app_nil_r. }
  set (u0 := take m bl) in *. rewrite E. destruct G1, G2, G3.
  apply extends_intro; try done. cbn [set_tree kind size direct indirect1 indirect2 indirect3].
  by apply grown_ok; rewrite ?Forall_cons.
Qed.

(** ** The number of blocks to allocate *)

Lemma forest_count_mono n n' : 0 <= n <= n' -> 0 <= forest_count n <= forest_count n'.
Proof.
  intros Hn. unfold forest_count.
  pose proof (block_count_mono 1 _ _ (level_leaves_mono 1 _ _ (proj2 Hn))).
  pose proof (block_count_mono 2 _ _ (level_leaves_mono 2 _ _ (proj2 Hn))).
  pose proof (block_count_mono 3 _ _ (level_leaves_mono 3 _ _ (proj2 Hn))).
  pose proof (block_count_mono 1 0 _ (proj1 (level_leaves_range 1 n))).
  pose proof (block_count_mono 2 0 _ (proj1 (level_leaves_range 2 n))).
  pose proof (block_count_mono 3 0 _ (proj1 (level_leaves_range 3 n))).
  rewrite !block_count_0 in *. efs_consts. lia.
Qed.

(** A larger file has at least as many blocks. *)
Lemma count_total_mono s s' :
  is_u32 s -> is_u32 s' -> s <= s' -> count_data_block s' <= INDIRECT3_BOUND ->
  count_total_block s <= count_total_block s'.
Proof.
  intros Hu Hu' Hs Hb. pose proof (count_data_block_mono s s' Hs) as Hm.
  pose proof (count_data_block_range s Hu) as Hr. rewrite !count_total_forest by (done || lia).
  apply forest_count_mono. lia.
Qed.

Lemma blocks_num_needed_total d di f new_size :
  forest_ok d di f -> is_u32 new_size -> count_data_block new_size <= INDIRECT3_BOUND ->
  size di <= new_size ->
  blocks_num_needed di new_size = Ok (count_total_block new_size - count_total_block (size di)) /\
  0 <= count_total_block new_size - count_total_block (size di).
Proof.
  intros Hf Hu Hb Hle. unfold blocks_num_needed. rewrite (proj2 (Z.leb_le _ _)) by done.
  destruct (fo_wf _ _ _ Hf) as [_ Hw]. inversion Hw as [|? ? Hs _]; subst. cbn [assert res_bind].
  pose proof (fo_bound _ _ _ Hf). rewrite !count_total_forest by done.
  pose proof (count_data_block_range _ Hs). pose proof (count_data_block_mono _ _ Hle).
  pose proof (forest_count_mono (count_data_block (size di)) (count_data_block new_size) ltac:(lia)).
  assert (is_u32 (forest_count (count_data_block new_size))) as Ha.
  { rewrite <- count_total_forest by done. apply w32_range. }
  unfold is_u32 in Ha. rewrite w32_id by (unfold is_u32; lia). split; [done|lia].
Qed.

Lemma blocks_num_needed_spec d di f new_size k :
  forest_ok d di f -> is_u32 new_size -> count_data_block new_size <= INDIRECT3_BOUND ->
  blocks_num_needed di new_size = Ok k ->
  size di <= new_size /\ k = count_total_block new_size - count_total_block (size di).
Proof.
  intros Hf Hu Hb E. assert (size di <= new_size) as Hle.
  { unfold blocks_num_needed in E. inv_res. by reflect_bools. }
  destruct (blocks_num_needed_total d di f new_size Hf Hu Hb Hle) as [E' _].
  rewrite E' in E. by injection E.
Qed.

(** [increase_size], given exactly the number of blocks that
    [blocks_num_needed] asks for, never runs out of them and leaves none
    over: the inode then owns its old blocks and all new ones, its data
    blocks start with the old ones in order, and no block other than its own
    indirect blocks is written. *)
Theorem increase_size_correct d di f new_size bl :
  forest_ok d di f -> is_u32 new_size -> count_data_block new_size <= INDIRECT3_BOUND ->
  disk_wf d -> room 3 d -> avail d (all_blocks f ++ bl) ->
  blocks_num_needed di new_size = Ok (Z.of_nat (length bl)) ->
  exists di' d' f', run (DiskInode_increase_size di new_size bl) d = Ok (di', d') /\
    size di' = new_size /\ extends d d' di di' f f' bl.
Proof.
  intros Hf Hu Hb Hwf Hroom Hav E.
  destruct (blocks_num_needed_spec _ _ _ _ _ Hf Hu Hb E) as [Hle Ecnt].
  by apply increase_size_spec.
Qed.

(** An inode without data, as [init] makes it on zeroed memory. *)
Definition blank_inode (k : DiskInodeKind) : DiskInode :=
  DiskInode_init k (MkDiskInode File 0 [] 0 0 0).

Lemma empty_forest_ok d di : DiskInode_wf di -> size di = 0 -> forest_ok d di empty_forest.
Proof. intros Hwf Hs. split; rewrite ?Hs; done. Qed.

Lemma blank_inode_ok k d : forest_ok d (blank_inode k) empty_forest.
Proof.
  apply empty_forest_ok; [|done]. split; [done|]. constructor; [done|].
  apply Forall_app. split; [by apply Forall_replicate|by repeat constructor].
Qed.

Lemma increase_size_correct_witness :
  exists di' d' f',
    run (DiskInode_increase_size (blank_inode File) (512 * 160) (seqZ 1 163)) (blank_disk 200)
      = Ok (di', d') /\ size di' = 512 * 160 /\
    extends (blank_disk 200) d' (blank_inode File) di' empty_forest f' (seqZ 1 163).
Proof.
  apply increase_size_correct; try done.
  - apply blank_inode_ok.
  - apply blank_wf.
  - apply blank_avail; [apply NoDup_seqZ| |done].
    apply Forall_forall. intros i Hi%elem_of_seqZ. lia.
Defined.
