(* ===== verification/LayoutClear.v ===== *)
(** * Collecting a block tree

    [DiskInode::collect_tree] and [clear_size] return exactly the blocks of
    the inode, indirect blocks included. *)

From S2P Require Import Prelude Bytes Config BlockStore Layout BlockTree InodeForest LayoutGrow.

(** What [rec] has to do on a subtree of depth [k]. *)
Definition collects (k : nat) (mx : Z) (rec : list Z -> Z -> Z -> prog (list Z * Z)) : Prop :=
  forall d c acc (t : tree k),
    0 <= c < mx -> disk_wf d -> room (Z.of_nat k) d ->
    shape (clip (mx - c) (cap k)) t -> repr d t -> avail d (preorder t) ->
    run (rec acc (root t) c) d = Ok ((acc ++ below t, c + clip (mx - c) (cap k)), d).

Section children.
Context (k : nat) (mx : Z) (rec : list Z -> Z -> Z -> prog (list Z * Z)).
Hypothesis Hrec : collects k mx rec.

Lemma collect_children_spec ws : forall d c acc (cs : list (tree k)) rest r,
  r = Z.of_nat (length ws) -> 0 <= c -> disk_wf d -> room (Z.of_nat k) d ->
  ws = (root <$> cs) ++ rest -> cshape shape (cap k) (clip (mx - c) (r * cap k)) cs ->
  Forall (repr d) cs -> avail d (flat_map preorder cs) ->
  run (collect_children rec mx ws acc c) d =
    Ok ((acc ++ flat_map preorder cs, c + clip (mx - c) (r * cap k)), d).
Proof.
  pose proof (cap_pos k) as Hcap.
  induction ws as [|w ws IH]; intros d c acc cs rest r Hr Hc Hwf Hroom Hw Hcs Hre Hav.
  { assert (r = 0) as -> by (simpl in Hr; lia). destruct cs; [|done].
    replace (clip _ _) with 0 by (unfold clip; lia). simpl. by rewrite app_nil_r, Z.add_0_r. }
  assert (0 < r) by (simpl in Hr; lia). cbn [collect_children].
  destruct (Z.leb_spec mx c) as [Hle|Hlt].
  { assert (clip (mx - c) (r * cap k) = 0) as E by (unfold clip; lia). rewrite E in *.
    destruct cs; [|simpl in Hcs; lia]. simpl. by rewrite app_nil_r, Z.add_0_r. }
  assert (0 < clip (mx - c) (r * cap k)) by (unfold clip; nia).
  destruct cs as [|t cs]; [simpl in Hcs; lia|]. simpl in Hw. injection Hw as -> ->.
  destruct Hcs as (_ & Ht & Hcs). inversion Hre; subst x l.
  cbn [flat_map] in Hav. apply avail_app in Hav as (Hav & Hav' & _).
  rewrite (clip_first k c mx r) in Ht by done.
  rewrite (run_bind_Ok _ _ _ _ _ (Hrec d c (acc ++ [root t]) t ltac:(done) ltac:(done)
    ltac:(done) Ht ltac:(done) Hav)).
  rewrite (IH d _ _ cs rest (r - 1)); try done.
  - cbn [flat_map]. rewrite preorder_root. do 3 f_equal; [by rewrite <- !app_assoc|].
    unfold clip. nia.
  - simpl in Hr. lia.
  - unfold clip. lia.
  - rewrite (clip_next k mx mx (Z.le_refl _) c mx r) by lia. done.
Qed.
End children.

Lemma collect_tree_spec k mx : collects k mx (collect_tree k mx).
Proof.
  induction k as [|k IH]; intros d c acc t Hc Hwf Hroom Hsh Hre Hav.
  { replace (clip _ _) with 1 by (unfold clip; change (cap 0) with 1; lia).
    simpl. by rewrite app_nil_r. }
  destruct t as [b cs]. destruct Hre as (blk & rest & Hb & Hws & Hre). cbn [fst snd] in *.
  cbn [collect_tree root fst below]. cbn [preorder fst snd] in Hav.
  pose proof (Hwf _ _ Hb) as Hlen. rewrite cap_S in *.
  destruct (avail_elem d _ b Hav ltac:(set_solver)) as (_ & Hbh & _).
  assert (d = Disk (blocks d) (held d)) as E by (by destruct d). rewrite E at 2.
  eapply run_get_read; [done|eapply room_weaken; [|exact Hroom]; lia|done|by apply as_ref_words|].
  change (Disk (blocks d) (held (hold b d))) with (hold b d).
  apply (collect_children_spec k mx _ IH _ _ _ _ _ rest); try done; try lia.
  - apply room_hold. eapply room_weaken; [|exact Hroom]. lia.
  - eapply Forall_impl; [exact Hre|]. intros t. apply repr_held.
  - by apply avail_hold.
Qed.

(** One level of [clear_size]: the root and what is below it. *)
Lemma collect_level k mx n acc r (o : option (tree k)) d :
  before k < n -> mx = n - before k -> disk_wf d -> room 3 d -> (k <= 3)%nat ->
  slot_ok d (level_leaves k n) r o -> avail d (oblocks o) ->
  run (collect_tree k mx (acc ++ [r]) r 0) d = Ok ((acc ++ oblocks o, level_leaves k n), d).
Proof.
  intros Hk -> Hwf Hroom Hk3 Ho Hav. pose proof (cap_pos k).
  destruct o as [t|]; [|exfalso; cbn in Ho; unfold level_leaves, clip in Ho; lia].
  destruct Ho as (Hp & Hsh & <- & Hre). simpl in Hav.
  rewrite (collect_tree_spec k (n - before k) d 0); try done; rewrite ?Z.sub_0_r; try done; [|lia|].
  - simpl. by rewrite preorder_root, <- app_assoc.
  - eapply room_weaken; [|exact Hroom]. lia.
Qed.

Lemma oblocks_none d k n r (o : option (tree k)) :
  slot_ok d (level_leaves k n) r o -> n <= before k -> oblocks o = [].
Proof. intros Ho Hn. rewrite level_leaves_none in Ho by done. destruct o; [|done]. simpl in Ho. lia. Qed.

(** [self] after [clear_size]: the pointers of the levels it had reached are reset. *)
Definition cleared (di : DiskInode) : DiskInode :=
  let n := count_data_block (size di) in
  MkDiskInode (kind di) 0 (replicate 27 0)
    (if n <=? 27 then indirect1 di else 0) (if n <=? 155 then indirect2 di else 0)
    (if n <=? 16539 then indirect3 di else 0).

Lemma clear_size_spec d di f :
  forest_ok d di f -> disk_wf d -> room 3 d -> avail d (all_blocks f) ->
  run (DiskInode_clear_size di) d = Ok ((cleared di, all_blocks f), d).
Proof.
  intros [[Hl Hu] Hb Hd H1 H2 H3] Hwf Hroom Hav. inversion Hu as [|? ? Hs _]; subst.
  pose proof (count_data_block_range _ Hs) as Hr. unfold all_blocks, DiskInode_clear_size, cleared in *.
  rewrite Hd in *. apply avail_app in Hav as (_ & Hav & _). apply avail_app in Hav as (A1 & Hav & _).
  apply avail_app in Hav as (A2 & A3 & _).
  set (n := count_data_block (size di)) in *. efs_consts.
  replace (take (Z.to_nat (Z.min n 27)) (direct di)) with (take (Z.to_nat n) (direct di)).
  2:{ destruct (Z.le_gt_cases n 27); [f_equal; lia|]. rewrite !take_ge by lia. done. }
  generalize (take (Z.to_nat n) (direct di)). intros D.
  destruct (Z.leb_spec n 27).
  { rewrite (oblocks_none _ _ _ _ _ H1), (oblocks_none _ _ _ _ _ H2), (oblocks_none _ _ _ _ _ H3)
      by (level_consts; lia). repeat (case_if; [|lia]). simpl. by rewrite app_nil_r. }
  cbn [indirect1 indirect2 indirect3 set_tree].
  rewrite (run_bind_Ok _ _ _ _ _ (collect_level 1 (n - 27) n D _ (f1 f) d ltac:(level_consts; lia)
    ltac:(level_consts; lia) Hwf Hroom ltac:(lia) H1 A1)).
  destruct (Z.leb_spec (n - 27) 128).
  { rewrite (oblocks_none _ _ _ _ _ H2), (oblocks_none _ _ _ _ _ H3) by (level_consts; lia).
    repeat (case_if; [|lia]). simpl. by rewrite app_nil_r. }
  rewrite (run_bind_Ok _ _ _ _ _ (collect_level 2 (n - 27 - 128) n _ _ (f2 f) d ltac:(level_consts; lia)
    ltac:(level_consts; lia) Hwf Hroom ltac:(lia) H2 A2)).
  destruct (Z.leb_spec 155 n), (Z.leb_spec n 155); try lia.
  destruct (Z.leb_spec (n - 27 - 128) 16384).
  { rewrite (oblocks_none _ _ _ _ _ H3) by (level_consts; lia).
    repeat (case_if; [|lia]). simpl. by rewrite app_nil_r, <- app_assoc. }
  rewrite (run_bind_Ok _ _ _ _ _ (collect_level 3 (n - 27 - 128 - 16384) n _ _ (f3 f) d ltac:(level_consts; lia)
    ltac:(level_consts; lia) Hwf Hroom ltac:(lia) H3 A3)).
  case_if; [lia|]. simpl. by rewrite <- !app_assoc.
Qed.

Lemma cleared_ok d di f : forest_ok d di f -> forest_ok d (cleared di) empty_forest.
Proof.
  intros Hf. destruct (fo_wf _ _ _ Hf) as [Hl Hu]. apply empty_forest_ok; [|done].
  split; [done|]. inversion Hu as [|? ? Hs Hu']; subst. constructor; [done|].
  apply Forall_app in Hu' as [_ Hi]. rewrite !Forall_cons in Hi. destruct Hi as (? & ? & ? & _).
  apply Forall_app. split; [by apply Forall_replicate|].
  rewrite !Forall_cons. unfold cleared; cbn [indirect1 indirect2 indirect3].
  repeat case_if; done.
Qed.

(** [clear_size] gives back exactly the blocks of the inode, data and
    indirect blocks of every level, each once; their number is the
    [count_total_block] that [Inode::clear] asserts; the inode is empty
    afterwards and the disk unchanged. *)
Theorem clear_size_correct d di f :
  forest_ok d di f -> disk_wf d -> room 3 d -> avail d (all_blocks f) ->
  run (DiskInode_clear_size di) d = Ok ((cleared di, all_blocks f), d) /\
  size (cleared di) = 0 /\ kind (cleared di) = kind di /\ forest_ok d (cleared di) empty_forest /\
  Z.of_nat (length (all_blocks f)) = count_total_block (size di).
Proof.
  intros Hf Hwf Hroom Hav. split_and!; try done.
  - by apply clear_size_spec.
  - by eapply cleared_ok.
  - by apply (forest_lengths d).
Qed.

Lemma clear_size_correct_witness :
  let di := blank_inode Directory in
  run (DiskInode_clear_size di) (blank_disk 4) = Ok ((cleared di, all_blocks empty_forest), blank_disk 4) /\
  size (cleared di) = 0 /\ kind (cleared di) = kind di /\ forest_ok (blank_disk 4) (cleared di) empty_forest /\
  Z.of_nat (length (all_blocks empty_forest)) = count_total_block (size di).
Proof.
  apply clear_size_correct; [apply blank_inode_ok|apply blank_wf|done|].
  apply blank_avail; [constructor|constructor|done].
Defined.

(** What [increase_size] takes from the allocator is what [clear_size]
    gives back: growing an empty inode with a list of blocks and clearing it
    returns a permutation of the list. *)
Theorem grow_clear_roundtrip d di new_size bl :
  DiskInode_wf di -> size di = 0 -> is_u32 new_size ->
  count_data_block new_size <= INDIRECT3_BOUND -> disk_wf d -> room 3 d -> avail d bl ->
  count_total_block new_size = Z.of_nat (length bl) ->
  exists di' d' back,
    run (let! di := DiskInode_increase_size di new_size bl in DiskInode_clear_size di) d
      = Ok ((cleared di', back), d') /\ size di' = new_size /\ back ≡ₚ bl.
Proof.
  intros Hwfi Hs Hu Hb Hwf Hroom Hav Hc.
  pose proof (empty_forest_ok d di Hwfi Hs) as Hf.
  destruct (increase_size_spec d di empty_forest new_size bl) as
    (di1 & d1 & f1 & Hrun & Hs1 & Hok & _ & Hperm & _ & Hsame); rewrite ?Hs; try done.
  { unfold is_u32 in Hu. lia. }
  { change (count_total_block 0) with 0. lia. }
  exists di1, d1, (all_blocks f1). split_and!; [|done|by rewrite Hperm].
  rewrite (run_bind_Ok _ _ _ _ _ Hrun). apply clear_size_spec; try done.
  - by eapply same_wf.
  - by eapply same_room.
  - eapply avail_same; [exact Hsame|]. by rewrite Hperm.
Qed.

Lemma grow_clear_roundtrip_witness :
  exists di' d' back,
    run (let! di := DiskInode_increase_size (blank_inode File) (512 * 30) (seqZ 5 31) in
         DiskInode_clear_size di) (blank_disk 40) = Ok ((cleared di', back), d') /\
    size di' = 512 * 30 /\ back ≡ₚ seqZ 5 31.
Proof.
  apply grow_clear_roundtrip; try done.
  - apply (blank_inode_ok File (blank_disk 1)).
  - apply blank_wf.
  - apply blank_avail; [apply NoDup_seqZ| |done]. apply Forall_forall. intros i Hi%elem_of_seqZ. lia.
Defined.

(** ** [decrease_size] *)

Lemma collect_leaves mx ws : forall d acc c,
  0 <= c <= mx -> mx - c <= Z.of_nat (length ws) ->
  run (collect_children (collect_tree 0 mx) mx ws acc c) d =
    Ok ((acc ++ take (Z.to_nat (mx - c)) ws, mx), d).
Proof.
  induction ws as [|w ws IH]; intros d acc c Hc Hl; cbn [collect_children].
  { assert (c = mx) as -> by (simpl in Hl; lia). by rewrite take_nil, app_nil_r. }
  destruct (Z.leb_spec mx c).
  { assert (c = mx) as -> by lia. rewrite Z.sub_diag. simpl. by rewrite app_nil_r. }
  cbn [collect_tree bind]. rewrite IH by (simpl in Hl; lia).
  replace (Z.to_nat (mx - c)) with (S (Z.to_nat (mx - (c + 1)))) by lia.
  cbn [take]. by rewrite <- app_assoc.
Qed.

Lemma leaves1 (t : tree 1) :
  leaves t = t.2 /\ (root : tree 0 -> Z) <$> (t.2 : list (tree 0)) = t.2.
Proof.
  destruct t as [b cs]. simpl. split.
  - induction cs as [|c cs IH]; [done|]. simpl. by f_equal.
  - induction cs as [|c cs IH]; [done|]. simpl in *. by f_equal.
Qed.

(** [collect_tree] stopped before the end of a one-level tree. *)
Lemma collect_some d (t : tree 1) mx :
  disk_wf d -> room 1 d -> avail d (preorder t) -> repr d t ->
  0 <= mx <= Z.of_nat (length (leaves t)) ->
  run (collect_tree 1 mx [] (root t) 0) d = Ok ((take (Z.to_nat mx) (leaves t), mx), d).
Proof.
  intros Hwf Hroom Hav Hre Hmx. destruct (leaves1 t) as [El Er]. rewrite El in *.
  destruct Hre as (blk & rest & Hb & Hws & _). rewrite Er in Hws.
  destruct (avail_elem d _ (root t) Hav) as (_ & Hbh & _); [rewrite preorder_root; set_solver|].
  assert (d = Disk (blocks d) (held d)) as E by (by destruct d). rewrite E at 2.
  eapply run_get_read; [done|done|exact Hb|apply as_ref_words; [by apply (Hwf _ _ Hb)|done]|].
  cbn [word_list]. rewrite Hws.
  etransitivity; [apply (collect_leaves mx); [lia|rewrite length_app; lia]|].
  rewrite Z.sub_0_r, take_app_le by lia. done.
Qed.

(** The data blocks below [indirect1] that a file of [n] data blocks keeps. *)
Definition kept_leaves (n : Z) (t : tree 1) : list Z := take (Z.to_nat (n - 27)) (leaves t).

(** C36: shrinking an inode of 28 to 155 data blocks to [n'] data blocks, [n']
    still above 27, collects the first [n' - 27] data blocks below
    [indirect1]: blocks the shortened file keeps, and none of those it
    drops. *)
Theorem decrease_size_collects_kept d di f t new_size :
  forest_ok d di f -> disk_wf d -> room 3 d -> avail d (all_blocks f) ->
  f1 f = Some t ->
  27 < count_data_block new_size < count_data_block (size di) ->
  count_data_block (size di) <= 155 ->
  exists di', run (DiskInode_decrease_size di new_size) d =
    Ok ((di', kept_leaves (count_data_block new_size) t), d) /\
    size di' = new_size /\ indirect1 di' = indirect1 di /\ direct di' = direct di.
Proof.
  intros Hf Hwf Hroom Hav Ht Hn Hb. pose proof (fo_1 _ _ _ Hf) as H1. rewrite Ht in H1.
  destruct H1 as (Hp & Hsh & Hr & Hre). unfold DiskInode_decrease_size.
  set (n := count_data_block (size di)) in *. set (n' := count_data_block new_size) in *.
  efs_consts. replace (Z.to_nat (Z.min n 27 - n')) with 0%nat by lia. cbn [drop_direct].
  rewrite Z.max_l by lia. destruct (Z.leb_spec n' 27); [lia|].
  rewrite w64_id by (unfold is_u64; lia). unfold shrink_level. efs_consts.
  destruct (Z.eqb_spec n 27); [lia|]. cbn [tree_root indirect1]. 
  unfold all_blocks in Hav. rewrite Ht in Hav. apply avail_app in Hav as (_ & Hav & _).
  apply avail_app in Hav as (Hav & _ & _). cbn [oblocks from_option] in Hav.
  pose proof (shape_leaves (level_leaves 1 n) t ltac:(pose proof (level_leaves_range 1 n); lia) Hsh) as Hl.
  rewrite level_leaves_part in Hl by (level_consts; lia). level_consts.
  assert (run (collect_tree 1 (n' - 27) [] (indirect1 di) 0) d =
          Ok ((take (Z.to_nat (n' - 27)) (leaves t), n' - 27), d)) as Hrun.
  { rewrite <- Hr. apply collect_some; try done; [|lia]. eapply room_weaken; [|exact Hroom]. lia. }
  rewrite run_bind, (run_bind_Ok _ _ _ _ _ Hrun). cbn [run res_bind].
  destruct (Z.leb_spec (n' - 27) 128); [|lia]. by eexists.
Qed.

(** A one-level tree of three leaves, and an inode of 30 data blocks over it. *)
Definition sample_inode : DiskInode :=
  MkDiskInode File (512 * 30) (seqZ 1 27) 40 0 0.
Definition sample_disk : disk :=
  Disk (<[40 := words_put 4 [28; 29; 30] ++ replicate 500 Byte.x00]> (blocks (blank_disk 50))) ∅.
Definition sample_tree : tree 1 := (40, [28; 29; 30]).
Definition sample_forest : forest := Forest (seqZ 1 27) (Some sample_tree) None None.

Lemma sample_wf : disk_wf sample_disk.
Proof. apply map_Forall_insert_2; [by vm_compute|apply blank_wf]. Qed.

Lemma sample_ok : forest_ok sample_disk sample_inode sample_forest.
Proof.
  split; try done.
  - split; [done|]. by repeat constructor.
  - split_and!; try done. exists (words_put 4 [28; 29; 30] ++ replicate 500 Byte.x00), (replicate 125 0).
    split_and!; [apply lookup_insert_eq|by vm_compute|].
    repeat (apply Forall_cons; split; [eexists; vm_compute; reflexivity|]). done.
Qed.

Lemma sample_avail l :
  NoDup l -> Forall (fun i => 0 <= i < 50) l -> avail sample_disk l.
Proof.
  intros Hnd Hl. assert (same_except [40] (blank_disk 50) sample_disk) as Hs.
  { apply (same_except_node [] (blank_disk 50) (hold 40 (blank_disk 50)) 40);
      [apply same_except_refl|eexists; vm_compute; reflexivity|by vm_compute]. }
  eapply avail_same; [exact Hs|]. by apply blank_avail.
Qed.

Lemma sample_all_avail : avail sample_disk (all_blocks sample_forest).
Proof.
  apply sample_avail; [by apply (bool_decide_unpack _); vm_compute|].
  by apply (bool_decide_unpack _); vm_compute.
Qed.

Lemma decrease_size_collects_kept_witness :
  exists di', run (DiskInode_decrease_size sample_inode (512 * 29)) sample_disk =
    Ok ((di', [28; 29]), sample_disk) /\
    size di' = 512 * 29 /\ indirect1 di' = indirect1 sample_inode /\
    direct di' = direct sample_inode.
Proof.
  apply (decrease_size_collects_kept _ _ sample_forest sample_tree (512 * 29)); try done.
  - apply sample_ok.
  - apply sample_wf.
  - apply sample_all_avail.
Defined.
