(* ===== verification/LayoutIO.v ===== *)
(** * Finding, reading and writing the data of an inode

    [DiskInode::block_id] finds the data block of an index, [read_at] and
    [write_at] are reads and updates of the file's bytes. *)

From S2P Require Import Prelude Bytes Config BlockStore Layout BlockTree InodeForest.
From S2P Require Import LayoutGrow LayoutClear.

(** ** [block_id] *)

Lemma cshape_lookup {k} n (cs : list (tree k)) i :
  0 <= n -> 0 <= i < n -> cshape shape (cap k) n cs ->
  exists t, cs !! Z.to_nat (i / cap k) = Some t /\
    flat_map leaves cs !! Z.to_nat i = leaves t !! Z.to_nat (i mod cap k) /\
    exists m, shape m t /\ i mod cap k < m <= cap k.
Proof.
  pose proof (cap_pos k) as Hc. revert n i.
  induction cs as [|t cs IH]; intros n i Hn Hi Hs; simpl in Hs; [lia|].
  destruct Hs as (_ & Ht & Hcs). pose proof (shape_leaves (Z.min n (cap k)) t ltac:(lia) Ht). cbn [flat_map].
  destruct (Z.lt_ge_cases i (cap k)) as [Hlt|Hge].
  - exists t. rewrite Z.div_small, Z.mod_small by lia. split; [done|].
    rewrite lookup_app_l by lia. split; [done|]. exists (Z.min n (cap k)). split; [done|lia].
  - destruct (IH (Z.max 0 (n - cap k)) (i - cap k)) as (t' & Hl & E & Hm); [lia|lia|done|].
    exists t'. assert (i / cap k = (i - cap k) / cap k + 1) as ->.
    { rewrite <- Z.div_add by lia. f_equal. lia. }
    assert (i mod cap k = (i - cap k) mod cap k) as ->.
    { rewrite <- (Z.mod_add (i - cap k) 1) by lia. f_equal. lia. }
    pose proof (Z.div_pos (i - cap k) (cap k) ltac:(lia) Hc).
    rewrite Z2Nat.inj_add by lia. rewrite Nat.add_comm. split; [done|].
    split; [|done]. rewrite lookup_app_r by lia. rewrite <- E. f_equal. lia.
Qed.

Lemma read_indirect_spec {k} d (t : tree (S k)) c j :
  disk_wf d -> room 1 d -> avail d [root t] -> repr d t ->
  0 <= j -> t.2 !! Z.to_nat j = Some c ->
  run (read_indirect (root t) j) d = Ok (root c, d).
Proof.
  intros Hwf Hroom Hav (blk & rest & Hb & Hws & _) Hj Hc.
  destruct (avail_elem d _ (root t) Hav ltac:(set_solver)) as (_ & Hbh & _).
  assert (d = Disk (blocks d) (held d)) as E by (by destruct d). rewrite E at 2.
  eapply run_get_read; [done|done|exact Hb|apply as_ref_words; [by apply (Hwf _ _ Hb)|done]|].
  cbn [word_list]. unfold index. rewrite Hws.
  rewrite lookup_app_l by (rewrite length_fmap; by eapply lookup_lt_Some).
  assert ((root <$> t.2) !! Z.to_nat j = Some (root c)) as ->; [|done].
  apply list_lookup_fmap_Some. eauto.
Qed.

Lemma avail_child {k} d (t : tree (S k)) c i :
  avail d (preorder t) -> t.2 !! i = Some c -> avail d (preorder c) /\ avail d [root t].
Proof.
  intros Hav Hc. change (preorder t) with ([root t] ++ flat_map preorder t.2) in Hav.
  apply avail_app in Hav as (H1 & Hav & _). split; [|done].
  rewrite <- (take_drop_middle _ _ _ Hc), flat_map_app in Hav. cbn [flat_map] in Hav.
  apply avail_app in Hav as (_ & Hav & _). by apply avail_app in Hav as (? & _ & _).
Qed.

Lemma repr_child {k} d (t : tree (S k)) c i : repr d t -> t.2 !! i = Some c -> repr d c.
Proof. intros (? & ? & _ & _ & Hre) Hc. rewrite Forall_forall in Hre. apply Hre. by eapply list_elem_of_lookup_2. Qed.

(** Descending one level of a tree. *)
Lemma descend {k} d (t : tree (S k)) n i :
  disk_wf d -> room 1 d -> avail d (preorder t) -> repr d t -> shape n t ->
  0 <= i < n -> n <= cap (S k) ->
  exists c : tree k,
    run (read_indirect (root t) (i / cap k)) d = Ok (root c, d) /\
    leaves t !! Z.to_nat i = leaves c !! Z.to_nat (i mod cap k) /\
    repr d c /\ avail d (preorder c) /\ exists m, shape m c /\ i mod cap k < m <= cap k.
Proof.
  intros Hwf Hroom Hav Hre Hsh Hi Hn. pose proof (cap_pos k).
  destruct (cshape_lookup n t.2 i ltac:(lia) Hi Hsh) as (c & Hc & Hl & Hm).
  destruct (avail_child d t c _ Hav Hc) as [Hac Har]. exists c. split_and!; try done.
  - apply read_indirect_spec; try done. apply Z.div_pos; lia.
  - by eapply repr_child.
Qed.

(** The reads of [block_id] below a tree of depth 1, 2 and 3. *)
Section lookups.
Context (d : disk) (Hwf : disk_wf d) (Hroom : room 1 d).

Lemma mod_cap k i : 0 <= i mod cap k.
Proof. apply Z.mod_pos_bound, cap_pos. Qed.

Lemma lookup1 (t : tree 1) n i :
  avail d (preorder t) -> repr d t -> shape n t -> 0 <= i < n -> n <= cap 1 ->
  exists b, leaves t !! Z.to_nat i = Some b /\ run (read_indirect (root t) i) d = Ok (b, d).
Proof.
  intros Hav Hre Hsh Hi Hn.
  destruct (descend d t n i) as (c & Hrun & El & _); try done.
  exists c. change (cap 0) with 1 in *. rewrite Z.div_1_r in Hrun. rewrite El, Z.mod_1_r. done.
Qed.

Lemma lookup2 (t : tree 2) n i :
  avail d (preorder t) -> repr d t -> shape n t -> 0 <= i < n -> n <= cap 2 ->
  exists b, leaves t !! Z.to_nat i = Some b /\
    run (let! ind1 := read_indirect (root t) (i / 128) in read_indirect ind1 (i mod 128)) d =
      Ok (b, d).
Proof.
  intros Hav Hre Hsh Hi Hn.
  destruct (descend d t n i) as (c & Hrun & -> & Hc & Ac & m & Hm & Hlt); try done.
  destruct (lookup1 c m (i mod cap 1)) as (b & El & Hrun'); try done.
  { split; [apply mod_cap|lia]. }
  { lia. }
  exists b. split; [done|]. by rewrite (run_bind_Ok _ _ _ _ _ Hrun).
Qed.

Lemma lookup3 (t : tree 3) n i :
  avail d (preorder t) -> repr d t -> shape n t -> 0 <= i < n -> n <= cap 3 ->
  exists b, leaves t !! Z.to_nat i = Some b /\
    run (let! ind2 := read_indirect (root t) (i / 16384) in
         let! ind1 := read_indirect ind2 (i mod 16384 / 128) in
         read_indirect ind1 (i mod 16384 mod 128)) d = Ok (b, d).
Proof.
  intros Hav Hre Hsh Hi Hn.
  destruct (descend d t n i) as (c & Hrun & -> & Hc & Ac & m & Hm & Hlt); try done.
  destruct (lookup2 c m (i mod cap 2)) as (b & El & Hrun'); try done.
  { split; [apply mod_cap|lia]. }
  { lia. }
  exists b. split; [done|]. by rewrite (run_bind_Ok _ _ _ _ _ Hrun).
Qed.
End lookups.

Lemma slot_some d k n r (o : option (tree k)) :
  slot_ok d (level_leaves k n) r o -> avail d (oblocks o) -> before k < n ->
  exists t, o = Some t /\ shape (level_leaves k n) t /\ root t = r /\ repr d t /\ avail d (preorder t).
Proof.
  intros Ho Ha Hn. destruct o as [t|].
  - destruct Ho as (_ & ? & ? & ?). by exists t.
  - exfalso. cbn in Ho. unfold level_leaves, clip in Ho. pose proof (cap_pos k). lia.
Qed.

Lemma level_index k n i : before k <= i < n -> i < before k + cap k -> 0 <= i - before k < level_leaves k n.
Proof. unfold level_leaves, clip. lia. Qed.

(** A lookup that passes [len] elements. *)
Lemma lookup_skip {A} (l l' : list A) len i :
  Z.of_nat (length l) = len -> len <= i -> (l ++ l') !! Z.to_nat i = l' !! Z.to_nat (i - len).
Proof. intros. rewrite lookup_app_r by lia. f_equal. lia. Qed.

Lemma block_id_spec d di f i :
  forest_ok d di f -> disk_wf d -> room 1 d -> avail d (all_blocks f) ->
  0 <= i < count_data_block (size di) ->
  exists b, data_blocks f !! Z.to_nat i = Some b /\ run (DiskInode_block_id di i) d = Ok (b, d).
Proof.
  intros Hf Hwf Hroom Hav Hi. pose proof (fo_bound _ _ _ Hf) as Hb.
  destruct (fo_wf _ _ _ Hf) as [Hl _]. destruct (forest_slots _ _ _ Hf) as (L0 & _).
  destruct Hf as [_ _ Hd H1 H2 H3]. unfold all_blocks in Hav. unfold data_blocks, DiskInode_block_id.
  apply avail_app in Hav as (_ & Hav & _). apply avail_app in Hav as (A1 & Hav & _).
  apply avail_app in Hav as (A2 & A3 & _).
  pose proof (slot_length _ _ _ _ _ (level_leaves_range 1 _) H1) as [L1 _].
  pose proof (slot_length _ _ _ _ _ (level_leaves_range 2 _) H2) as [L2 _].
  set (n := count_data_block (size di)) in *. efs_consts.
  destruct (Z.ltb_spec i 27).
  { assert (is_Some (direct di !! Z.to_nat i)) as [b E] by (apply lookup_lt_is_Some; lia).
    exists b. unfold index. rewrite E. split; [|done].
    rewrite lookup_app_l by lia. rewrite Hd, lookup_take_lt by lia. done. }
  rewrite (lookup_skip _ _ 27) by lia.
  destruct (Z.ltb_spec i 155).
  { destruct (slot_some _ _ _ _ _ H1 A1) as (t & Et & Hsh & <- & Hre & Ht); [level_consts; lia|].
    pose proof (level_index 1 n i ltac:(level_consts; lia) ltac:(level_consts; lia)) as Hix.
    destruct (lookup1 d Hwf Hroom t _ _ Ht Hre Hsh Hix) as (b & El & Hrun); [apply level_leaves_range|].
    exists b. rewrite lookup_app_l by (level_consts; lia). by rewrite Et. }
  rewrite level_leaves_full in L1 by (level_consts; lia).
  rewrite (lookup_skip _ _ 128) by (level_consts; lia).
  destruct (Z.ltb_spec i 16539).
  { destruct (slot_some _ _ _ _ _ H2 A2) as (t & Et & Hsh & <- & Hre & Ht); [level_consts; lia|].
    pose proof (level_index 2 n i ltac:(level_consts; lia) ltac:(level_consts; lia)) as Hix.
    destruct (lookup2 d Hwf Hroom t _ _ Ht Hre Hsh Hix) as (b & El & Hrun); [apply level_leaves_range|].
    exists b. rewrite lookup_app_l by (level_consts; lia). rewrite Et.
    replace (i - 27 - 128) with (i - 155) by lia. done. }
  rewrite level_leaves_full in L2 by (level_consts; lia).
  rewrite (lookup_skip _ _ 16384) by (level_consts; lia).
  destruct (slot_some _ _ _ _ _ H3 A3) as (t & Et & Hsh & <- & Hre & Ht); [level_consts; lia|].
  pose proof (level_index 3 n i ltac:(level_consts; lia) ltac:(level_consts; lia)) as Hix.
  destruct (lookup3 d Hwf Hroom t _ _ Ht Hre Hsh Hix) as (b & El & Hrun); [apply level_leaves_range|].
  exists b. rewrite Et. replace (i - 27 - 128 - 16384) with (i - 16539) by lia. done.
Qed.

(** ** The bytes of a file *)

Definition block_bytes (d : disk) (b : Z) : list u8 := default [] (blocks d !! b).

(** The bytes of the data blocks, in order; the file is the first [size] of them. *)
Definition file_bytes (d : disk) (f : forest) : list u8 := flat_map (block_bytes d) (data_blocks f).

Lemma block_bytes_length d b :
  disk_wf d -> is_Some (blocks d !! b) -> length (block_bytes d b) = 512%nat.
Proof. intros Hwf [x Hx]. unfold block_bytes. rewrite Hx. by apply (Hwf _ _ Hx). Qed.

Lemma file_pieces d f :
  disk_wf d -> avail d (all_blocks f) ->
  Forall (fun b => length (block_bytes d b) = 512%nat) (data_blocks f).
Proof.
  intros Hwf [[_ Hf] _]%avail_data. eapply Forall_impl; [exact Hf|].
  intros b (_ & _ & Hb). by apply block_bytes_length.
Qed.

Lemma length_file_bytes d di f :
  disk_wf d -> avail d (all_blocks f) -> forest_ok d di f ->
  Z.of_nat (length (file_bytes d f)) = 512 * count_data_block (size di).
Proof.
  intros Hwf Hav Hf. unfold file_bytes. rewrite (length_pieces 512) by (by apply file_pieces).
  pose proof (forest_lengths d di f Hf). lia.
Qed.

(** One chunk of the two loops. *)
Record chunk (start end_ ecb : Z) : Prop := {
  ch_range : start < ecb <= end_;
  ch_block : start mod 512 + (ecb - start) <= 512;
  ch_next : ecb <> end_ -> ecb / 512 = start / 512 + 1;
}.

Lemma chunk_ok start end_ :
  0 <= start < end_ -> chunk start end_ (end_current_block start end_).
Proof.
  intros H. unfold end_current_block. efs_consts.
  pose proof (Z.div_mod start 512 ltac:(lia)). pose proof (Z.mod_pos_bound start 512 ltac:(lia)).
  split; [lia|lia|]. intros Hne. rewrite Z.min_l by lia. rewrite Z.div_mul by lia. done.
Qed.

Section io.
Context (di : DiskInode) (f : forest).

(** The disk holds the inode's data and none of it is locked. *)
Record readable (d : disk) : Prop := {
  rd_ok : forest_ok d di f;
  rd_wf : disk_wf d;
  rd_room : room 1 d;
  rd_avail : avail d (all_blocks f);
}.

(** The data block at byte [start]. *)
Lemma data_block_at d start :
  readable d -> 0 <= start < size di ->
  exists b blk, data_blocks f !! Z.to_nat (start / 512) = Some b /\
    run (DiskInode_block_id di (w32 (start / 512))) d = Ok (b, d) /\
    blocks d !! b = Some blk /\ block_bytes d b = blk /\ (b ∉ held d) /\
    as_ref blk 0 = Ok (Bytes (n := 512) blk) /\ length blk = 512%nat.
Proof.
  intros [Hf Hwf Hroom Hav] Hs. destruct (fo_wf _ _ _ Hf) as [_ Hu].
  inversion Hu as [|? ? Hsz _]; subst. unfold is_u32 in Hsz.
  pose proof (count_data_block_bounds (size di)).
  pose proof (Z.div_mod start 512 ltac:(lia)). pose proof (Z.mod_pos_bound start 512 ltac:(lia)).
  assert (0 <= start / 512 < count_data_block (size di)) as Hi by lia.
  rewrite w32_id by (unfold is_u32; lia).
  destruct (block_id_spec d di f (start / 512) Hf Hwf Hroom Hav Hi) as (b & Hb & Hrun).
  apply avail_data in Hav as [Hav _].
  destruct (avail_elem d _ b Hav) as (_ & Hh & [blk Hblk]); [by eapply list_elem_of_lookup_2|].
  exists b, blk. pose proof (Hwf _ _ Hblk) as Hl. split_and!; try done.
  - unfold block_bytes. by rewrite Hblk.
  - by apply as_ref_bytes.
Qed.

Lemma read_loop_spec fuel : forall d buf start rs end_,
  readable d -> 0 <= start < end_ -> end_ <= size di -> 0 <= rs ->
  rs + (end_ - start) <= Z.of_nat (length buf) ->
  (Z.to_nat (end_ / 512 - start / 512) < fuel)%nat ->
  run (read_loop fuel di buf start (start / 512) rs end_) d =
    Ok ((rs + (end_ - start),
         splice (Z.to_nat rs)
           (slice (Z.to_nat start) (Z.to_nat (end_ - start)) (file_bytes d f)) buf), d).
Proof.
  induction fuel as [|fuel IH]; intros d buf start rs end_ Hrd Hs He Hrs Hlen Hfuel; [lia|].
  destruct (data_block_at d start Hrd ltac:(lia)) as (b & blk & Hb & Hid & Hblk & Hbb & Hh & Href & Hl).
  destruct (chunk_ok start end_ Hs) as [C1 C2 C3]. cbn [read_loop].
  set (ecb := end_current_block start end_) in *. efs_consts.
  pose proof (Z.div_mod start 512 ltac:(lia)). pose proof (Z.mod_pos_bound start 512 ltac:(lia)).
  assert (slice (Z.to_nat (start mod 512)) (Z.to_nat (ecb - start)) blk =
          slice (Z.to_nat start) (Z.to_nat (ecb - start)) (file_bytes d f)) as Ech.
  { destruct Hrd as [_ Hwf _ Hav]. unfold file_bytes.
    replace (Z.to_nat start) with (512 * Z.to_nat (start / 512) + Z.to_nat (start mod 512))%nat by lia.
    rewrite (slice_piece 512 _ _ _ b) by (done || (by apply file_pieces) || lia). by rewrite Hbb. }
  rewrite (run_bind_Ok _ _ _ _ _ Hid).
  assert (d = Disk (blocks d) (held d)) as Ed by (by destruct d).
  erewrite run_bind_Ok.
  2:{ eapply run_get_read; [done|apply Hrd|done|exact Href|]. reflexivity. }
  rewrite <- Ed. cbn [byte_list]. rewrite Ech.
  pose proof (length_file_bytes d di f ltac:(apply Hrd) ltac:(apply Hrd) ltac:(apply Hrd)) as HF.
  pose proof (count_data_block_bounds (size di)) as Hdc.
  set (F := file_bytes d f) in *.
  assert (length (slice (Z.to_nat start) (Z.to_nat (ecb - start)) F) = Z.to_nat (ecb - start)) as Hls.
  { apply length_slice. lia. }
  destruct (Z.eqb_spec ecb end_) as [->|Hne]; [done|].
  rewrite <- C3 by done. rewrite IH; try done; try lia.
  - do 3 f_equal; [lia|]. fold F.
    replace (Z.to_nat (end_ - start)) with (Z.to_nat (ecb - start) + Z.to_nat (end_ - ecb))%nat by lia.
    rewrite slice_app, <- splice_app; [|rewrite Hls, length_slice; lia].
    rewrite Hls. f_equal; [lia|]. f_equal; lia.
  - rewrite length_splice; lia.
  - pose proof (Z.div_le_mono ecb end_ 512 ltac:(lia) ltac:(lia)). rewrite C3 in * by done. lia.
Qed.

(** Overwriting one data block. *)
Lemma write_block d b i o new :
  readable d -> data_blocks f !! i = Some b -> (o + length new <= 512)%nat ->
  let d' := Disk (<[b := splice o new (block_bytes d b)]> (blocks d)) (held d) in
  readable d' /\ same_except [b] d d' /\
  file_bytes d' f = splice (512 * i + o) new (file_bytes d f).
Proof.
  intros [Hf Hwf Hroom Hav] Hb Ho d'. pose proof (file_pieces _ _ Hwf Hav) as Hp.
  pose proof (Forall_lookup_1 _ _ _ _ Hp Hb) as Hlb. cbn beta in Hlb.
  destruct (avail_data _ _ Hav) as [[Hnd Hfa] Hdis].
  destruct (Forall_lookup_1 _ _ _ _ Hfa Hb) as (_ & Hbh & [blk Hblk]).
  assert (same_except [b] d d') as Hs.
  { apply (same_except_node [] d (hold b d)); [apply same_except_refl|eauto|].
    rewrite length_splice; efs_consts; lia. }
  split_and!; [|done|].
  - split.
    + eapply forest_frame; [exact Hs| |done]. apply list_elem_of_lookup_2 in Hb. set_solver.
    + by apply Hs.
    + done.
    + by eapply avail_same.
  - unfold file_bytes. eapply (splice_piece 512 (block_bytes d)); try done.
    + unfold block_bytes. simpl. by rewrite lookup_insert_eq.
    + intros y Hy. unfold block_bytes. simpl. by rewrite lookup_insert_ne.
Qed.

Lemma write_loop_spec fuel : forall d buf start ws end_,
  readable d -> 0 <= start < end_ -> end_ <= size di -> 0 <= ws ->
  ws + (end_ - start) <= Z.of_nat (length buf) ->
  (Z.to_nat (end_ / 512 - start / 512) < fuel)%nat ->
  exists d',
    run (write_loop fuel di buf start (start / 512) ws end_) d = Ok (ws + (end_ - start), d') /\
    readable d' /\ same_except (data_blocks f) d d' /\
    file_bytes d' f =
      splice (Z.to_nat start) (slice (Z.to_nat ws) (Z.to_nat (end_ - start)) buf) (file_bytes d f).
Proof.
  induction fuel as [|fuel IH]; intros d buf start ws end_ Hrd Hs He Hws Hlen Hfuel; [lia|].
  destruct (data_block_at d start Hrd ltac:(lia)) as (b & blk & Hb & Hid & Hblk & Hbb & Hh & Href & Hl).
  destruct (chunk_ok start end_ Hs) as [C1 C2 C3]. cbn [write_loop].
  set (ecb := end_current_block start end_) in *. efs_consts.
  pose proof (Z.div_mod start 512 ltac:(lia)). pose proof (Z.mod_pos_bound start 512 ltac:(lia)).
  set (ch := slice (Z.to_nat ws) (Z.to_nat (ecb - start)) buf).
  assert (length ch = Z.to_nat (ecb - start)) as Hch by (apply length_slice; lia).
  destruct (write_block d b _ (Z.to_nat (start mod 512)) ch Hrd Hb ltac:(lia)) as (Hrd' & Hsame & HF).
  replace (512 * Z.to_nat (start / 512) + Z.to_nat (start mod 512))%nat with (Z.to_nat start) in HF by lia.
  rewrite (run_bind_Ok _ _ _ _ _ Hid). rewrite Hbb in *.
  erewrite run_bind_Ok.
  2:{ eapply run_get_modify; [done|apply Hrd|done|exact Href|reflexivity|].
      rewrite write_ref_bytes; cbn [byte_list]; try done; rewrite length_splice; efs_consts; lia. }
  rewrite write_ref_bytes by (cbn [byte_list]; rewrite ?length_splice; efs_consts; done || lia). cbn [byte_list].
  set (d1 := Disk (<[b := _]> _) _) in *.
  assert (same_except (data_blocks f) d d1) as Hsame1.
  { eapply same_except_weaken; [|exact Hsame]. apply list_elem_of_lookup_2 in Hb. set_solver. }
  destruct (Z.eqb_spec ecb end_) as [E|Hne].
  { exists d1. split_and!; try done; [by rewrite E|]. by rewrite HF, <- E. }
  rewrite <- C3 by done.
  destruct (IH d1 buf ecb (ws + (ecb - start)) end_) as (d' & Hrun & Hrd2 & Hsame2 & HF2);
    try done; try lia.
  { pose proof (Z.div_le_mono ecb end_ 512 ltac:(lia) ltac:(lia)). rewrite C3 in * by done. lia. }
  exists d'. split_and!; [|done| |].
  - etransitivity; [exact Hrun|]. do 2 f_equal. lia.
  - eapply same_except_weaken; [|by eapply same_except_trans]. set_solver.
  - pose proof (length_file_bytes d di f ltac:(apply Hrd) ltac:(apply Hrd) ltac:(apply Hrd)) as HL.
    pose proof (count_data_block_bounds (size di)) as Hdc. rewrite HF2, HF.
    replace (Z.to_nat (end_ - start)) with (Z.to_nat (ecb - start) + Z.to_nat (end_ - ecb))%nat by lia.
    rewrite slice_app. fold ch. rewrite <- splice_app; rewrite Hch; [|rewrite length_slice; lia].
    f_equal; [lia|]. f_equal; lia.
Qed.
End io.

(** ** [read_at] and [write_at] *)

(** The file: the first [size] bytes of the data blocks. *)
Definition content (d : disk) (di : DiskInode) (f : forest) : list u8 :=
  take (Z.to_nat (size di)) (file_bytes d f).

(** Bytes that an access of [len] bytes at [off] reaches. *)
Definition io_len (di : DiskInode) (off len : Z) : Z :=
  Z.max 0 (Z.min (off + len) (size di) - off).

Lemma fuel_enough start end_ :
  start <= end_ -> (Z.to_nat (end_ / 512 - start / 512) < loop_fuel start end_)%nat.
Proof.
  intros H. unfold loop_fuel. efs_consts.
  pose proof (Z.div_le_mono start end_ 512 ltac:(lia) H). lia.
Qed.

Lemma read_at_spec d di f off buf :
  readable di f d -> 0 <= off -> off + Z.of_nat (length buf) < 2 ^ 64 ->
  let n := io_len di off (Z.of_nat (length buf)) in
  run (DiskInode_read_at di off buf) d =
    Ok ((n, splice 0 (slice (Z.to_nat off) (Z.to_nat n) (content d di f)) buf), d).
Proof.
  intros Hrd Hoff Hlen n. unfold DiskInode_read_at, io_len in *. rewrite w64_id by (unfold is_u64; lia).
  set (len := Z.of_nat (length buf)) in *. destruct (Z.leb_spec (Z.min (off + len) (size di)) off).
  - assert (n = 0) as -> by lia. unfold slice, splice. simpl. by rewrite drop_0.
  - rewrite (read_loop_spec di f); try done; try lia; [|apply fuel_enough; lia].
    assert (n = Z.min (off + len) (size di) - off) as -> by lia.
    unfold content. rewrite slice_take by lia. done.
Qed.

Lemma write_at_spec d di f off buf :
  readable di f d -> 0 <= off -> off + Z.of_nat (length buf) < 2 ^ 64 ->
  off < size di -> buf <> [] ->
  let n := io_len di off (Z.of_nat (length buf)) in
  exists d', run (DiskInode_write_at di off buf) d = Ok (n, d') /\ readable di f d' /\
    same_except (data_blocks f) d d' /\
    content d' di f = splice (Z.to_nat off) (take (Z.to_nat n) buf) (content d di f).
Proof.
  intros Hrd Hoff Hlen Hsz Hne n. unfold DiskInode_write_at, io_len in *.
  rewrite w64_id by (unfold is_u64; lia).
  assert (0 < Z.of_nat (length buf)) by (destruct buf; simpl; [done|lia]).
  set (len := Z.of_nat (length buf)) in *. set (e := Z.min (off + len) (size di)).
  rewrite (proj2 (Z.leb_le off e)) by lia. cbn [assert lift bind].
  destruct (write_loop_spec di f (loop_fuel off e) d buf off 0 e) as (d' & Hrun & Hrd' & Hs & HF);
    try done; try lia; [apply fuel_enough; lia|].
  assert (n = e - off) as En by lia. rewrite En.
  exists d'. split_and!; try done. unfold content. rewrite HF. unfold slice. rewrite drop_0.
  pose proof (length_file_bytes d di f ltac:(apply Hrd) ltac:(apply Hrd) ltac:(apply Hrd)).
  pose proof (count_data_block_bounds (size di)).
  apply take_splice; rewrite ?length_take; lia.
Qed.

(** [read_at] returns the bytes of the file from [off] on, as many as the
    buffer and the file size allow, in the front of the buffer, whose rest is
    kept; the loop ends and the disk is unchanged. *)
Theorem read_at_correct d di f off buf :
  readable di f d -> 0 <= off -> off + Z.of_nat (length buf) < 2 ^ 64 ->
  let n := io_len di off (Z.of_nat (length buf)) in
  run (DiskInode_read_at di off buf) d =
    Ok ((n, splice 0 (slice (Z.to_nat off) (Z.to_nat n) (content d di f)) buf), d).
Proof. apply read_at_spec. Qed.

Lemma sample_readable : readable sample_inode sample_forest sample_disk.
Proof. split; [apply sample_ok|apply sample_wf|done|apply sample_all_avail]. Qed.

Lemma read_at_correct_witness :
  run (DiskInode_read_at sample_inode 15000 (replicate 400 Byte.xff)) sample_disk =
    Ok ((360, splice 0 (slice (Z.to_nat 15000) 360 (content sample_disk sample_inode sample_forest))
                (replicate 400 Byte.xff)), sample_disk).
Proof.
  apply (read_at_correct sample_disk sample_inode sample_forest 15000 (replicate 400 Byte.xff));
    [apply sample_readable|lia|by vm_compute].
Defined.

(** [write_at] below the file size replaces the bytes of the file at [off]
    by those of the buffer, up to the end of the file; it writes no block
    other than data blocks of the file and the inode stays readable. *)
Theorem write_at_correct d di f off buf :
  readable di f d -> 0 <= off -> off + Z.of_nat (length buf) < 2 ^ 64 ->
  off < size di -> buf <> [] ->
  let n := io_len di off (Z.of_nat (length buf)) in
  exists d', run (DiskInode_write_at di off buf) d = Ok (n, d') /\ readable di f d' /\
    same_except (data_blocks f) d d' /\
    content d' di f = splice (Z.to_nat off) (take (Z.to_nat n) buf) (content d di f).
Proof. apply write_at_spec. Qed.

Lemma write_at_correct_witness :
  exists d', run (DiskInode_write_at sample_inode 500 (replicate 600 Byte.xff)) sample_disk
      = Ok (600, d') /\ readable sample_inode sample_forest d' /\
    same_except (data_blocks sample_forest) sample_disk d' /\
    content d' sample_inode sample_forest =
      splice 500 (take 600 (replicate 600 Byte.xff)) (content sample_disk sample_inode sample_forest).
Proof.
  apply (write_at_correct sample_disk sample_inode sample_forest 500 (replicate 600 Byte.xff));
    [apply sample_readable|lia|by vm_compute|by vm_compute|done].
Defined.

Lemma length_content d di f : readable di f d -> Z.of_nat (length (content d di f)) = size di.
Proof.
  intros [Hf Hwf _ Hav]. pose proof (length_file_bytes d di f Hwf Hav Hf).
  pose proof (count_data_block_bounds (size di)). destruct (fo_wf _ _ _ Hf) as [_ Hu].
  inversion Hu as [|? ? [? ?] _]; subst. unfold content. rewrite length_take. lia.
Qed.

(** What [write_at] wrote inside the file is what [read_at] reads back at
    the same offset. *)
Theorem write_read_roundtrip d di f off buf buf' :
  readable di f d -> 0 <= off -> off + Z.of_nat (length buf) <= size di -> buf <> [] ->
  length buf' = length buf ->
  exists d', run (let! _ := DiskInode_write_at di off buf in DiskInode_read_at di off buf') d =
    Ok ((Z.of_nat (length buf), buf), d').
Proof.
  intros Hrd Hoff Hsz Hne Hlen. destruct (fo_wf _ _ _ (rd_ok _ _ _ Hrd)) as [_ Hu].
  inversion Hu as [|? ? [_ Hs] _]; subst.
  assert (0 < Z.of_nat (length buf)) by (destruct buf; simpl; [done|lia]).
  destruct (write_at_spec d di f off buf Hrd Hoff ltac:(lia) ltac:(lia) Hne) as
    (d' & Hrun & Hrd' & _ & Hc).
  assert (io_len di off (Z.of_nat (length buf)) = Z.of_nat (length buf)) as En
    by (unfold io_len; lia). rewrite En in *.
  exists d'. rewrite (run_bind_Ok _ _ _ _ _ Hrun).
  rewrite (read_at_spec d' di f off buf' Hrd' Hoff) by lia. rewrite Hlen, En, Hc.
  pose proof (length_content d di f Hrd). rewrite Nat2Z.id, take_ge by lia.
  rewrite slice_splice_same by lia. do 3 f_equal. unfold splice. simpl.
  rewrite drop_ge, app_nil_r by lia. done.
Qed.

Lemma write_read_roundtrip_witness :
  exists d', run (let! _ := DiskInode_write_at sample_inode 500 (replicate 600 Byte.xff) in
                  DiskInode_read_at sample_inode 500 (replicate 600 Byte.x00)) sample_disk =
    Ok ((600, replicate 600 Byte.xff), d').
Proof.
  apply (write_read_roundtrip sample_disk sample_inode sample_forest 500
           (replicate 600 Byte.xff) (replicate 600 Byte.x00));
    [apply sample_readable|lia|by vm_compute|done|done].
Defined.

(** Growing a file moves none of its data: [block_id] finds the block it
    found before for every old index, and for every new index a block that
    was not yet the file's. *)
Theorem increase_size_keeps_blocks d di f new_size bl i :
  readable di f d -> size di <= new_size -> is_u32 new_size ->
  count_data_block new_size <= INDIRECT3_BOUND -> room 3 d -> avail d (all_blocks f ++ bl) ->
  count_total_block new_size - count_total_block (size di) = Z.of_nat (length bl) ->
  0 <= i < count_data_block new_size ->
  exists di' d' b, run (DiskInode_increase_size di new_size bl) d = Ok (di', d') /\
    run (DiskInode_block_id di' i) d' = Ok (b, d') /\
    (i < count_data_block (size di) -> run (DiskInode_block_id di i) d = Ok (b, d)) /\
    (count_data_block (size di) <= i -> b ∉ data_blocks f).
Proof.
  intros [Hf Hwf Hroom1 Hav1] Hs Hu Hb Hroom Hav Hc Hi.
  destruct (increase_size_spec d di f new_size bl) as
    (di' & d' & f' & Hrun & Hs' & Hok & _ & Hperm & Hpre & Hsame); try done.
  assert (avail d' (all_blocks f')) as Hav' by (eapply avail_same; [exact Hsame|]; by rewrite Hperm).
  destruct (block_id_spec d' di' f' i) as (b & Hlk & Hid); rewrite ?Hs'; try done.
  { by eapply same_wf. }
  { by eapply same_room. }
  exists di', d', b. split_and!; try done; intros Hold.
  - destruct (block_id_spec d di f i) as (b' & Hlk' & Hid'); try done; [lia|].
    apply (prefix_lookup_Some _ _ _ _ Hlk') in Hpre. congruence.
  - destruct Hpre as [rest Hrest]. rewrite Hrest in Hlk.
    destruct (forest_lengths _ _ _ Hf) as [Hld _].
    rewrite lookup_app_r in Hlk by lia. apply list_elem_of_lookup_2 in Hlk.
    apply avail_data in Hav' as [[Hnd _] _]. rewrite Hrest in Hnd.
    apply NoDup_app in Hnd as (_ & Hx & _). intros Hin. by apply (Hx b).
Qed.

Lemma increase_size_keeps_blocks_witness :
  exists di' d' b,
    run (DiskInode_increase_size sample_inode (512 * 32) [45; 46]) sample_disk = Ok (di', d') /\
    run (DiskInode_block_id di' 29) d' = Ok (b, d') /\
    (29 < 30 -> run (DiskInode_block_id sample_inode 29) sample_disk = Ok (b, sample_disk)) /\
    (30 <= 29 -> b ∉ data_blocks sample_forest).
Proof.
  apply (increase_size_keeps_blocks sample_disk sample_inode sample_forest (512 * 32) [45; 46] 29);
    try done; [apply sample_readable|].
  apply sample_avail; by apply (bool_decide_unpack _); vm_compute.
Defined.
