(* ===== verification/Efs.v ===== *)
(** * The file system on a device

    [easy-fs/src/efs.rs]: super block, inode bitmap, inode area, data bitmap
    and data area, one after the other.  The fields of [EasyFileSystem] never
    change after [create] or [open]; everything that does is on the disk, so
    an operation under [fs.lock()] takes the record as an argument. *)

From S2P Require Import Prelude Bytes Config BlockStore Bitmap Layout.

Record EasyFileSystem := MkEfs {
  inode_bitmap : Bitmap;
  data_bitmap : Bitmap;
  inode_area_start_block : Z;
  data_area_start_block : Z;
}.

Definition Bitmap_new (start_block_id blocks : Z) : Bitmap :=
  {| start_block_id := start_block_id; bitmap_blocks := blocks |}.

(** [size_of::<DiskInode>()] *)
Definition inode_size : Z := 128.
Definition inodes_per_block : Z := BLOCK_SIZE / inode_size.

(** [EasyFileSystem::disk_inode_position] *)
Definition disk_inode_position (efs : EasyFileSystem) (inode_id : Z) : Z * Z :=
  (w32 (inode_area_start_block efs + inode_id / inodes_per_block),
   inode_id mod inodes_per_block * inode_size).

(** [EasyFileSystem::disk_inode_id] *)
Definition disk_inode_id (efs : EasyFileSystem) (block_id block_offset : Z) : Z :=
  w32 (w32 (block_id - inode_area_start_block efs) * inodes_per_block
       + w32 (block_offset / inode_size)).

(** [EasyFileSystem::alloc_inode] *)
Definition alloc_inode (efs : EasyFileSystem) : prog Z :=
  let! o := Bitmap_alloc (inode_bitmap efs) in
  let! id := lift (unwrap o) in
  Ret (w32 id).

(** [EasyFileSystem::dealloc_inode] *)
Definition dealloc_inode (efs : EasyFileSystem) (inode_id : Z) : prog () :=
  Bitmap_dealloc (inode_bitmap efs) inode_id.

(** [EasyFileSystem::alloc_data] *)
Definition alloc_data (efs : EasyFileSystem) : prog Z :=
  let! o := Bitmap_alloc (data_bitmap efs) in
  let! id := lift (unwrap o) in
  Ret (w32 (w32 id + data_area_start_block efs)).

(** [data_block.fill(0)] *)
Definition fill_zero (block_id : Z) : prog () :=
  get_modify block_id 0 (fun _ : DataBlock => Ret (tt, Bytes (replicate 512 Byte.x00))).

(** [EasyFileSystem::dealloc_data] *)
Definition dealloc_data (efs : EasyFileSystem) (block_id : Z) : prog () :=
  fill_zero block_id ;;;
  Bitmap_dealloc (data_bitmap efs) (w32 (block_id - data_area_start_block efs)).

(** The areas that [EasyFileSystem::create] computes: its super block and the
    record. *)
Definition efs_geometry (total_blocks inode_bitmap_blocks : Z) : SuperBlock * EasyFileSystem :=
  let inode_bitmap := Bitmap_new 1 inode_bitmap_blocks in
  let inode_num := Bitmap_maximum inode_bitmap in
  let inode_area_blocks := w32 (div_ceil (inode_num * inode_size) BLOCK_SIZE) in
  let inode_total_blocks := w32 (inode_bitmap_blocks + inode_area_blocks) in
  let data_total_blocks := w32 (total_blocks - 1 - inode_total_blocks) in
  let data_bitmap_blocks := w32 (data_total_blocks + 4096) / 4097 in
  let data_area_blocks := w32 (data_total_blocks - data_bitmap_blocks) in
  (SuperBlock_init total_blocks inode_bitmap_blocks inode_area_blocks data_bitmap_blocks
     data_area_blocks,
   {| inode_bitmap := inode_bitmap;
      data_bitmap :=
        Bitmap_new (w32 (1 + inode_bitmap_blocks + inode_area_blocks)) data_bitmap_blocks;
      inode_area_start_block := w32 (1 + inode_bitmap_blocks);
      data_area_start_block := w32 (1 + inode_total_blocks + data_bitmap_blocks) |}).

(** [EasyFileSystem::create] *)
Definition EasyFileSystem_create (total_blocks inode_bitmap_blocks : Z) : prog EasyFileSystem :=
  let '(sb, efs) := efs_geometry total_blocks inode_bitmap_blocks in
  for_each fill_zero (seqZ 0 total_blocks) ;;;
  get_modify 0 0 (fun _ : SuperBlock => Ret (tt, sb)) ;;;
  let! id := alloc_inode efs in
  lift (assert (id =? 0)) ;;;
  let '(root_block, root_offset) := disk_inode_position efs 0 in
  get_modify root_block root_offset
    (fun di : DiskInode => Ret (tt, DiskInode_init Directory di)) ;;;
  SyncAll (Ret efs).

(** The record that [EasyFileSystem::open] makes of a super block. *)
Definition efs_of_super_block (sb : SuperBlock) : EasyFileSystem :=
  let inode_total_blocks := w32 (inode_bitmap_blocks sb + inode_area_blocks sb) in
  {| inode_bitmap := Bitmap_new 1 (inode_bitmap_blocks sb);
     data_bitmap := Bitmap_new (w32 (1 + inode_total_blocks)) (data_bitmap_blocks sb);
     inode_area_start_block := w32 (1 + inode_bitmap_blocks sb);
     data_area_start_block := w32 (1 + inode_total_blocks + data_bitmap_blocks sb) |}.

(** [EasyFileSystem::open] *)
Definition EasyFileSystem_open : prog EasyFileSystem :=
  get_read 0 0 (fun sb : SuperBlock =>
    lift (assert (SuperBlock_is_valid sb)) ;;;
    Ret (efs_of_super_block sb)).

(** ** Positions of inodes *)

Lemma inode_position_id efs id :
  is_u32 id -> 0 <= inode_area_start_block efs ->
  inode_area_start_block efs + id / 4 < 2 ^ 32 ->
  let '(b, off) := disk_inode_position efs id in disk_inode_id efs b off = id.
Proof.
  unfold is_u32. intros Hid Hs Hb. unfold disk_inode_position, disk_inode_id.
  change inodes_per_block with 4. change inode_size with 128.
  pose proof (Z.div_mod id 4 ltac:(lia)). pose proof (Z.mod_pos_bound id 4 ltac:(lia)).
  assert (0 <= id / 4) by (apply Z.div_pos; lia).
  rewrite (w32_id (inode_area_start_block efs + id / 4)) by (unfold is_u32; lia).
  replace (_ + id / 4 - _) with (id / 4) by lia. rewrite Z.div_mul by lia.
  rewrite (w32_id (id / 4)), (w32_id (id mod 4)), w32_id by (unfold is_u32; lia). lia.
Qed.

(** [disk_inode_id] inverts [disk_inode_position], every inode lies inside
    one block, and the slots of two inodes are different. *)
Theorem disk_inode_position_inverse efs id id' :
  is_u32 id -> is_u32 id' -> 0 <= inode_area_start_block efs ->
  inode_area_start_block efs + id / 4 < 2 ^ 32 ->
  inode_area_start_block efs + id' / 4 < 2 ^ 32 ->
  disk_inode_id efs (disk_inode_position efs id).1 (disk_inode_position efs id).2 = id /\
  fits DiskInode (disk_inode_position efs id).2 /\
  (disk_inode_position efs id = disk_inode_position efs id' -> id = id').
Proof.
  intros Hid Hid' Hs Hb Hb'. pose proof (inode_position_id efs id Hid Hs Hb) as H1.
  pose proof (inode_position_id efs id' Hid' Hs Hb') as H2.
  destruct (disk_inode_position efs id) as [b off] eqn:E.
  destruct (disk_inode_position efs id') as [b' off'] eqn:E'. split_and!; [done| |congruence].
  injection E as _ <-. change inodes_per_block with 4. change inode_size with 128.
  pose proof (Z.mod_pos_bound id 4 ltac:(lia)). unfold fits. cbn [snd type_size DiskInode_repr].
  efs_consts. lia.
Qed.

Lemma disk_inode_position_inverse_witness :
  let efs := (efs_geometry 8192 1).2 in
  disk_inode_id efs (disk_inode_position efs 5).1 (disk_inode_position efs 5).2 = 5 /\
  fits DiskInode (disk_inode_position efs 5).2 /\
  (disk_inode_position efs 5 = disk_inode_position efs 6 -> 5 = 6).
Proof. apply (disk_inode_position_inverse (efs_geometry 8192 1).2 5 6); by vm_compute. Defined.

(** ** The areas *)

(** The device is large enough for the areas, and its block numbers do not
    come near the end of the 32-bit range. *)
Definition device_fits (total ibb : Z) : Prop :=
  0 < ibb /\ 1 + 1025 * ibb < total /\ total < 2 ^ 32 - 4096.

Lemma geometry_values total ibb :
  device_fits total ibb ->
  let dt := total - 1 - 1025 * ibb in
  let dbb := (dt + 4096) / 4097 in
  efs_geometry total ibb =
    (SuperBlock_init total ibb (1024 * ibb) dbb (dt - dbb),
     MkEfs (Bitmap_new 1 ibb) (Bitmap_new (1 + 1025 * ibb) dbb) (1 + ibb) (1 + 1025 * ibb + dbb)) /\
  1 <= dbb <= dt /\ dt - dbb <= dbb * 4096.
Proof.
  intros (Hi & Ht & Hm) dt dbb. unfold efs_geometry, Bitmap_maximum, Bitmap_new. cbn [bitmap_blocks].
  change inode_size with 128. efs_consts.
  assert (div_ceil (ibb * 4096 * 128) 512 = 1024 * ibb) as -> by (apply div_ceil_spec; lia).
  pose proof (Z.div_mod (dt + 4096) 4097 ltac:(lia)).
  pose proof (Z.mod_pos_bound (dt + 4096) 4097 ltac:(lia)). fold dbb in H.
  rewrite (w32_id (1024 * ibb)), (w32_id (ibb + 1024 * ibb)) by (unfold is_u32; lia).
  replace (ibb + 1024 * ibb) with (1025 * ibb) by lia.
  rewrite (w32_id (total - 1 - 1025 * ibb)) by (unfold is_u32; lia). fold dt.
  rewrite (w32_id (dt + 4096)) by (unfold is_u32; lia). fold dbb.
  rewrite !w32_id by (unfold is_u32; lia).
  split; [|lia]. replace (1 + ibb + 1024 * ibb) with (1 + 1025 * ibb) by lia. done.
Qed.

Lemma geometry_reopen total ibb :
  device_fits total ibb ->
  let '(sb, efs) := efs_geometry total ibb in
  SuperBlock_is_valid sb = true /\ efs_of_super_block sb = efs.
Proof.
  intros Hd. destruct (geometry_values total ibb Hd) as (-> & Hdbb & Hcap).
  destruct Hd as (Hi & Ht & Hm). split; [done|].
  unfold efs_of_super_block. cbn -[Z.add Z.mul Z.sub Z.div]. wrap_id.
  f_equal; [f_equal; lia|lia].
Qed.

(** On a device large enough the five areas of the file system follow each
    other without gap or overlap from block 0 to the last block, the inode
    area has a slot for every bit of the inode bitmap, and the data bitmap
    has a bit for every block of the data area. *)
Theorem efs_geometry_tiles total ibb :
  device_fits total ibb ->
  let '(sb, efs) := efs_geometry total ibb in
  start_block_id (inode_bitmap efs) = 1 /\
  inode_area_start_block efs = 1 + bitmap_blocks (inode_bitmap efs) /\
  start_block_id (data_bitmap efs) = inode_area_start_block efs + inode_area_blocks sb /\
  data_area_start_block efs = start_block_id (data_bitmap efs) + bitmap_blocks (data_bitmap efs) /\
  data_area_start_block efs + data_area_blocks sb = total /\
  Bitmap_maximum (inode_bitmap efs) * inode_size = inode_area_blocks sb * BLOCK_SIZE /\
  data_area_blocks sb <= Bitmap_maximum (data_bitmap efs) /\
  efs_of_super_block sb = efs.
Proof.
  intros Hd. pose proof (geometry_reopen total ibb Hd) as Hr.
  destruct (geometry_values total ibb Hd) as (E & Hdbb & Hcap). rewrite E in *.
  destruct Hd as (Hi & Ht & Hm). destruct Hr as [_ Hr].
  unfold Bitmap_maximum. cbn -[Z.add Z.mul Z.sub Z.div].
  change inode_size with 128. efs_consts. split_and!; [lia..|done].
Qed.

Lemma efs_geometry_tiles_witness :
  device_fits 8192 1 /\
  let '(sb, efs) := efs_geometry 8192 1 in data_area_start_block efs + data_area_blocks sb = 8192.
Proof.
  assert (device_fits 8192 1) as H by (unfold device_fits; lia).
  split; [exact H|]. exact (proj1 (proj2 (proj2 (proj2 (proj2 (efs_geometry_tiles 8192 1 H)))))).
Defined.

(** ** Formatting a device *)

Lemma fill_zero_run d i :
  disk_wf d -> i ∉ held d -> room 1 d -> is_Some (blocks d !! i) ->
  run (fill_zero i) d = Ok (tt, Disk (<[i := zero_block]> (blocks d)) (held d)).
Proof.
  intros Hwf Hh Hr [b Hb]. pose proof (Hwf _ _ Hb) as Hl. unfold fill_zero.
  assert (write_ref b 0 (Bytes (n := 512) (replicate 512 Byte.x00)) = zero_block) as Ew
    by (by apply (write_ref_bytes b)).
  etransitivity; [|by rewrite <- Ew].
  eapply run_get_modify; [done|done|done|by apply as_ref_bytes|reflexivity|]. by rewrite Ew.
Qed.

Lemma fill_all l : forall d,
  disk_wf d -> held d = ∅ -> Forall (fun i => is_Some (blocks d !! i)) l ->
  exists bs, run (for_each fill_zero l) d = Ok (tt, Disk bs ∅) /\ disk_wf (Disk bs ∅) /\
    forall i, bs !! i = if decide (i ∈ l) then Some zero_block else blocks d !! i.
Proof.
  induction l as [|x l IH]; intros d Hwf Hh Hl.
  { exists (blocks d). destruct d as [bs h]. simpl in *. subst h. split_and!; try done. }
  apply Forall_cons in Hl as [Hx Hl]. cbn [for_each fold_prog]. unfold for_each. cbn [fold_prog].
  assert (room 1 d) as Hr by (unfold room; rewrite Hh, size_empty; efs_consts; lia).
  rewrite (run_bind_Ok _ _ _ _ _ (fill_zero_run d x Hwf ltac:(rewrite Hh; set_solver) Hr Hx)).
  destruct (IH (Disk (<[x := zero_block]> (blocks d)) (held d))) as (bs & Hrun & Hwf' & Hbs); try done.
  { by apply map_Forall_insert_2. }
  { eapply Forall_impl; [exact Hl|]. intros i Hi. simpl.
    destruct (decide (i = x)) as [->|]; [rewrite lookup_insert_eq; eauto|by rewrite lookup_insert_ne]. }
  exists bs. split_and!; [done|done|]. intros i. rewrite Hbs. simpl.
  destruct (decide (i ∈ l)) as [Hi|Hi].
  { by rewrite decide_True by (by apply list_elem_of_further). }
  destruct (decide (i = x)) as [->|Hne].
  - rewrite decide_True by apply list_elem_of_here. by rewrite lookup_insert_eq.
  - rewrite lookup_insert_ne, decide_False; [done|by rewrite elem_of_cons; intros [|]|done].
Qed.

Lemma block_bit_zero i : 0 <= i < BLOCK_BITS -> block_bit zero_block i = false.
Proof.
  intros Hi. unfold block_bit, zero_block. rewrite words_get_zero, lookup_total_replicate_2.
  - apply Z.testbit_0_l.
  - efs_consts. assert (i / 64 < 64) by (apply Z.div_lt_upper_bound; lia). lia.
Qed.

(** The blocks [0 .. total) are on the device and nothing is locked. *)
Definition on_device (d : disk) (total : Z) : Prop :=
  disk_wf d /\ held d = ∅ /\ forall i, 0 <= i < total -> is_Some (blocks d !! i).

(** The inode of an empty root directory. *)
Definition root_disk_inode : DiskInode := MkDiskInode Directory 0 (replicate 27 0) 0 0 0.

Lemma root_disk_inode_wf : type_wf root_disk_inode.
Proof.
  split; [done|]. constructor; [done|]. by apply Forall_app; split; [apply Forall_replicate|repeat constructor].
Qed.

(** A freshly formatted device. *)
Definition formatted (d : disk) (total : Z) (sb : SuperBlock) (efs : EasyFileSystem) : Prop :=
  on_device d total /\
  (exists b, blocks d !! 0 = Some b /\ as_ref b 0 = Ok sb) /\
  (forall j, 0 <= j < Bitmap_maximum (inode_bitmap efs) ->
     bit_at (inode_bitmap efs) d j = (j =? 0)) /\
  blocks d !! inode_area_start_block efs = Some (write_ref zero_block 0 root_disk_inode) /\
  forall i, inode_area_start_block efs < i < total -> blocks d !! i = Some zero_block.

(** The super block written, all else zero. *)
Lemma create_super d sb :
  disk_wf d -> held d = ∅ -> type_wf sb -> blocks d !! 0 = Some zero_block ->
  exists b, run (get_modify 0 0 (fun _ : SuperBlock => Ret (tt, sb))) d =
      Ok (tt, Disk (<[0 := b]> (blocks d)) (held d)) /\
    length b = Z.to_nat BLOCK_SIZE /\ as_ref b 0 = Ok sb.
Proof.
  intros Hwf Hh Hsb H0. exists (write_ref zero_block 0 sb).
  assert (fits SuperBlock 0) as Hfit by (unfold fits; cbn; efs_consts; lia).
  split_and!; [|by apply length_write_ref|by apply as_write_ref].
  eapply run_get_modify; [rewrite Hh; set_solver| |done|by vm_compute|reflexivity|].
  - unfold room. rewrite Hh, size_empty. efs_consts. lia.
  - by apply length_write_ref.
Qed.

Lemma alloc_bit0 bm d :
  bitmap_ready bm d -> 0 < bitmap_blocks bm -> bit_at bm d 0 = false ->
  exists d', run (Bitmap_alloc bm) d = Ok (Some 0, d') /\ bit_set bm 0 true d d'.
Proof.
  intros Hr Hn H0. unfold Bitmap_alloc. rewrite <- (Z2Nat.id (bitmap_blocks bm)) by lia.
  destruct (alloc_from_spec bm (Z.to_nat (bitmap_blocks bm)) 0 d) as (r & d' & Hrun & Hspec);
    [lia|lia|done|]. exists d'. unfold Bitmap_maximum in Hspec. efs_consts.
  destruct r as [i|].
  - destruct Hspec as (Hi & _ & Hbelow & Hset). assert (i = 0) as ->; [|done].
    destruct (decide (i = 0)) as [|Hne]; [done|]. rewrite Hbelow in H0 by lia. done.
  - destruct Hspec as [_ Hall]. rewrite Hall in H0 by lia. done.
Qed.

Lemma root_init d b :
  disk_wf d -> held d = ∅ -> blocks d !! b = Some zero_block ->
  run (get_modify b 0 (fun di : DiskInode => Ret (tt, DiskInode_init Directory di))) d =
    Ok (tt, Disk (<[b := write_ref zero_block 0 root_disk_inode]> (blocks d)) (held d)) /\
  length (write_ref zero_block 0 root_disk_inode) = Z.to_nat BLOCK_SIZE.
Proof.
  intros Hwf Hh Hb. assert (fits DiskInode 0) as Hfit by (unfold fits; cbn; efs_consts; lia).
  assert (length (write_ref zero_block 0 root_disk_inode) = Z.to_nat BLOCK_SIZE) as Hl
    by (apply length_write_ref; [done|done|apply root_disk_inode_wf]).
  split; [|done]. eapply run_get_modify; [rewrite Hh; set_solver| |done|by vm_compute|reflexivity|done].
  unfold room. rewrite Hh, size_empty. efs_consts. lia.
Qed.

(** The zeroed device after the super block: the inode bitmap is empty. *)
Lemma zeroed_bitmap d bm total :
  disk_wf d -> held d = ∅ -> 0 < start_block_id bm -> start_block_id bm + bitmap_blocks bm <= total ->
  (forall i, 0 < i < total -> blocks d !! i = Some zero_block) ->
  bitmap_ready bm d /\ forall j, 0 <= j < Bitmap_maximum bm -> bit_at bm d j = false.
Proof.
  intros Hwf Hh Hs Ht Hz. split.
  - split; [unfold room; rewrite Hh, size_empty; efs_consts; lia|]. intros k Hk.
    split; [rewrite Hh; set_solver|]. exists zero_block. split; [apply Hz; lia|done].
  - intros j Hj. unfold bit_at, Bitmap_maximum in *. efs_consts.
    assert (0 <= j / 4096 < bitmap_blocks bm).
    { split; [apply Z.div_pos; lia|apply Z.div_lt_upper_bound; lia]. }
    rewrite Hz by lia. apply block_bit_zero. efs_consts. apply Z.mod_pos_bound. lia.
Qed.

Lemma create_run d total ibb :
  device_fits total ibb -> on_device d total ->
  let '(sb, efs) := efs_geometry total ibb in
  exists d', run (EasyFileSystem_create total ibb) d = Ok (efs, d') /\ formatted d' total sb efs.
Proof.
  intros Hfit (Hwf & Hh & Hdev). unfold EasyFileSystem_create.
  destruct (geometry_values total ibb Hfit) as (-> & Hdbb & Hcap).
  destruct Hfit as (Hi & Ht & Hm). set (dt := total - 1 - 1025 * ibb) in *.
  set (dbb := (dt + 4096) / 4097) in *. set (sb := SuperBlock_init _ _ _ _ _).
  set (efs := MkEfs _ _ _ _).
  assert (type_wf sb) as Hsb.
  { change (Forall is_u32 [EFS_MAGIC; total; ibb; 1024 * ibb; dbb; dt - dbb]).
    rewrite !Forall_cons, Forall_nil. unfold is_u32, EFS_MAGIC. lia. }
  destruct (fill_all (seqZ 0 total) d Hwf Hh) as (bs & Hrun1 & Hwf1 & Hbs).
  { apply Forall_forall. intros i Hix%elem_of_seqZ. apply Hdev. lia. }
  assert (forall i, 0 <= i < total -> bs !! i = Some zero_block) as Hz.
  { intros i Hix. rewrite Hbs, decide_True; [done|]. apply elem_of_seqZ. lia. }
  destruct (create_super (Disk bs ∅) sb) as (b0 & Hrun2 & Hl0 & Hr0); try done; [apply Hz; lia|].
  cbn [blocks held] in Hrun2.
  set (d2 := Disk (<[0 := b0]> bs) ∅) in *.
  assert (disk_wf d2) as Hwf2 by (by apply map_Forall_insert_2).
  assert (forall i, 0 < i < total -> blocks d2 !! i = Some zero_block) as Hz2.
  { intros i Hix. unfold d2. cbn [blocks]. rewrite lookup_insert_ne by lia. apply Hz. lia. }
  destruct (zeroed_bitmap d2 (inode_bitmap efs) total) as [Hready Hbits]; try done.
  { cbn. lia. }
  destruct (alloc_bit0 (inode_bitmap efs) d2 Hready) as (d3 & Hrun3 & Hset); [done| |].
  { apply Hbits. unfold Bitmap_maximum. cbn. efs_consts. lia. }
  pose proof Hset as (Hh3 & (b1 & Hl1 & Hb1) & Hbits3).
  change (start_block_id (inode_bitmap efs)) with 1 in Hb1. change (0 / BLOCK_BITS) with 0 in Hb1.
  assert (disk_wf d3) as Hwf3 by (unfold disk_wf; rewrite Hb1; by apply map_Forall_insert_2).
  destruct (root_init d3 (1 + ibb) Hwf3 Hh3) as (Hrun4 & Hlr).
  { rewrite Hb1, lookup_insert_ne by lia. apply Hz2. lia. }
  set (br := write_ref zero_block 0 root_disk_inode) in *.
  exists (Disk (<[1 + ibb := br]> (blocks d3)) (held d3)). split.
  - rewrite (run_bind_Ok _ _ _ _ _ Hrun1), (run_bind_Ok _ _ _ _ _ Hrun2).
    unfold alloc_inode. rewrite run_bind, (run_bind_Ok _ _ _ _ _ Hrun3). cbn [unwrap lift bind run res_bind].
    change (w32 0) with 0. cbn [Z.eqb assert lift bind].
    replace (disk_inode_position efs 0) with (1 + ibb, 0).
    2:{ unfold disk_inode_position. cbn. rewrite Z.add_0_r. wrap_id. done. }
    rewrite (run_bind_Ok _ _ _ _ _ Hrun4). cbn. unfold disk_sync_all. cbn. rewrite Hh3.
    by rewrite decide_True.
  - unfold formatted. cbn [blocks held].
    change (inode_area_start_block efs) with (1 + ibb).
    rewrite Hb1. split_and!; try done.
    + split_and!; [|done|].
      * unfold disk_wf. cbn [blocks]. do 2 (apply map_Forall_insert_2; [done|]). done.
      * intros i Hix. cbn [blocks]. do 2 (rewrite lookup_insert_is_Some'; right). unfold d2. cbn [blocks].
        rewrite lookup_insert_is_Some'. right. rewrite Hz by done. by eexists.
    + exists b0. rewrite !lookup_insert_ne by lia. cbn. by rewrite lookup_insert_eq.
    + intros j Hj. rewrite (bit_at_frame _ d3); [|intros k Hk|done].
      * rewrite Hbits3. destruct (j =? 0); [done|]. by apply Hbits.
      * cbn [blocks]. rewrite Hb1, lookup_insert_ne; [done|]. cbn in Hk |- *. lia.
    + by rewrite lookup_insert_eq.
    + intros i Hix. rewrite !lookup_insert_ne by lia. apply Hz2. lia.
Qed.

(** [create] on a device large enough succeeds and leaves a formatted
    device: a valid super block, only bit 0 of the inode bitmap set, an empty
    root directory in the slot of inode 0, and zeroes in the rest of the inode area, the
    data bitmap and the data area; [open] of this device then gives the very
    same file system. *)
Theorem create_open_roundtrip d total ibb :
  device_fits total ibb -> on_device d total ->
  let '(sb, efs) := efs_geometry total ibb in
  exists d', run (EasyFileSystem_create total ibb) d = Ok (efs, d') /\
    formatted d' total sb efs /\ run EasyFileSystem_open d' = Ok (efs, d').
Proof.
  intros Hfit Hdev. pose proof (create_run d total ibb Hfit Hdev) as Hc.
  pose proof (geometry_reopen total ibb Hfit) as Hg.
  destruct (efs_geometry total ibb) as [sb efs]. destruct Hc as (d' & Hrun & Hfmt).
  exists d'. split_and!; [done|done|]. destruct Hg as [Hv Hg].
  destruct Hfmt as ((_ & Hh & _) & (b & Hb & Hsb) & _).
  assert (d' = Disk (blocks d') (held d')) as E by (by destruct d'). rewrite E at 2.
  eapply run_get_read; [rewrite Hh; set_solver| |exact Hb|exact Hsb|].
  - unfold room. rewrite Hh, size_empty. efs_consts. lia.
  - rewrite Hv. cbn [assert lift bind run]. by rewrite Hg.
Qed.

Lemma create_open_roundtrip_witness :
  exists d', run (EasyFileSystem_create 2048 1) (blank_disk 2048) = Ok ((efs_geometry 2048 1).2, d') /\
    formatted d' 2048 (efs_geometry 2048 1).1 (efs_geometry 2048 1).2 /\
    run EasyFileSystem_open d' = Ok ((efs_geometry 2048 1).2, d').
Proof.
  apply (create_open_roundtrip (blank_disk 2048) 2048 1); [unfold device_fits; lia|].
  split_and!; [apply blank_wf|done|]. intros i Hi. rewrite blank_lookup by done. by exists zero_block.
Defined.
