(* ===== verification/Vfs.v ===== *)
(** * Inodes of the virtual file system

    [easy-fs/src/vfs.rs]: files and directories over the disk inodes.  Every
    operation runs under [fs.lock()] and accesses the inode inside
    [read_disk_inode] or [modify_disk_inode], with the block of the inode
    locked; the model nests the accesses the same way. *)

From S2P Require Import Prelude Bytes Config BlockStore Bitmap Layout Efs.

Record Inode := MkInode {
  block_id : Z;
  block_offset : Z;
  fs : EasyFileSystem;
}.

Definition Inode_new (pos : Z * Z) (fs : EasyFileSystem) : Inode :=
  {| block_id := pos.1; block_offset := pos.2; fs := fs |}.

(** [EasyFileSystem::root_inode] *)
Definition root_inode (efs : EasyFileSystem) : Inode :=
  Inode_new (disk_inode_position efs 0) efs.

(** [Inode::read_disk_inode], [Inode::modify_disk_inode] *)
Definition read_disk_inode {V} (self : Inode) (f : DiskInode -> prog V) : prog V :=
  get_read (block_id self) (block_offset self) f.
Definition modify_disk_inode {V} (self : Inode) (f : DiskInode -> prog (V * DiskInode)) : prog V :=
  get_modify (block_id self) (block_offset self) f.

(** [for _ in 0..n { v.push(fs.alloc_data()) }] *)
Fixpoint alloc_many (efs : EasyFileSystem) (n : nat) : prog (list Z) :=
  match n with
  | O => Ret []
  | S n =>
      let! b := alloc_data efs in
      let! v := alloc_many efs n in
      Ret (b :: v)
  end.

(** [Inode::increase_size] *)
Definition Inode_increase_size (self : Inode) (new_size : Z) (di : DiskInode) : prog DiskInode :=
  if new_size <? size di then Ret di
  else
    let! blocks_needed := lift (blocks_num_needed di new_size) in
    let! v := alloc_many (fs self) (Z.to_nat blocks_needed) in
    DiskInode_increase_size di new_size v.

(** [Inode::decrease_size] *)
Definition Inode_decrease_size (self : Inode) (new_size : Z) (di : DiskInode) : prog DiskInode :=
  if size di <=? new_size then Ret di
  else
    let! (di, dropped) := DiskInode_decrease_size di new_size in
    for_each (dealloc_data (fs self)) dropped ;;;
    Ret di.

Definition file_count (di : DiskInode) : Z := size di / DIRENT_SIZE.

(** The loop of [Inode::find_inode_id] over the indices left; [dirent] is the
    entry's buffer. *)
Fixpoint find_loop (nm : list u8) (di : DiskInode) (idxs : list Z) (dirent : DirEntry) :
    prog (option Z) :=
  match idxs with
  | [] => Ret None
  | i :: idxs =>
      let! (n, bs) := DiskInode_read_at di (DIRENT_SIZE * i) (as_bytes dirent) in
      lift (assert (n =? DIRENT_SIZE)) ;;;
      let dirent := DirEntry_of_bytes bs in
      let! nm' := lift (DirEntry_name dirent) in
      if bool_decide (nm' = nm) then Ret (Some (inode_number dirent))
      else find_loop nm di idxs dirent
  end.

(** [Inode::find_inode_id] *)
Definition find_inode_id (nm : list u8) (di : DiskInode) : prog (option Z) :=
  lift (assert (is_dir di)) ;;;
  find_loop nm di (seqZ 0 (file_count di)) DirEntry_empty.

(** [Inode::find] *)
Definition Inode_find (self : Inode) (nm : list u8) : prog (option Inode) :=
  read_disk_inode self (fun di =>
    let! o := find_inode_id nm di in
    Ret (option_map (fun id => Inode_new (disk_inode_position (fs self) id) (fs self)) o)).

(** [Inode::create_inode] *)
Definition create_inode (self : Inode) (nm : list u8) (k : DiskInodeKind) : prog (option Inode) :=
  let! found := read_disk_inode self (fun di =>
    lift (assert (is_dir di)) ;;; find_inode_id nm di) in
  match found with
  | Some _ => Ret None
  | None =>
      let! new_inode_id := alloc_inode (fs self) in
      let '(new_block, new_offset) := disk_inode_position (fs self) new_inode_id in
      get_modify new_block new_offset
        (fun di : DiskInode => Ret (tt, DiskInode_init k di)) ;;;
      modify_disk_inode self (fun dir_inode =>
        let count := file_count dir_inode in
        let new_size := (count + 1) * DIRENT_SIZE in
        let! dir_inode := Inode_increase_size self (w32 new_size) dir_inode in
        let! dirent := lift (DirEntry_new nm new_inode_id) in
        let! _ := DiskInode_write_at dir_inode (count * DIRENT_SIZE) (as_bytes dirent) in
        Ret (tt, dir_inode)) ;;;
      SyncAll (Ret (Some (Inode_new (disk_inode_position (fs self) new_inode_id) (fs self))))
  end.

(** [Inode::create] *)
Definition Inode_create (self : Inode) (nm : list u8) : prog (option Inode) :=
  create_inode self nm File.

(** [Inode::inode_id] *)
Definition inode_id (self : Inode) : Z :=
  disk_inode_id (fs self) (w32 (block_id self)) (block_offset self).

Definition dot : list u8 := [Byte.x2e].
Definition dotdot : list u8 := [Byte.x2e; Byte.x2e].

(** [Inode::set_default_dirent] *)
Definition set_default_dirent (self : Inode) (parent_inode_id : Z) : prog () :=
  modify_disk_inode self (fun cur =>
    let! cur := Inode_increase_size self (2 * DIRENT_SIZE) cur in
    let! dirent_self := lift (DirEntry_new dot (inode_id self)) in
    let! _ := DiskInode_write_at cur 0 (as_bytes dirent_self) in
    let! dirent_parent := lift (DirEntry_new dotdot parent_inode_id) in
    let! _ := DiskInode_write_at cur DIRENT_SIZE (as_bytes dirent_parent) in
    Ret (tt, cur)).

(** [Inode::create_dir] *)
Definition Inode_create_dir (self : Inode) (nm : list u8) : prog (option Inode) :=
  let! o := create_inode self nm Directory in
  match o with
  | None => Ret None
  | Some inode => set_default_dirent inode (inode_id self) ;;; Ret (Some inode)
  end.

(** [Inode::clear] *)
Definition Inode_clear (self : Inode) : prog () :=
  modify_disk_inode self (fun di =>
    let old_size := size di in
    let! (di, dealloc) := DiskInode_clear_size di in
    lift (assert (Z.of_nat (length dealloc) =? count_total_block old_size)) ;;;
    for_each (dealloc_data (fs self)) dealloc ;;;
    Ret (tt, di)) ;;;
  SyncAll (Ret tt).

(** [Inode::read_at] *)
Definition Inode_read_at (self : Inode) (offset : Z) (buf : list u8) : prog (Z * list u8) :=
  read_disk_inode self (fun di => DiskInode_read_at di offset buf).

(** [Inode::write_at] *)
Definition Inode_write_at (self : Inode) (offset : Z) (buf : list u8) : prog Z :=
  let! n := modify_disk_inode self (fun di =>
    lift (assert (is_file di)) ;;;
    let! di := Inode_increase_size self (w32 (w64 (offset + Z.of_nat (length buf)))) di in
    let! n := DiskInode_write_at di offset buf in
    Ret (n, di)) in
  SyncAll (Ret n).

(** The loop of [Inode::delete]: it goes on after a hit, with the shortened
    directory. *)
Fixpoint delete_loop (self : Inode) (nm : list u8) (count : Z) (last_dirent : DirEntry)
    (idxs : list Z) (di : DiskInode) : prog DiskInode :=
  match idxs with
  | [] => Ret di
  | i :: idxs =>
      let! (_, bs) := DiskInode_read_at di (i * DIRENT_SIZE) (as_bytes DirEntry_empty) in
      let dirent := DirEntry_of_bytes bs in
      let! nm' := lift (DirEntry_name dirent) in
      let! di :=
        if bool_decide (nm' = nm) then
          dealloc_inode (fs self) (inode_number dirent) ;;;
          let! _ := DiskInode_write_at di (i * DIRENT_SIZE) (as_bytes last_dirent) in
          let new_size := (count - 1) * DIRENT_SIZE in
          Inode_decrease_size self (w32 new_size) di
        else Ret di in
      delete_loop self nm count last_dirent idxs di
  end.

(** [Inode::delete] *)
Definition Inode_delete (self : Inode) (nm : list u8) : prog () :=
  modify_disk_inode self (fun dir_inode =>
    lift (assert (is_dir dir_inode)) ;;;
    let! _ := find_inode_id nm dir_inode in
    let! (_, bs) := DiskInode_read_at dir_inode (w64 (size dir_inode - DIRENT_SIZE))
                      (as_bytes DirEntry_empty) in
    let last_dirent := DirEntry_of_bytes bs in
    let count := file_count dir_inode in
    let! dir_inode := delete_loop self nm count last_dirent (seqZ 0 count) dir_inode in
    Ret (tt, dir_inode)).

(** [Inode::file_size], [Inode::is_dir], [Inode::is_file] *)
Definition file_size (self : Inode) : prog Z := read_disk_inode self (fun di => Ret (size di)).
Definition Inode_is_dir (self : Inode) : prog bool := read_disk_inode self (fun di => Ret (is_dir di)).
Definition Inode_is_file (self : Inode) : prog bool := read_disk_inode self (fun di => Ret (is_file di)).
