(* ===== verification/VfsSpec.v ===== *)
(** * What the inode operations do

    The state of a file system that an operation on one inode relies on, and
    the effect of [Inode::increase_size], [write_at], [read_at] and [clear]
    on it: the blocks that become the inode's come from the free blocks of
    the data bitmap, and nothing but the inode, its blocks and the bitmap is
    written. *)

From S2P Require Import Prelude Bytes Config BlockStore Bitmap Layout BlockTree InodeForest.
From S2P Require Import LayoutGrow LayoutClear LayoutIO Efs Vfs.

(** A bit set in the bitmap changes one bitmap block. *)
Lemma bit_set_frame bm i v d d' :
  bitmap_ready bm d -> 0 <= i < Bitmap_maximum bm -> bit_set bm i v d d' ->
  same_except (seqZ (start_block_id bm) (bitmap_blocks bm)) d d'.
Proof.
  intros Hd Hi (Hh & (b' & Hl & Hb) & _). unfold Bitmap_maximum in Hi.
  assert (0 <= i / BLOCK_BITS < bitmap_blocks bm) as Hk.
  { efs_consts. split; [apply Z.div_pos; lia|apply Z.div_lt_upper_bound; lia]. }
  destruct (proj2 Hd _ Hk) as (_ & b & Hb0 & _).
  split_and!; [done| | |].
  - rewrite Hb, dom_insert_L. assert (start_block_id bm + i / BLOCK_BITS ∈ dom (blocks d)).
    { by apply elem_of_dom; exists b. } set_solver.
  - intros Hwf. unfold disk_wf. rewrite Hb. by apply map_Forall_insert_2.
  - intros j Hj. rewrite Hb, lookup_insert_ne; [done|]. intros <-. apply Hj.
    apply elem_of_seqZ. lia.
Qed.

(** ** Free blocks *)

Section free.
Context (bm : Bitmap) (area : Z).
Hypothesis Harea : 0 <= area <= Bitmap_maximum bm.

(** The clear bits below [area], in order. *)
Definition free_bits (d : disk) : list Z :=
  filter (fun i => bit_at bm d i = false) (seqZ 0 area).

(** The lowest clear bit is the first free one; setting it leaves the others. *)
Lemma free_bits_alloc d d' i :
  0 <= i < area -> bit_at bm d i = false -> (forall j, 0 <= j < i -> bit_at bm d j = true) ->
  (forall j, bit_at bm d' j = if j =? i then true else bit_at bm d j) ->
  free_bits d = i :: free_bits d'.
Proof.
  intros Hi Hb Hlow Hset. unfold free_bits.
  replace area with (i + (1 + (area - i - 1))) by lia.
  rewrite !seqZ_app by lia. rewrite !filter_app, !(filter_none _ (seqZ 0 i)).
  - change (seqZ (0 + i) 1) with [0 + i]. rewrite Z.add_0_l. cbn [app].
    rewrite !filter_cons, !filter_nil, decide_True by done.
    rewrite decide_False by (rewrite Hset, Z.eqb_refl; done). cbn [app]. f_equal.
    apply filter_ext_in. intros j Hj%elem_of_seqZ. rewrite Hset.
    destruct (Z.eqb_spec j i); [lia|done].
  - intros j Hj%elem_of_seqZ. rewrite Hset, Hlow by lia. by destruct (j =? i).
  - intros j Hj%elem_of_seqZ. rewrite Hlow by lia. done.
Qed.

Lemma free_bits_elem d i : i ∈ free_bits d <-> 0 <= i < area /\ bit_at bm d i = false.
Proof. unfold free_bits. rewrite list_elem_of_filter, elem_of_seqZ. split; intros [? ?]; split; (done || lia). Qed.

(** [Bitmap::alloc] takes the first free bit. *)
Lemma Bitmap_alloc_free d i l :
  bitmap_ready bm d -> 0 <= bitmap_blocks bm -> free_bits d = i :: l ->
  exists d', run (Bitmap_alloc bm) d = Ok (Some i, d') /\ bit_set bm i true d d' /\ free_bits d' = l.
Proof.
  intros Hb Hn Hf. assert (i ∈ free_bits d) as Hi by (rewrite Hf; by left).
  apply free_bits_elem in Hi as [Hi Hib].
  destruct (alloc_from_spec bm (Z.to_nat (bitmap_blocks bm)) 0 d) as (r & d' & Hrun & Hr);
    [lia|lia|done|]. rewrite Z2Nat.id in Hrun by lia. efs_consts.
  destruct r as [i'|]; [|by destruct Hr as [_ Hr]; rewrite Hr in Hib by lia].
  destruct Hr as (Hi' & Hib' & Hlow & Hset). pose proof Hset as (_ & _ & Hbits).
  assert (i' <= i).
  { destruct (Z.le_gt_cases i' i); [done|]. rewrite Hlow in Hib by lia. done. }
  assert (free_bits d = i' :: free_bits d') as Hf' by (apply free_bits_alloc; (done || lia || auto)).
  rewrite Hf in Hf'. injection Hf' as <- Hl. by exists d'.
Qed.
End free.

(** ** The data area *)

Section data_area.
Context (efs : EasyFileSystem) (area : Z).

Abbreviation dbm := (data_bitmap efs).
Abbreviation start := (data_area_start_block efs).

(** The blocks of the data bitmap. *)
Definition bitmap_range : list Z := seqZ (start_block_id dbm) (bitmap_blocks dbm).
Definition in_area (b : Z) : Prop := start <= b < start + area.

(** The data bitmap and the [area] blocks behind it are on the disk, with
    nothing of them locked. *)
Record data_ready (d : disk) : Prop := {
  dr_bitmap : bitmap_ready dbm d;
  dr_area : 0 <= area <= Bitmap_maximum dbm;
  dr_start : 0 <= start_block_id dbm /\ start_block_id dbm + bitmap_blocks dbm <= start;
  dr_end : start + area <= 2 ^ 32;
  dr_wf : disk_wf d;
  dr_blocks : forall b, in_area b -> (b ∉ held d) /\ is_Some (blocks d !! b);
}.

Definition free_data (d : disk) : list Z := free_bits dbm area d.

Lemma data_ready_blocks d : data_ready d -> 0 <= bitmap_blocks dbm.
Proof.
  intros [_ Ha Hs _ _ _]. unfold Bitmap_maximum in Ha. efs_consts.
  destruct (Z.le_gt_cases 0 (bitmap_blocks dbm)); [done|]. nia.
Qed.

Lemma bit_set_same i v d d' :
  data_ready d -> 0 <= i < Bitmap_maximum dbm -> bit_set dbm i v d d' ->
  same_except bitmap_range d d'.
Proof. intros Hd. apply bit_set_frame, Hd. Qed.

Lemma data_ready_same X d d' :
  same_except X d d' -> data_ready d -> data_ready d'.
Proof.
  intros Hs [Hb ? ? ? Hwf Hbl]. pose proof Hs as (Hh & Hdom & Hwf' & _). split; try done.
  - destruct Hb as [Hr Hk]. split; [unfold room in *; by rewrite Hh|]. intros k Hkr.
    destruct (Hk k Hkr) as (? & b & Hb & _). rewrite Hh. split; [done|].
    destruct (same_except_lookup _ _ _ _ Hs ltac:(by exists b)) as [b' Hb'].
    exists b'. split; [done|]. by apply (Hwf' Hwf _ _ Hb').
  - by apply Hwf'.
  - intros b Hin. rewrite Hh. destruct (Hbl b Hin). split; [done|]. by eapply same_except_lookup.
Qed.

Lemma alloc_data_run d i l :
  data_ready d -> free_data d = i :: l ->
  exists d', run (alloc_data efs) d = Ok (start + i, d') /\ bit_set dbm i true d d' /\
    free_data d' = l.
Proof.
  intros Hd Hf. pose proof (data_ready_blocks d Hd) as Hn. destruct Hd as [Hb Ha Hs He Hwf Hbl].
  destruct (Bitmap_alloc_free dbm area Ha d i l Hb Hn Hf) as (d' & Hrun & Hset & Hl).
  assert (i ∈ free_data d) as [Hi _]%free_bits_elem by (rewrite Hf; by left).
  exists d'. split_and!; try done.
  unfold alloc_data. rewrite (run_bind_Ok _ _ _ _ _ Hrun). cbn [unwrap lift bind run].
  rewrite (w32_id i) by (unfold is_u32; lia). rewrite w32_id by (unfold is_u32; lia).
  do 2 f_equal. lia.
Qed.

Lemma alloc_many_run n : forall d,
  data_ready d -> (n <= length (free_data d))%nat ->
  exists d', run (alloc_many efs n) d = Ok (Z.add start <$> take n (free_data d), d') /\
    same_except bitmap_range d d' /\ free_data d' = drop n (free_data d) /\
    forall j, bit_at dbm d' j = (bool_decide (j ∈ take n (free_data d)) || bit_at dbm d j)%bool.
Proof.
  induction n as [|n IH]; intros d Hd Hn.
  { exists d. by split_and!. }
  destruct (free_data d) as [|i l] eqn:Hf; [simpl in Hn; lia|].
  destruct (alloc_data_run d i l Hd Hf) as (d1 & Hrun & Hset & Hl).
  assert (i ∈ free_data d) as [Hi _]%free_bits_elem by (rewrite Hf; by left).
  pose proof (dr_area _ Hd). pose proof (bit_set_same i true d d1 Hd ltac:(lia) Hset) as Hs1.
  destruct (IH d1) as (d' & Hrun' & Hs2 & Hf2 & Hb2).
  { by eapply data_ready_same. }
  { rewrite Hl. simpl in Hn. lia. }
  rewrite Hl in *. exists d'. split_and!.
  - cbn [alloc_many]. rewrite (run_bind_Ok _ _ _ _ _ Hrun), (run_bind_Ok _ _ _ _ _ Hrun'). done.
  - eapply same_except_weaken; [|by eapply same_except_trans]. set_solver.
  - done.
  - intros j. rewrite Hb2. destruct Hset as (_ & _ & Hbits). rewrite Hbits. cbn [take].
    destruct (Z.eqb_spec j i) as [->|Hne].
    + rewrite (bool_decide_true (i ∈ i :: _)) by (by left). by rewrite orb_true_r.
    + f_equal. apply bool_decide_ext. rewrite elem_of_cons. naive_solver.
Qed.

(** Writes outside the bitmap keep its bits. *)
Lemma free_data_frame X d d' :
  same_except X d d' -> X ## bitmap_range -> 0 <= area <= Bitmap_maximum dbm ->
  free_data d' = free_data d /\
  forall j, 0 <= j < Bitmap_maximum dbm -> bit_at dbm d' j = bit_at dbm d j.
Proof.
  intros (_ & _ & _ & Hs) Hd Ha.
  assert (forall j, 0 <= j < Bitmap_maximum dbm -> bit_at dbm d' j = bit_at dbm d j) as Hb.
  { intros j Hj. apply bit_at_frame; [|done]. intros k Hk. apply Hs. intros Hin.
    apply (Hd _ Hin). apply elem_of_seqZ. lia. }
  split; [|done]. apply filter_ext_in. intros j Hj%elem_of_seqZ. by rewrite Hb by lia.
Qed.

(** An inode with forest [f] owns blocks of the data area whose bits are set. *)
Record owner (d : disk) (di : DiskInode) (f : forest) : Prop := {
  ow_ready : data_ready d;
  ow_ok : forest_ok d di f;
  ow_nodup : NoDup (all_blocks f);
  ow_area : Forall (fun b => in_area b /\ bit_at dbm d (b - start) = true) (all_blocks f);
}.

Lemma in_area_avail d b :
  data_ready d -> in_area b -> is_u32 b /\ (b ∉ held d) /\ is_Some (blocks d !! b).
Proof.
  intros Hd Hb. destruct (dr_blocks _ Hd b Hb) as [? ?]. split_and!; try done.
  pose proof (data_ready_blocks d Hd). destruct Hd as [_ _ Hs He _ _].
  unfold in_area, is_u32 in *. lia.
Qed.

Lemma owner_avail d di f : owner d di f -> avail d (all_blocks f).
Proof.
  intros [Hd _ Hnd Ha]. split; [done|]. eapply Forall_impl; [exact Ha|]. intros b [Hb _].
  by apply in_area_avail.
Qed.

Lemma owner_readable d di f : owner d di f -> readable di f d.
Proof.
  intros Ho. split; [apply Ho|apply (ow_ready _ _ _ Ho)|apply (dr_bitmap _ (ow_ready _ _ _ Ho))|].
  by eapply owner_avail.
Qed.

Lemma area_not_bitmap d b : data_ready d -> in_area b -> b ∉ bitmap_range.
Proof. intros [_ _ Hs _ _ _] Hb Hin%elem_of_seqZ. unfold in_area in Hb. lia. Qed.

Lemma free_avail d n : data_ready d -> Forall in_area (Z.add start <$> take n (free_data d)).
Proof.
  intros Hd. apply Forall_forall. intros b (i & -> & Hi)%list_elem_of_fmap.
  apply elem_of_take in Hi as (k & Hi%list_elem_of_lookup_2 & _).
  apply free_bits_elem in Hi as [Hi _].
  unfold in_area. lia.
Qed.

Lemma meta_data_all f b : b ∈ meta_blocks f \/ b ∈ data_blocks f -> b ∈ all_blocks f.
Proof. intros Hb. rewrite <- data_meta_blocks, elem_of_app. tauto. Qed.

(** The new blocks are free before and set after; the old ones stay set. *)
Lemma grown_area d d1 d2 di f f' n :
  owner d di f ->
  (forall j, bit_at dbm d1 j = (bool_decide (j ∈ take n (free_data d)) || bit_at dbm d j)%bool) ->
  (forall j, 0 <= j < Bitmap_maximum dbm -> bit_at dbm d2 j = bit_at dbm d1 j) ->
  all_blocks f' ≡ₚ all_blocks f ++ (Z.add start <$> take n (free_data d)) ->
  Forall (fun b => in_area b /\ bit_at dbm d2 (b - start) = true) (all_blocks f').
Proof.
  intros [Hd _ _ Ha] H1 H2 Hp. rewrite Hp. pose proof (dr_area _ Hd) as Har.
  apply Forall_app. split.
  - eapply Forall_impl; [exact Ha|]. intros b [Hb Hs]. split; [done|]. unfold in_area in Hb.
    rewrite H2, H1, Hs by lia. by rewrite orb_true_r.
  - apply Forall_forall. intros b Hb. pose proof Hb as (i & -> & Hi)%list_elem_of_fmap.
    pose proof (free_avail d n Hd) as Hfa. rewrite Forall_forall in Hfa. specialize (Hfa _ Hb).
    split; [done|]. unfold in_area in Hfa. replace (start + i - start) with i by lia.
    rewrite H2, H1, bool_decide_true by (done || lia). done.
Qed.

Lemma new_blocks_avail d di f n :
  owner d di f -> avail d (all_blocks f ++ (Z.add start <$> take n (free_data d))).
Proof.
  intros Ho. pose proof (owner_avail _ _ _ Ho) as [Hnd Hf]. destruct Ho as [Hd _ _ Ha]. split.
  - apply NoDup_app. split_and!; [done| |].
    + intros b Hb (i & -> & Hi)%list_elem_of_fmap. rewrite Forall_forall in Ha.
      destruct (Ha _ Hb) as [_ Hset]. replace (start + i - start) with i in Hset by lia.
      apply elem_of_take in Hi as (k & Hi%list_elem_of_lookup_2 & _).
      apply free_bits_elem in Hi as [_ Hc]. congruence.
    + apply NoDup_fmap_2; [intros x y; lia|]. eapply sublist_NoDup; [|apply sublist_take].
      apply NoDup_filter, NoDup_seqZ.
  - apply Forall_app. split; [done|]. eapply Forall_impl; [by apply (free_avail d n)|].
    intros b Hb. by apply in_area_avail.
Qed.

Context (self : Inode).
Hypothesis Hself : fs self = efs.

(** What [d'] is after the inode [di] with forest [f] has grown by [u]. *)
Record grown (d d' : disk) (di di' : DiskInode) (f f' : forest) (u : list Z) : Prop := {
  gr_owner : owner d' di' f';
  gr_kind : kind di' = kind di;
  gr_blocks : all_blocks f' ≡ₚ all_blocks f ++ u;
  gr_data : data_blocks f `prefix_of` data_blocks f';
  gr_free : free_data d' = drop (length u) (free_data d);
  gr_new : u = Z.add start <$> take (length u) (free_data d);
  gr_bits : forall j, 0 <= j < Bitmap_maximum dbm ->
    bit_at dbm d' j = (bool_decide (start + j ∈ u) || bit_at dbm d j)%bool;
  gr_frame : same_except (bitmap_range ++ meta_blocks f') d d';
}.

Lemma grow_run d di f new_size :
  owner d di f -> room 3 d -> is_u32 new_size -> count_data_block new_size <= INDIRECT3_BOUND ->
  size di <= new_size ->
  let k := Z.to_nat (count_total_block new_size - count_total_block (size di)) in
  (k <= length (free_data d))%nat ->
  exists di' f' d', run (Inode_increase_size self new_size di) d = Ok (di', d') /\
    size di' = new_size /\ grown d d' di di' f f' (Z.add start <$> take k (free_data d)).
Proof.
  intros Ho Hroom Hu Hb Hle k Hk. pose proof Ho as [Hd Hok Hnd Ha].
  destruct (blocks_num_needed_total d di f new_size Hok Hu Hb Hle) as [Hneed Hpos].
  destruct (alloc_many_run k d Hd Hk) as (d1 & Hrun1 & Hs1 & Hf1 & Hb1).
  set (u := Z.add start <$> take k (free_data d)) in *.
  assert (length u = k) as Hlu by (subst u; rewrite length_fmap, length_take; lia).
  assert (forest_ok d1 di f) as Hok1.
  { eapply forest_frame; [exact Hs1| |done]. intros b Hbm Hbr. rewrite Forall_forall in Ha.
    destruct (Ha b) as [Hin _]; [by apply meta_data_all; left|]. by apply (area_not_bitmap d b). }
  destruct (increase_size_spec d1 di f new_size u) as
    (di' & d2 & f' & Hrun2 & Hsz & Hok2 & Hki & Hp & Hpre & Hs2); try done.
  { by eapply same_wf, dr_wf. }
  { by eapply same_room. }
  { eapply avail_same; [exact Hs1|]. by eapply new_blocks_avail. }
  { rewrite Hlu. subst k. lia. }
  pose proof (new_blocks_avail d di f k Ho) as [Hnd' _]. fold u in Hnd'.
  assert (Forall in_area (all_blocks f')) as Ha'.
  { rewrite Hp. apply Forall_app. split; [eapply Forall_impl; [exact Ha|naive_solver]|].
    by apply free_avail. }
  assert (meta_blocks f' ## bitmap_range) as Hdis.
  { intros b Hbm. rewrite Forall_forall in Ha'. apply (area_not_bitmap d b Hd), Ha'.
    by apply meta_data_all; left. }
  destruct (free_data_frame _ _ _ Hs2 Hdis (dr_area _ Hd)) as [Hf2 Hb2].
  exists di', f', d2. split_and!; [|done|].
  - unfold Inode_increase_size. destruct (Z.ltb_spec new_size (size di)); [lia|].
    rewrite Hneed, Hself. cbn [lift bind]. by rewrite (run_bind_Ok _ _ _ _ _ Hrun1).
  - split; try done.
    + split; [by do 2 (eapply data_ready_same; [done|])|done|by rewrite Hp|by eapply grown_area].
    + by rewrite Hf2, Hf1, Hlu.
    + by rewrite Hlu.
    + intros j Hj. rewrite Hb2, Hb1 by done. f_equal. apply bool_decide_ext. subst u.
      rewrite list_elem_of_fmap. split; [by exists j|]. intros (i & ? & ?).
      by replace j with i by lia.
    + by eapply same_except_trans.
Qed.

(** ** Under the lock of the inode's block *)

(** The inode area lies before the data bitmap. *)
Definition inode_slot : Prop :=
  block_id self < start_block_id dbm /\ fits DiskInode (block_offset self).

Definition inode_at (d : disk) (di : DiskInode) : Prop :=
  exists b, blocks d !! block_id self = Some b /\ as_ref b (block_offset self) = Ok di.

(** Locking another block, and releasing all locks with one block replaced. *)
Lemma data_ready_hold d i :
  data_ready d -> held d = ∅ -> i < start_block_id dbm -> data_ready (hold i d).
Proof.
  intros Hd Hh Hi. pose proof (data_ready_blocks d Hd) as Hn. destruct Hd as [[_ Hk] Ha Hs He Hwf Hb].
  split; try done.
  - split.
    + unfold room, hold. cbn [held]. rewrite Hh, union_empty_r_L, size_singleton. efs_consts. lia.
    + intros k Hkr. destruct (Hk k Hkr) as (_ & H). split; [|exact H].
      cbn [hold held]. rewrite Hh, union_empty_r_L, elem_of_singleton. lia.
  - intros b Hin. destruct (Hb b Hin) as [_ ?]. split; [|done].
    cbn [hold held]. rewrite Hh, union_empty_r_L, elem_of_singleton. unfold in_area in Hin. lia.
Qed.

Lemma same_held d di f h :
  forest_ok d di f -> forest_ok (Disk (blocks d) h) di f.
Proof.
  intros [? ? ? H1 H2 H3].
  assert (forall k n r (o : option (tree k)), slot_ok d n r o -> slot_ok (Disk (blocks d) h) n r o) as Hs.
  { intros k n r [t|]; [|done]. intros (? & ? & ? & ?). split_and!; try done. by apply repr_held. }
  split; try done; by apply Hs.
Qed.

Lemma owner_hold d di f i :
  owner d di f -> held d = ∅ -> i < start_block_id dbm -> owner (hold i d) di f.
Proof.
  intros [Hd Hok Hnd Ha] Hh Hi. split; try done; [by apply data_ready_hold|by apply same_held].
Qed.

Lemma owner_release d di f i b :
  owner d di f -> i < start_block_id dbm -> is_Some (blocks d !! i) ->
  length b = Z.to_nat BLOCK_SIZE ->
  let d' := Disk (<[i := b]> (blocks d)) ∅ in
  owner d' di f /\ free_data d' = free_data d /\ file_bytes d' f = file_bytes d f /\
  forall j, 0 <= j < Bitmap_maximum dbm -> bit_at dbm d' j = bit_at dbm d j.
Proof.
  intros [Hd Hok Hnd Ha] Hi Hb Hl d'.
  assert (same_except [i] d (Disk (<[i := b]> (blocks d)) (held d))) as Hs.
  { by apply (same_except_node [] d (hold i d)); [apply same_except_refl|..]. }
  assert ([i] ## bitmap_range) as Hdis.
  { intros x Hx%list_elem_of_singleton Hr%elem_of_seqZ. lia. }
  destruct (free_data_frame _ _ _ Hs Hdis (dr_area _ Hd)) as [Hf Hbit].
  pose proof (data_ready_same _ _ _ Hs Hd) as Hd'. pose proof (data_ready_blocks d Hd) as Hn.
  pose proof (dr_start _ Hd) as Hst. pose proof (dr_area _ Hd) as Har.
  split_and!; [split; [| |done|]|done| |exact Hbit].
  - destruct Hd' as [[_ Hk] ? ? ? ? Hbl]. split; try done.
    + split; [unfold room, d'; cbn [held]; rewrite size_empty; efs_consts; lia|].
      intros k Hkr. destruct (Hk k Hkr) as [_ H']. split; [set_solver|exact H'].
    + intros x Hx. destruct (Hbl x Hx). split; [set_solver|done].
  - refine (same_held (Disk (<[i := b]> (blocks d)) (held d)) di f ∅ _).
    eapply forest_frame; [exact Hs| |done]. intros x Hx Hxi%list_elem_of_singleton.
    rewrite Forall_forall in Ha. destruct (Ha x) as [Hin _]; [by apply meta_data_all; left|].
    unfold in_area in Hin. lia.
  - eapply Forall_impl; [exact Ha|]. intros x [Hin Hset]. split; [done|]. unfold in_area in Hin.
    unfold d'. change (bit_at dbm (Disk (<[i := b]> (blocks d)) (held d)) (x - start) = true).
    by rewrite Hbit by lia.
  - unfold file_bytes. rewrite !flat_map_concat_map. f_equal. apply map_ext_in.
    intros x Hx%list_elem_of_In. unfold block_bytes, d'. cbn [blocks].
    rewrite lookup_insert_ne; [done|]. intros ->.
    rewrite Forall_forall in Ha. destruct (Ha x) as [Hin _]; [by apply meta_data_all; right|].
    unfold in_area in Hin. lia.
Qed.

(** [modify_disk_inode] around a run that leaves the inode's block alone. *)
Lemma modify_inode_run {V} (g : DiskInode -> prog (V * DiskInode)) d d3 X di di' v :
  inode_slot -> disk_wf d -> held d = ∅ -> inode_at d di -> DiskInode_wf di' ->
  run (g di) (hold (block_id self) d) = Ok ((v, di'), d3) ->
  same_except X (hold (block_id self) d) d3 -> block_id self ∉ X ->
  exists b b', run (modify_disk_inode self g) d =
      Ok (v, Disk (<[block_id self := b']> (blocks d3)) ∅) /\
    length b' = Z.to_nat BLOCK_SIZE /\ as_ref b' (block_offset self) = Ok di' /\
    blocks d !! block_id self = Some b /\ b' = write_ref b (block_offset self) di' /\
    same_except (block_id self :: X) d (Disk (<[block_id self := b']> (blocks d3)) ∅).
Proof.
  intros [_ Hfit] Hwf Hh (b & Hb & Href) Hdi Hrun Hs HX. pose proof (Hwf _ _ Hb) as Hl.
  exists b, (write_ref b (block_offset self) di').
  pose proof (length_write_ref b (block_offset self) di' Hl Hfit Hdi) as Hl'.
  split_and!; [|done|by apply as_write_ref|done|done|].
  - unfold modify_disk_inode. rewrite <- Hh.
    eapply run_get_modify; [rewrite Hh; set_solver| |exact Hb|exact Href| |done].
    + unfold room. rewrite Hh, size_empty. efs_consts. lia.
    + rewrite Hrun. destruct Hs as (<- & _). by destruct d3.
  - rewrite <- Hh. by eapply same_except_node.
Qed.

(** The block of the inode after its slot, and nothing else in it, is
    overwritten by [di']. *)
Definition slot_written (d d' : disk) (di' : DiskInode) : Prop :=
  exists b, blocks d !! block_id self = Some b /\
    blocks d' !! block_id self = Some (write_ref b (block_offset self) di').

(** ** [Inode::write_at] *)

Record file_state (d : disk) (di : DiskInode) (f : forest) : Prop := {
  st_slot : inode_slot;
  st_at : inode_at d di;
  st_owner : owner d di f;
  st_held : held d = ∅;
}.

Lemma grown_keep d di f : owner d di f -> grown d d di di f f [].
Proof. intros Ho. split; try done. by rewrite app_nil_r. Qed.

(** The disk has the blocks that growing the inode to [new_size] takes. *)
Definition enough_free (d : disk) (di : DiskInode) (new_size : Z) : Prop :=
  (Z.to_nat (count_total_block (Z.max (size di) new_size) - count_total_block (size di))
     <= length (free_data d))%nat.

Lemma increase_run d di f new_size :
  owner d di f -> room 3 d -> is_u32 new_size -> count_data_block new_size <= INDIRECT3_BOUND ->
  enough_free d di new_size ->
  exists di' f' d' u, run (Inode_increase_size self new_size di) d = Ok (di', d') /\
    size di' = Z.max (size di) new_size /\ grown d d' di di' f f' u.
Proof.
  intros Ho Hroom Hu Hb Hfree. destruct (Z.lt_ge_cases new_size (size di)) as [Hlt|Hge].
  - exists di, f, d, []. unfold Inode_increase_size. rewrite (proj2 (Z.ltb_lt _ _)) by done.
    split_and!; [done|lia|by apply grown_keep].
  - unfold enough_free in Hfree. rewrite Z.max_r in Hfree |- * by done.
    destruct (grow_run d di f new_size) as (di' & f' & d' & Hrun & Hsz & Hg); try done.
    by exists di', f', d', (Z.add start <$> take (Z.to_nat (count_total_block new_size -
      count_total_block (size di))) (free_data d)).
Qed.

(** Data that is not written stays, as a prefix of the larger file. *)
Lemma grown_content d d' di di' f f' u :
  owner d di f -> grown d d' di di' f f' u -> size di <= size di' ->
  exists pad, content d' di' f' = content d di f ++ pad /\
    Z.of_nat (length (content d di f ++ pad)) = size di'.
Proof.
  intros Ho [Ho' _ Hp [rest Hr] _ _ _ Hfr] Hsz. unfold content.
  assert (file_bytes d' f' = file_bytes d f ++ flat_map (block_bytes d') rest) as HF.
  { unfold file_bytes. rewrite Hr, flat_map_app. f_equal. rewrite !flat_map_concat_map. f_equal.
    apply map_ext_in. intros b Hb%list_elem_of_In. unfold block_bytes. destruct Hfr as (_ & _ & _ & Hfr).
    rewrite Hfr; [done|]. apply not_elem_of_app. split.
    - pose proof (ow_area _ _ _ Ho) as Ha. rewrite Forall_forall in Ha.
      destruct (Ha b) as [Hin _]; [by apply meta_data_all; right|].
      by apply (area_not_bitmap d b (ow_ready _ _ _ Ho)).
    - pose proof (owner_avail _ _ _ Ho') as [_ Hd]%avail_data. intros Hm.
      apply (Hd b); [|done]. rewrite Hr. apply elem_of_app. by left. }
  pose proof (length_file_bytes d di f (dr_wf _ (ow_ready _ _ _ Ho)) (owner_avail _ _ _ Ho) (ow_ok _ _ _ Ho)) as HL.
  pose proof (length_file_bytes d' di' f' (dr_wf _ (ow_ready _ _ _ Ho')) (owner_avail _ _ _ Ho') (ow_ok _ _ _ Ho')) as HL'.
  pose proof (count_data_block_bounds (size di)). pose proof (count_data_block_bounds (size di')).
  destruct (fo_wf _ _ _ (ow_ok _ _ _ Ho)) as [_ Hu]. inversion Hu as [|? ? [? ?] _]; subst.
  exists (drop (Z.to_nat (size di)) (take (Z.to_nat (size di')) (file_bytes d' f'))).
  assert (take (Z.to_nat (size di)) (file_bytes d f) =
          take (Z.to_nat (size di)) (take (Z.to_nat (size di')) (file_bytes d' f'))) as ->.
  { rewrite take_take, Nat.min_l by lia. rewrite HF, take_app_le by lia. done. }
  rewrite take_drop. split; [done|]. rewrite length_take. lia.
Qed.

(** Writing data blocks keeps ownership. *)
Lemma owner_write d d' di f :
  owner d di f -> same_except (data_blocks f) d d' -> forest_ok d' di f ->
  owner d' di f /\ free_data d' = free_data d /\
  forall j, 0 <= j < Bitmap_maximum dbm -> bit_at dbm d' j = bit_at dbm d j.
Proof.
  intros [Hd Hok Hnd Ha] Hs Hok'.
  assert (data_blocks f ## bitmap_range) as Hdis.
  { intros b Hb. rewrite Forall_forall in Ha. apply (area_not_bitmap d b Hd), Ha.
    by apply meta_data_all; right. }
  destruct (free_data_frame _ _ _ Hs Hdis (dr_area _ Hd)) as [Hf Hbit]. split_and!; [|done|done].
  split; [by eapply data_ready_same|done|done|]. pose proof (dr_area _ Hd).
  eapply Forall_impl; [exact Ha|]. intros b [Hin Hset]. split; [done|].
  unfold in_area in Hin. by rewrite Hbit by lia.
Qed.

(** Growing the inode to the end of a write, then writing. *)
Lemma grow_write d di f off buf :
  owner d di f -> room 3 d -> buf <> [] -> 0 <= off ->
  let e := off + Z.of_nat (length buf) in
  is_u32 e -> count_data_block e <= INDIRECT3_BOUND -> enough_free d di e ->
  exists di' f' d1 d' u pad,
    run (Inode_increase_size self e di) d = Ok (di', d1) /\
    run (DiskInode_write_at di' off buf) d1 = Ok (Z.of_nat (length buf), d') /\
    owner d' di' f' /\ kind di' = kind di /\ size di' = Z.max (size di) e /\
    content d' di' f' = splice (Z.to_nat off) buf (content d di f ++ pad) /\
    Z.of_nat (length (content d di f ++ pad)) = size di' /\
    all_blocks f' ≡ₚ all_blocks f ++ u /\ free_data d' = drop (length u) (free_data d) /\
    u = Z.add start <$> take (length u) (free_data d) /\
    (forall j, 0 <= j < Bitmap_maximum dbm ->
       bit_at dbm d' j = (bool_decide (start + j ∈ u) || bit_at dbm d j)%bool) /\
    same_except (bitmap_range ++ all_blocks f') d d'.
Proof.
  intros Ho Hroom Hne Hoff e He Hb Hfree.
  destruct (increase_run d di f e Ho Hroom He Hb Hfree) as (di1 & f1 & d1 & u & Hrun & Hsz & Hg).
  destruct (grown_content _ _ _ _ _ _ _ Ho Hg ltac:(lia)) as (pad & Hc & Hlc).
  pose proof Hg as [Ho1 Hk1 Hp Hpre Hf1 Hu1 Hb1 Hs1].
  pose proof (owner_readable _ _ _ Ho1) as Hrd.
  assert (0 < Z.of_nat (length buf)) by (destruct buf; simpl; [done|lia]).
  unfold is_u32 in He.
  destruct (write_at_spec d1 di1 f1 off buf Hrd Hoff) as (d2 & Hrun2 & Hrd2 & Hs2 & Hc2); try done; [lia|lia|].
  assert (io_len di1 off (Z.of_nat (length buf)) = Z.of_nat (length buf)) as En by (unfold io_len; lia).
  rewrite En in *. rewrite Nat2Z.id, take_ge, Hc in Hc2 by lia.
  destruct (owner_write _ _ _ _ Ho1 Hs2 (rd_ok _ _ _ Hrd2)) as (Ho2 & Hf2 & Hb2).
  exists di1, f1, d1, d2, u, pad. split_and!; try done; [congruence| |].
  - intros j Hj. by rewrite Hb2, Hb1.
  - eapply same_except_weaken; [|by eapply same_except_trans]. intros b. rewrite !elem_of_app.
    pose proof (meta_data_all f1 b). tauto.
Qed.

Lemma slot_not_in d di f b :
  inode_slot -> owner d di f -> b ∈ bitmap_range ++ all_blocks f -> block_id self <> b.
Proof.
  intros [Hs _] [Hd _ _ Ha] Hb. pose proof (data_ready_blocks d Hd). pose proof (dr_start _ Hd).
  apply elem_of_app in Hb as [Hb%elem_of_seqZ|Hb]; [lia|].
  rewrite Forall_forall in Ha. destruct (Ha b Hb) as [Hin _]. unfold in_area in Hin. lia.
Qed.

(** [modify_disk_inode] around a run that leaves the inode with the forest
    [f'] and does not write the inode's own block. *)
Lemma modify_local {V} (g : DiskInode -> prog (V * DiskInode)) d d3 X di f di' f' v :
  file_state d di f ->
  run (g di) (hold (block_id self) d) = Ok ((v, di'), d3) -> owner d3 di' f' ->
  same_except X (hold (block_id self) d) d3 -> block_id self ∉ X ->
  exists d', run (modify_disk_inode self g) d = Ok (v, d') /\
    file_state d' di' f' /\ content d' di' f' = content d3 di' f' /\
    free_data d' = free_data d3 /\
    (forall j, 0 <= j < Bitmap_maximum dbm -> bit_at dbm d' j = bit_at dbm d3 j) /\
    (forall b, b <> block_id self -> blocks d' !! b = blocks d3 !! b) /\
    slot_written d d' di' /\ same_except (block_id self :: X) d d'.
Proof.
  intros [Hslot Hat Ho Hh] Hrun Ho3 Hs HX. pose proof Hslot as [Hbid _].
  destruct (modify_inode_run g d d3 X di di' v) as
    (b & b' & Hrun' & Hl' & Href & Hb0 & Eb' & Hsame); try done.
  { apply (dr_wf _ (ow_ready _ _ _ Ho)). }
  { apply (fo_wf _ _ _ (ow_ok _ _ _ Ho3)). }
  destruct (owner_release d3 di' f' (block_id self) b' Ho3 Hbid) as (Ho' & Hf' & HF' & Hbit'); try done.
  { eapply same_except_lookup; [exact Hs|]. by exists b. }
  eexists. split; [exact Hrun'|]. split_and!; try done.
  - split; try done. exists b'. split; [apply lookup_insert_eq|done].
  - unfold content. by rewrite HF'.
  - intros x Hx. by apply lookup_insert_ne.
  - exists b. split; [done|]. rewrite <- Eb'. apply lookup_insert_eq.
Qed.

Lemma room_held d i : held d = ∅ -> room 3 (hold i d).
Proof.
  intros Hh. unfold room, hold. cbn [held]. rewrite Hh, union_empty_r_L, size_singleton.
  efs_consts. lia.
Qed.

Lemma Inode_write_at_run d di f off buf :
  file_state d di f -> kind di = File -> buf <> [] -> 0 <= off ->
  let e := off + Z.of_nat (length buf) in
  is_u32 e -> count_data_block e <= INDIRECT3_BOUND -> enough_free d di e ->
  exists di' f' d' u pad,
    run (Inode_write_at self off buf) d = Ok (Z.of_nat (length buf), d') /\
    file_state d' di' f' /\ kind di' = File /\ size di' = Z.max (size di) e /\
    content d' di' f' = splice (Z.to_nat off) buf (content d di f ++ pad) /\
    Z.of_nat (length (content d di f ++ pad)) = size di' /\
    all_blocks f' ≡ₚ all_blocks f ++ u /\ free_data d' = drop (length u) (free_data d) /\
    u = Z.add start <$> take (length u) (free_data d) /\
    (forall j, 0 <= j < Bitmap_maximum dbm ->
       bit_at dbm d' j = (bool_decide (start + j ∈ u) || bit_at dbm d j)%bool) /\
    slot_written d d' di' /\
    same_except (block_id self :: bitmap_range ++ all_blocks f') d d'.
Proof.
  intros Hst Hk Hne Hoff e He Hb Hfree. pose proof Hst as [Hslot Hat Ho Hh].
  destruct (grow_write (hold (block_id self) d) di f off buf) as
    (di' & f' & d1 & d3 & u & pad & Hrun1 & Hrun2 & Ho3 & Hk' & Hsz & Hc & Hlc & Hp & Hfr & Hu & Hbit & Hs);
    try done; [by apply owner_hold; [..|apply Hslot]|by apply room_held|].
  destruct (modify_local (fun di => lift (assert (is_file di)) ;;;
    let! di := Inode_increase_size self (w32 (w64 e)) di in
    let! n := DiskInode_write_at di off buf in Ret (n, di)) d d3 (bitmap_range ++ all_blocks f') di f di' f'
    (Z.of_nat (length buf)) Hst) as (d' & Hrun & Hst' & Hc' & Hf' & Hbit' & _ & Hsl & Hsame); try done.
  { assert (w32 (w64 e) = e) as -> by (unfold is_u32 in He; wrap_id; done).
    unfold is_file. rewrite Hk, bool_decide_true by done. cbn [assert lift bind].
    by rewrite (run_bind_Ok _ _ _ _ _ Hrun1), (run_bind_Ok _ _ _ _ _ Hrun2). }
  { intros Hin. by apply (slot_not_in d3 di' f' _ Hslot Ho3 Hin). }
  exists di', f', d', u, pad. split_and!; try done; try congruence.
  - unfold Inode_write_at. rewrite (run_bind_Ok _ _ _ _ _ Hrun). by rewrite run_sync by apply Hst'.
  - by rewrite Hc'.
  - by rewrite Hf'.
  - intros j Hj. rewrite Hbit' by done. by apply Hbit.
Qed.

(** [Inode::write_at] on a file, with enough free blocks for the growth:
    it returns the number of bytes written; the file then has the size
    [max (old size) (off + len)] and its content is the old content,
    extended, with the buffer at [off]; the blocks it gained are free blocks
    of the data bitmap, the first ones, and no longer free; outside the
    inode's slot, the bitmap and the file's own blocks nothing is written,
    and no lock is left behind. *)
Theorem Inode_write_at_correct d di f off buf :
  file_state d di f -> kind di = File -> buf <> [] -> 0 <= off ->
  let e := off + Z.of_nat (length buf) in
  is_u32 e -> count_data_block e <= INDIRECT3_BOUND -> enough_free d di e ->
  exists di' f' d' u pad,
    run (Inode_write_at self off buf) d = Ok (Z.of_nat (length buf), d') /\
    file_state d' di' f' /\ kind di' = File /\ size di' = Z.max (size di) e /\
    content d' di' f' = splice (Z.to_nat off) buf (content d di f ++ pad) /\
    Z.of_nat (length (content d di f ++ pad)) = size di' /\
    all_blocks f' ≡ₚ all_blocks f ++ u /\ free_data d' = drop (length u) (free_data d) /\
    u = Z.add start <$> take (length u) (free_data d) /\
    (forall j, 0 <= j < Bitmap_maximum dbm ->
       bit_at dbm d' j = (bool_decide (start + j ∈ u) || bit_at dbm d j)%bool) /\
    slot_written d d' di' /\
    same_except (block_id self :: bitmap_range ++ all_blocks f') d d'.
Proof. apply Inode_write_at_run. Qed.

(** ** [Inode::read_at] *)

Lemma file_readable d di f : file_state d di f -> readable di f (hold (block_id self) d).
Proof. intros [Hslot _ Ho Hh]. by apply owner_readable, owner_hold; [..|apply Hslot]. Qed.

Lemma Inode_read_at_run d di f off buf :
  file_state d di f -> 0 <= off -> off + Z.of_nat (length buf) < 2 ^ 64 ->
  let n := io_len di off (Z.of_nat (length buf)) in
  run (Inode_read_at self off buf) d =
    Ok ((n, splice 0 (slice (Z.to_nat off) (Z.to_nat n) (content d di f)) buf), d).
Proof using efs area self.
  intros Hst Hoff Hlen n. pose proof (file_readable d di f Hst) as Hrd.
  destruct Hst as [Hslot (b & Hb0 & Href) _ Hh].
  assert (d = Disk (blocks d) (held d)) as E by (by destruct d). rewrite E at 3.
  unfold Inode_read_at, read_disk_inode.
  eapply run_get_read; [rewrite Hh; apply not_elem_of_empty| |exact Hb0|exact Href|].
  { unfold room. rewrite Hh, size_empty. efs_consts. lia. }
  by rewrite (read_at_spec _ di f off buf Hrd Hoff) by lia.
Qed.

(** [Inode::read_at] after [Inode::write_at] returns the bytes written. *)
Theorem Inode_write_read d di f off buf buf' :
  file_state d di f -> kind di = File -> buf <> [] -> 0 <= off ->
  let e := off + Z.of_nat (length buf) in
  is_u32 e -> count_data_block e <= INDIRECT3_BOUND -> enough_free d di e ->
  length buf' = length buf ->
  exists d', run (let! _ := Inode_write_at self off buf in Inode_read_at self off buf') d =
    Ok ((Z.of_nat (length buf), buf), d').
Proof.
  intros Hst Hk Hne Hoff e He Hb Hfree Hlen. pose proof (st_owner _ _ _ Hst) as Ho.
  destruct (Inode_write_at_run d di f off buf Hst Hk Hne Hoff He Hb Hfree) as
    (di' & f' & d' & u & pad & Hrun & [Hslot Hat Ho' Hh] & Hk' & Hsz & Hc & Hlc & _).
  pose proof (file_readable d' di' f' ltac:(split; done)) as Hrd.
  pose proof (length_content _ _ _ Hrd) as HL. unfold is_u32 in He.
  change (content (hold (block_id self) d') di' f') with (content d' di' f') in HL.
  exists d'. rewrite (run_bind_Ok _ _ _ _ _ Hrun). rewrite (Inode_read_at_run d' di' f' off buf') by (done || lia).
  assert (io_len di' off (Z.of_nat (length buf')) = Z.of_nat (length buf)) as ->
    by (unfold io_len; lia).
  rewrite Hc, Nat2Z.id, slice_splice_same by lia. do 3 f_equal.
  unfold splice. simpl. rewrite drop_ge, app_nil_r by lia. done.
Qed.

(** ** [Inode::clear] *)

Lemma dealloc_data_run d b :
  data_ready d -> in_area b -> bit_at dbm d (b - start) = true ->
  exists d', run (dealloc_data efs b) d = Ok (tt, d') /\
    same_except (b :: bitmap_range) d d' /\ blocks d' !! b = Some zero_block /\
    forall j, 0 <= j < Bitmap_maximum dbm ->
      bit_at dbm d' j = if j =? b - start then false else bit_at dbm d j.
Proof.
  intros Hd Hb Hbit. pose proof Hb as Hb'. unfold in_area in Hb'.
  destruct (in_area_avail d b Hd Hb) as (Hu & Hh & Hs). pose proof (dr_area _ Hd) as Har.
  pose proof (dr_start _ Hd) as Hst. pose proof (data_ready_blocks d Hd) as Hn.
  set (d1 := Disk (<[b := zero_block]> (blocks d)) (held d)).
  assert (same_except [b] d d1) as Hs1.
  { by apply (same_except_node [] d (hold b d)); [apply same_except_refl|..]. }
  assert ([b] ## bitmap_range) as Hdis.
  { intros x Hx%list_elem_of_singleton Hr%elem_of_seqZ. lia. }
  destruct (free_data_frame _ _ _ Hs1 Hdis Har) as [_ Hbits1].
  pose proof (data_ready_same _ _ _ Hs1 Hd) as Hd1.
  pose proof (Bitmap_dealloc_run dbm d1 (b - start) (dr_bitmap _ Hd1) ltac:(lia)) as Hde.
  rewrite Hbits1, Hbit in Hde by lia. destruct Hde as (d2 & Hrun & Hset).
  pose proof (bit_set_same (b - start) false d1 d2 Hd1 ltac:(lia) Hset) as Hs2.
  exists d2. split_and!.
  - unfold dealloc_data.
    rewrite (run_bind_Ok _ _ _ _ _ (fill_zero_run d b (dr_wf _ Hd) Hh (proj1 (dr_bitmap _ Hd)) Hs)).
    unfold is_u32 in Hu. by rewrite w32_id by (unfold is_u32; lia).
  - by apply (same_except_trans [b] _ _ _ _ Hs1 Hs2).
  - destruct Hs2 as (_ & _ & _ & Hs2). rewrite Hs2; [apply lookup_insert_eq|].
    by apply (area_not_bitmap d b Hd).
  - intros j Hj. destruct Hset as (_ & _ & ->). by rewrite Hbits1 by done.
Qed.

Lemma dealloc_all_run l : forall d,
  data_ready d -> NoDup l -> Forall (fun b => in_area b /\ bit_at dbm d (b - start) = true) l ->
  exists d', run (for_each (dealloc_data efs) l) d = Ok (tt, d') /\
    same_except (l ++ bitmap_range) d d' /\ (forall b, b ∈ l -> blocks d' !! b = Some zero_block) /\
    forall j, 0 <= j < Bitmap_maximum dbm ->
      bit_at dbm d' j = if decide (start + j ∈ l) then false else bit_at dbm d j.
Proof.
  induction l as [|b l IH]; intros d Hd Hnd Hl.
  { exists d. split_and!; try done. by intros b Hb%elem_of_nil. }
  apply Forall_cons in Hl as [[Hb Hbit] Hl]. apply NoDup_cons in Hnd as [Hbl Hnd].
  pose proof (dr_area _ Hd) as Har. unfold in_area in Hb.
  destruct (dealloc_data_run d b Hd Hb Hbit) as (d1 & Hrun & Hs1 & Hz & Hbits1).
  destruct (IH d1) as (d' & Hrun' & Hs2 & Hz2 & Hbits2); try done.
  { by eapply data_ready_same. }
  { rewrite Forall_forall in Hl |- *. intros x Hx. destruct (Hl x Hx) as [Hin Hset].
    split; [done|]. unfold in_area in Hin. rewrite Hbits1 by lia.
    destruct (Z.eqb_spec (x - start) (b - start)); [|done]. exfalso. apply Hbl.
    by replace b with x by lia. }
  exists d'. split_and!.
  - unfold for_each. cbn [fold_prog]. by rewrite (run_bind_Ok _ _ _ _ _ Hrun).
  - eapply same_except_weaken; [|by eapply same_except_trans]. intros x.
    rewrite ?elem_of_app, ?elem_of_cons, ?elem_of_app. tauto.
  - intros x [->|Hx]%elem_of_cons; [|by apply Hz2]. destruct Hs2 as (_ & _ & _ & Hs2).
    rewrite Hs2; [done|]. apply not_elem_of_app. split; [done|]. by apply (area_not_bitmap d b Hd).
  - intros j Hj. rewrite Hbits2, Hbits1 by done.
    destruct (Z.eqb_spec j (b - start)) as [->|Hne].
    + replace (start + (b - start)) with b by lia.
      rewrite (decide_True (P := b ∈ b :: l)) by (by left). by destruct (decide _).
    + destruct (decide (start + j ∈ l)) as [Hin|Hin].
      * by rewrite decide_True by (by right).
      * rewrite decide_False; [done|]. intros [?|?]%elem_of_cons; [lia|done].
Qed.

(** The inode of an emptied file owns nothing. *)
Lemma owner_empty d di : data_ready d -> forest_ok d di empty_forest -> owner d di empty_forest.
Proof. intros. split; try done. constructor. Qed.

Lemma Inode_clear_run d di f :
  file_state d di f ->
  exists di' d', run (Inode_clear self) d = Ok (tt, d') /\
    file_state d' di' empty_forest /\ size di' = 0 /\ kind di' = kind di /\
    (forall b, b ∈ all_blocks f -> blocks d' !! b = Some zero_block) /\
    (forall j, 0 <= j < Bitmap_maximum dbm ->
       bit_at dbm d' j = if decide (start + j ∈ all_blocks f) then false else bit_at dbm d j) /\
    slot_written d d' di' /\
    same_except (block_id self :: all_blocks f ++ bitmap_range) d d'.
Proof.
  intros Hst. pose proof Hst as [Hslot Hat Ho Hh]. pose proof Hslot as [Hbid _].
  pose proof (owner_hold _ _ _ (block_id self) Ho Hh Hbid) as Hoh.
  set (dh := hold (block_id self) d) in *. pose proof Hoh as [Hd Hok Hnd Ha].
  pose proof (clear_size_spec dh di f Hok (dr_wf _ Hd) (room_held d _ Hh) (owner_avail _ _ _ Hoh)) as Hrun1.
  destruct (dealloc_all_run (all_blocks f) dh Hd Hnd Ha) as (d3 & Hrun2 & Hs3 & Hz & Hbits).
  assert (forest_ok d3 (cleared di) empty_forest) as Hok3.
  { pose proof (cleared_ok _ _ _ Hok) as [Hw _ _ _ _ _]. by apply empty_forest_ok. }
  pose proof (owner_empty _ _ (data_ready_same _ _ _ Hs3 Hd) Hok3) as Ho3.
  destruct (modify_local (fun di =>
    let old_size := size di in
    let! (di, dealloc) := DiskInode_clear_size di in
    lift (assert (Z.of_nat (length dealloc) =? count_total_block old_size)) ;;;
    for_each (dealloc_data (fs self)) dealloc ;;; Ret (tt, di)) d d3 (all_blocks f ++ bitmap_range)
    di f (cleared di) empty_forest tt Hst) as (d' & Hrun & Hst' & _ & _ & Hbit' & Hne & Hsl & Hsame); try done.
  { cbv zeta. rewrite (run_bind_Ok _ _ _ _ _ Hrun1).
    rewrite (proj2 (forest_lengths _ _ _ Hok)), Z.eqb_refl, Hself. cbn [assert lift bind].
    by rewrite (run_bind_Ok _ _ _ _ _ Hrun2). }
  { intros Hin. apply (slot_not_in d di f (block_id self) Hslot Ho); [|done].
    rewrite elem_of_app in *. tauto. }
  exists (cleared di), d'. split_and!; try done.
  - unfold Inode_clear. rewrite (run_bind_Ok _ _ _ _ _ Hrun). by rewrite run_sync by apply Hst'.
  - intros x Hx. rewrite Hne; [by apply Hz|]. apply not_eq_sym.
    eapply (slot_not_in d di f _ Hslot Ho). apply elem_of_app. by right.
  - intros j Hj. rewrite Hbit' by done. by apply Hbits.
Qed.

(** [Inode::clear] of a file or directory never fails its assertion: it
    empties the inode and frees exactly its blocks, data and indirect ones,
    once each; they are zeroed, their bits are cleared, no other bit
    changes, and nothing else is written but the slot of the inode. *)
Theorem Inode_clear_correct d di f :
  file_state d di f ->
  exists di' d', run (Inode_clear self) d = Ok (tt, d') /\
    file_state d' di' empty_forest /\ size di' = 0 /\ kind di' = kind di /\
    (forall b, b ∈ all_blocks f -> blocks d' !! b = Some zero_block) /\
    (forall j, 0 <= j < Bitmap_maximum dbm ->
       bit_at dbm d' j = if decide (start + j ∈ all_blocks f) then false else bit_at dbm d j) /\
    slot_written d d' di' /\
    same_except (block_id self :: all_blocks f ++ bitmap_range) d d'.
Proof. apply Inode_clear_run. Qed.
End data_area.

(** ** Witnesses *)

(** A small file system on a blank device: bitmaps in blocks 1 and 3, the
    inode area in block 2, 60 data blocks; its inode 0 is an empty file. *)
Definition small_fs : EasyFileSystem := MkEfs (Bitmap_new 1 1) (Bitmap_new 3 1) 2 4.
Definition small_file : Inode := MkInode 2 0 small_fs.

Lemma small_ready : data_ready small_fs 60 (blank_disk 64).
Proof.
  split; try done.
  - split; [by apply blank_room|]. intros k Hk. cbn in Hk |- *. split; [set_solver|].
    exists zero_block. split; [apply blank_lookup; lia|done].
  - apply blank_wf.
  - intros b Hb. unfold in_area in Hb. cbn in Hb. rewrite blank_lookup by lia.
    split; [set_solver|by exists zero_block].
Qed.

Lemma small_file_state : file_state small_fs 60 small_file (blank_disk 64) (blank_inode File) empty_forest.
Proof.
  split; [done| | |done].
  - exists zero_block. split; [by apply blank_lookup|by vm_compute].
  - split; [apply small_ready|apply blank_inode_ok|constructor|constructor].
Qed.

Lemma small_free : free_data small_fs 60 (blank_disk 64) = seqZ 0 60.
Proof. by vm_compute. Qed.

Lemma Inode_write_at_correct_witness :
  exists di' f' d' u pad,
    run (Inode_write_at small_file 700 (replicate 900 Byte.x41)) (blank_disk 64) = Ok (900, d') /\
    file_state small_fs 60 small_file d' di' f' /\ kind di' = File /\ size di' = Z.max 0 1600 /\
    content d' di' f' =
      splice 700 (replicate 900 Byte.x41) (content (blank_disk 64) (blank_inode File) empty_forest ++ pad) /\
    Z.of_nat (length (content (blank_disk 64) (blank_inode File) empty_forest ++ pad)) = size di' /\
    all_blocks f' ≡ₚ all_blocks empty_forest ++ u /\
    free_data small_fs 60 d' = drop (length u) (free_data small_fs 60 (blank_disk 64)) /\
    u = Z.add 4 <$> take (length u) (free_data small_fs 60 (blank_disk 64)) /\
    (forall j, 0 <= j < Bitmap_maximum (data_bitmap small_fs) ->
       bit_at (data_bitmap small_fs) d' j =
         (bool_decide (4 + j ∈ u) || bit_at (data_bitmap small_fs) (blank_disk 64) j)%bool) /\
    slot_written small_file (blank_disk 64) d' di' /\
    same_except (block_id small_file :: bitmap_range small_fs ++ all_blocks f') (blank_disk 64) d'.
Proof.
  apply (Inode_write_at_correct small_fs 60 small_file eq_refl (blank_disk 64) (blank_inode File)
    empty_forest 700 (replicate 900 Byte.x41));
    [apply small_file_state|done|done|lia|by vm_compute|by vm_compute|].
  unfold enough_free. rewrite small_free. vm_compute. lia.
Defined.

Lemma Inode_write_read_witness :
  exists d', run (let! _ := Inode_write_at small_file 700 (replicate 900 Byte.x41) in
                  Inode_read_at small_file 700 (replicate 900 Byte.x00)) (blank_disk 64) =
    Ok ((900, replicate 900 Byte.x41), d').
Proof.
  apply (Inode_write_read small_fs 60 small_file eq_refl (blank_disk 64) (blank_inode File)
    empty_forest 700 (replicate 900 Byte.x41) (replicate 900 Byte.x00));
    [apply small_file_state|done|done|lia|by vm_compute|by vm_compute| |done].
  unfold enough_free. rewrite small_free. vm_compute. lia.
Defined.

Lemma Inode_clear_correct_witness :
  exists di' d', run (Inode_clear small_file) (blank_disk 64) = Ok (tt, d') /\
    file_state small_fs 60 small_file d' di' empty_forest /\ size di' = 0 /\ kind di' = File /\
    (forall b, b ∈ all_blocks empty_forest -> blocks d' !! b = Some zero_block) /\
    (forall j, 0 <= j < Bitmap_maximum (data_bitmap small_fs) ->
       bit_at (data_bitmap small_fs) d' j =
         if decide (4 + j ∈ all_blocks empty_forest) then false
         else bit_at (data_bitmap small_fs) (blank_disk 64) j) /\
    slot_written small_file (blank_disk 64) d' di' /\
    same_except (2 :: all_blocks empty_forest ++ bitmap_range small_fs) (blank_disk 64) d'.
Proof.
  apply (Inode_clear_correct small_fs 60 small_file eq_refl (blank_disk 64) (blank_inode File) empty_forest).
  apply small_file_state.
Defined.
