(* ===== verification/Directory.v ===== *)
(** * Directories as lists of entries

    A directory is a file whose content is a sequence of 32-byte entries.
    [listing] relates that content to a list of names and inode numbers;
    [find_inode_id] is a search in the list, and writing one entry at its
    offset updates or extends the list. *)

From S2P Require Import Prelude Bytes Config BlockStore Bitmap Layout BlockTree InodeForest.
From S2P Require Import LayoutGrow LayoutClear LayoutIO Efs Vfs VfsSpec.

(** A name and an inode number. *)
Abbreviation dirent := (list u8 * Z)%type.

(** The record that [DirEntry::new] makes of them. *)
Definition entry (e : dirent) : DirEntry :=
  {| name := splice 0 e.1 (replicate 28 Byte.x00); inode_number := e.2 |}.
Definition entry_bytes (e : dirent) : list u8 := as_bytes (entry e).

(** Names that fit an entry and come back from it. *)
Definition name_ok (nm : list u8) : Prop :=
  (Byte.x00 ∉ nm) /\ utf8_valid nm = true /\ (length nm <= 28)%nat.
Definition entry_ok (e : dirent) : Prop := name_ok e.1 /\ is_u32 e.2.

Lemma entry_spec e :
  entry_ok e ->
  DirEntry_new e.1 e.2 = Ok (entry e) /\ length (entry_bytes e) = 32%nat /\
  DirEntry_of_bytes (entry_bytes e) = entry e /\ DirEntry_name (entry e) = Ok e.1.
Proof.
  intros [(Hz & Hu & Hl) Hi]. pose proof (DirEntry_roundtrip e.1 e.2 Hz Hu Hi) as H.
  rewrite decide_True in H by done. destruct H as (r & Hr & Hlen & Hb & Hn & _).
  assert (r = entry e) as ->.
  { unfold DirEntry_new in Hr. destruct (_ <=? _); by simplify_eq. }
  done.
Qed.

(** The number of the first entry with the name. *)
Fixpoint find_entry (nm : list u8) (es : list dirent) : option Z :=
  match es with
  | [] => None
  | e :: es => if bool_decide (e.1 = nm) then Some e.2 else find_entry nm es
  end.

Lemma find_entry_elem nm es id : find_entry nm es = Some id -> (nm, id) ∈ es.
Proof.
  induction es as [|[n i] es IH]; [done|]. cbn. case_bool_decide; intros E; simplify_eq.
  - by left.
  - right. by apply IH.
Qed.

Lemma find_entry_None nm es : find_entry nm es = None <-> nm ∉ es.*1.
Proof.
  induction es as [|[n i] es IH]; cbn; [set_solver|]. rewrite not_elem_of_cons.
  case_bool_decide; naive_solver.
Qed.

Lemma find_entry_snoc nm es e :
  find_entry nm es = None -> find_entry nm (es ++ [e]) = if bool_decide (e.1 = nm) then Some e.2 else None.
Proof.
  induction es as [|[n i] es IH]; cbn [app find_entry fst snd]; [done|].
  destruct (bool_decide (n = nm)); [done|exact IH].
Qed.

(** The directory [di] lists [es]. *)
Record listing (d : disk) (di : DiskInode) (f : forest) (es : list dirent) : Prop := {
  ls_kind : kind di = Directory;
  ls_content : content d di f = flat_map entry_bytes es;
  ls_ok : Forall entry_ok es;
}.

Lemma listing_hold d di f es i : listing d di f es -> listing (hold i d) di f es.
Proof. by intros [? ? ?]. Qed.

Lemma entries_length es : Forall entry_ok es -> Forall (fun e => length (entry_bytes e) = 32%nat) es.
Proof. intros H. eapply Forall_impl; [exact H|]. intros e He. by apply entry_spec. Qed.

Lemma listing_size d di f es :
  readable di f d -> listing d di f es -> size di = 32 * Z.of_nat (length es).
Proof.
  intros Hrd [_ Hc Hok]. rewrite <- (length_content d di f Hrd), Hc.
  rewrite (length_pieces 32) by (by apply entries_length). lia.
Qed.

(** Reading the entry at index [i] into any buffer of an entry's size. *)
Lemma read_entry d di f es i e buf :
  readable di f d -> listing d di f es -> es !! Z.to_nat i = Some e -> 0 <= i -> length buf = 32%nat ->
  run (DiskInode_read_at di (DIRENT_SIZE * i) buf) d = Ok ((32, entry_bytes e), d).
Proof.
  intros Hrd Hls He Hi Hbuf. pose proof (listing_size d di f es Hrd Hls) as Hsz.
  pose proof (lookup_lt_Some _ _ _ He) as Hlt. destruct (fo_wf _ _ _ (rd_ok _ _ _ Hrd)) as [_ Hu].
  inversion Hu as [|? ? [_ Hu32] _]; subst. unfold DIRENT_SIZE.
  destruct Hls as [_ Hc Hok]. rewrite (read_at_spec d di f) by (done || lia).
  assert (io_len di (32 * i) (Z.of_nat (length buf)) = 32) as -> by (unfold io_len; lia).
  rewrite Hc. replace (Z.to_nat (32 * i)) with (32 * Z.to_nat i + 0)%nat by lia.
  change (Z.to_nat 32) with 32%nat.
  rewrite (slice_piece 32 _ _ _ e) by (done || lia || by apply entries_length).
  assert (length (entry_bytes e) = 32%nat) as Hle
    by (by apply entry_spec, (Forall_lookup_1 _ _ _ _ Hok He)).
  unfold slice, splice. rewrite drop_0, (take_ge (entry_bytes e)) by lia.
  rewrite Hle, drop_ge, app_nil_r by lia. done.
Qed.

Lemma find_loop_spec nm d di f es k : forall i dirent,
  readable di f d -> listing d di f es -> (i + k = length es)%nat -> length (as_bytes dirent) = 32%nat ->
  run (find_loop nm di (seqZ (Z.of_nat i) (Z.of_nat k)) dirent) d =
    Ok (find_entry nm (drop i es), d).
Proof.
  induction k as [|k IH]; intros i dirent Hrd Hls Hik Hbuf.
  { rewrite drop_ge by lia. done. }
  rewrite seqZ_cons by lia. cbn [find_loop].
  destruct (lookup_lt_is_Some_2 es i ltac:(lia)) as [e He].
  rewrite (run_bind_Ok _ _ _ _ _ (read_entry d di f es (Z.of_nat i) e _ Hrd Hls
    ltac:(by rewrite Nat2Z.id) ltac:(lia) Hbuf)).
  destruct (entry_spec e) as (_ & Hl & Hb & Hn).
  { by apply (Forall_lookup_1 _ _ _ _ (ls_ok _ _ _ _ Hls) He). }
  rewrite Hb. cbn [DIRENT_SIZE Z.eqb assert lift bind]. rewrite Hn. cbn [lift bind].
  rewrite (drop_S es e i He). cbn [find_entry]. destruct (bool_decide_reflect (e.1 = nm)); [done|].
  replace (Z.succ (Z.of_nat i)) with (Z.of_nat (S i)) by lia.
  replace (Z.pred (Z.of_nat (S k))) with (Z.of_nat k) by lia.
  apply IH; [done|done|lia|done].
Qed.

Lemma listing_count d di f es :
  readable di f d -> listing d di f es -> file_count di = Z.of_nat (length es).
Proof.
  intros Hrd Hls. unfold file_count, DIRENT_SIZE. rewrite (listing_size d di f es Hrd Hls).
  rewrite Z.mul_comm. apply Z.div_mul. lia.
Qed.

Lemma find_inode_id_spec nm d di f es :
  readable di f d -> listing d di f es ->
  run (find_inode_id nm di) d = Ok (find_entry nm es, d).
Proof.
  intros Hrd Hls. unfold find_inode_id, is_dir. rewrite (ls_kind _ _ _ _ Hls).
  rewrite bool_decide_true by done. cbn [assert lift bind].
  rewrite (listing_count d di f es Hrd Hls).
  by apply (find_loop_spec nm d di f es (length es) 0).
Qed.

(** ** Shrinking a directory

    [Inode::delete] shortens the directory by one entry.  While the data
    blocks are direct ones, [decrease_size] returns the blocks behind the new
    end. *)

Lemma drop_direct_spec n : forall r l acc,
  (r + n <= length l)%nat ->
  drop_direct n (Z.of_nat r) l acc = (splice r (replicate n 0) l, acc ++ slice r n l).
Proof.
  induction n as [|n IH]; intros r l acc Hr.
  { cbn. unfold splice, slice. cbn. by rewrite Nat.add_0_r, take_drop, app_nil_r. }
  cbn [drop_direct]. replace (Z.of_nat r + 1) with (Z.of_nat (S r)) by lia.
  rewrite IH by (rewrite length_insert; lia). rewrite Nat2Z.id.
  destruct (lookup_lt_is_Some_2 l r ltac:(lia)) as [x Hx].
  rewrite <- app_assoc. f_equal.
  - apply list_eq. intros i. destruct (decide (S r <= i < S r + n)%nat).
    + rewrite !lookup_splice_in by (rewrite length_replicate, ?length_insert; lia).
      by rewrite !lookup_replicate_2 by lia.
    + rewrite lookup_splice_out by (rewrite length_replicate, ?length_insert; lia).
      destruct (decide (i = r)) as [->|].
      * rewrite list_lookup_insert_eq by lia.
        rewrite lookup_splice_in by (rewrite length_replicate; lia). by rewrite Nat.sub_diag.
      * rewrite list_lookup_insert_ne by done.
        rewrite lookup_splice_out by (rewrite length_replicate; lia). done.
  - f_equal. rewrite (list_lookup_total_correct _ _ _ Hx).
    change (S n) with (1 + n)%nat. rewrite slice_app. unfold slice at 2.
    rewrite (drop_S _ _ _ Hx). cbn [take app]. f_equal. unfold slice. f_equal.
    replace (r + 1)%nat with (S r) by lia. by rewrite drop_insert_lt by lia.
Qed.

Section shrink.
Context (efs : EasyFileSystem) (area : Z) (self : Inode).
Hypothesis Hself : fs self = efs.

Abbreviation dbm := (data_bitmap efs).
Abbreviation start := (data_area_start_block efs).

(** An inode whose data blocks are all direct. *)
Lemma direct_forest d di f :
  forest_ok d di f -> count_data_block (size di) <= 27 ->
  f = Forest (take (Z.to_nat (count_data_block (size di))) (direct di)) None None None.
Proof.
  intros [_ _ Hd H1 H2 H3] Hn. rewrite level_leaves_none in H1, H2, H3 by (level_consts; lia).
  destruct f as [fd [t1|] [t2|] [t3|]]; cbn in *; try (destruct H1; lia);
    try (destruct H2; lia); try (destruct H3; lia). by rewrite Hd.
Qed.

Lemma decrease_direct d di f new_size :
  forest_ok d di f -> count_data_block (size di) <= 27 -> 0 <= new_size <= size di ->
  let n := Z.to_nat (count_data_block new_size) in
  exists di', run (DiskInode_decrease_size di new_size) d = Ok ((di', drop n (all_blocks f)), d) /\
    size di' = new_size /\ kind di' = kind di /\
    forest_ok d di' (Forest (take n (all_blocks f)) None None None).
Proof.
  intros Hf Hn Hsz n. pose proof (direct_forest d di f Hf Hn) as Ef.
  pose proof (count_data_block_mono new_size (size di) ltac:(lia)) as Hmono.
  pose proof (count_data_block_bounds new_size) as Hb.
  destruct (fo_wf _ _ _ Hf) as [Hl Hu].
  assert (is_u32 new_size) as Hu32.
  { inversion Hu as [|? ? [? ?] _]; subst. unfold is_u32. lia. }
  pose proof (count_data_block_range new_size Hu32) as Hr.
  set (k := Z.to_nat (count_data_block (size di))) in *.
  assert (all_blocks f = take k (direct di)) as Ea.
  { rewrite Ef. unfold all_blocks. cbn. by rewrite app_nil_r. }
  unfold DiskInode_decrease_size. efs_consts. rewrite (Z.min_l _ 27) by lia.
  replace (count_data_block new_size) with (Z.of_nat n) by lia.
  replace (Z.to_nat (count_data_block (size di) - Z.of_nat n)) with (k - n)%nat by lia.
  rewrite drop_direct_spec by lia. rewrite (proj2 (Z.leb_le _ 27)) by lia.
  assert (slice n (k - n) (direct di) = drop n (all_blocks f)) as ->.
  { rewrite Ea. unfold slice. rewrite take_drop_commute. do 2 f_equal. lia. }
  eexists. split; [reflexivity|]. split_and!; [done|done|].
  split; cbn [size direct indirect1 indirect2 indirect3]; fold n.
  - split; [cbn; by rewrite length_splice by (rewrite length_replicate; lia)|].
    inversion Hu as [|? ? Hs Hu']; subst. apply Forall_app in Hu' as [Hud Hui]. constructor; [done|].
    apply Forall_app. split; [|done]. unfold splice. cbn [direct]. rewrite !Forall_app.
    split_and!; [by apply Forall_take|by apply Forall_replicate|by apply Forall_drop].
  - efs_consts. lia.
  - rewrite Ea, take_take, Nat.min_l by lia. unfold splice. rewrite take_app_le by (rewrite length_take; lia).
    rewrite take_take. by rewrite Nat.min_l by lia.
  - rewrite level_leaves_none by (level_consts; lia). done.
  - rewrite level_leaves_none by (level_consts; lia). done.
  - rewrite level_leaves_none by (level_consts; lia). done.
Qed.

(** [Inode::decrease_size] on such an inode frees the blocks behind the new
    end and keeps the bytes before it. *)
Lemma decrease_run d di f new_size :
  owner efs area d di f -> count_data_block (size di) <= 27 -> 0 <= new_size <= size di ->
  exists di' f' d', run (Inode_decrease_size self new_size di) d = Ok (di', d') /\
    owner efs area d' di' f' /\ kind di' = kind di /\ size di' = new_size /\
    content d' di' f' = take (Z.to_nat new_size) (content d di f) /\ all_blocks f' ⊆ all_blocks f /\
    (forall j, 0 <= j < Bitmap_maximum dbm -> start + j ∉ all_blocks f ->
       bit_at dbm d' j = bit_at dbm d j) /\
    same_except (bitmap_range efs ++ all_blocks f) d d'.
Proof.
  intros Ho Hn Hsz. unfold Inode_decrease_size. destruct (Z.leb_spec (size di) new_size).
  { exists di, f, d. split_and!; try done; [lia|].
    rewrite take_ge; [done|]. pose proof (length_content _ _ _ (owner_readable _ _ _ _ _ Ho)). lia. }
  pose proof Ho as [Hd Hok Hnd Ha].
  destruct (decrease_direct d di f new_size Hok Hn Hsz) as (di' & Hrun & Hs' & Hk' & Hok').
  set (n := Z.to_nat (count_data_block new_size)) in *. set (f' := Forest _ None None None) in *.
  assert (all_blocks f' = take n (all_blocks f)) as Ea'.
  { unfold f', all_blocks at 1. cbn. by rewrite app_nil_r. }
  pose proof (take_drop n (all_blocks f)) as Etd. rewrite <- Etd in Hnd, Ha.
  apply Forall_app in Ha as [Hkeep Hdrop]. apply NoDup_app in Hnd as (Hnd1 & Hdis & Hnd2).
  destruct (dealloc_all_run efs area (drop n (all_blocks f)) d Hd Hnd2 Hdrop) as
    (d' & Hrun' & Hsame & _ & Hbits).
  assert (meta_blocks f' = []) as Em by done.
  assert (data_blocks f' = all_blocks f') as Edata by done.
  assert (owner efs area d' di' f') as Ho'.
  { split; [by eapply data_ready_same| |by rewrite Ea'|].
    - eapply forest_frame; [exact Hsame| |done]. rewrite Em. set_solver.
    - rewrite Ea'. rewrite Forall_forall in Hkeep |- *. intros b Hb. destruct (Hkeep b Hb) as [Hin Hset].
      split; [done|]. unfold in_area in Hin. pose proof (dr_area _ _ _ Hd).
      rewrite Hbits, decide_False by (try lia; replace (start + (b - start)) with b by lia; by apply Hdis).
      done. }
  exists di', f', d'. split_and!; try done.
  - rewrite (run_bind_Ok _ _ _ _ _ Hrun), Hself. by rewrite (run_bind_Ok _ _ _ _ _ Hrun').
  - unfold content. rewrite take_take, Hs', Nat.min_l by lia.
    pose proof (direct_forest d di f Hok Hn) as Ef.
    assert (file_bytes d f = file_bytes d' f' ++ flat_map (block_bytes d) (drop n (all_blocks f))) as ->.
    { assert (data_blocks f = all_blocks f) as Edf by (by rewrite Ef).
      unfold file_bytes. rewrite Edf, Edata, Ea'. rewrite <- Etd at 1. rewrite flat_map_app. f_equal.
      rewrite !flat_map_concat_map. f_equal. apply map_ext_in. intros b Hb%list_elem_of_In.
      unfold block_bytes. destruct Hsame as (_ & _ & _ & Hl). rewrite Hl; [done|].
      rewrite not_elem_of_app. split; [by apply Hdis|].
      rewrite Forall_forall in Hkeep. by apply (area_not_bitmap efs area d b Hd), Hkeep. }
    rewrite take_app_le; [done|].
    pose proof (length_file_bytes d' di' f' (dr_wf _ _ _ (ow_ready _ _ _ _ _ Ho'))
      (owner_avail _ _ _ _ _ Ho') (ow_ok _ _ _ _ _ Ho')) as HL.
    pose proof (count_data_block_bounds new_size). rewrite Hs' in HL. lia.
  - rewrite Ea'. intros b Hb. rewrite <- Etd. apply elem_of_app. by left.
  - intros j Hj Hnin. rewrite Hbits by done. rewrite decide_False; [done|]. intros Hin. apply Hnin.
    rewrite <- Etd. apply elem_of_app. by right.
  - eapply same_except_weaken; [|exact Hsame]. intros b. rewrite !elem_of_app. intros [Hb|Hb]; [|by left].
    right. rewrite <- Etd. apply elem_of_app. by right.
Qed.
End shrink.

(** ** Replacing and removing entries *)

Lemma flat_map_insert {A B} w (g : A -> list B) l i x y :
  Forall (fun z => length (g z) = w) l -> l !! i = Some x -> length (g y) = w ->
  flat_map g (<[i := y]> l) = splice (w * i) (g y) (flat_map g l).
Proof.
  intros Hl Hx Hy. pose proof (lookup_lt_Some _ _ _ Hx) as Hi.
  rewrite insert_take_drop by done.
  assert (flat_map g l = flat_map g (take i l) ++ g x ++ flat_map g (drop (S i) l)) as ->.
  { rewrite <- (take_drop_middle _ _ _ Hx) at 1. by rewrite flat_map_app. }
  rewrite flat_map_app. cbn [flat_map].
  assert (length (flat_map g (take i l)) = w * i)%nat as E.
  { rewrite (length_pieces w) by (by apply Forall_take). rewrite length_take. f_equal. lia. }
  assert (length (g x) = w) as Hgx by (by eapply (Forall_lookup_1 _ _ _ _ Hl)).
  unfold splice. rewrite take_app_length' by done. f_equal. f_equal.
  rewrite drop_app_ge by lia. rewrite drop_app_length' by lia. done.
Qed.

Lemma write_entry d di f es i e :
  readable di f d -> listing d di f es -> (i < length es)%nat -> entry_ok e ->
  exists d', run (DiskInode_write_at di (Z.of_nat i * DIRENT_SIZE) (entry_bytes e)) d = Ok (32, d') /\
    readable di f d' /\ same_except (data_blocks f) d d' /\ listing d' di f (<[i := e]> es).
Proof.
  intros Hrd Hls Hi He. pose proof (listing_size d di f es Hrd Hls) as Hsz.
  destruct (fo_wf _ _ _ (rd_ok _ _ _ Hrd)) as [_ Hu]. inversion Hu as [|? ? [_ Hu32] _]; subst.
  destruct (entry_spec e He) as (_ & Hl & _). destruct Hls as [Hk Hc Hok]. unfold DIRENT_SIZE.
  destruct (write_at_spec d di f (Z.of_nat i * 32) (entry_bytes e) Hrd) as (d' & Hrun & Hrd' & Hs & Hc');
    [lia|lia|lia|by intros E; rewrite E in Hl|].
  assert (io_len di (Z.of_nat i * 32) (Z.of_nat (length (entry_bytes e))) = 32) as En by (unfold io_len; lia).
  rewrite En in *. exists d'. split_and!; try done. split; [done| |].
  - destruct (lookup_lt_is_Some_2 es i Hi) as [x Hx].
    rewrite Hc', Hc, (flat_map_insert 32 _ _ _ x) by (done || by apply entries_length).
    rewrite take_ge by lia. f_equal. lia.
  - by apply Forall_insert.
Qed.

(** An entry past the end reads as an empty one. *)
Lemma read_any d di f es j :
  readable di f d -> listing d di f es -> 0 <= j < 2 ^ 32 ->
  exists n, run (DiskInode_read_at di (j * DIRENT_SIZE) (as_bytes DirEntry_empty)) d =
    Ok ((n, entry_bytes (default ([], 0) (es !! Z.to_nat j))), d).
Proof.
  intros Hrd Hls Hj. destruct (es !! Z.to_nat j) as [e|] eqn:He.
  - exists 32. rewrite Z.mul_comm. apply (read_entry d di f es j e); (done || lia).
  - assert (length es <= Z.to_nat j)%nat by (by apply lookup_ge_None_1). pose proof (listing_size d di f es Hrd Hls) as Hsz.
    assert (Z.of_nat (length (as_bytes DirEntry_empty)) = 32) as Hl by done.
    exists 0. unfold DIRENT_SIZE. rewrite (read_at_spec d di f) by (done || lia).
    assert (io_len di (j * 32) (Z.of_nat (length (as_bytes DirEntry_empty))) = 0) as ->.
    { rewrite Hl. unfold io_len. lia. }
    done.
Qed.

(** Entries with other names are passed over by the loop of [delete]. *)
Lemma delete_skip self nm c last_dirent rest d di f es idxs :
  readable di f d -> listing d di f es -> nm <> [] ->
  Forall (fun j => 0 <= j < 2 ^ 32 /\ forall e, es !! Z.to_nat j = Some e -> e.1 <> nm) idxs ->
  run (delete_loop self nm c last_dirent (idxs ++ rest) di) d =
    run (delete_loop self nm c last_dirent rest di) d.
Proof.
  intros Hrd Hls Hnm. induction 1 as [|j idxs [Hj Hne] _ IH]; [done|]. cbn [app delete_loop].
  destruct (read_any d di f es j Hrd Hls Hj) as [n Hrun]. rewrite (run_bind_Ok _ _ _ _ _ Hrun).
  set (e := default ([], 0) (es !! Z.to_nat j)).
  assert (entry_ok e /\ e.1 <> nm) as [He Hn].
  { unfold e. destruct (es !! Z.to_nat j) as [x|] eqn:Hx; cbn.
    - split; [by apply (Forall_lookup_1 _ _ _ _ (ls_ok _ _ _ _ Hls) Hx)|by apply Hne].
    - split; [|done]. split; [|done]. split_and!; [set_solver|done|cbn; lia]. }
  destruct (entry_spec e He) as (_ & _ & Hb & Hname). rewrite Hb, Hname. cbn [lift bind].
  rewrite bool_decide_false by done. exact IH.
Qed.

(** The list after the entry at [i] is overwritten by the last one, which is
    then cut off. *)
Definition swap_remove (i : nat) (es : list dirent) : list dirent :=
  match last es with
  | Some e => take (length es - 1) (<[i := e]> es)
  | None => es
  end.

Lemma remove_entry_perm i es e :
  es !! i = Some e -> e :: swap_remove i es ≡ₚ es.
Proof.
  intros He. pose proof (lookup_lt_Some _ _ _ He) as Hi. unfold swap_remove.
  destruct es as [|x es _] using rev_ind; [done|].
  rewrite last_snoc, length_app, Nat.add_sub. cbn [length] in Hi. rewrite length_app in Hi. cbn in Hi.
  destruct (decide (i = length es)) as [->|Hne].
  - rewrite list_lookup_middle in He by done. injection He as ->.
    rewrite insert_app_r_alt by lia. rewrite take_app_length. apply Permutation_cons_append.
  - rewrite insert_app_l by lia. rewrite take_app_le by (rewrite length_insert; lia).
    rewrite take_ge by (rewrite length_insert; lia). rewrite lookup_app_l in He by lia.
    rewrite insert_take_drop by lia. rewrite <- (take_drop_middle _ _ _ He) at 3.
    rewrite <- (Permutation_cons_append _ x), <- !Permutation_middle. apply perm_swap.
Qed.
