(* ===== verification/FileSystem.v ===== *)
(** * The file system as a map of files

    [fs_rep] is the state of a whole file system: every inode whose bit is
    set in the inode bitmap has a well-formed slot and owns blocks of the data
    area, and no two inodes share a block.  The operations of
    [easy-fs/src/vfs.rs] on one inode keep it, change that inode alone, and
    are, read as a map from inode numbers to contents, the expected updates. *)

From S2P Require Import Prelude Bytes Config BlockStore Bitmap Layout BlockTree InodeForest.
From S2P Require Import LayoutGrow LayoutClear LayoutIO Efs Vfs VfsSpec Directory.

(** ** Slots in a block *)

(** Writing one value of a block keeps the others. *)
Lemma as_ref_other {T} `{ReprLaws T} (b : block) (off off' : Z) (t : T) :
  length b = Z.to_nat BLOCK_SIZE -> fits T off -> fits T off' -> type_wf t ->
  off + Z.of_nat (type_size T) <= off' \/ off' + Z.of_nat (type_size T) <= off ->
  as_ref (T := T) (write_ref b off t) off' = as_ref b off'.
Proof.
  intros Hb [Ho Hs] [Ho' Hs'] Ht Hd. unfold as_ref, write_ref. efs_consts.
  rewrite (proj2 (Z.leb_le _ _)) by lia. cbn [assert res_bind].
  assert (length (slice (Z.to_nat off) (type_size T) b) = type_size T) as Hl
    by (apply length_slice; lia).
  pose proof (length_into_bytes _ t Hl Ht) as Hi.
  rewrite slice_splice_disjoint by lia. done.
Qed.

Section filesystem.
Context (efs : EasyFileSystem) (area : Z).

Abbreviation ibm := (inode_bitmap efs).
Abbreviation dbm := (data_bitmap efs).
Abbreviation start := (data_area_start_block efs).
Abbreviation ninodes := (Bitmap_maximum ibm).

Definition inode_of (id : Z) : Inode := Inode_new (disk_inode_position efs id) efs.

Definition inode_bitmap_range : list Z := seqZ (start_block_id ibm) (bitmap_blocks ibm).

(** The inode bitmap and the inode area behind it are on the disk, before the
    data bitmap, with nothing of them locked; every slot of the area holds
    bytes that are an inode. *)
Record inodes_ready (d : disk) : Prop := {
  ir_bitmap : bitmap_ready ibm d;
  ir_start : 0 <= start_block_id ibm /\ 0 <= bitmap_blocks ibm;
  ir_area : start_block_id ibm + bitmap_blocks ibm <= inode_area_start_block efs;
  ir_end : inode_area_start_block efs + ninodes / 4 <= start_block_id dbm;
  ir_u32 : ninodes <= 2 ^ 32;
  ir_slots : forall id, 0 <= id < ninodes -> exists di, inode_at (inode_of id) d di;
}.

(** The files of the disk, without the inode bitmap. *)
Record fs_files (d : disk) (m : gmap Z (DiskInode * forest)) : Prop := {
  fr_data : data_ready efs area d;
  fr_inodes : inodes_ready d;
  fr_held : held d = ∅;
  fr_range : forall id x, m !! id = Some x -> 0 <= id < ninodes;
  fr_at : forall id di f, m !! id = Some (di, f) -> inode_at (inode_of id) d di;
  fr_owner : forall id di f, m !! id = Some (di, f) -> owner efs area d di f;
  fr_apart : forall id id' di di' f f', m !! id = Some (di, f) -> m !! id' = Some (di', f') ->
    id <> id' -> all_blocks f ## all_blocks f';
}.

(** The set bits of the inode bitmap are the inodes of the map. *)
Definition ids_ok (d : disk) (m : gmap Z (DiskInode * forest)) : Prop :=
  forall id, 0 <= id < ninodes -> bit_at ibm d id = bool_decide (is_Some (m !! id)).

Definition fs_rep (d : disk) (m : gmap Z (DiskInode * forest)) : Prop :=
  fs_files d m /\ ids_ok d m.

(** ** Positions *)

Lemma slot_position d id :
  data_ready efs area d -> inodes_ready d -> 0 <= id < ninodes ->
  block_id (inode_of id) = inode_area_start_block efs + id / 4 /\
  block_offset (inode_of id) = id mod 4 * 128 /\
  inode_area_start_block efs <= block_id (inode_of id) < start_block_id dbm.
Proof.
  intros Hd [_ Hs Ha He Hu _] Hid. pose proof (dr_start _ _ _ Hd) as Hst. pose proof (dr_end _ _ _ Hd) as Hen.
  pose proof (dr_area _ _ _ Hd). pose proof (data_ready_blocks _ _ _ Hd).
  unfold inode_of, disk_inode_position, Inode_new. cbn [fst snd block_id block_offset].
  change inodes_per_block with 4. change inode_size with 128.
  assert (0 <= id / 4) by (apply Z.div_pos; lia).
  assert (id / 4 < ninodes / 4).
  { unfold Bitmap_maximum in *. efs_consts. apply Z.div_lt_upper_bound; [lia|].
    replace (bitmap_blocks ibm * 4096) with ((bitmap_blocks ibm * 1024) * 4) in * by lia.
    rewrite Z.div_mul by lia. lia. }
  rewrite w32_id by (unfold is_u32; lia). split_and!; (done || lia).
Qed.

Lemma slot_fits id : fits DiskInode (block_offset (inode_of id)).
Proof.
  unfold fits, inode_of, disk_inode_position, Inode_new. cbn [snd block_offset].
  change inodes_per_block with 4. change inode_size with 128.
  pose proof (Z.mod_pos_bound id 4 ltac:(lia)). efs_consts.
  change (Z.of_nat (type_size DiskInode)) with 128. lia.
Qed.

Lemma slot_ok_of d id :
  data_ready efs area d -> inodes_ready d -> 0 <= id < ninodes -> inode_slot efs (inode_of id).
Proof. intros Hd Hi Hid. split; [apply (slot_position d id Hd Hi Hid)|apply slot_fits]. Qed.

(** A slot is kept by a write to another slot and by writes elsewhere. *)
Lemma slot_kept X d d' id id' di' di :
  data_ready efs area d -> inodes_ready d -> 0 <= id < ninodes -> 0 <= id' < ninodes -> id <> id' ->
  slot_written (inode_of id) d d' di' -> DiskInode_wf di' ->
  same_except (block_id (inode_of id) :: X) d d' ->
  (forall b, inode_area_start_block efs <= b < start_block_id dbm -> b ∉ X) ->
  inode_at (inode_of id') d di -> inode_at (inode_of id') d' di.
Proof.
  intros Hd Hi Hid Hid' Hne (b & Hb & Hb') Hwf (_ & _ & _ & Hs) HX (b0 & Hb0 & Href).
  destruct (slot_position d id Hd Hi Hid) as (E1 & E2 & E3).
  destruct (slot_position d id' Hd Hi Hid') as (E1' & E2' & E3').
  destruct (decide (block_id (inode_of id') = block_id (inode_of id))) as [E|E].
  - rewrite E in *. assert (b0 = b) as -> by congruence. unfold inode_at. rewrite E.
    eexists. split; [exact Hb'|]. rewrite as_ref_other; try done; try apply slot_fits.
    + by apply (dr_wf _ _ _ Hd _ _ Hb).
    + change (Z.of_nat (type_size DiskInode)) with 128. rewrite E2, E2'.
      assert (id / 4 = id' / 4) by lia.
      pose proof (Z.div_mod id 4 ltac:(lia)). pose proof (Z.div_mod id' 4 ltac:(lia)). lia.
  - exists b0. split; [|done]. rewrite Hs; [done|]. apply not_elem_of_cons. split; [done|].
    by apply HX.
Qed.

(** ** Frames *)

Lemma bitmap_ready_same bm X d d' :
  disk_wf d -> same_except X d d' -> bitmap_ready bm d -> bitmap_ready bm d'.
Proof.
  intros Hwf Hs [Hr Hk]. pose proof Hs as (Hh & _ & Hwf' & _). split; [unfold room in *; by rewrite Hh|].
  intros k Hkr. destruct (Hk k Hkr) as (? & b & Hb & _). rewrite Hh. split; [done|].
  destruct (same_except_lookup _ _ _ _ Hs ltac:(by exists b)) as [b' Hb'].
  exists b'. split; [done|]. by apply (Hwf' Hwf _ _ Hb').
Qed.

Lemma content_frame X d d' di f :
  same_except X d d' -> data_blocks f ## X -> content d' di f = content d di f.
Proof.
  intros (_ & _ & _ & Hs) Hd. unfold content, file_bytes. rewrite !flat_map_concat_map.
  do 2 f_equal. apply map_ext_in. intros b Hb%list_elem_of_In. unfold block_bytes.
  rewrite Hs; [done|]. intros Hx. by apply (Hd b).
Qed.

(** An inode keeps its blocks and content when others are written. *)
Lemma owner_frame X d d' di f :
  owner efs area d di f -> same_except X d d' -> all_blocks f ## X ->
  (forall j, 0 <= j < Bitmap_maximum dbm -> start + j ∈ all_blocks f -> bit_at dbm d j = true ->
     bit_at dbm d' j = true) ->
  owner efs area d' di f /\ content d' di f = content d di f.
Proof.
  intros [Hd Hok Hnd Ha] Hs Hdis Hbit. split.
  - split; [by eapply data_ready_same| |done|].
    + eapply forest_frame; [exact Hs| |done]. intros b Hb Hx. apply (Hdis b); [|done]. apply meta_data_all. by left.
    + rewrite Forall_forall in Ha |- *. intros b Hb. destruct (Ha b Hb) as [Hin Hset].
      split; [done|]. pose proof (dr_area _ _ _ Hd). unfold in_area in Hin.
      apply Hbit; [lia| |done]. by replace (start + (b - start)) with b by lia.
  - eapply content_frame; [exact Hs|]. intros b Hb Hx. apply (Hdis b); [|done]. apply meta_data_all. by right.
Qed.

(** What an operation on the inode [id] does: its forest goes from [f] to
    [f'], with blocks that were free; the bits of blocks that are not its own
    stay set; it writes its slot, its blocks and the bitmaps. *)
Record local_step (id : Z) (f f' : forest) (di' : DiskInode) (d d' : disk) : Prop := {
  lo_state : file_state efs area (inode_of id) d' di' f';
  lo_new : forall b, b ∈ all_blocks f' -> b ∈ all_blocks f \/ bit_at dbm d (b - start) = false;
  lo_bits : forall j, 0 <= j < Bitmap_maximum dbm -> start + j ∉ all_blocks f ->
    bit_at dbm d j = true -> bit_at dbm d' j = true;
  lo_slot : slot_written (inode_of id) d d' di';
  lo_frame : same_except (block_id (inode_of id) ::
    inode_bitmap_range ++ bitmap_range efs ++ all_blocks f ++ all_blocks f') d d';
}.

(** The forest of an inode, empty when it is not in the map. *)
Definition forest_of (m : gmap Z (DiskInode * forest)) (id : Z) : forest :=
  from_option snd empty_forest (m !! id).

Lemma area_blocks d di f b :
  owner efs area d di f -> b ∈ all_blocks f -> in_area efs area b /\ bit_at dbm d (b - start) = true.
Proof. intros Ho. pose proof (ow_area _ _ _ _ _ Ho) as Ha. rewrite Forall_forall in Ha. apply Ha. Qed.

(** Blocks of the inode area are none of the others. *)
Lemma inode_block_apart d d' di f di' f' b :
  data_ready efs area d -> inodes_ready d ->
  (f = empty_forest \/ owner efs area d di f) -> owner efs area d' di' f' ->
  inode_area_start_block efs <= b < start_block_id dbm ->
  b ∉ inode_bitmap_range ++ bitmap_range efs ++ all_blocks f ++ all_blocks f'.
Proof.
  intros Hd Hi Hf Ho' Hb. pose proof (data_ready_blocks _ _ _ Hd). pose proof (dr_start _ _ _ Hd).
  destruct Hi as [_ ? ? ? _ _].
  rewrite !elem_of_app. intros [Hin%elem_of_seqZ|[Hin%elem_of_seqZ|[Hin|Hin]]]; [lia|lia| |].
  - destruct Hf as [->|Ho]; [set_solver|]. pose proof (area_blocks _ _ _ _ Ho Hin) as [Hx _].
    unfold in_area in Hx. lia.
  - pose proof (area_blocks _ _ _ _ Ho' Hin) as [Hx _]. unfold in_area in Hx. lia.
Qed.

(** Another inode's blocks are apart from everything a step writes. *)
Lemma step_apart d m id f f' di' d' id2 di2 f2 :
  fs_files d m -> 0 <= id < ninodes -> f = forest_of m id -> local_step id f f' di' d d' ->
  m !! id2 = Some (di2, f2) -> id2 <> id ->
  all_blocks f2 ## all_blocks f /\ all_blocks f2 ## all_blocks f' /\
  all_blocks f2 ## block_id (inode_of id) ::
    inode_bitmap_range ++ bitmap_range efs ++ all_blocks f ++ all_blocks f'.
Proof.
  intros Hfs Hid -> Hlo Hm2 Hne. destruct (slot_position d id (fr_data _ _ Hfs) (fr_inodes _ _ Hfs) Hid) as (_ & _ & Hb).
  pose proof (fr_owner _ _ Hfs _ _ _ Hm2) as Ho2. pose proof (fr_data _ _ Hfs) as Hd.
  pose proof (data_ready_blocks _ _ _ Hd). pose proof (dr_start _ _ _ Hd).
  destruct (fr_inodes _ _ Hfs) as [_ ? ? ? _ _].
  assert (all_blocks f2 ## all_blocks (forest_of m id)) as H1.
  { unfold forest_of. destruct (m !! id) as [[di f]|] eqn:Hm; [|set_solver]. cbn [from_option snd].
    eapply fr_apart; eauto. }
  assert (all_blocks f2 ## all_blocks f') as H2.
  { intros b Hb2 Hb'. destruct (lo_new _ _ _ _ _ _ Hlo b Hb') as [Hin|Hfree]; [by apply (H1 b)|].
    destruct (area_blocks _ _ _ _ Ho2 Hb2). congruence. }
  split_and!; [done|done|]. intros b Hb2. destruct (area_blocks _ _ _ _ Ho2 Hb2) as [Hin _].
  unfold in_area in Hin. rewrite elem_of_cons, !elem_of_app.
  intros [->|[Hx%elem_of_seqZ|[Hx%elem_of_seqZ|[Hx|Hx]]]]; [lia|lia|lia|by apply (H1 b)|by apply (H2 b)].
Qed.

(** A step on one inode keeps the file system and the other files. *)
Lemma fs_local d m id f' di' d' :
  fs_files d m -> 0 <= id < ninodes -> local_step id (forest_of m id) f' di' d d' ->
  fs_files d' (<[id := (di', f')]> m) /\
  (forall id2 di2 f2, m !! id2 = Some (di2, f2) -> id2 <> id -> content d' di2 f2 = content d di2 f2).
Proof.
  intros Hfs Hid Hlo. pose proof Hfs as [Hd Hi Hh Hr Hat How Hap].
  pose proof Hlo as [[Hsl' Hat' Ho' Hh'] _ Hbits Hslot Hframe].
  assert (forall id2 di2 f2, m !! id2 = Some (di2, f2) -> id2 <> id ->
    owner efs area d' di2 f2 /\ content d' di2 f2 = content d di2 f2) as Hothers.
  { intros id2 di2 f2 Hm2 Hne.
    destruct (step_apart d m id _ f' di' d' id2 di2 f2 Hfs Hid eq_refl Hlo Hm2 Hne) as (H1 & H2 & H3).
    eapply owner_frame; [by eapply How|exact Hframe|done|]. intros j Hj Hin Hset. apply Hbits; [done| |done].
    intros Hin'. by apply (H1 _ Hin). }
  assert (forall b, inode_area_start_block efs <= b < start_block_id dbm ->
    b ∉ inode_bitmap_range ++ bitmap_range efs ++ all_blocks (forest_of m id) ++ all_blocks f') as Hia.
  { intros b Hb. unfold forest_of. destruct (m !! id) as [[di f]|] eqn:Hm; cbn [from_option snd].
    - eapply inode_block_apart; eauto.
    - eapply (inode_block_apart d d' di' empty_forest); eauto. }
  assert (forall id2 di2, 0 <= id2 < ninodes -> id2 <> id -> inode_at (inode_of id2) d di2 ->
    inode_at (inode_of id2) d' di2) as Hslots.
  { intros id2 di2 Hid2 Hne. eapply (slot_kept _ d d' id id2 di'); try done.
    apply (fo_wf _ _ _ (ow_ok _ _ _ _ _ Ho')). }
  split; [|intros; by eapply Hothers]. split; [apply Ho'| |done| | | |].
  - destruct Hi as [Hb ? ? ? ? Hs]. split; try done; [by eapply bitmap_ready_same; [apply Hd|..]|].
    intros id2 Hid2. destruct (decide (id2 = id)) as [->|Hne]; [by exists di'|].
    destruct (Hs id2 Hid2) as [di2 H2]. exists di2. by apply Hslots.
  - intros id2 x. rewrite lookup_insert_Some. intros [[<- _]|[_ Hm]]; [done|by eapply Hr].
  - intros id2 di2 f2. rewrite lookup_insert_Some. intros [[<- [= <- <-]]|[Hne Hm]]; [done|].
    apply Hslots; [by eapply Hr|done|by eapply Hat].
  - intros id2 di2 f2. rewrite lookup_insert_Some. intros [[<- [= <- <-]]|[Hne Hm]]; [done|].
    by apply (Hothers id2).
  - intros id1 id2 di1 di2 f1 f2. rewrite !lookup_insert_Some.
    intros [[<- [= <- <-]]|[Hne1 Hm1]] [[<- [= <- <-]]|[Hne2 Hm2]] Hne; [done| | |by eapply Hap].
    + destruct (step_apart d m id _ f' di' d' id2 di2 f2 Hfs Hid eq_refl Hlo Hm2 ltac:(done)) as (_ & H2 & _).
      intros b Hb1 Hb2. by apply (H2 b).
    + by apply (step_apart d m id _ f' di' d' id1 di1 f1 Hfs Hid eq_refl Hlo Hm1 ltac:(done)).
Qed.

Lemma fs_delete d m id : fs_files d m -> fs_files d (delete id m).
Proof.
  intros [Hd Hi Hh Hr Hat How Hap]. split; try done.
  - intros id2 x [_ Hm]%lookup_delete_Some. by eapply Hr.
  - intros id2 di2 f2 [_ Hm]%lookup_delete_Some. by eapply Hat.
  - intros id2 di2 f2 [_ Hm]%lookup_delete_Some. by eapply How.
  - intros id1 id2 di1 di2 f1 f2 [_ H1]%lookup_delete_Some [_ H2]%lookup_delete_Some. by eapply Hap.
Qed.

(** The state of one file. *)
Lemma fs_file_state d m id di f :
  fs_files d m -> m !! id = Some (di, f) -> file_state efs area (inode_of id) d di f.
Proof.
  intros [Hd Hi Hh Hr Hat How _] Hm. split; [|by eapply Hat|by eapply How|done].
  eapply slot_ok_of; [done|done|by eapply Hr].
Qed.

(** Inode bits outside the written blocks. *)
Lemma ids_frame X d d' :
  same_except X d d' -> X ## inode_bitmap_range ->
  forall id, 0 <= id < ninodes -> bit_at ibm d' id = bit_at ibm d id.
Proof.
  intros (_ & _ & _ & Hs) Hd id Hid. apply bit_at_frame; [|done]. intros k Hk. apply Hs. intros Hin.
  apply (Hd _ Hin). apply elem_of_seqZ. lia.
Qed.

Lemma local_ids d m id f f' di di' d' :
  fs_rep d m -> m !! id = Some (di, f) ->
  same_except (block_id (inode_of id) :: bitmap_range efs ++ all_blocks f ++ all_blocks f') d d' ->
  owner efs area d' di' f' -> ids_ok d' (<[id := (di', f')]> m).
Proof.
  intros [Hfs Hids] Hm Hs Ho' id2 Hid2. pose proof (fr_range _ _ Hfs _ _ Hm) as Hid.
  pose proof Hfs as [Hd Hi _ _ _ How _]. destruct (slot_position d id Hd Hi Hid) as (_ & _ & Hb).
  pose proof (data_ready_blocks _ _ _ Hd). pose proof (dr_start _ _ _ Hd).
  assert (block_id (inode_of id) :: bitmap_range efs ++ all_blocks f ++ all_blocks f' ## inode_bitmap_range) as Hdis.
  { pose proof (How _ _ _ Hm) as Ho. destruct Hi as [_ ? ? ? _ _]. intros b Hx Hy%elem_of_seqZ.
    apply elem_of_cons in Hx as [->|[Hx%elem_of_seqZ|[Hx|Hx]%elem_of_app]%elem_of_app]; [lia|lia| |].
    - destruct (area_blocks _ _ _ _ Ho Hx) as [Hin _]. unfold in_area in Hin. lia.
    - destruct (area_blocks _ _ _ _ Ho' Hx) as [Hin _]. unfold in_area in Hin. lia. }
  rewrite (ids_frame _ _ _ Hs Hdis), Hids by done.
  apply bool_decide_ext. rewrite lookup_insert_is_Some. destruct (decide (id = id2)) as [<-|]; [|naive_solver].
  split; [by left|]. intros _. by exists (di, f).
Qed.

(** ** The files *)

(** The kind and the content of every inode. *)
Definition fs_view (d : disk) (m : gmap Z (DiskInode * forest)) : gmap Z (DiskInodeKind * list u8) :=
  (fun x => (kind x.1, content d x.1 x.2)) <$> m.

Lemma fs_view_lookup d m id di f :
  m !! id = Some (di, f) -> fs_view d m !! id = Some (kind di, content d di f).
Proof. intros Hm. unfold fs_view. by rewrite lookup_fmap, Hm. Qed.

Lemma fs_step d m id f' di' d' :
  fs_files d m -> 0 <= id < ninodes -> local_step id (forest_of m id) f' di' d d' ->
  fs_files d' (<[id := (di', f')]> m) /\
  fs_view d' (<[id := (di', f')]> m) = <[id := (kind di', content d' di' f')]> (fs_view d m).
Proof.
  intros Hfs Hid Hlo. destruct (fs_local d m id f' di' d' Hfs Hid Hlo) as [Hfs' Hc]. split; [done|].
  unfold fs_view. rewrite fmap_insert. apply map_eq. intros id2.
  destruct (decide (id2 = id)) as [->|Hne]; [by rewrite !lookup_insert_eq|].
  rewrite !lookup_insert_ne, !lookup_fmap by done.
  destruct (m !! id2) as [[di2 f2]|] eqn:Hm; [|done]. cbn. by rewrite (Hc id2 di2 f2).
Qed.

(** Blocks taken from the free ones. *)
Lemma free_blocks_clear d n u b :
  u = Z.add start <$> take n (free_data efs area d) -> b ∈ u -> bit_at dbm d (b - start) = false.
Proof.
  intros -> (i & -> & Hi)%list_elem_of_fmap. apply elem_of_take in Hi as (k & Hi%list_elem_of_lookup_2 & _).
  apply free_bits_elem in Hi as [_ Hi]. by replace (start + i - start) with i by lia.
Qed.

(** What growing an inode to [new_size] takes from the free blocks. *)
Definition blocks_taken (di : DiskInode) (new_size : Z) : nat :=
  Z.to_nat (count_total_block (Z.max (size di) new_size) - count_total_block (size di)).

Lemma taken_length d d' di di' f f' u new_size :
  owner efs area d di f -> owner efs area d' di' f' -> size di' = Z.max (size di) new_size ->
  all_blocks f' ≡ₚ all_blocks f ++ u -> length u = blocks_taken di new_size.
Proof.
  intros Ho Ho' Hsz Hp. unfold blocks_taken. rewrite <- Hsz.
  pose proof (forest_lengths _ _ _ (ow_ok _ _ _ _ _ Ho)) as [_ H1].
  pose proof (forest_lengths _ _ _ (ow_ok _ _ _ _ _ Ho')) as [_ H2].
  apply Permutation_length in Hp. rewrite length_app in Hp. lia.
Qed.

Lemma fs_write_run d m id di f off buf :
  fs_rep d m -> m !! id = Some (di, f) -> kind di = File -> buf <> [] -> 0 <= off ->
  let e := off + Z.of_nat (length buf) in
  is_u32 e -> count_data_block e <= INDIRECT3_BOUND -> enough_free efs area d di e ->
  exists di' f' d' pad, run (Inode_write_at (inode_of id) off buf) d = Ok (Z.of_nat (length buf), d') /\
    fs_rep d' (<[id := (di', f')]> m) /\ kind di' = File /\ size di' = Z.max (size di) e /\
    content d' di' f' = splice (Z.to_nat off) buf (content d di f ++ pad) /\
    Z.of_nat (length (content d di f ++ pad)) = Z.max (size di) e /\
    length (free_data efs area d') = (length (free_data efs area d) - blocks_taken di e)%nat /\
    fs_view d' (<[id := (di', f')]> m) = <[id := (File, content d' di' f')]> (fs_view d m).
Proof.
  intros [Hfs Hids] Hm Hk Hne Hoff e He Hb Hfree. pose proof (fs_file_state _ _ _ _ _ Hfs Hm) as Hst.
  destruct (Inode_write_at_run efs area (inode_of id) eq_refl d di f off buf) as
    (di' & f' & d' & u & pad & Hrun & Hst' & Hk' & Hsz & Hc & Hlc & Hp & Hfr & Hu & Hbit & Hsl & Hs); try done.
  assert (local_step id (forest_of m id) f' di' d d') as Hlo.
  { unfold forest_of. rewrite Hm. cbn [from_option snd]. split; try done.
    - intros b. rewrite Hp, elem_of_app. intros [?|Hbu]; [by left|right]. by eapply free_blocks_clear.
    - intros j Hj _ Hset. rewrite Hbit, Hset by done. by rewrite orb_true_r.
    - eapply same_except_weaken; [|exact Hs]. intros x. rewrite !elem_of_cons, !elem_of_app. tauto. }
  destruct (fs_step d m id f' di' d' Hfs (fr_range _ _ Hfs _ _ Hm) Hlo) as [Hfs' Hv].
  exists di', f', d', pad. split_and!; try done; [|by rewrite Hlc| |by rewrite Hv, Hk'].
  - split; [done|]. eapply (local_ids d m id f f'); try done; [|apply Hst'].
    eapply same_except_weaken; [|exact Hs]. intros b. rewrite !elem_of_cons, !elem_of_app. tauto.
  - rewrite Hfr, length_drop. f_equal. eapply taken_length; [apply Hst|apply Hst'|exact Hsz|exact Hp].
Qed.

(** C26: [Inode::write_at] on a file of a well-formed file system, with enough
    free blocks: it writes the whole buffer, the file system stays
    well-formed (no two files come to share a block), and as a map of files
    it changes that file alone, to its old content, extended if needed, with
    the buffer at [off]. *)
Theorem fs_write_correct d m id di f off buf :
  fs_rep d m -> m !! id = Some (di, f) -> kind di = File -> buf <> [] -> 0 <= off ->
  let e := off + Z.of_nat (length buf) in
  is_u32 e -> count_data_block e <= INDIRECT3_BOUND -> enough_free efs area d di e ->
  exists d' m' pad, run (Inode_write_at (inode_of id) off buf) d = Ok (Z.of_nat (length buf), d') /\
    fs_rep d' m' /\
    fs_view d' m' = <[id := (File, splice (Z.to_nat off) buf (content d di f ++ pad))]> (fs_view d m) /\
    Z.of_nat (length (content d di f ++ pad)) = Z.max (size di) e.
Proof.
  intros Hrep Hm Hk Hne Hoff e He Hb Hfree.
  destruct (fs_write_run d m id di f off buf) as (di' & f' & d' & pad & ? & ? & ? & ? & Hc & ? & ? & Hv); try done.
  rewrite Hc in Hv. by exists d', (<[id := (di', f')]> m), pad.
Qed.

Lemma fs_clear_run d m id di f :
  fs_rep d m -> m !! id = Some (di, f) ->
  exists d' m', run (Inode_clear (inode_of id)) d = Ok (tt, d') /\ fs_rep d' m' /\
    fs_view d' m' = <[id := (kind di, [])]> (fs_view d m) /\
    forall b, b ∈ all_blocks f ->
      blocks d' !! b = Some zero_block /\ (b - start) ∈ free_data efs area d'.
Proof.
  intros [Hfs Hids] Hm. pose proof (fs_file_state _ _ _ _ _ Hfs Hm) as Hst.
  destruct (Inode_clear_run efs area (inode_of id) eq_refl d di f Hst) as
    (di' & d' & Hrun & Hst' & Hsz & Hk' & Hz & Hbit & Hsl & Hs).
  assert (local_step id (forest_of m id) empty_forest di' d d') as Hlo.
  { unfold forest_of. rewrite Hm. cbn [from_option snd]. split; try done.
    - intros b Hb. set_solver.
    - intros j Hj Hnin Hset. rewrite Hbit by done. by rewrite decide_False.
    - eapply same_except_weaken; [|exact Hs]. intros x. rewrite !elem_of_cons, !elem_of_app. tauto. }
  destruct (fs_step d m id _ di' d' Hfs (fr_range _ _ Hfs _ _ Hm) Hlo) as [Hfs' Hv].
  exists d', (<[id := (di', empty_forest)]> m). split_and!; try done.
  - split; [done|]. eapply (local_ids d m id f empty_forest); try done; [|apply Hst'].
    eapply same_except_weaken; [|exact Hs]. intros b. rewrite !elem_of_cons, !elem_of_app. tauto.
  - rewrite Hv, Hk'. do 2 f_equal. unfold content. by rewrite Hsz.
  - intros b Hb. split; [by apply Hz|]. pose proof (area_blocks _ _ _ _ (st_owner _ _ _ _ _ _ Hst) Hb) as [Hin _].
    unfold in_area in Hin. pose proof (dr_area _ _ _ (fr_data _ _ Hfs)).
    apply free_bits_elem. split; [lia|]. rewrite Hbit, decide_True; [done| |lia].
    by replace (start + (b - start)) with b by lia.
Qed.

(** C27: [Inode::clear] of a file or directory of a well-formed file system
    keeps it well-formed, empties that inode and changes no other; every
    block of the inode becomes a zeroed free block. *)
Theorem fs_clear_correct d m id di f :
  fs_rep d m -> m !! id = Some (di, f) ->
  exists d' m', run (Inode_clear (inode_of id)) d = Ok (tt, d') /\ fs_rep d' m' /\
    fs_view d' m' = <[id := (kind di, [])]> (fs_view d m) /\
    forall b, b ∈ all_blocks f ->
      blocks d' !! b = Some zero_block /\ (b - start) ∈ free_data efs area d'.
Proof. apply fs_clear_run. Qed.

(** ** Names *)

(** [Inode::find] in a directory that lists [es]: the inode of the first
    entry with the name, or none; the disk is unchanged. *)
Theorem fs_find_correct d m id di f es nm :
  fs_rep d m -> m !! id = Some (di, f) -> listing d di f es ->
  run (Inode_find (inode_of id) nm) d = Ok (inode_of <$> find_entry nm es, d).
Proof.
  intros [Hfs _] Hm Hls. pose proof (fs_file_state _ _ _ _ _ Hfs Hm) as Hst.
  pose proof (file_readable _ _ _ _ _ _ Hst) as Hrd. destruct Hst as [_ (b & Hb & Href) _ Hh].
  assert (d = Disk (blocks d) (held d)) as E by (by destruct d). rewrite E at 2.
  unfold Inode_find, read_disk_inode.
  eapply run_get_read; [rewrite Hh; set_solver| |exact Hb|exact Href|].
  { unfold room. rewrite Hh, size_empty. efs_consts. lia. }
  rewrite (run_bind_Ok _ _ _ _ _ (find_inode_id_spec nm _ di f es Hrd (listing_hold _ _ _ _ _ Hls))).
  by destruct (find_entry nm es).
Qed.

(** Writes before the inode area. *)
Lemma fs_frame X d d' m :
  same_except X d d' -> (forall b, b ∈ X -> b < inode_area_start_block efs) -> fs_files d m ->
  fs_files d' m /\ fs_view d' m = fs_view d m /\ free_data efs area d' = free_data efs area d.
Proof.
  intros Hs HX [Hd Hi Hh Hr Hat How Hap]. pose proof Hs as (Hh' & _ & _ & Hl).
  pose proof (data_ready_blocks _ _ _ Hd). pose proof (dr_start _ _ _ Hd).
  pose proof (dr_area _ _ _ Hd) as Har. pose proof Hi as [Hb ? ? ? ? Hsl].
  assert (0 <= ninodes / 4) by (unfold Bitmap_maximum; efs_consts; apply Z.div_pos; lia).
  assert (X ## bitmap_range efs) as Hdis.
  { intros b Hx Hy%elem_of_seqZ. specialize (HX b Hx). lia. }
  destruct (free_data_frame _ _ _ _ _ Hs Hdis Har) as [Hfree Hbit].
  assert (forall di f, owner efs area d di f -> owner efs area d' di f /\ content d' di f = content d di f) as Ho.
  { intros di f Ho. eapply owner_frame; [done|exact Hs| |].
    - intros b Hin Hx. destruct (area_blocks _ _ _ _ Ho Hin) as [Hia _]. unfold in_area in Hia.
      specialize (HX b Hx). lia.
    - intros j Hj _ Hset. by rewrite Hbit by done. }
  assert (forall id di, 0 <= id < ninodes -> inode_at (inode_of id) d di -> inode_at (inode_of id) d' di) as Ha.
  { intros id di Hid (b & Hb0 & Href). exists b. split; [|done]. rewrite Hl; [done|]. intros Hx.
    destruct (slot_position d id Hd Hi Hid) as (_ & _ & ?). specialize (HX _ Hx). lia. }
  split_and!; [split|..]; try done; try congruence.
  - by eapply data_ready_same.
  - split; try done; [by eapply bitmap_ready_same; [apply Hd|..]|].
    intros id Hid. destruct (Hsl id Hid) as [di Hdi]. exists di. by apply Ha.
  - intros id di f Hm. apply Ha; [by eapply Hr|by eapply Hat].
  - intros id di f Hm. by apply Ho; eapply How.
  - unfold fs_view. apply map_fmap_ext. intros id [di f] Hm. cbn. f_equal. by apply Ho; eapply How.
Qed.

Lemma inode_bits_before d : inodes_ready d ->
  forall b, b ∈ inode_bitmap_range -> b < inode_area_start_block efs.
Proof. intros [_ ? ? _ _ _] b Hb%elem_of_seqZ. lia. Qed.


(** The free inode numbers, in order. *)
Definition free_inodes (d : disk) : list Z := free_bits ibm ninodes d.

Lemma alloc_inode_run d m id l :
  fs_rep d m -> free_inodes d = id :: l ->
  0 <= id < ninodes /\ m !! id = None /\
  exists d', run (alloc_inode efs) d = Ok (id, d') /\ fs_files d' m /\ fs_view d' m = fs_view d m /\
    free_data efs area d' = free_data efs area d /\ free_inodes d' = l /\
    forall j, bit_at ibm d' j = if j =? id then true else bit_at ibm d j.
Proof.
  intros [Hfs Hids] Hf. pose proof (fr_inodes _ _ Hfs) as Hi. pose proof Hi as [Hb Hs _ _ Hu _].
  assert (id ∈ free_inodes d) as [Hid Hbit]%free_bits_elem by (rewrite Hf; by left).
  split; [done|]. split.
  { rewrite Hids in Hbit by done. by apply bool_decide_eq_false in Hbit; apply eq_None_not_Some. }
  destruct (Bitmap_alloc_free ibm ninodes ltac:(lia) d id l Hb (proj2 Hs) Hf) as (d' & Hrun & Hset & Hl).
  pose proof (bit_set_frame _ _ _ _ _ Hb Hid Hset) as Hsame.
  destruct (fs_frame _ d d' m Hsame (inode_bits_before d Hi) Hfs) as (Hfs' & Hv & Hfree).
  exists d'. split_and!; try done; [|by apply Hset].
  unfold alloc_inode. rewrite (run_bind_Ok _ _ _ _ _ Hrun). cbn [unwrap lift bind run].
  by rewrite w32_id by (unfold is_u32; lia).
Qed.

Lemma init_wf k di : DiskInode_wf di -> DiskInode_wf (DiskInode_init k di).
Proof.
  intros [_ Hu]. split; [done|]. inversion Hu as [|? ? _ Hu']; subst.
  apply Forall_app in Hu' as [_ Hi]. rewrite !Forall_cons in Hi. destruct Hi as (_ & _ & H3 & _).
  constructor; [done|]. apply Forall_app. split; [by apply Forall_replicate|].
  by rewrite !Forall_cons.
Qed.

(** Initialising the slot of a new inode. *)
Lemma init_inode_run d m id k :
  fs_files d m -> 0 <= id < ninodes -> m !! id = None ->
  exists di' d', run (modify_disk_inode (inode_of id)
      (fun di : DiskInode => Ret (tt, DiskInode_init k di))) d = Ok (tt, d') /\
    kind di' = k /\ size di' = 0 /\
    fs_files d' (<[id := (di', empty_forest)]> m) /\
    fs_view d' (<[id := (di', empty_forest)]> m) = <[id := (k, [])]> (fs_view d m) /\
    same_except [block_id (inode_of id)] d d'.
Proof.
  intros Hfs Hid Hm. pose proof Hfs as [Hd Hi Hh _ _ _ _]. destruct (ir_slots _ Hi id Hid) as [di Hat].
  pose proof Hat as (b0 & Hb0 & Href0). set (di' := DiskInode_init k di).
  assert (DiskInode_wf di') as Hwf.
  { apply init_wf. by apply (as_ref_wf _ _ _ (dr_wf _ _ _ Hd _ _ Hb0) (proj1 (slot_fits id)) Href0). }
  destruct (modify_inode_run efs (inode_of id) (fun di : DiskInode => Ret (tt, DiskInode_init k di)) d
    (hold (block_id (inode_of id)) d) [] di di' tt) as (b & b' & Hrun & Hl' & Href & Hb & Eb' & Hs); try done.
  { by apply (slot_ok_of d). } { apply Hd. } { set_solver. }
  set (d' := Disk _ ∅) in *.
  pose proof (data_ready_same _ _ _ _ _ Hs Hd) as Hd'.
  destruct (slot_position d id Hd Hi Hid) as (_ & _ & Hpos).
  assert (local_step id (forest_of m id) empty_forest di' d d') as Hlo.
  { unfold forest_of. rewrite Hm. cbn [from_option]. split.
    - split; [by apply (slot_ok_of d)| |by apply owner_empty; [|apply empty_forest_ok]|done].
      exists b'. split; [apply lookup_insert_eq|done].
    - set_solver.
    - intros j Hj _ Hset. rewrite <- Hset.
      refine (proj2 (free_data_frame _ _ _ _ _ Hs _ (dr_area _ _ _ Hd)) j Hj).
      intros x Hx%list_elem_of_singleton Hy%elem_of_seqZ. lia.
    - exists b. split; [done|]. rewrite <- Eb'. apply lookup_insert_eq.
    - eapply same_except_weaken; [|exact Hs]. intros x. rewrite !elem_of_cons, !elem_of_app. tauto. }
  destruct (fs_step d m id empty_forest di' d' Hfs Hid Hlo) as [Hfs' Hv].
  exists di', d'. split_and!; try done.
Qed.

Lemma flat_map_snoc {A B} (g : A -> list B) l x : flat_map g (l ++ [x]) = flat_map g l ++ g x.
Proof. rewrite flat_map_app. cbn [flat_map]. by rewrite app_nil_r. Qed.

(** [modify_disk_inode] around a run that grows the inode by free blocks [u]. *)
Lemma modify_grown {V} (g : DiskInode -> prog (V * DiskInode)) d m id di f d3 di' f' u v :
  fs_rep d m -> m !! id = Some (di, f) ->
  run (g di) (hold (block_id (inode_of id)) d) = Ok ((v, di'), d3) -> owner efs area d3 di' f' ->
  all_blocks f' ≡ₚ all_blocks f ++ u -> u = Z.add start <$> take (length u) (free_data efs area d) ->
  (forall j, 0 <= j < Bitmap_maximum dbm ->
     bit_at dbm d3 j = (bool_decide (start + j ∈ u) || bit_at dbm d j)%bool) ->
  same_except (bitmap_range efs ++ all_blocks f') (hold (block_id (inode_of id)) d) d3 ->
  exists d', run (modify_disk_inode (inode_of id) g) d = Ok (v, d') /\
    fs_rep d' (<[id := (di', f')]> m) /\ content d' di' f' = content d3 di' f' /\ held d' = ∅ /\
    free_data efs area d' = free_data efs area d3 /\
    fs_view d' (<[id := (di', f')]> m) = <[id := (kind di', content d3 di' f')]> (fs_view d m).
Proof.
  intros [Hfs Hids] Hm Hrun Ho3 Hp Hu Hbit Hs. pose proof (fs_file_state _ _ _ _ _ Hfs Hm) as Hst.
  destruct (modify_local efs area (inode_of id) eq_refl g d d3 (bitmap_range efs ++ all_blocks f') di f di' f' v Hst)
    as (d' & Hrun' & Hst' & Hc' & Hfr' & Hbit' & _ & Hsl & Hsame); try done.
  { intros Hin. eapply slot_not_in; [apply Hst|exact Ho3|exact Hin|done]. }
  assert (local_step id (forest_of m id) f' di' d d') as Hlo.
  { unfold forest_of. rewrite Hm. cbn [from_option snd]. split; try done.
    - intros b. rewrite Hp, elem_of_app. intros [?|Hbu]; [by left|right]. by eapply free_blocks_clear.
    - intros j Hj _ Hset. rewrite Hbit', Hbit, Hset by done. apply orb_true_r.
    - eapply same_except_weaken; [|exact Hsame]. intros b. rewrite !elem_of_cons, !elem_of_app. tauto. }
  destruct (fs_step d m id f' di' d' Hfs (fr_range _ _ Hfs _ _ Hm) Hlo) as [Hfs' Hv].
  exists d'. split_and!; [done|split; [done|]|done|apply Hst'|done|by rewrite Hv, Hc'].
  eapply (local_ids d m id f f'); try done; [|apply Hst'].
  eapply same_except_weaken; [|exact Hsame]. intros b. rewrite !elem_of_cons, !elem_of_app. tauto.
Qed.

(** The closure with which [create_inode] adds an entry to the directory. *)
Definition append_entry (self : Inode) (e : dirent) (dir_inode : DiskInode) : prog (() * DiskInode) :=
  let count := file_count dir_inode in
  let new_size := (count + 1) * DIRENT_SIZE in
  let! dir_inode := Inode_increase_size self (w32 new_size) dir_inode in
  let! dirent := lift (DirEntry_new e.1 e.2) in
  let! _ := DiskInode_write_at dir_inode (count * DIRENT_SIZE) (as_bytes dirent) in
  Ret (tt, dir_inode).

(** The entry goes behind the others. *)
Lemma append_entry_run d m id di f es e :
  fs_rep d m -> m !! id = Some (di, f) -> listing d di f es -> entry_ok e ->
  let new_size := (Z.of_nat (length es) + 1) * DIRENT_SIZE in
  is_u32 new_size -> count_data_block new_size <= INDIRECT3_BOUND -> enough_free efs area d di new_size ->
  exists di' f' d', run (modify_disk_inode (inode_of id) (append_entry (inode_of id) e)) d = Ok (tt, d') /\
    fs_rep d' (<[id := (di', f')]> m) /\ listing d' di' f' (es ++ [e]) /\ held d' = ∅ /\
    length (free_data efs area d') = (length (free_data efs area d) - blocks_taken di new_size)%nat /\
    fs_view d' (<[id := (di', f')]> m) = <[id := (Directory, flat_map entry_bytes (es ++ [e]))]> (fs_view d m).
Proof.
  intros Hrep Hm Hls He new_size Hu Hb Hfree. pose proof Hrep as [Hfs Hids].
  pose proof (fs_file_state _ _ _ _ _ Hfs Hm) as Hst. pose proof Hst as [Hslot _ Ho Hh].
  pose proof (file_readable _ _ _ _ _ _ Hst) as Hrd.
  pose proof (listing_size _ di f es Hrd (listing_hold _ _ _ _ _ Hls)) as Hsz.
  pose proof (listing_count _ di f es Hrd (listing_hold _ _ _ _ _ Hls)) as Hcount.
  destruct (entry_spec e He) as (Hnew & Hlen & _ & _).
  assert (Z.of_nat (length es) * 32 + Z.of_nat (length (entry_bytes e)) = new_size) as Ee
    by (unfold new_size, DIRENT_SIZE; lia).
  destruct (grow_write efs area (inode_of id) eq_refl (hold (block_id (inode_of id)) d) di f
    (Z.of_nat (length es) * 32) (entry_bytes e)) as
    (di' & f' & d1 & d3 & u & pad & Hrun1 & Hrun2 & Ho3 & Hk' & Hsz' & Hc & Hlc & Hp & Hfr & Hu' & Hbit & Hs);
    rewrite ?Ee; try done; [by apply owner_hold; [..|apply Hslot]|by apply room_held|
      by intros E; rewrite E in Hlen|lia|]. rewrite Ee in *.
  destruct (modify_grown (append_entry (inode_of id) e) d m id di f d3 di' f' u tt) as
    (d' & Hrun & Hfs' & Hc' & Hh' & Hfr' & Hv); try done.
  { unfold append_entry. rewrite Hcount. fold new_size. rewrite (w32_id new_size) by done.
    rewrite (run_bind_Ok _ _ _ _ _ Hrun1), Hnew. cbn [lift bind].
    change DIRENT_SIZE with 32. by rewrite (run_bind_Ok _ _ _ _ _ Hrun2). }
  assert (content d3 di' f' = flat_map entry_bytes (es ++ [e])) as Hcc.
  { rewrite Hc, flat_map_snoc. pose proof (length_content _ _ _ Hrd) as HL.
    change (content (hold (block_id (inode_of id)) d) di f) with (content d di f) in *.
    rewrite length_app in Hlc. rewrite (ls_content _ _ _ _ Hls) in *.
    unfold splice. rewrite take_app_le by lia. rewrite take_ge by lia. f_equal.
    rewrite drop_ge, app_nil_r by (rewrite length_app; lia). done. }
  pose proof (ls_kind _ _ _ _ Hls) as Hkd. pose proof (ls_ok _ _ _ _ Hls) as Hall.
  exists di', f', d'. split_and!; [exact Hrun|done| |done| |].
  - split; [congruence|congruence|]. apply Forall_app. split; [done|]. by constructor.
  - rewrite Hfr', Hfr, length_drop. f_equal. eapply taken_length; [exact Ho|exact Ho3|exact Hsz'|exact Hp].
  - rewrite Hv, Hcc. by rewrite Hk', Hkd.
Qed.

Lemma enough_free_same d d' di n :
  free_data efs area d' = free_data efs area d -> enough_free efs area d di n -> enough_free efs area d' di n.
Proof. unfold enough_free. by intros ->. Qed.

(** The name is looked up with the directory's block locked. *)
Lemma create_lookup d m id di f es nm :
  fs_files d m -> m !! id = Some (di, f) -> listing d di f es ->
  run (read_disk_inode (inode_of id) (fun di =>
    lift (assert (is_dir di)) ;;; find_inode_id nm di)) d = Ok (find_entry nm es, d).
Proof.
  intros Hfs Hm Hls. pose proof (fs_file_state _ _ _ _ _ Hfs Hm) as Hst.
  pose proof (file_readable _ _ _ _ _ _ Hst) as Hrd. destruct Hst as [_ (b & Hb & Href) _ Hh].
  assert (d = Disk (blocks d) (held d)) as E by (by destruct d). rewrite E at 2.
  unfold read_disk_inode. eapply run_get_read; [rewrite Hh; set_solver| |exact Hb|exact Href|].
  { unfold room. rewrite Hh, size_empty. efs_consts. lia. }
  unfold is_dir. rewrite (ls_kind _ _ _ _ Hls), bool_decide_true by done. cbn [assert lift bind].
  rewrite (find_inode_id_spec nm _ di f es Hrd (listing_hold _ _ _ _ _ Hls)). by destruct d.
Qed.

(** [create_inode] of a new name, after the lookup. *)
Lemma create_new_run d m id di f es nm k new l :
  fs_rep d m -> m !! id = Some (di, f) -> listing d di f es -> find_entry nm es = None -> name_ok nm ->
  free_inodes d = new :: l ->
  let new_size := (Z.of_nat (length es) + 1) * DIRENT_SIZE in
  is_u32 new_size -> count_data_block new_size <= INDIRECT3_BOUND -> enough_free efs area d di new_size ->
  exists d' m' di' f', run (create_inode (inode_of id) nm k) d = Ok (Some (inode_of new), d') /\
    fs_rep d' m' /\ m' !! id = Some (di', f') /\ listing d' di' f' (es ++ [(nm, new)]) /\
    fs_view d' m' = <[id := (Directory, flat_map entry_bytes (es ++ [(nm, new)]))]>
      (<[new := (k, [])]> (fs_view d m)) /\ m !! new = None /\
    length (free_data efs area d') = (length (free_data efs area d) - blocks_taken di new_size)%nat.
Proof.
  intros Hfs Hm Hls Hnone Hnm Hf new_size Hu Hb Hfree.
  destruct (alloc_inode_run d m new l Hfs Hf) as (Hnew & Hmn & d1 & Hrun1 & Hfs1 & Hv1 & Hfree1 & _ & Hbit1).
  destruct (init_inode_run d1 m new k Hfs1 Hnew Hmn) as (di1 & d2 & Hrun2 & Hk1 & _ & Hfs2 & Hv2 & Hs2).
  set (m2 := <[new := (di1, empty_forest)]> m) in *. pose proof Hfs as [Hfs0 Hids].
  pose proof (fr_data _ _ Hfs1) as Hd1. pose proof (fr_inodes _ _ Hfs1) as Hi1.
  destruct (slot_position d1 new Hd1 Hi1 Hnew) as (_ & _ & Hpos).
  assert (id <> new) as Hne by congruence.
  assert (m2 !! id = Some (di, f)) as Hm2 by (unfold m2; by rewrite lookup_insert_ne).
  assert (ids_ok d2 m2) as Hids2.
  { intros j Hj. rewrite (ids_frame _ _ _ Hs2) by (try done; destruct Hi1 as [_ ? ? ? _ _];
      intros x Hx%list_elem_of_singleton Hy%elem_of_seqZ; lia).
    rewrite Hbit1, Hids by done. unfold m2. destruct (Z.eqb_spec j new) as [->|Hjn].
    - by rewrite lookup_insert_eq.
    - by rewrite lookup_insert_ne. }
  assert (listing d2 di f es) as Hls2.
  { destruct Hls as [Hkd Hc Hok]. split; try done. rewrite <- Hc.
    pose proof (fs_view_lookup d2 m2 id di f Hm2) as E2. rewrite Hv2, Hv1, lookup_insert_ne in E2 by done.
    rewrite (fs_view_lookup d m id di f Hm) in E2. congruence. }
  assert (free_data efs area d2 = free_data efs area d) as Hfree2.
  { rewrite <- Hfree1. refine (proj1 (free_data_frame _ _ _ _ _ Hs2 _ (dr_area _ _ _ Hd1))).
    intros x Hx%list_elem_of_singleton Hy%elem_of_seqZ. lia. }
  destruct (append_entry_run d2 m2 id di f es (nm, new)) as
    (di' & f' & d' & Hrun3 & Hfs' & Hls' & Hh' & Hfr' & Hv'); try done.
  { split; [done|]. pose proof (ir_u32 _ Hi1). unfold is_u32. cbn. lia. }
  { by eapply enough_free_same. }
  exists d', (<[id := (di', f')]> m2), di', f'. split_and!; try done; [|by apply lookup_insert_eq|by rewrite Hv', Hv2, Hv1|by rewrite Hfr', Hfree2].
  unfold create_inode. rewrite (run_bind_Ok _ _ _ _ _ (create_lookup d m id di f es nm Hfs0 Hm Hls)), Hnone.
  rewrite (run_bind_Ok _ _ _ _ _ Hrun1). cbn [fs inode_of Inode_new].
  rewrite (surjective_pairing (disk_inode_position efs new)).
  assert (run (get_modify (disk_inode_position efs new).1 (disk_inode_position efs new).2
    (fun di : DiskInode => Ret (tt, DiskInode_init k di))) d1 = Ok (tt, d2)) as Hrun2' by exact Hrun2.
  rewrite (run_bind_Ok _ _ _ _ _ Hrun2').
  rewrite (run_bind_Ok (modify_disk_inode _ _) _ _ _ _ Hrun3). by rewrite run_sync.
Qed.

(** C28: [Inode::create_inode] in a directory that lists [es].  A name that is
    listed gives [None] and changes nothing.  A new name of at most 28 bytes,
    UTF-8 and without a zero byte, with a free inode and enough free blocks,
    gives the inode of the lowest free number: the file system stays
    well-formed, the directory lists the new entry behind the others, the new
    inode is empty and of the wanted kind, and no other file changes. *)
Theorem fs_create_correct d m id di f es nm k :
  fs_rep d m -> m !! id = Some (di, f) -> listing d di f es ->
  match find_entry nm es with
  | Some _ => run (create_inode (inode_of id) nm k) d = Ok (None, d)
  | None => forall new l, name_ok nm -> free_inodes d = new :: l ->
      let new_size := (Z.of_nat (length es) + 1) * DIRENT_SIZE in
      is_u32 new_size -> count_data_block new_size <= INDIRECT3_BOUND ->
      enough_free efs area d di new_size ->
      exists d' m' di' f', run (create_inode (inode_of id) nm k) d = Ok (Some (inode_of new), d') /\
        fs_rep d' m' /\ m' !! id = Some (di', f') /\ listing d' di' f' (es ++ [(nm, new)]) /\
        fs_view d' m' = <[id := (Directory, flat_map entry_bytes (es ++ [(nm, new)]))]>
          (<[new := (k, [])]> (fs_view d m)) /\ m !! new = None
  end.
Proof.
  intros Hfs Hm Hls. destruct (find_entry nm es) as [v|] eqn:Hf.
  - unfold create_inode.
    by rewrite (run_bind_Ok _ _ _ _ _ (create_lookup d m id di f es nm (proj1 Hfs) Hm Hls)), Hf.
  - intros new l Hnm Hfree new_size Hu Hb He.
    destruct (create_new_run d m id di f es nm k new l) as (d' & m' & di' & f' & H); try done.
    exists d', m', di', f'. naive_solver.
Qed.

(** ** Deletion *)

Lemma flat_map_take {A B} w (g : A -> list B) l k :
  Forall (fun z => length (g z) = w) l -> (k <= length l)%nat ->
  flat_map g (take k l) = take (w * k) (flat_map g l).
Proof.
  intros Hl Hk. rewrite <- (take_drop k l) at 2. rewrite flat_map_app.
  rewrite take_app_length'; [done|]. rewrite (length_pieces w) by (by apply Forall_take).
  rewrite length_take. f_equal. lia.
Qed.

Lemma listing_frame d d' di f es :
  content d' di f = content d di f -> listing d di f es -> listing d' di f es.
Proof. intros E [? ? ?]. split; [done|congruence|done]. Qed.

(** The branch of the loop of [delete] that removes the entry, with the block
    of the directory locked. *)
Lemma delete_hit_run d di f es id i nm v e :
  inodes_ready d -> owner efs area d di f -> listing d di f es ->
  es !! i = Some (nm, v) -> last es = Some e -> count_data_block (size di) <= 27 ->
  0 <= v < ninodes -> bit_at ibm d v = true ->
  exists di' f' d', run (dealloc_inode efs v ;;;
      let! _ := DiskInode_write_at di (Z.of_nat i * DIRENT_SIZE) (entry_bytes e) in
      Inode_decrease_size (inode_of id) ((Z.of_nat (length es) - 1) * DIRENT_SIZE) di) d = Ok (di', d') /\
    owner efs area d' di' f' /\ listing d' di' f' (swap_remove i es) /\ all_blocks f' ⊆ all_blocks f /\
    (forall j, 0 <= j < Bitmap_maximum dbm -> start + j ∉ all_blocks f -> bit_at dbm d' j = bit_at dbm d j) /\
    (forall j, 0 <= j < ninodes -> bit_at ibm d' j = if j =? v then false else bit_at ibm d j) /\
    same_except (inode_bitmap_range ++ bitmap_range efs ++ all_blocks f) d d'.
Proof.
  intros Hi Ho Hls Hent Hlast Hn Hv Hbit. pose proof (lookup_lt_Some _ _ _ Hent) as Hlt.
  pose proof Hi as [Hb Hs1 Hs2 Hs3 _ _]. pose proof Ho as [Hd _ _ _].
  pose proof (data_ready_blocks _ _ _ Hd) as Hnb. pose proof (dr_start _ _ _ Hd) as Hst.
  assert (0 <= ninodes / 4) by (unfold Bitmap_maximum; efs_consts; apply Z.div_pos; lia).
  assert (forall b, b ∈ all_blocks f \/ b ∈ bitmap_range efs -> b ∉ inode_bitmap_range) as Hdis.
  { intros b [Hx|Hx%elem_of_seqZ] Hy%elem_of_seqZ; [|lia].
    destruct (area_blocks _ _ _ _ Ho Hx) as [Hin _]. unfold in_area in Hin. lia. }
  pose proof (Bitmap_dealloc_run ibm d v Hb Hv) as Hde. rewrite Hbit in Hde. destruct Hde as (d1 & Hrun1 & Hset).
  pose proof (bit_set_frame _ _ _ _ _ Hb Hv Hset) as Hsame1.
  destruct (free_data_frame efs area _ _ _ Hsame1 ltac:(intros b Hx Hy; by apply (Hdis b); [right|]) (dr_area _ _ _ Hd)) as [_ Hdb1].
  destruct (owner_frame _ d d1 di f Ho Hsame1) as [Ho1 Hc1].
  { intros b Hx Hy. by apply (Hdis b); [left|]. }
  { intros j Hj _. by rewrite Hdb1. }
  pose proof (listing_frame _ _ _ _ _ Hc1 Hls) as Hls1. pose proof (owner_readable _ _ _ _ _ Ho1) as Hrd1.
  assert (entry_ok e) as He.
  { rewrite last_lookup in Hlast. by apply (Forall_lookup_1 _ _ _ _ (ls_ok _ _ _ _ Hls) Hlast). }
  destruct (write_entry d1 di f es i e Hrd1 Hls1 Hlt He) as (d2 & Hrun2 & Hrd2 & Hsame2 & Hls2).
  destruct (owner_write _ _ _ _ _ _ Ho1 Hsame2 (rd_ok _ _ _ Hrd2)) as (Ho2 & _ & Hdb2).
  pose proof (listing_size _ _ _ _ Hrd1 Hls1) as Hsz.
  destruct (decrease_run efs area (inode_of id) eq_refl d2 di f ((Z.of_nat (length es) - 1) * DIRENT_SIZE)) as
    (di' & f' & d3 & Hrun3 & Ho3 & Hk3 & Hsz3 & Hc3 & Hsub & Hdb3 & Hsame3); [done|done|unfold DIRENT_SIZE; lia|].
  assert (same_except (bitmap_range efs ++ all_blocks f) d1 d3) as Hsame13.
  { eapply same_except_weaken; [|by eapply same_except_trans]. intros b. rewrite !elem_of_app.
    pose proof (meta_data_all f b). tauto. }
  exists di', f', d3. split_and!; try done.
  - unfold dealloc_inode. by rewrite (run_bind_Ok _ _ _ _ _ Hrun1), (run_bind_Ok _ _ _ _ _ Hrun2).
  - destruct Hls2 as [Hk2 Hc2 Hok2]. unfold swap_remove. rewrite Hlast. split; [congruence| |].
    + rewrite Hc3, Hc2, (flat_map_take 32); [|by apply entries_length|rewrite length_insert; lia].
      f_equal. unfold DIRENT_SIZE. lia.
    + by apply Forall_take.
  - intros j Hj Hnin. by rewrite Hdb3, Hdb2, Hdb1.
  - intros j Hj. destruct Hset as (_ & _ & Hbits). rewrite <- Hbits.
    apply (ids_frame _ _ _ Hsame13); [|done]. intros b Hx Hy. apply (Hdis b); [|done].
    rewrite elem_of_app in Hx. tauto.
  - by eapply same_except_trans.
Qed.

(** The closure of [Inode::delete]. *)
Definition delete_closure (self : Inode) (nm : list u8) (dir_inode : DiskInode) : prog (() * DiskInode) :=
  lift (assert (is_dir dir_inode)) ;;;
  let! _ := find_inode_id nm dir_inode in
  let! (_, bs) := DiskInode_read_at dir_inode (w64 (size dir_inode - DIRENT_SIZE))
                    (as_bytes DirEntry_empty) in
  let last_dirent := DirEntry_of_bytes bs in
  let count := file_count dir_inode in
  let! dir_inode := delete_loop self nm count last_dirent (seqZ 0 count) dir_inode in
  Ret (tt, dir_inode).

(** Up to its loop it reads. *)
Lemma delete_closure_run self d di f es nm e r :
  readable di f d -> listing d di f es -> last es = Some e ->
  run (delete_loop self nm (Z.of_nat (length es)) (entry e) (seqZ 0 (Z.of_nat (length es))) di) d = r ->
  run (delete_closure self nm di) d = res_bind r (fun x => Ok ((tt, x.1), x.2)).
Proof.
  intros Hrd Hls Hlast Hrun. pose proof (listing_size _ _ _ _ Hrd Hls) as Hsz.
  pose proof (listing_count _ _ _ _ Hrd Hls) as Hcount. rewrite last_lookup in Hlast.
  pose proof (lookup_lt_Some _ _ _ Hlast) as Hlt.
  destruct (fo_wf _ _ _ (rd_ok _ _ _ Hrd)) as [_ Hu]. inversion Hu as [|? ? [_ Hu32] _]; subst.
  unfold delete_closure, is_dir. rewrite (ls_kind _ _ _ _ Hls), bool_decide_true by done.
  cbn [assert lift bind]. rewrite (run_bind_Ok _ _ _ _ _ (find_inode_id_spec nm d di f es Hrd Hls)).
  rewrite w64_id by (unfold is_u64, DIRENT_SIZE; lia).
  replace (size di - DIRENT_SIZE) with (DIRENT_SIZE * (Z.of_nat (length es) - 1)) by (unfold DIRENT_SIZE; lia).
  rewrite (run_bind_Ok _ _ _ _ _ (read_entry d di f es _ e (as_bytes DirEntry_empty) Hrd Hls
    ltac:(by replace (Z.to_nat (Z.of_nat (length es) - 1)) with (pred (length es)) by lia) ltac:(lia) eq_refl)).
  destruct (entry_spec e) as (_ & _ & Hb & _).
  { by apply (Forall_lookup_1 _ _ _ _ (ls_ok _ _ _ _ Hls) Hlast). }
  rewrite Hb, Hcount, run_bind. by destruct (run (delete_loop _ _ _ _ _ _) _) as [[? ?]|].
Qed.

Lemma names_unique (es : list dirent) i j nm v e :
  NoDup es.*1 -> es !! i = Some (nm, v) -> es !! j = Some e -> i <> j -> e.1 <> nm.
Proof.
  intros Hnd Hi Hj Hne E. apply Hne. eapply NoDup_lookup; [exact Hnd|by rewrite list_lookup_fmap, Hi|].
  rewrite list_lookup_fmap, Hj. cbn. by rewrite E.
Qed.

(** Behind the removed entry the names are the old ones. *)
Lemma swap_remove_lookup i j es e :
  (i < j)%nat -> swap_remove i es !! j = Some e -> es !! j = Some e.
Proof.
  intros Hij. unfold swap_remove. destruct (last es); [|done].
  intros H. apply lookup_take_Some in H as [H _]. by rewrite list_lookup_insert_ne in H by lia.
Qed.

Lemma delete_loop_run d di f es id i nm v e :
  inodes_ready d -> owner efs area d di f -> listing d di f es -> NoDup es.*1 -> nm <> [] ->
  es !! i = Some (nm, v) -> last es = Some e -> count_data_block (size di) <= 27 ->
  0 <= v < ninodes -> bit_at ibm d v = true ->
  exists di' f' d', run (delete_loop (inode_of id) nm (Z.of_nat (length es)) (entry e)
      (seqZ 0 (Z.of_nat (length es))) di) d = Ok (di', d') /\
    owner efs area d' di' f' /\ listing d' di' f' (swap_remove i es) /\ all_blocks f' ⊆ all_blocks f /\
    (forall j, 0 <= j < Bitmap_maximum dbm -> start + j ∉ all_blocks f -> bit_at dbm d' j = bit_at dbm d j) /\
    (forall j, 0 <= j < ninodes -> bit_at ibm d' j = if j =? v then false else bit_at ibm d j) /\
    same_except (inode_bitmap_range ++ bitmap_range efs ++ all_blocks f) d d'.
Proof.
  intros Hi Ho Hls Hnd Hnm Hent Hlast Hn Hv Hbit. pose proof (lookup_lt_Some _ _ _ Hent) as Hlt.
  pose proof (owner_readable _ _ _ _ _ Ho) as Hrd. pose proof (listing_size _ _ _ _ Hrd Hls) as Hsz.
  destruct (fo_wf _ _ _ (rd_ok _ _ _ Hrd)) as [_ Hu]. inversion Hu as [|? ? [_ Hu32] _]; subst.
  destruct (delete_hit_run d di f es id i nm v e) as (di' & f' & d' & Hrun & Hrest); try done.
  exists di', f', d'. split; [|exact Hrest]. destruct Hrest as (Ho' & Hls' & _).
  replace (Z.of_nat (length es)) with (Z.of_nat i + (1 + (Z.of_nat (length es) - Z.of_nat i - 1))) at 2 by lia.
  rewrite !seqZ_app by lia. rewrite (delete_skip _ _ _ _ _ d di f es _ Hrd Hls Hnm).
  2:{ apply Forall_forall. intros j Hj%elem_of_seqZ. split; [lia|]. intros e' He'.
      eapply names_unique; [exact Hnd|exact Hent|exact He'|lia]. }
  rewrite Z.add_0_l. change (seqZ (Z.of_nat i) 1) with [Z.of_nat i]. cbn [app delete_loop].
  pose proof (read_entry d di f es (Z.of_nat i) (nm, v) (as_bytes DirEntry_empty) Hrd Hls
    ltac:(by rewrite Nat2Z.id) ltac:(lia) eq_refl) as Hread. rewrite Z.mul_comm in Hread.
  rewrite (run_bind_Ok _ _ _ _ _ Hread).
  destruct (entry_spec (nm, v)) as (_ & _ & Hb & Hname).
  { by apply (Forall_lookup_1 _ _ _ _ (ls_ok _ _ _ _ Hls) Hent). }
  rewrite Hb, Hname. cbn [lift bind fst]. rewrite bool_decide_true by done. cbn [fs inode_of Inode_new].
  rewrite w32_id by (unfold is_u32, DIRENT_SIZE; lia).
  rewrite (run_bind_Ok (bind (dealloc_inode efs _) _) _ _ _ _ Hrun).
  rewrite <- (app_nil_r (seqZ _ _)).
  by rewrite (delete_skip _ _ _ _ [] d' di' f' (swap_remove i es) _ (owner_readable _ _ _ _ _ Ho') Hls' Hnm)
    by (apply Forall_forall; intros j Hj%elem_of_seqZ; split; [lia|]; intros e' He';
        eapply names_unique; [exact Hnd|exact Hent|apply (swap_remove_lookup i (Z.to_nat j)); [lia|exact He']|lia]).
Qed.

(** Deleting an inode's entry from the map of files. *)
Lemma view_delete d m v : fs_view d (delete v m) = delete v (fs_view d m).
Proof. unfold fs_view. by rewrite fmap_delete. Qed.

(** Holding the block of an inode slot. *)
Lemma inodes_ready_held d b :
  inodes_ready d -> held d = ∅ -> inode_area_start_block efs <= b -> inodes_ready (hold b d).
Proof.
  intros [[_ Hk] Hs1 Hs2 ? ? Hsl] Hh Hpos. split; try done. split.
  - eapply room_weaken; [|by apply room_held]. lia.
  - intros k Hkr. destruct (Hk k Hkr) as (_ & H). split; [|exact H]. cbn [hold held].
    rewrite Hh, union_empty_r_L, elem_of_singleton. lia.
Qed.

(** The bits of the inodes after one is freed. *)
Lemma delete_ids d d' m id v x :
  ids_ok d m -> is_Some (m !! id) ->
  (forall j, 0 <= j < ninodes -> bit_at ibm d' j = if j =? v then false else bit_at ibm d j) ->
  ids_ok d' (delete v (<[id := x]> m)).
Proof.
  intros Hids [y Hm] Hbits j Hj. rewrite Hbits by done. destruct (Z.eqb_spec j v) as [->|Hjv].
  - by rewrite lookup_delete_eq.
  - rewrite lookup_delete_ne, Hids by done. apply bool_decide_ext.
    destruct (decide (j = id)) as [->|]; [rewrite lookup_insert_eq, Hm|rewrite lookup_insert_ne]; done.
Qed.

Lemma fs_delete_run d m id di f es i nm v dv fv :
  fs_rep d m -> m !! id = Some (di, f) -> listing d di f es -> NoDup es.*1 -> nm <> [] ->
  count_data_block (size di) <= 27 -> es !! i = Some (nm, v) -> m !! v = Some (dv, fv) -> v <> id ->
  exists d' m' di' f', run (Inode_delete (inode_of id) nm) d = Ok (tt, d') /\ fs_rep d' m' /\
    m' !! id = Some (di', f') /\ listing d' di' f' (swap_remove i es) /\
    fs_view d' m' = <[id := (Directory, flat_map entry_bytes (swap_remove i es))]>
      (delete v (fs_view d m)) /\
    forall b, b ∈ all_blocks fv -> bit_at dbm d' (b - start) = true.
Proof.
  intros [Hfs Hids] Hm Hls Hnd Hnm Hn Hent Hmv Hne.
  pose proof (fs_file_state _ _ _ _ _ Hfs Hm) as Hst. pose proof Hst as [Hslot _ Ho Hh].
  pose proof (fr_inodes _ _ Hfs) as Hi. pose proof (fr_data _ _ Hfs) as Hd.
  destruct (slot_position d id Hd Hi (fr_range _ _ Hfs _ _ Hm)) as (_ & _ & Hpos).
  set (dh := hold (block_id (inode_of id)) d). pose proof (owner_hold _ _ d di f _ Ho Hh (proj1 Hslot)) as Hoh.
  fold dh in Hoh. pose proof (inodes_ready_held d _ Hi Hh (proj1 Hpos)) as Hih. fold dh in Hih.
  destruct (last es) as [e|] eqn:Hlast.
  2:{ apply last_None in Hlast as ->. done. }
  assert (0 <= v < ninodes) as Hv by (by eapply fr_range).
  destruct (delete_loop_run dh di f es id i nm v e) as
    (di' & f' & d3 & Hrun3 & Ho3 & Hls3 & Hsub & Hdb & Hib & Hsame3); try done.
  { by apply listing_hold. } { change (bit_at ibm d v = true). by rewrite (Hids v Hv), Hmv. }
  pose proof (delete_closure_run _ dh di f es nm e _ (owner_readable _ _ _ _ _ Hoh)
    (listing_hold _ _ _ _ _ Hls) Hlast Hrun3) as Hrun. cbn [res_bind fst snd] in Hrun.
  destruct (modify_local efs area (inode_of id) eq_refl (delete_closure (inode_of id) nm) d d3
    (inode_bitmap_range ++ bitmap_range efs ++ all_blocks f) di f di' f' tt Hst) as
    (d' & Hrun' & Hst' & Hc' & _ & Hdb' & Hblk & Hsl & Hsame); try done.
  { pose proof (inode_block_apart d d di f di f (block_id (inode_of id)) Hd Hi (or_intror Ho) Ho Hpos) as Hap.
    rewrite !elem_of_app in *. tauto. }
  assert (local_step id (forest_of m id) f' di' d d') as Hlo.
  { unfold forest_of. rewrite Hm. cbn [from_option snd]. split; try done.
    - intros b Hb. left. by apply Hsub.
    - intros j Hj Hnin Hset. by rewrite Hdb', Hdb.
    - eapply same_except_weaken; [|exact Hsame]. intros b. rewrite !elem_of_cons, !elem_of_app. tauto. }
  destruct (fs_step d m id f' di' d' Hfs (fr_range _ _ Hfs _ _ Hm) Hlo) as [Hfs' Hview].
  pose proof (listing_frame _ _ _ _ _ Hc' Hls3) as Hls'.
  exists d', (delete v (<[id := (di', f')]> m)), di', f'. split_and!; try done.
  - split; [by apply fs_delete|]. eapply delete_ids; [exact Hids|by rewrite Hm|]. intros j Hj. rewrite <- Hib by done.
    apply bit_at_frame; [|done]. intros k Hk. apply Hblk. destruct Hi as [_ ? ? _ _ _]. lia.
  - rewrite lookup_delete_ne by done. apply lookup_insert_eq.
  - rewrite view_delete, Hview, (ls_kind _ _ _ _ Hls'), (ls_content _ _ _ _ Hls').
    by rewrite delete_insert_ne.
  - intros b Hb. pose proof (fr_owner _ _ Hfs _ _ _ Hmv) as Hov. destruct (area_blocks _ _ _ _ Hov Hb) as [Hin Hset].
    unfold in_area in Hin. pose proof (dr_area _ _ _ Hd). rewrite Hdb', Hdb by (try lia;
      replace (start + (b - start)) with b by lia; intros Hx; by apply (fr_apart _ _ Hfs v id dv di fv f Hmv Hm Hne b)). done.
Qed.

(** C29: [Inode::delete] of a listed name in a directory whose names differ and
    whose blocks are direct ones (up to 432 entries): the entry is replaced
    by the last one and the directory is one entry shorter; the inode number
    is free again, its file is gone and no other file changes; the file
    system stays well-formed.  The blocks of the deleted inode stay
    allocated. *)
Theorem fs_delete_correct d m id di f es i nm v dv fv :
  fs_rep d m -> m !! id = Some (di, f) -> listing d di f es -> NoDup es.*1 -> nm <> [] ->
  count_data_block (size di) <= 27 -> es !! i = Some (nm, v) -> m !! v = Some (dv, fv) -> v <> id ->
  exists d' m' di' f', run (Inode_delete (inode_of id) nm) d = Ok (tt, d') /\ fs_rep d' m' /\
    m' !! id = Some (di', f') /\ listing d' di' f' (swap_remove i es) /\
    fs_view d' m' = <[id := (Directory, flat_map entry_bytes (swap_remove i es))]>
      (delete v (fs_view d m)) /\
    forall b, b ∈ all_blocks fv -> bit_at dbm d' (b - start) = true.
Proof. apply fs_delete_run. Qed.

(** ** Directories *)

(** Writing inside an owned inode. *)
Lemma owner_write_at d di f off buf :
  owner efs area d di f -> 0 <= off -> off + Z.of_nat (length buf) <= size di -> buf <> [] ->
  exists d', run (DiskInode_write_at di off buf) d = Ok (Z.of_nat (length buf), d') /\
    owner efs area d' di f /\ content d' di f = splice (Z.to_nat off) buf (content d di f) /\
    (forall j, 0 <= j < Bitmap_maximum dbm -> bit_at dbm d' j = bit_at dbm d j) /\
    same_except (data_blocks f) d d'.
Proof.
  intros Ho Hoff Hsz Hne. pose proof (owner_readable _ _ _ _ _ Ho) as Hrd.
  destruct (fo_wf _ _ _ (rd_ok _ _ _ Hrd)) as [_ Hu]. inversion Hu as [|? ? [_ Hu32] _]; subst.
  assert (0 < Z.of_nat (length buf)) by (destruct buf; simpl; [done|lia]).
  destruct (write_at_spec d di f off buf Hrd Hoff) as (d' & Hrun & Hrd' & Hs & Hc); [lia|lia|done|].
  assert (io_len di off (Z.of_nat (length buf)) = Z.of_nat (length buf)) as En by (unfold io_len; lia).
  rewrite En in *. rewrite Nat2Z.id, take_ge in Hc by lia.
  destruct (owner_write _ _ _ _ _ _ Ho Hs (rd_ok _ _ _ Hrd')) as (Ho' & _ & Hb). by exists d'.
Qed.

(** The entries every directory starts with. *)
Definition default_entries (id parent : Z) : list dirent := [(dot, id); (dotdot, parent)].

Lemma default_entries_ok id parent : is_u32 id -> is_u32 parent -> Forall entry_ok (default_entries id parent).
Proof.
  intros Hi Hp. assert (name_ok dot /\ name_ok dotdot) as [Hd Hdd].
  { unfold name_ok, dot, dotdot. split_and!; try done; (set_solver || (cbn; lia)). }
  unfold default_entries. rewrite !Forall_cons. done.
Qed.

Lemma inode_id_of d m id : fs_files d m -> 0 <= id < ninodes -> inode_id (inode_of id) = id.
Proof.
  intros [Hd Hi _ _ _ _ _] Hid. destruct (slot_position d id Hd Hi Hid) as (Eb & Eo & Hpos).
  pose proof (data_ready_blocks _ _ _ Hd). pose proof (dr_start _ _ _ Hd).
  pose proof (dr_end _ _ _ Hd). pose proof (dr_area _ _ _ Hd). destruct Hi as [_ ? ? ? Hu _].
  pose proof (inode_position_id efs id ltac:(unfold is_u32; lia) ltac:(lia) ltac:(lia)) as Hinv.
  unfold inode_id. cbn [fs inode_of Inode_new]. rewrite (w32_id (block_id _)) by (unfold is_u32; lia).
  unfold inode_of, Inode_new. cbn [block_id block_offset]. by destruct (disk_inode_position efs id).
Qed.

Lemma set_default_run d m id di f parent :
  fs_rep d m -> m !! id = Some (di, f) -> listing d di f [] -> is_u32 parent ->
  enough_free efs area d di (2 * DIRENT_SIZE) ->
  exists di' f' d', run (set_default_dirent (inode_of id) parent) d = Ok (tt, d') /\
    fs_rep d' (<[id := (di', f')]> m) /\ listing d' di' f' (default_entries id parent) /\
    length (free_data efs area d') = (length (free_data efs area d) - blocks_taken di (2 * DIRENT_SIZE))%nat /\
    fs_view d' (<[id := (di', f')]> m) =
      <[id := (Directory, flat_map entry_bytes (default_entries id parent))]> (fs_view d m).
Proof.
  intros Hrep Hm Hls Hpu Hfree. pose proof Hrep as [Hfs Hids]. pose proof (fs_file_state _ _ _ _ _ Hfs Hm) as Hst.
  pose proof Hst as [Hslot _ Ho Hh]. pose proof (file_readable _ _ _ _ _ _ Hst) as Hrd.
  pose proof (listing_size _ di f [] Hrd (listing_hold _ _ _ _ _ Hls)) as Hsz.
  pose proof (fr_inodes _ _ Hfs) as Hi. pose proof (fr_range _ _ Hfs _ _ Hm) as Hid.
  assert (is_u32 id) as Hidu by (pose proof (ir_u32 _ Hi); unfold is_u32; lia).
  destruct (entry_spec (dot, id)) as (Hn1 & Hl1 & _).
  { by apply (Forall_lookup_1 _ _ 0%nat _ (default_entries_ok id parent Hidu Hpu)). }
  destruct (entry_spec (dotdot, parent)) as (Hn2 & Hl2 & _).
  { by apply (Forall_lookup_1 _ _ 1%nat _ (default_entries_ok id parent Hidu Hpu)). }
  pose proof (inode_id_of d m id Hfs Hid) as Hiid.
  destruct (increase_run efs area (inode_of id) eq_refl (hold (block_id (inode_of id)) d) di f (2 * DIRENT_SIZE))
    as (di' & f' & d1 & u & Hrun1 & Hsz' & Hg); try done;
    [by apply owner_hold; [..|apply Hslot]|by apply room_held|].
  destruct (grown_content _ _ _ _ _ _ _ _ _ (owner_hold _ _ _ _ _ _ Ho Hh (proj1 Hslot)) Hg ltac:(lia)) as (pad & Hc1 & Hlc1).
  change (content (hold (block_id (inode_of id)) d) di f) with (content d di f) in *.
  rewrite (ls_content _ _ _ _ Hls) in Hc1, Hlc1. cbn [flat_map app] in Hc1, Hlc1.
  assert (size di' = 64) as Hsz64 by (by rewrite Hsz', Hsz).
  destruct Hg as [Ho1 Hk1 Hp _ Hfr1 Hu1 Hb1 Hs1].
  destruct (owner_write_at d1 di' f' 0 (entry_bytes (dot, id)) Ho1) as (d2 & Hrun2 & Ho2 & Hc2 & Hb2 & Hs2);
    [lia|lia|by intros E; rewrite E in Hl1|].
  destruct (owner_write_at d2 di' f' 32 (entry_bytes (dotdot, parent)) Ho2) as (d3 & Hrun3 & Ho3 & Hc3 & Hb3 & Hs3);
    [lia|lia|by intros E; rewrite E in Hl2|].
  assert (content d3 di' f' = flat_map entry_bytes (default_entries id parent)) as Hc.
  { rewrite Hc3, Hc2, Hc1. cbn [flat_map default_entries]. rewrite app_nil_r.
    change (Z.to_nat 0) with 0%nat. replace (Z.to_nat 32) with (0 + length (entry_bytes (dot, id)))%nat by lia.
    rewrite splice_app by lia. apply splice_all. rewrite length_app. lia. }
  assert (same_except (bitmap_range efs ++ all_blocks f') (hold (block_id (inode_of id)) d) d3) as Hs.
  { eapply same_except_weaken; [|eapply same_except_trans; [exact Hs1|by eapply same_except_trans]].
    intros b. rewrite !elem_of_app. pose proof (meta_data_all f' b). tauto. }
  destruct (modify_grown (fun cur =>
    let! cur := Inode_increase_size (inode_of id) (2 * DIRENT_SIZE) cur in
    let! dirent_self := lift (DirEntry_new dot (inode_id (inode_of id))) in
    let! _ := DiskInode_write_at cur 0 (as_bytes dirent_self) in
    let! dirent_parent := lift (DirEntry_new dotdot parent) in
    let! _ := DiskInode_write_at cur DIRENT_SIZE (as_bytes dirent_parent) in
    Ret (tt, cur)) d m id di f d3 di' f' u tt) as (d' & Hrun & Hfs' & Hc' & _ & Hfr & Hv); try done.
  { rewrite (run_bind_Ok _ _ _ _ _ Hrun1), Hiid. cbn [fst snd] in Hn1, Hn2. rewrite Hn1. cbn [lift bind].
    rewrite (run_bind_Ok _ _ _ _ _ Hrun2), Hn2. cbn [lift bind]. by rewrite (run_bind_Ok _ _ _ _ _ Hrun3). }
  { intros j Hj. by rewrite Hb3, Hb2, Hb1. }
  assert (free_data efs area d3 = free_data efs area d1) as Hfr3.
  { pose proof (dr_area _ _ _ (fr_data _ _ Hfs)). apply filter_ext_in. intros j Hj%elem_of_seqZ. by rewrite Hb3, Hb2 by lia. }
  exists di', f', d'. split_and!; [exact Hrun|done| | |].
  - split; [rewrite Hk1; apply Hls|congruence|by apply default_entries_ok].
  - rewrite Hfr, Hfr3, Hfr1, length_drop. f_equal. eapply taken_length; [exact Ho|exact Ho3|exact Hsz'|exact Hp].
  - rewrite Hv, Hc, Hk1. by rewrite (ls_kind _ _ _ _ Hls).
Qed.

Lemma view_Some d m id k c :
  fs_view d m !! id = Some (k, c) -> exists di f, m !! id = Some (di, f) /\ kind di = k /\ content d di f = c.
Proof.
  unfold fs_view. rewrite lookup_fmap. destruct (m !! id) as [[di f]|]; [|done]. cbn. intros [= <- <-].
  by exists di, f.
Qed.

(** [create_dir] with the count of the free blocks behind it. *)
Lemma create_dir_run d m id di f es nm new l :
  fs_rep d m -> m !! id = Some (di, f) -> listing d di f es -> find_entry nm es = None -> name_ok nm ->
  free_inodes d = new :: l ->
  let new_size := (Z.of_nat (length es) + 1) * DIRENT_SIZE in
  is_u32 new_size -> count_data_block new_size <= INDIRECT3_BOUND ->
  (blocks_taken di new_size < length (free_data efs area d))%nat ->
  exists d' m' di' f' dn fn, run (Inode_create_dir (inode_of id) nm) d = Ok (Some (inode_of new), d') /\
    fs_rep d' m' /\ m' !! id = Some (di', f') /\ listing d' di' f' (es ++ [(nm, new)]) /\
    m' !! new = Some (dn, fn) /\ listing d' dn fn (default_entries new id) /\ m !! new = None /\
    length (free_data efs area d') = (length (free_data efs area d) - blocks_taken di new_size - 1)%nat /\
    fs_view d' m' = <[new := (Directory, flat_map entry_bytes (default_entries new id))]>
      (<[id := (Directory, flat_map entry_bytes (es ++ [(nm, new)]))]> (fs_view d m)).
Proof.
  intros Hrep Hm Hls Hnone Hnm Hf new_size Hu Hb Hfree.
  destruct (create_new_run d m id di f es nm Directory new l) as
    (d1 & m1 & di1 & f1 & Hrun1 & Hrep1 & Hm1 & Hls1 & Hv1 & Hmn & Hfr1); try done.
  { apply Nat.lt_le_incl. exact Hfree. }
  assert (id <> new) as Hne by congruence.
  assert (fs_view d1 m1 !! new = Some (Directory, [])) as Hnew.
  { by rewrite Hv1, lookup_insert_ne, lookup_insert_eq. }
  apply view_Some in Hnew as (dn & fn & Hmn1 & Hkn & Hcn).
  assert (listing d1 dn fn []) as Hlsn by (split; [done|done|constructor]).
  pose proof (fr_range _ _ (proj1 Hrep) _ _ Hm) as Hid. pose proof (ir_u32 _ (fr_inodes _ _ (proj1 Hrep))) as Hu32.
  assert (size dn = 0) as Hsn.
  { pose proof (fs_file_state _ _ _ _ _ (proj1 Hrep1) Hmn1) as Hst1.
    by rewrite (listing_size _ dn fn [] (file_readable _ _ _ _ _ _ Hst1) (listing_hold _ _ _ _ _ Hlsn)). }
  destruct (set_default_run d1 m1 new dn fn id) as (dn' & fn' & d' & Hrun2 & Hrep' & Hls' & Hfr' & Hv'); try done.
  { unfold is_u32. lia. }
  { fold new_size in Hfr1. unfold enough_free. rewrite Hsn, Hfr1.
    change (Z.to_nat (count_total_block (Z.max 0 (2 * DIRENT_SIZE)) - count_total_block 0)) with 1%nat. lia. }
  assert (Hm' : <[new := (dn', fn')]> m1 !! id = Some (di1, f1)) by (by rewrite lookup_insert_ne).
  exists d', (<[new := (dn', fn')]> m1), di1, f1, dn', fn'.
  split_and!; [|done|done| |apply lookup_insert_eq|done|done| |].
  - unfold Inode_create_dir. rewrite (run_bind_Ok _ _ _ _ _ Hrun1). rewrite (inode_id_of d m id (proj1 Hrep) Hid).
    by rewrite (run_bind_Ok _ _ _ _ _ Hrun2).
  - eapply listing_frame; [|exact Hls1]. pose proof (fs_view_lookup d' _ id di1 f1 Hm') as E.
    rewrite Hv', lookup_insert_ne, (fs_view_lookup d1 m1 id di1 f1 Hm1) in E by done. congruence.
  - rewrite Hfr', Hfr1. by replace (blocks_taken dn (2 * DIRENT_SIZE)) with 1%nat by (unfold blocks_taken; by rewrite Hsn).
  - rewrite Hv', Hv1. apply map_eq. intros j.
    destruct (decide (j = new)) as [->|]; [by rewrite !lookup_insert_eq|]. rewrite !(lookup_insert_ne _ new) by done.
    destruct (decide (j = id)) as [->|]; [by rewrite !lookup_insert_eq|]. by rewrite !lookup_insert_ne.
Qed.

(** [Inode::create_dir] of a new name, with a free inode and the blocks for
    the entry and for the new directory: the directory lists the name behind
    its other entries, the new directory lists [.], itself, and [..], the
    directory it was made in, and nothing else of the file system changes. *)
Theorem fs_create_dir_correct d m id di f es nm new l :
  fs_rep d m -> m !! id = Some (di, f) -> listing d di f es -> find_entry nm es = None -> name_ok nm ->
  free_inodes d = new :: l ->
  let new_size := (Z.of_nat (length es) + 1) * DIRENT_SIZE in
  is_u32 new_size -> count_data_block new_size <= INDIRECT3_BOUND ->
  (blocks_taken di new_size < length (free_data efs area d))%nat ->
  exists d' m' di' f' dn fn, run (Inode_create_dir (inode_of id) nm) d = Ok (Some (inode_of new), d') /\
    fs_rep d' m' /\ m' !! id = Some (di', f') /\ listing d' di' f' (es ++ [(nm, new)]) /\
    m' !! new = Some (dn, fn) /\ listing d' dn fn (default_entries new id) /\
    fs_view d' m' = <[new := (Directory, flat_map entry_bytes (default_entries new id))]>
      (<[id := (Directory, flat_map entry_bytes (es ++ [(nm, new)]))]> (fs_view d m)).
Proof.
  intros Hrep Hm Hls Hnone Hnm Hf new_size Hu Hb Hfree.
  destruct (create_dir_run d m id di f es nm new l Hrep Hm Hls Hnone Hnm Hf Hu Hb Hfree) as (d' & m' & di' & f' & dn & fn & H).
  exists d', m', di', f', dn, fn. naive_solver.
Qed.
End filesystem.

(** ** A formatted device *)

(** Any slot of a zeroed block holds an inode. *)
Lemma zero_slot_inode k : 0 <= k < 4 -> exists di : DiskInode, as_ref zero_block (k * 128) = Ok di.
Proof.
  intros Hk. assert (k = 0 \/ k = 1 \/ k = 2 \/ k = 3) as [-> | [-> | [-> | ->]]] by lia;
    eexists; vm_compute; reflexivity.
Qed.

(** The slots of the inode area of a formatted device. *)
Lemma formatted_slots d total sb efs id :
  formatted d total sb efs -> 0 <= inode_area_start_block efs -> 0 <= id ->
  inode_area_start_block efs + id / 4 < total -> total <= 2 ^ 32 ->
  exists di, inode_at (inode_of efs id) d di /\ (id = 0 -> di = root_disk_inode).
Proof.
  intros ((Hwf & _ & _) & _ & _ & Hroot & Hz) Hs Hid Ht Hu.
  pose proof (Z.mod_pos_bound id 4 ltac:(lia)). assert (0 <= id / 4) by (apply Z.div_pos; lia).
  destruct (zero_slot_inode (id mod 4)) as [dz Hdz]; [lia|].
  unfold inode_at, inode_of, disk_inode_position, Inode_new. cbn [fst snd block_id block_offset].
  change inodes_per_block with 4. change inode_size with 128. rewrite w32_id by (unfold is_u32; lia).
  destruct (decide (id = 0)) as [->|Hne].
  { exists root_disk_inode. split; [|done]. exists (write_ref zero_block 0 root_disk_inode).
    rewrite Z.add_0_r. split; [done|]. by vm_compute. }
  exists dz. split; [|done]. destruct (decide (id / 4 = 0)) as [E|E].
  - rewrite E, Z.add_0_r. eexists. split; [exact Hroot|]. rewrite <- Hdz. apply as_ref_other.
    + done.
    + unfold fits. cbn. efs_consts. lia.
    + unfold fits. efs_consts. change (Z.of_nat (type_size DiskInode)) with 128. lia.
    + apply root_disk_inode_wf.
    + change (Z.of_nat (type_size DiskInode)) with 128. pose proof (Z.div_mod id 4 ltac:(lia)). lia.
  - exists zero_block. split; [|done]. apply Hz. lia.
Qed.

Lemma filter_all {A} (P : A -> Prop) `{forall x, Decision (P x)} (l : list A) :
  (forall x, x ∈ l -> P x) -> filter P l = l.
Proof.
  induction l as [|x l IH]; [done|]. intros Hl. rewrite filter_cons, decide_True by (apply Hl; by left).
  f_equal. apply IH. intros y Hy. apply Hl. by right.
Qed.

Lemma format_run d total ibb :
  device_fits total ibb -> on_device d total -> ibb <= 2 ^ 20 ->
  let '(sb, efs) := efs_geometry total ibb in
  exists d', run (EasyFileSystem_create total ibb) d = Ok (efs, d') /\
    fs_rep efs (data_area_blocks sb) d' {[0 := (root_disk_inode, empty_forest)]} /\
    listing d' root_disk_inode empty_forest [] /\
    free_data efs (data_area_blocks sb) d' = seqZ 0 (data_area_blocks sb) /\
    free_inodes efs d' = seqZ 1 (Bitmap_maximum (inode_bitmap efs) - 1).
Proof.
  intros Hfit Hdev Hibb. pose proof (create_run d total ibb Hfit Hdev) as Hc.
  destruct (geometry_values total ibb Hfit) as (E & Hdbb & Hcap). rewrite E in *.
  destruct Hfit as (Hi & Ht & Hm). set (dt := total - 1 - 1025 * ibb) in *.
  set (dbb := (dt + 4096) / 4097) in *. set (efs := MkEfs _ _ _ _) in *.
  destruct Hc as (d' & Hrun & Hfmt). pose proof Hfmt as ((Hwf & Hh & Hon) & _ & Hbits & _ & Hz).
  change (data_area_blocks _) with (dt - dbb).
  assert (Hn : Bitmap_maximum (inode_bitmap efs) = ibb * 4096) by done.
  assert (Hn4 : Bitmap_maximum (inode_bitmap efs) / 4 = ibb * 1024).
  { rewrite Hn. replace (ibb * 4096) with (ibb * 1024 * 4) by lia. apply Z.div_mul. lia. }
  change (inode_area_start_block efs) with (1 + ibb) in *.
  assert (forall bm, 0 <= start_block_id bm -> start_block_id bm + bitmap_blocks bm <= total -> bitmap_ready bm d') as Hready.
  { intros bm Hs He. split; [unfold room; rewrite Hh, size_empty; efs_consts; lia|].
    intros k Hk. rewrite Hh. split; [set_solver|].
    destruct (Hon (start_block_id bm + k) ltac:(lia)) as [b Hb]. exists b. split; [done|]. by apply (Hwf _ _ Hb). }
  assert (data_ready efs (dt - dbb) d') as Hd.
  { split; cbn [efs data_bitmap data_area_start_block Bitmap_new start_block_id bitmap_blocks]; try done; try lia.
    - apply Hready; cbn; lia.
    - unfold Bitmap_maximum. cbn. efs_consts. lia.
    - intros b Hb. unfold in_area in Hb. cbn in Hb. rewrite Hh. split; [set_solver|]. apply Hon. lia. }
  assert (inodes_ready efs d') as Hir.
  { split; rewrite ?Hn4, ?Hn; cbn [efs inode_bitmap inode_area_start_block data_bitmap Bitmap_new
      start_block_id bitmap_blocks]; fold efs; try lia.
    - apply Hready; cbn; lia.
    - intros id Hid. destruct (formatted_slots d' total _ efs id Hfmt) as (di & Hat & _);
        [cbn; lia|lia| |lia|by exists di].
      change (inode_area_start_block efs) with (1 + ibb).
      assert (id / 4 < ibb * 1024) by (apply Z.div_lt_upper_bound; lia). lia. }
  assert (inode_at (inode_of efs 0) d' root_disk_inode) as Hroot.
  { destruct (formatted_slots d' total _ efs 0 Hfmt) as (di & Hat & Edi);
      [cbn; lia|lia|change (1 + ibb + 0 < total); lia|lia|].
    by rewrite (Edi eq_refl) in Hat. }
  exists d'. split_and!; [done|split; [split; try done|]| | |].
  - intros id x [<- _]%lookup_singleton_Some. rewrite Hn. lia.
  - intros id di f [<- [= <- <-]]%lookup_singleton_Some. done.
  - intros id di f [<- [= <- <-]]%lookup_singleton_Some.
    apply owner_empty; [done|]. apply empty_forest_ok; [apply root_disk_inode_wf|done].
  - intros id id' di di' f f' [<- _]%lookup_singleton_Some [<- _]%lookup_singleton_Some. done.
  - intros id Hid. rewrite Hbits by done. destruct (Z.eqb_spec id 0) as [->|Hne].
    + by rewrite lookup_singleton_eq.
    + by rewrite lookup_singleton_ne.
  - split; [done|done|constructor].
  - apply filter_all. intros j Hj%elem_of_seqZ. unfold bit_at. cbn [efs data_bitmap Bitmap_new start_block_id].
    assert (0 <= j / BLOCK_BITS < dbb).
    { efs_consts. split; [apply Z.div_pos; lia|apply Z.div_lt_upper_bound; lia]. }
    rewrite Hz by lia. apply block_bit_zero. apply Z.mod_pos_bound. by efs_consts.
  - unfold free_inodes, free_bits. rewrite Hn, seqZ_cons by lia.
    rewrite filter_cons, decide_False by (rewrite Hbits by (rewrite Hn; lia); done).
    replace (Z.pred (ibb * 4096)) with (ibb * 4096 - 1) by lia. apply filter_all.
    intros j Hj%elem_of_seqZ. rewrite Hbits by (rewrite Hn; lia). apply Z.eqb_neq. lia.
Qed.

(** [EasyFileSystem::create] makes a well-formed file system: its one
    inode, 0, is an empty directory, and all blocks of the data area are
    free. *)
Theorem fs_format_correct d total ibb :
  device_fits total ibb -> on_device d total -> ibb <= 2 ^ 20 ->
  let '(sb, efs) := efs_geometry total ibb in
  exists d', run (EasyFileSystem_create total ibb) d = Ok (efs, d') /\
    fs_rep efs (data_area_blocks sb) d' {[0 := (root_disk_inode, empty_forest)]} /\
    listing d' root_disk_inode empty_forest [] /\
    free_data efs (data_area_blocks sb) d' = seqZ 0 (data_area_blocks sb) /\
    free_inodes efs d' = seqZ 1 (Bitmap_maximum (inode_bitmap efs) - 1).
Proof. apply format_run. Qed.

(** ** Witnesses *)

(** A device of 1100 blocks with one block of inode bitmap, formatted, and the
    same with an empty file [a] in the root directory. *)
Definition demo_fs : EasyFileSystem := Eval vm_compute in (efs_geometry 1100 1).2.
Definition after {A} (r : res (A * disk)) : disk :=
  match r with Ok (_, d) => d | Panic _ => blank_disk 0 end.
Definition demo_disk : disk := after (run (EasyFileSystem_create 1100 1) (blank_disk 1100)).
Definition name_a : list u8 := [Byte.x61].
Definition demo_disk_a : disk := after (run (create_inode (inode_of demo_fs 0) name_a File) demo_disk).

Lemma blank_on_device n : on_device (blank_disk n) n.
Proof. split_and!; [apply blank_wf|done|]. intros i Hi. rewrite blank_lookup by done. by exists zero_block. Qed.

Lemma demo_fits : device_fits 1100 1.
Proof. unfold device_fits. lia. Qed.

Lemma name_a_ok : name_ok name_a.
Proof. split_and!; [set_solver|done|cbn; lia]. Qed.

(** The root directory with its first entry. *)
Lemma demo_size :
  is_u32 ((Z.of_nat (length ([] : list dirent)) + 1) * DIRENT_SIZE) /\
  count_data_block ((Z.of_nat (length ([] : list dirent)) + 1) * DIRENT_SIZE) <= INDIRECT3_BOUND /\
  (blocks_taken root_disk_inode ((Z.of_nat (length ([] : list dirent)) + 1) * DIRENT_SIZE) < length (seqZ 0 73))%nat.
Proof. split_and!; vm_compute; (done || lia). Qed.

Lemma demo_root :
  fs_rep demo_fs 73 demo_disk {[0 := (root_disk_inode, empty_forest)]} /\
  listing demo_disk root_disk_inode empty_forest [] /\
  free_data demo_fs 73 demo_disk = seqZ 0 73 /\ free_inodes demo_fs demo_disk = 1 :: seqZ 2 4094.
Proof.
  destruct (format_run (blank_disk 1100) 1100 1 demo_fits (blank_on_device 1100) ltac:(lia)) as
    (d' & Hrun & Hrep & Hls & Hfree & Hids).
  assert (demo_disk = d') as -> by (unfold demo_disk; by rewrite Hrun).
  split_and!; [exact Hrep|exact Hls|exact Hfree|]. etransitivity; [exact Hids|]. apply (seqZ_cons 1 4095). lia.
Qed.
#[local] Opaque demo_disk.

Lemma demo_file :
  exists m di f dn fn, fs_rep demo_fs 73 demo_disk_a m /\ m !! 0 = Some (di, f) /\
    listing demo_disk_a di f [(name_a, 1)] /\ size di = 32 /\ m !! 1 = Some (dn, fn) /\
    kind dn = File /\ size dn = 0 /\ length (free_data demo_fs 73 demo_disk_a) = 72%nat.
Proof.
  destruct demo_root as (Hrep & Hls & Hfree & Hids).
  destruct (create_new_run demo_fs 73 demo_disk _ 0 root_disk_inode empty_forest [] name_a File 1 (seqZ 2 4094)
    Hrep ltac:(apply lookup_singleton_eq) Hls eq_refl name_a_ok) as
    (d' & m & di & f & Hrun & Hrep' & Hm & Hls' & Hv & _ & Hfr); [exact Hids|apply demo_size|apply demo_size| |].
  { unfold enough_free. rewrite Hfree. apply Nat.lt_le_incl, demo_size. }
  assert (demo_disk_a = d') as -> by (unfold demo_disk_a; rewrite Hrun; reflexivity).
  assert (fs_view d' m !! 1 = Some (File, [])) as Hn.
  { rewrite Hv, lookup_insert_ne, lookup_insert_eq by lia. reflexivity. }
  apply view_Some in Hn as (dn & fn & Hmn & Hkn & Hcn).
  pose proof (file_readable _ _ _ _ _ _ (fs_file_state _ _ _ _ _ _ _ (proj1 Hrep') Hm)) as Hrd.
  pose proof (file_readable _ _ _ _ _ _ (fs_file_state _ _ _ _ _ _ _ (proj1 Hrep') Hmn)) as Hrdn.
  exists m, di, f, dn, fn. split_and!; [exact Hrep'|exact Hm|exact Hls'| |exact Hmn|exact Hkn| |].
  - rewrite (listing_size _ _ _ _ Hrd (listing_hold _ _ _ _ _ Hls')). reflexivity.
  - rewrite <- (length_content _ _ _ Hrdn). change (Z.of_nat (length (content d' dn fn)) = 0).
    rewrite Hcn. reflexivity.
  - rewrite Hfr, Hfree. reflexivity.
Qed.

Lemma fs_format_correct_witness :
  exists d', run (EasyFileSystem_create 1100 1) (blank_disk 1100) = Ok (demo_fs, d') /\
    fs_rep demo_fs 73 d' {[0 := (root_disk_inode, empty_forest)]} /\
    listing d' root_disk_inode empty_forest [] /\
    free_data demo_fs 73 d' = seqZ 0 73 /\ free_inodes demo_fs d' = seqZ 1 4095.
Proof. apply (fs_format_correct (blank_disk 1100) 1100 1); [apply demo_fits|apply blank_on_device|lia]. Defined.

Lemma fs_create_correct_witness :
  exists d' m' di' f', run (create_inode (inode_of demo_fs 0) name_a File) demo_disk =
      Ok (Some (inode_of demo_fs 1), d') /\
    fs_rep demo_fs 73 d' m' /\ m' !! 0 = Some (di', f') /\ listing d' di' f' [(name_a, 1)] /\
    fs_view d' m' = <[0 := (Directory, flat_map entry_bytes [(name_a, 1)])]>
      (<[1 := (File, [])]> (fs_view demo_disk {[0 := (root_disk_inode, empty_forest)]})) /\
    ({[0 := (root_disk_inode, empty_forest)]} : gmap Z (DiskInode * forest)) !! 1 = None.
Proof.
  destruct demo_root as (Hrep & Hls & Hfree & Hids).
  apply (fs_create_correct demo_fs 73 demo_disk _ 0 root_disk_inode empty_forest [] name_a File Hrep
    ltac:(apply lookup_singleton_eq) Hls 1 (seqZ 2 4094) name_a_ok); [exact Hids|apply demo_size|apply demo_size|].
  unfold enough_free. rewrite Hfree. apply Nat.lt_le_incl, demo_size.
Defined.

Lemma fs_create_dir_correct_witness :
  exists d' m' di' f' dn fn, run (Inode_create_dir (inode_of demo_fs 0) name_a) demo_disk =
      Ok (Some (inode_of demo_fs 1), d') /\
    fs_rep demo_fs 73 d' m' /\ m' !! 0 = Some (di', f') /\ listing d' di' f' [(name_a, 1)] /\
    m' !! 1 = Some (dn, fn) /\ listing d' dn fn (default_entries 1 0) /\
    fs_view d' m' = <[1 := (Directory, flat_map entry_bytes (default_entries 1 0))]>
      (<[0 := (Directory, flat_map entry_bytes [(name_a, 1)])]>
        (fs_view demo_disk {[0 := (root_disk_inode, empty_forest)]})).
Proof.
  destruct demo_root as (Hrep & Hls & Hfree & Hids).
  apply (fs_create_dir_correct demo_fs 73 demo_disk _ 0 root_disk_inode empty_forest [] name_a 1 (seqZ 2 4094) Hrep
    ltac:(apply lookup_singleton_eq) Hls eq_refl name_a_ok); [exact Hids|apply demo_size|apply demo_size|].
  rewrite Hfree. apply demo_size.
Defined.
#[local] Opaque demo_disk_a.

Lemma fs_find_correct_witness :
  run (Inode_find (inode_of demo_fs 0) name_a) demo_disk_a = Ok (Some (inode_of demo_fs 1), demo_disk_a).
Proof.
  destruct demo_file as (m & di & f & dn & fn & Hrep & Hm & Hls & _).
  exact (fs_find_correct demo_fs 73 demo_disk_a m 0 di f [(name_a, 1)] name_a Hrep Hm Hls).
Defined.

(** 700 bytes at offset 100 of an empty file take two blocks. *)
Lemma demo_write_size dn :
  size dn = 0 -> is_u32 (100 + Z.of_nat (length (replicate 700 Byte.x41))) /\
  count_data_block (100 + Z.of_nat (length (replicate 700 Byte.x41))) <= INDIRECT3_BOUND /\
  (blocks_taken dn (100 + Z.of_nat (length (replicate 700 Byte.x41))) <= 72)%nat.
Proof. intros Hs. unfold blocks_taken. rewrite Hs. split_and!; vm_compute; (done || lia). Qed.

Lemma fs_write_correct_witness :
  exists m dn fn d' m' pad, fs_rep demo_fs 73 demo_disk_a m /\ m !! 1 = Some (dn, fn) /\
    run (Inode_write_at (inode_of demo_fs 1) 100 (replicate 700 Byte.x41)) demo_disk_a =
      Ok (Z.of_nat (length (replicate 700 Byte.x41)), d') /\
    fs_rep demo_fs 73 d' m' /\
    fs_view d' m' = <[1 := (File, splice (Z.to_nat 100) (replicate 700 Byte.x41) (content demo_disk_a dn fn ++ pad))]>
      (fs_view demo_disk_a m) /\
    Z.of_nat (length (content demo_disk_a dn fn ++ pad)) =
      Z.max (size dn) (100 + Z.of_nat (length (replicate 700 Byte.x41))).
Proof.
  destruct demo_file as (m & di & f & dn & fn & Hrep & _ & _ & _ & Hm & Hk & Hs & Hfree).
  destruct (demo_write_size dn Hs) as (H1 & H2 & H3).
  destruct (fs_write_correct demo_fs 73 demo_disk_a m 1 dn fn 100 (replicate 700 Byte.x41) Hrep Hm Hk
    ltac:(discriminate) ltac:(lia) H1 H2) as (d' & m' & pad & H).
  { unfold enough_free. rewrite Hfree. exact H3. }
  exists m, dn, fn, d', m', pad. split; [exact Hrep|]. split; [exact Hm|]. exact H.
Defined.

Lemma fs_clear_correct_witness :
  exists m di f d' m', fs_rep demo_fs 73 demo_disk_a m /\ m !! 0 = Some (di, f) /\ size di = 32 /\
    run (Inode_clear (inode_of demo_fs 0)) demo_disk_a = Ok (tt, d') /\ fs_rep demo_fs 73 d' m' /\
    fs_view d' m' = <[0 := (kind di, [])]> (fs_view demo_disk_a m) /\
    forall b, b ∈ all_blocks f ->
      blocks d' !! b = Some zero_block /\ (b - data_area_start_block demo_fs) ∈ free_data demo_fs 73 d'.
Proof.
  destruct demo_file as (m & di & f & dn & fn & Hrep & Hm & _ & Hsz & _).
  destruct (fs_clear_correct demo_fs 73 demo_disk_a m 0 di f Hrep Hm) as (d' & m' & H).
  exists m, di, f, d', m'. split; [exact Hrep|]. split; [exact Hm|]. split; [exact Hsz|]. exact H.
Defined.

Lemma fs_delete_correct_witness :
  exists m fv d' m' di' f', fs_rep demo_fs 73 demo_disk_a m /\
    run (Inode_delete (inode_of demo_fs 0) name_a) demo_disk_a = Ok (tt, d') /\ fs_rep demo_fs 73 d' m' /\
    m' !! 0 = Some (di', f') /\ listing d' di' f' (swap_remove 0 [(name_a, 1)]) /\
    fs_view d' m' = <[0 := (Directory, flat_map entry_bytes (swap_remove 0 [(name_a, 1)]))]>
      (delete 1 (fs_view demo_disk_a m)) /\
    forall b, b ∈ all_blocks fv ->
      bit_at (data_bitmap demo_fs) d' (b - data_area_start_block demo_fs) = true.
Proof.
  destruct demo_file as (m & di & f & dn & fn & Hrep & Hm & Hls & Hsz & Hmn & _).
  destruct (fs_delete_correct demo_fs 73 demo_disk_a m 0 di f [(name_a, 1)] 0 name_a 1 dn fn Hrep Hm Hls
    (NoDup_singleton _) ltac:(discriminate)) as (d' & m' & di' & f' & H); [|reflexivity|exact Hmn|discriminate|].
  { rewrite Hsz. clear. vm_compute. discriminate. }
  exists m, fn, d', m', di', f'. split; [exact Hrep|]. exact H.
Defined.
