(* ===== verification/Pack.v ===== *)
(** * The image builder

    [easy-fs-fuse/src/main.rs]: the files of a directory of the host are
    packed into a fresh file system.  The host's file system is a tree of
    files and directories; how a file is cut into pieces by the calls of
    [read] is up to the host and is a parameter. *)

From S2P Require Import Prelude Bytes Config BlockStore BlockCache Bitmap Layout BlockTree InodeForest.
From S2P Require Import LayoutGrow LayoutClear LayoutIO Efs Vfs VfsSpec Directory FileSystem.

(** ** The host *)

(** What [read_dir], [is_dir], [is_file] and [read] show. *)
#[warnings="-register-all"]
Inductive host := HFile (data : list u8) | HDir (entries : list (list u8 * host)) | HOther.

Definition starts_with_dot (nm : list u8) : bool := match nm with Byte.x2e :: _ => true | _ => false end.

(** [OsStr::to_str] *)
Definition to_str (nm : list u8) : option (list u8) := if utf8_valid nm then Some nm else None.

Section fold.
Context {A : Type} (f : A -> prog ()).
(** [for entry in ...] *)
Fixpoint each (l : list A) : prog () :=
  match l with [] => Ret tt | x :: l => f x ;;; each l end.
End fold.

(** ** The program *)

Section pack.
(** What the calls of [read] on a file return, up to the 0 that ends the
    loop. *)
Context (reads : list u8 -> list (list u8)).

(** The loop that copies a file. *)
Fixpoint write_reads (inode : Inode) (offset : Z) (l : list (list u8)) : prog () :=
  match l with
  | [] => Ret tt
  | buffer :: l =>
      let! _ := Inode_write_at inode offset buffer in
      write_reads inode (w64 (offset + Z.of_nat (length buffer))) l
  end.

(** The body of the loop of [pack_directory]. *)
Fixpoint pack_entry (parent_inode : Inode) (file_name : list u8) (entry : host) {struct entry} : prog () :=
  let! entry_name := lift (unwrap (to_str file_name)) in
  if starts_with_dot entry_name then Ret tt
  else
    match entry with
    | HDir es =>
        let! o := Inode_create_dir parent_inode entry_name in
        let! dir_inode := lift (unwrap o) in
        each (fun e => pack_entry dir_inode e.1 e.2) es
    | HFile data =>
        let! o := Inode_create parent_inode entry_name in
        let! inode := lift (unwrap o) in
        write_reads inode 0 (reads data)
    | HOther => Ret tt
    end.

(** [pack_directory] *)
Definition pack_directory (parent_inode : Inode) (entries : list (list u8 * host)) : prog () :=
  each (fun e => pack_entry parent_inode e.1 e.2) entries.

(** [main], from the format on; it returns without a [sync_all]. *)
Definition main (entries : list (list u8 * host)) : prog EasyFileSystem :=
  let! efs := EasyFileSystem_create (256 * 2048) 1 in
  let root := root_inode efs in
  set_default_dirent root (inode_id root) ;;;
  pack_directory root entries ;;;
  Ret efs.

(** The file [fs.img], new and set to its length. *)
Definition new_image : BlockFile := {| file := replicate (Z.to_nat (256 * 2048)) zero_block |}.

(** The whole run, on the cache over the file.  The cache is a static that
    is never dropped: the image is the device as the last [sync_all] and the
    blocks that had to give way left it. *)
Definition build (entries : list (list u8 * host)) : res (EasyFileSystem * cached BlockFile) :=
  run (main entries) (cached_new new_image).
End pack.

(** ** Names and sizes *)

(** The entries the builder packs. *)
Definition packed_entry (e : list u8 * host) : bool :=
  negb (starts_with_dot e.1) && match e.2 with HOther => false | _ => true end.
Definition packed_names (l : list (list u8 * host)) : list (list u8) := (filter (fun e => packed_entry e = true) l).*1.

(** The sizes an inode can have. *)
Definition size_ok (s : Z) : Prop := is_u32 s /\ count_data_block s <= INDIRECT3_BOUND.

Section sums.
Context (f : host -> Z).
(** The sum over the packed entries. *)
Fixpoint tree_sum (es : list (list u8 * host)) : Z :=
  match es with [] => 0 | e :: es => (if packed_entry e then f e.2 else 0) + tree_sum es end.
End sums.

(** The blocks and the inodes a tree takes. *)
Fixpoint blocks_of (h : host) : Z :=
  match h with
  | HFile data => count_total_block (Z.of_nat (length data))
  | HDir es =>
      count_total_block (32 * (2 + Z.of_nat (length (packed_names es)))) +
      tree_sum blocks_of es
  | HOther => 0
  end.
Fixpoint nodes (h : host) : Z :=
  match h with
  | HDir es => 1 + tree_sum nodes es
  | _ => 1
  end.

Section every.
Context (P : host -> Prop).
Fixpoint every (es : list (list u8 * host)) : Prop :=
  match es with [] => True | e :: es => (packed_entry e = true -> P e.2) /\ every es end.
End every.

(** What the file system can hold: names that fit its entries, no name twice,
    sizes in range. *)
Definition names_fit (es : list (list u8 * host)) : Prop :=
  Forall (fun e => utf8_valid e.1 = true) es /\ Forall name_ok (packed_names es) /\ NoDup (packed_names es) /\
  size_ok (32 * (2 + Z.of_nat (length (packed_names es)))).
Fixpoint host_ok (h : host) : Prop :=
  match h with
  | HFile data => size_ok (Z.of_nat (length data))
  | HDir es => names_fit es /\ every host_ok es
  | HOther => True
  end.

(** ** The tree in the file system *)

Abbreviation view := (gmap Z (DiskInodeKind * list u8)).

Section children.
Context (P : Z -> host -> Prop).
(** The packed entries are the trees of the inodes [ids]. *)
Fixpoint children (es : list (list u8 * host)) (ids : list Z) : Prop :=
  match es with
  | [] => ids = []
  | e :: es =>
      if packed_entry e then match ids with i :: ids => P i e.2 /\ children es ids | [] => False end
      else children es ids
  end.
End children.

(** The inode [id] is the tree [h]: a file with the same bytes, or a directory
    that lists itself, the directory [parent] and the packed entries, in
    order. *)
Fixpoint image (v : view) (parent id : Z) (h : host) {struct h} : Prop :=
  match h with
  | HFile data => v !! id = Some (File, data)
  | HDir es => exists ids, length ids = length (packed_names es) /\
      v !! id = Some (Directory, flat_map entry_bytes (default_entries id parent ++ zip (packed_names es) ids)) /\
      children (image v id) es ids
  | HOther => True
  end.

Lemma total_mono s s' : 0 <= s <= s' -> size_ok s' -> count_total_block s <= count_total_block s'.
Proof. intros Hs [Hu Hb]. apply count_total_mono; (done || lia || (unfold is_u32 in *; lia)). Qed.

Lemma size_ok_le s s' : 0 <= s <= s' -> size_ok s' -> size_ok s.
Proof.
  intros Hs [Hu Hb]. pose proof (count_data_block_mono s s' ltac:(lia)). split; [unfold is_u32 in *; lia|lia].
Qed.

(** ** Steps *)

Section steps.
Context (efs : EasyFileSystem) (area : Z).
Abbreviation ninodes := (Bitmap_maximum (inode_bitmap efs)).

(** The disk holds the files [v] and has [n] free blocks. *)
Definition fs_is (d : disk) (v : view) (n : Z) : Prop :=
  exists m, fs_rep efs area d m /\ fs_view d m = v /\ Z.of_nat (length (free_data efs area d)) = n.

(** The directory [id] lists [es]. *)
Definition lists (v : view) (id : Z) (es : list dirent) : Prop :=
  v !! id = Some (Directory, flat_map entry_bytes es) /\ Forall entry_ok es.

Lemma lists_listing d m id es :
  fs_rep efs area d m -> lists (fs_view d m) id es ->
  exists di f, m !! id = Some (di, f) /\ listing d di f es /\ size di = 32 * Z.of_nat (length es).
Proof.
  intros Hrep [Hv Hok]. apply view_Some in Hv as (di & f & Hm & Hk & Hc). exists di, f. assert (listing d di f es) as Hls by by split.
  split_and!; [done|done|]. pose proof (fs_file_state _ _ _ _ _ _ _ (proj1 Hrep) Hm) as Hst.
  by apply (listing_size _ di f es (file_readable _ _ _ _ _ _ Hst) (listing_hold _ _ _ _ _ Hls)).
Qed.

(** While there are fewer files than inodes, one is free. *)
Lemma free_inode d m :
  fs_rep efs area d m -> Z.of_nat (base.size (fs_view d m)) < ninodes ->
  exists new l, free_inodes efs d = new :: l /\ 0 <= new < ninodes.
Proof.
  intros [Hfs Hids] Hsz. destruct (free_inodes efs d) as [|new l] eqn:E.
  - exfalso. unfold fs_view in Hsz. rewrite map_size_fmap in Hsz.
    assert (list_to_set (seqZ 0 ninodes) ⊆ dom m) as Hsub.
    { intros i Hi%elem_of_list_to_set%elem_of_seqZ. apply elem_of_dom, (bool_decide_eq_true (is_Some (m !! i))). rewrite <- Hids by lia.
      destruct (bit_at (inode_bitmap efs) d i) eqn:Eb; [done|]. exfalso. eapply not_elem_of_nil. rewrite <- E.
      apply free_bits_elem. split; [rewrite Z.add_0_l in Hi; exact Hi|done]. }
    apply subseteq_size in Hsub. rewrite size_dom, size_list_to_set, length_seqZ in Hsub by apply NoDup_seqZ. lia.
  - exists new, l. split; [done|]. assert (new ∈ free_inodes efs d) as [? _]%free_bits_elem by (rewrite E; by left). done.
Qed.

Lemma entry_room di k n :
  size di = 32 * k -> 0 <= k -> size_ok (32 * (k + 1)) -> count_total_block (32 * (k + 1)) - count_total_block (32 * k) <= n ->
  Z.of_nat (blocks_taken di ((k + 1) * DIRENT_SIZE)) = count_total_block (32 * (k + 1)) - count_total_block (32 * k).
Proof.
  intros Hs Hk Hok Hn. pose proof (total_mono (32 * k) (32 * (k + 1)) ltac:(lia) Hok).
  unfold blocks_taken, DIRENT_SIZE. rewrite Hs. replace (Z.max (32 * k) ((k + 1) * 32)) with (32 * (k + 1)) by lia. lia.
Qed.

(** What a new entry of a directory with [length es] entries takes. *)
Definition entry_cost (k : nat) : Z :=
  count_total_block (32 * (Z.of_nat k + 1)) - count_total_block (32 * Z.of_nat k).

Lemma create_step d v n id es nm :
  fs_is d v n -> lists v id es -> nm ∉ es.*1 -> name_ok nm -> Z.of_nat (base.size v) < ninodes ->
  size_ok (32 * (Z.of_nat (length es) + 1)) -> entry_cost (length es) <= n ->
  exists new d', run (Inode_create (inode_of efs id) nm) d = Ok (Some (inode_of efs new), d') /\ v !! new = None /\
    entry_ok (nm, new) /\
    fs_is d' (<[id := (Directory, flat_map entry_bytes (es ++ [(nm, new)]))]> (<[new := (File, [])]> v))
      (n - entry_cost (length es)).
Proof.
  intros (m & Hrep & <- & <-) Hl Hnm Hok Hsz Hs Hc. destruct (lists_listing d m id es Hrep Hl) as (di & f & Hm & Hls & Hsize).
  destruct (free_inode d m Hrep Hsz) as (new & l & Hf & Hnew). apply find_entry_None in Hnm.
  pose proof (entry_room di _ _ Hsize ltac:(lia) Hs Hc) as Ht. fold (entry_cost (length es)) in Ht.
  assert ((Z.of_nat (length es) + 1) * DIRENT_SIZE = 32 * (Z.of_nat (length es) + 1)) as Esz by (unfold DIRENT_SIZE; lia).
  destruct (create_new_run efs area d m id di f es nm File new l) as (d' & m' & di' & f' & Hrun & Hrep' & _ & _ & Hv & Hmn & Hfr);
    try done; try (rewrite Esz; apply Hs).
  { change (blocks_taken di ((Z.of_nat (length es) + 1) * DIRENT_SIZE) <= length (free_data efs area d))%nat. lia. }
  exists new, d'. split_and!; [done|unfold fs_view; by rewrite lookup_fmap, Hmn| |exists m'; split_and!; [done|done|lia]].
  split; [done|]. pose proof (ir_u32 _ _ (fr_inodes _ _ _ _ (proj1 Hrep))). unfold is_u32. cbn. lia.
Qed.

Lemma create_dir_step d v n id es nm :
  fs_is d v n -> lists v id es -> nm ∉ es.*1 -> name_ok nm -> Z.of_nat (base.size v) < ninodes ->
  size_ok (32 * (Z.of_nat (length es) + 1)) -> entry_cost (length es) + 1 <= n ->
  exists new d', run (Inode_create_dir (inode_of efs id) nm) d = Ok (Some (inode_of efs new), d') /\ v !! new = None /\
    entry_ok (nm, new) /\ Forall entry_ok (default_entries new id) /\
    fs_is d' (<[new := (Directory, flat_map entry_bytes (default_entries new id))]>
      (<[id := (Directory, flat_map entry_bytes (es ++ [(nm, new)]))]> v)) (n - entry_cost (length es) - 1).
Proof.
  intros (m & Hrep & <- & <-) Hl Hnm Hok Hsz Hs Hc. destruct (lists_listing d m id es Hrep Hl) as (di & f & Hm & Hls & Hsize).
  destruct (free_inode d m Hrep Hsz) as (new & l & Hf & Hnew). apply find_entry_None in Hnm.
  pose proof (entry_room di _ (entry_cost (length es)) Hsize ltac:(lia) Hs ltac:(unfold entry_cost; lia)) as Ht.
  fold (entry_cost (length es)) in Ht.
  assert ((Z.of_nat (length es) + 1) * DIRENT_SIZE = 32 * (Z.of_nat (length es) + 1)) as Esz by (unfold DIRENT_SIZE; lia).
  destruct (create_dir_run efs area d m id di f es nm new l) as
    (d' & m' & di' & f' & dn & fn & Hrun & Hrep' & _ & Hls1 & _ & Hls2 & Hmn & Hfr & Hv); try done; try (rewrite Esz; apply Hs).
  { change (blocks_taken di ((Z.of_nat (length es) + 1) * DIRENT_SIZE) < length (free_data efs area d))%nat. lia. }
  exists new, d'. split_and!; [done|unfold fs_view; by rewrite lookup_fmap, Hmn| |apply Hls2|exists m'; split_and!; [done|done|lia]].
  apply ls_ok, Forall_app in Hls1 as [_ [? _]%Forall_cons]. done.
Qed.

Lemma append_step d v n id c buf :
  fs_is d v n -> v !! id = Some (File, c) -> buf <> [] -> size_ok (Z.of_nat (length (c ++ buf))) ->
  let k := count_total_block (Z.of_nat (length (c ++ buf))) - count_total_block (Z.of_nat (length c)) in
  k <= n ->
  exists d', run (Inode_write_at (inode_of efs id) (Z.of_nat (length c)) buf) d = Ok (Z.of_nat (length buf), d') /\
    fs_is d' (<[id := (File, c ++ buf)]> v) (n - k).
Proof.
  intros (m & Hrep & <- & <-) Hv Hne Hs k Hk. apply view_Some in Hv as (di & f & Hm & Hkd & Hc).
  pose proof (fs_file_state _ _ _ _ _ _ _ (proj1 Hrep) Hm) as Hst.
  pose proof (length_content _ _ _ (file_readable _ _ _ _ _ _ Hst)) as Hlen.
  change (content (hold _ d) di f) with (content d di f) in Hlen. rewrite Hc in Hlen.
  assert (Z.of_nat (length c) + Z.of_nat (length buf) = Z.of_nat (length (c ++ buf))) as Ee by (rewrite length_app; lia).
  pose proof (total_mono (Z.of_nat (length c)) (Z.of_nat (length (c ++ buf))) ltac:(lia) Hs) as Hmono.
  assert (Z.of_nat (blocks_taken di (Z.of_nat (length c) + Z.of_nat (length buf))) = k) as Ht.
  { unfold blocks_taken. rewrite Ee, <- Hlen, Z.max_r by lia. unfold k. lia. }
  destruct (fs_write_run efs area d m id di f (Z.of_nat (length c)) buf) as
    (di' & f' & d' & pad & Hrun & Hrep' & _ & _ & Hcont & Hpad & Hfr & Hview); try done; try (rewrite Ee; apply Hs); [lia| |].
  { change (blocks_taken di (Z.of_nat (length c) + Z.of_nat (length buf)) <= length (free_data efs area d))%nat. lia. }
  exists d'. split; [done|]. exists (<[id := (di', f')]> m). split_and!; [done| |lia].
  rewrite Hview, Hcont, Hc. rewrite Hc, length_app in Hpad. do 3 f_equal. rewrite Nat2Z.id. unfold splice.
  rewrite take_app_le, take_ge by lia. f_equal. rewrite drop_ge, app_nil_r; [done|]. rewrite length_app. lia.
Qed.
End steps.

(** ** Induction *)

Section induction.
Context (P : host -> Prop) (Hfile : forall data, P (HFile data))
  (Hdir : forall es, Forall (fun e => P e.2) es -> P (HDir es)) (Hother : P HOther).
Fixpoint host_tree_ind (h : host) : P h :=
  match h with
  | HFile data => Hfile data
  | HDir es => Hdir es ((fix go es := match es return Forall (fun e => P e.2) es with
      | [] => @List.Forall_nil _ _ | e :: es => @List.Forall_cons _ _ e es (host_tree_ind e.2) (go es) end) es)
  | HOther => Hother
  end.
End induction.

Lemma packed_names_cons e l :
  packed_names (e :: l) = if packed_entry e then e.1 :: packed_names l else packed_names l.
Proof. unfold packed_names. rewrite filter_cons. destruct (packed_entry e) eqn:E; [by rewrite decide_True|by rewrite decide_False]. Qed.
Lemma packed_names_app l1 l2 : packed_names (l1 ++ l2) = packed_names l1 ++ packed_names l2.
Proof. unfold packed_names. by rewrite filter_app, fmap_app. Qed.
Lemma tree_sum_app f l1 l2 : tree_sum f (l1 ++ l2) = tree_sum f l1 + tree_sum f l2.
Proof. induction l1 as [|e l1 IH]; cbn; [done|]. rewrite IH. lia. Qed.
Lemma children_app P l1 l2 : forall ids1 ids2,
  children P l1 ids1 -> children P l2 ids2 -> children P (l1 ++ l2) (ids1 ++ ids2).
Proof.
  induction l1 as [|e l1 IH]; intros ids1 ids2 H1 H2; cbn in *; [by subst|].
  destruct (packed_entry e); [|by apply IH]. destruct ids1 as [|i ids1]; [done|]. destruct H1 as [? ?]. split; [done|by apply IH].
Qed.

(** A packed entry is no hidden one. *)
Lemma packed_not_default l id parent :
  NoDup (packed_names l) -> NoDup ((default_entries id parent).*1 ++ packed_names l).
Proof.
  intros Hn. assert (forall nm, starts_with_dot nm = true -> nm ∉ packed_names l) as Hd.
  { intros nm Hnm (e & -> & [He _]%list_elem_of_filter)%list_elem_of_fmap. unfold packed_entry in He. by rewrite Hnm in He. }
  cbn. apply NoDup_cons. split; [|apply NoDup_cons; split; [by apply Hd|done]].
  rewrite elem_of_cons. intros [?|?]; [done|]. by eapply (Hd dot).
Qed.

Lemma count_total_nonneg s : 0 <= s -> size_ok s -> 0 <= count_total_block s.
Proof. intros Hs Hok. apply (total_mono 0 s); [lia|done]. Qed.

Lemma tree_sum_nonneg f l : every (fun h => 0 <= f h) l -> 0 <= tree_sum f l.
Proof.
  induction l as [|e l IH]; cbn; [lia|]. intros [He Hl]. specialize (IH Hl).
  destruct (packed_entry e); [specialize (He eq_refl)|]; lia.
Qed.
Lemma every_impl (P Q : host -> Prop) l : Forall (fun e => P e.2 -> Q e.2) l -> every P l -> every Q l.
Proof.
  induction 1 as [|e l He _ IH]; cbn; [done|]. intros [H1 H2]. split; [|by apply IH]. intros Hp. by apply He, H1.
Qed.
Lemma every_app P l1 l2 : every P (l1 ++ l2) <-> every P l1 /\ every P l2.
Proof. induction l1 as [|e l1 IH]; cbn; [tauto|]. rewrite IH. tauto. Qed.

Lemma blocks_nonneg h : host_ok h -> 0 <= blocks_of h.
Proof.
  induction h as [data|es IH|] using host_tree_ind; cbn [host_ok blocks_of]; [|intros [Hn He]|done].
  - intros Hs. apply count_total_nonneg; [lia|done].
  - pose proof (tree_sum_nonneg blocks_of es (every_impl _ _ es IH He)).
    pose proof (count_total_nonneg (32 * (2 + Z.of_nat (length (packed_names es)))) ltac:(lia) ltac:(apply Hn)). lia.
Qed.
Lemma nodes_pos h : 1 <= nodes h.
Proof.
  induction h as [data|es IH|] using host_tree_ind; cbn [nodes]; [lia| |lia].
  enough (0 <= tree_sum nodes es) by lia. apply tree_sum_nonneg. induction IH as [|e es He _ IH]; cbn; [done|]. split; [lia|done].
Qed.

(** ** Packing *)

(** What packing the entries [l] into a directory with [k] entries takes. *)
Definition list_cost (k : nat) (l : list (list u8 * host)) : Z :=
  count_total_block (32 * Z.of_nat (k + length (packed_names l))) - count_total_block (32 * Z.of_nat k) + tree_sum blocks_of l.

Lemma list_cost_app k l1 l2 : list_cost k (l1 ++ l2) = list_cost k l1 + list_cost (k + length (packed_names l1)) l2.
Proof. unfold list_cost. rewrite packed_names_app, length_app, tree_sum_app, Nat.add_assoc. lia. Qed.

Lemma list_cost_nonneg k l :
  every host_ok l -> size_ok (32 * Z.of_nat (k + length (packed_names l))) -> 0 <= list_cost k l.
Proof.
  intros He Hs. unfold list_cost. pose proof (total_mono (32 * Z.of_nat k) (32 * Z.of_nat (k + length (packed_names l))) ltac:(lia) Hs).
  enough (0 <= tree_sum blocks_of l) by lia. apply tree_sum_nonneg.
  eapply every_impl; [|exact He]. apply Forall_true. intros e. apply blocks_nonneg.
Qed.

Section packing.
Context (efs : EasyFileSystem) (area : Z) (reads : list u8 -> list (list u8)).
Context (reads_all : forall data, concat (reads data) = data) (reads_some : forall data, Forall (fun b => b <> []) (reads data)).
Abbreviation ninodes := (Bitmap_maximum (inode_bitmap efs)).
Abbreviation fs_is := (fs_is efs area).

Lemma write_reads_run bufs : forall d v n id c,
  fs_is d v n -> v !! id = Some (File, c) -> Forall (fun b => b <> []) bufs -> size_ok (Z.of_nat (length (c ++ concat bufs))) ->
  let k := count_total_block (Z.of_nat (length (c ++ concat bufs))) - count_total_block (Z.of_nat (length c)) in
  k <= n ->
  exists d', run (write_reads (inode_of efs id) (Z.of_nat (length c)) bufs) d = Ok (tt, d') /\
    fs_is d' (<[id := (File, c ++ concat bufs)]> v) (n - k).
Proof.
  induction bufs as [|b bufs IH]; intros d v n id c Hd Hv Hne Hs k Hk.
  { exists d. cbn. split; [done|]. unfold k. cbn. rewrite app_nil_r, Z.sub_diag, Z.sub_0_r. by rewrite insert_id. }
  apply Forall_cons in Hne as [Hb Hne]. cbn [concat write_reads] in *. unfold k in Hk |- *. clear k. rewrite app_assoc in *.
  assert (size_ok (Z.of_nat (length (c ++ b)))) as Hs1.
  { eapply size_ok_le; [|exact Hs]. rewrite (length_app (c ++ b)). lia. }
  pose proof (total_mono (Z.of_nat (length (c ++ b))) (Z.of_nat (length ((c ++ b) ++ concat bufs)))
    ltac:(rewrite (length_app (c ++ b)); lia) Hs) as Hmono.
  destruct (append_step efs area d v n id c b Hd Hv Hb Hs1 ltac:(lia)) as (d1 & Hrun & Hd1).
  rewrite (run_bind_Ok _ _ _ _ _ Hrun).
  rewrite w64_id by (rewrite length_app in Hs1; destruct Hs1; unfold is_u32, is_u64 in *; lia).
  replace (Z.of_nat (length c) + Z.of_nat (length b)) with (Z.of_nat (length (c ++ b))) by (rewrite length_app; lia).
  destruct (IH d1 _ _ id (c ++ b) Hd1 ltac:(apply lookup_insert_eq) Hne Hs ltac:(lia)) as (d2 & Hrun2 & Hd2).
  exists d2. split; [done|]. rewrite insert_insert_eq in Hd2. eapply eq_ind; [exact Hd2|]. lia.
Qed.

(** The entries [l] fit into the directory that lists [es]. *)
Record fits_in (es : list dirent) (l : list (list u8 * host)) (v : view) (n : Z) : Prop := {
  fi_utf8 : Forall (fun e => utf8_valid e.1 = true) l;
  fi_names : Forall name_ok (packed_names l);
  fi_new : NoDup (es.*1 ++ packed_names l);
  fi_size : size_ok (32 * Z.of_nat (length es + length (packed_names l)));
  fi_hosts : every host_ok l;
  fi_blocks : list_cost (length es) l <= n;
  fi_inodes : Z.of_nat (base.size v) + tree_sum nodes l <= ninodes;
}.

(** What packing them does: the directory [id] lists them behind its entries,
    as inodes that were free, each of them holds its tree, and the inodes
    that were there stay. *)
Record packs (id : Z) (es : list dirent) (l : list (list u8 * host)) (v v' : view) (ids : list Z) : Prop := {
  pk_ids : length ids = length (packed_names l);
  pk_lists : lists v' id (es ++ zip (packed_names l) ids);
  pk_frame j x : j <> id -> v !! j = Some x -> v' !! j = Some x;
  pk_image u : (forall j x, v !! j = None -> v' !! j = Some x -> u !! j = Some x) -> children (image u id) l ids;
  pk_size : Z.of_nat (base.size v') = Z.of_nat (base.size v) + tree_sum nodes l;
}.

Lemma packs_nil id es v : lists v id es -> packs id es [] v v [].
Proof. intros H. split; cbn; try done; [by rewrite app_nil_r|lia]. Qed.

Lemma packs_app id es l1 l2 v v1 v2 ids1 ids2 :
  is_Some (v !! id) -> packs id es l1 v v1 ids1 -> packs id (es ++ zip (packed_names l1) ids1) l2 v1 v2 ids2 ->
  packs id es (l1 ++ l2) v v2 (ids1 ++ ids2).
Proof.
  intros [x0 Hid] [Hi1 [Hl1 _] Hf1 Hm1 Hs1] [Hi2 Hl2 Hf2 Hm2 Hs2]. split.
  - by rewrite packed_names_app, !length_app, Hi1, Hi2.
  - rewrite packed_names_app. rewrite zip_with_app by done. by rewrite app_assoc.
  - intros j x Hj Hx. by apply Hf2, Hf1.
  - intros u Hu. apply children_app.
    + apply Hm1. intros j x Hj Hx. apply Hu; [done|]. apply Hf2; [|done]. intros ->. congruence.
    + apply Hm2. intros j x Hj Hx. apply Hu; [|done]. destruct (v !! j) as [y|] eqn:Ey; [|done].
      destruct (decide (j = id)) as [->|Hne]; [congruence|]. rewrite (Hf1 j y Hne Ey) in Hj. done.
  - rewrite tree_sum_app. lia.
Qed.

Lemma fits_split es l1 l2 v n :
  fits_in es (l1 ++ l2) v n ->
  fits_in es l1 v n /\
  forall id v1 ids, packs id es l1 v v1 ids ->
    fits_in (es ++ zip (packed_names l1) ids) l2 v1 (n - list_cost (length es) l1).
Proof.
  intros [Hu Hn Hnew Hs He Hc Hi]. rewrite packed_names_app, tree_sum_app, list_cost_app in *.
  apply Forall_app in Hu as [Hu1 Hu2], Hn as [Hn1 Hn2]. apply every_app in He as [He1 He2].
  rewrite length_app, Nat.add_assoc in Hs.
  assert (size_ok (32 * Z.of_nat (length es + length (packed_names l1)))) as Hs1 by (eapply size_ok_le; [|exact Hs]; lia).
  pose proof (list_cost_nonneg _ l2 He2 Hs).
  assert (forall l, 0 <= tree_sum nodes l) as Hnodes.
  { intros l. induction l as [|e l IH]; cbn; [lia|]. pose proof (nodes_pos e.2). destruct (packed_entry e); lia. }
  pose proof (Hnodes l2). rewrite app_assoc in Hnew. split.
  - split; try done; [by apply NoDup_app in Hnew as [? _]|lia|lia].
  - intros id v1 ids [Hids _ _ _ Hsz]. assert (length (es ++ zip (packed_names l1) ids) = (length es + length (packed_names l1))%nat) as El.
    { rewrite length_app, length_zip, Hids. lia. }
    split; rewrite ?El; try done; [|lia|lia]. rewrite fmap_app, fst_zip by lia. done.
Qed.

(** Packing one entry, as a claim about its tree. *)
Definition entry_packs (h : host) : Prop := forall nm d v n id es,
  fits_in es [(nm, h)] v n -> fs_is d v n -> lists v id es ->
  exists d' v' ids, run (pack_entry reads (inode_of efs id) nm h) d = Ok (tt, d') /\
    fs_is d' v' (n - list_cost (length es) [(nm, h)]) /\ packs id es [(nm, h)] v v' ids.

Lemma entries_run l : Forall (fun e => entry_packs e.2) l -> forall d v n id es,
  fits_in es l v n -> fs_is d v n -> lists v id es ->
  exists d' v' ids, run (each (fun e => pack_entry reads (inode_of efs id) e.1 e.2) l) d = Ok (tt, d') /\
    fs_is d' v' (n - list_cost (length es) l) /\ packs id es l v v' ids.
Proof.
  induction 1 as [|[nm h] l He _ IH]; intros d v n id es Hfit Hd Hl.
  { exists d, v, []. split_and!; [done| |by apply packs_nil]. unfold list_cost. cbn.
    rewrite Nat.add_0_r, Z.sub_diag, Z.sub_0_r. done. }
  destruct (fits_split es [(nm, h)] l v n Hfit) as [Hfit1 Hfit2].
  destruct (He nm d v n id es Hfit1 Hd Hl) as (d1 & v1 & ids1 & Hrun1 & Hd1 & Hp1).
  destruct (IH d1 v1 _ id _ (Hfit2 _ _ _ Hp1) Hd1 (pk_lists _ _ _ _ _ _ Hp1)) as (d2 & v2 & ids2 & Hrun2 & Hd2 & Hp2).
  exists d2, v2, (ids1 ++ ids2). split_and!.
  - cbn [each fst snd]. by rewrite (run_bind_Ok _ _ _ _ _ Hrun1).
  - eapply eq_ind; [exact Hd2|]. rewrite (list_cost_app _ [(nm, h)] l), length_app, length_zip, (pk_ids _ _ _ _ _ _ Hp1).
    cbn [snd]. rewrite Nat.min_id. lia.
  - apply (packs_app id es [(nm, h)] l v v1 v2); [by destruct Hl as [-> _]|done|done].
Qed.

Lemma pack_skip nm h d v n id es :
  packed_entry (nm, h) = false -> fs_is d v n -> lists v id es ->
  fs_is d v (n - list_cost (length es) [(nm, h)]) /\ packs id es [(nm, h)] v v [].
Proof.
  intros Hp Hd Hl. unfold list_cost. rewrite packed_names_cons, Hp. cbn [packed_names filter list_filter fmap list_fmap length].
  cbn [tree_sum]. rewrite Hp, Nat.add_0_r, Z.sub_diag, Z.sub_0_r. split; [done|].
  split; rewrite ?packed_names_cons, ?Hp; cbn; rewrite ?Hp; try done; [by rewrite app_nil_r|lia].
Qed.

Lemma list_cost_single k e : packed_entry e = true -> list_cost k [e] = entry_cost k + blocks_of e.2.
Proof.
  intros Hp. unfold list_cost, entry_cost. rewrite packed_names_cons, Hp. cbn. rewrite Hp.
  replace (Z.of_nat (k + 1)) with (Z.of_nat k + 1) by lia. lia.
Qed.

Lemma fits_single es nm h v n :
  packed_entry (nm, h) = true -> fits_in es [(nm, h)] v n ->
  name_ok nm /\ (nm ∉ es.*1) /\ size_ok (32 * (Z.of_nat (length es) + 1)) /\ host_ok h /\
  entry_cost (length es) + blocks_of h <= n /\ Z.of_nat (base.size v) + nodes h <= ninodes.
Proof.
  intros Hp [_ Hn Hnew Hs He Hc Hi]. rewrite list_cost_single in Hc by done. rewrite packed_names_cons, Hp in *.
  cbn in Hn, Hnew, Hs, He, Hi. rewrite Hp in *. apply Forall_cons in Hn as [Hn _]. apply NoDup_app in Hnew as (_ & Hnew & _).
  split_and!; [done| | |by apply He|done|lia].
  - intros Hin. apply (Hnew _ Hin). by left.
  - by replace (Z.of_nat (length es) + 1) with (Z.of_nat (length es + 1)) by lia.
Qed.

(** An entry that was packed as the inode [new]. *)
Lemma packs_single id es nm h v v' new :
  packed_entry (nm, h) = true -> v !! new = None -> lists v' id (es ++ [(nm, new)]) ->
  (forall j x, j <> id -> v !! j = Some x -> v' !! j = Some x) ->
  (forall u, (forall j x, v !! j = None -> v' !! j = Some x -> u !! j = Some x) -> image u id new h) ->
  Z.of_nat (base.size v') = Z.of_nat (base.size v) + nodes h ->
  packs id es [(nm, h)] v v' [new].
Proof.
  intros Hp Hn Hl Hf Hm Hs. split; rewrite ?packed_names_cons, ?Hp; cbn; rewrite ?Hp; try done; [|lia].
  intros u Hu. split; [by apply Hm|done].
Qed.

Lemma entry_name nm h es v n : fits_in es [(nm, h)] v n -> to_str nm = Some nm.
Proof. intros [Hu _ _ _ _ _ _]. apply Forall_cons in Hu as [Hu _]. cbn in Hu. unfold to_str. by rewrite Hu. Qed.

Lemma pack_file data : entry_packs (HFile data).
Proof.
  intros nm d v n id es Hfit Hd Hl. cbn [pack_entry]. rewrite (entry_name _ _ _ _ _ Hfit). cbn [unwrap lift bind].
  destruct (starts_with_dot nm) eqn:Hdot.
  { destruct (pack_skip nm (HFile data) d v n id es) as [? ?]; try done; [unfold packed_entry; cbn; by rewrite Hdot|].
    exists d, v, []. by split_and!. }
  assert (packed_entry (nm, HFile data) = true) as Hp by (unfold packed_entry; cbn; by rewrite Hdot).
  destruct (fits_single es nm _ v n Hp Hfit) as (Hok & Hnew & Hs & He & Hc & Hi). cbn [host_ok blocks_of nodes] in He, Hc, Hi.
  pose proof (count_total_nonneg (Z.of_nat (length data)) ltac:(lia) He) as Hnn.
  destruct (create_step efs area d v n id es nm Hd Hl Hnew Hok) as (new & d1 & Hrun1 & Hvn & Hent & Hd1); [lia|done|lia|].
  assert (id <> new) as Hne by (intros ->; destruct Hl; congruence).
  destruct (write_reads_run (reads data) d1 _ _ new [] Hd1) as (d2 & Hrun2 & Hd2).
  { rewrite lookup_insert_ne by done. apply lookup_insert_eq. } { done. } { by rewrite reads_all. }
  { rewrite reads_all. cbn [app length]. change (count_total_block (Z.of_nat 0)) with 0. lia. }
  rewrite reads_all in Hd2. cbn [app length] in Hd2.
  rewrite (run_bind_Ok _ _ _ _ _ Hrun1). cbn [unwrap lift bind]. eexists d2, _, [new]. split_and!; [exact Hrun2| |].
  { rewrite list_cost_single by done. eapply eq_ind; [exact Hd2|]. cbn [snd blocks_of].
    change (count_total_block (Z.of_nat 0)) with 0. lia. }
  apply packs_single; try done.
  - split; [rewrite lookup_insert_ne by done; apply lookup_insert_eq|]. apply Forall_app. split; [apply Hl|by constructor].
  - intros j x Hj Hx. rewrite !lookup_insert_ne; [done|congruence..].
  - intros u Hu. cbn. apply Hu; [done|apply lookup_insert_eq].
  - rewrite map_size_insert_Some by (eexists; rewrite lookup_insert_ne by done; apply lookup_insert_eq).
    destruct Hl as [Hl _]. rewrite map_size_insert_Some by (eexists; rewrite lookup_insert_ne by done; exact Hl).
    rewrite map_size_insert_None by done. cbn. lia.
Qed.

Lemma pack_dir l : Forall (fun e => entry_packs e.2) l -> entry_packs (HDir l).
Proof.
  intros IH nm d v n id es Hfit Hd Hl. cbn [pack_entry]. rewrite (entry_name _ _ _ _ _ Hfit). cbn [unwrap lift bind].
  destruct (starts_with_dot nm) eqn:Hdot.
  { destruct (pack_skip nm (HDir l) d v n id es) as [? ?]; try done; [unfold packed_entry; cbn; by rewrite Hdot|].
    exists d, v, []. by split_and!. }
  assert (packed_entry (nm, HDir l) = true) as Hp by (unfold packed_entry; cbn; by rewrite Hdot).
  destruct (fits_single es nm _ v n Hp Hfit) as (Hok & Hnew & Hs & He & Hc & Hi). cbn [host_ok blocks_of nodes] in He, Hc, Hi.
  destruct He as [(Hutf & Hnames & Hnd & Hsz) Hhosts].
  assert (0 <= tree_sum nodes l) as Hnn.
  { pose proof (nodes_pos (HDir l)) as Hpos. cbn in Hpos. lia. }
  assert (0 <= list_cost 2 l) as Hcost.
  { apply list_cost_nonneg; [done|]. by replace (Z.of_nat (2 + length (packed_names l))) with (2 + Z.of_nat (length (packed_names l))) by lia. }
  assert (list_cost 2 l + 1 = count_total_block (32 * (2 + Z.of_nat (length (packed_names l)))) + tree_sum blocks_of l) as Ec.
  { unfold list_cost. replace (Z.of_nat (2 + length (packed_names l))) with (2 + Z.of_nat (length (packed_names l))) by lia.
    change (count_total_block (32 * Z.of_nat 2)) with 1. lia. }
  destruct (create_dir_step efs area d v n id es nm Hd Hl Hnew Hok) as
    (new & d1 & Hrun1 & Hvn & Hent & Hdef & Hd1); [lia|done|lia|].
  assert (id <> new) as Hne by (intros ->; destruct Hl; congruence).
  set (v1 := <[new := _]> (<[id := _]> v)) in *.
  assert (Z.of_nat (base.size v1) = Z.of_nat (base.size v) + 1) as Hs1.
  { unfold v1. rewrite map_size_insert_None by (by rewrite lookup_insert_ne). destruct Hl as [Hl _].
    rewrite map_size_insert_Some by (by eexists). lia. }
  destruct (entries_run l IH d1 v1 (n - entry_cost (length es) - 1) new (default_entries new id)) as (d2 & v2 & ids & Hrun2 & Hd2 & Hp2); [|exact Hd1| |].
  { split; try done; [by apply packed_not_default|cbn [default_entries length]| |lia].
    - by replace (Z.of_nat (2 + length (packed_names l))) with (2 + Z.of_nat (length (packed_names l))) by lia.
    - cbn [default_entries length]. lia. }
  { split; [apply lookup_insert_eq|done]. }
  rewrite (run_bind_Ok _ _ _ _ _ Hrun1). cbn [unwrap lift bind]. exists d2, v2, [new]. split_and!; [exact Hrun2| |].
  { rewrite list_cost_single by done. eapply eq_ind; [exact Hd2|]. cbn [default_entries length snd blocks_of]. lia. }
  destruct Hp2 as [Hids [Hl2 _] Hf2 Hm2 Hsz2].
  apply packs_single; try done.
  - split; [|apply Forall_app; split; [apply Hl|by constructor]]. apply Hf2; [done|]. unfold v1.
    rewrite lookup_insert_ne by done. apply lookup_insert_eq.
  - intros j x Hj Hx. assert (j <> new) as Hjn by congruence. apply Hf2; [done|]. unfold v1. by rewrite !lookup_insert_ne.
  - intros u Hu. exists ids. split_and!; [done|by apply Hu|]. apply Hm2. intros j x Hj Hx. apply Hu; [|done].
    unfold v1 in Hj. by apply lookup_insert_None in Hj as [[? _]%lookup_insert_None _].
  - cbn. lia.
Qed.

Lemma pack_other : entry_packs HOther.
Proof.
  intros nm d v n id es Hfit Hd Hl. cbn [pack_entry]. rewrite (entry_name _ _ _ _ _ Hfit). cbn [unwrap lift bind].
  destruct (pack_skip nm HOther d v n id es) as [? ?]; try done; [unfold packed_entry; cbn; by destruct (starts_with_dot nm)|].
  exists d, v, []. split_and!; try done. by destruct (starts_with_dot nm).
Qed.

Lemma pack_any h : entry_packs h.
Proof. induction h using host_tree_ind; [apply pack_file|by apply pack_dir|apply pack_other]. Qed.
End packing.

(** ** The image *)

Definition IMAGE_BLOCKS : Z := 256 * 2048.
Definition image_efs : EasyFileSystem := Eval vm_compute in (efs_geometry IMAGE_BLOCKS 1).2.
Definition image_area : Z := Eval vm_compute in data_area_blocks (efs_geometry IMAGE_BLOCKS 1).1.

(** The root directory with its first entries. *)
Lemma image_root d :
  on_device d IMAGE_BLOCKS ->
  exists d0 d1 m1, run (EasyFileSystem_create (256 * 2048) 1) d = Ok (image_efs, d0) /\
    run (set_default_dirent (root_inode image_efs) (inode_id (root_inode image_efs))) d0 = Ok (tt, d1) /\
    fs_rep image_efs image_area d1 m1 /\ lists (fs_view d1 m1) 0 (default_entries 0 0) /\ base.size m1 = 1%nat /\
    Z.of_nat (length (free_data image_efs image_area d1)) = image_area - 1.
Proof.
  intros Hdev.
  assert (exists d0, run (EasyFileSystem_create (256 * 2048) 1) d = Ok (image_efs, d0) /\
    fs_rep image_efs image_area d0 {[0 := (root_disk_inode, empty_forest)]} /\
    listing d0 root_disk_inode empty_forest [] /\ free_data image_efs image_area d0 = seqZ 0 image_area)
    as (d0 & Hrun0 & Hrep0 & Hls0 & Hfree0).
  { destruct (format_run d IMAGE_BLOCKS 1 ltac:(by split_and!) Hdev ltac:(done)) as (d0 & ? & ? & ? & ? & _). by exists d0. }
  destruct (set_default_run image_efs image_area d0 _ 0 root_disk_inode empty_forest 0 Hrep0) as
    (di & f & d1 & Hrun1 & Hrep1 & Hls1 & Hfree1 & Hv1); [apply lookup_singleton_eq|done|done| |].
  { unfold enough_free. rewrite Hfree0, length_seqZ. apply Z2Nat.inj_le; done. }
  exists d0, d1, (<[0 := (di, f)]> {[0 := (root_disk_inode, empty_forest)]}). split_and!; [done| |done| | |].
  - change (root_inode image_efs) with (inode_of image_efs 0).
    by rewrite (inode_id_of image_efs image_area d0 _ 0 (proj1 Hrep0)) by done.
  - split; [by rewrite Hv1, lookup_insert_eq|apply Hls1].
  - rewrite map_size_insert_Some by (by rewrite lookup_singleton_eq). apply map_size_singleton.
  - rewrite Hfree1, Hfree0, length_seqZ. change (blocks_taken root_disk_inode (2 * DIRENT_SIZE)) with 1%nat.
    rewrite Nat2Z.inj_sub, Z2Nat.id by (done || (apply Nat2Z.inj_le; rewrite Z2Nat.id by done; done)). done.
Qed.

(** [main] on the blocks. *)
Lemma image_run reads es d :
  (forall data, concat (reads data) = data) -> (forall data, Forall (fun b => b <> []) (reads data)) ->
  on_device d IMAGE_BLOCKS -> host_ok (HDir es) -> blocks_of (HDir es) <= image_area -> nodes (HDir es) <= 4096 ->
  exists d' m', run (main reads es) d = Ok (image_efs, d') /\ fs_rep image_efs image_area d' m' /\
    image (fs_view d' m') 0 0 (HDir es) /\ Z.of_nat (base.size m') = nodes (HDir es) /\
    Z.of_nat (length (free_data image_efs image_area d')) = image_area - blocks_of (HDir es).
Proof.
  intros Hall Hsome Hdev [(Hutf & Hnames & Hnd & Hsz) Hhosts] Hb Hn.
  destruct (image_root d Hdev) as (d0 & d1 & m1 & Hrun0 & Hrun1 & Hrep1 & Hl1 & Hsz1 & Hfree1).
  pose proof (blocks_nonneg (HDir es) ltac:(by split)) as Hnn. cbn [blocks_of nodes] in *.
  assert (Z.of_nat (2 + length (packed_names es)) = 2 + Z.of_nat (length (packed_names es))) as E2 by lia.
  assert (list_cost 2 es + 1 = count_total_block (32 * (2 + Z.of_nat (length (packed_names es)))) + tree_sum blocks_of es) as Ec.
  { unfold list_cost. rewrite E2. change (count_total_block (32 * Z.of_nat 2)) with 1. lia. }
  destruct (entries_run image_efs image_area reads es (Forall_true _ _ (fun e => pack_any image_efs image_area reads Hall Hsome e.2))
    d1 (fs_view d1 m1) (image_area - 1) 0 (default_entries 0 0)) as (d2 & v2 & ids & Hrun2 & (m2 & Hrep2 & <- & Hfree2) & Hp2).
  { split; try done; [by apply packed_not_default|cbn [default_entries length]; by rewrite E2| |].
    - cbn [default_entries length]. lia.
    - unfold fs_view. rewrite map_size_fmap, Hsz1. change (Bitmap_maximum (inode_bitmap image_efs)) with 4096. lia. }
  { by exists m1. } { done. }
  exists d2, m2. destruct Hp2 as [Hids [Hl2 _] _ Hm2 Hsz2]. split_and!.
  - unfold main. rewrite (run_bind_Ok _ _ _ _ _ Hrun0), (run_bind_Ok _ _ _ _ _ Hrun1).
    unfold pack_directory. change (root_inode image_efs) with (inode_of image_efs 0). by rewrite (run_bind_Ok _ _ _ _ _ Hrun2).
  - done.
  - exists ids. split_and!; [done|done|]. apply Hm2. by intros.
  - unfold fs_view in Hsz2. rewrite !map_size_fmap in Hsz2. lia.
  - rewrite Hfree2. cbn [default_entries length]. lia.
Qed.

(** *** What reaches the image *)

Section last.
Context (f : host -> bool -> bool).
Fixpoint saved_last (es : list (list u8 * host)) (c : bool) : bool :=
  match es with [] => c | e :: es => saved_last es (if packed_entry e then f e.2 c else c) end.
End last.
(** Whether all is written back behind a tree, when [c] tells so before it: a
    file ends with a [sync_all], a new directory does not. *)
Fixpoint saved (h : host) (c : bool) : bool :=
  match h with
  | HFile _ => true
  | HDir es => saved_last saved es false
  | HOther => c
  end.

Lemma create_ends inode nm c : ends c (Inode_create inode nm) (fun c' o => is_Some o -> c' = true).
Proof.
  unfold Inode_create, create_inode. apply ends_last. intros c1 [x|]; [by intros [? ?]|].
  apply ends_last. intros c2 id. destruct (disk_inode_position _ _) as [b off].
  apply ends_last. intros c3 _. apply ends_last. by intros c4 _.
Qed.

Lemma write_reads_ends inode l : forall offset c, c = true -> ends c (write_reads inode offset l) (fun c' _ => c' = true).
Proof.
  induction l as [|b l IH]; intros offset c Hc; cbn [write_reads]; [done|].
  eapply ends_bind; [|intros c' a; apply IH]. unfold Inode_write_at. apply ends_last. by intros c1 n.
Qed.

Section reach.
Context (reads : list u8 -> list (list u8)).

Lemma entry_ends h : forall parent nm b c, (b = true -> c = true) ->
  ends c (pack_entry reads parent nm h) (fun c' _ => (if packed_entry (nm, h) then saved h b else b) = true -> c' = true).
Proof.
  induction h as [data|es IH|] using host_tree_ind; intros parent nm b c Hb; cbn [pack_entry];
    unfold to_str, packed_entry; destruct (utf8_valid nm); cbn [unwrap lift bind ends fst snd]; try done;
    destruct (starts_with_dot nm); cbn [negb andb ends]; try done.
  - eapply ends_bind; [apply create_ends|]. intros c1 [i|] H; [|done]. cbn [unwrap lift bind].
    eapply ends_mono; [apply write_reads_ends; by apply H|]. done.
  - apply ends_last. intros c1 [i|]; [|done]. cbn [unwrap lift bind saved].
    assert (false = true -> c1 = true) as Hb1 by done. revert Hb1. generalize false. revert c1.
    induction IH as [|e es He _ IHes]; intros c1 b1 Hb1; cbn [each saved_last ends]; [done|].
    eapply ends_bind; [by apply He|]. cbn beta. intros c2 _ H2. destruct e as [n h]. by apply IHes.
Qed.

Lemma entries_end es parent : forall b c, (b = true -> c = true) ->
  ends c (pack_directory reads parent es) (fun c' _ => saved_last saved es b = true -> c' = true).
Proof.
  unfold pack_directory. induction es as [|[n h] es IH]; intros b c Hb; cbn [each saved_last ends]; [done|].
  eapply ends_bind; [by apply entry_ends|]. cbn beta. intros c2 _ H2. by apply IH.
Qed.

Lemma main_ends es c : ends c (main reads es) (fun c' _ => saved (HDir es) false = true -> c' = true).
Proof.
  unfold main. apply ends_last. intros c1 efs. apply ends_last. intros c2 _.
  eapply ends_bind; [by apply (entries_end es _ false)|]. done.
Qed.
End reach.

Lemma new_image_lookup i : 0 <= i < 256 * 2048 -> file new_image !! Z.to_nat i = Some zero_block.
Proof. intros Hi. unfold new_image, file. apply lookup_replicate. split; [done|]. apply Z2Nat.inj_lt; lia. Qed.
#[local] Opaque new_image.

Lemma new_image_device : on_device (Disk (contents new_image) ∅) IMAGE_BLOCKS.
Proof.
  split_and!; [|done|].
  - intros i b. apply contents_wf.
  - intros i Hi. exists zero_block. apply BlockFile_contents_lookup. split; [lia|]. split; [by apply new_image_lookup|done].
Qed.

(** The builder on any device of the size. *)
Lemma build_run {D} `{BlockDeviceSpec D} (dev : D) reads es :
  on_device (Disk (contents dev) ∅) IMAGE_BLOCKS ->
  (forall data, concat (reads data) = data) -> (forall data, Forall (fun b => b <> []) (reads data)) ->
  host_ok (HDir es) -> blocks_of (HDir es) <= image_area -> nodes (HDir es) <= 4096 ->
  exists s m, run (main reads es) (cached_new dev) = Ok (image_efs, s) /\
    let seen := Disk (overlay s) ∅ in
    fs_rep image_efs image_area seen m /\ image (fs_view seen m) 0 0 (HDir es) /\
    Z.of_nat (base.size m) = nodes (HDir es) /\
    Z.of_nat (length (free_data image_efs image_area seen)) = image_area - blocks_of (HDir es) /\
    (saved (HDir es) false = true -> contents (device s) = overlay s).
Proof.
  intros Hdevice Hall Hsome Hok Hb Hn.
  destruct (image_run reads es _ Hall Hsome Hdevice Hok Hb Hn) as (d & m & Hrun & Hrep & Himg & Hsz & Hfree).
  destruct (run_ends (main reads es) false (cached_new dev) _ _ _ _ (cached_new_abstracts dev) ltac:(done)
    (main_ends reads es false) Hrun) as (c & s & Hs & (Hwf & Hov & _) & Hc & Hdev).
  exists s, m. cbv zeta. assert (Disk (overlay s) ∅ = d) as ->.
  { pose proof (fr_held _ _ _ _ (proj1 Hrep)) as Hh. destruct d. cbn in *. congruence. }
  split_and!; try done. intros Hsv. by rewrite Hdev, Hov by auto.
Qed.

(** C9: the image builder.  If the tree fits (names of at most 28 bytes, no
    name twice in a directory, no more than 4096 files and directories and
    the blocks they take), the builder formats the image and packs the tree.
    Through its block cache it then sees a well-formed file system whose root
    directory is the tree of the host without the hidden entries, every file
    with its bytes and every directory with its entries in order, and which
    holds no other inode.  When the last thing it packed is a file, the image
    file itself holds exactly these blocks.  (Otherwise the entries [.] and
    [..] of the last directories may be in the cache only, and are lost.) *)
Theorem image_holds_tree reads es :
  (forall data, concat (reads data) = data) -> (forall data, Forall (fun b => b <> []) (reads data)) ->
  host_ok (HDir es) -> blocks_of (HDir es) <= image_area -> nodes (HDir es) <= 4096 ->
  exists s m, build reads es = Ok (image_efs, s) /\
    let seen := Disk (overlay s) ∅ in
    fs_rep image_efs image_area seen m /\ image (fs_view seen m) 0 0 (HDir es) /\
    Z.of_nat (base.size m) = nodes (HDir es) /\
    Z.of_nat (length (free_data image_efs image_area seen)) = image_area - blocks_of (HDir es) /\
    (saved (HDir es) false = true -> contents (device s) = overlay s).
Proof. exact (build_run new_image reads es new_image_device). Qed.

(** Reads of one byte; a file, a hidden file, and a directory with an empty
    file. *)
Definition demo_reads (data : list u8) : list (list u8) := (fun b => [b]) <$> data.
Definition demo_tree : list (list u8 * host) :=
  [([Byte.x61], HFile (replicate 700 Byte.x41)); ([Byte.x2e; Byte.x67], HFile [Byte.x42]);
   ([Byte.x62], HDir [([Byte.x63], HFile [])])].

Lemma demo_reads_all data : concat (demo_reads data) = data.
Proof. unfold demo_reads. induction data as [|b data IH]; cbn; [done|]. by f_equal. Qed.
Lemma demo_reads_some data : Forall (fun b => b <> []) (demo_reads data).
Proof. apply Forall_fmap, Forall_true. done. Qed.

Lemma short_name b : b <> Byte.x00 -> utf8_valid [b] = true -> name_ok [b].
Proof. intros Hb Hu. split_and!; [set_solver|done|cbn; lia]. Qed.

Lemma demo_tree_ok : host_ok (HDir demo_tree).
Proof.
  assert (forall s, 0 <= s <= 1000 -> size_ok s) as Hs.
  { intros s Hs. apply (size_ok_le s 1000 Hs). by vm_compute. }
  split; [|split; [intros _; by apply Hs|split; [done|split; [intros _; split|done]]]].
  - split_and!; [by repeat constructor| | |by apply Hs].
    + change (packed_names demo_tree) with [[Byte.x61]; [Byte.x62]]. repeat constructor; by try apply short_name.
    + apply (bool_decide_unpack _). by vm_compute.
  - split_and!; [by repeat constructor| | |by apply Hs].
    + change (packed_names _) with [[Byte.x63]]. repeat constructor; by try apply short_name.
    + apply NoDup_singleton.
  - split; [intros _; by apply Hs|done].
Qed.

Lemma image_holds_tree_witness :
  exists s m, build demo_reads demo_tree = Ok (image_efs, s) /\
    image (fs_view (Disk (contents (device s)) ∅) m) 0 0 (HDir demo_tree) /\ Z.of_nat (base.size m) = 4.
Proof.
  destruct (image_holds_tree demo_reads demo_tree demo_reads_all demo_reads_some demo_tree_ok)
    as (s & m & H1 & _ & H3 & H4 & _ & H5).
  - vm_compute. discriminate.
  - vm_compute. discriminate.
  - exists s, m. split; [exact H1|]. rewrite (H5 eq_refl). split; [exact H3|exact H4].
Defined.
