(* ===== verification/StateMonad.v ===== *)
(** * State and panics

    Kernel code that works on shared state and may panic: [st S A] is a
    computation over a state [S] that returns an [A] or panics. *)

From S2P Require Import Prelude.

Definition st (S A : Type) : Type := S -> res (A * S).

Definition ret {S A} (a : A) : st S A := fun s => Ok (a, s).
Definition panic {S A} (f : fault) : st S A := fun _ => Panic f.
Definition st_bind {S A B} (m : st S A) (k : A -> st S B) : st S B :=
  fun s => let? (a, s) := m s in k a s.
Definition get {S} : st S S := fun s => Ok (s, s).
Definition put {S} (s : S) : st S () := fun _ => Ok (tt, s).
Definition modify {S} (f : S -> S) : st S () := fun s => Ok (tt, f s).
Definition of_res {S A} (r : res A) : st S A := fun s => let? a := r in Ok (a, s).
Definition of_option {S A} (o : option A) : st S A := of_res (unwrap o).
Definition check {S} (b : bool) : st S () := of_res (assert b).

Notation "'let*' x ':=' m 'in' k" := (st_bind m (fun x => k))
  (at level 10, x pattern, m at level 100, k at level 200) : lemon_scope.
Notation "m ';*' k" := (st_bind m (fun _ => k))
  (at level 100, right associativity) : lemon_scope.

(** [for x in l] *)
Fixpoint iter_st {S X} (f : X -> st S ()) (l : list X) : st S () :=
  match l with
  | [] => ret tt
  | x :: l => f x ;* iter_st f l
  end.

Lemma st_bind_Ok {S A B} (m : st S A) (k : A -> st S B) s a s' :
  m s = Ok (a, s') -> st_bind m k s = k a s'.
Proof. intros E. unfold st_bind. by rewrite E. Qed.

Lemma st_bind_inv {S A B} (m : st S A) (k : A -> st S B) s b s'' :
  st_bind m k s = Ok (b, s'') -> exists a s', m s = Ok (a, s') /\ k a s' = Ok (b, s'').
Proof. unfold st_bind. intros E. inv_res. destruct a as [a s']. eauto. Qed.

Lemma of_res_Ok {S A} (r : res A) (s : S) a s' : of_res r s = Ok (a, s') <-> r = Ok a /\ s' = s.
Proof. unfold of_res. destruct r; simpl; naive_solver. Qed.

Lemma iter_st_app {S X} (f : X -> st S ()) l l' s :
  iter_st f (l ++ l') s = st_bind (iter_st f l) (fun _ => iter_st f l') s.
Proof.
  revert s. induction l as [|x l IH]; intros s; [done|]. cbn [iter_st app].
  unfold st_bind. destruct (f x s) as [[[] s']|]; cbn [res_bind]; [|done]. apply IH.
Qed.

(** Invert the successful steps of a state computation. *)
Ltac inv_st :=
  repeat match goal with
  | H : st_bind _ _ _ = Ok _ |- _ =>
      let a := fresh "a" in let s := fresh "s" in let E := fresh "E" in
      apply st_bind_inv in H as (a & s & E & H)
  | H : of_res _ _ = Ok _ |- _ => apply of_res_Ok in H as [H ?]
  | H : of_option _ _ = Ok _ |- _ => unfold of_option in H
  | H : check _ _ = Ok _ |- _ => unfold check in H
  | H : ret _ _ = Ok _ |- _ => unfold ret in H
  | H : get _ = Ok _ |- _ => unfold get in H
  | H : put _ _ = Ok _ |- _ => unfold put in H
  | H : modify _ _ = Ok _ |- _ => unfold modify in H
  | H : panic _ _ = Ok _ |- _ => discriminate H
  end; inv_res; simplify_eq.

(** Equations that run a computation one step. *)
Lemma bind_get {S B} (f : S -> st S B) s : st_bind get f s = f s s.
Proof. done. Qed.
Lemma bind_modify {S B} g (f : () -> st S B) s : st_bind (modify g) f s = f tt (g s).
Proof. done. Qed.
Lemma bind_ret {S A B} a (f : A -> st S B) s : st_bind (ret a) f s = f a s.
Proof. done. Qed.
Lemma bind_option {S A B} (o : option A) (f : A -> st S B) s :
  st_bind (of_option o) f s = match o with Some a => f a s | None => Panic UnwrapNone end.
Proof. by destruct o. Qed.
Lemma bind_check {S B} b (f : () -> st S B) s :
  st_bind (check b) f s = if b then f tt s else Panic AssertFailed.
Proof. by destruct b. Qed.

Create Rewrite HintDb run.
#[export] Hint Rewrite @bind_get @bind_modify @bind_ret @bind_option @bind_check : run.

(** ** Before and after

    [moves R m]: every run of [m] that returns goes from a state to one that
    [R] relates to it.  For a preorder this is a property of the parts of a
    computation; [eq_on] (a part of the state stays) and [through] (an
    invariant stays) are the common ones. *)

Definition eq_on {S V} (f : S -> V) : relation S := fun s s' => f s' = f s.
Definition through {S} (I : S -> Prop) : relation S := fun s s' => I s -> I s'.

#[export] Instance eq_on_preorder {S V} (f : S -> V) : PreOrder (eq_on f).
Proof. split; unfold eq_on; repeat intros ?; congruence. Qed.
#[export] Instance through_preorder {S} (I : S -> Prop) : PreOrder (through I).
Proof. split; unfold through; repeat intros ?; eauto. Qed.

Definition moves {S} (R : relation S) {A} (m : st S A) : Prop := forall s a s', m s = Ok (a, s') -> R s s'.

Section moves.
Context {S : Type} {R : relation S} {HR : PreOrder R}.

Lemma moves_ret {A} (a : A) : moves R (ret a).
Proof. intros s b s' [= _ <-]. reflexivity. Qed.
Lemma moves_get : moves R get.
Proof. intros s b s' [= _ <-]. reflexivity. Qed.
Lemma moves_of_res {A} (r : res A) : moves R (of_res r).
Proof. intros s b s' [_ ->]%of_res_Ok. reflexivity. Qed.
Lemma moves_of_option {A} (o : option A) : moves R (of_option o).
Proof. apply moves_of_res. Qed.
Lemma moves_check b : moves R (check b).
Proof. apply moves_of_res. Qed.
Lemma moves_panic {A} e : moves R (panic (A := A) e).
Proof. by intros s b s' H. Qed.
Lemma moves_bind {A B} (m : st S A) (k : A -> st S B) :
  moves R m -> (forall a, moves R (k a)) -> moves R (st_bind m k).
Proof. intros Hm Hk s b s' (a & s1 & H1 & H2)%st_bind_inv. transitivity s1; [by eapply Hm|by eapply Hk]. Qed.
Lemma moves_iter {X} (f : X -> st S ()) l : (forall x, moves R (f x)) -> moves R (iter_st f l).
Proof. intros Hf. induction l; cbn [iter_st]; [apply moves_ret|]. apply moves_bind; auto. Qed.
End moves.

Lemma moves_modify {S} (R : relation S) f : (forall s, R s (f s)) -> moves R (modify f).
Proof. intros Hf s a s' [= _ <-]. apply Hf. Qed.
Lemma moves_weaken {S A} (R R' : relation S) (m : st S A) :
  (forall s s', R s s' -> R' s s') -> moves R m -> moves R' m.
Proof. intros HR Hm s a s' H. by apply HR, (Hm s a). Qed.

Create HintDb moves.
#[export] Hint Resolve moves_ret moves_get moves_of_res moves_of_option moves_check moves_panic : moves.
#[export] Hint Extern 0 (PreOrder _) => apply _ : moves.

(** Follow the binds and branches of a computation. *)
Ltac follow :=
  repeat lazymatch goal with
  | |- forall _, _ => intros ?
  | |- moves _ (st_bind _ _) => apply moves_bind; [|intros ?]
  | |- moves _ (match ?x with _ => _ end) => destruct x
  | |- moves _ (if ?x then _ else _) => destruct x
  end; eauto 3 with moves.
