(* ===== verification/Address.v ===== *)
(** * Addresses and page numbers

    [kernel/src/mm/address.rs]: physical and virtual addresses and page
    numbers of SV39, and ranges of page numbers.  All four types are
    newtypes over [usize]; the model uses [Z] for each. *)

From S2P Require Import Prelude Config.

Definition PA_WIDTH_SV39 : Z := 56.
Definition VA_WIDTH_SV39 : Z := 39.
Definition PPN_WIDTH_SV39 : Z := PA_WIDTH_SV39 - PAGE_SIZE_BITS.
Definition VPN_WIDTH_SV39 : Z := VA_WIDTH_SV39 - PAGE_SIZE_BITS.

Abbreviation PhysAddr := Z (only parsing).
Abbreviation VirtAddr := Z (only parsing).
Abbreviation PhysPageNum := Z (only parsing).
Abbreviation VirtPageNum := Z (only parsing).

(** [value & ((1 << width) - 1)] *)
Definition low_bits (width value : Z) : Z := Z.land value (Z.shiftl 1 width - 1).

(** [From<usize>] *)
Definition PhysAddr_from (value : Z) : PhysAddr := low_bits PA_WIDTH_SV39 value.
Definition PhysPageNum_from (value : Z) : PhysPageNum := low_bits PPN_WIDTH_SV39 value.
Definition VirtAddr_from (value : Z) : VirtAddr := low_bits VA_WIDTH_SV39 value.
Definition VirtPageNum_from (value : Z) : VirtPageNum := low_bits VPN_WIDTH_SV39 value.

(** [usize::from(VirtAddr)]: the bits above bit 38 repeat it. *)
Definition usize_from_va (value : VirtAddr) : Z :=
  if Z.shiftl 1 (VA_WIDTH_SV39 - 1) <=? value
  then Z.lor value (w64 (Z.lnot (Z.shiftl 1 VA_WIDTH_SV39 - 1)))
  else value.

(** The same code for [PhysAddr] and [VirtAddr]. *)
Definition page_offset (a : Z) : Z := Z.land a (PAGE_SIZE - 1).
Definition is_aligned (a : Z) : bool := page_offset a =? 0.
Definition page_floor (a : Z) : Z := a / PAGE_SIZE.
Definition page_ceil (a : Z) : Z :=
  if a =? 0 then 0 else w64 (w64 (a - 1) + PAGE_SIZE) / PAGE_SIZE.

(** [PhysPageNum::from(PhysAddr)], [VirtPageNum::from(VirtAddr)] *)
Definition page_from (a : Z) : res Z :=
  let? _ := assert (is_aligned a) in Ok (page_floor a).

(** [PhysAddr::from(PhysPageNum)], [VirtAddr::from(VirtPageNum)] *)
Definition addr_from (pn : Z) : Z := w64 (Z.shiftl pn PAGE_SIZE_BITS).

(** [VirtPageNum::indexes] *)
Definition indexes (vpn : VirtPageNum) : list Z :=
  [Z.land (Z.shiftr vpn 18) 511; Z.land (Z.shiftr vpn 9) 511; Z.land vpn 511].

(** ** Ranges *)

(** [StepByOne::step] *)
Definition step (pn : Z) : Z := w64 (pn + 1).

Record SimpleRange := { range_start : Z; range_end : Z }.
Definition VPNRange := SimpleRange.

(** [SimpleRange::new] *)
Definition SimpleRange_new (start end_ : Z) : res SimpleRange :=
  let? _ := assert (start <=? end_) in
  Ok {| range_start := start; range_end := end_ |}.

(** [SimpleRangeIterator::next] *)
Definition range_next (current end_ : Z) : option (Z * Z) :=
  if current =? end_ then None else Some (current, step current).

(** A [for] loop over the range: the items [next] yields, at most [fuel]. *)
Fixpoint range_iter (fuel : nat) (current end_ : Z) : list Z :=
  match fuel with
  | O => []
  | S fuel =>
      match range_next current end_ with
      | None => []
      | Some (t, current) => t :: range_iter fuel current end_
      end
  end.

Definition range_items (r : SimpleRange) : list Z :=
  range_iter (S (Z.to_nat (range_end r - range_start r))) (range_start r) (range_end r).

(** ** Facts *)

Lemma low_bits_mod width x : 0 <= width -> low_bits width x = x mod 2 ^ width.
Proof. intros. unfold low_bits. rewrite <- Z.land_ones, Z.ones_equiv, Z.shiftl_1_l by done. done. Qed.

Lemma low_bits_id width x : 0 <= width -> 0 <= x < 2 ^ width -> low_bits width x = x.
Proof. intros. rewrite low_bits_mod by done. by apply Z.mod_small. Qed.

Lemma page_offset_mod a : page_offset a = a mod 4096.
Proof. exact (Z.land_ones a 12 ltac:(done)). Qed.

Lemma addr_from_mul pn : 0 <= pn < 2 ^ 52 -> addr_from pn = pn * 4096.
Proof.
  intros. unfold addr_from. rewrite Z.shiftl_mul_pow2 by done.
  change (2 ^ PAGE_SIZE_BITS) with 4096. by wrap_id.
Qed.

Lemma page_ceil_spec a : 0 <= a < 2 ^ 64 - 4096 -> page_ceil a = div_ceil a 4096.
Proof.
  intros. unfold page_ceil. change PAGE_SIZE with 4096. destruct (Z.eqb_spec a 0) as [->|]; [done|].
  wrap_id. unfold div_ceil. f_equal. lia.
Qed.

(** A range yields exactly the numbers from start to end, once each. *)
Lemma range_items_seqZ r :
  0 <= range_start r <= range_end r -> range_end r < 2 ^ 64 ->
  range_items r = seqZ (range_start r) (range_end r - range_start r).
Proof.
  destruct r as [s e]. unfold range_items. cbn [range_start range_end]. intros Hs He.
  remember (Z.to_nat (e - s)) as n eqn:En. revert s Hs En.
  induction n as [|n IH]; intros s Hs En; cbn [range_iter]; unfold range_next.
  - assert (s = e) as -> by lia. rewrite Z.eqb_refl, Z.sub_diag. done.
  - destruct (Z.eqb_spec s e); [lia|]. unfold step. rewrite w64_id by (unfold is_u64; lia).
    cbn [range_iter] in IH. rewrite (seqZ_cons s) by lia. f_equal.
    etransitivity; [apply (IH (s + 1)); lia|]. f_equal; lia.
Qed.

(** The three indices determine the page number. *)
Lemma indexes_values vpn :
  indexes vpn = [(vpn / 2 ^ 18) mod 512; (vpn / 2 ^ 9) mod 512; vpn mod 512].
Proof.
  unfold indexes. change 511 with (Z.ones 9). rewrite !Z.land_ones, !Z.shiftr_div_pow2 by done. done.
Qed.

(** An address whose bits 63..39 repeat bit 38, as SV39 requires. *)
Definition canonical (x : Z) : Prop := 0 <= x < 2 ^ 38 \/ 2 ^ 64 - 2 ^ 38 <= x < 2 ^ 64.

Lemma usize_from_va_high va :
  2 ^ 38 <= va < 2 ^ 39 -> usize_from_va va = va + (2 ^ 64 - 2 ^ 39).
Proof.
  intros H. unfold usize_from_va. change (Z.shiftl 1 (VA_WIDTH_SV39 - 1)) with (2 ^ 38).
  rewrite (proj2 (Z.leb_le _ _)) by lia.
  change (w64 (Z.lnot (Z.shiftl 1 VA_WIDTH_SV39 - 1))) with (Z.shiftl (2 ^ 25 - 1) 39).
  assert (Z.lor va (Z.shiftl (2 ^ 25 - 1) 39) = va + Z.shiftl (2 ^ 25 - 1) 39) as ->; [|done].
  symmetry. rewrite Z.add_nocarry_lxor, Z.lxor_lor; [done| |];
    apply Z.bits_inj'; intros i Hi; rewrite Z.land_spec, Z.bits_0, Z.shiftl_spec by done;
    (destruct (Z.ltb_spec i 39);
      [rewrite (Z.testbit_neg_r _ (i - 39)) by lia; apply andb_false_r|
       rewrite (Z.bits_above_log2 va i); [done|lia|apply Z.log2_lt_pow2; [lia|];
         apply (Z.lt_le_trans _ (2 ^ 39)); [lia|apply Z.pow_le_mono_r; lia]]]).
Qed.

(** Every canonical 64-bit address survives the conversion to [VirtAddr]
    and back, so the sign extension undoes exactly what the truncation to 39
    bits dropped. *)
Theorem va_usize_roundtrip x : canonical x -> usize_from_va (VirtAddr_from x) = x.
Proof.
  intros [H|H]; unfold VirtAddr_from; rewrite low_bits_mod by done; change VA_WIDTH_SV39 with 39.
  - rewrite Z.mod_small by lia. unfold usize_from_va.
    change (Z.shiftl 1 (VA_WIDTH_SV39 - 1)) with (2 ^ 38). by rewrite (proj2 (Z.leb_gt _ _)) by lia.
  - assert (x mod 2 ^ 39 = x - (2 ^ 64 - 2 ^ 39)) as ->.
    { symmetry. apply (Z.mod_unique _ _ (2 ^ 25 - 1)); lia. }
    rewrite usize_from_va_high by lia. lia.
Qed.

Lemma va_usize_roundtrip_witness :
  canonical TRAMPOLINE /\ usize_from_va (VirtAddr_from TRAMPOLINE) = TRAMPOLINE.
Proof.
  assert (canonical TRAMPOLINE) as H by (right; unfold TRAMPOLINE, usize_MAX, PAGE_SIZE; lia).
  split; [exact H|apply va_usize_roundtrip; exact H].
Defined.

(** Page numbers and addresses: a page's address converts back to the
    page, an address lies in the page [floor] gives at its [page_offset], and
    [ceil] is the next page boundary at or above it. *)
Theorem page_conversions a pn :
  0 <= pn < 2 ^ 52 -> 0 <= a < 2 ^ 56 ->
  page_from (addr_from pn) = Ok pn /\
  a = addr_from (page_floor a) + page_offset a /\ 0 <= page_offset a < PAGE_SIZE /\
  page_from a = (if is_aligned a then Ok (page_floor a) else Panic AssertFailed) /\
  a <= addr_from (page_ceil a) < a + PAGE_SIZE.
Proof.
  intros Hpn Ha. change PAGE_SIZE with 4096.
  pose proof (Z.div_mod a 4096 ltac:(lia)). pose proof (Z.mod_pos_bound a 4096 ltac:(lia)).
  pose proof (div_ceil_bounds a 4096 ltac:(lia)).
  rewrite page_ceil_spec by lia. unfold page_from, is_aligned, page_floor. change PAGE_SIZE with 4096.
  rewrite !page_offset_mod, !addr_from_mul by lia. rewrite Z.mod_mul, Z.div_mul by lia.
  split_and!; try lia; [done|]. by destruct (_ =? 0).
Qed.

Lemma page_conversions_witness :
  page_from (addr_from 0x80200) = Ok 0x80200 /\
  0x80200123 = addr_from (page_floor 0x80200123) + page_offset 0x80200123 /\
  0 <= page_offset 0x80200123 < PAGE_SIZE /\
  page_from 0x80200123 = (if is_aligned 0x80200123 then Ok (page_floor 0x80200123) else Panic AssertFailed) /\
  0x80200123 <= addr_from (page_ceil 0x80200123) < 0x80200123 + PAGE_SIZE.
Proof. apply page_conversions; lia. Defined.

Lemma indexes_inj vpn vpn' :
  0 <= vpn < 2 ^ 27 -> 0 <= vpn' < 2 ^ 27 -> indexes vpn = indexes vpn' -> vpn = vpn'.
Proof.
  intros H H' E. rewrite !indexes_values in E. injection E as E1 E2 E3.
  assert (forall v, 0 <= v < 2 ^ 27 ->
    v = 2 ^ 18 * ((v / 2 ^ 18) mod 512) + 512 * ((v / 2 ^ 9) mod 512) + v mod 512) as Hv.
  { intros v Hr. rewrite (Z.mod_small (v / 2 ^ 18)).
    2:{ split; [apply Z.div_pos; lia|apply Z.div_lt_upper_bound; lia]. }
    change (2 ^ 9) with 512. pose proof (Z.div_mod v 512 ltac:(lia)).
    pose proof (Z.div_mod (v / 512) 512 ltac:(lia)) as Hd. rewrite Z.div_div in Hd by lia.
    change (512 * 512) with (2 ^ 18) in Hd. lia. }
  rewrite (Hv vpn), (Hv vpn') by done. congruence.
Qed.
