(* ===== verification/FrameAllocator.v ===== *)
(** * Allocators of numbers

    [kernel/src/mm/frame_allocator.rs] hands out physical page numbers,
    [RecycleAllocator] of [kernel/src/task/id.rs] pids, kernel stacks and
    thread ids.  Both keep a high-water mark and a stack of returned numbers.
    [AllocatorSpec] is what their clients rely on: a number handed out is not
    in use, and a number returned was. *)

From S2P Require Import Prelude Config Address.

(** ** The contract

    [used s] is the set of the numbers handed out and not returned. *)
Class Allocator (S : Type) := {
  allocate : S -> option (Z * S);
  release_id : S -> Z -> res S;
  alloc_inv : S -> Prop;
  in_use : S -> Z -> Prop;
}.

Class AllocatorSpec (S : Type) `{Allocator S} := {
  allocate_fresh s i s' :
    alloc_inv s -> allocate s = Some (i, s') ->
    alloc_inv s' /\ ~ in_use s i /\ forall j, in_use s' j <-> j = i \/ in_use s j;
  release_used s i :
    alloc_inv s -> in_use s i ->
    exists s', release_id s i = Ok s' /\ alloc_inv s' /\
      forall j, in_use s' j <-> j <> i /\ in_use s j;
}.

(** ** The frame allocator *)

Record StackFrameAllocator := MkFrames {
  current : Z;
  end_ : Z;
  recycled : list Z;   (** top of the stack first *)
}.

Definition StackFrameAllocator_new : StackFrameAllocator := MkFrames 0 0 [].

(** [StackFrameAllocator::init] *)
Definition StackFrameAllocator_init (self : StackFrameAllocator) (l r : PhysPageNum) :
    StackFrameAllocator :=
  MkFrames l r (recycled self).

(** [FrameAllocator::alloc] *)
Definition frame_alloc (self : StackFrameAllocator) : option (PhysPageNum * StackFrameAllocator) :=
  match recycled self with
  | ppn :: rest => Some (PhysPageNum_from ppn, MkFrames (current self) (end_ self) rest)
  | [] =>
      if current self =? end_ self then None
      else
        let cur := w64 (current self + 1) in
        Some (PhysPageNum_from (w64 (cur - 1)), MkFrames cur (end_ self) [])
  end.

(** [FrameAllocator::dealloc] *)
Definition frame_dealloc (self : StackFrameAllocator) (ppn : PhysPageNum) :
    res StackFrameAllocator :=
  let? _ := assert (negb ((current self <=? ppn) || bool_decide (ppn ∈ recycled self))) in
  Ok (MkFrames (current self) (end_ self) (ppn :: recycled self)).

(** [frame_allocator::init]; [ekernel] is a symbol of the linker script. *)
Definition frame_allocator_init (ekernel : Z) (self : StackFrameAllocator) : StackFrameAllocator :=
  StackFrameAllocator_init self (page_ceil (PhysAddr_from ekernel)) (page_floor (PhysAddr_from MEMORY_END)).

(** ** The id allocator *)

Record RecycleAllocator := MkIds { id_current : Z; id_recycled : list Z }.

Definition RecycleAllocator_new : RecycleAllocator := MkIds 0 [].

(** [RecycleAllocator::alloc] *)
Definition id_alloc (self : RecycleAllocator) : Z * RecycleAllocator :=
  match id_recycled self with
  | id :: rest => (id, MkIds (id_current self) rest)
  | [] =>
      let cur := w64 (id_current self + 1) in
      (w64 (cur - 1), MkIds cur [])
  end.

(** [RecycleAllocator::dealloc] *)
Definition id_dealloc (self : RecycleAllocator) (id : Z) : res RecycleAllocator :=
  let? _ := assert (id <? id_current self) in
  let? _ := assert (negb (bool_decide (id ∈ id_recycled self))) in
  Ok (MkIds (id_current self) (id :: id_recycled self)).

(** ** Correctness of the frame allocator *)

(** [lo] is the first frame that [init] gave it. *)
Record frames_inv (lo : Z) (s : StackFrameAllocator) : Prop := {
  fi_range : 0 <= lo <= current s /\ current s <= end_ s;
  fi_width : end_ s <= 2 ^ 44;
  fi_nodup : NoDup (recycled s);
  fi_below : Forall (fun p => lo <= p < current s) (recycled s);
}.

Definition frame_used (lo : Z) (s : StackFrameAllocator) (p : Z) : Prop :=
  lo <= p < current s /\ p ∉ recycled s.

Lemma below_succ lo cur (j : Z) :
  lo <= cur -> lo <= j < cur + 1 /\ j ∉ [] <-> j = cur \/ lo <= j < cur /\ j ∉ [].
Proof.
  intros H. pose proof (not_elem_of_nil j) as Hn. destruct (decide (j = cur)) as [->|Hne].
  - split; [by left|]. intros _. split; [lia|done].
  - split; [intros [? _]; right; split; [lia|done]|]. intros [?|[? _]]; [done|]. split; [lia|done].
Qed.

Lemma ppn_from_id p : 0 <= p < 2 ^ 44 -> PhysPageNum_from p = p.
Proof. intros. by apply low_bits_id. Qed.

Lemma frame_alloc_fresh lo s p s' :
  frames_inv lo s -> frame_alloc s = Some (p, s') ->
  frames_inv lo s' /\ ~ frame_used lo s p /\ lo <= p < end_ s /\
  forall j, frame_used lo s' j <-> j = p \/ frame_used lo s j.
Proof.
  intros [Hr Hw Hnd Hb] E. unfold frame_alloc in E. destruct s as [cur en rec]. cbn in *.
  destruct rec as [|q rec].
  - destruct (Z.eqb_spec cur en); [done|]. simplify_eq.
    rewrite (w64_id (cur + 1)) by (unfold is_u64; lia).
    replace (cur + 1 - 1) with cur by lia. rewrite (w64_id cur) by (unfold is_u64; lia).
    rewrite ppn_from_id by lia. unfold frame_used. cbn. split_and!; [split; cbn; (done || lia)| | | |].
    + intros [? _]. lia.
    + lia.
    + lia.
    + intros j. apply below_succ. lia.
  - simplify_eq. apply NoDup_cons in Hnd as [Hq Hnd]. apply Forall_cons in Hb as [Hqr Hb].
    rewrite ppn_from_id by lia. unfold frame_used. cbn.
    split_and!; [split; cbn; (done || lia)| |lia|lia|].
    + intros [_ Hn]. apply Hn. by left.
    + intros j. rewrite elem_of_cons. destruct (decide (j = q)) as [->|]; [|tauto].
      split; [by left|]. intros _. split; [lia|done].
Qed.

Lemma frame_dealloc_used lo s p :
  frames_inv lo s -> frame_used lo s p ->
  exists s', frame_dealloc s p = Ok s' /\ frames_inv lo s' /\ end_ s' = end_ s /\
    forall j, frame_used lo s' j <-> j <> p /\ frame_used lo s j.
Proof.
  intros [Hr Hw Hnd Hb] [Hp Hn]. unfold frame_dealloc.
  rewrite (proj2 (Z.leb_gt _ _)) by lia. rewrite bool_decide_false by done. cbn [negb orb assert res_bind].
  eexists. split; [done|]. split_and!; [|done|].
  - split; cbn; try done; [by apply NoDup_cons|]. by apply Forall_cons.
  - intros j. unfold frame_used. cbn. rewrite not_elem_of_cons. tauto.
Qed.

#[export] Instance frame_allocator lo : Allocator StackFrameAllocator := {
  allocate := frame_alloc;
  release_id := frame_dealloc;
  alloc_inv := frames_inv lo;
  in_use := frame_used lo;
}.

#[export] Instance frame_allocator_spec lo : @AllocatorSpec StackFrameAllocator (frame_allocator lo).
Proof.
  split; cbn.
  - intros s i s' Hi E. destruct (frame_alloc_fresh lo s i s' Hi E) as (? & ? & _ & ?). done.
  - intros s i Hi Hu. destruct (frame_dealloc_used lo s i Hi Hu) as (s' & ? & ? & _ & ?). by exists s'.
Qed.

(** ** Correctness of the id allocator *)

Record ids_inv (s : RecycleAllocator) : Prop := {
  ii_range : 0 <= id_current s < 2 ^ 64;
  ii_nodup : NoDup (id_recycled s);
  ii_below : Forall (fun p => 0 <= p < id_current s) (id_recycled s);
}.

Definition id_used (s : RecycleAllocator) (p : Z) : Prop :=
  0 <= p < id_current s /\ p ∉ id_recycled s.

Lemma id_alloc_fresh s i s' :
  ids_inv s -> id_current s < 2 ^ 64 - 1 -> id_alloc s = (i, s') ->
  ids_inv s' /\ ~ id_used s i /\ 0 <= i < id_current s' /\
  forall j, id_used s' j <-> j = i \/ id_used s j.
Proof.
  intros [Hr Hnd Hb] Hlt E. unfold id_alloc in E. destruct s as [cur rec]. cbn in *.
  destruct rec as [|q rec].
  - simplify_eq. rewrite (w64_id (cur + 1)) by (unfold is_u64; lia).
    replace (cur + 1 - 1) with cur by lia. rewrite (w64_id cur) by (unfold is_u64; lia).
    unfold id_used. cbn. split_and!; [split; cbn; (done || lia)| |lia|lia|].
    + intros [? _]. lia.
    + intros j. apply below_succ. lia.
  - simplify_eq. apply NoDup_cons in Hnd as [Hq Hnd]. apply Forall_cons in Hb as [Hqr Hb].
    unfold id_used. cbn. split_and!; [split; cbn; (done || lia)| |lia|lia|].
    + intros [_ Hn]. apply Hn. by left.
    + intros j. rewrite elem_of_cons. destruct (decide (j = i)) as [->|]; [|tauto].
      split; [by left|]. intros _. split; [lia|done].
Qed.

Lemma id_dealloc_used s i :
  ids_inv s -> id_used s i ->
  exists s', id_dealloc s i = Ok s' /\ ids_inv s' /\
    forall j, id_used s' j <-> j <> i /\ id_used s j.
Proof.
  intros [Hr Hnd Hb] [Hp Hn]. unfold id_dealloc.
  rewrite (proj2 (Z.ltb_lt _ _)) by lia. rewrite bool_decide_false by done. cbn [negb assert res_bind].
  eexists. split; [done|]. split.
  - split; cbn; try done; [by apply NoDup_cons|]. by apply Forall_cons.
  - intros j. unfold id_used. cbn. rewrite not_elem_of_cons. tauto.
Qed.

(** The ids of a run that has not exhausted [usize]. *)
#[export] Instance id_allocator : Allocator RecycleAllocator := {
  allocate s := if id_current s <? 2 ^ 64 - 1 then Some (id_alloc s) else None;
  release_id := id_dealloc;
  alloc_inv := ids_inv;
  in_use := id_used;
}.

#[export] Instance id_allocator_spec : AllocatorSpec RecycleAllocator.
Proof.
  split; cbn.
  - intros s i s' Hi. destruct (Z.ltb_spec (id_current s) (2 ^ 64 - 1)); [|done]. intros [= E].
    destruct (id_alloc_fresh s i s' Hi ltac:(lia) E) as (? & ? & _ & ?). done.
  - intros s i. apply id_dealloc_used.
Qed.

(** ** Clients *)

Inductive command := CAlloc | CFree (i : Z).

(** A client that keeps what it was given in [mine] and only returns that. *)
Fixpoint client {S} `{Allocator S} (cs : list command) (s : S) (mine : list Z) : res (S * list Z) :=
  match cs with
  | [] => Ok (s, mine)
  | CAlloc :: cs =>
      match allocate s with
      | None => client cs s mine
      | Some (i, s) => client cs s (i :: mine)
      end
  | CFree i :: cs =>
      if bool_decide (i ∈ mine) then
        let? s := release_id s i in
        client cs s (filter (fun j => j <> i) mine)
      else client cs s mine
  end.

Lemma client_spec {S} `{AllocatorSpec S} cs : forall (s : S) mine,
  alloc_inv s -> NoDup mine -> (forall j, in_use s j <-> j ∈ mine) ->
  exists s' mine', client cs s mine = Ok (s', mine') /\ alloc_inv s' /\ NoDup mine' /\
    forall j, in_use s' j <-> j ∈ mine'.
Proof.
  induction cs as [|[|i] cs IH]; intros s mine Hi Hnd Hu; cbn [client].
  - by exists s, mine.
  - destruct (allocate s) as [[i s1]|] eqn:E; [|by apply IH].
    destruct (allocate_fresh s i s1 Hi E) as (Hi1 & Hn & Hu1). apply IH; [done| |].
    + apply NoDup_cons. by rewrite <- Hu.
    + intros j. by rewrite Hu1, Hu, elem_of_cons.
  - case_bool_decide as Hin; [|by apply IH].
    destruct (release_used s i Hi (proj2 (Hu i) Hin)) as (s1 & -> & Hi1 & Hu1). cbn [res_bind].
    apply IH; [done|by apply NoDup_filter|]. intros j. by rewrite Hu1, Hu, list_elem_of_filter.
Qed.

(** Whatever sequence of allocations and returns of its own frames a
    client makes, the frame allocator never panics, the frames the client
    holds at any time are pairwise different, and they are exactly the frames
    in use. *)
Theorem frame_client_safe lo cs s mine :
  frames_inv lo s -> NoDup mine -> (forall j, frame_used lo s j <-> j ∈ mine) ->
  exists s' mine', @client _ (frame_allocator lo) cs s mine = Ok (s', mine') /\
    frames_inv lo s' /\ NoDup mine' /\ forall j, frame_used lo s' j <-> j ∈ mine'.
Proof. apply (@client_spec _ (frame_allocator lo) (frame_allocator_spec lo)). Qed.

Lemma frame_client_safe_witness :
  exists s' mine', @client _ (frame_allocator 5) [CAlloc; CAlloc; CFree 5; CAlloc] (MkFrames 5 9 []) [] =
      Ok (s', mine') /\
    frames_inv 5 s' /\ NoDup mine' /\ forall j, frame_used 5 s' j <-> j ∈ mine'.
Proof.
  apply (frame_client_safe 5 [CAlloc; CAlloc; CFree 5; CAlloc] (MkFrames 5 9 []) []).
  - split; cbn; (lia || constructor).
  - constructor.
  - intros j. split; [intros [Hj _]; cbn in Hj; lia|intros Hj; by apply elem_of_nil in Hj].
Defined.

(** [alloc] returns [None] only when every frame between the kernel's end
    and the end of memory is in use, and otherwise a frame of that range that
    is not; [dealloc] of a frame of the range panics exactly when the frame
    is not in use. *)
Theorem frame_alloc_complete lo s :
  frames_inv lo s ->
  match frame_alloc s with
  | None => forall p, lo <= p < end_ s -> frame_used lo s p
  | Some (p, s') => frames_inv lo s' /\ lo <= p < end_ s /\ ~ frame_used lo s p /\
      forall j, frame_used lo s' j <-> j = p \/ frame_used lo s j
  end /\
  forall p, lo <= p ->
    (frame_used lo s p <-> exists s', frame_dealloc s p = Ok s').
Proof.
  intros Hi. split.
  - destruct (frame_alloc s) as [[p s']|] eqn:E.
    + destruct (frame_alloc_fresh lo s p s' Hi E) as (? & ? & ? & ?). done.
    + destruct s as [cur en [|q rec]]; [|done]. unfold frame_alloc in E. cbn in E.
      destruct (Z.eqb_spec cur en) as [->|]; [|done]. intros p Hp. split; [done|apply not_elem_of_nil].
  - intros p Hp. split.
    + intros Hu. destruct (frame_dealloc_used lo s p Hi Hu) as (s' & ? & _). by exists s'.
    + intros [s' E]. unfold frame_dealloc in E. inv_res. reflect_bools.
      split; [lia|]. by apply bool_decide_eq_false in H0.
Qed.

Lemma frame_alloc_complete_witness :
  frames_inv 5 (MkFrames 7 9 [5]) /\ frame_used 5 (MkFrames 7 9 [5]) 6.
Proof.
  assert (frames_inv 5 (MkFrames 7 9 [5])) as Hi.
  { split; cbn; [lia|lia|apply NoDup_singleton|]. apply Forall_singleton. lia. }
  split; [exact Hi|].
  apply (proj2 (frame_alloc_complete 5 (MkFrames 7 9 [5]) Hi) 6 ltac:(lia)).
  exists (MkFrames 7 9 [6; 5]). reflexivity.
Defined.
