(* ===== verification/PageTable.v ===== *)
(** * Page tables

    [kernel/src/mm/page_table.rs]: SV39 page table entries, the three-level
    page table, and the operations that map, unmap and translate.  Physical
    memory is a map from page numbers to pages of 512 words; a mutable
    reference to an entry is the pair of a page number and an index. *)

From stdpp Require Import sorting.
From S2P Require Import Prelude Config StateMonad Address FrameAllocator.

(** ** Memory *)

Abbreviation page := (list Z).
Definition zero_page : page := replicate 512 0.

Record mm := MkMM { phys : gmap Z page; frames : StackFrameAllocator }.

Definition page_at (m : mm) (ppn : PhysPageNum) : page := default zero_page (phys m !! ppn).
Definition set_page (ppn : PhysPageNum) (p : page) (m : mm) : mm :=
  MkMM (<[ppn := p]> (phys m)) (frames m).

(** [frame_allocator::alloc]: [FrameTracker::new] clears the frame. *)
Definition mm_alloc : st mm (option PhysPageNum) := fun m =>
  match frame_alloc (frames m) with
  | None => Ok (None, m)
  | Some (ppn, fa) => Ok (Some ppn, MkMM (<[ppn := zero_page]> (phys m)) fa)
  end.

(** [frame_allocator::dealloc], the drop of a [FrameTracker] *)
Definition mm_dealloc (ppn : PhysPageNum) : st mm () := fun m =>
  let? fa := frame_dealloc (frames m) ppn in Ok (tt, MkMM (phys m) fa).

(** ** Entries *)

Definition PTE_V : Z := 1.
Definition PTE_R : Z := 2.
Definition PTE_W : Z := 4.
Definition PTE_X : Z := 8.
Definition PTE_U : Z := 16.

(** [PageTableEntry::new], [empty], [ppn], [flags] *)
Definition PTE_new (ppn : PhysPageNum) (flags : Z) : Z := Z.lor (w64 (Z.shiftl ppn 10)) flags.
Definition PTE_empty : Z := 0.
Definition PTE_ppn (bits : Z) : PhysPageNum :=
  PhysPageNum_from (Z.land (Z.shiftr bits 10) (Z.shiftl 1 44 - 1)).
Definition PTE_flags (bits : Z) : Z := bits mod 2 ^ 8.
Definition PTE_is_valid (bits : Z) : bool := negb (Z.land (PTE_flags bits) PTE_V =? 0).
Definition PTE_is_readable (bits : Z) : bool := negb (Z.land (PTE_flags bits) PTE_R =? 0).
Definition PTE_is_writable (bits : Z) : bool := negb (Z.land (PTE_flags bits) PTE_W =? 0).
Definition PTE_is_executable (bits : Z) : bool := negb (Z.land (PTE_flags bits) PTE_X =? 0).

(** [ppn.as_mut_pte_array().get_mut(idx)] *)
Abbreviation slot := (Z * Z)%type.
Definition get_mut (ppn : PhysPageNum) (idx : Z) : option slot :=
  if idx <? 512 then Some (ppn, idx) else None.
Definition read_pte (m : mm) (s : slot) : Z := page_at m s.1 !!! Z.to_nat s.2.
Definition write_pte (s : slot) (bits : Z) (m : mm) : mm :=
  set_page s.1 (<[Z.to_nat s.2 := bits]> (page_at m s.1)) m.

(** ** The page table *)

Record PageTable := MkPT {
  root_ppn : PhysPageNum;
  data_frames : gmap Z PhysPageNum;
  metadata_frames : list PhysPageNum;
}.

(** [PageTable::new] *)
Definition PageTable_new : st mm PageTable :=
  let* o := mm_alloc in
  let* ppn := of_option o in
  ret (MkPT ppn ∅ [ppn]).

(** [PageTable::insert]: the frame it replaces is dropped by the caller. *)
Definition PageTable_insert (pt : PageTable) (vpn : VirtPageNum) (frame : PhysPageNum) :
    option PhysPageNum * PageTable :=
  (data_frames pt !! vpn,
   MkPT (root_ppn pt) (<[vpn := frame]> (data_frames pt)) (metadata_frames pt)).

(** [PageTable::remove] *)
Definition PageTable_remove (pt : PageTable) (vpn : VirtPageNum) : option PhysPageNum * PageTable :=
  (data_frames pt !! vpn, MkPT (root_ppn pt) (delete vpn (data_frames pt)) (metadata_frames pt)).

(** The loop of [find_pte_then_alloc] over the first two indices. *)
Fixpoint walk_alloc (idxs : list Z) (ppn : PhysPageNum) (metadata : list PhysPageNum) :
    st mm (option PhysPageNum * list PhysPageNum) :=
  match idxs with
  | [] => ret (Some ppn, metadata)
  | idx :: idxs =>
      match get_mut ppn idx with
      | None => ret (None, metadata)
      | Some s =>
          let* m := get in
          if PTE_is_valid (read_pte m s) then walk_alloc idxs (PTE_ppn (read_pte m s)) metadata
          else
            let* o := mm_alloc in
            let* frame := of_option o in
            modify (write_pte s (PTE_new frame PTE_V)) ;*
            let* m := get in
            walk_alloc idxs (PTE_ppn (read_pte m s)) (metadata ++ [frame])
      end
  end.

(** [PageTable::find_pte_then_alloc] *)
Definition find_pte_then_alloc (pt : PageTable) (vpn : VirtPageNum) : st mm (option slot * PageTable) :=
  let idxs := indexes vpn in
  let* (o, metadata) := walk_alloc (take 2 idxs) (root_ppn pt) (metadata_frames pt) in
  let pt := MkPT (root_ppn pt) (data_frames pt) metadata in
  match o with
  | None => ret (None, pt)
  | Some ppn => ret (get_mut ppn (idxs !!! 2%nat), pt)
  end.

Fixpoint walk (m : mm) (idxs : list Z) (ppn : PhysPageNum) : option PhysPageNum :=
  match idxs with
  | [] => Some ppn
  | idx :: idxs =>
      match get_mut ppn idx with
      | None => None
      | Some s =>
          if PTE_is_valid (read_pte m s) then walk m idxs (PTE_ppn (read_pte m s)) else None
      end
  end.

(** [PageTable::find_pte] *)
Definition find_pte (m : mm) (pt : PageTable) (vpn : VirtPageNum) : option slot :=
  let idxs := indexes vpn in
  match walk m (take 2 idxs) (root_ppn pt) with
  | None => None
  | Some ppn => get_mut ppn (idxs !!! 2%nat)
  end.

(** [PageTable::map] *)
Definition PageTable_map (pt : PageTable) (vpn : VirtPageNum) (ppn : PhysPageNum) (flags : Z) :
    st mm PageTable :=
  let* (o, pt) := find_pte_then_alloc pt vpn in
  let* s := of_option o in
  let* m := get in
  check (negb (PTE_is_valid (read_pte m s))) ;*
  modify (write_pte s (PTE_new ppn (Z.lor flags PTE_V))) ;*
  ret pt.

(** [PageTable::unmap] *)
Definition PageTable_unmap (pt : PageTable) (vpn : VirtPageNum) : st mm () :=
  let* m := get in
  let* s := of_option (find_pte m pt vpn) in
  check (PTE_is_valid (read_pte m s)) ;*
  modify (write_pte s PTE_empty).

(** [PageTable::from_token] *)
Definition PageTable_from_token (satp : Z) : PageTable :=
  MkPT (PhysPageNum_from (Z.land satp (Z.shiftl 1 44 - 1))) ∅ [].

(** [PageTable::translate], [translate_va], [token] *)
Definition PageTable_translate (m : mm) (pt : PageTable) (vpn : VirtPageNum) : option Z :=
  option_map (read_pte m) (find_pte m pt vpn).

Definition translate_va (m : mm) (pt : PageTable) (va : VirtAddr) : option PhysAddr :=
  option_map
    (fun s => PhysAddr_from (w64 (addr_from (PTE_ppn (read_pte m s)) + page_offset va)))
    (find_pte m pt (page_floor va)).

Definition PageTable_token (pt : PageTable) : Z := Z.lor (Z.shiftl 8 60) (root_ppn pt).

Definition key_le (a b : Z * PhysPageNum) : Prop := a.1 <= b.1.
#[global] Instance key_le_dec a b : Decision (key_le a b) := decide (a.1 <= b.1).

(** The drop of a page table returns its frames, the data frames in the order
    of their page numbers first. *)
Definition PageTable_drop (pt : PageTable) : st mm () :=
  iter_st mm_dealloc
    ((merge_sort key_le (map_to_list (data_frames pt))).*2 ++ metadata_frames pt).

(** ** Entries encode page number and flags *)

Lemma PTE_new_value ppn flags :
  0 <= ppn < 2 ^ 44 -> 0 <= flags < 2 ^ 10 -> PTE_new ppn flags = ppn * 1024 + flags.
Proof.
  intros Hp Hf. unfold PTE_new. rewrite Z.shiftl_mul_pow2 by done. change (2 ^ 10) with 1024 in *.
  rewrite w64_id by (unfold is_u64; lia). symmetry.
  assert (Z.land (ppn * 1024) flags = 0) as Hd.
  { change 1024 with (2 ^ 10). rewrite <- Z.shiftl_mul_pow2 by done.
    apply Z.bits_inj'. intros i Hi. rewrite Z.land_spec, Z.bits_0, Z.shiftl_spec by done.
    destruct (Z.ltb_spec i 10).
    - by rewrite (Z.testbit_neg_r ppn) by lia.
    - rewrite <- (Z.mod_small flags (2 ^ 10)), Z.mod_pow2_bits_high by lia. apply andb_false_r. }
  rewrite Z.add_nocarry_lxor by done. by apply Z.lxor_lor.
Qed.

Lemma PTE_ppn_new ppn flags :
  0 <= ppn < 2 ^ 44 -> 0 <= flags < 2 ^ 8 -> PTE_ppn (PTE_new ppn flags) = ppn.
Proof.
  intros Hp Hf. rewrite PTE_new_value by lia. unfold PTE_ppn.
  rewrite Z.shiftr_div_pow2 by done. change (2 ^ 10) with 1024.
  rewrite (Z.add_comm (ppn * 1024)), Z.div_add, (Z.div_small flags) by lia. rewrite Z.add_0_l.
  change (Z.land ppn (Z.shiftl 1 44 - 1)) with (low_bits 44 ppn). rewrite low_bits_id by lia.
  by apply ppn_from_id.
Qed.

Lemma PTE_flags_new ppn flags :
  0 <= ppn < 2 ^ 44 -> 0 <= flags < 2 ^ 8 -> PTE_flags (PTE_new ppn flags) = flags.
Proof.
  intros Hp Hf. rewrite PTE_new_value by lia. unfold PTE_flags.
  replace (ppn * 1024) with (ppn * 4 * 2 ^ 8) by lia.
  rewrite Z.add_comm, Z.mod_add by lia. by apply Z.mod_small.
Qed.

Lemma lor_range a b n : 0 <= a < 2 ^ n -> 0 <= b < 2 ^ n -> 0 <= Z.lor a b < 2 ^ n.
Proof.
  intros Ha Hb. assert (0 <= Z.lor a b) as H0 by (apply Z.lor_nonneg; lia). split; [done|].
  assert (0 <= n) by (destruct (Z.lt_ge_cases n 0); [rewrite Z.pow_neg_r in Ha by done; lia|done]).
  destruct (decide (Z.lor a b = 0)) as [->|Hne]; [lia|]. apply Z.log2_lt_pow2; [lia|].
  rewrite Z.log2_lor by lia.
  assert (forall x, 0 <= x < 2 ^ n -> x <> 0 -> Z.log2 x < n) as Hl.
  { intros x Hx Hx0. apply Z.log2_lt_pow2; lia. }
  destruct (decide (a = 0)) as [->|Ha0], (decide (b = 0)) as [->|Hb0]; [done| | |].
  - rewrite Z.max_r by apply Z.log2_nonneg. by apply Hl.
  - rewrite Z.max_l by apply Z.log2_nonneg. by apply Hl.
  - apply Z.max_lub_lt; by apply Hl.
Qed.

Lemma PTE_valid_new ppn flags :
  0 <= ppn < 2 ^ 44 -> 0 <= flags < 2 ^ 8 ->
  PTE_is_valid (PTE_new ppn (Z.lor flags PTE_V)) = true.
Proof.
  intros Hp Hf. unfold PTE_is_valid. rewrite PTE_flags_new by (done || by apply lor_range).
  apply negb_true_iff, Z.eqb_neq. intros E. apply (f_equal (fun z => Z.testbit z 0)) in E.
  rewrite Z.land_spec, Z.lor_spec, Z.bits_0, orb_true_r in E. done.
Qed.

(** An entry made of a page number and flags gives both back, is valid
    when the flags say so, and the empty entry is invalid. *)
Theorem PTE_roundtrip ppn flags :
  0 <= ppn < 2 ^ 44 -> 0 <= flags < 2 ^ 8 ->
  PTE_ppn (PTE_new ppn flags) = ppn /\ PTE_flags (PTE_new ppn flags) = flags /\
  PTE_is_valid (PTE_new ppn (Z.lor flags PTE_V)) = true /\
  is_u64 (PTE_new ppn flags) /\ PTE_is_valid PTE_empty = false.
Proof.
  intros Hp Hf. split_and!; [by apply PTE_ppn_new|by apply PTE_flags_new|by apply PTE_valid_new| |done].
  rewrite PTE_new_value by lia. unfold is_u64. lia.
Qed.

Lemma PTE_roundtrip_witness :
  PTE_ppn (PTE_new 0x80400 23) = 0x80400 /\ PTE_flags (PTE_new 0x80400 23) = 23 /\
  PTE_is_valid (PTE_new 0x80400 (Z.lor 23 PTE_V)) = true /\
  is_u64 (PTE_new 0x80400 23) /\ PTE_is_valid PTE_empty = false.
Proof. apply PTE_roundtrip; lia. Defined.
