(* ===== verification/PageTableSpec.v ===== *)
(** * Page tables refine finite maps

    The invariant of a three-level page table, with the table frame at each
    path of indices as a ghost map, and the theorems that [map], [unmap] and
    [translate] are insertion, deletion and lookup of a finite map from
    virtual page numbers to entries. *)

From S2P Require Import Prelude Config StateMonad Address FrameAllocator PageTable.

(** Frames that can still be handed out. *)
Definition frames_left (s : StackFrameAllocator) : Z :=
  Z.of_nat (length (recycled s)) + (end_ s - current s).

Lemma frame_alloc_left lo s :
  frames_inv lo s -> 0 < frames_left s ->
  exists f s', frame_alloc s = Some (f, s') /\ frames_left s' = frames_left s - 1.
Proof.
  intros [Hr Hw _ _] Hl. unfold frame_alloc, frames_left in *. destruct s as [cur en [|q rec]]; cbn in *.
  - destruct (Z.eqb_spec cur en); [lia|]. do 2 eexists. split; [done|]. cbn. wrap_id. lia.
  - do 2 eexists. split; [done|]. cbn. lia.
Qed.

(** ** The invariant *)

Section table.
Context (lo : Z).

(** [T !! p] is the frame of the table reached by the indices [p]. *)
Record pt_inv (m : mm) (pt : PageTable) (T : gmap (list Z) Z) : Prop := {
  pi_root : T !! [] = Some (root_ppn pt);
  pi_table p t : T !! p = Some t ->
    0 <= t < 2 ^ 44 /\ t ∈ metadata_frames pt /\ length (page_at m t) = 512%nat;
  pi_inj p q t : T !! p = Some t -> T !! q = Some t -> p = q;
  pi_entry p t i : (length p < 2)%nat -> T !! p = Some t -> 0 <= i < 512 ->
    match T !! (p ++ [i]) with
    | Some t' => PTE_is_valid (read_pte m (t, i)) = true /\ PTE_ppn (read_pte m (t, i)) = t'
    | None => PTE_is_valid (read_pte m (t, i)) = false
    end;
  pi_closed p i : is_Some (T !! (p ++ [i])) -> is_Some (T !! p);
  pi_frames : frames_inv lo (frames m);
  pi_used : Forall (frame_used lo (frames m)) (metadata_frames pt);
  pi_nodup : NoDup (metadata_frames pt);
}.

(** The valid entry of a page. *)
Definition mapping (m : mm) (pt : PageTable) (vpn : Z) : option Z :=
  match PageTable_translate m pt vpn with
  | Some e => if PTE_is_valid e then Some e else None
  | None => None
  end.

Definition leaf (m : mm) (T : gmap (list Z) Z) (vpn : Z) : option Z :=
  match T !! take 2 (indexes vpn) with
  | Some t => let e := read_pte m (t, vpn mod 512) in if PTE_is_valid e then Some e else None
  | None => None
  end.

Lemma closed_prefix m pt T p q : pt_inv m pt T -> is_Some (T !! (p ++ q)) -> is_Some (T !! p).
Proof.
  intros HI. induction q as [|i q IH] using rev_ind; [by rewrite app_nil_r|].
  rewrite app_assoc. intros H%(pi_closed _ _ _ HI). by apply IH.
Qed.

Lemma get_mut_ok t i : 0 <= i < 512 -> get_mut t i = Some (t, i).
Proof. intros. unfold get_mut. by rewrite (proj2 (Z.ltb_lt _ _)) by lia. Qed.

Lemma walk_spec m pt T idxs : forall p t,
  pt_inv m pt T -> T !! p = Some t -> (length p + length idxs <= 2)%nat ->
  Forall (fun i => 0 <= i < 512) idxs -> walk m idxs t = T !! (p ++ idxs).
Proof.
  induction idxs as [|i idxs IH]; intros p t HI Hp Hl Hi; [by rewrite app_nil_r|].
  apply Forall_cons in Hi as [Hi His]. cbn [walk]. rewrite get_mut_ok by done.
  pose proof (pi_entry _ _ _ HI p t i ltac:(simpl in Hl; lia) Hp Hi) as He.
  destruct (T !! (p ++ [i])) as [t'|] eqn:Et.
  - destruct He as [-> ->]. rewrite (IH (p ++ [i]) t'); try done.
    + by rewrite <- app_assoc.
    + rewrite length_app. simpl in *. lia.
  - rewrite He. symmetry. apply eq_None_not_Some. intros Hs.
    replace (p ++ i :: idxs) with ((p ++ [i]) ++ idxs) in Hs by (by rewrite <- app_assoc).
    apply (closed_prefix _ _ _ _ _ HI) in Hs. rewrite Et in Hs. by destruct Hs.
Qed.

Lemma indexes_range vpn : Forall (fun i => 0 <= i < 512) (indexes vpn).
Proof.
  rewrite indexes_values. repeat (apply Forall_cons; split; [apply Z.mod_pos_bound; lia|]). done.
Qed.

Lemma indexes_split vpn :
  exists i j, take 2 (indexes vpn) = [i; j] /\ indexes vpn !!! 2%nat = vpn mod 512 /\
    0 <= i < 512 /\ 0 <= j < 512.
Proof.
  rewrite indexes_values. do 2 eexists. split; [done|]. split; [done|].
  split; apply Z.mod_pos_bound; lia.
Qed.

Lemma find_pte_spec m pt T vpn :
  pt_inv m pt T ->
  find_pte m pt vpn = (fun t => (t, vpn mod 512)) <$> T !! take 2 (indexes vpn).
Proof.
  intros HI. unfold find_pte. destruct (indexes_split vpn) as (i & j & Ei & E2 & Hi & Hj).
  rewrite E2, Ei. rewrite (walk_spec m pt T [i; j] [] (root_ppn pt)); try done.
  - cbn [app]. destruct (T !! [i; j]); [|done]. cbn. rewrite get_mut_ok; [done|].
    apply Z.mod_pos_bound. lia.
  - apply (pi_root _ _ _ HI).
  - by repeat (apply Forall_cons; split; [done|]).
Qed.

Lemma mapping_leaf m pt T vpn : pt_inv m pt T -> mapping m pt vpn = leaf m T vpn.
Proof.
  intros HI. unfold mapping, leaf, PageTable_translate. rewrite (find_pte_spec m pt T vpn HI).
  by destruct (T !! take 2 (indexes vpn)).
Qed.

(** ** Writes *)

Lemma page_at_set m ppn p q :
  page_at (set_page ppn p m) q = if decide (q = ppn) then p else page_at m q.
Proof.
  unfold page_at, set_page. cbn [phys]. case_decide as E.
  - subst. by rewrite lookup_insert_eq.
  - by rewrite lookup_insert_ne.
Qed.

Lemma read_write_pte m t i e t' j :
  0 <= i < 512 -> 0 <= j -> length (page_at m t) = 512%nat ->
  read_pte (write_pte (t, i) e m) (t', j) =
    if decide (t' = t /\ j = i) then e else read_pte m (t', j).
Proof.
  intros Hi Hj Hl. unfold read_pte, write_pte. cbn [fst snd]. rewrite page_at_set.
  case_decide as Et; [subst t'|].
  - case_decide as Ej; [destruct Ej as [_ ->]; apply list_lookup_total_insert_eq; lia|].
    rewrite list_lookup_total_insert_ne; [done|]. intros E. apply Ej. split; [done|lia].
  - by rewrite decide_False by tauto.
Qed.

(** A new table below [t] at index [i]. *)
Definition with_table (m : mm) (t i f : Z) (fa : StackFrameAllocator) : mm :=
  write_pte (t, i) (PTE_new f PTE_V) (MkMM (<[f := zero_page]> (phys m)) fa).

Lemma read_with_table m t i f fa t' j :
  t <> f -> 0 <= i < 512 -> 0 <= j < 512 -> length (page_at m t) = 512%nat ->
  read_pte (with_table m t i f fa) (t', j) =
    if decide (t' = t /\ j = i) then PTE_new f PTE_V
    else if decide (t' = f) then 0 else read_pte m (t', j).
Proof.
  intros Htf Hi Hj Hl. unfold with_table.
  assert (forall x, page_at (MkMM (<[f := zero_page]> (phys m)) fa) x =
            if decide (x = f) then zero_page else page_at m x) as Hp.
  { intros x. unfold page_at. cbn [phys].
    case_decide; [subst; by rewrite lookup_insert_eq|by rewrite lookup_insert_ne]. }
  rewrite read_write_pte; [|done|lia|by rewrite Hp, decide_False].
  case_decide; [done|]. unfold read_pte at 1. cbn [fst snd]. rewrite Hp. case_decide; [|done].
  apply lookup_total_replicate_2. lia.
Qed.

Lemma fresh_not_table m pt T p t f fa :
  pt_inv m pt T -> frame_alloc (frames m) = Some (f, fa) -> T !! p = Some t -> t <> f.
Proof.
  intros HI Hf Hp ->. destruct (pi_table _ _ _ HI _ _ Hp) as (_ & Hin & _).
  pose proof (pi_used _ _ _ HI) as Hu. rewrite Forall_forall in Hu.
  destruct (frame_alloc_fresh lo _ _ _ (pi_frames _ _ _ HI) Hf) as (_ & Hn & _). by apply Hn, Hu.
Qed.

Lemma page_with_table m t i f fa x :
  t <> f -> length (page_at m t) = 512%nat ->
  length (page_at m x) = 512%nat \/ x = f -> length (page_at (with_table m t i f fa) x) = 512%nat.
Proof.
  intros Htf Hl Hx. unfold with_table, write_pte. cbn [fst snd]. rewrite page_at_set.
  unfold page_at at 1 in Hl. unfold page_at in *. cbn [phys] in *.
  case_decide; [subst; rewrite length_insert, lookup_insert_ne by done; done|].
  destruct (decide (x = f)) as [->|Hne]; [by rewrite lookup_insert_eq|].
  rewrite lookup_insert_ne by done. by destruct Hx.
Qed.

Lemma extend_table m pt T p t i f fa :
  pt_inv m pt T -> T !! p = Some t -> (length p < 2)%nat -> 0 <= i < 512 ->
  T !! (p ++ [i]) = None -> frame_alloc (frames m) = Some (f, fa) ->
  pt_inv (with_table m t i f fa)
    (MkPT (root_ppn pt) (data_frames pt) (metadata_frames pt ++ [f])) (<[p ++ [i] := f]> T).
Proof.
  intros HI Hp Hlp Hi Hnew Hf. pose proof (fresh_not_table m pt T p t f fa HI Hf Hp) as Htf.
  pose proof (pi_frames _ _ _ HI) as HF.
  destruct (frame_alloc_fresh lo _ _ _ HF Hf) as (HF' & Hn & Hr & Hu').
  destruct (pi_table _ _ _ HI _ _ Hp) as (_ & _ & Hlt).
  assert (0 <= f < 2 ^ 44) as Hf44 by (destruct HF as [? ? _ _]; lia).
  split; cbn [root_ppn metadata_frames].
  - rewrite lookup_insert_ne; [apply HI|]. by destruct p.
  - intros q s [[<- <-]|[Hne Hs]]%lookup_insert_Some.
    + split_and!; [lia|lia|set_solver|]. apply page_with_table; [done|done|by right].
    + destruct (pi_table _ _ _ HI _ _ Hs) as (? & ? & ?). split_and!; [lia|lia|set_solver|].
      apply page_with_table; [done|done|by left].
  - intros q q' s [[<- <-]|[Hq Hs]]%lookup_insert_Some [[<- E]|[Hq' Hs']]%lookup_insert_Some; [done| | |].
    + by destruct (fresh_not_table _ _ _ _ _ _ _ HI Hf Hs').
    + subst s. by destruct (fresh_not_table _ _ _ _ _ _ _ HI Hf Hs).
    + by eapply (pi_inj _ _ _ HI).
  - intros q s j Hlq Hs Hj. rewrite read_with_table by done.
    apply lookup_insert_Some in Hs as [[<- <-]|[Hq Hs]].
    + rewrite lookup_insert_ne by (intros E; apply (f_equal length) in E; rewrite !length_app in E; simpl in E; lia).
      rewrite decide_False by (intros [? _]; congruence). rewrite decide_True by done.
      assert (T !! ((p ++ [i]) ++ [j]) = None) as ->; [|done].
      apply eq_None_not_Some. intros Hc%(pi_closed _ _ _ HI). rewrite Hnew in Hc. by destruct Hc.
    + pose proof (fresh_not_table _ _ _ _ _ _ _ HI Hf Hs) as Hsf.
      rewrite (decide_False (P := s = f)) by done.
      destruct (decide (q = p /\ j = i)) as [[-> ->]|Hne].
      * assert (s = t) as -> by congruence. rewrite lookup_insert_eq, decide_True by done.
        split; [apply (PTE_valid_new f 0); lia|apply (PTE_ppn_new f PTE_V); unfold PTE_V; lia].
      * rewrite lookup_insert_ne by (intros [-> [= ->]]%app_inj_2; [by apply Hne|done]).
        rewrite decide_False; [by apply (pi_entry _ _ _ HI)|]. intros [-> ->]. apply Hne.
        split; [by eapply (pi_inj _ _ _ HI)|done].
  - intros q j. rewrite !lookup_insert_is_Some. intros [E|[Hq Hs]].
    + apply app_inj_2 in E as [<- [= ->]]; [|done]. right. split; [|by rewrite Hp].
      intros E. apply (f_equal length) in E. rewrite length_app in E. simpl in E. lia.
    + apply (pi_closed _ _ _ HI) in Hs. destruct (decide (p ++ [i] = q)); [by left|by right].
  - exact HF'.
  - apply Forall_app. split; [|apply Forall_singleton; apply Hu'; by left].
    eapply Forall_impl; [apply (pi_used _ _ _ HI)|]. intros x Hx. apply Hu'. by right.
  - apply NoDup_app. split_and!; [apply HI| |apply NoDup_singleton].
    intros x Hx ->%list_elem_of_singleton. pose proof (pi_used _ _ _ HI) as Hux.
    rewrite Forall_forall in Hux. by apply Hn, Hux.
Qed.

Lemma leaf_extend m pt T p t i f fa vpn :
  pt_inv m pt T -> T !! p = Some t -> (length p < 2)%nat -> 0 <= i < 512 ->
  T !! (p ++ [i]) = None -> frame_alloc (frames m) = Some (f, fa) ->
  leaf (with_table m t i f fa) (<[p ++ [i] := f]> T) vpn = leaf m T vpn.
Proof.
  intros HI Hp Hlp Hi Hnew Hf. pose proof (fresh_not_table m pt T p t f fa HI Hf Hp) as Htf.
  destruct (pi_table _ _ _ HI _ _ Hp) as (_ & _ & Hlt).
  pose proof (Z.mod_pos_bound vpn 512 ltac:(lia)) as Hv.
  unfold leaf. destruct (indexes_split vpn) as (a & b & Eq & _). rewrite Eq.
  destruct (decide (p ++ [i] = [a; b])) as [E|Hne].
  - rewrite E in *. rewrite lookup_insert_eq, Hnew. cbv zeta. rewrite read_with_table by done.
    by rewrite decide_False, decide_True by (done || intros [? _]; congruence).
  - rewrite lookup_insert_ne by done. destruct (T !! [a; b]) as [s|] eqn:Es; [|done]. cbv zeta.
    rewrite read_with_table by done.
    pose proof (fresh_not_table _ _ _ _ _ _ _ HI Hf Es) as Hsf.
    rewrite (decide_False (P := s = f)), decide_False; [done| |done]. intros [-> _].
    pose proof (pi_inj _ _ _ HI _ _ _ Hp Es) as E. rewrite E in Hlp. simpl in Hlp. lia.
Qed.

(** What a walk that allocates leaves: a larger table with the same mapping. *)
Record grown (m m' : mm) (pt pt' : PageTable) (T T' : gmap (list Z) Z) (n : Z) : Prop := {
  gt_inv : pt_inv m' pt' T';
  gt_root : root_ppn pt' = root_ppn pt;
  gt_data : data_frames pt' = data_frames pt;
  gt_leaf vpn : leaf m' T' vpn = leaf m T vpn;
  gt_pages x : x ∉ metadata_frames pt' -> page_at m' x = page_at m x;
  gt_meta : metadata_frames pt ⊆ metadata_frames pt';
  gt_used j : frame_used lo (frames m) j -> frame_used lo (frames m') j;
  gt_new x : x ∈ metadata_frames pt' -> x ∈ metadata_frames pt \/ ~ frame_used lo (frames m) x;
  gt_left : frames_left (frames m) - n <= frames_left (frames m');
}.

Lemma grown_refl m pt T : pt_inv m pt T -> grown m m pt pt T T 0.
Proof. intros HI. split; try done; [by left|lia]. Qed.

Lemma grown_step m pt T p t i f fa :
  pt_inv m pt T -> T !! p = Some t -> (length p < 2)%nat -> 0 <= i < 512 ->
  T !! (p ++ [i]) = None -> frame_alloc (frames m) = Some (f, fa) ->
  frames_left fa = frames_left (frames m) - 1 ->
  grown m (with_table m t i f fa) pt
    (MkPT (root_ppn pt) (data_frames pt) (metadata_frames pt ++ [f])) T (<[p ++ [i] := f]> T) 1.
Proof.
  intros HI Hp Hlp Hi Hnew Hf Hleft.
  destruct (frame_alloc_fresh lo _ _ _ (pi_frames _ _ _ HI) Hf) as (_ & Hn & _ & Hu).
  destruct (pi_table _ _ _ HI _ _ Hp) as (_ & Hin & _).
  split; cbn [root_ppn data_frames metadata_frames]; try done.
  - by apply extend_table.
  - intros vpn. by eapply leaf_extend.
  - intros x Hx. apply not_elem_of_app in Hx as [Hx Hxf]. unfold with_table, write_pte. cbn [fst snd].
    rewrite page_at_set, decide_False by (intros ->; done). unfold page_at. cbn [phys].
    rewrite lookup_insert_ne; [done|]. intros ->. set_solver.
  - set_solver.
  - intros j Hj. apply Hu. by right.
  - intros x [?|Hx%list_elem_of_singleton]%elem_of_app; [by left|subst; by right].
  - change (frames (with_table m t i f fa)) with fa. lia.
Qed.

Lemma grown_trans m1 m2 m3 pt1 pt2 pt3 T1 T2 T3 a b :
  grown m1 m2 pt1 pt2 T1 T2 a -> grown m2 m3 pt2 pt3 T2 T3 b -> grown m1 m3 pt1 pt3 T1 T3 (a + b).
Proof.
  intros [I1 R1 D1 L1 P1 M1 U1 N1 F1] [I2 R2 D2 L2 P2 M2 U2 N2 F2].
  split; [done|congruence|congruence| | | | | |lia].
  - intros vpn. by rewrite L2, L1.
  - intros x Hx. rewrite P2, P1; [done|set_solver|done].
  - set_solver.
  - auto.
  - intros x Hx. destruct (N2 x Hx) as [?|Hn]; [by apply N1|]. right. auto.
Qed.

Lemma walk_alloc_spec idxs : forall p t m pt T,
  pt_inv m pt T -> T !! p = Some t -> (length p + length idxs <= 2)%nat ->
  Forall (fun i => 0 <= i < 512) idxs ->
  Z.of_nat (length idxs) <= frames_left (frames m) ->
  exists m' md' T' t' n,
    walk_alloc idxs t (metadata_frames pt) m = Ok ((Some t', md'), m') /\
    grown m m' pt (MkPT (root_ppn pt) (data_frames pt) md') T T' n /\
    n <= Z.of_nat (length idxs) /\ T' !! (p ++ idxs) = Some t'.
Proof.
  induction idxs as [|i idxs IH]; intros p t m pt T HI Hp Hl Hr Hleft.
  { exists m, (metadata_frames pt), T, t, 0. rewrite app_nil_r. destruct pt.
    split_and!; try done. by apply grown_refl. }
  apply Forall_cons in Hr as [Hi Hr]. cbn [walk_alloc]. rewrite get_mut_ok by done.
  cbn [length] in Hl, Hleft. pose proof (pi_entry _ _ _ HI p t i ltac:(lia) Hp Hi) as He.
  unfold st_bind at 1, get at 1. cbn [res_bind].
  destruct (T !! (p ++ [i])) as [t'|] eqn:Et.
  - destruct He as [-> ->].
    destruct (IH (p ++ [i]) t' m pt T) as (m' & md' & T' & t2 & n & Hrun & Hg & Hn & HT); try done.
    { rewrite length_app. simpl. lia. }
    { lia. }
    exists m', md', T', t2, n. split_and!; try done; [cbn; lia|]. by rewrite <- app_assoc in HT.
  - rewrite He. destruct (frame_alloc_left lo _ (pi_frames _ _ _ HI)) as (f & fa & Hf & Hfa); [lia|].
    pose proof (grown_step m pt T p t i f fa HI Hp ltac:(lia) Hi Et Hf Hfa) as Hg1.
    set (m1 := with_table m t i f fa) in *. set (pt1 := MkPT _ _ _) in Hg1.
    destruct (IH (p ++ [i]) f m1 pt1 (<[p ++ [i] := f]> T)) as (m' & md' & T' & t2 & n & Hrun & Hg & Hn & HT);
      try apply Hg1; try done.
    { apply lookup_insert_eq. }
    { rewrite length_app. simpl. lia. }
    { pose proof (gt_left _ _ _ _ _ _ _ Hg1). lia. }
    exists m', md', T', t2, (1 + n). split_and!.
    + unfold mm_alloc. unfold st_bind at 1. rewrite Hf. cbn [res_bind].
      unfold st_bind at 1, of_option, of_res. cbn [unwrap res_bind].
      unfold st_bind at 1, modify. cbn [res_bind]. unfold st_bind at 1, get. cbn [res_bind].
      fold (with_table m t i f fa). fold m1.
      assert (PTE_ppn (read_pte m1 (t, i)) = f) as ->; [|exact Hrun].
      pose proof (pi_entry _ _ _ (gt_inv _ _ _ _ _ _ _ Hg1) p t i ltac:(lia)) as He1.
      rewrite lookup_insert_ne in He1 by (intros E; apply (f_equal length) in E; rewrite length_app in E; simpl in E; lia).
      rewrite lookup_insert_eq in He1. by apply He1.
    + by eapply grown_trans.
    + cbn. lia.
    + by rewrite <- app_assoc in HT.
Qed.

Definition is_vpn (vpn : Z) : Prop := 0 <= vpn < 2 ^ 27.

Definition valid_entry (e : Z) : option Z := if PTE_is_valid e then Some e else None.

Lemma same_slot vpn vpn' :
  is_vpn vpn -> is_vpn vpn' -> take 2 (indexes vpn) = take 2 (indexes vpn') ->
  vpn mod 512 = vpn' mod 512 -> vpn = vpn'.
Proof.
  intros H H' E2 E. apply indexes_inj; [done..|]. rewrite !indexes_values in E2 |- *.
  cbn [take] in E2. injection E2 as -> ->. by rewrite E.
Qed.

(** Writing the last-level entry of one page. *)
Lemma leaf_write m pt T vpn t e :
  pt_inv m pt T -> is_vpn vpn -> T !! take 2 (indexes vpn) = Some t ->
  let m' := write_pte (t, vpn mod 512) e m in
  pt_inv m' pt T /\
  (forall vpn', is_vpn vpn' ->
     leaf m' T vpn' = if decide (vpn' = vpn) then valid_entry e else leaf m T vpn') /\
  (forall x, x ∉ metadata_frames pt -> page_at m' x = page_at m x).
Proof.
  intros HI Hv Ht m'. destruct (indexes_split vpn) as (a & b & Eq & _). rewrite Eq in Ht.
  pose proof (Z.mod_pos_bound vpn 512 ltac:(lia)) as Hm.
  destruct (pi_table _ _ _ HI _ _ Ht) as (_ & Hin & Hlt).
  assert (forall s j, 0 <= j -> read_pte m' (s, j) =
    if decide (s = t /\ j = vpn mod 512) then e else read_pte m (s, j)) as Hread.
  { intros s j Hj. by apply read_write_pte. }
  split_and!.
  - destruct HI as [Hroot Htab Hinj Hent Hcl Hfr Hu Hnd]. split; try done.
    + intros p s Hs. destruct (Htab p s Hs) as (? & ? & Hl). split_and!; try done; [lia|lia|].
      unfold m', write_pte. cbn [fst snd]. rewrite page_at_set. case_decide; [|done].
      subst. by rewrite length_insert.
    + intros p s i Hlp Hs Hi. rewrite Hread by lia. rewrite decide_False; [by apply Hent|].
      intros [-> _]. pose proof (Hinj _ _ _ Hs Ht) as ->. simpl in Hlp. lia.
  - intros vpn' Hv'. unfold leaf.
    pose proof (Z.mod_pos_bound vpn' 512 ltac:(lia)) as Hm'.
    destruct (decide (vpn' = vpn)) as [->|Hne].
    + rewrite Eq, Ht. cbv zeta. by rewrite Hread, decide_True by (done || lia).
    + destruct (T !! take 2 (indexes vpn')) as [s|] eqn:Es; [|done]. cbv zeta.
      rewrite Hread by lia. rewrite decide_False; [done|]. intros [-> Em]. apply Hne.
      apply same_slot; [done..| |done]. rewrite Eq. by eapply (pi_inj _ _ _ HI).
  - intros x Hx. unfold m', write_pte. cbn [fst snd]. rewrite page_at_set, decide_False; [done|].
    by intros ->.
Qed.

Lemma find_then_alloc_spec m pt T vpn :
  pt_inv m pt T -> 2 <= frames_left (frames m) ->
  exists m' pt' T' t n,
    find_pte_then_alloc pt vpn m = Ok ((Some (t, vpn mod 512), pt'), m') /\
    grown m m' pt pt' T T' n /\ n <= 2 /\ T' !! take 2 (indexes vpn) = Some t.
Proof.
  intros HI Hl. destruct (indexes_split vpn) as (a & b & Eq & E2 & Ha & Hb).
  destruct (walk_alloc_spec [a; b] [] (root_ppn pt) m pt T) as (m' & md' & T' & t & n & Hrun & Hg & Hn & HT);
    try done.
  { apply (pi_root _ _ _ HI). }
  { by repeat (apply Forall_cons; split; [done|]). }
  exists m', (MkPT (root_ppn pt) (data_frames pt) md'), T', t, n. split_and!; [|done|done|by rewrite Eq].
  unfold find_pte_then_alloc. rewrite Eq, E2. rewrite (st_bind_Ok _ _ _ _ _ Hrun).
  rewrite get_mut_ok; [done|]. apply Z.mod_pos_bound. lia.
Qed.

(** The outcome of [map]: one more entry, the rest of the table, the other
    frames and their use as before. *)
Record remapped (m m' : mm) (pt pt' : PageTable) (vpn : Z) (e : option Z) : Prop := {
  rm_mapping vpn' : is_vpn vpn' ->
    mapping m' pt' vpn' = if decide (vpn' = vpn) then e else mapping m pt vpn';
  rm_root : root_ppn pt' = root_ppn pt;
  rm_data : data_frames pt' = data_frames pt;
  rm_pages x : x ∉ metadata_frames pt' -> page_at m' x = page_at m x;
  rm_meta x : x ∈ metadata_frames pt' -> x ∈ metadata_frames pt \/ ~ frame_used lo (frames m) x;
  rm_used j : frame_used lo (frames m) j -> frame_used lo (frames m') j;
  rm_left : frames_left (frames m) - 2 <= frames_left (frames m');
}.

Lemma map_spec m pt T vpn ppn flags :
  pt_inv m pt T -> is_vpn vpn -> 0 <= ppn < 2 ^ 44 -> 0 <= flags < 2 ^ 8 ->
  2 <= frames_left (frames m) ->
  match mapping m pt vpn with
  | Some _ => PageTable_map pt vpn ppn flags m = Panic AssertFailed
  | None => exists pt' m' T', PageTable_map pt vpn ppn flags m = Ok (pt', m') /\
      pt_inv m' pt' T' /\ remapped m m' pt pt' vpn (Some (PTE_new ppn (Z.lor flags PTE_V)))
  end.
Proof.
  intros HI Hv Hp Hf Hl.
  destruct (find_then_alloc_spec m pt T vpn HI Hl) as (m1 & pt1 & T1 & t & n & Hrun & Hg & Hn & HT).
  pose proof Hg as [HI1 HR HD HL HP _ HU HN HF].
  assert (mapping m pt vpn = valid_entry (read_pte m1 (t, vpn mod 512))) as Em.
  { rewrite (mapping_leaf m pt T vpn HI), <- HL. unfold leaf. by rewrite HT. }
  unfold PageTable_map. rewrite (st_bind_Ok _ _ _ _ _ Hrun). rewrite Em. unfold valid_entry.
  unfold st_bind, of_option, get, check, of_res. cbn [unwrap res_bind].
  destruct (PTE_is_valid (read_pte m1 (t, vpn mod 512))) eqn:Ev; [done|]. cbn [negb assert res_bind].
  set (e := PTE_new ppn (Z.lor flags PTE_V)).
  destruct (leaf_write m1 pt1 T1 vpn t e HI1 Hv HT) as (HI2 & HL2 & HP2).
  exists pt1, (write_pte (t, vpn mod 512) e m1), T1. split_and!; [done|done|].
  split; try done.
  - intros vpn' Hv'. rewrite (mapping_leaf _ _ _ _ HI2), HL2 by done.
    unfold valid_entry, e. rewrite PTE_valid_new by done. case_decide; [done|].
    by rewrite HL, (mapping_leaf m pt T vpn' HI).
  - intros x Hx. by rewrite HP2, HP.
  - change (frames (write_pte (t, vpn mod 512) e m1)) with (frames m1). lia.
Qed.

Lemma unmap_spec m pt T vpn :
  pt_inv m pt T -> is_vpn vpn ->
  match mapping m pt vpn with
  | None => exists f, PageTable_unmap pt vpn m = Panic f
  | Some _ => exists m', PageTable_unmap pt vpn m = Ok (tt, m') /\
      pt_inv m' pt T /\ remapped m m' pt pt vpn None
  end.
Proof.
  intros HI Hv. rewrite (mapping_leaf m pt T vpn HI).
  unfold PageTable_unmap. rewrite (st_bind_Ok get _ m m m eq_refl).
  rewrite (find_pte_spec m pt T vpn HI). unfold leaf.
  destruct (T !! take 2 (indexes vpn)) as [t|] eqn:Et; [|by exists UnwrapNone].
  unfold st_bind, of_option, check, of_res. cbn [fmap option_fmap option_map unwrap res_bind].
  destruct (PTE_is_valid (read_pte m (t, vpn mod 512))) eqn:Ev; [|by exists AssertFailed]. cbn [assert res_bind].
  destruct (leaf_write m pt T vpn t PTE_empty HI Hv Et) as (HI2 & HL2 & HP2).
  eexists. split; [done|]. split; [done|]. split; try done.
  - intros vpn' Hv'. rewrite (mapping_leaf _ _ _ _ HI2), HL2 by done.
    case_decide; [done|]. by rewrite (mapping_leaf m pt T vpn' HI).
  - by left.
  - cbn. lia.
Qed.

Lemma new_spec m :
  frames_inv lo (frames m) -> 0 < frames_left (frames m) ->
  exists f m', PageTable_new m = Ok (MkPT f ∅ [f], m') /\
    pt_inv m' (MkPT f ∅ [f]) {[ [] := f ]} /\ (forall vpn, mapping m' (MkPT f ∅ [f]) vpn = None) /\
    frames_left (frames m') = frames_left (frames m) - 1 /\
    mm_alloc m = Ok (Some f, m').
Proof.
  intros HF Hl. destruct (frame_alloc_left lo _ HF Hl) as (f & fa & Hf & Hfa).
  destruct (frame_alloc_fresh lo _ _ _ HF Hf) as (HF' & Hn & Hr & Hu).
  set (m' := MkMM (<[f := zero_page]> (phys m)) fa).
  assert (page_at m' f = zero_page) as Hz by (unfold page_at, m'; cbn; by rewrite lookup_insert_eq).
  assert (pt_inv m' (MkPT f ∅ [f]) {[ [] := f ]}) as HI.
  { split; cbn [root_ppn metadata_frames].
    - apply lookup_singleton_eq.
    - intros p t [<- <-]%lookup_singleton_Some. rewrite Hz. destruct HF as [? ? _ _].
      split_and!; [lia|lia|set_solver|done].
    - intros p q t [<- _]%lookup_singleton_Some [<- _]%lookup_singleton_Some. done.
    - intros p t i _ [<- <-]%lookup_singleton_Some Hi. rewrite lookup_singleton_ne by done.
      unfold read_pte. cbn [fst snd]. rewrite Hz. unfold zero_page.
      by rewrite lookup_total_replicate_2 by lia.
    - intros p i [t [E _]%lookup_singleton_Some]. by destruct p.
    - done.
    - apply Forall_singleton, Hu. by left.
    - apply NoDup_singleton. }
  exists f, m'. split_and!; [|done| |done|].
  - unfold PageTable_new, st_bind, mm_alloc. rewrite Hf. done.
  - intros vpn. rewrite (mapping_leaf _ _ _ _ HI). unfold leaf.
    destruct (indexes_split vpn) as (a & b & -> & _). by rewrite lookup_singleton_ne.
  - unfold mm_alloc. by rewrite Hf.
Qed.

(** A table depends on its own frames only. *)
Lemma pt_inv_frame m m' pt T :
  pt_inv m pt T -> (forall x, x ∈ metadata_frames pt -> page_at m' x = page_at m x) ->
  frames_inv lo (frames m') -> Forall (frame_used lo (frames m')) (metadata_frames pt) ->
  pt_inv m' pt T /\ forall vpn, mapping m' pt vpn = mapping m pt vpn.
Proof.
  intros HI Hpg HF HU.
  assert (forall p t i, T !! p = Some t -> read_pte m' (t, i) = read_pte m (t, i)) as Hr.
  { intros p t i Hp. destruct (pi_table _ _ _ HI _ _ Hp) as (_ & Hin & _).
    unfold read_pte. cbn [fst]. by rewrite Hpg. }
  assert (pt_inv m' pt T) as HI'.
  { destruct HI as [Hroot Htab Hinj Hent Hcl _ _ Hnd]. split; try done.
    - intros p t Hp. destruct (Htab p t Hp) as (? & ? & ?). by rewrite Hpg.
    - intros p t i Hl Hp Hi. rewrite (Hr p) by done. by apply Hent. }
  split; [done|]. intros vpn. rewrite (mapping_leaf _ _ _ _ HI), (mapping_leaf _ _ _ _ HI').
  unfold leaf. destruct (T !! take 2 (indexes vpn)) eqn:E; [|done]. by rewrite (Hr _ _ _ E).
Qed.

(** The page table [pt] in memory [m] is the finite map [A]. *)
Definition refines (m : mm) (pt : PageTable) (A : gmap Z Z) : Prop :=
  (exists T, pt_inv m pt T) /\ forall vpn, is_vpn vpn -> mapping m pt vpn = A !! vpn.

(** C3: [PageTable::map] refines insertion: for an unmapped page it succeeds
    as long as two frames are left, and the new table is the old map with
    the page mapped to the given frame with the given flags and [V], no
    other translation changed and no frame but the table's own written; for
    a mapped page it panics. *)
Theorem PageTable_map_refines m pt A vpn ppn flags :
  refines m pt A -> is_vpn vpn -> 0 <= ppn < 2 ^ 44 -> 0 <= flags < 2 ^ 8 ->
  2 <= frames_left (frames m) ->
  match A !! vpn with
  | Some _ => PageTable_map pt vpn ppn flags m = Panic AssertFailed
  | None => exists pt' m', PageTable_map pt vpn ppn flags m = Ok (pt', m') /\
      refines m' pt' (<[vpn := PTE_new ppn (Z.lor flags PTE_V)]> A) /\
      (forall x, x ∉ metadata_frames pt' -> page_at m' x = page_at m x) /\
      (forall x, x ∈ metadata_frames pt' -> x ∈ metadata_frames pt \/ ~ frame_used lo (frames m) x)
  end.
Proof.
  intros [[T HI] HA] Hv Hp Hf Hl. rewrite <- HA by done.
  pose proof (map_spec m pt T vpn ppn flags HI Hv Hp Hf Hl) as HM.
  destruct (mapping m pt vpn); [done|]. destruct HM as (pt' & m' & T' & Hrun & HI' & [Hm _ _ Hpg Hmt _ _]).
  exists pt', m'. split_and!; try done. split; [by exists T'|]. intros vpn' Hv'. rewrite Hm by done.
  case_decide; [subst; by rewrite lookup_insert_eq|by rewrite lookup_insert_ne, HA].
Qed.

(** [PageTable::unmap] refines deletion: it removes exactly the mapping
    of a mapped page, and panics on an unmapped one. *)
Theorem PageTable_unmap_refines m pt A vpn :
  refines m pt A -> is_vpn vpn ->
  match A !! vpn with
  | None => exists f, PageTable_unmap pt vpn m = Panic f
  | Some _ => exists m', PageTable_unmap pt vpn m = Ok (tt, m') /\ refines m' pt (delete vpn A) /\
      (forall x, x ∉ metadata_frames pt -> page_at m' x = page_at m x)
  end.
Proof.
  intros [[T HI] HA] Hv. rewrite <- HA by done. pose proof (unmap_spec m pt T vpn HI Hv) as HM.
  destruct (mapping m pt vpn); [|done]. destruct HM as (m' & Hrun & HI' & [Hm _ _ Hpg _ _ _]).
  exists m'. split_and!; try done. split; [by exists T|]. intros vpn' Hv'. rewrite Hm by done.
  case_decide; [subst; by rewrite lookup_delete_eq|by rewrite lookup_delete_ne, HA].
Qed.

(** C33: [PageTable::translate_va] of an address in a page mapped to [ppn]
    gives the same offset in that frame, and [from_token] of a table's
    token translates as the table itself. *)
Theorem translate_va_refines m pt A vpn ppn flags off :
  refines m pt A -> is_vpn vpn -> 0 <= ppn < 2 ^ 44 -> 0 <= flags < 2 ^ 8 ->
  A !! vpn = Some (PTE_new ppn flags) -> 0 <= off < 4096 ->
  translate_va m pt (vpn * 4096 + off) = Some (ppn * 4096 + off) /\
  PageTable_translate m (PageTable_from_token (PageTable_token pt)) vpn = Some (PTE_new ppn flags).
Proof.
  intros [[T HI] HA] Hv Hp Hf HAv Hoff. pose proof (HA vpn Hv) as Hm. rewrite HAv in Hm.
  rewrite (mapping_leaf m pt T vpn HI) in Hm. unfold leaf in Hm.
  pose proof (find_pte_spec m pt T vpn HI) as Hfp.
  destruct (T !! take 2 (indexes vpn)) as [t|] eqn:Et; [|done]. cbv zeta in Hm.
  destruct (PTE_is_valid _) eqn:Ev; [|done]. injection Hm as He. cbn [fmap option_fmap option_map] in Hfp.
  assert (root_ppn (PageTable_from_token (PageTable_token pt)) = root_ppn pt) as Hroot.
  { destruct (pi_table _ _ _ HI _ _ (pi_root _ _ _ HI)) as (Hr & _). cbn [PageTable_from_token root_ppn].
    unfold PageTable_token. rewrite Z.land_lor_distr_l.
    change (Z.land (Z.shiftl 8 60) (Z.shiftl 1 44 - 1)) with 0. rewrite Z.lor_0_l.
    change (Z.land (root_ppn pt) (Z.shiftl 1 44 - 1)) with (low_bits 44 (root_ppn pt)).
    rewrite low_bits_id by lia. by apply ppn_from_id. }
  split.
  - unfold translate_va, page_floor. change PAGE_SIZE with 4096.
    rewrite (Z.add_comm (vpn * 4096)), Z.div_add, (Z.div_small off), Z.add_0_l by lia.
    rewrite Hfp. cbn [option_map]. rewrite He, PTE_ppn_new, addr_from_mul by lia.
    rewrite page_offset_mod, Z.mod_add, (Z.mod_small off) by lia. rewrite w64_id by (unfold is_u64; lia).
    unfold PhysAddr_from. by rewrite low_bits_id by (change PA_WIDTH_SV39 with 56; lia).
  - unfold PageTable_translate, find_pte in *. rewrite Hroot, Hfp. cbn [option_map]. by rewrite He.
Qed.
End table.

(** ** Witnesses *)

Definition fresh_mm : mm := MkMM ∅ (MkFrames 100 200 []).

Lemma fresh_frames : frames_inv 100 (frames fresh_mm).
Proof. split; cbn; (lia || constructor). Qed.

(** The empty table in frame 100. *)
Definition empty_pt : PageTable := MkPT 100 ∅ [100].
Definition empty_pt_mm : mm := MkMM {[100 := zero_page]} (MkFrames 101 200 []).

Lemma empty_pt_refines : refines 100 empty_pt_mm empty_pt ∅.
Proof.
  destruct (new_spec 100 fresh_mm fresh_frames) as (f & m' & Hrun & HI & Hm & _ & _); [done|].
  assert (PageTable_new fresh_mm = Ok (empty_pt, empty_pt_mm)) as Hnew by (by vm_compute).
  assert (m' = empty_pt_mm) as -> by congruence.
  assert (MkPT f ∅ [f] = empty_pt) as Hf by congruence. rewrite Hf in HI, Hm.
  split; [by eexists|]. intros vpn _. by rewrite Hm, lookup_empty.
Qed.

Lemma PageTable_map_refines_witness :
  exists pt' m', PageTable_map empty_pt 0x10 0x77 22 empty_pt_mm = Ok (pt', m') /\
    refines 100 m' pt' (<[0x10 := PTE_new 0x77 (Z.lor 22 PTE_V)]> ∅) /\
    (forall x, x ∉ metadata_frames pt' -> page_at m' x = page_at empty_pt_mm x) /\
    (forall x, x ∈ metadata_frames pt' -> x ∈ metadata_frames empty_pt \/
       ~ frame_used 100 (frames empty_pt_mm) x).
Proof.
  pose proof (PageTable_map_refines 100 empty_pt_mm empty_pt ∅ 0x10 0x77 22 empty_pt_refines
    ltac:(by vm_compute) ltac:(lia) ltac:(lia) ltac:(by vm_compute)) as H.
  rewrite lookup_empty in H. exact H.
Defined.

(** A table with page 16 mapped to frame 119. *)
Definition one_pt_run : res (PageTable * mm) := PageTable_map empty_pt 16 119 22 empty_pt_mm.
Definition one_pt : PageTable := match one_pt_run with Ok (pt, _) => pt | Panic _ => empty_pt end.
Definition one_pt_mm : mm := match one_pt_run with Ok (_, m) => m | Panic _ => empty_pt_mm end.

Lemma one_pt_refines : refines 100 one_pt_mm one_pt {[16 := PTE_new 119 23]}.
Proof.
  destruct empty_pt_refines as [[T HI] HA].
  pose proof (map_spec 100 empty_pt_mm empty_pt T 16 119 22 HI ltac:(by vm_compute) ltac:(lia) ltac:(lia)
    ltac:(by vm_compute)) as HM.
  rewrite HA in HM by (by vm_compute). rewrite lookup_empty in HM.
  destruct HM as (pt' & m' & T' & Hrun & HI' & [Hm _ _ _ _ _ _]).
  unfold one_pt, one_pt_mm, one_pt_run. rewrite Hrun. split; [by eexists|].
  intros vpn Hv. rewrite Hm by done. case_decide as E.
  - subst. by rewrite lookup_singleton_eq.
  - rewrite lookup_singleton_ne by done. rewrite HA by done. apply lookup_empty.
Qed.

Lemma PageTable_unmap_refines_witness :
  exists m', PageTable_unmap one_pt 16 one_pt_mm = Ok (tt, m') /\
    refines 100 m' one_pt (delete 16 {[16 := PTE_new 119 23]}) /\
    (forall x, x ∉ metadata_frames one_pt -> page_at m' x = page_at one_pt_mm x).
Proof.
  pose proof (PageTable_unmap_refines 100 one_pt_mm one_pt {[16 := PTE_new 119 23]} 16 one_pt_refines
    ltac:(by vm_compute)) as H.
  rewrite lookup_singleton_eq in H. exact H.
Defined.

Lemma translate_va_refines_witness :
  translate_va one_pt_mm one_pt (16 * 4096 + 5) = Some (119 * 4096 + 5) /\
  PageTable_translate one_pt_mm (PageTable_from_token (PageTable_token one_pt)) 16 = Some (PTE_new 119 23).
Proof.
  apply (translate_va_refines 100 one_pt_mm one_pt {[16 := PTE_new 119 23]} 16 119 23 5);
    [apply one_pt_refines|by vm_compute|lia|lia|apply lookup_singleton_eq|lia].
Defined.
