(* ===== verification/VirtioHal.v ===== *)
(** * Memory for the virtio devices

    [kernel/src/drivers/bus/virtio.rs]: the device drivers of the crate
    [virtio_drivers] get memory for their queues from the frame allocator and
    give it back, and translate addresses with the kernel's page table.  The
    frames of the queues are kept in [QUEUE_FRAMES] for good. *)

From S2P Require Import Prelude Config StateMonad Address FrameAllocator PageTable PageTableSpec.

Record hal := MkHal { hal_mm : mm; QUEUE_FRAMES : list PhysPageNum }.

(** [frame_allocator::alloc().unwrap()], then [QUEUE_FRAMES.push]. *)
Definition on_mm {A} (f : st mm A) : st hal A := fun s =>
  let? (a, m) := f (hal_mm s) in Ok (a, MkHal m (QUEUE_FRAMES s)).
Definition keep_frame (ppn : PhysPageNum) (s : hal) : hal := MkHal (hal_mm s) (QUEUE_FRAMES s ++ [ppn]).

(** The loop of [dma_alloc] over [i]. *)
Definition alloc_next (ppn_base i : Z) : st hal () :=
  let* o := on_mm mm_alloc in
  let* frame := of_option o in
  check (frame =? w64 (ppn_base + i)) ;*
  modify (keep_frame frame).

(** [dma_alloc] *)
Definition dma_alloc (pages : Z) : st hal Z :=
  let* o := on_mm mm_alloc in
  let* ppn_base := of_option o in
  modify (keep_frame ppn_base) ;*
  iter_st (alloc_next ppn_base) (seqZ 1 (pages - 1)) ;*
  ret (addr_from ppn_base).

(** The loop of [dma_dealloc]. *)
Fixpoint dealloc_from (pages : nat) (ppn_base : PhysPageNum) : st hal () :=
  match pages with
  | O => ret tt
  | S pages => on_mm (mm_dealloc ppn_base) ;* dealloc_from pages (step ppn_base)
  end.

(** [dma_dealloc] *)
Definition dma_dealloc (pa pages : Z) : st hal Z :=
  let* ppn_base := of_res (page_from (PhysAddr_from pa)) in
  dealloc_from (Z.to_nat pages) ppn_base ;*
  ret 0.

(** [phys_to_virt], [virt_to_phys] *)
Definition phys_to_virt (addr : Z) : Z := addr.
Definition virt_to_phys (kernel_token vaddr : Z) : st hal Z :=
  let* s := get in
  of_option (translate_va (hal_mm s) (PageTable_from_token kernel_token) (VirtAddr_from vaddr)).

(** ** Allocation while no frame was returned *)

(** The state after [n] more frames. *)
Definition bump (n : nat) (s : hal) : hal :=
  let fa := frames (hal_mm s) in let l := seqZ (current fa) (Z.of_nat n) in
  MkHal (MkMM (foldl (fun ph p => <[p := zero_page]> ph) (phys (hal_mm s)) l)
           (MkFrames (current fa + Z.of_nat n) (end_ fa) []))
    (QUEUE_FRAMES s ++ l).

Lemma bump_0 s : recycled (frames (hal_mm s)) = [] -> bump 0 s = s.
Proof.
  destruct s as [[ph [cur en rec]] q]. cbn. intros ->. unfold bump. cbn. by rewrite Z.add_0_r, app_nil_r.
Qed.

Lemma bump_add n m s : bump n (bump m s) = bump (m + n) s.
Proof.
  unfold bump. cbn [hal_mm frames phys current end_ QUEUE_FRAMES]. rewrite Nat2Z.inj_add, seqZ_app by lia.
  rewrite foldl_app, <- app_assoc. by rewrite Z.add_assoc.
Qed.

Definition roomy (lo : Z) (n : nat) (s : hal) : Prop :=
  frames_inv lo (frames (hal_mm s)) /\ recycled (frames (hal_mm s)) = [] /\
  current (frames (hal_mm s)) + Z.of_nat n <= end_ (frames (hal_mm s)).

Lemma roomy_bump lo n m s : roomy lo (n + m) s -> roomy lo m (bump n s).
Proof.
  intros ([Hr Hw _ _] & Hrec & Hroom). unfold bump. split_and!; cbn; [split; cbn; [lia|lia|constructor|constructor]|done|lia].
Qed.

Lemma alloc_roomy lo n s :
  roomy lo (S n) s ->
  on_mm mm_alloc s = Ok (Some (current (frames (hal_mm s))), MkHal (hal_mm (bump 1 s)) (QUEUE_FRAMES s)).
Proof.
  intros ([Hr Hw _ _] & Hrec & Hroom). unfold on_mm, mm_alloc, frame_alloc. rewrite Hrec.
  destruct (Z.eqb_spec (current (frames (hal_mm s))) (end_ (frames (hal_mm s)))); [lia|].
  rewrite (w64_id (current _ + 1)) by (unfold is_u64; lia). rewrite Z.add_simpl_r, w64_id by (unfold is_u64; lia).
  rewrite ppn_from_id by lia. cbn [res_bind]. unfold bump. cbn [hal_mm]. by rewrite (seqZ_cons _ 1), seqZ_nil.
Qed.

Lemma alloc_next_roomy lo n s base i :
  roomy lo (S n) s -> current (frames (hal_mm s)) = base + i -> alloc_next base i s = Ok (tt, bump 1 s).
Proof.
  intros Hs Hcur. pose proof Hs as ([Hr Hw _ _] & _ & Hroom). unfold alloc_next.
  rewrite (st_bind_Ok _ _ _ _ _ (alloc_roomy lo n s Hs)), bind_option, bind_check.
  rewrite w64_id by (unfold is_u64; lia). rewrite (proj2 (Z.eqb_eq _ _) Hcur). unfold modify, keep_frame, bump.
  cbn [hal_mm QUEUE_FRAMES]. by rewrite (seqZ_cons _ 1), seqZ_nil by lia.
Qed.

Lemma alloc_loop_roomy lo n : forall s base i,
  roomy lo n s -> current (frames (hal_mm s)) = base + i ->
  iter_st (alloc_next base) (seqZ i (Z.of_nat n)) s = Ok (tt, bump n s).
Proof.
  induction n as [|n IH]; intros s base i Hs Hcur.
  { cbn. unfold ret. rewrite bump_0; [done|apply Hs]. }
  rewrite seqZ_cons by lia. cbn [iter_st].
  rewrite (st_bind_Ok _ _ _ _ _ (alloc_next_roomy lo n s base i Hs Hcur)).
  replace (Z.pred (Z.of_nat (S n))) with (Z.of_nat n) by lia. rewrite IH; [by rewrite bump_add|by apply (roomy_bump lo 1)|].
  cbn. lia.
Qed.

Lemma clear_lookup l : forall (ph : gmap Z page) p,
  foldl (fun ph p => <[p := zero_page]> ph) ph l !! p = if decide (p ∈ l) then Some zero_page else ph !! p.
Proof.
  induction l as [|q l IH]; intros ph p; cbn [foldl]; [by rewrite decide_False by apply not_elem_of_nil|].
  rewrite IH. destruct (decide (p ∈ l)) as [Hp|Hp]; [by rewrite decide_True by (by right)|].
  destruct (decide (p = q)) as [->|Hne]; [by rewrite lookup_insert_eq, decide_True by (by left)|].
  rewrite lookup_insert_ne by done. rewrite decide_False; [done|]. by intros [?|?]%elem_of_cons.
Qed.

Lemma page_at_bump n s p :
  page_at (hal_mm (bump n s)) p =
    if decide (p ∈ seqZ (current (frames (hal_mm s))) (Z.of_nat n)) then zero_page else page_at (hal_mm s) p.
Proof. unfold bump, page_at. cbn [hal_mm phys]. rewrite clear_lookup. by case_decide. Qed.

Lemma dma_alloc_bump lo n s :
  roomy lo (S n) s -> dma_alloc (Z.of_nat (S n)) s = Ok (current (frames (hal_mm s)) * 4096, bump (S n) s).
Proof.
  intros Hs. pose proof Hs as ([Hr Hw _ _] & _ & Hroom). unfold dma_alloc.
  rewrite (st_bind_Ok _ _ _ _ _ (alloc_roomy lo n s Hs)), bind_option, bind_modify.
  replace (keep_frame _ _) with (bump 1 s).
  2:{ unfold keep_frame, bump. cbn [hal_mm QUEUE_FRAMES]. by rewrite (seqZ_cons _ 1), seqZ_nil by lia. }
  replace (Z.of_nat (S n) - 1) with (Z.of_nat n) by lia.
  rewrite (st_bind_Ok _ _ _ _ _ (alloc_loop_roomy lo n (bump 1 s) (current (frames (hal_mm s))) 1
    (roomy_bump lo 1 n s Hs) eq_refl)).
  rewrite bump_add. unfold ret. rewrite addr_from_mul by lia. done.
Qed.

(** Memory for a device.  While no frame was returned to the allocator,
    [dma_alloc] gives the address of as many cleared frames as it was asked
    for, one after the other and unused before, and keeps them for the
    device. *)
Theorem dma_alloc_contiguous lo (pages : nat) s :
  (0 < pages)%nat -> roomy lo pages s ->
  exists s', dma_alloc (Z.of_nat pages) s = Ok (current (frames (hal_mm s)) * 4096, s') /\
    frames_inv lo (frames (hal_mm s')) /\
    QUEUE_FRAMES s' = QUEUE_FRAMES s ++ seqZ (current (frames (hal_mm s))) (Z.of_nat pages) /\
    (forall p, p ∈ seqZ (current (frames (hal_mm s))) (Z.of_nat pages) ->
       ~ frame_used lo (frames (hal_mm s)) p /\ frame_used lo (frames (hal_mm s')) p /\ page_at (hal_mm s') p = zero_page) /\
    (forall p, p ∉ seqZ (current (frames (hal_mm s))) (Z.of_nat pages) -> page_at (hal_mm s') p = page_at (hal_mm s) p).
Proof.
  intros Hn Hs. destruct pages as [|n]; [lia|]. exists (bump (S n) s). split; [by eapply dma_alloc_bump|].
  pose proof (roomy_bump lo (S n) 0 s) as [Hi _]; [by rewrite Nat.add_0_r|]. split_and!; [done|done| |].
  - intros p Hp. rewrite page_at_bump, decide_True by done. apply elem_of_seqZ in Hp. pose proof Hs as ([Hr _ _ _] & _ & Hroom).
    split_and!; [unfold frame_used; lia|split; [cbn; lia|apply not_elem_of_nil]|done].
  - intros p Hp. by rewrite page_at_bump, decide_False by done.
Qed.

Definition demo_hal : hal := MkHal (MkMM ∅ (MkFrames 10 20 [])) [].

Lemma dma_alloc_contiguous_witness : exists s', dma_alloc 2 demo_hal = Ok (40960, s') /\ QUEUE_FRAMES s' = [10; 11].
Proof.
  destruct (dma_alloc_contiguous 10 2 demo_hal) as (s' & H & _ & Hq & _).
  - lia.
  - split_and!; [split; cbn; [lia|lia|constructor|constructor]|reflexivity|cbn; lia].
  - exists s'. split; [exact H|exact Hq].
Defined.

(** ** Allocation after a return *)

Lemma dealloc_from_recycled n : forall p s s',
  0 <= p -> p + Z.of_nat n < 2 ^ 64 -> dealloc_from n p s = Ok (tt, s') ->
  recycled (frames (hal_mm s')) = reverse (seqZ p (Z.of_nat n)) ++ recycled (frames (hal_mm s)).
Proof.
  induction n as [|n IH]; intros p s s' H0 Hp H; cbn [dealloc_from] in H.
  { by injection H as <-. }
  apply st_bind_inv in H as ([] & s1 & H1 & H). unfold step in H. rewrite w64_id in H by (unfold is_u64; lia).
  apply IH in H; [|lia|lia]. rewrite H. unfold on_mm, mm_dealloc, frame_dealloc in H1. inv_res. injection H1 as <-.
  cbn [hal_mm frames recycled]. rewrite (seqZ_cons p) by lia. replace (Z.pred (Z.of_nat (S n))) with (Z.of_nat n) by lia.
  by rewrite reverse_cons, <- app_assoc.
Qed.

(** Two frames on top of the allocator's stack, the higher one first. *)
Lemma descending_fails s x rest pages :
  0 <= x < 2 ^ 45 -> 2 <= pages -> recycled (frames (hal_mm s)) = x + 1 :: x :: rest ->
  dma_alloc pages s = Panic AssertFailed.
Proof.
  intros Hx Hpages Hrec. unfold dma_alloc, st_bind at 1, on_mm, mm_alloc at 1, frame_alloc. rewrite Hrec. cbn [res_bind].
  rewrite bind_option, bind_modify, (seqZ_cons 1) by lia. cbn [iter_st]. unfold st_bind at 1.
  enough (alloc_next (PhysPageNum_from (x + 1)) 1
    (keep_frame (PhysPageNum_from (x + 1)) (MkHal (MkMM (<[PhysPageNum_from (x + 1) := zero_page]> (phys (hal_mm s)))
      (MkFrames (current (frames (hal_mm s))) (end_ (frames (hal_mm s))) (x :: rest))) (QUEUE_FRAMES s))) = Panic AssertFailed)
    as E by (unfold st_bind; by rewrite E).
  unfold alloc_next, st_bind at 1, on_mm, mm_alloc, frame_alloc. cbn [keep_frame hal_mm frames recycled res_bind].
  rewrite bind_option, bind_check. unfold PhysPageNum_from. rewrite !low_bits_mod by done. change PPN_WIDTH_SV39 with 44.
  assert ((x mod 2 ^ 44 =? w64 ((x + 1) mod 2 ^ 44 + 1)) = false) as ->; [|done].
  pose proof (Z.mod_pos_bound (x + 1) (2 ^ 44) ltac:(done)). rewrite w64_id by (unfold is_u64; lia).
  apply Z.eqb_neq. Z.to_euclidean_division_equations. lia.
Qed.

(** The memory of a device cannot be used again.  After [dma_dealloc] of
    two pages or more, [dma_alloc] of two pages or more panics: the allocator
    hands the frames out again in descending order, and [dma_alloc] asserts
    that they ascend. *)
Theorem dma_realloc_panics pa (n pages : Z) s s' :
  2 <= n < 2 ^ 44 -> 2 <= pages -> dma_dealloc pa n s = Ok (0, s') -> dma_alloc pages s' = Panic AssertFailed.
Proof.
  intros Hn Hpages H. unfold dma_dealloc in H. apply st_bind_inv in H as (p & s0 & H1 & H).
  apply of_res_Ok in H1 as [H1 ->]. apply st_bind_inv in H as ([] & s1 & H & Hret). injection Hret as <-.
  assert (0 <= p < 2 ^ 44) as Hp.
  { unfold page_from in H1. inv_res. unfold page_floor, PhysAddr_from, PAGE_SIZE. rewrite low_bits_mod by done.
    change PA_WIDTH_SV39 with 56. pose proof (Z.mod_pos_bound pa (2 ^ 56) ltac:(done)).
    split; [apply Z.div_pos; lia|apply Z.div_lt_upper_bound; lia]. }
  apply dealloc_from_recycled in H; [|lia|lia]. destruct (Z.to_nat n) as [|[|k]] eqn:Ek; [lia|lia|].
  rewrite !seqZ_S, !reverse_snoc in H. cbn [app] in H.
  replace (p + Z.of_nat (S k)) with (p + Z.of_nat k + 1) in H by lia.
  eapply descending_fails; [|exact Hpages|exact H]. lia.
Qed.

Definition demo_used : hal := MkHal (MkMM ∅ (MkFrames 12 20 [])) [10; 11].
Definition demo_back : hal := MkHal (MkMM ∅ (MkFrames 12 20 [11; 10])) [10; 11].

Lemma dma_realloc_panics_witness :
  dma_dealloc 40960 2 demo_used = Ok (0, demo_back) /\ dma_alloc 2 demo_back = Panic AssertFailed.
Proof. split; [reflexivity|]. apply (dma_realloc_panics 40960 2 2 demo_used); [lia|lia|reflexivity]. Defined.
