(* ===== verification/MemorySet.v ===== *)
(** * Address spaces

    [kernel/src/mm/memory_set.rs] and the helpers of [kernel/src/mm/mod.rs]
    that reach into another address space.  A [MemorySet] is a page table and
    the list of the areas mapped in it; its operations work on the physical
    memory [mm] of [PageTable].  Symbols of the linker script and the ELF
    parser of [xmas_elf] are parameters. *)

From S2P Require Import Prelude Config Bytes StateMonad Address FrameAllocator PageTable.

(** ** Bytes of a page *)

(** [ppn.as_mut_bytes_array()] read, and with a part overwritten *)
Definition page_bytes (m : mm) (ppn : PhysPageNum) : list u8 := words_put 8 (page_at m ppn).
Definition write_bytes (ppn : PhysPageNum) (off : nat) (bs : list u8) (m : mm) : mm :=
  set_page ppn (words_get 8 512 (splice off bs (page_bytes m ppn))) m.

(** [PAGE_SIZE] as a length *)
Definition page_len : nat := Z.to_nat PAGE_SIZE.

(** ** Areas *)

Inductive MapType := Identical | Framed | Linear (pn_offset : Z).

#[global] Instance MapType_eq_dec : EqDecision MapType.
Proof. solve_decision. Defined.

Definition MapPermission_R : Z := 2.
Definition MapPermission_W : Z := 4.
Definition MapPermission_X : Z := 8.
Definition MapPermission_U : Z := 16.

Record MapArea := MkArea { vpn_range : VPNRange; map_type : MapType; map_perm : Z }.

(** [MapArea::new] *)
Definition MapArea_new (start_va end_va : VirtAddr) (ty : MapType) (perm : Z) : res MapArea :=
  let start_vpn := page_floor start_va in
  let end_vpn := page_ceil end_va in
  let? r := SimpleRange_new start_vpn end_vpn in
  Ok (MkArea r ty perm).

(** [MapArea::clone] *)
Definition MapArea_clone (self : MapArea) : res MapArea :=
  let? r := SimpleRange_new (range_start (vpn_range self)) (range_end (vpn_range self)) in
  Ok (MkArea r (map_type self) (map_perm self)).

(** The drop of an [Option<FrameTracker>]. *)
Definition drop_frame (o : option PhysPageNum) : st mm () :=
  match o with None => ret tt | Some ppn => mm_dealloc ppn end.

(** [MapArea::map_one].  [PTEFlags::from_bits] knows all eight bits, so its
    [unwrap] never fails. *)
Definition map_one (self : MapArea) (pt : PageTable) (vpn : VirtPageNum) : st mm PageTable :=
  let* (ppn, pt) :=
    match map_type self with
    | Identical => ret (vpn, pt)
    | Framed =>
        let* o := mm_alloc in
        let* frame := of_option o in
        let (old, pt) := PageTable_insert pt vpn frame in
        drop_frame old ;*
        ret (frame, pt)
    | Linear pn_offset =>
        check (vpn <? Z.shiftl 1 27) ;*
        ret (w64 (vpn + pn_offset), pt)
    end in
  PageTable_map pt vpn ppn (map_perm self).

(** [MapArea::unmap_one] *)
Definition unmap_one (self : MapArea) (pt : PageTable) (vpn : VirtPageNum) : st mm PageTable :=
  let* pt :=
    if bool_decide (map_type self = Framed) then
      let (old, pt) := PageTable_remove pt vpn in
      drop_frame old ;*
      ret pt
    else ret pt in
  PageTable_unmap pt vpn ;*
  ret pt.

(** A loop over page numbers that changes a page table. *)
Fixpoint fold_st {X S A} (f : A -> X -> st S A) (l : list X) (a : A) : st S A :=
  match l with
  | [] => ret a
  | x :: l => let* a := f a x in fold_st f l a
  end.

(** [MapArea::map], [MapArea::unmap] *)
Definition MapArea_map (self : MapArea) (pt : PageTable) : st mm PageTable :=
  fold_st (map_one self) (range_items (vpn_range self)) pt.

Definition MapArea_unmap (self : MapArea) (pt : PageTable) : st mm PageTable :=
  fold_st (unmap_one self) (range_items (vpn_range self)) pt.

(** [data.chunks(n)]; each round removes at least one byte. *)
Fixpoint chunks_fuel (fuel : nat) (n : nat) (data : list u8) : list (list u8) :=
  match fuel, data with
  | O, _ | _, [] => []
  | S fuel, _ => take n data :: chunks_fuel fuel n (drop n data)
  end.
Definition chunks (n : nat) (data : list u8) : list (list u8) := chunks_fuel (length data) n data.

(** The loop of [copy_data]. *)
Definition copy_chunk (pt : PageTable) (current_vpn : VirtPageNum) (src : list u8) :
    st mm VirtPageNum :=
  let* m := get in
  let* pte := of_option (PageTable_translate m pt current_vpn) in
  let copy_len := Nat.min (length src) page_len in
  modify (write_bytes (PTE_ppn pte) 0 (take copy_len src)) ;*
  ret (step current_vpn).

(** [MapArea::copy_data] *)
Definition copy_data (self : MapArea) (pt : PageTable) (data : list u8) : st mm () :=
  check (bool_decide (map_type self = Framed)) ;*
  match data with
  | [] => ret tt
  | _ :: _ =>
      let chunk_size := Nat.min page_len (length data) in
      fold_st (copy_chunk pt) (chunks chunk_size data) (range_start (vpn_range self)) ;*
      ret tt
  end.

(** ** Memory sets *)

Record MemorySet := MkSet { page_table : PageTable; areas : list MapArea }.

(** [MemorySet::new_bare], [translate], [token] *)
Definition new_bare : st mm MemorySet :=
  let* pt := PageTable_new in ret (MkSet pt []).

Definition MemorySet_translate (m : mm) (self : MemorySet) (vpn : VirtPageNum) : option Z :=
  PageTable_translate m (page_table self) vpn.

Definition MemorySet_token (self : MemorySet) : Z := PageTable_token (page_table self).

(** [MemorySet::push] *)
Definition push (self : MemorySet) (area : MapArea) (data : option (list u8)) : st mm MemorySet :=
  let* pt := MapArea_map area (page_table self) in
  match data with
  | Some data => copy_data area pt data
  | None => ret tt
  end ;*
  ret (MkSet pt (areas self ++ [area])).

(** [MemorySet::insert_framed_area] *)
Definition insert_framed_area (self : MemorySet) (start_va end_va : VirtAddr) (permission : Z) :
    st mm MemorySet :=
  let* area := of_res (MapArea_new start_va end_va Framed permission) in
  push self area None.

(** The first area that starts at a page, with its index. *)
Fixpoint find_area (start_vpn : VirtPageNum) (l : list MapArea) : option (nat * MapArea) :=
  match l with
  | [] => None
  | a :: l =>
      if range_start (vpn_range a) =? start_vpn then Some (O, a)
      else match find_area start_vpn l with
           | Some (i, a) => Some (S i, a)
           | None => None
           end
  end.

(** [MemorySet::remove_area_with_start_vpn] *)
Definition remove_area_with_start_vpn (self : MemorySet) (start_vpn : VirtPageNum) :
    st mm MemorySet :=
  match find_area start_vpn (areas self) with
  | Some (idx, area) =>
      let* pt := MapArea_unmap area (page_table self) in
      ret (MkSet pt (delete idx (areas self)))
  | None => ret self
  end.

(** [MemorySet::recycle_data_pages] *)
Definition recycle_data_pages (self : MemorySet) : MemorySet := MkSet (page_table self) [].

(** The drop of a memory set is that of its page table: areas own nothing. *)
Definition MemorySet_drop (self : MemorySet) : st mm () := PageTable_drop (page_table self).

(** The symbols of the linker script. *)
Record symbols := {
  stext : Z; etext : Z; srodata : Z; erodata : Z; sdata : Z; edata : Z;
  sbss_with_stack : Z; ebss : Z; ekernel : Z; strampoline : Z;
}.

(** What [from_elf] uses of [xmas_elf]: the parsed file, and of a program
    header its type (loadable or not, or an error), addresses and flags. *)
Record ProgramHeader := {
  get_type : option bool;
  virtual_addr : Z; mem_size : Z; ph_offset : Z; file_size : Z;
  is_read : bool; is_write : bool; is_execute : bool;
}.
Record ElfFile := {
  magic : list Z;
  ph_count : Z;
  program_header : Z -> option ProgramHeader;
  entry_point : Z;
}.

Section spaces.
Context (sym : symbols) (ElfFile_new : list u8 -> option ElfFile).

(** [MemorySet::map_trampoline] *)
Definition map_trampoline (self : MemorySet) : st mm MemorySet :=
  let* vpn := of_res (page_from (VirtAddr_from TRAMPOLINE)) in
  let* ppn := of_res (page_from (PhysAddr_from (strampoline sym))) in
  let* pt := PageTable_map (page_table self) vpn ppn (Z.lor PTE_R PTE_X) in
  ret (MkSet pt (areas self)).

(** Copying one page between two spaces. *)
Definition copy_page (src dst : MemorySet) (vpn : VirtPageNum) : st mm () :=
  let* m := get in
  let* src_pte := of_option (MemorySet_translate m src vpn) in
  let* dst_pte := of_option (MemorySet_translate m dst vpn) in
  modify (write_bytes (PTE_ppn dst_pte) 0 (page_bytes m (PTE_ppn src_pte))).

Definition clone_area (src dst : MemorySet) (area : MapArea) : st mm MemorySet :=
  let* new_area := of_res (MapArea_clone area) in
  let* dst := push dst new_area None in
  iter_st (copy_page src dst) (range_items (vpn_range area)) ;*
  ret dst.

(** [MemorySet::clone] *)
Definition MemorySet_clone (self : MemorySet) : st mm MemorySet :=
  let* memory_set := new_bare in
  let* memory_set := map_trampoline memory_set in
  fold_st (clone_area self) (areas self) memory_set.

Definition push_identical (start end_ perm : Z) (self : MemorySet) : st mm MemorySet :=
  let* area := of_res (MapArea_new (VirtAddr_from start) (VirtAddr_from end_) Identical perm) in
  push self area None.

(** [MemorySet::new_kernel] *)
Definition new_kernel : st mm MemorySet :=
  let RX := Z.lor MapPermission_R MapPermission_X in
  let RW := Z.lor MapPermission_R MapPermission_W in
  let* ms := new_bare in
  let* ms := map_trampoline ms in
  let* ms := push_identical (stext sym) (etext sym) RX ms in
  let* ms := push_identical (srodata sym) (erodata sym) MapPermission_R ms in
  let* ms := push_identical (sdata sym) (edata sym) RW ms in
  let* ms := push_identical (sbss_with_stack sym) (ebss sym) RW ms in
  let* ms := push_identical (ekernel sym) MEMORY_END RW ms in
  fold_st (fun ms pair => push_identical pair.1 (w64 (pair.1 + pair.2)) RW ms) MMIO ms.

(** The permissions [from_elf] gives a segment. *)
Definition segment_perm (ph : ProgramHeader) : Z :=
  let p := MapPermission_U in
  let p := if is_read ph then Z.lor p MapPermission_R else p in
  let p := if is_write ph then Z.lor p MapPermission_W else p in
  if is_execute ph then Z.lor p MapPermission_X else p.

(** [&input[from..to]] *)
Definition input_range (input : list u8) (from to : Z) : res (list u8) :=
  if (from <=? to) && (to <=? Z.of_nat (length input))
  then Ok (slice (Z.to_nat from) (Z.to_nat (to - from)) input)
  else Panic IndexOutOfBounds.

(** One round of the loop of [from_elf]; the state of the loop is the memory
    set and [max_end_vpn]. *)
Definition load_segment (elf_data : list u8) (elf : ElfFile) (acc : MemorySet * VirtPageNum) (i : Z) :
    st mm (MemorySet * VirtPageNum) :=
  let* ph := of_option (program_header elf i) in
  let* load := of_option (get_type ph) in
  if load then
    let start_va := VirtAddr_from (virtual_addr ph) in
    let end_va := VirtAddr_from (w64 (virtual_addr ph + mem_size ph)) in
    let* area := of_res (MapArea_new start_va end_va Framed (segment_perm ph)) in
    let max_end_vpn := range_end (vpn_range area) in
    let* data := of_res (input_range elf_data (ph_offset ph) (w64 (ph_offset ph + file_size ph))) in
    let* ms := push acc.1 area (Some data) in
    ret (ms, max_end_vpn)
  else ret acc.

(** [MemorySet::from_elf] *)
Definition from_elf (elf_data : list u8) : st mm (MemorySet * Z * Z) :=
  let* ms := new_bare in
  let* ms := map_trampoline ms in
  let* elf := of_option (ElfFile_new elf_data) in
  check (bool_decide (magic elf = [0x7f; 0x45; 0x4c; 0x46])) ;*
  let* (ms, max_end_vpn) := fold_st (load_segment elf_data elf) (seqZ 0 (ph_count elf)) (ms, 0) in
  let max_end_va := addr_from max_end_vpn in
  let user_stack_base := w64 (usize_from_va max_end_va + PAGE_SIZE) in
  ret (ms, user_stack_base, entry_point elf).
End spaces.

(** ** Reaching into another address space *)

(** A slice [&mut page[lo..hi]] of a physical page. *)
Record segment := MkSeg { seg_ppn : PhysPageNum; seg_lo : Z; seg_hi : Z }.

(** The loop of [translated_byte_buffer]. *)
Fixpoint byte_buffer_loop (fuel : nat) (m : mm) (pt : PageTable) (start end_ : Z) : res (list segment) :=
  if start <? end_ then
    match fuel with
    | O => Panic OutOfFuel
    | S fuel =>
        let start_va := VirtAddr_from start in
        let vpn := page_floor start_va in
        let? pte := unwrap (PageTable_translate m pt vpn) in
        let end_va := Z.min (addr_from (step vpn)) (VirtAddr_from end_) in
        let hi := if page_offset end_va =? 0 then PAGE_SIZE else page_offset end_va in
        let? _ := (if page_offset start_va <=? hi then Ok tt else Panic IndexOutOfBounds) in
        let? rest := byte_buffer_loop fuel m pt (usize_from_va end_va) end_ in
        Ok (MkSeg (PTE_ppn pte) (page_offset start_va) hi :: rest)
    end
  else Ok [].

(** Every round but the last ends at a page boundary. *)
Definition byte_buffer_fuel (len : Z) : nat := Z.to_nat (len / PAGE_SIZE + 2).

(** [translated_byte_buffer] *)
Definition translated_byte_buffer (m : mm) (token ptr len : Z) : res (list segment) :=
  byte_buffer_loop (byte_buffer_fuel len) m (PageTable_from_token token) ptr (w64 (ptr + len)).

(** The bytes behind the slices. *)
Definition segment_bytes (m : mm) (s : segment) : list u8 :=
  slice (Z.to_nat (seg_lo s)) (Z.to_nat (seg_hi s - seg_lo s)) (page_bytes m (seg_ppn s)).

(** [UserBuffer::len] *)
Definition UserBuffer_len (buffers : list segment) : Z :=
  foldr (fun s n => (seg_hi s - seg_lo s) + n) 0 buffers.

(** The byte at a physical address. *)
Definition phys_byte (m : mm) (pa : PhysAddr) : u8 :=
  nth (Z.to_nat (pa mod PAGE_SIZE)) (page_bytes m (pa / PAGE_SIZE)) Byte.x00.

(** The byte a program loads from its address [va]. *)
Definition user_load (m : mm) (pt : PageTable) (va : Z) : res u8 :=
  let? pa := unwrap (translate_va m pt (VirtAddr_from va)) in
  Ok (phys_byte m pa).

(** [PhysAddr::as_ref] and [as_mut_ref]: [unwrap] fails on the null pointer. *)
Definition as_mut_ref (pa : PhysAddr) : res PhysAddr :=
  if pa =? 0 then Panic UnwrapNone else Ok pa.

(** The byte the kernel reads at a user address: [translate_va] and
    [as_mut_ref]. *)
Definition user_byte (m : mm) (pt : PageTable) (va : Z) : res u8 :=
  let? pa := unwrap (translate_va m pt (VirtAddr_from va)) in
  let? pa := as_mut_ref pa in
  Ok (phys_byte m pa).

(** [string.push(ch as char)]: the bytes of the character [ch] in UTF-8.  A
    byte from 0x80 on is taken for a Latin-1 character and takes two. *)
Definition char_utf8 (ch : u8) : list u8 :=
  let z := Z.of_N (Byte.to_N ch) in
  if z <? 128 then [ch]
  else [byte.of_Z (Z.lor 192 (Z.shiftr z 6)); byte.of_Z (Z.lor 128 (Z.land z 63))].

(** [translated_str]; the loop ends at the first zero byte, and [fuel] bounds
    the length of the string. *)
Fixpoint translated_str_loop (fuel : nat) (m : mm) (pt : PageTable) (va : Z) : res (list u8) :=
  match fuel with
  | O => Panic OutOfFuel
  | S fuel =>
      let? ch := user_byte m pt va in
      if Byte.eqb ch Byte.x00 then Ok []
      else
        let? rest := translated_str_loop fuel m pt (w64 (va + 1)) in
        Ok (char_utf8 ch ++ rest)
  end.

Definition translated_str (fuel : nat) (m : mm) (token ptr : Z) : res (list u8) :=
  translated_str_loop fuel m (PageTable_from_token token) ptr.

(** [translated_ref] and [translated_mut_ref]: the physical address behind a
    user pointer. *)
Definition translated_ref (m : mm) (token ptr : Z) : res PhysAddr :=
  let? pa := unwrap (translate_va m (PageTable_from_token token) (VirtAddr_from ptr)) in
  as_mut_ref pa.
