(* ===== verification/MemorySetSpec.v ===== *)
(** * Correctness of address spaces

    A space owns the frames of its page table and of its framed pages.  The
    theorems say what mapping, unmapping, copying and dropping do to the
    space, and that they touch no frame another space owns. *)

From stdpp Require Import sorting.
From S2P Require Import Prelude Config Bytes StateMonad Address FrameAllocator PageTable PageTableSpec.
From S2P Require Import MemorySet.

Definition page_wf (p : page) : Prop := words_wf 8 512 p.

Lemma zero_page_wf : page_wf zero_page.
Proof. split; [apply length_replicate|]. apply Forall_replicate. lia. Qed.

Section spaces.
Context (lo : Z).

Definition used (m : mm) (x : Z) : Prop := frame_used lo (frames m) x.

(** The frames a page table owns. *)
Definition owned (pt : PageTable) (x : Z) : Prop :=
  x ∈ metadata_frames pt \/ exists vpn, data_frames pt !! vpn = Some x.

Record space_inv (m : mm) (pt : PageTable) : Prop := {
  sp_table : exists T, pt_inv lo m pt T;
  sp_data vpn f : data_frames pt !! vpn = Some f ->
    is_vpn vpn /\ used m f /\ (f ∉ metadata_frames pt) /\ page_wf (page_at m f) /\
    exists flags, 0 <= flags < 2 ^ 8 /\ mapping m pt vpn = Some (PTE_new f flags);
  sp_inj vpn vpn' f : data_frames pt !! vpn = Some f -> data_frames pt !! vpn' = Some f -> vpn = vpn';
}.

Lemma owned_used m pt x : space_inv m pt -> owned pt x -> used m x.
Proof.
  intros [[T HI] Hd _] [Hx|[v Hv]]; [|by apply Hd in Hv as (_ & ? & _)].
  pose proof (pi_used _ _ _ _ HI) as Hu. rewrite Forall_forall in Hu. by apply Hu.
Qed.

Lemma space_frames m pt : space_inv m pt -> frames_inv lo (frames m).
Proof. intros [[T HI] _ _]. apply HI. Qed.

(** A space depends on the frames it owns only. *)
Lemma space_frame m m' pt :
  space_inv m pt -> (forall x, owned pt x -> page_at m' x = page_at m x) ->
  frames_inv lo (frames m') -> (forall x, owned pt x -> used m' x) ->
  space_inv m' pt /\ forall vpn, mapping m' pt vpn = mapping m pt vpn.
Proof.
  intros [[T HI] Hd Hj] Hpg HF HU.
  destruct (pt_inv_frame lo m m' pt T HI) as [HI' Hm]; [|done| |].
  - intros x Hx. apply Hpg. by left.
  - apply Forall_forall. intros x Hx. apply HU. by left.
  - split; [|done]. split; [by exists T| |done]. intros v f Hv.
    destruct (Hd v f Hv) as (? & ? & ? & Hw & ?). rewrite Hm, Hpg by (right; by exists v).
    split_and!; try done. apply HU. right. by exists v.
Qed.

(** What an operation that grows a space [pt] leaves alone, using at most
    [n] frames. *)
Record grows (m : mm) (pt : PageTable) (m' : mm) (pt' : PageTable) (n : Z) : Prop := {
  gr_used x : used m x -> used m' x;
  gr_pages x : used m x -> ~ owned pt x -> page_at m' x = page_at m x;
  gr_owned x : owned pt' x -> owned pt x \/ ~ used m x;
  gr_left : frames_left (frames m) - n <= frames_left (frames m');
}.

Lemma grows_refl m pt : grows m pt m pt 0.
Proof. split; try done; [by left|lia]. Qed.

Lemma grows_trans m1 m2 m3 pt1 pt2 pt3 a b :
  grows m1 pt1 m2 pt2 a -> grows m2 pt2 m3 pt3 b -> grows m1 pt1 m3 pt3 (a + b).
Proof.
  intros [U1 P1 O1 L1] [U2 P2 O2 L2]. split; [auto| | |lia].
  - intros x Hu Ho. rewrite P2, P1; auto. intros H2. destruct (O1 x H2); [done|by auto].
  - intros x H3. destruct (O2 x H3) as [H2|Hn]; [by apply O1|]. right. auto.
Qed.

(** ** Mapping a framed page *)

Lemma alloc_ok m :
  frames_inv lo (frames m) -> 0 < frames_left (frames m) ->
  exists f m', mm_alloc m = Ok (Some f, m') /\ frames_inv lo (frames m') /\
    0 <= f < 2 ^ 44 /\ ~ used m f /\ (forall x, used m' x <-> x = f \/ used m x) /\
    page_at m' f = zero_page /\ (forall x, x <> f -> page_at m' x = page_at m x) /\
    frames_left (frames m') = frames_left (frames m) - 1.
Proof.
  intros HF Hl. destruct (frame_alloc_left lo _ HF Hl) as (f & fa & Hf & Hfa).
  destruct (frame_alloc_fresh lo _ _ _ HF Hf) as (HF' & Hn & Hr & Hu).
  exists f, (MkMM (<[f := zero_page]> (phys m)) fa). unfold mm_alloc. rewrite Hf.
  destruct HF as [? ? _ _]. split_and!; try done; try lia.
  - unfold page_at. cbn. by rewrite lookup_insert_eq.
  - intros x Hx. unfold page_at. cbn. by rewrite lookup_insert_ne.
Qed.

(** The pages [l] of an area with permissions [perm] are mapped to new,
    zeroed frames, and nothing else changed. *)
Record filled (m : mm) (pt : PageTable) (m' : mm) (pt' : PageTable) (l : list Z) (perm : Z) : Prop := {
  fl_inv : space_inv m' pt';
  fl_new v : v ∈ l -> exists f, data_frames pt' !! v = Some f /\
    mapping m' pt' v = Some (PTE_new f (Z.lor perm PTE_V)) /\ page_at m' f = zero_page /\ ~ used m f;
  fl_data v : v ∉ l -> data_frames pt' !! v = data_frames pt !! v;
  fl_mapping v : is_vpn v -> v ∉ l -> mapping m' pt' v = mapping m pt v;
  fl_pages v g : data_frames pt !! v = Some g -> page_at m' g = page_at m g;
  fl_grows : grows m pt m' pt' (3 * Z.of_nat (length l));
}.

Lemma space_unmapped m pt v : space_inv m pt -> mapping m pt v = None -> data_frames pt !! v = None.
Proof.
  intros HS Hn. destruct (data_frames pt !! v) as [f|] eqn:E; [|done].
  destruct (sp_data _ _ HS v f E) as (_ & _ & _ & _ & fl & _ & Hm). congruence.
Qed.

Lemma map_one_run area m pt v :
  map_type area = Framed -> data_frames pt !! v = None ->
  forall f m1, mm_alloc m = Ok (Some f, m1) ->
  map_one area pt v m =
    PageTable_map (MkPT (root_ppn pt) (<[v := f]> (data_frames pt)) (metadata_frames pt)) v f
      (map_perm area) m1.
Proof.
  intros Ht Hd f m1 Ha. unfold map_one. rewrite Ht.
  unfold st_bind at 1 2. rewrite Ha. cbn [res_bind]. unfold PageTable_insert. rewrite Hd. done.
Qed.

Lemma map_one_framed area m pt v :
  space_inv m pt -> map_type area = Framed -> 0 <= map_perm area < 2 ^ 8 -> is_vpn v ->
  mapping m pt v = None -> 3 <= frames_left (frames m) ->
  exists pt' m', map_one area pt v m = Ok (pt', m') /\ filled m pt m' pt' [v] (map_perm area).
Proof.
  intros HS Ht Hp Hv Hnone Hl. pose proof (space_unmapped m pt v HS Hnone) as Hd.
  destruct (alloc_ok m (space_frames _ _ HS) ltac:(lia))
    as (f & m1 & Ha & HF1 & Hf & Hnu & Hu1 & Hz & Hpg1 & Hl1).
  rewrite (map_one_run area m pt v Ht Hd f m1 Ha).
  set (pt1 := MkPT (root_ppn pt) (<[v := f]> (data_frames pt)) (metadata_frames pt)).
  destruct HS as [[T HI] Hdata Hinj].
  assert (forall x, x ∈ metadata_frames pt -> used m x) as Hmu.
  { intros x Hx. pose proof (pi_used _ _ _ _ HI) as Hu. rewrite Forall_forall in Hu. by apply Hu. }
  destruct (pt_inv_frame lo m m1 pt T HI) as [HI1 Hm1]; [|done| |].
  { intros x Hx. apply Hpg1. intros ->. by apply Hnu, Hmu. }
  { apply Forall_forall. intros x Hx. apply Hu1. right. by apply Hmu. }
  assert (pt_inv lo m1 pt1 T) as HIp by (destruct HI1; by split).
  assert (forall w, mapping m1 pt1 w = mapping m pt w) as Hmp by exact Hm1.
  pose proof (map_spec lo m1 pt1 T v f (map_perm area) HIp Hv Hf Hp ltac:(lia)) as HM.
  rewrite Hmp, Hnone in HM. destruct HM as (pt' & m' & T' & Hrun & HI' & [Rm Rr Rd Rp Rmeta Ru Rl]).
  exists pt', m'. split; [done|]. cbn [data_frames pt1] in Rd.
  assert (forall x, x ∈ metadata_frames pt' -> x ∈ metadata_frames pt \/ ~ used m1 x) as Hmt by exact Rmeta.
  assert (forall x, used m x -> x ∉ metadata_frames pt -> page_at m' x = page_at m x) as Hkeep.
  { intros x Hx Hn. rewrite Rp; [apply Hpg1; by intros ->|]. intros Hin.
    destruct (Hmt x Hin) as [?|Hn1]; [done|]. apply Hn1, Hu1. by right. }
  assert (f ∉ metadata_frames pt') as Hfm.
  { intros Hin. destruct (Hmt f Hin) as [?|Hn1]; [by apply Hnu, Hmu|]. apply Hn1, Hu1. by left. }
  assert (page_at m' f = zero_page) as Hfz by (by rewrite Rp).
  assert (mapping m' pt' v = Some (PTE_new f (Z.lor (map_perm area) PTE_V))) as Hmv
    by (rewrite Rm, decide_True by done; done).
  split.
  - split; [by exists T'| |].
    + intros w g. rewrite Rd. intros [[<- <-]|[Hne Hw]]%lookup_insert_Some.
      * split_and!; try done; [apply Ru, Hu1; by left|rewrite Hfz; apply zero_page_wf|].
        eexists. split; [|done]. by apply lor_range.
      * destruct (Hdata w g Hw) as (Hwv & Hug & Hgm & Hwf & fl & Hfl & Hmg).
        rewrite Rm, decide_False, Hmp by done.
        split_and!; try done; [apply Ru, Hu1; by right| |by rewrite Hkeep|by exists fl].
        intros Hin. destruct (Hmt g Hin) as [?|Hn1]; [done|]. apply Hn1, Hu1. by right.
    + intros w w' g. rewrite Rd. intros [[<- <-]|[Hw Hg]]%lookup_insert_Some [[<- E]|[Hw' Hg']]%lookup_insert_Some.
      * done.
      * destruct (Hdata w' f Hg') as (_ & ? & _). done.
      * subst g. destruct (Hdata w f Hg) as (_ & ? & _). done.
      * by eapply Hinj.
  - intros w ->%list_elem_of_singleton. exists f. rewrite Rd, lookup_insert_eq. done.
  - intros w Hw. rewrite Rd, lookup_insert_ne; [done|]. set_solver.
  - intros w Hwv Hw. rewrite Rm, decide_False, Hmp by (done || set_solver). done.
  - intros w g Hw. destruct (Hdata w g Hw) as (_ & ? & ? & _). by apply Hkeep.
  - split.
    + intros x Hx. apply Ru, Hu1. by right.
    + intros x Hx Ho. apply Hkeep; [done|]. intros ?. apply Ho. by left.
    + intros x [Hin|[w Hw]].
      * destruct (Hmt x Hin) as [?|Hn1]; [left; by left|]. right. intros Hx. apply Hn1, Hu1. by right.
      * rewrite Rd in Hw. apply lookup_insert_Some in Hw as [[_ <-]|[_ Hw]]; [by right|].
        left. right. by exists w.
    + cbn. lia.
Qed.

Lemma filled_nil m pt perm : space_inv m pt -> filled m pt m pt [] perm.
Proof. intros HS. split; try done; [intros v Hv; by apply not_elem_of_nil in Hv|apply grows_refl]. Qed.

Lemma filled_cons m1 m2 m3 pt1 pt2 pt3 v l perm :
  data_frames pt1 !! v = None -> is_vpn v -> v ∉ l ->
  filled m1 pt1 m2 pt2 [v] perm -> filled m2 pt2 m3 pt3 l perm -> filled m1 pt1 m3 pt3 (v :: l) perm.
Proof.
  intros Hd Hv Hvl [I1 N1 D1 M1 P1 G1] [I2 N2 D2 M2 P2 G2].
  assert (forall w, w <> v -> w ∉ [v]) as Hne by set_solver. split.
  - done.
  - intros w [->|Hw]%elem_of_cons.
    + destruct (N1 v ltac:(set_solver)) as (f & Hf & Hm & Hz & Hn). exists f.
      rewrite D2, M2 by done. split_and!; try done. by rewrite (P2 _ _ Hf).
    + destruct (N2 w Hw) as (f & ? & ? & ? & Hn). exists f. split_and!; try done.
      intros Hu. by apply Hn, (gr_used _ _ _ _ _ G1).
  - intros w [? ?]%not_elem_of_cons. rewrite D2, D1 by auto. done.
  - intros w Hwv [? ?]%not_elem_of_cons. rewrite M2, M1 by auto. done.
  - intros w g Hg. assert (w <> v) by congruence.
    rewrite (P2 w), (P1 w); [done|done|]. by rewrite D1 by auto.
  - replace (3 * Z.of_nat (length (v :: l))) with (3 * Z.of_nat (length [v]) + 3 * Z.of_nat (length l))
      by (cbn [length]; lia). by eapply grows_trans.
Qed.

(** [MapArea::map] of a framed area *)
Lemma map_pages_framed area l : forall m pt,
  space_inv m pt -> map_type area = Framed -> 0 <= map_perm area < 2 ^ 8 ->
  NoDup l -> Forall is_vpn l -> Forall (fun v => mapping m pt v = None) l ->
  3 * Z.of_nat (length l) <= frames_left (frames m) ->
  exists pt' m', fold_st (map_one area) l pt m = Ok (pt', m') /\ filled m pt m' pt' l (map_perm area).
Proof.
  induction l as [|v l IH]; intros m pt HS Ht Hp Hnd Hv Hn Hl.
  { exists pt, m. split; [done|]. by apply filled_nil. }
  apply NoDup_cons in Hnd as [Hvl Hnd]. apply Forall_cons in Hv as [Hv Hvs].
  apply Forall_cons in Hn as [Hn Hns]. cbn [length] in Hl.
  destruct (map_one_framed area m pt v) as (pt1 & m1 & Hrun & Hf1); try done; [lia|].
  destruct (IH m1 pt1) as (pt2 & m2 & Hrun2 & Hf2); try done.
  - apply Hf1.
  - rewrite Forall_forall in Hns, Hvs |- *. intros w Hw. rewrite (fl_mapping _ _ _ _ _ _ Hf1); auto.
    intros ->%list_elem_of_singleton. done.
  - pose proof (gr_left _ _ _ _ _ (fl_grows _ _ _ _ _ _ Hf1)) as HL. cbn in HL. lia.
  - exists pt2, m2. cbn [fold_st]. rewrite (st_bind_Ok _ _ _ _ _ Hrun). split; [done|].
    eapply filled_cons; eauto. by eapply space_unmapped.
Qed.

(** ** Copying pages *)

Lemma page_at_set_page m ppn p q :
  page_at (set_page ppn p m) q = if decide (q = ppn) then p else page_at m q.
Proof. apply page_at_set. Qed.

Lemma length_page_bytes m x : length (page_at m x) = 512%nat -> length (page_bytes m x) = 4096%nat.
Proof. intros H. unfold page_bytes. by rewrite length_words_put, H. Qed.

Lemma write_page m x y :
  page_wf (page_at m x) -> length (page_at m y) = 512%nat ->
  write_bytes y 0 (page_bytes m x) m = set_page y (page_at m x) m.
Proof.
  intros [Hl Hw] Hy. unfold write_bytes. f_equal. rewrite splice_all.
  - unfold page_bytes. rewrite <- Hl. by apply words_get_put.
  - by rewrite !length_page_bytes.
Qed.

(** What a data page of a space translates to. *)
Lemma translate_data m pt v f :
  space_inv m pt -> data_frames pt !! v = Some f ->
  exists pte, PageTable_translate m pt v = Some pte /\ PTE_ppn pte = f.
Proof.
  intros HS Hv. destruct (sp_data _ _ HS v f Hv) as (_ & Hu & _ & _ & fl & Hfl & Hm).
  unfold mapping in Hm. destruct (PageTable_translate m pt v) as [e|]; [|done].
  exists e. split; [done|]. destruct (PTE_is_valid e); [|done]. injection Hm as ->.
  apply PTE_ppn_new; [|done]. destruct (space_frames _ _ HS) as [? ? _ _]. destruct Hu as [? _]. lia.
Qed.

Lemma space_write m pt v g p :
  space_inv m pt -> data_frames pt !! v = Some g -> page_wf p ->
  space_inv (set_page g p m) pt /\ forall w, mapping (set_page g p m) pt w = mapping m pt w.
Proof.
  intros [[T HI] Hd Hj] Hg Hp. destruct (Hd v g Hg) as (_ & _ & Hgm & _).
  destruct (pt_inv_frame lo m (set_page g p m) pt T HI) as [HI' Hm].
  - intros x Hx. rewrite page_at_set_page, decide_False; [done|]. by intros ->.
  - apply HI.
  - apply HI.
  - split; [|done]. split; [by exists T| |done]. intros w h Hw. rewrite Hm, page_at_set_page.
    destruct (Hd w h Hw) as (? & ? & ? & ? & ?). split_and!; try done. by case_decide.
Qed.

(** Two spaces share no frame. *)
Definition apart (pt1 pt2 : PageTable) : Prop := forall x, owned pt1 x -> ~ owned pt2 x.

Lemma copy_page_spec src dst m v f g :
  space_inv m (page_table src) -> space_inv m (page_table dst) ->
  apart (page_table src) (page_table dst) ->
  data_frames (page_table src) !! v = Some f -> data_frames (page_table dst) !! v = Some g ->
  copy_page src dst v m = Ok (tt, set_page g (page_at m f) m) /\
  space_inv (set_page g (page_at m f) m) (page_table src) /\
  space_inv (set_page g (page_at m f) m) (page_table dst) /\
  forall w, mapping (set_page g (page_at m f) m) (page_table dst) w = mapping m (page_table dst) w.
Proof.
  intros HS HD Hap Hf Hg. destruct (translate_data _ _ _ _ HS Hf) as (e & Ee & Epf).
  destruct (translate_data _ _ _ _ HD Hg) as (e' & Ee' & Epg).
  destruct (sp_data _ _ HS v f Hf) as (_ & Huf & _ & Hwf & _).
  destruct (sp_data _ _ HD v g Hg) as (_ & Hug & Hgm & [Hwg _] & _).
  assert (~ owned (page_table src) g) as Hgs.
  { intros Ho. apply (Hap g Ho). right. by exists v. }
  set (m' := set_page g (page_at m f) m).
  assert (forall x, page_at m' x = if decide (x = g) then page_at m f else page_at m x) as Hpg
    by (intros x; apply page_at_set).
  destruct (space_frame m m' (page_table src) HS) as [HS' _].
  { intros x Hx. rewrite Hpg, decide_False; [done|]. by intros ->. }
  { apply (space_frames _ _ HS). }
  { intros x. by apply (owned_used m). }
  destruct (space_write m (page_table dst) v g (page_at m f) HD Hg Hwf) as [HD' HmD].
  split_and!; try done.
  unfold copy_page, MemorySet_translate, st_bind, get, of_option, of_res, modify.
  cbn [res_bind]. rewrite Ee, Ee'. cbn [unwrap res_bind]. rewrite Epf, Epg. by rewrite write_page.
Qed.

Lemma copy_pages_spec src dst l : forall m,
  space_inv m (page_table src) -> space_inv m (page_table dst) ->
  apart (page_table src) (page_table dst) -> NoDup l ->
  Forall (fun v => is_Some (data_frames (page_table src) !! v) /\
                   is_Some (data_frames (page_table dst) !! v)) l ->
  exists m', iter_st (copy_page src dst) l m = Ok (tt, m') /\
    space_inv m' (page_table src) /\ space_inv m' (page_table dst) /\ frames m' = frames m /\
    (forall w, mapping m' (page_table dst) w = mapping m (page_table dst) w) /\
    (forall v f g, v ∈ l -> data_frames (page_table src) !! v = Some f ->
       data_frames (page_table dst) !! v = Some g -> page_at m' g = page_at m f) /\
    (forall x, (forall v, v ∈ l -> data_frames (page_table dst) !! v <> Some x) ->
       page_at m' x = page_at m x).
Proof.
  induction l as [|v l IH]; intros m HS HD Hap Hnd Hv.
  { exists m. split_and!; try done. intros v f g Hv'. by apply not_elem_of_nil in Hv'. }
  apply NoDup_cons in Hnd as [Hvl Hnd]. apply Forall_cons in Hv as [[[f Hf] [g Hg]] Hvs].
  destruct (copy_page_spec src dst m v f g HS HD Hap Hf Hg) as (Hrun & HS1 & HD1 & Hm1).
  set (m1 := set_page g (page_at m f) m) in *.
  destruct (IH m1 HS1 HD1 Hap Hnd Hvs) as (m' & Hrun' & HS' & HD' & Hfr & Hm & Hc & Hk).
  assert (forall x, page_at m1 x = if decide (x = g) then page_at m f else page_at m x) as Hpg
    by (intros x; apply page_at_set).
  assert (forall w h, w <> v -> data_frames (page_table dst) !! w = Some h -> h <> g) as Hgne.
  { intros w h Hw Hh ->. by apply Hw, (sp_inj _ _ HD w v g). }
  exists m'. cbn [iter_st]. rewrite (st_bind_Ok _ _ _ _ _ Hrun). split_and!; try done.
  - intros w. by rewrite Hm, Hm1.
  - intros w f' g' [->|Hw]%elem_of_cons Hf' Hg'.
    + simplify_eq. rewrite Hk, Hpg, decide_True; [done|done|]. intros w Hw Hwg.
      assert (w <> v) by (intros ->; done). by apply (Hgne w g).
    + rewrite (Hc w f' g') by done. rewrite Hpg, decide_False; [done|]. intros ->.
      apply (Hap g); [right; by exists w|right; by exists v].
  - intros x Hx. rewrite Hk, Hpg, decide_False; [done| |].
    + intros ->. by apply (Hx v ltac:(set_solver)).
    + intros w Hw. apply Hx. set_solver.
Qed.

(** ** Cloning a space *)

Definition area_ok (a : MapArea) : Prop :=
  map_type a = Framed /\ 0 <= map_perm a < 2 ^ 8 /\
  0 <= range_start (vpn_range a) <= range_end (vpn_range a) /\ range_end (vpn_range a) <= 2 ^ 27.

Abbreviation area_vpns a := (range_items (vpn_range a)).
Definition area_pages (a : MapArea) : list (Z * Z) := (fun v => (v, map_perm a)) <$> area_vpns a.

Lemma area_vpns_ok a : area_ok a -> NoDup (area_vpns a) /\ Forall is_vpn (area_vpns a).
Proof.
  intros (_ & _ & Hr & Hle). rewrite range_items_seqZ by lia. split; [apply NoDup_seqZ|].
  apply Forall_forall. intros v Hv%elem_of_seqZ. unfold is_vpn. lia.
Qed.

Lemma area_pages_fst a : (area_pages a).*1 = area_vpns a.
Proof. unfold area_pages. rewrite <- list_fmap_compose. apply list_fmap_id. Qed.

Lemma MapArea_clone_ok a : area_ok a -> MapArea_clone a = Ok a.
Proof.
  intros (_ & _ & Hr & _). unfold MapArea_clone, SimpleRange_new.
  rewrite (proj2 (Z.leb_le _ _)) by lia. cbn. by destruct a as [[s e] t p].
Qed.

(** The pages [P] of [src], with their permissions, have been copied to
    [dst]; the rest of [dst] is [base]. *)
Record cloning (m0 : mm) (src : MemorySet) (base : Z -> option Z) (P : list (Z * Z))
    (m : mm) (dst : MemorySet) (n : Z) : Prop := {
  cl_src : space_inv m (page_table src);
  cl_dst : space_inv m (page_table dst);
  cl_used x : used m0 x -> used m x;
  cl_pages x : used m0 x -> page_at m x = page_at m0 x;
  cl_fresh x : owned (page_table dst) x -> ~ used m0 x;
  cl_copied v p : (v, p) ∈ P -> exists f g,
    data_frames (page_table src) !! v = Some f /\ data_frames (page_table dst) !! v = Some g /\
    mapping m (page_table dst) v = Some (PTE_new g (Z.lor p PTE_V)) /\ page_at m g = page_at m0 f;
  cl_rest v : is_vpn v -> v ∉ P.*1 -> mapping m (page_table dst) v = base v;
  cl_left : frames_left (frames m0) - n <= frames_left (frames m);
}.

Lemma clone_area_spec m0 src base P m dst n a :
  space_inv m0 (page_table src) ->
  cloning m0 src base P m dst n -> area_ok a ->
  Forall (fun v => (v ∉ P.*1) /\ base v = None /\ is_Some (data_frames (page_table src) !! v)) (area_vpns a) ->
  n + 3 * Z.of_nat (length (area_vpns a)) <= frames_left (frames m0) ->
  exists dst' m', clone_area src dst a m = Ok (dst', m') /\ areas dst' = areas dst ++ [a] /\
    cloning m0 src base (P ++ area_pages a) m' dst' (n + 3 * Z.of_nat (length (area_vpns a))).
Proof.
  intros HS0 [CS CD CU CP CF CC CR CL] Hok Hall Hl. destruct (area_vpns_ok a Hok) as [Hnd Hvp].
  pose proof (fun x Hx => owned_used _ _ x HS0 Hx) as Hsu. rewrite Forall_forall in Hall, Hvp.
  destruct (map_pages_framed a (area_vpns a) m (page_table dst)) as (pt' & m1 & Hrun & [FI FN FD FM FP FG]);
    try done; [apply Hok|apply Hok|by apply Forall_forall| |lia|].
  { apply Forall_forall. intros v Hv. destruct (Hall v Hv) as (? & Hb & _). rewrite CR; auto. }
  set (dst' := MkSet pt' (areas dst ++ [a])).
  assert (forall x, used m0 x -> ~ owned pt' x) as Hfr.
  { intros x Hx Ho. destruct (gr_owned _ _ _ _ _ FG x Ho) as [Ho'|Hn]; [by apply (CF x)|]. by apply Hn, CU. }
  assert (forall x, used m0 x -> page_at m1 x = page_at m x) as Hp1.
  { intros x Hx. apply (gr_pages _ _ _ _ _ FG); [by apply CU|]. intros Ho. by apply (CF x). }
  destruct (space_frame m m1 (page_table src) CS) as [HS1 _].
  { intros x Hx. by apply Hp1, Hsu. }
  { apply (space_frames _ _ FI). }
  { intros x Hx. by apply (gr_used _ _ _ _ _ FG), CU, Hsu. }
  destruct (copy_pages_spec src dst' (area_vpns a) m1 HS1 FI) as (m' & Hrun' & HS' & HD' & Hfr' & Hm & Hc & Hk);
    [|done| |].
  { intros x Hx. by apply Hfr, Hsu. }
  { apply Forall_forall. intros v Hv. split; [by apply Hall|]. destruct (FN v Hv) as (f & Hf & _). by exists f. }
  assert (forall x, used m0 x -> page_at m' x = page_at m1 x) as Hp'.
  { intros x Hx. apply Hk. intros v _ Hv. apply (Hfr x Hx). right. by exists v. }
  exists dst', m'. split_and!; [|done|].
  - unfold clone_area. rewrite MapArea_clone_ok by done.
    unfold push, MapArea_map, st_bind, of_res. cbn [res_bind]. rewrite Hrun. cbn [res_bind ret].
    fold dst'. rewrite Hrun'. done.
  - split; try done.
    + intros x Hx. unfold used. rewrite Hfr'. by apply (gr_used _ _ _ _ _ FG), CU.
    + intros x Hx. rewrite Hp', Hp1, CP by done. done.
    + intros x Ho Hx. by apply (Hfr x).
    + intros v p [Hv|Hv]%elem_of_app.
      * destruct (CC v p Hv) as (f & g & Hf & Hg & Hmp & Hpg).
        assert (v ∉ area_vpns a) as Hva.
        { intros Hin. destruct (Hall v Hin) as [Hn _]. apply Hn, list_elem_of_fmap. by exists (v, p). }
        destruct (sp_data _ _ CD v g Hg) as (Hvv & _).
        assert (data_frames pt' !! v = Some g) as Hg' by (by rewrite FD).
        exists f, g. cbn [page_table dst']. rewrite Hm, FM by done. split_and!; try done.
        rewrite Hk, (FP v g) by (done || intros w Hw Hwg; by rewrite (sp_inj _ _ FI w v g Hwg Hg') in Hw). done.
      * unfold area_pages in Hv. apply list_elem_of_fmap in Hv as (w & [= <- ->] & Hw).
        destruct (Hall v Hw) as (_ & _ & [f Hf]). destruct (FN v Hw) as (g & Hg & Hmg & _).
        exists f, g. cbn [page_table dst']. rewrite Hm. split_and!; try done.
        rewrite (Hc v f g) by done. assert (used m0 f) by (apply Hsu; right; by exists v).
        by rewrite Hp1, CP.
    + intros v Hv Hn. rewrite fmap_app, not_elem_of_app, area_pages_fst in Hn. destruct Hn as [Hn1 Hn2].
      cbn [page_table dst']. rewrite Hm, FM, CR; done.
    + rewrite Hfr'. pose proof (gr_left _ _ _ _ _ FG). lia.
Qed.

(** The pages of a list of areas, in order. *)
Definition areas_pages (l : list MapArea) : list (Z * Z) := l ≫= area_pages.

Lemma clone_areas_spec m0 src base l : forall P m dst n,
  space_inv m0 (page_table src) -> cloning m0 src base P m dst n -> Forall area_ok l ->
  NoDup (P ++ areas_pages l).*1 ->
  Forall (fun v => base v = None /\ is_Some (data_frames (page_table src) !! v)) (areas_pages l).*1 ->
  n + 3 * Z.of_nat (length (areas_pages l)) <= frames_left (frames m0) ->
  exists dst' m', fold_st (clone_area src) l dst m = Ok (dst', m') /\ areas dst' = areas dst ++ l /\
    cloning m0 src base (P ++ areas_pages l) m' dst' (n + 3 * Z.of_nat (length (areas_pages l))).
Proof.
  induction l as [|a l IH]; intros P m dst n HS0 HC Hok Hnd Hall Hl.
  { exists dst, m. cbn. rewrite !app_nil_r, Z.add_0_r. done. }
  apply Forall_cons in Hok as [Ha Hok]. cbn [areas_pages mbind list_bind] in *. fold (areas_pages l) in *.
  rewrite fmap_app, Forall_app, area_pages_fst in Hall. destruct Hall as [Hall1 Hall2].
  rewrite length_app in *. assert (length (area_pages a) = length (area_vpns a)) as Hlen
    by (unfold area_pages; apply length_fmap). rewrite Hlen in *.
  destruct (clone_area_spec m0 src base P m dst n a) as (dst1 & m1 & Hrun & Hareas & HC1); try done; [|lia|].
  { rewrite Forall_forall in Hall1 |- *. intros v Hv. destruct (Hall1 v Hv). split_and!; try done.
    rewrite app_assoc, !fmap_app, area_pages_fst in Hnd. apply NoDup_app in Hnd as (Hnd & _ & _).
    apply NoDup_app in Hnd as (_ & Hdis & _). intros Hin. by apply (Hdis v). }
  destruct (IH (P ++ area_pages a) m1 dst1 (n + 3 * Z.of_nat (length (area_vpns a)))) as (dst2 & m2 & Hrun2 & Hareas2 & HC2);
    try done; [by rewrite <- app_assoc|lia|].
  exists dst2, m2. cbn [fold_st]. rewrite (st_bind_Ok _ _ _ _ _ Hrun). split_and!; [done| |].
  - by rewrite Hareas2, Hareas, <- app_assoc.
  - rewrite <- app_assoc in HC2. by replace (n + 3 * Z.of_nat (length (area_vpns a) + length (areas_pages l)))
      with (n + 3 * Z.of_nat (length (area_vpns a)) + 3 * Z.of_nat (length (areas_pages l))) by lia.
Qed.

(** The page of the trampoline is the last of the address space. *)
Definition TRAMPOLINE_VPN : Z := 2 ^ 27 - 1.

Definition trampoline_entry (sym : symbols) : Z :=
  PTE_new (strampoline sym / PAGE_SIZE) (Z.lor (Z.lor PTE_R PTE_X) PTE_V).
Definition trampoline_only (sym : symbols) (v : Z) : option Z :=
  if decide (v = TRAMPOLINE_VPN) then Some (trampoline_entry sym) else None.

Definition symbols_ok (sym : symbols) : Prop :=
  0 <= strampoline sym < 2 ^ 56 /\ strampoline sym mod 4096 = 0.

Lemma trampoline_ppn sym :
  symbols_ok sym -> page_from (PhysAddr_from (strampoline sym)) = Ok (strampoline sym / 4096) /\
    0 <= strampoline sym / 4096 < 2 ^ 44.
Proof.
  intros [Hr Ha]. unfold PhysAddr_from. rewrite low_bits_id by (done || change PA_WIDTH_SV39 with 56; lia).
  unfold page_from, is_aligned. rewrite page_offset_mod, Ha. split; [done|].
  split; [apply Z.div_pos; lia|apply Z.div_lt_upper_bound; lia].
Qed.

(** A new space with the trampoline. *)
Lemma bare_trampoline sym m :
  frames_inv lo (frames m) -> 3 <= frames_left (frames m) -> symbols_ok sym ->
  exists dst m', (let* ms := new_bare in map_trampoline sym ms) m = Ok (dst, m') /\
    areas dst = [] /\ data_frames (page_table dst) = ∅ /\ space_inv m' (page_table dst) /\
    (forall v, is_vpn v -> mapping m' (page_table dst) v = trampoline_only sym v) /\
    (forall x, used m x -> used m' x) /\ (forall x, used m x -> page_at m' x = page_at m x) /\
    (forall x, owned (page_table dst) x -> ~ used m x) /\
    frames_left (frames m) - 3 <= frames_left (frames m').
Proof.
  intros HF Hl Hsym. destruct (trampoline_ppn sym Hsym) as [Hpp Hpr].
  destruct (new_spec lo m HF ltac:(lia)) as (f & m1 & Hnew & HI & Hm & Hl1 & Ha).
  destruct (alloc_ok m HF ltac:(lia)) as (f' & m1' & Ha' & _ & _ & Hnu & Hu1 & _ & Hpg1 & _).
  assert (f' = f /\ m1' = m1) as [-> ->] by (split; congruence).
  set (pt0 := MkPT f ∅ [f]) in *.
  pose proof (map_spec lo m1 pt0 _ TRAMPOLINE_VPN (strampoline sym / 4096) (Z.lor PTE_R PTE_X) HI
    ltac:(split; [done|reflexivity]) Hpr ltac:(split; [done|reflexivity]) ltac:(lia)) as HM.
  rewrite Hm in HM. destruct HM as (pt' & m' & T' & Hrun & HI' & [Rm Rr Rd Rp Rmeta Ru Rl]).
  exists (MkSet pt' []), m'. cbn [data_frames pt0] in Rd.
  assert (forall x, x ∈ metadata_frames pt' -> ~ used m x) as Hfresh.
  { intros x Hx Hux. destruct (Rmeta x Hx) as [Hin|Hn].
    - cbn in Hin. apply list_elem_of_singleton in Hin as ->. done.
    - apply Hn, Hu1. by right. }
  cbn [page_table areas]. split_and!; try done.
  - unfold new_bare, map_trampoline. unfold st_bind at 1 2. rewrite Hnew. cbn [res_bind ret page_table areas].
    unfold st_bind, of_res. rewrite Hpp.
    change (page_from (VirtAddr_from TRAMPOLINE)) with (Ok TRAMPOLINE_VPN). cbn [res_bind].
    rewrite Hrun. done.
  - split; [by exists T'|intros v g Hv|intros v v' g Hv]; by rewrite Rd, lookup_empty in Hv.
  - intros v Hv. rewrite Rm by done. unfold trampoline_only. case_decide; [done|]. by rewrite Hm.
  - intros x Hx. apply Ru, Hu1. by right.
  - intros x Hx. rewrite Rp, Hpg1; [done|by intros ->|]. intros Hin. by apply (Hfresh x).
  - intros x [Hx|[v Hv]]; [by apply Hfresh|]. by rewrite Rd, lookup_empty in Hv.
  - lia.
Qed.

(** The areas of a user space: framed, apart from each other and from the
    trampoline, and all their pages backed by frames of the space. *)
Record areas_inv (ms : MemorySet) : Prop := {
  ai_ok : Forall area_ok (areas ms);
  ai_nodup : NoDup (areas_pages (areas ms)).*1;
  ai_data v : v ∈ (areas_pages (areas ms)).*1 ->
    v <> TRAMPOLINE_VPN /\ is_Some (data_frames (page_table ms) !! v);
}.

(** C4: [MemorySet::clone], the copy [fork] makes: with three frames per
    page (and three for the table and the trampoline) left it succeeds; the
    copy has the same areas, every page of an area mapped with the area's
    permissions to a frame of its own that holds the same bytes, the
    trampoline mapped and nothing else; the frames in use before are
    unchanged and the source is as it was. *)
Theorem MemorySet_clone_correct sym src m :
  space_inv m (page_table src) -> areas_inv src -> symbols_ok sym ->
  3 + 3 * Z.of_nat (length (areas_pages (areas src))) <= frames_left (frames m) ->
  exists dst m', MemorySet_clone sym src m = Ok (dst, m') /\ areas dst = areas src /\
    space_inv m' (page_table src) /\ space_inv m' (page_table dst) /\
    (forall v p, (v, p) ∈ areas_pages (areas src) -> exists f g,
       data_frames (page_table src) !! v = Some f /\ ~ used m g /\
       mapping m' (page_table dst) v = Some (PTE_new g (Z.lor p PTE_V)) /\
       page_at m' g = page_at m f) /\
    (forall v, is_vpn v -> v ∉ (areas_pages (areas src)).*1 ->
       mapping m' (page_table dst) v = trampoline_only sym v) /\
    (forall x, used m x -> used m' x /\ page_at m' x = page_at m x).
Proof.
  intros HS [Hok Hnd Hdata] Hsym Hl.
  destruct (bare_trampoline sym m (space_frames _ _ HS) ltac:(lia) Hsym)
    as (d0 & m1 & Hrun & Ha0 & Hd0 & HD0 & Hm0 & Hu0 & Hp0 & Hf0 & Hl0).
  destruct (space_frame m m1 (page_table src) HS) as [HS1 _].
  { intros x Hx. by apply Hp0, (owned_used m (page_table src)). }
  { apply (space_frames _ _ HD0). }
  { intros x Hx. by apply Hu0, (owned_used m (page_table src)). }
  destruct (clone_areas_spec m src (trampoline_only sym) (areas src) [] m1 d0 3) as (dst & m' & Hrun' & Har & HC);
    try done.
  { split; try done; [intros v p Hv; by apply not_elem_of_nil in Hv|]. intros v Hv _. by apply Hm0. }
  { apply Forall_forall. intros v Hv. destruct (Hdata v Hv) as [Hne ?]. split; [|done].
    unfold trampoline_only. by rewrite decide_False. }
  destruct HC as [CS CD CU CP CF CC CR CL].
  exists dst, m'. split_and!; try done.
  - unfold MemorySet_clone. unfold st_bind in *. destruct (new_bare m) as [[b mb]|]; [|done]. cbn [res_bind] in *.
    rewrite Hrun. cbn [res_bind]. exact Hrun'.
  - by rewrite Har, Ha0.
  - intros v p Hv. destruct (CC v p Hv) as (f & g & Hf & Hg & Hm & Hpg). exists f, g. split_and!; try done.
    apply CF. right. by exists v.
  - intros x Hx. split; [by apply CU|by apply CP].
Qed.

(** ** Dropping a space *)

Lemma dealloc_ok m f :
  frames_inv lo (frames m) -> used m f ->
  exists m', mm_dealloc f m = Ok (tt, m') /\ frames_inv lo (frames m') /\ phys m' = phys m /\
    (forall x, used m' x <-> x <> f /\ used m x) /\
    frames_left (frames m') = frames_left (frames m) + 1.
Proof.
  intros HF Hu. destruct (frame_dealloc_used lo _ _ HF Hu) as (fa & Hrun & HF' & _ & Hu').
  exists (MkMM (phys m) fa). unfold mm_dealloc. rewrite Hrun. split_and!; try done.
  unfold frame_dealloc in Hrun. inv_res. unfold frames_left. cbn. lia.
Qed.

Lemma dealloc_all l : forall m,
  frames_inv lo (frames m) -> NoDup l -> Forall (used m) l ->
  exists m', iter_st mm_dealloc l m = Ok (tt, m') /\ frames_inv lo (frames m') /\ phys m' = phys m /\
    (forall x, used m' x <-> (x ∉ l) /\ used m x) /\
    frames_left (frames m') = frames_left (frames m) + Z.of_nat (length l).
Proof.
  induction l as [|f l IH]; intros m HF Hnd Hu.
  { exists m. cbn [length]. split_and!; try done; [|lia]. intros x. pose proof (not_elem_of_nil x). tauto. }
  apply NoDup_cons in Hnd as [Hf Hnd]. apply Forall_cons in Hu as [Hu Hus].
  destruct (dealloc_ok m f HF Hu) as (m1 & Hrun & HF1 & Hp1 & Hu1 & Hl1).
  destruct (IH m1 HF1 Hnd) as (m' & Hrun' & HF' & Hp' & Hu' & Hl').
  { rewrite Forall_forall in Hus |- *. intros x Hx. apply Hu1. split; [by intros ->|by apply Hus]. }
  exists m'. cbn [iter_st length]. rewrite (st_bind_Ok _ _ _ _ _ Hrun).
  split_and!; [done|done|congruence| |lia].
  intros x. rewrite Hu', Hu1, not_elem_of_cons. tauto.
Qed.

(** C34: dropping a memory set returns every frame it owns, each once, and
    no other frame, and writes nothing. *)
Theorem MemorySet_drop_correct ms m :
  space_inv m (page_table ms) ->
  exists m', MemorySet_drop ms m = Ok (tt, m') /\ phys m' = phys m /\
    frames_inv lo (frames m') /\
    (forall x, used m' x <-> used m x /\ ~ owned (page_table ms) x) /\
    frames_left (frames m') = frames_left (frames m) + Z.of_nat (size (data_frames (page_table ms)))
      + Z.of_nat (length (metadata_frames (page_table ms))).
Proof.
  intros HS. pose proof HS as [[T HI] Hd Hj]. set (pt := page_table ms) in *.
  set (ds := (merge_sort key_le (map_to_list (data_frames pt))).*2).
  assert (ds ≡ₚ (map_to_list (data_frames pt)).*2) as Hperm by (apply fmap_Permutation, merge_sort_Permutation).
  assert (forall x, x ∈ ds <-> exists v, data_frames pt !! v = Some x) as Hds.
  { intros x. rewrite Hperm, list_elem_of_fmap. split.
    - intros ([v y] & -> & Hv%elem_of_map_to_list). by exists v.
    - intros [v Hv]. exists (v, x). split; [done|]. by apply elem_of_map_to_list. }
  assert (forall x, x ∈ ds ++ metadata_frames pt <-> owned pt x) as Hown.
  { intros x. rewrite elem_of_app, Hds. unfold owned. tauto. }
  destruct (dealloc_all (ds ++ metadata_frames pt) m) as (m' & Hrun & HF' & Hp' & Hu' & Hl').
  - apply HI.
  - apply NoDup_app. split_and!; [|intros x [v Hv]%Hds; by apply (Hd v x Hv)|apply HI].
    rewrite Hperm. apply NoDup_fmap_2_strong; [|apply NoDup_map_to_list].
    intros [v x] [w y] Hv%elem_of_map_to_list Hw%elem_of_map_to_list E. cbn in E. subst y.
    by rewrite (Hj v w x Hv Hw).
  - apply Forall_forall. intros x Hx. apply (owned_used m pt); [done|by apply Hown].
  - exists m'. split_and!; try done.
    + intros x. rewrite Hu', Hown. tauto.
    + rewrite Hl', length_app, Hperm, length_fmap, length_map_to_list. lia.
Qed.

(** ** Removing an area *)

Lemma PageTable_unmap_frames pt v m m' : PageTable_unmap pt v m = Ok (tt, m') -> frames m' = frames m.
Proof. unfold PageTable_unmap. intros H. inv_st. done. Qed.

(** The pages [l] are unmapped and their frames returned. *)
Record emptied (m : mm) (pt : PageTable) (m' : mm) (pt' : PageTable) (l : list Z) : Prop := {
  em_inv : space_inv m' pt';
  em_data v : data_frames pt' !! v = if decide (v ∈ l) then None else data_frames pt !! v;
  em_mapping v : is_vpn v -> mapping m' pt' v = if decide (v ∈ l) then None else mapping m pt v;
  em_meta : metadata_frames pt' = metadata_frames pt;
  em_used x : used m' x <-> used m x /\ ~ exists v, v ∈ l /\ data_frames pt !! v = Some x;
  em_pages x : x ∉ metadata_frames pt -> page_at m' x = page_at m x;
}.

Lemma unmap_one_framed area m pt v f :
  space_inv m pt -> map_type area = Framed -> data_frames pt !! v = Some f ->
  exists pt' m', unmap_one area pt v m = Ok (pt', m') /\ emptied m pt m' pt' [v].
Proof.
  intros HS Ht Hv. destruct HS as [[T HI] Hd Hj].
  destruct (Hd v f Hv) as (Hvv & Huf & Hfm & _ & fl & _ & Hmap).
  destruct (dealloc_ok m f ltac:(apply HI) Huf) as (m1 & Hrun & HF1 & Hp1 & Hu1 & _).
  set (pt1 := MkPT (root_ppn pt) (delete v (data_frames pt)) (metadata_frames pt)).
  assert (forall x, page_at m1 x = page_at m x) as Hpg1 by (intros x; unfold page_at; by rewrite Hp1).
  pose proof (pi_used _ _ _ _ HI) as Hmu. rewrite Forall_forall in Hmu.
  destruct (pt_inv_frame lo m m1 pt T HI) as [HI1 Hm1]; [done|done| |].
  { apply Forall_forall. intros x Hx. apply Hu1. split; [by intros ->|by apply Hmu]. }
  assert (pt_inv lo m1 pt1 T) as HIp by (destruct HI1; by split).
  assert (forall w, mapping m1 pt1 w = mapping m pt w) as Hmp by exact Hm1.
  pose proof (unmap_spec lo m1 pt1 T v HIp Hvv) as HM. rewrite Hmp, Hmap in HM.
  destruct HM as (m' & Hrun' & HI' & [Rm _ _ Rp _ Ru _]).
  pose proof (PageTable_unmap_frames _ _ _ _ Hrun') as Hfr.
  assert (forall w, w ∈ [v] <-> w = v) as Hin by (intros w; apply list_elem_of_singleton).
  exists pt1, m'. split.
  - unfold unmap_one. rewrite Ht, bool_decide_true by done. unfold PageTable_remove. rewrite Hv.
    fold pt1. cbn [drop_frame]. unfold st_bind at 1 2. rewrite Hrun. cbn [res_bind ret].
    by rewrite (st_bind_Ok _ _ _ _ _ Hrun').
  - split; try done.
    + split; [by exists T| |].
      * intros w g Hw. cbn [data_frames pt1] in Hw. apply lookup_delete_Some in Hw as [Hne Hw]. destruct (Hd w g Hw) as (? & ? & ? & Hwf & fl' & ? & Hmg).
        assert (g <> f) by (intros ->; apply Hne; by eapply Hj).
        rewrite Rm, decide_False, Hmp by done. rewrite (Rp g) by done. rewrite Hpg1.
        split_and!; try done; [by apply Ru, Hu1|by exists fl'].
      * intros w w' g. cbn [data_frames pt1]. rewrite !lookup_delete_Some. intros [_ Hw] [_ Hw']. by eapply Hj.
    + intros w. cbn [data_frames pt1]. destruct (decide (w = v)) as [->|Hne].
      * rewrite lookup_delete_eq. by rewrite decide_True by (by apply Hin).
      * rewrite lookup_delete_ne by done. rewrite decide_False; [done|by rewrite Hin].
    + intros w Hw. rewrite Rm, Hmp by done. destruct (decide (w = v)) as [->|Hne].
      * by rewrite decide_True by (by apply Hin).
      * rewrite decide_False; [done|by rewrite Hin].
    + intros x. unfold used at 1. rewrite Hfr. change (frame_used lo (frames m1) x) with (used m1 x).
      rewrite Hu1. split.
      * intros [Hne Hx]. split; [done|]. intros (w & ->%Hin & Hw). congruence.
      * intros [Hx Hn]. split; [|done]. intros ->. apply Hn. exists v. by rewrite Hin.
    + intros x Hx. rewrite Rp by done. apply Hpg1.
Qed.

Lemma decide_cons {A} (v w : Z) l (x : option A) :
  (if decide (w ∈ l) then None else if decide (w ∈ [v]) then None else x) =
  if decide (w ∈ v :: l) then None else x.
Proof.
  pose proof (elem_of_cons l w v). pose proof (list_elem_of_singleton w v).
  repeat case_decide; done || exfalso; tauto.
Qed.

Lemma unmap_pages_framed area l : forall m pt,
  space_inv m pt -> map_type area = Framed -> NoDup l ->
  Forall (fun v => is_Some (data_frames pt !! v)) l ->
  exists pt' m', fold_st (unmap_one area) l pt m = Ok (pt', m') /\ emptied m pt m' pt' l.
Proof.
  induction l as [|v l IH]; intros m pt HS Ht Hnd Hall.
  { exists pt, m. split; [done|]. split; try done.
    intros x. split; [|by intros []]. intros Hx. split; [done|]. intros (v & Hv & _). by apply not_elem_of_nil in Hv. }
  apply NoDup_cons in Hnd as [Hvl Hnd]. apply Forall_cons in Hall as [[f Hf] Hall].
  destruct (unmap_one_framed area m pt v f HS Ht Hf) as (pt1 & m1 & Hrun & [I1 D1 M1 T1 U1 P1]).
  assert (forall w, w ∈ l -> w ∉ [v]) as Hwl by (intros w Hw ->%list_elem_of_singleton; done).
  destruct (IH m1 pt1 I1 Ht Hnd) as (pt2 & m2 & Hrun2 & [I2 D2 M2 T2 U2 P2]).
  { rewrite Forall_forall in Hall |- *. intros w Hw. rewrite D1, decide_False by auto. by apply Hall. }
  exists pt2, m2. cbn [fold_st]. rewrite (st_bind_Ok _ _ _ _ _ Hrun). split; [done|]. split; try done.
  - intros w. rewrite D2, D1. apply decide_cons.
  - intros w Hw. rewrite M2, M1 by done. apply decide_cons.
  - congruence.
  - intros x. rewrite U2, U1. split.
    + intros [[Hx Hn1] Hn2]. split; [done|]. intros (w & [->|Hw]%elem_of_cons & Hwx).
      * apply Hn1. exists v. split; [set_solver|done].
      * apply Hn2. exists w. by rewrite D1, decide_False by auto.
    + intros [Hx Hn]. split_and!; [done| |].
      * intros (w & ->%list_elem_of_singleton & Hwx). apply Hn. exists v. split; [set_solver|done].
      * intros (w & Hw & Hwx). rewrite D1, decide_False in Hwx by auto. apply Hn. exists w. split; [set_solver|done].
  - intros x Hx. rewrite P2, P1; [done|done|congruence].
Qed.

Lemma find_area_Some s l i a :
  find_area s l = Some (i, a) -> l !! i = Some a /\ range_start (vpn_range a) = s.
Proof.
  revert i. induction l as [|b l IH]; intros i; [done|]. cbn [find_area].
  destruct (Z.eqb_spec (range_start (vpn_range b)) s).
  - intros [= <- <-]. done.
  - destruct (find_area s l) as [[j c]|]; [|done]. intros [= <- <-]. by apply IH.
Qed.

(** [remove_area_with_start_vpn] of a framed area (a thread's stack or
    trap context) unmaps exactly the pages of the first area that starts
    there, returns exactly their frames and forgets the area; without such
    an area it does nothing. *)
Theorem remove_area_correct ms m s :
  space_inv m (page_table ms) -> areas_inv ms ->
  match find_area s (areas ms) with
  | None => remove_area_with_start_vpn ms s m = Ok (ms, m)
  | Some (i, a) => exists ms' m', remove_area_with_start_vpn ms s m = Ok (ms', m') /\
      areas ms' = delete i (areas ms) /\ areas ms !! i = Some a /\ range_start (vpn_range a) = s /\
      emptied m (page_table ms) m' (page_table ms') (area_vpns a)
  end.
Proof.
  intros HS [Hok Hnd Hdata]. unfold remove_area_with_start_vpn.
  destruct (find_area s (areas ms)) as [[i a]|] eqn:Ef; [|done].
  apply find_area_Some in Ef as [Hi Hs].
  pose proof (proj1 (Forall_lookup _ _) Hok i a Hi) as Ha. destruct (area_vpns_ok a Ha) as [Hnda _].
  destruct (unmap_pages_framed a (area_vpns a) m (page_table ms) HS ltac:(apply Ha) Hnda) as (pt' & m' & Hrun & He).
  { apply Forall_forall. intros v Hv. apply Hdata. apply list_elem_of_fmap. exists (v, map_perm a). split; [done|].
    apply list_elem_of_bind. exists a. split; [|by eapply list_elem_of_lookup_2].
    apply list_elem_of_fmap. by exists v. }
  exists (MkSet pt' (delete i (areas ms))), m'. unfold MapArea_unmap. rewrite (st_bind_Ok _ _ _ _ _ Hrun). done.
Qed.

(** ** Loading data *)

Lemma chunks_min data :
  data <> [] -> chunks (Nat.min page_len (length data)) data = chunks page_len data.
Proof.
  intros Hne. destruct (Nat.le_ge_cases page_len (length data)); [by rewrite Nat.min_l|].
  rewrite Nat.min_r by done. unfold chunks. destruct data as [|b bs]; [done|]. cbn [length chunks_fuel].
  rewrite !(take_ge (b :: bs)), !(drop_ge (b :: bs)) by (done || cbn in *; lia). by destruct (length bs).
Qed.

Lemma chunks_fuel_S fuel n data :
  data <> [] -> chunks_fuel (S fuel) n data = take n data :: chunks_fuel fuel n (drop n data).
Proof. by destruct data. Qed.

Lemma page_len_Z : Z.of_nat page_len = 4096.
Proof. done. Qed.

(** Bytes filled up with zeros to a page. *)
Definition padded (bs : list u8) : list u8 := bs ++ replicate (page_len - length bs) Byte.x00.

Lemma zero_page_bytes m x : page_at m x = zero_page -> page_bytes m x = replicate page_len Byte.x00.
Proof. intros H. unfold page_bytes. rewrite H. by vm_compute. Qed.

#[local] Opaque page_len.

Lemma write_chunk m f bs :
  page_at m f = zero_page -> (length bs <= page_len)%nat ->
  exists p, write_bytes f 0 bs m = set_page f p m /\ page_wf p /\ words_put 8 p = padded bs.
Proof.
  intros Hz Hl. unfold write_bytes. rewrite (zero_page_bytes m f Hz).
  assert (splice 0 bs (replicate page_len Byte.x00) = padded bs) as ->.
  { unfold splice, padded. rewrite take_0, app_nil_l, Nat.add_0_l, drop_replicate. reflexivity. }
  assert (length (padded bs) = (8 * 512)%nat) as Hlen.
  { unfold padded. rewrite length_app, length_replicate. pose proof page_len_Z. lia. }
  eexists. split; [done|]. split; [|by apply words_put_get].
  split; [apply length_words_get|]. apply words_get_bound. lia.
Qed.

Lemma copy_chunk_run pt v f src m :
  space_inv m pt -> data_frames pt !! v = Some f -> 0 <= v < 2 ^ 27 -> (length src <= page_len)%nat ->
  copy_chunk pt v src m = Ok (v + 1, write_bytes f 0 src m).
Proof.
  intros HS Hf Hv Hl. destruct (translate_data m pt v f HS Hf) as (e & He & <-).
  unfold copy_chunk, st_bind, get, of_option, of_res, modify, ret. cbn [res_bind]. rewrite He.
  cbn [unwrap res_bind].
  rewrite Nat.min_l, firstn_all by done. unfold step. by rewrite w64_id by (unfold is_u64; lia).
Qed.

Lemma copy_loop_spec pt fuel : forall data v n m,
  space_inv m pt -> (length data <= fuel)%nat -> (length data <= page_len * n)%nat ->
  0 <= v -> v + Z.of_nat n <= 2 ^ 27 ->
  (forall i, (i < n)%nat -> exists f, data_frames pt !! (v + Z.of_nat i) = Some f /\ page_at m f = zero_page) ->
  exists v' m', fold_st (copy_chunk pt) (chunks_fuel fuel page_len data) v m = Ok (v', m') /\
    space_inv m' pt /\ (forall w, mapping m' pt w = mapping m pt w) /\ frames m' = frames m /\
    (forall i f, (i < n)%nat -> data_frames pt !! (v + Z.of_nat i) = Some f ->
       page_bytes m' f = padded (slice (page_len * i) page_len data)) /\
    (forall x, (forall i, (i < n)%nat -> data_frames pt !! (v + Z.of_nat i) <> Some x) ->
       page_at m' x = page_at m x).
Proof.
  induction fuel as [|fuel IH]; intros data v n m HS Hfuel Hn Hv Hle Hz.
  all: assert (data = [] -> forall i f, (i < n)%nat -> data_frames pt !! (v + Z.of_nat i) = Some f ->
       page_bytes m f = padded (slice (page_len * i) page_len data)) as Hnil.
  1,3: (intros -> i f Hi Hf; destruct (Hz i Hi) as (f' & Hf' & Hzf); simplify_eq;
    unfold slice; rewrite drop_nil, take_nil; by rewrite (zero_page_bytes m f Hzf)).
  { destruct data; [|cbn in Hfuel; lia]. exists v, m. split_and!; try done. by apply Hnil. }
  destruct (decide (data = [])) as [Hd|Hd].
  { pose proof (Hnil Hd). subst data. by exists v, m. }
  rewrite chunks_fuel_S by done. clear Hnil.
  assert (length data <> 0%nat) as Hd0 by (intros ?%nil_length_inv; done).
  destruct n as [|n]; [lia|].
  destruct (Hz O ltac:(lia)) as (f & Hf & Hzf). rewrite Z.add_0_r in Hf.
  assert (length (take page_len data) <= page_len)%nat as Hlt by (rewrite length_take; lia).
  destruct (write_chunk m f (take page_len data) Hzf Hlt) as (p & Hw & Hpwf & Hpb).
  destruct (space_write m pt v f p HS Hf Hpwf) as [HS1 Hm1].
  pose proof (copy_chunk_run pt v f (take page_len data) m HS Hf ltac:(lia) Hlt) as Hrun. rewrite Hw in Hrun.
  set (m1 := set_page f p m) in *.
  assert (forall x, page_at m1 x = if decide (x = f) then p else page_at m x) as Hpg
    by (intros x; apply page_at_set).
  assert (forall i g, data_frames pt !! (v + Z.of_nat (S i)) = Some g -> g <> f) as Hne.
  { intros i g Hg ->. pose proof (sp_inj _ _ HS _ _ _ Hg Hf). lia. }
  assert (forall i, v + 1 + Z.of_nat i = v + Z.of_nat (S i)) as Hsh by lia.
  destruct (IH (drop page_len data) (v + 1) n m1 HS1) as (v' & m' & Hrun' & HS' & Hm' & Hfr & Hb & Hk).
  { rewrite length_drop. pose proof page_len_Z. lia. }
  { rewrite length_drop. lia. }
  { lia. }
  { lia. }
  { intros i Hi. destruct (Hz (S i) ltac:(lia)) as (g & Hg & Hzg). exists g. rewrite Hsh. split; [done|].
    rewrite Hpg, decide_False; [done|]. by apply (Hne i). }
  exists v', m'. cbn [fold_st]. rewrite (st_bind_Ok _ _ _ _ _ Hrun). split_and!; try done.
  - intros w. by rewrite Hm', Hm1.
  - intros [|i] g Hi Hg.
    + rewrite Z.add_0_r in Hg. simplify_eq. unfold page_bytes. rewrite Hk.
      * rewrite Hpg, decide_True by done. by rewrite Hpb.
      * intros i Hi'. rewrite Hsh. intros Hg'. by eapply (Hne i).
    + rewrite <- Hsh in Hg. rewrite (Hb i g ltac:(lia) Hg). unfold slice.
      by rewrite drop_drop, Nat.mul_succ_r, (Nat.add_comm (page_len * i)).
  - intros x Hx. rewrite Hk, Hpg, decide_False; [done| |].
    + intros ->. apply (Hx O ltac:(lia)). by rewrite Z.add_0_r.
    + intros i Hi. rewrite Hsh. apply Hx. lia.
Qed.

(** [MemorySet::push] with data, as [from_elf] loads a segment: with
    three frames per page left it maps every page of the area to a new
    frame with the area's permissions, the pages hold the data followed by
    zeros, and neither another mapping of the space, nor the contents of
    its pages, nor a frame it does not own changes. *)
Theorem push_data_correct ms a data m :
  let n := Z.to_nat (range_end (vpn_range a) - range_start (vpn_range a)) in
  space_inv m (page_table ms) -> area_ok a ->
  Forall (fun v => mapping m (page_table ms) v = None) (area_vpns a) ->
  3 * Z.of_nat n <= frames_left (frames m) -> (length data <= page_len * n)%nat ->
  exists ms' m', push ms a (Some data) m = Ok (ms', m') /\ areas ms' = areas ms ++ [a] /\
    space_inv m' (page_table ms') /\
    (forall i, (i < n)%nat -> exists f, let v := range_start (vpn_range a) + Z.of_nat i in
       data_frames (page_table ms') !! v = Some f /\ ~ used m f /\
       mapping m' (page_table ms') v = Some (PTE_new f (Z.lor (map_perm a) PTE_V)) /\
       page_bytes m' f = padded (slice (page_len * i) page_len data)) /\
    (forall v, is_vpn v -> v ∉ area_vpns a -> mapping m' (page_table ms') v = mapping m (page_table ms) v) /\
    (forall v g, data_frames (page_table ms) !! v = Some g -> page_at m' g = page_at m g) /\
    grows m (page_table ms) m' (page_table ms') (3 * Z.of_nat n).
Proof.
  intros n HS Hok Hnone Hl Hdata. destruct (area_vpns_ok a Hok) as [Hnd Hvp].
  destruct Hok as (Ht & Hp & Hr & Hle).
  pose proof (range_items_seqZ (vpn_range a) Hr ltac:(lia)) as Hseq.
  assert (length (area_vpns a) = n) as Hlen by (rewrite Hseq; apply length_seqZ).
  destruct (map_pages_framed a (area_vpns a) m (page_table ms)) as (pt' & m1 & Hrun & [FI FN FD FM FP FG]);
    try done; [by rewrite Hlen|]. rewrite Hlen in FG.
  assert (forall i, (i < n)%nat -> range_start (vpn_range a) + Z.of_nat i ∈ area_vpns a) as Hin.
  { intros i Hi. rewrite Hseq. apply elem_of_seqZ. lia. }
  destruct (copy_loop_spec pt' (length data) data (range_start (vpn_range a)) n m1 FI)
    as (v' & m' & Hrun' & HS' & Hm' & Hfr & Hb & Hk); [lia|done|lia|lia| |].
  { intros i Hi. destruct (FN _ (Hin i Hi)) as (f & ? & _ & ? & _). by exists f. }
  assert (forall x, used m x -> page_at m' x = page_at m1 x) as Hkeep.
  { intros x Hx. apply Hk. intros i Hi Hf. destruct (FN _ (Hin i Hi)) as (f & Hf' & _ & _ & Hn). simplify_eq. done. }
  exists (MkSet pt' (areas ms ++ [a])), m'. cbn [page_table areas]. split_and!; try done.
  - unfold push, MapArea_map. rewrite (st_bind_Ok _ _ _ _ _ Hrun). unfold copy_data. rewrite Ht.
    rewrite bool_decide_true by done. destruct (decide (data = [])) as [->|Hne].
    + assert (m' = m1) as -> by (cbn in Hrun'; unfold ret in Hrun'; congruence). done.
    + rewrite chunks_min by done. destruct data; [done|]. cbn [check of_res assert].
      unfold chunks, st_bind, check, of_res in *. cbn [assert res_bind]. rewrite Hrun'. done.
  - intros i Hi. destruct (FN _ (Hin i Hi)) as (f & Hf & Hmf & _ & Hn). exists f. cbv zeta.
    rewrite Hm'. split_and!; try done. by apply Hb.
  - intros v Hv Hn. by rewrite Hm', FM.
  - intros v g Hg. rewrite Hkeep by (by apply (sp_data _ _ HS v g)). by apply (FP v).
  - destruct FG as [U P O L]. split; unfold used in *; rewrite ?Hfr; try done.
    intros x Hx Ho. rewrite Hkeep by done. by apply P.
Qed.
End spaces.

(** ** Witnesses *)

Definition tiny_sym : symbols :=
  {| stext := 0; etext := 0; srodata := 0; erodata := 0; sdata := 0; edata := 0;
     sbss_with_stack := 0; ebss := 0; ekernel := 0; strampoline := 0x80201000 |}.

Definition two_pages : MapArea := MkArea {| range_start := 16; range_end := 18 |} Framed 22.
Definition bare_ms : MemorySet := MkSet empty_pt [].

Lemma bare_space : space_inv 100 empty_pt_mm empty_pt.
Proof.
  destruct empty_pt_refines as [HT _]. split; [done| |]; intros v; intros; by simplify_map_eq.
Qed.

Lemma two_pages_ok : area_ok two_pages.
Proof. repeat split; cbn; done || lia. Qed.

Lemma bare_unmapped v : is_vpn v -> mapping empty_pt_mm empty_pt v = None.
Proof. intros Hv. destruct empty_pt_refines as [_ HA]. by rewrite HA, lookup_empty. Qed.

Lemma two_pages_unmapped : Forall (fun v => mapping empty_pt_mm empty_pt v = None) (range_items (vpn_range two_pages)).
Proof. eapply Forall_impl; [apply (area_vpns_ok two_pages two_pages_ok)|apply bare_unmapped]. Qed.

Lemma push_data_correct_witness :
  exists ms' m', push bare_ms two_pages (Some [Byte.x41; Byte.x42]) empty_pt_mm = Ok (ms', m') /\
    exists f, data_frames (page_table ms') !! 16 = Some f /\ page_bytes m' f = padded [Byte.x41; Byte.x42].
Proof.
  destruct (push_data_correct 100 bare_ms two_pages [Byte.x41; Byte.x42] empty_pt_mm)
    as (ms' & m' & Hrun & _ & _ & Hp & _).
  - exact bare_space.
  - exact two_pages_ok.
  - exact two_pages_unmapped.
  - by vm_compute.
  - change (Z.to_nat (range_end (vpn_range two_pages) - range_start (vpn_range two_pages))) with 2%nat.
    cbn [length]. pose proof page_len_Z. lia.
  - exists ms', m'. split; [exact Hrun|]. destruct (Hp O) as (f & Hf & _ & _ & Hb); [vm_compute; lia|].
    exists f. split; [exact Hf|]. rewrite Hb. by rewrite Nat.mul_0_r.
Defined.

(** A space with two framed pages. *)
Definition two_run := MapArea_map two_pages empty_pt empty_pt_mm.
Definition two_ms : MemorySet :=
  match two_run with Ok (pt, _) => MkSet pt [two_pages] | Panic _ => bare_ms end.
Definition two_mm : mm := match two_run with Ok (_, m) => m | Panic _ => empty_pt_mm end.

Lemma two_space : space_inv 100 two_mm (page_table two_ms) /\ areas_inv two_ms.
Proof.
  destruct (area_vpns_ok two_pages two_pages_ok) as [Hnd Hvp].
  destruct (map_pages_framed 100 two_pages (range_items (vpn_range two_pages)) empty_pt_mm empty_pt)
    as (pt' & m' & Hrun & HF); [apply bare_space|done|cbn; lia|done|done|apply two_pages_unmapped|by vm_compute|].
  unfold two_mm, two_ms, two_run, MapArea_map. rewrite Hrun. split; [apply HF|]. split.
  - by apply Forall_singleton, two_pages_ok.
  - exact Hnd.
  - intros v Hv. change (v ∈ range_items (vpn_range two_pages)) in Hv. split.
    + rewrite range_items_seqZ in Hv by (cbn; lia). apply elem_of_seqZ in Hv. cbn in Hv.
      unfold TRAMPOLINE_VPN. lia.
    + destruct (fl_new _ _ _ _ _ _ _ HF v Hv) as (f & Hf & _). by exists f.
Qed.

Lemma MemorySet_clone_correct_witness :
  exists dst m', MemorySet_clone tiny_sym two_ms two_mm = Ok (dst, m') /\ areas dst = areas two_ms.
Proof.
  destruct two_space as [HS HA].
  destruct (MemorySet_clone_correct 100 tiny_sym two_ms two_mm HS HA) as (dst & m' & Hrun & Ha & _).
  - split; [split; [done|reflexivity]|reflexivity].
  - by vm_compute.
  - exists dst, m'. exact (conj Hrun Ha).
Defined.

Lemma MemorySet_drop_correct_witness :
  exists m', MemorySet_drop two_ms two_mm = Ok (tt, m') /\ phys m' = phys two_mm.
Proof.
  destruct two_space as [HS _]. destruct (MemorySet_drop_correct 100 two_ms two_mm HS) as (m' & Hrun & Hp & _).
  exists m'. exact (conj Hrun Hp).
Defined.

Lemma remove_area_correct_witness :
  exists ms' m', remove_area_with_start_vpn two_ms 16 two_mm = Ok (ms', m') /\ areas ms' = [].
Proof.
  destruct two_space as [HS HA]. pose proof (remove_area_correct 100 two_ms two_mm 16 HS HA) as H.
  assert (find_area 16 (areas two_ms) = Some (O, two_pages)) as E by (by vm_compute).
  rewrite E in H. destruct H as (ms' & m' & Hrun & Ha & _). exists ms', m'. split; [exact Hrun|].
  rewrite Ha. by vm_compute.
Defined.
