(* ===== verification/UserMemory.v ===== *)
(** * Buffers in user space

    The kernel reads and writes a user's memory through the slices that
    [translated_byte_buffer] cuts out of the physical pages.  The theorem
    says that they are the user's bytes, in order, none missing. *)

From S2P Require Import Prelude Config Bytes StateMonad Address FrameAllocator PageTable PageTableSpec.
From S2P Require Import MemorySet MemorySetSpec.

(** ** The iterator over a [UserBuffer] *)

(** The bytes behind the slices of a buffer. *)
Definition buffer_bytes (m : mm) (bufs : list segment) : list u8 := concat (segment_bytes m <$> bufs).

Definition seg_len (g : segment) : nat := Z.to_nat (seg_hi g - seg_lo g).

(** Bytes stored through the iterator over the slices, from its start. *)
Fixpoint fill (bufs : list segment) (bs : list u8) (m : mm) : mm :=
  match bufs with
  | [] => m
  | g :: bufs =>
      fill bufs (drop (seg_len g) bs)
        (write_bytes (seg_ppn g) (Z.to_nat (seg_lo g)) (take (seg_len g) bs) m)
  end.

(** The iterator after [n] bytes. *)
Fixpoint skip (n : nat) (bufs : list segment) : list segment :=
  match bufs with
  | [] => []
  | g :: bufs =>
      if Nat.leb (seg_len g) n then skip (n - seg_len g) bufs
      else MkSeg (seg_ppn g) (seg_lo g + Z.of_nat n) (seg_hi g) :: bufs
  end.

(** ** Slices and addresses *)

Lemma PTE_ppn_range e : 0 <= PTE_ppn e < 2 ^ 44.
Proof. unfold PTE_ppn, PhysPageNum_from. rewrite low_bits_mod by done. by apply Z.mod_pos_bound. Qed.

Lemma va_id x : 0 <= x < 2 ^ 38 -> VirtAddr_from x = x.
Proof. intros. unfold VirtAddr_from. apply low_bits_id; [done|]. change VA_WIDTH_SV39 with 39. lia. Qed.

Lemma usize_va_id x : 0 <= x < 2 ^ 38 -> usize_from_va x = x.
Proof.
  intros. unfold usize_from_va. change (Z.shiftl 1 (VA_WIDTH_SV39 - 1)) with (2 ^ 38).
  by rewrite (proj2 (Z.leb_gt _ _)) by lia.
Qed.

Lemma mul_add_mod v off : 0 <= off < 4096 -> (v * 4096 + off) mod 4096 = off.
Proof. intros. by rewrite Z.add_comm, Z.mod_add, Z.mod_small by lia. Qed.

(** A page of the user's space: translated to a frame of 4096 bytes. *)
Definition user_page (m : mm) (pt : PageTable) (v : Z) : Prop :=
  exists e, PageTable_translate m pt v = Some e /\ length (page_at m (PTE_ppn e)) = 512%nat.

Lemma translate_va_page m pt v e off :
  PageTable_translate m pt v = Some e -> 0 <= v -> v * 4096 + 4096 <= 2 ^ 38 -> 0 <= off < 4096 ->
  translate_va m pt (VirtAddr_from (v * 4096 + off)) = Some (PTE_ppn e * 4096 + off).
Proof.
  intros He Hv Hv' Ho. pose proof (PTE_ppn_range e) as Hp.
  rewrite va_id by lia. unfold translate_va, PageTable_translate, page_floor in *. change PAGE_SIZE with 4096.
  rewrite Z.div_add_l, (Z.div_small off), Z.add_0_r by lia. destruct (find_pte m pt v) as [s|]; [|done].
  cbn [option_map] in *. injection He as ->. rewrite addr_from_mul, page_offset_mod by lia.
  rewrite mul_add_mod, w64_id by (unfold is_u64; lia).
  unfold PhysAddr_from. rewrite low_bits_id; [f_equal; lia|done|change PA_WIDTH_SV39 with 56; lia].
Qed.

Lemma user_load_page m pt v e off :
  PageTable_translate m pt v = Some e -> length (page_at m (PTE_ppn e)) = 512%nat ->
  0 <= v -> v * 4096 + 4096 <= 2 ^ 38 -> 0 <= off < 4096 ->
  exists b, user_load m pt (v * 4096 + off) = Ok b /\ page_bytes m (PTE_ppn e) !! Z.to_nat off = Some b.
Proof.
  intros He Hl Hv Hv' Ho. pose proof (PTE_ppn_range e) as Hp. unfold user_load.
  rewrite (translate_va_page m pt v e off) by done.
  cbn [unwrap res_bind]. unfold phys_byte. change PAGE_SIZE with 4096.
  rewrite Z.div_add_l, (Z.div_small off), Z.add_0_r by lia. rewrite mul_add_mod by done.
  eexists. split; [done|]. destruct (nth_lookup_or_length (page_bytes m (PTE_ppn e)) (Z.to_nat off) Byte.x00) as [|Hge]; [done|].
  unfold page_bytes in Hge. rewrite length_words_put, Hl in Hge. lia.
Qed.

(** What the slices [segs] are of the user's bytes from [start] on. *)
Definition covers (m : mm) (pt : PageTable) (segs : list segment) (start len : Z) : Prop :=
  UserBuffer_len segs = len /\ Z.of_nat (length (concat (segment_bytes m <$> segs))) = len /\
  forall i b, concat (segment_bytes m <$> segs) !! i = Some b -> user_load m pt (start + Z.of_nat i) = Ok b.

Lemma covers_cons m pt v e lo hi segs len :
  PageTable_translate m pt v = Some e -> length (page_at m (PTE_ppn e)) = 512%nat ->
  0 <= v -> v * 4096 + 4096 <= 2 ^ 38 -> 0 <= lo <= hi -> hi <= 4096 ->
  covers m pt segs (v * 4096 + hi) len ->
  covers m pt (MkSeg (PTE_ppn e) lo hi :: segs) (v * 4096 + lo) (hi - lo + len).
Proof.
  intros He Hl Hv Hv' Hlo Hhi (HL & HB & HC). unfold covers. cbn [fmap list_fmap concat].
  change (UserBuffer_len (MkSeg (PTE_ppn e) lo hi :: segs)) with (hi - lo + UserBuffer_len segs). rewrite HL.
  assert (length (segment_bytes m (MkSeg (PTE_ppn e) lo hi)) = Z.to_nat (hi - lo)) as Hlen.
  { unfold segment_bytes, slice, page_bytes. cbn. rewrite length_take, length_drop, length_words_put, Hl. lia. }
  split_and!; [done|rewrite length_app; lia|]. intros i b Hi.
  apply lookup_app_Some in Hi as [Hi|[Hge Hi]].
  - pose proof (lookup_lt_Some _ _ _ Hi) as Hlt. rewrite Hlen in Hlt.
    unfold segment_bytes, slice in Hi. cbn [seg_ppn seg_lo seg_hi] in Hi.
    apply lookup_take_Some in Hi as [Hi _]. rewrite lookup_drop in Hi.
    destruct (user_load_page m pt v e (lo + Z.of_nat i) He Hl Hv Hv' ltac:(lia)) as (b' & Hb & Hb').
    replace (Z.to_nat (lo + Z.of_nat i)) with (Z.to_nat lo + i)%nat in Hb' by lia.
    rewrite <- Z.add_assoc, Hb. congruence.
  - apply HC in Hi. rewrite Hlen in *. rewrite <- Hi. f_equal. lia.
Qed.

(** The slices are cut out of the pages of consecutive addresses. *)
Fixpoint chain (m : mm) (pt : PageTable) (segs : list segment) (start end_ : Z) : Prop :=
  match segs with
  | [] => start = end_
  | g :: segs =>
      (exists e, PageTable_translate m pt (start / 4096) = Some e /\ seg_ppn g = PTE_ppn e) /\
      seg_lo g = start mod 4096 /\ seg_lo g < seg_hi g <= 4096 /\
      (start - seg_lo g + seg_hi g = end_ \/ seg_hi g = 4096 /\ start - seg_lo g + seg_hi g <= end_) /\
      chain m pt segs (start - seg_lo g + seg_hi g) end_
  end.

Lemma byte_buffer_loop_spec m pt end_ : forall fuel start,
  0 <= start <= end_ -> end_ < 2 ^ 38 ->
  (forall a, start <= a < end_ -> user_page m pt (a / 4096)) ->
  (start < end_ -> (end_ - 1) / 4096 - start / 4096 < Z.of_nat fuel) ->
  exists segs, byte_buffer_loop fuel m pt start end_ = Ok segs /\ covers m pt segs start (end_ - start) /\
    chain m pt segs start end_.
Proof.
  induction fuel as [|fuel IH]; intros start Hs He Hv Hf; cbn [byte_buffer_loop];
    (destruct (Z.ltb_spec start end_);
      [|exists []; split; [done|]; split; [|cbn; lia];
        split_and!; [cbn; lia|cbn; lia|intros i b Hi; cbn in Hi; by rewrite lookup_nil in Hi]]).
  { pose proof (Z.div_le_mono start (end_ - 1) 4096 ltac:(lia) ltac:(lia)). specialize (Hf ltac:(done)). lia. }
  specialize (Hf ltac:(done)). rewrite !va_id by lia. unfold page_floor. change PAGE_SIZE with 4096.
  set (v := start / 4096) in *. pose proof (Z.div_mod start 4096 ltac:(lia)) as Hdm. fold v in Hdm.
  pose proof (Z.mod_pos_bound start 4096 ltac:(lia)). assert (0 <= v) by (apply Z.div_pos; lia).
  assert (v <= (end_ - 1) / 4096) as Hle by (apply Z.div_le_mono; lia).
  pose proof (Z.mul_div_le (end_ - 1) 4096 ltac:(lia)).
  destruct (Hv start ltac:(lia)) as (e & Et & Hl). fold v in Et. rewrite Et. cbn [unwrap res_bind].
  unfold step. rewrite w64_id by (unfold is_u64; lia). rewrite addr_from_mul by lia.
  set (ev := Z.min ((v + 1) * 4096) end_) in *.
  assert ((if page_offset ev =? 0 then 4096 else page_offset ev) = ev - v * 4096 /\ start < ev <= v * 4096 + 4096)
    as [-> Hev].
  { rewrite page_offset_mod. destruct (Z.le_ge_cases ((v + 1) * 4096) end_) as [Hc|Hc].
    - unfold ev. rewrite Z.min_l by done. rewrite Z.mod_mul by lia. cbn [Z.eqb]. lia.
    - unfold ev. rewrite Z.min_r by done. destruct (decide (end_ = (v + 1) * 4096)) as [->|Hne].
      + rewrite Z.mod_mul by lia. cbn [Z.eqb]. lia.
      + rewrite <- (Z.mod_unique end_ 4096 v (end_ - v * 4096)) by lia.
        rewrite (proj2 (Z.eqb_neq _ _)) by lia. lia. }
  rewrite page_offset_mod, (proj2 (Z.leb_le _ _)) by lia. cbn [res_bind].
  assert (ev <= end_) by (unfold ev; lia). rewrite usize_va_id by lia.
  assert (v * 4096 + 4096 <= 2 ^ 38) as Hv38 by lia.
  destruct (IH ev ltac:(lia) He) as (segs & Hrun & Hc & Hch).
  { intros a Ha. apply Hv. lia. }
  { intros Hlt. assert (ev = (v + 1) * 4096) as -> by (unfold ev in *; lia). rewrite Z.div_mul by lia. lia. }
  rewrite Hrun. cbn [res_bind]. eexists. split; [done|]. split.
  2:{ cbn [chain seg_ppn seg_lo seg_hi]. replace (start - start mod 4096 + (ev - v * 4096)) with ev by lia.
      split_and!; try done; try lia. by exists e. }
  replace (end_ - start) with (ev - v * 4096 - start mod 4096 + (end_ - ev)) by lia.
  replace start with (v * 4096 + start mod 4096) at 2 by lia.
  apply covers_cons; try done; try lia. by replace (v * 4096 + (ev - v * 4096)) with ev by lia.
Qed.

Lemma translated_byte_buffer_run m token ptr len :
  0 <= ptr -> 0 <= len -> ptr + len < 2 ^ 38 ->
  (forall a, ptr <= a < ptr + len -> user_page m (PageTable_from_token token) (a / 4096)) ->
  exists segs, translated_byte_buffer m token ptr len = Ok segs /\
    covers m (PageTable_from_token token) segs ptr len /\ chain m (PageTable_from_token token) segs ptr (ptr + len).
Proof.
  intros Hp Hl Hb Hv. unfold translated_byte_buffer. rewrite w64_id by (unfold is_u64; lia).
  destruct (byte_buffer_loop_spec m (PageTable_from_token token) (ptr + len) (byte_buffer_fuel len) ptr)
    as (segs & Hrun & Hc); [lia|done|done| |].
  - intros _. unfold byte_buffer_fuel. change PAGE_SIZE with 4096.
    pose proof (Z.div_mod ptr 4096 ltac:(lia)). pose proof (Z.mod_pos_bound ptr 4096 ltac:(lia)).
    pose proof (Z.div_mod len 4096 ltac:(lia)). pose proof (Z.mod_pos_bound len 4096 ltac:(lia)).
    assert ((ptr + len - 1) / 4096 < ptr / 4096 + len / 4096 + 2) by (apply Z.div_lt_upper_bound; lia).
    assert (0 <= len / 4096) by (apply Z.div_pos; lia). lia.
  - exists segs. by replace (ptr + len - ptr) with len in Hc by lia.
Qed.

(** For a buffer in the lower half of the address space whose pages are
    all present, [translated_byte_buffer] ends and its slices are together as
    long as the buffer and are exactly the user's bytes in order. *)
Theorem translated_byte_buffer_correct m token ptr len :
  0 <= ptr -> 0 <= len -> ptr + len < 2 ^ 38 ->
  (forall a, ptr <= a < ptr + len -> user_page m (PageTable_from_token token) (a / 4096)) ->
  exists segs, translated_byte_buffer m token ptr len = Ok segs /\
    covers m (PageTable_from_token token) segs ptr len.
Proof.
  intros Hp Hl Hb Hv. destruct (translated_byte_buffer_run m token ptr len) as (segs & Hrun & Hc & _); try done.
  by exists segs.
Qed.

(** [translated_str] of a string [s] that ends with a zero byte, with fuel for
    every byte. *)
Lemma translated_str_spec m token s : forall ptr fuel,
  0 <= ptr -> ptr + Z.of_nat (length s) < 2 ^ 64 - 1 -> (length s < fuel)%nat ->
  Forall (fun b => b <> Byte.x00) s ->
  (forall i b, (s ++ [Byte.x00]) !! i = Some b ->
     user_byte m (PageTable_from_token token) (ptr + Z.of_nat i) = Ok b) ->
  translated_str fuel m token ptr = Ok (s ≫= char_utf8).
Proof.
  unfold translated_str. induction s as [|c s IH]; intros ptr fuel Hp Hl Hf Hnz Hb;
    (destruct fuel as [|fuel]; [cbn in Hf; lia|]); cbn [translated_str_loop].
  - pose proof (Hb O Byte.x00 eq_refl) as H0. rewrite Z.add_0_r in H0. by rewrite H0.
  - apply Forall_cons in Hnz as [Hc Hnz]. pose proof (Hb O c eq_refl) as H0. rewrite Z.add_0_r in H0.
    rewrite H0. cbn [res_bind]. destruct (Byte.eqb c Byte.x00) eqn:E.
    { apply Byte.byte_dec_bl in E. done. }
    cbn [length] in Hl, Hf. rewrite w64_id by (unfold is_u64; lia). rewrite (IH (ptr + 1) fuel); [done|lia|lia|lia|done|].
    intros i b Hi. rewrite <- (Hb (S i) b Hi). f_equal. lia.
Qed.

(** ** Stores into a buffer *)

Section stores.
Context (lo : Z).
Abbreviation space_inv := (MemorySetSpec.space_inv lo).

(** The byte at an address of a framed page. *)
Definition user_data (m : mm) (pt : PageTable) (a : Z) : option u8 :=
  match data_frames pt !! (a / 4096) with
  | Some f => page_bytes m f !! Z.to_nat (a mod 4096)
  | None => None
  end.

(** The table behind the token of a space is the one of the space. *)
Lemma token_root m pt : space_inv m pt -> root_ppn (PageTable_from_token (PageTable_token pt)) = root_ppn pt.
Proof.
  intros [[T HI] _ _]. destruct (pi_table _ _ _ _ HI _ _ (pi_root _ _ _ _ HI)) as ([H0 H1] & _).
  unfold PageTable_from_token, PageTable_token. cbn [root_ppn]. change (Z.shiftl 1 44 - 1) with (Z.ones 44).
  rewrite Z.land_ones by lia.
  assert (Z.lor (Z.shiftl 8 60) (root_ppn pt) mod 2 ^ 44 = root_ppn pt) as ->.
  { rewrite <- Z.land_ones by lia. rewrite Z.land_lor_distr_l. change (Z.land (Z.shiftl 8 60) (Z.ones 44)) with 0.
    rewrite Z.lor_0_l, Z.land_ones by lia. by apply Z.mod_small. }
  unfold PhysPageNum_from. by apply low_bits_id.
Qed.

Lemma translate_token m pt v :
  space_inv m pt -> PageTable_translate m (PageTable_from_token (PageTable_token pt)) v = PageTable_translate m pt v.
Proof. intros HS. unfold PageTable_translate, find_pte. by rewrite (token_root m pt HS). Qed.

Lemma framed_page m pt v f :
  space_inv m pt -> data_frames pt !! v = Some f ->
  exists e, PageTable_translate m (PageTable_from_token (PageTable_token pt)) v = Some e /\ PTE_ppn e = f /\
    length (page_at m f) = 512%nat.
Proof.
  intros HS Hf. destruct (translate_data lo m pt v f HS Hf) as (e & He & Hp).
  destruct (sp_data _ _ _ HS v f Hf) as (_ & _ & _ & [Hl _] & _). exists e. by rewrite translate_token.
Qed.

Lemma user_load_data m pt a b :
  space_inv m pt -> 0 <= a < 2 ^ 38 -> user_data m pt a = Some b ->
  user_load m (PageTable_from_token (PageTable_token pt)) a = Ok b.
Proof.
  intros HS Ha. unfold user_data. destruct (data_frames pt !! (a / 4096)) as [f|] eqn:Hf; [|done].
  destruct (framed_page m pt _ f HS Hf) as (e & He & <- & Hl). intros Hb.
  pose proof (Z.div_mod a 4096 ltac:(lia)). pose proof (Z.mod_pos_bound a 4096 ltac:(lia)).
  assert (0 <= a / 4096 < 2 ^ 26) by (split; [apply Z.div_pos|apply Z.div_lt_upper_bound]; lia).
  destruct (user_load_page m (PageTable_from_token (PageTable_token pt)) (a / 4096) e (a mod 4096)) as (b' & Hb1 & Hb2);
    try done; try lia.
  replace (a / 4096 * 4096 + a mod 4096) with a in Hb1 by lia. congruence.
Qed.

Lemma user_data_byte m pt a f :
  space_inv m pt -> data_frames pt !! (a / 4096) = Some f -> is_Some (user_data m pt a).
Proof.
  intros HS Hf. unfold user_data. rewrite Hf. apply lookup_lt_is_Some.
  destruct (sp_data _ _ _ HS _ f Hf) as (_ & _ & _ & [Hl _] & _). rewrite length_page_bytes by done.
  pose proof (Z.mod_pos_bound a 4096 ltac:(lia)). lia.
Qed.

(** What a store leaves as it is. *)
Record stored (m m' : mm) (pt : PageTable) : Prop := {
  sd_inv : space_inv m' pt;
  sd_mapping v : mapping m' pt v = mapping m pt v;
  sd_frames : frames m' = frames m;
  sd_pages x : (forall v, data_frames pt !! v <> Some x) -> page_at m' x = page_at m x;
}.

Lemma stored_refl m pt : space_inv m pt -> stored m m pt.
Proof. by split. Qed.

Lemma stored_trans m1 m2 m3 pt : stored m1 m2 pt -> stored m2 m3 pt -> stored m1 m3 pt.
Proof.
  intros [I1 M1 F1 P1] [I2 M2 F2 P2]. split; [done| |congruence|].
  - intros v. by rewrite M2, M1.
  - intros x Hx. by rewrite P2, P1.
Qed.

(** A store into a page. *)
Lemma write_data m pt v f off bs :
  space_inv m pt -> data_frames pt !! v = Some f -> (off + length bs <= 4096)%nat ->
  stored m (write_bytes f off bs m) pt /\
  forall a, user_data (write_bytes f off bs m) pt a =
    if decide (a / 4096 = v /\ Z.of_nat off <= a mod 4096 < Z.of_nat (off + length bs))
    then bs !! (Z.to_nat (a mod 4096) - off)%nat else user_data m pt a.
Proof.
  intros HS Hf Hle. destruct (sp_data _ _ _ HS v f Hf) as (_ & _ & _ & [Hl _] & _).
  set (p := words_get 8 512 (splice off bs (page_bytes m f))).
  assert (length (splice off bs (page_bytes m f)) = (8 * 512)%nat) as Hlen.
  { rewrite length_splice; rewrite length_page_bytes by done; [done|lia]. }
  assert (page_wf p) as Hp by (split; [apply length_words_get|apply words_get_bound; lia]).
  destruct (space_write lo m pt v f p HS Hf Hp) as [HS' Hm].
  change (write_bytes f off bs m) with (set_page f p m). split.
  { split; try done. intros x Hx. rewrite page_at_set_page, decide_False; [done|]. intros ->. by apply (Hx v). }
  intros a. pose proof (Z.mod_pos_bound a 4096 ltac:(lia)). unfold user_data.
  destruct (data_frames pt !! (a / 4096)) as [g|] eqn:Hg.
  2:{ rewrite decide_False; [done|]. intros [E _]. rewrite E in Hg. congruence. }
  destruct (decide (g = f)) as [->|Hne].
  - assert (a / 4096 = v) as Hv by (by eapply (sp_inj _ _ _ HS)).
    unfold page_bytes at 1. rewrite page_at_set_page, decide_True by done. unfold p. rewrite words_put_get by done.
    case_decide as D.
    + rewrite lookup_splice_in; rewrite ?length_page_bytes by done; [done|lia|lia].
    + rewrite lookup_splice_out; rewrite ?length_page_bytes by done; [done| |lia]. lia.
  - rewrite decide_False by (intros [E _]; rewrite E in Hg; congruence).
    unfold page_bytes. by rewrite page_at_set_page, decide_False.
Qed.

(** The slices of framed pages. *)
Fixpoint framed_chain (pt : PageTable) (segs : list segment) (start end_ : Z) : Prop :=
  match segs with
  | [] => start = end_
  | g :: segs =>
      data_frames pt !! (start / 4096) = Some (seg_ppn g) /\
      seg_lo g = start mod 4096 /\ seg_lo g < seg_hi g <= 4096 /\
      (start - seg_lo g + seg_hi g = end_ \/ seg_hi g = 4096 /\ start - seg_lo g + seg_hi g <= end_) /\
      framed_chain pt segs (start - seg_lo g + seg_hi g) end_
  end.

(** The pages of a buffer are framed pages of the space. *)
Definition framed (pt : PageTable) (start end_ : Z) : Prop :=
  forall a, start <= a < end_ -> is_Some (data_frames pt !! (a / 4096)).

Lemma chain_framed m pt segs : forall start end_,
  space_inv m pt -> framed pt start end_ ->
  chain m (PageTable_from_token (PageTable_token pt)) segs start end_ -> framed_chain pt segs start end_.
Proof.
  induction segs as [|g segs IH]; intros start end_ HS Hf Hc; [done|].
  destruct Hc as ((e & He & Hp) & Hlo & Hhi & Hle & Hc). cbn [framed_chain].
  destruct (Hf start ltac:(lia)) as [f Hff]. destruct (framed_page m pt _ f HS Hff) as (e' & He' & <- & _).
  assert (e' = e) as -> by congruence. rewrite Hp. split_and!; try done; try lia.
  apply IH; try done. intros a Ha. apply Hf. lia.
Qed.

Lemma chain_le pt segs : forall start end_, framed_chain pt segs start end_ -> start <= end_.
Proof. destruct segs as [|g segs]; intros start end_ Hc; cbn in Hc; lia. Qed.

Lemma page_of_next start k : 0 <= k -> start mod 4096 + k <= 4096 ->
  forall a, start <= a < start + k -> a / 4096 = start / 4096 /\ a mod 4096 = start mod 4096 + (a - start).
Proof.
  intros Hk Hle a Ha. pose proof (Z.div_mod start 4096 ltac:(lia)). pose proof (Z.mod_pos_bound start 4096 ltac:(lia)).
  split; [symmetry; apply (Z.div_unique _ _ _ (start mod 4096 + (a - start)))|
          symmetry; apply (Z.mod_unique _ _ (start / 4096))]; lia.
Qed.

(** Bytes stored through the iterator appear at the addresses of the buffer,
    in order; nothing else changes. *)
Lemma fill_spec pt segs : forall m bs start end_,
  space_inv m pt -> framed_chain pt segs start end_ -> Z.of_nat (length bs) <= end_ - start ->
  stored m (fill segs bs m) pt /\
  forall a, user_data (fill segs bs m) pt a =
    if decide (start <= a < start + Z.of_nat (length bs)) then bs !! Z.to_nat (a - start) else user_data m pt a.
Proof.
  induction segs as [|g segs IH]; intros m bs start end_ HS Hc Hl; cbn [fill framed_chain] in *.
  { split; [by apply stored_refl|]. intros a. by rewrite decide_False by lia. }
  destruct Hc as (Hf & Hlo & Hhi & Hle & Hc). pose proof (Z.mod_pos_bound start 4096 ltac:(lia)) as Hm.
  set (n := seg_len g). assert (Z.of_nat n = seg_hi g - seg_lo g) as Hn by (unfold n, seg_len; lia).
  assert (length (take n bs) = Nat.min n (length bs)) as Ht by apply length_take.
  destruct (write_data m pt (start / 4096) (seg_ppn g) (Z.to_nat (seg_lo g)) (take n bs) HS Hf) as [Hs1 Hd1]; [lia|].
  set (m1 := write_bytes _ _ _ m) in *.
  destruct (IH m1 (drop n bs) (start - seg_lo g + seg_hi g) end_) as [Hs2 Hd2];
    [apply Hs1|done|rewrite length_drop; lia|].
  split; [by eapply stored_trans|]. intros a. rewrite Hd2, Hd1, length_drop. replace (start - seg_lo g + seg_hi g) with (start + Z.of_nat n) by lia.
  pose proof (page_of_next start (Z.of_nat n) ltac:(lia) ltac:(lia)) as Hpg.
  destruct (decide (start + Z.of_nat n <= a < start + Z.of_nat n + Z.of_nat (length bs - n))) as [D|D].
  { rewrite decide_True by lia. rewrite lookup_drop. f_equal. lia. }
  destruct (decide (start <= a < start + Z.of_nat (length (take n bs)))) as [D1|D1].
  - destruct (Hpg a ltac:(lia)) as [Ha1 Ha2]. rewrite Ha1, Ha2, !decide_True by lia.
    rewrite lookup_take_lt by lia. f_equal. lia.
  - rewrite decide_False; [rewrite decide_False by lia; done|]. intros [E1 E2]. apply D1.
    pose proof (Z.div_mod start 4096 ltac:(lia)). pose proof (Z.div_mod a 4096 ltac:(lia)). lia.
Qed.

(** The bytes of the slices are those at the addresses. *)
Lemma buffer_data m pt segs : forall start end_,
  space_inv m pt -> framed_chain pt segs start end_ ->
  Z.of_nat (length (buffer_bytes m segs)) = end_ - start /\
  forall i, (i < length (buffer_bytes m segs))%nat ->
    buffer_bytes m segs !! i = user_data m pt (start + Z.of_nat i).
Proof.
  unfold buffer_bytes. induction segs as [|g segs IH]; intros start end_ HS Hc; cbn [framed_chain fmap list_fmap concat] in *.
  { split; [cbn; lia|]. intros i Hi. cbn in Hi. lia. }
  destruct Hc as (Hf & Hlo & Hhi & Hle & Hc). destruct (IH _ _ HS Hc) as [HL HB].
  pose proof (Z.mod_pos_bound start 4096 ltac:(lia)) as Hm.
  destruct (sp_data _ _ _ HS _ _ Hf) as (_ & _ & _ & [Hpl _] & _).
  assert (length (segment_bytes m g) = seg_len g) as Hsl.
  { unfold segment_bytes, seg_len. apply length_slice. rewrite length_page_bytes by done. lia. }
  assert (Z.of_nat (seg_len g) = seg_hi g - seg_lo g) as Hn by (unfold seg_len; lia).
  rewrite length_app, Hsl. split; [lia|]. intros i Hi. destruct (decide (i < seg_len g)%nat) as [Hlt|Hge].
  - rewrite lookup_app_l by lia. unfold segment_bytes. rewrite lookup_slice by (unfold seg_len in Hlt; lia).
    destruct (page_of_next start (Z.of_nat (seg_len g)) ltac:(lia) ltac:(lia) (start + Z.of_nat i) ltac:(lia)) as [Ha1 Ha2].
    unfold user_data. rewrite Ha1, Ha2, Hf. f_equal. lia.
  - rewrite lookup_app_r by lia. rewrite HB by lia. f_equal. lia.
Qed.

Lemma segment_nonempty m pt segs : forall start end_,
  space_inv m pt -> framed_chain pt segs start end_ -> Forall (fun bs => bs <> []) (segment_bytes m <$> segs).
Proof.
  induction segs as [|g segs IH]; intros start end_ HS Hc; [constructor|]. cbn [framed_chain] in Hc.
  destruct Hc as (Hf & Hlo & Hhi & Hle & Hc). constructor; [|by eapply IH].
  destruct (sp_data _ _ _ HS _ _ Hf) as (_ & _ & _ & [Hpl _] & _).
  pose proof (Z.mod_pos_bound start 4096 ltac:(lia)) as Hm. intros E. apply (f_equal length) in E.
  unfold segment_bytes in E. rewrite length_slice in E by (rewrite length_page_bytes by done; lia). cbn in E. lia.
Qed.

Lemma UserBuffer_len_chain pt segs : forall start end_,
  framed_chain pt segs start end_ -> UserBuffer_len segs = end_ - start.
Proof.
  induction segs as [|g segs IH]; intros start end_ Hc; cbn [framed_chain] in Hc; [cbn; lia|].
  destruct Hc as (Hf & Hlo & Hhi & Hle & Hc). apply IH in Hc.
  change (UserBuffer_len (g :: segs)) with (seg_hi g - seg_lo g + UserBuffer_len segs). lia.
Qed.

(** [translated_byte_buffer] of a buffer in framed pages. *)
Lemma user_buffer_framed m pt ptr len :
  space_inv m pt -> 0 <= ptr -> 0 <= len -> ptr + len < 2 ^ 38 -> framed pt ptr (ptr + len) ->
  exists segs, translated_byte_buffer m (PageTable_token pt) ptr len = Ok segs /\
    framed_chain pt segs ptr (ptr + len).
Proof.
  intros HS Hp Hl Hb Hf.
  destruct (translated_byte_buffer_run m (PageTable_token pt) ptr len) as (segs & Hrun & _ & Hc); try done.
  - intros a Ha. destruct (Hf a Ha) as [f Hff]. destruct (framed_page m pt _ f HS Hff) as (e & He & <- & Hlen). by exists e.
  - exists segs. split; [done|]. by eapply chain_framed.
Qed.
End stores.

(** ** Witness *)

Lemma two_user_pages v :
  16 <= v <= 17 -> user_page two_mm (PageTable_from_token (PageTable_token (page_table two_ms))) v.
Proof.
  intros Hv. assert (v = 16 \/ v = 17) as [-> | ->] by lia.
  - exists (PTE_new 101 23). by vm_compute.
  - exists (PTE_new 104 23). by vm_compute.
Qed.

Lemma translated_byte_buffer_correct_witness :
  let token := PageTable_token (page_table two_ms) in
  exists segs, translated_byte_buffer two_mm token (16 * 4096 + 100) 5000 = Ok segs /\
    covers two_mm (PageTable_from_token token) segs (16 * 4096 + 100) 5000.
Proof.
  apply (translated_byte_buffer_correct two_mm (PageTable_token (page_table two_ms)) (16 * 4096 + 100) 5000);
    [lia|lia|lia|].
  intros a Ha. apply two_user_pages. split; [apply Z.div_le_lower_bound; lia|].
  assert (a / 4096 < 18) by (apply Z.div_lt_upper_bound; lia). lia.
Defined.
