(* ===== verification/Utf8.v ===== *)
(** * UTF-8

    [core::str::from_utf8] checks the bytes it is given; the kernel unwraps
    its result when it prints what a process writes to the standard output.
    The theorem compares the check with the encoding of characters. *)

From S2P Require Import Prelude Bytes.

(** [lo <= b <= hi] *)
Definition within (lo hi : Z) (b : u8) : bool := (lo <=? byte.unsigned b) && (byte.unsigned b <=? hi).
Definition continuation : u8 -> bool := within 0x80 0xbf.

(** What may follow the first byte of a character of three and of four
    bytes. *)
Definition second3 (b0 b1 : u8) : bool :=
  if within 0xe0 0xe0 b0 then within 0xa0 0xbf b1
  else if within 0xed 0xed b0 then within 0x80 0x9f b1
  else continuation b1.
Definition second4 (b0 b1 : u8) : bool :=
  if within 0xf0 0xf0 b0 then within 0x90 0xbf b1
  else if within 0xf4 0xf4 b0 then within 0x80 0x8f b1
  else continuation b1.

(** Whether [from_utf8] gives [Ok]. *)
Fixpoint from_utf8_ok (l : list u8) : bool :=
  match l with
  | [] => true
  | b0 :: l1 =>
      if within 0 0x7f b0 then from_utf8_ok l1
      else
        match l1 with
        | [] => false
        | b1 :: l2 =>
            if within 0xc2 0xdf b0 then continuation b1 && from_utf8_ok l2
            else
              match l2 with
              | [] => false
              | b2 :: l3 =>
                  if within 0xe0 0xef b0 then second3 b0 b1 && continuation b2 && from_utf8_ok l3
                  else
                    match l3 with
                    | [] => false
                    | b3 :: l4 =>
                        within 0xf0 0xf4 b0 && second4 b0 b1 && continuation b2 && continuation b3 &&
                        from_utf8_ok l4
                    end
              end
        end
  end.

(** ** The encoding *)

(** The scalar values of Unicode: what a [char] can be. *)
Definition scalar (c : Z) : Prop := 0 <= c < 0xd800 \/ 0xe000 <= c < 0x110000.

Definition cont (c k : Z) : u8 := byte.of_Z (0x80 + (c / 2 ^ (6 * k)) mod 64).

(** [char::encode_utf8] *)
Definition encode_char (c : Z) : list u8 :=
  if c <? 0x80 then [byte.of_Z c]
  else if c <? 0x800 then [byte.of_Z (0xc0 + c / 64); cont c 0]
  else if c <? 0x10000 then [byte.of_Z (0xe0 + c / 4096); cont c 1; cont c 0]
  else [byte.of_Z (0xf0 + c / 262144); cont c 2; cont c 1; cont c 0].

Lemma within_spec lo hi b : within lo hi b = true <-> lo <= byte.unsigned b <= hi.
Proof. unfold within. rewrite andb_true_iff, !Z.leb_le. done. Qed.

Lemma within_of_Z lo hi z : 0 <= z < 256 -> within lo hi (byte.of_Z z) = (lo <=? z) && (z <=? hi).
Proof.
  intros Hz. unfold within. rewrite byte.unsigned_of_Z. unfold byte.wrap. by rewrite Z.mod_small by lia.
Qed.

Lemma byte_eta b z : z = byte.unsigned b -> byte.of_Z z = b.
Proof. intros ->. apply byte.of_Z_unsigned. Qed.

Ltac div_eqs := Z.div_mod_to_equations.

Lemma cont_range c k : 0 <= 0x80 + (c / 2 ^ (6 * k)) mod 64 < 256.
Proof. pose proof (Z.mod_pos_bound (c / 2 ^ (6 * k)) 64 ltac:(lia)). lia. Qed.

Lemma within_true lo hi z : 0 <= z < 256 -> lo <= z <= hi -> within lo hi (byte.of_Z z) = true.
Proof. intros Hz H. rewrite within_of_Z by done. rewrite andb_true_iff, !Z.leb_le. lia. Qed.
Lemma within_false lo hi z : 0 <= z < 256 -> z < lo \/ hi < z -> within lo hi (byte.of_Z z) = false.
Proof. intros Hz H. rewrite within_of_Z by done. rewrite andb_false_iff, !Z.leb_gt. lia. Qed.

Lemma continuation_cont c k : continuation (cont c k) = true.
Proof.
  unfold continuation, cont. pose proof (cont_range c k).
  pose proof (Z.mod_pos_bound (c / 2 ^ (6 * k)) 64 ltac:(lia)). apply within_true; lia.
Qed.

(** Decide the comparisons of a goal by arithmetic. *)
Ltac compare_bytes :=
  repeat lazymatch goal with
  | |- context [within ?lo ?hi (byte.of_Z ?z)] =>
      (rewrite (within_true lo hi z) by lia) || (rewrite (within_false lo hi z) by lia)
  end; cbn [andb].

(** Case analysis on comparisons of bytes. *)
Ltac case_within :=
  lazymatch goal with
  | |- context [if within ?lo ?hi ?b then _ else _] =>
      let E := fresh "E" in destruct (within lo hi b) eqn:E;
      [apply within_spec in E|apply not_true_iff_false in E; rewrite within_spec in E]
  end.

Lemma second3_spec b0 b1 :
  second3 b0 b1 = true <->
    (0x80 <= byte.unsigned b1 <= 0xbf) /\ (byte.unsigned b0 = 0xe0 -> 0xa0 <= byte.unsigned b1) /\
    (byte.unsigned b0 = 0xed -> byte.unsigned b1 <= 0x9f).
Proof. unfold second3, continuation. repeat case_within; rewrite within_spec; lia. Qed.

Lemma second4_spec b0 b1 :
  second4 b0 b1 = true <->
    (0x80 <= byte.unsigned b1 <= 0xbf) /\ (byte.unsigned b0 = 0xf0 -> 0x90 <= byte.unsigned b1) /\
    (byte.unsigned b0 = 0xf4 -> byte.unsigned b1 <= 0x8f).
Proof. unfold second4, continuation. repeat case_within; rewrite within_spec; lia. Qed.

Lemma unsigned_of_Z z : 0 <= z < 256 -> byte.unsigned (byte.of_Z z) = z.
Proof. intros Hz. rewrite byte.unsigned_of_Z. unfold byte.wrap. by apply Z.mod_small. Qed.

Lemma unsigned_cont c k : byte.unsigned (cont c k) = 0x80 + (c / 2 ^ (6 * k)) mod 64.
Proof. apply unsigned_of_Z, cont_range. Qed.

(** A character in front of a text does not change the verdict. *)
Lemma from_utf8_char c l : scalar c -> from_utf8_ok (encode_char c ++ l) = from_utf8_ok l.
Proof.
  intros Hc. unfold scalar in Hc. unfold encode_char.
  destruct (Z.ltb_spec c 0x80); [|destruct (Z.ltb_spec c 0x800); [|destruct (Z.ltb_spec c 0x10000)]];
    cbn [app from_utf8_ok]; rewrite ?continuation_cont.
  - by compare_bytes.
  - assert (2 <= c / 64 < 32) as H' by (div_eqs; lia). by compare_bytes.
  - assert (0 <= c / 4096 < 16) as H' by (div_eqs; lia).
    rewrite (proj2 (second3_spec (byte.of_Z (0xe0 + c / 4096)) (cont c 1))); [by compare_bytes|].
    rewrite unsigned_cont, unsigned_of_Z by lia. change (2 ^ (6 * 1)) with 64. div_eqs; lia.
  - assert (0 <= c / 262144 < 5) as H' by (div_eqs; lia).
    rewrite (proj2 (second4_spec (byte.of_Z (0xf0 + c / 262144)) (cont c 2))); [by compare_bytes|].
    rewrite unsigned_cont, unsigned_of_Z by lia. change (2 ^ (6 * 2)) with 4096. div_eqs; lia.
Qed.

Lemma cont_eta c k b : byte.unsigned b = 0x80 + (c / 2 ^ (6 * k)) mod 64 -> cont c k = b.
Proof. intros H. by apply byte_eta. Qed.

Ltac fold_within :=
  repeat match goal with
  | H : _ && _ = true |- _ => apply andb_true_iff in H as [? ?]
  | H : within _ _ _ = true |- _ => apply within_spec in H
  | H : continuation _ = true |- _ => unfold continuation in H; apply within_spec in H
  | H : second3 _ _ = true |- _ => apply second3_spec in H
  | H : second4 _ _ = true |- _ => apply second4_spec in H
  end.

(** A text that is accepted starts with a character. *)
Lemma from_utf8_head b l :
  from_utf8_ok (b :: l) = true ->
  exists c l', scalar c /\ b :: l = encode_char c ++ l' /\ from_utf8_ok l' = true.
Proof.
  cbn [from_utf8_ok]. pose proof (byte.unsigned_range b) as Hr. case_within.
  { intros H. exists (byte.unsigned b), l. split_and!; [unfold scalar; lia| |done]. unfold encode_char.
    rewrite (proj2 (Z.ltb_lt _ _)) by lia. cbn [app]. f_equal. symmetry. by apply byte_eta. }
  destruct l as [|b1 l]; [done|]. case_within.
  { intros H. fold_within. exists ((byte.unsigned b - 0xc0) * 64 + (byte.unsigned b1 - 0x80)), l.
    split_and!; [unfold scalar; lia| |done]. unfold encode_char.
    rewrite (proj2 (Z.ltb_ge _ _)), (proj2 (Z.ltb_lt _ _)) by lia. cbn [app].
    rewrite (byte_eta b), (cont_eta _ 0 b1); [done| |]; change (2 ^ (6 * 0)) with 1; div_eqs; lia. }
  destruct l as [|b2 l]; [done|]. case_within.
  { intros H. fold_within.
    exists ((byte.unsigned b - 0xe0) * 4096 + (byte.unsigned b1 - 0x80) * 64 + (byte.unsigned b2 - 0x80)), l.
    split_and!; [unfold scalar; lia| |done]. unfold encode_char.
    rewrite !(proj2 (Z.ltb_ge _ _)), (proj2 (Z.ltb_lt _ _)) by lia. cbn [app].
    rewrite (byte_eta b), (cont_eta _ 1 b1), (cont_eta _ 0 b2); [done| | |];
      change (2 ^ (6 * 0)) with 1; change (2 ^ (6 * 1)) with 64; div_eqs; lia. }
  destruct l as [|b3 l]; [done|]. intros H. fold_within.
  exists ((byte.unsigned b - 0xf0) * 262144 + (byte.unsigned b1 - 0x80) * 4096 +
    (byte.unsigned b2 - 0x80) * 64 + (byte.unsigned b3 - 0x80)), l.
  split_and!; [unfold scalar; lia| |done]. unfold encode_char.
  rewrite !(proj2 (Z.ltb_ge _ _)) by lia. cbn [app].
  rewrite (byte_eta b), (cont_eta _ 2 b1), (cont_eta _ 1 b2), (cont_eta _ 0 b3); [done| | | |];
    change (2 ^ (6 * 0)) with 1; change (2 ^ (6 * 1)) with 64; change (2 ^ (6 * 2)) with 4096; div_eqs; lia.
Qed.

Lemma from_utf8_chars l :
  from_utf8_ok l = true -> exists cs, Forall scalar cs /\ l = flat_map encode_char cs.
Proof.
  remember (length l) as n eqn:Hn. revert l Hn. induction (lt_wf n) as [n _ IH]. intros [|b l] Hn H.
  { exists []. split; [constructor|done]. }
  destruct (from_utf8_head b l H) as (c & l' & Hc & E & H').
  assert (length l' < n)%nat as Hlt.
  { rewrite Hn, E, length_app. unfold encode_char. repeat case_match; cbn; lia. }
  destruct (IH _ Hlt l' eq_refl H') as (cs & Hcs & ->). exists (c :: cs). by split; [constructor|].
Qed.

Lemma from_utf8_app l l' : from_utf8_ok l = true -> from_utf8_ok (l ++ l') = from_utf8_ok l'.
Proof.
  intros (cs & Hcs & ->)%from_utf8_chars. induction Hcs as [|c cs Hc _ IH]; [done|].
  cbn [flat_map]. by rewrite <- app_assoc, from_utf8_char.
Qed.

(** [from_utf8] accepts exactly the texts that are sequences of encoded
    Unicode scalar values. *)
Theorem from_utf8_correct l :
  from_utf8_ok l = true <-> exists cs, Forall scalar cs /\ l = flat_map encode_char cs.
Proof.
  split; [apply from_utf8_chars|]. intros (cs & Hcs & ->).
  induction Hcs as [|c cs Hc _ IH]; [done|]. cbn [flat_map]. by rewrite from_utf8_char.
Qed.
