(* ===== verification/Pipe.v ===== *)
(** * Pipes

    [kernel/src/fs/pipe.rs]: the ring buffer and the two ends of a pipe.
    Reading and writing are loops that give up the processor while the buffer
    is empty or full; [Pipe_read] and [Pipe_write] are one turn of such a
    loop, from the moment the task runs until it returns or suspends, which
    in this uniprocessor kernel nothing interrupts.  The theorems say that
    the buffer is a bounded queue and that the bytes read, in any
    interleaving of any number of readers and writers, are the bytes written
    in order. *)

From S2P Require Import Prelude Bytes.

Definition RING_BUFFER_SIZE : Z := 32.

Inductive RingBufferStatus := Full | Empty | Normal.

#[global] Instance RingBufferStatus_eq_dec : EqDecision RingBufferStatus.
Proof. solve_decision. Defined.

(** [write_end] is the number of strong references to the write end, once the
    weak reference to it is set. *)
Record PipeRingBuffer := MkRing {
  arr : list u8;
  head : Z;
  tail : Z;
  status : RingBufferStatus;
  write_end : option nat;
}.

(** [PipeRingBuffer::new], [set_write_end] *)
Definition PipeRingBuffer_new : PipeRingBuffer := MkRing (replicate 32 Byte.x00) 0 0 Empty None.
Definition set_write_end (self : PipeRingBuffer) (refs : nat) : PipeRingBuffer :=
  MkRing (arr self) (head self) (tail self) (status self) (Some refs).

(** [pipe::make]: one reference to the write end, the one it returns. *)
Definition make : PipeRingBuffer := set_write_end PipeRingBuffer_new 1.

(** Closing one reference to the write end. *)
Definition drop_write_end (self : PipeRingBuffer) : PipeRingBuffer :=
  MkRing (arr self) (head self) (tail self) (status self) (Nat.pred <$> write_end self).

(** [PipeRingBuffer::write_byte] *)
Definition write_byte (self : PipeRingBuffer) (byte : u8) : res PipeRingBuffer :=
  if tail self <? RING_BUFFER_SIZE then
    let arr := <[Z.to_nat (tail self) := byte]> (arr self) in
    let tail := w64 (tail self + 1) mod RING_BUFFER_SIZE in
    let status := if tail =? head self then Full else Normal in
    Ok (MkRing arr (head self) tail status (write_end self))
  else Panic IndexOutOfBounds.

(** [PipeRingBuffer::read_byte] *)
Definition read_byte (self : PipeRingBuffer) : res (u8 * PipeRingBuffer) :=
  let? c := (if head self <? RING_BUFFER_SIZE
             then Ok (nth (Z.to_nat (head self)) (arr self) Byte.x00)
             else Panic IndexOutOfBounds) in
  let head := w64 (head self + 1) mod RING_BUFFER_SIZE in
  let status := if head =? tail self then Empty else Normal in
  Ok (c, MkRing (arr self) head (tail self) status (write_end self)).

(** [PipeRingBuffer::available_to_read], [available_to_write] *)
Definition available_to_read (self : PipeRingBuffer) : Z :=
  if bool_decide (status self = Empty) then 0
  else if head self <? tail self then tail self - head self
  else w64 (w64 (tail self + RING_BUFFER_SIZE) - head self).

Definition available_to_write (self : PipeRingBuffer) : Z :=
  if bool_decide (status self = Full) then 0
  else w64 (RING_BUFFER_SIZE - available_to_read self).

(** [PipeRingBuffer::all_write_ends_closed] *)
Definition all_write_ends_closed (self : PipeRingBuffer) : res bool :=
  let? refs := unwrap (write_end self) in Ok (Nat.eqb refs 0).

(** How a turn ends. *)
Inductive turn := Returned (n : Z) | Suspended.

(** The [for] loop of [read] over the available bytes: what it delivered, and
    whether it returned. *)
Fixpoint read_bytes (n : nat) (self : PipeRingBuffer) (want : Z) (got : list u8) :
    res (bool * PipeRingBuffer * list u8) :=
  match n with
  | O => Ok (false, self, got)
  | S n =>
      if Z.of_nat (length got) <? want then
        let? (c, self) := read_byte self in
        let got := got ++ [c] in
        if Z.of_nat (length got) =? want then Ok (true, self, got)
        else read_bytes n self want got
      else Ok (true, self, got)
  end.

(** The [loop] of [Pipe::read]. *)
Fixpoint read_loop (fuel : nat) (self : PipeRingBuffer) (want : Z) (got : list u8) :
    res (turn * PipeRingBuffer * list u8) :=
  match fuel with
  | O => Panic OutOfFuel
  | S fuel =>
      let available := available_to_read self in
      if available =? 0 then
        let? closed := all_write_ends_closed self in
        if closed then Ok (Returned (Z.of_nat (length got)), self, got)
        else Ok (Suspended, self, got)
      else
        let? (done, self, got) := read_bytes (Z.to_nat available) self want got in
        if done then Ok (Returned (Z.of_nat (length got)), self, got)
        else read_loop fuel self want got
  end.

(** A second round finds the buffer drained. *)
Definition Pipe_read (self : PipeRingBuffer) (want : Z) (got : list u8) :
    res (turn * PipeRingBuffer * list u8) :=
  read_loop 2 self want got.

(** The [for] loop of [write]; [sent] bytes of [buf] are written. *)
Fixpoint write_bytes (n : nat) (self : PipeRingBuffer) (buf : list u8) (sent : nat) :
    res (bool * PipeRingBuffer * nat) :=
  match n with
  | O => Ok (false, self, sent)
  | S n =>
      match buf !! sent with
      | Some byte =>
          let? self := write_byte self byte in
          if Nat.eqb (S sent) (length buf) then Ok (true, self, S sent)
          else write_bytes n self buf (S sent)
      | None => Ok (true, self, sent)
      end
  end.

(** The [loop] of [Pipe::write]. *)
Fixpoint write_loop (fuel : nat) (self : PipeRingBuffer) (buf : list u8) (sent : nat) :
    res (turn * PipeRingBuffer * nat) :=
  match fuel with
  | O => Panic OutOfFuel
  | S fuel =>
      let available := available_to_write self in
      if available =? 0 then Ok (Suspended, self, sent)
      else
        let? (done, self, sent) := write_bytes (Z.to_nat available) self buf sent in
        if done then Ok (Returned (Z.of_nat sent), self, sent)
        else write_loop fuel self buf sent
  end.

Definition Pipe_write (self : PipeRingBuffer) (buf : list u8) (sent : nat) :
    res (turn * PipeRingBuffer * nat) :=
  write_loop 2 self buf sent.

(** ** The buffer is a queue *)

(** The status tells an empty from a full buffer when the ends meet. *)
Record ring_inv (r : PipeRingBuffer) : Prop := {
  ri_arr : length (arr r) = 32%nat;
  ri_head : 0 <= head r < 32;
  ri_tail : 0 <= tail r < 32;
  ri_status : head r = tail r <-> status r <> Normal;
}.

(** The bytes in the buffer, oldest first. *)
Definition ring_at (r : PipeRingBuffer) (i : nat) : u8 :=
  nth (Z.to_nat ((head r + Z.of_nat i) mod 32)) (arr r) Byte.x00.
Definition contents (r : PipeRingBuffer) : list u8 :=
  ring_at r <$> seq 0 (Z.to_nat (available_to_read r)).

Lemma available_to_read_value r :
  ring_inv r ->
  available_to_read r =
    match status r with
    | Empty => 0
    | Full => 32
    | Normal => (tail r - head r) mod 32
    end /\ 0 <= available_to_read r <= 32 /\
  (available_to_read r = 0 <-> status r = Empty) /\ (available_to_read r = 32 <-> status r = Full) /\
  available_to_write r = 32 - available_to_read r.
Proof.
  intros [_ Hh Ht Hs]. unfold available_to_write, available_to_read. change RING_BUFFER_SIZE with 32.
  assert (forall a b, 0 <= a < 32 -> 0 <= b < 32 -> a <> b ->
    (b - a) mod 32 = if a <? b then b - a else b + 32 - a) as Hmod.
  { intros a b Ha Hb Hne. destruct (Z.ltb_spec a b); [by apply Z.mod_small; lia|].
    symmetry. apply (Z.mod_unique _ _ (-1)); lia. }
  destruct (status r) eqn:E; cbn [bool_decide decide decide_rel].
  - assert (head r = tail r) as -> by (by apply Hs). rewrite bool_decide_false by done.
    rewrite Z.ltb_irrefl. rewrite !w64_id; unfold is_u64; try rewrite w64_id; unfold is_u64; try lia.
    rewrite bool_decide_true by done. split_and!; try lia; split; intros; (done || lia).
  - rewrite bool_decide_true by done. rewrite bool_decide_false by done.
    rewrite w64_id by (unfold is_u64; lia). split_and!; try lia; split; intros; (done || lia).
  - rewrite !bool_decide_false by done. assert (head r <> tail r) as Hne by (intros Hc; by apply Hs in Hc).
    rewrite (Hmod (head r) (tail r)) by done.
    rewrite (w64_id (tail r + 32)) by (unfold is_u64; lia).
    destruct (Z.ltb_spec (head r) (tail r)).
    + rewrite w64_id by (unfold is_u64; lia). split_and!; try lia; split; intros; (done || lia).
    + rewrite (w64_id (tail r + 32 - head r)) by (unfold is_u64; lia). rewrite w64_id by (unfold is_u64; lia).
      split_and!; try lia; split; intros; (done || lia).
Qed.

Lemma length_contents r : ring_inv r -> Z.of_nat (length (contents r)) = available_to_read r.
Proof.
  intros Hr. destruct (available_to_read_value r Hr) as (_ & ? & _).
  unfold contents. rewrite length_fmap, length_seq. lia.
Qed.

(** Linear arithmetic with constant divisors. *)
Ltac mod_lia := Z.div_mod_to_equations; lia.

Lemma tail_value r : ring_inv r -> tail r = (head r + available_to_read r) mod 32.
Proof.
  intros Hr. destruct (available_to_read_value r Hr) as (Ha & _). destruct Hr as [_ Hh Ht Hs].
  rewrite Ha. destruct (status r) eqn:E; try (assert (head r = tail r) by (by apply Hs)); mod_lia.
Qed.

(** The number of bytes is determined by the ends and the status. *)
Lemma available_unique r n :
  ring_inv r -> 0 <= n <= 32 -> tail r = (head r + n) mod 32 ->
  (n = 0 <-> status r = Empty) -> (n = 32 <-> status r = Full) -> available_to_read r = n.
Proof.
  intros Hr Hn Ht H0 H32. destruct (available_to_read_value r Hr) as (-> & _). destruct Hr as [_ Hh Ht' Hs].
  destruct (status r) eqn:E; [symmetry; by apply H32|symmetry; by apply H0|].
  assert (n <> 0) by (intros Hc; by apply H0 in Hc). assert (n <> 32) by (intros Hc; by apply H32 in Hc). mod_lia.
Qed.

Lemma write_byte_spec r b :
  ring_inv r -> available_to_read r < 32 ->
  exists r', write_byte r b = Ok r' /\ ring_inv r' /\ contents r' = contents r ++ [b] /\
    write_end r' = write_end r.
Proof.
  intros Hr Hn. pose proof (tail_value r Hr) as Htv.
  destruct (available_to_read_value r Hr) as (_ & Hav & _). pose proof Hr as [Ha Hh Ht Hs].
  unfold write_byte. change RING_BUFFER_SIZE with 32. rewrite (proj2 (Z.ltb_lt _ _)) by lia.
  rewrite w64_id by (unfold is_u64; lia). set (n := available_to_read r) in *.
  eexists. split; [done|]. match goal with |- ring_inv ?x /\ _ => set (r' := x) end.
  assert (ring_inv r') as Hr'.
  { split; cbn; [by rewrite length_insert|done|apply Z.mod_pos_bound; lia|].
    destruct (Z.eqb_spec ((tail r + 1) mod 32) (head r)); split; intros; done. }
  assert (available_to_read r' = n + 1) as Hn'.
  { apply available_unique; cbn; [done|lia|mod_lia| |].
    - destruct (Z.eqb_spec ((tail r + 1) mod 32) (head r)); split; intros; done || lia.
    - destruct (Z.eqb_spec ((tail r + 1) mod 32) (head r)) as [E|E]; split; intros; try done; mod_lia. }
  split_and!; try done. unfold contents. rewrite Hn'. fold n.
  replace (Z.to_nat (n + 1)) with (S (Z.to_nat n)) by lia. rewrite seq_S, fmap_app. f_equal.
  - apply list_fmap_ext. intros i j Hij. apply lookup_seq in Hij as [-> Hi].
    unfold ring_at. cbn [head arr r']. rewrite !nth_lookup, list_lookup_insert_ne; [done|]. mod_lia.
  - cbn. f_equal. unfold ring_at. cbn [head arr r']. rewrite nth_lookup.
    replace (Z.to_nat ((head r + Z.of_nat (Z.to_nat n)) mod 32)) with (Z.to_nat (tail r)) by mod_lia.
    by rewrite list_lookup_insert_eq by lia.
Qed.

Lemma read_byte_spec r c rest :
  ring_inv r -> contents r = c :: rest ->
  exists r', read_byte r = Ok (c, r') /\ ring_inv r' /\ contents r' = rest /\ write_end r' = write_end r.
Proof.
  intros Hr Hc. pose proof (tail_value r Hr) as Htv. pose proof (length_contents r Hr) as Hlen.
  destruct (available_to_read_value r Hr) as (_ & Hav & _). pose proof Hr as [Ha Hh Ht Hs].
  rewrite Hc in Hlen. cbn [length] in Hlen.
  unfold read_byte. change RING_BUFFER_SIZE with 32. rewrite (proj2 (Z.ltb_lt _ _)) by lia. cbn [res_bind].
  rewrite w64_id by (unfold is_u64; lia). set (n := available_to_read r) in *.
  assert (Z.to_nat n = S (Z.to_nat (n - 1))) as Hn by lia.
  unfold contents in Hc. fold n in Hc. rewrite Hn in Hc. cbn in Hc. injection Hc as Hc0 Hrest.
  assert (nth (Z.to_nat (head r)) (arr r) Byte.x00 = c) as ->.
  { rewrite <- Hc0. unfold ring_at. rewrite Z.add_0_r, Z.mod_small by lia. done. }
  eexists. split; [done|]. match goal with |- ring_inv ?x /\ _ => set (r' := x) end.
  assert (ring_inv r') as Hr'.
  { split; cbn; [done|apply Z.mod_pos_bound; lia|done|].
    destruct (Z.eqb_spec ((head r + 1) mod 32) (tail r)); split; intros; done. }
  assert (available_to_read r' = n - 1) as Hn'.
  { apply available_unique; cbn; [done|lia|mod_lia| |].
    - destruct (Z.eqb_spec ((head r + 1) mod 32) (tail r)) as [E|E]; split; intros; try done; mod_lia.
    - destruct (Z.eqb_spec ((head r + 1) mod 32) (tail r)); split; intros; done || lia. }
  split_and!; try done. unfold contents. rewrite Hn', <- Hrest, <- (fmap_S_seq 0), <- list_fmap_compose.
  apply list_fmap_ext. intros i j Hij. apply lookup_seq in Hij as [-> Hi].
  unfold ring_at. cbn [head arr r' compose]. do 2 f_equal. mod_lia.
Qed.

(** The ring buffer refines a queue of at most 32 bytes: it starts empty,
    a write to a buffer that is not full appends, a read from one that is not
    empty takes the oldest byte, and the two counts are its length and its
    free space. *)
Theorem ring_buffer_refines_queue r :
  ring_inv r ->
  contents make = [] /\ ring_inv make /\
  available_to_read r = Z.of_nat (length (contents r)) /\
  available_to_write r = 32 - Z.of_nat (length (contents r)) /\
  (forall b, (length (contents r) < 32)%nat ->
     exists r', write_byte r b = Ok r' /\ ring_inv r' /\ contents r' = contents r ++ [b]) /\
  (forall c rest, contents r = c :: rest ->
     exists r', read_byte r = Ok (c, r') /\ ring_inv r' /\ contents r' = rest).
Proof.
  intros Hr. pose proof (length_contents r Hr) as Hl.
  destruct (available_to_read_value r Hr) as (_ & _ & _ & _ & Hw).
  split_and!; [done|split; cbn; done || lia|lia|lia| |].
  - intros b Hb. destruct (write_byte_spec r b Hr ltac:(lia)) as (r' & ? & ? & ? & _). by exists r'.
  - intros c rest Hc. destruct (read_byte_spec r c rest Hr Hc) as (r' & ? & ? & ? & _). by exists r'.
Qed.

(** ** Turns of the loops *)

Lemma read_bytes_spec n : forall r want got,
  ring_inv r -> (n <= length (contents r))%nat -> Z.of_nat (length got) <= want ->
  let k := Nat.min n (Z.to_nat (want - Z.of_nat (length got))) in
  exists r' done, read_bytes n r want got = Ok (done, r', got ++ take k (contents r)) /\
    ring_inv r' /\ contents r' = drop k (contents r) /\ write_end r' = write_end r /\
    (done = true -> (Z.to_nat (want - Z.of_nat (length got)) <= n)%nat) /\
    (done = false -> k = n /\ (n = O \/ n < Z.to_nat (want - Z.of_nat (length got)))%nat).
Proof.
  induction n as [|n IH]; intros r want got Hr Hn Hg; cbn [read_bytes].
  { exists r, false. rewrite Nat.min_0_l, take_0, drop_0, app_nil_r. split_and!; try done. intros _. split; [done|lia]. }
  destruct (Z.ltb_spec (Z.of_nat (length got)) want) as [Hlt|Hge].
  2:{ exists r, true. replace (Z.to_nat (want - Z.of_nat (length got))) with O by lia.
      rewrite Nat.min_0_r, take_0, drop_0, app_nil_r. split_and!; done || lia. }
  destruct (contents r) as [|c rest] eqn:Hc; [cbn in Hn; lia|].
  destruct (read_byte_spec r c rest Hr Hc) as (r1 & Hrun & Hr1 & Hc1 & Hw1). rewrite Hrun. cbn [res_bind].
  rewrite length_app. cbn [length] in *.
  assert (Z.to_nat (want - Z.of_nat (length got)) = S (Z.to_nat (want - Z.of_nat (length got + 1)))) as Hk by lia.
  rewrite Hk. rewrite <- Nat.succ_min_distr. cbn [take drop].
  destruct (Z.eqb_spec (Z.of_nat (length got + 1)) want) as [He|He].
  - exists r1, true. replace (Z.to_nat (want - Z.of_nat (length got + 1))) with O by lia.
    rewrite Nat.min_0_r, take_0, drop_0. split_and!; done || lia.
  - destruct (IH r1 want (got ++ [c]) Hr1) as (r' & d & Hrun' & Hr' & Hc' & Hw' & Ht & Hf).
    { rewrite Hc1. lia. }
    { rewrite length_app. cbn. lia. }
    rewrite length_app in *. cbn [length] in *. rewrite Hc1, <- app_assoc in *. exists r', d.
    split_and!; try done; [congruence|intros Hd; specialize (Ht Hd); lia|intros Hd; specialize (Hf Hd); lia].
Qed.

(** A read call: [got] of [want] bytes so far. *)
Lemma Pipe_read_spec r want got refs :
  ring_inv r -> write_end r = Some refs -> Z.of_nat (length got) <= want ->
  let k := Z.to_nat (want - Z.of_nat (length got)) in
  exists t r', Pipe_read r want got = Ok (t, r', got ++ take k (contents r)) /\
    ring_inv r' /\ contents r' = drop k (contents r) /\ write_end r' = write_end r /\
    match t with
    | Returned n => n = Z.of_nat (length (got ++ take k (contents r))) /\
        (n = want \/ refs = O /\ contents r' = [])
    | Suspended => refs <> O /\ contents r' = [] /\ (contents r = [] \/ (length (contents r) < k)%nat)
    end.
Proof.
  intros Hr Hw Hg k. unfold Pipe_read. cbn [read_loop].
  assert (forall r0, ring_inv r0 -> write_end r0 = Some refs -> (available_to_read r0 =? 0) = true ->
    contents r0 = [] /\
    (let? closed := all_write_ends_closed r0 in
     if closed then Ok (Returned (Z.of_nat (length (got ++ take k (contents r)))), r0, got ++ take k (contents r))
     else Ok (Suspended, r0, got ++ take k (contents r))) =
    Ok (if Nat.eqb refs 0 then Returned (Z.of_nat (length (got ++ take k (contents r)))) else Suspended,
        r0, got ++ take k (contents r))) as Hend.
  { intros r0 Hr0 Hw0 He%Z.eqb_eq. pose proof (length_contents r0 Hr0).
    split; [apply nil_length_inv; lia|]. unfold all_write_ends_closed. rewrite Hw0. cbn. by destruct (Nat.eqb refs 0). }
  pose proof (length_contents r Hr) as Hl.
  destruct (available_to_read r =? 0) eqn:Ea.
  - destruct (Hend r Hr Hw Ea) as [Hnil Hrun]. rewrite Hnil, take_nil, app_nil_r in *.
    exists (if Nat.eqb refs 0 then Returned (Z.of_nat (length got)) else Suspended), r. rewrite Hrun, Hnil, drop_nil.
    split_and!; try done. destruct (Nat.eqb_spec refs 0); split_and!; try done; [by right|by left].
  - apply Z.eqb_neq in Ea. rewrite <- Hl, Nat2Z.id.
    destruct (read_bytes_spec (length (contents r)) r want got Hr ltac:(lia) Hg)
      as (r' & d & Hrun & Hr' & Hc' & Hw' & Ht & Hf). fold k in Hrun, Hc', Ht, Hf.
    assert (forall A (l : list A), take (Nat.min (length l) k) l = take k l) as Htk.
    { intros A l. destruct (Nat.le_ge_cases (length l) k); [|by rewrite Nat.min_r].
      rewrite Nat.min_l by done. by rewrite !take_ge by done. }
    rewrite Htk in Hrun. rewrite Hrun. cbn [res_bind].
    destruct (Nat.le_ge_cases (length (contents r)) k) as [Hk|Hk].
    + rewrite Nat.min_l, drop_all in Hc' by done. rewrite (drop_ge (contents r) k) by done.
      destruct d.
      * specialize (Ht eq_refl). assert (length (contents r) = k) as Hlk by lia.
        eexists _, r'. split_and!; try done. split; [done|]. left.
        rewrite take_ge, length_app, Hlk by lia. lia.
      * assert ((available_to_read r' =? 0) = true) as Ea'
          by (apply Z.eqb_eq; rewrite <- (length_contents r' Hr'), Hc'; done).
        rewrite Ea'. destruct (Hend r' Hr' ltac:(congruence) Ea') as [_ Hrun']. rewrite Hrun'.
        destruct (Hf eq_refl) as [_ Hlt].
        eexists _, r'. split_and!; try done. destruct (Nat.eqb_spec refs 0); split_and!; try done; [by right|right; lia].
    + rewrite Nat.min_r in Hc', Hf by done. destruct d.
      * eexists _, r'. split_and!; try done. split; [done|]. left. rewrite length_app, length_take. lia.
      * destruct (Hf eq_refl) as [_ Hlt]. lia.
Qed.

Lemma write_bytes_spec n : forall r buf sent,
  ring_inv r -> (length (contents r) + n <= 32)%nat -> (sent <= length buf)%nat ->
  let k := Nat.min n (length buf - sent) in
  exists r' done, write_bytes n r buf sent = Ok (done, r', (sent + k)%nat) /\
    ring_inv r' /\ contents r' = contents r ++ take k (drop sent buf) /\ write_end r' = write_end r /\
    (done = true -> (sent + k = length buf)%nat) /\
    (done = false -> k = n /\ (n = O \/ n < length buf - sent)%nat).
Proof.
  induction n as [|n IH]; intros r buf sent Hr Hn Hs; cbn [write_bytes].
  { exists r, false. rewrite Nat.min_0_l, take_0, app_nil_r, Nat.add_0_r. split_and!; try done. intros _. split; [done|lia]. }
  destruct (buf !! sent) as [b|] eqn:Hb.
  2:{ apply lookup_ge_None in Hb. exists r, true. replace (length buf - sent)%nat with O by lia.
      rewrite Nat.min_0_r, take_0, app_nil_r, Nat.add_0_r. split_and!; done || lia. }
  pose proof (lookup_lt_Some _ _ _ Hb) as Hlt. pose proof (length_contents r Hr) as Hl.
  destruct (write_byte_spec r b Hr ltac:(lia)) as (r1 & Hrun & Hr1 & Hc1 & Hw1). rewrite Hrun. cbn [res_bind].
  replace (length buf - sent)%nat with (S (length buf - S sent)) by lia.
  rewrite <- Nat.succ_min_distr, (drop_S buf b sent Hb). cbn [take].
  destruct (Nat.eqb_spec (S sent) (length buf)) as [He|He].
  - exists r1, true. rewrite <- He, Nat.sub_diag, Nat.min_0_r, take_0. split_and!; try done.
    + do 2 f_equal. lia.
    + lia.
  - destruct (IH r1 buf (S sent) Hr1) as (r' & d & Hrun' & Hr' & Hc' & Hw' & Ht & Hf).
    { rewrite Hc1, length_app. cbn. lia. }
    { lia. }
    exists r', d. rewrite Hrun', Hc', Hc1, <- app_assoc. split_and!; try done.
    + do 2 f_equal. lia.
    + congruence.
    + intros Hd. specialize (Ht Hd). lia.
    + intros Hd. specialize (Hf Hd). lia.
Qed.

(** A write call: [sent] bytes of [buf] so far. *)
Lemma Pipe_write_spec r buf sent :
  ring_inv r -> (sent <= length buf)%nat ->
  exists t r' k, Pipe_write r buf sent = Ok (t, r', (sent + k)%nat) /\ (sent + k <= length buf)%nat /\
    ring_inv r' /\ contents r' = contents r ++ take k (drop sent buf) /\ write_end r' = write_end r /\
    match t with
    | Returned n => n = Z.of_nat (length buf) /\ (sent + k = length buf)%nat
    | Suspended => length (contents r') = 32%nat /\ (length (contents r) = 32 \/ sent + k < length buf)%nat
    end.
Proof.
  intros Hr Hs. unfold Pipe_write. cbn [write_loop]. pose proof (length_contents r Hr) as Hl.
  destruct (available_to_read_value r Hr) as (_ & Hb & _ & _ & Hw). rewrite Hw, <- Hl.
  destruct (Z.eqb_spec (32 - Z.of_nat (length (contents r))) 0) as [He|He].
  { exists Suspended, r, O. rewrite Nat.add_0_r, take_0, app_nil_r. split_and!; done || lia. }
  destruct (write_bytes_spec (Z.to_nat (32 - Z.of_nat (length (contents r)))) r buf sent Hr ltac:(lia) Hs)
    as (r' & d & Hrun & Hr' & Hc' & Hw' & Ht & Hf).
  set (k := Nat.min _ _) in *. rewrite Hrun. cbn [res_bind]. destruct d.
  - specialize (Ht eq_refl). exists (Returned (Z.of_nat (sent + k))), r', k. split_and!; try done; try lia.
  - destruct (Hf eq_refl) as [Hkn Hlt]. pose proof (length_contents r' Hr') as Hl'.
    assert (length (contents r') = 32%nat) as H32.
    { rewrite Hc', length_app, length_take, length_drop. lia. }
    destruct (available_to_read_value r' Hr') as (_ & _ & _ & _ & ->). rewrite <- Hl', H32. cbn [Z.eqb].
    exists Suspended, r', k. split_and!; done || lia.
Qed.

(** C35: a turn of [Pipe::read] delivers the oldest bytes of the buffer, as many
    as are there and still wanted; it returns when it has all it wants, or
    when the buffer is drained and every write end is closed, and suspends
    only on an empty buffer with an open write end, when it started on an
    empty buffer or wants more than there was.  A turn of [Pipe::write]
    appends the next bytes in order, returns when all are written and
    suspends only on a full buffer, when it started on a full buffer or has
    more to write. *)
Theorem pipe_turns r refs :
  ring_inv r -> write_end r = Some refs ->
  (forall want got, Z.of_nat (length got) <= want ->
     let k := Z.to_nat (want - Z.of_nat (length got)) in
     exists t r', Pipe_read r want got = Ok (t, r', got ++ take k (contents r)) /\
       ring_inv r' /\ contents r' = drop k (contents r) /\
       match t with
       | Returned n => n = Z.of_nat (length (got ++ take k (contents r))) /\
           (n = want \/ refs = O /\ contents r' = [])
       | Suspended => refs <> O /\ contents r' = [] /\ (contents r = [] \/ (length (contents r) < k)%nat)
       end) /\
  (forall buf sent, (sent <= length buf)%nat ->
     exists t r' k, Pipe_write r buf sent = Ok (t, r', (sent + k)%nat) /\
       ring_inv r' /\ contents r' = contents r ++ take k (drop sent buf) /\
       match t with
       | Returned n => n = Z.of_nat (length buf) /\ (sent + k = length buf)%nat
       | Suspended => length (contents r') = 32%nat /\ (length (contents r) = 32 \/ sent + k < length buf)%nat
       end).
Proof.
  intros Hr Hw. split.
  - intros want got Hg k. destruct (Pipe_read_spec r want got refs Hr Hw Hg) as (t & r' & ? & ? & ? & _ & ?).
    by exists t, r'.
  - intros buf sent Hs. destruct (Pipe_write_spec r buf sent Hr Hs) as (t & r' & k & ? & _ & ? & ? & _ & ?).
    by exists t, r', k.
Qed.

(** ** Any interleaving *)

(** The calls in progress on a pipe, by task. *)
Inductive call :=
  | Reading (want : Z) (got : list u8)
  | Writing (buf : list u8) (sent : nat).

(** [written] and [delivered] record what went through the pipe. *)
Record pipe_sys := MkPipeSys {
  ring : PipeRingBuffer;
  calls : gmap Z call;
  written : list u8;
  delivered : list u8;
}.

Definition after (t : Z) (c : call) (u : turn) (m : gmap Z call) : gmap Z call :=
  match u with Returned _ => delete t m | Suspended => <[t := c]> m end.

Inductive pipe_step : pipe_sys -> pipe_sys -> Prop :=
  | step_call s t c :
      calls s !! t = None ->
      match c with Reading want got => got = [] /\ 0 <= want | Writing _ sent => sent = O end ->
      pipe_step s (MkPipeSys (ring s) (<[t := c]> (calls s)) (written s) (delivered s))
  | step_read s t want got u r' got' :
      calls s !! t = Some (Reading want got) -> Pipe_read (ring s) want got = Ok (u, r', got') ->
      pipe_step s (MkPipeSys r' (after t (Reading want got') u (calls s)) (written s)
                     (delivered s ++ drop (length got) got'))
  | step_write s t buf sent u r' sent' :
      calls s !! t = Some (Writing buf sent) -> Pipe_write (ring s) buf sent = Ok (u, r', sent') ->
      pipe_step s (MkPipeSys r' (after t (Writing buf sent') u (calls s))
                     (written s ++ take (sent' - sent) (drop sent buf)) (delivered s))
  | step_close s : pipe_step s (MkPipeSys (drop_write_end (ring s)) (calls s) (written s) (delivered s))
  | step_dup s n : write_end (ring s) = Some n ->
      pipe_step s (MkPipeSys (set_write_end (ring s) (S n)) (calls s) (written s) (delivered s)).

Definition pipe_init : pipe_sys := MkPipeSys make ∅ [] [].

Definition call_ok (c : call) : Prop :=
  match c with
  | Reading want got => Z.of_nat (length got) <= want
  | Writing buf sent => (sent <= length buf)%nat
  end.

Record pipe_inv (s : pipe_sys) : Prop := {
  pv_ring : ring_inv (ring s);
  pv_open : is_Some (write_end (ring s));
  pv_calls : map_Forall (fun _ => call_ok) (calls s);
  pv_fifo : written s = delivered s ++ contents (ring s);
}.

Lemma after_ok t c u m : call_ok c -> map_Forall (fun _ => call_ok) m -> map_Forall (fun _ => call_ok) (after t c u m).
Proof. intros Hc Hm. destruct u; cbn; [by apply map_Forall_delete|by apply map_Forall_insert_2]. Qed.

Lemma pipe_step_inv s s' : pipe_inv s -> pipe_step s s' -> pipe_inv s'.
Proof.
  intros [Hr Ho Hc Hf] Hstep. destruct Hstep as [s t c Hn H|s t want got u r' got' Ht Hrun|s t buf sent u r' sent' Ht Hrun|s|s n Hw];
    cbn [ring calls written delivered] in *.
  - split; try done. apply map_Forall_insert_2; [|done]. destruct c; cbn; [destruct H; subst; cbn; lia|lia].
  - pose proof (Hc _ _ Ht) as Hok. destruct Ho as [refs Hw].
    destruct (Pipe_read_spec (ring s) want got refs Hr Hw Hok) as (u' & r1 & Hrun' & Hr1 & Hc1 & Hw1 & _).
    rewrite Hrun in Hrun'. simplify_eq. split; cbn [ring calls written delivered]; [done|by rewrite Hw1| |].
    + apply after_ok; [|done]. cbn in *. rewrite length_app, length_take. lia.
    + rewrite Hc1, drop_app_length, <- app_assoc, take_drop. done.
  - pose proof (Hc _ _ Ht) as Hok.
    destruct (Pipe_write_spec (ring s) buf sent Hr Hok) as (u' & r1 & k & Hrun' & Hle & Hr1 & Hc1 & Hw1 & _).
    rewrite Hrun in Hrun'. simplify_eq. split; cbn [ring calls written delivered]; [done|by rewrite Hw1| |].
    + by apply after_ok.
    + rewrite Hc1, Hf, <- app_assoc. do 3 f_equal. lia.
  - destruct Hr as [? ? ? ?]. split; cbn; try done. destruct Ho as [n ->]. by eexists.
  - destruct Hr as [? ? ? ?]. by split.
Qed.

(** C20: in every state reachable by any interleaving of calls, turns, closes
    and duplications of the write end, the bytes delivered followed by those
    in the buffer are the bytes written, in order; and the next turn of every
    call in progress runs without panic. *)
Theorem pipe_fifo s :
  rtc pipe_step pipe_init s ->
  written s = delivered s ++ contents (ring s) /\
  (forall t want got, calls s !! t = Some (Reading want got) -> exists x, Pipe_read (ring s) want got = Ok x) /\
  (forall t buf sent, calls s !! t = Some (Writing buf sent) -> exists x, Pipe_write (ring s) buf sent = Ok x).
Proof.
  intros Hreach. assert (pipe_inv pipe_init) as H0.
  { split; [split; cbn; done || lia|by eexists|apply map_Forall_empty|done]. }
  assert (pipe_inv s) as [Hr [refs Hw] Hc Hf].
  { induction Hreach as [|s s1 s2 H1 _ IH]; [done|]. by eapply IH, pipe_step_inv. }
  split_and!; [done| |].
  - intros t want got Ht. destruct (Pipe_read_spec _ _ _ _ Hr Hw (Hc _ _ Ht)) as (u & r' & -> & _). by eexists.
  - intros t buf sent Ht. destruct (Pipe_write_spec _ _ _ Hr (Hc _ _ Ht)) as (u & r' & k & -> & _). by eexists.
Qed.

(** ** Witnesses *)

Lemma ring_buffer_refines_queue_witness :
  exists r', write_byte make Byte.x41 = Ok r' /\ ring_inv r' /\ contents r' = contents make ++ [Byte.x41].
Proof.
  destruct (ring_buffer_refines_queue make) as (_ & _ & _ & _ & Hw & _).
  - split; cbn; done || lia.
  - apply Hw. vm_compute. lia.
Defined.

Lemma pipe_turns_witness :
  exists t r' k, Pipe_write make [Byte.x41; Byte.x42] 0 = Ok (t, r', k) /\ contents r' = [Byte.x41; Byte.x42].
Proof.
  destruct (pipe_turns make 1) as [_ Hw].
  - split; cbn; done || lia.
  - done.
  - destruct (Hw [Byte.x41; Byte.x42] O) as (t & r' & k & Hrun & _ & Hc & Ht); [cbn; lia|].
    exists t, r', (0 + k)%nat. split; [exact Hrun|]. rewrite Hc. vm_compute in Hrun. injection Hrun as <- <- <-. done.
Defined.

Definition hello : list u8 := [Byte.x68; Byte.x69].
Definition sys1 := MkPipeSys make {[1 := Writing hello 0]} [] [].
Definition sys2 :=
  match Pipe_write make hello 0 with
  | Ok (u, r, sent) => MkPipeSys r (after 1 (Writing hello sent) u {[1 := Writing hello 0]}) hello []
  | Panic _ => sys1
  end.

Lemma pipe_fifo_witness : written sys2 = delivered sys2 ++ contents (ring sys2) /\ contents (ring sys2) = hello.
Proof.
  split; [|by vm_compute]. apply (pipe_fifo sys2). apply (rtc_l _ _ sys1).
  - by apply (step_call pipe_init 1 (Writing hello 0)).
  - apply rtc_once. eapply (step_write sys1 1 hello 0); [done|by vm_compute].
Defined.
