(* ===== verification/Scheduler.v ===== *)
(** * Scheduling and synchronization

    The task manager and the processor ([kernel/src/task/manager.rs],
    [processor.rs], [mod.rs]), the blocking primitives built on them
    ([kernel/src/sync/mutex.rs], [semaphore.rs], [condvar.rs]) and the timers
    ([kernel/src/timer.rs]).  Tasks are numbers; a reference-counted object
    is an index into a list of the state.  A call that blocks or yields is
    split where it gives up the processor: the operation ends there and its
    result says what remains to be done when the task runs again. *)

From S2P Require Import Prelude Config StateMonad.

(** ** State *)

Inductive Status := Ready | Running | Blocked.

#[global] Instance Status_eq_dec : EqDecision Status.
Proof. solve_decision. Defined.

Inductive Mutex :=
  | Spin (locked : bool)
  | Blocking (locked : bool) (wait_queue : list Z).
Record Semaphore := MkSem { count : Z; sem_queue : list Z }.
Record Condvar := MkCond { cond_queue : list Z }.
Record TimeCondVar := MkTimer { expire_ms : Z; timer_task : Z }.

Record kernel := MkKernel {
  task_status : gmap Z Status;
  ready_queue : list Z;
  processor : option Z;
  mutexes : list Mutex;
  semaphores : list Semaphore;
  condvars : list Condvar;
  timers : list TimeCondVar;
}.

Definition set_status (t : Z) (s : Status) (k : kernel) : kernel :=
  MkKernel (<[t := s]> (task_status k)) (ready_queue k) (processor k) (mutexes k) (semaphores k)
    (condvars k) (timers k).
Definition set_ready (q : list Z) (k : kernel) : kernel :=
  MkKernel (task_status k) q (processor k) (mutexes k) (semaphores k) (condvars k) (timers k).
Definition set_processor (o : option Z) (k : kernel) : kernel :=
  MkKernel (task_status k) (ready_queue k) o (mutexes k) (semaphores k) (condvars k) (timers k).
Definition set_mutex (i : nat) (m : Mutex) (k : kernel) : kernel :=
  MkKernel (task_status k) (ready_queue k) (processor k) (<[i := m]> (mutexes k)) (semaphores k)
    (condvars k) (timers k).
Definition set_semaphore (i : nat) (s : Semaphore) (k : kernel) : kernel :=
  MkKernel (task_status k) (ready_queue k) (processor k) (mutexes k) (<[i := s]> (semaphores k))
    (condvars k) (timers k).
Definition set_condvar (i : nat) (c : Condvar) (k : kernel) : kernel :=
  MkKernel (task_status k) (ready_queue k) (processor k) (mutexes k) (semaphores k)
    (<[i := c]> (condvars k)) (timers k).
Definition set_timers (l : list TimeCondVar) (k : kernel) : kernel :=
  MkKernel (task_status k) (ready_queue k) (processor k) (mutexes k) (semaphores k) (condvars k) l.

(** ** The manager and the processor *)

(** [Manager::add], [manager::add] *)
Definition add (t : Z) : st kernel () := modify (fun k => set_ready (ready_queue k ++ [t]) k).

(** [Manager::fetch], [manager::fetch] *)
Definition fetch : st kernel (option Z) := fun k =>
  match ready_queue k with
  | [] => Ok (None, k)
  | t :: q => Ok (Some t, set_ready q k)
  end.

(** [manager::wakeup] *)
Definition wakeup (t : Z) : st kernel () := modify (set_status t Ready) ;* add t.

(** [take_current_tcb], [current_tcb] *)
Definition take_current_tcb : st kernel (option Z) := fun k => Ok (processor k, set_processor None k).
Definition current_tcb : st kernel (option Z) := fun k => Ok (processor k, k).

(** [suspend_current_and_run_next] up to [schedule] *)
Definition suspend_current : st kernel () :=
  let* o := take_current_tcb in
  let* t := of_option o in
  modify (set_status t Ready) ;*
  add t.

(** [block_current] *)
Definition block_current : st kernel () :=
  let* o := take_current_tcb in
  let* t := of_option o in
  modify (set_status t Blocked).

(** One round of [run_tasks]: the task it switches to. *)
Definition run_tasks_once : st kernel (option Z) :=
  let* o := fetch in
  match o with
  | None => ret None
  | Some t =>
      modify (set_status t Running) ;*
      modify (set_processor (Some t)) ;*
      ret (Some t)
  end.

(** ** Mutexes *)

(** [Acquired]: [lock] returns.  [Queued]: the task is in the wait queue, and
    [lock] returns when it runs again.  [Yielded]: when the task runs again,
    [lock] tries again. *)
Inductive lock_result := Acquired | Queued | Yielded.

(** [Mutex::lock] of [Spin] and [Blocking] *)
Definition mutex_lock (i : nat) : st kernel lock_result :=
  let* k := get in
  let* m := of_option (mutexes k !! i) in
  match m with
  | Spin true => suspend_current ;* ret Yielded
  | Spin false => modify (set_mutex i (Spin true)) ;* ret Acquired
  | Blocking true q =>
      let* o := current_tcb in
      let* t := of_option o in
      modify (set_mutex i (Blocking true (q ++ [t]))) ;*
      block_current ;*
      ret Queued
  | Blocking false q => modify (set_mutex i (Blocking true q)) ;* ret Acquired
  end.

(** [Mutex::unlock] of [Spin] and [Blocking] *)
Definition mutex_unlock (i : nat) : st kernel () :=
  let* k := get in
  let* m := of_option (mutexes k !! i) in
  match m with
  | Spin _ => modify (set_mutex i (Spin false))
  | Blocking locked q =>
      check locked ;*
      match q with
      | t :: q => modify (set_mutex i (Blocking true q)) ;* wakeup t
      | [] => modify (set_mutex i (Blocking false []))
      end
  end.

(** ** Semaphores *)

(** [Semaphore::new] *)
Definition Semaphore_new (res_count : Z) : Semaphore := MkSem (i64 res_count) [].

(** [Semaphore::up] *)
Definition semaphore_up (i : nat) : st kernel () :=
  let* k := get in
  let* s := of_option (semaphores k !! i) in
  let c := i64 (count s + 1) in
  if c <=? 0 then
    match sem_queue s with
    | t :: q => modify (set_semaphore i (MkSem c q)) ;* wakeup t
    | [] => modify (set_semaphore i (MkSem c []))
    end
  else modify (set_semaphore i (MkSem c (sem_queue s))).

(** [Semaphore::down]: whether the task was blocked. *)
Definition semaphore_down (i : nat) : st kernel bool :=
  let* k := get in
  let* s := of_option (semaphores k !! i) in
  let c := i64 (count s - 1) in
  if c <? 0 then
    let* o := current_tcb in
    let* t := of_option o in
    modify (set_semaphore i (MkSem c (sem_queue s ++ [t]))) ;*
    block_current ;*
    ret true
  else modify (set_semaphore i (MkSem c (sem_queue s))) ;* ret false.

(** ** Condition variables *)

(** [Condvar::signal] *)
Definition condvar_signal (i : nat) : st kernel () :=
  let* k := get in
  let* c := of_option (condvars k !! i) in
  match cond_queue c with
  | t :: q => modify (set_condvar i (MkCond q)) ;* wakeup t
  | [] => ret tt
  end.

(** [Condvar::wait_no_sched] *)
Definition condvar_wait_no_sched (i : nat) : st kernel () :=
  let* k := get in
  let* c := of_option (condvars k !! i) in
  let* o := current_tcb in
  let* t := of_option o in
  modify (set_condvar i (MkCond (cond_queue c ++ [t]))) ;*
  block_current.

(** [Condvar::wait_with_mutex] up to [schedule]; when the task runs again it
    locks the mutex. *)
Definition condvar_wait_with_mutex (i mutex : nat) : st kernel () :=
  mutex_unlock mutex ;*
  condvar_wait_no_sched i.

(** ** Timers *)

(** [add_timer] *)
Definition add_timer (expire t : Z) : st kernel () :=
  modify (fun k => set_timers (MkTimer expire t :: timers k) k).

(** [sys_sleep] up to [schedule], at time [now], without an interrupt between
    its two steps; for one there see [SchedulerSpec.sleep_window]. *)
Definition sys_sleep (now ms : Z) : st kernel () :=
  let* o := current_tcb in
  let* t := of_option o in
  add_timer (w64 (now + ms)) t ;*
  block_current.

(** [TIMERS] is a heap ordered by [TimeCondVar::cmp], which is reversed:
    [peek] gives an entry that expires first. *)
Fixpoint peek (l : list TimeCondVar) : option TimeCondVar :=
  match l with
  | [] => None
  | t :: l =>
      match peek l with
      | None => Some t
      | Some u => if expire_ms t <=? expire_ms u then Some t else Some u
      end
  end.

#[global] Instance TimeCondVar_eq_dec : EqDecision TimeCondVar.
Proof. solve_decision. Defined.

(** [BinaryHeap::pop] *)
Fixpoint remove_timer (x : TimeCondVar) (l : list TimeCondVar) : list TimeCondVar :=
  match l with
  | [] => []
  | t :: l => if decide (t = x) then l else t :: remove_timer x l
  end.

(** The loop of [check_timer]; every round removes a timer. *)
Fixpoint check_timer_loop (fuel : nat) (current_ms : Z) : st kernel () :=
  match fuel with
  | O => panic OutOfFuel
  | S fuel =>
      let* k := get in
      match peek (timers k) with
      | None => ret tt
      | Some timer =>
          if expire_ms timer <=? current_ms then
            wakeup (timer_task timer) ;*
            modify (fun k => set_timers (remove_timer timer (timers k)) k) ;*
            check_timer_loop fuel current_ms
          else ret tt
      end
  end.

Definition check_timer (current_ms : Z) : st kernel () := fun k =>
  check_timer_loop (S (length (timers k))) current_ms k.

(** [get_time_ms], [set_next_trigger]'s deadline, at time [mtime] *)
Definition get_time_ms (mtime : Z) : Z := mtime / (CLOCK_FREQ / 1000).
Definition next_trigger (mtime : Z) : Z := w64 (mtime + CLOCK_FREQ / 100).
