(* ===== verification/SchedulerSpec.v ===== *)
(** * Correctness of scheduling and synchronization

    Every task is in exactly one place, and its status says which: on the
    processor, in the ready queue, or in one wait queue or timer.  On top of
    that: mutual exclusion, the balance of semaphores, and the timers. *)

From stdpp Require Import sorting.
From S2P Require Import Prelude Config StateMonad Scheduler.

(** ** Places *)

Definition mutex_queue (m : Mutex) : list Z :=
  match m with Spin _ => [] | Blocking _ q => q end.

(** The tasks in wait queues and timers. *)
Definition waiting (k : kernel) : list Z :=
  concat (mutex_queue <$> mutexes k) ++ concat (sem_queue <$> semaphores k) ++
  concat (cond_queue <$> condvars k) ++ (timer_task <$> timers k).

Definition located (k : kernel) : list (Z * Status) :=
  ((.,Running) <$> option_list (processor k)) ++ ((.,Ready) <$> ready_queue k) ++ ((.,Blocked) <$> waiting k).

Record k_inv (k : kernel) : Prop := {
  ki_once : NoDup (located k).*1;
  ki_status t s : task_status k !! t = Some s <-> (t, s) ∈ located k;
}.

Lemma concat_update {X} (q : X -> list Z) l i x y :
  l !! i = Some x ->
  concat (q <$> l) ≡ₚ q x ++ concat (q <$> delete i l) /\
  concat (q <$> <[i := y]> l) ≡ₚ q y ++ concat (q <$> delete i l).
Proof.
  intros Hi. pose proof (lookup_lt_Some _ _ _ Hi) as Hlt.
  rewrite delete_take_drop. rewrite <- (take_drop_middle l i x Hi) at 1. rewrite insert_take_drop by done.
  rewrite !fmap_app, !concat_app. cbn [fmap list_fmap concat]. split; perm_solve.
Qed.

(** The primitive changes: a task changes place. *)
Lemma k_inv_move k k' t s s' rest :
  located k ≡ₚ (t, s) :: rest -> located k' ≡ₚ (t, s') :: rest ->
  task_status k' = <[t := s']> (task_status k) -> k_inv k -> k_inv k'.
Proof.
  intros Hl Hl' Hs [Hn Hi]. rewrite Hl in Hn. cbn in Hn. apply NoDup_cons in Hn as [Ht Hn]. split.
  - rewrite Hl'. cbn. by apply NoDup_cons.
  - intros u v. rewrite Hs, Hl', elem_of_cons. destruct (decide (u = t)) as [->|Hne].
    + rewrite lookup_insert_eq. split; [intros [= ->]; by left|].
      intros [[= ->]|Hin]; [done|]. exfalso. apply Ht. apply list_elem_of_fmap. by exists (t, v).
    + rewrite lookup_insert_ne by done. rewrite Hi, Hl, elem_of_cons. naive_solver.
Qed.

(** [k1] differs from [k] in its wait queues only. *)
Definition same_running (k k1 : kernel) : Prop :=
  task_status k1 = task_status k /\ ready_queue k1 = ready_queue k /\ processor k1 = processor k.

Lemma same_running_refl k : same_running k k.
Proof. by split_and!. Qed.

Lemma neutral_inv k k1 : same_running k k1 -> waiting k1 ≡ₚ waiting k -> k_inv k -> k_inv k1.
Proof.
  intros (Hs & Hr & Hp) Hw [Hn Hi]. assert (located k1 ≡ₚ located k) as Hl.
  { unfold located. by rewrite Hr, Hp, Hw. }
  split; [by rewrite Hl|]. intros t s. by rewrite Hs, Hi, Hl.
Qed.

Lemma wakeup_inv k k1 t :
  same_running k k1 -> waiting k ≡ₚ t :: waiting k1 -> k_inv k ->
  exists k2, wakeup t k1 = Ok (tt, k2) /\ k_inv k2.
Proof.
  intros (Hs & Hr & Hp) Hw HI. eexists. split; [done|].
  apply (k_inv_move k _ t Blocked Ready
    (((.,Running) <$> option_list (processor k)) ++ ((.,Ready) <$> ready_queue k) ++ ((.,Blocked) <$> waiting k1)));
    [| |cbn; by rewrite Hs|done]; unfold located; cbn [processor ready_queue set_ready set_status].
  - rewrite Hw. cbn [fmap list_fmap]. by rewrite Permutation_middle, Permutation_middle.
  - rewrite Hr, Hp, fmap_app. cbn [fmap list_fmap].
    change (waiting (set_ready _ _)) with (waiting k1). rewrite <- app_assoc. cbn [app].
    by rewrite <- Permutation_middle, <- Permutation_middle.
Qed.

Lemma block_inv k k1 t :
  same_running k k1 -> processor k = Some t -> waiting k1 ≡ₚ t :: waiting k -> k_inv k ->
  exists k2, block_current k1 = Ok (tt, k2) /\ k_inv k2.
Proof.
  intros (Hs & Hr & Hp) Ht Hw HI. unfold block_current, take_current_tcb, st_bind, of_option, of_res.
  rewrite Hp, Ht. cbn [unwrap res_bind]. eexists. split; [done|].
  apply (k_inv_move k _ t Running Blocked
    (((.,Ready) <$> ready_queue k) ++ ((.,Blocked) <$> waiting k))); [| |cbn; by rewrite Hs|done].
  - unfold located. by rewrite Ht.
  - unfold located. cbn [processor ready_queue set_processor set_status option_list fmap list_fmap app].
    change (waiting (set_status _ _ _)) with (waiting k1). rewrite Hr, Hw. cbn [fmap list_fmap].
    by rewrite <- Permutation_middle.
Qed.

Lemma suspend_inv k t :
  processor k = Some t -> k_inv k -> exists k2, suspend_current k = Ok (tt, k2) /\ k_inv k2.
Proof.
  intros Ht HI. unfold suspend_current, take_current_tcb, st_bind, of_option, of_res. rewrite Ht.
  cbn [unwrap res_bind]. eexists. split; [done|].
  apply (k_inv_move k _ t Running Ready
    (((.,Ready) <$> ready_queue k) ++ ((.,Blocked) <$> waiting k))); [| |done|done].
  - unfold located. by rewrite Ht.
  - unfold located. cbn [processor ready_queue set_processor set_status set_ready option_list fmap list_fmap app].
    change (waiting (set_ready _ _)) with (waiting k). rewrite fmap_app, <- app_assoc. cbn [fmap list_fmap app].
    by rewrite <- Permutation_middle.
Qed.

Lemma run_inv k :
  processor k = None -> k_inv k -> exists o k2, run_tasks_once k = Ok (o, k2) /\ k_inv k2 /\ processor k2 = o.
Proof.
  intros Hp HI. unfold run_tasks_once, fetch, st_bind. destruct (ready_queue k) as [|t q] eqn:Hq.
  { exists None, k. done. }
  cbn [res_bind]. eexists (Some t), _. split; [done|]. split; [|done].
  apply (k_inv_move k _ t Ready Running (((.,Ready) <$> q) ++ ((.,Blocked) <$> waiting k))); [| |done|done].
  - unfold located. rewrite Hp, Hq. done.
  - done.
Qed.

(** ** Operations *)

Abbreviation preserves := (moves (through k_inv)).

Lemma set_mutex_waiting k i m m' :
  mutexes k !! i = Some m ->
  exists R, waiting k ≡ₚ mutex_queue m ++ R /\ waiting (set_mutex i m' k) ≡ₚ mutex_queue m' ++ R.
Proof.
  intros Hi. destruct (concat_update mutex_queue (mutexes k) i m m' Hi) as [H1 H2].
  exists (concat (mutex_queue <$> delete i (mutexes k)) ++ concat (sem_queue <$> semaphores k) ++
    concat (cond_queue <$> condvars k) ++ (timer_task <$> timers k)).
  unfold waiting. cbn [mutexes semaphores condvars timers set_mutex]. by rewrite H1, H2, <- !app_assoc.
Qed.

Lemma set_semaphore_waiting k i s s' :
  semaphores k !! i = Some s ->
  exists R, waiting k ≡ₚ sem_queue s ++ R /\ waiting (set_semaphore i s' k) ≡ₚ sem_queue s' ++ R.
Proof.
  intros Hi. destruct (concat_update sem_queue (semaphores k) i s s' Hi) as [H1 H2].
  exists (concat (mutex_queue <$> mutexes k) ++ concat (sem_queue <$> delete i (semaphores k)) ++
    concat (cond_queue <$> condvars k) ++ (timer_task <$> timers k)).
  unfold waiting. cbn [mutexes semaphores condvars timers set_semaphore]. rewrite H1, H2.
  rewrite <- !app_assoc. split; apply Permutation_app_swap_app.
Qed.

Lemma set_condvar_waiting k i c c' :
  condvars k !! i = Some c ->
  exists R, waiting k ≡ₚ cond_queue c ++ R /\ waiting (set_condvar i c' k) ≡ₚ cond_queue c' ++ R.
Proof.
  intros Hi. destruct (concat_update cond_queue (condvars k) i c c' Hi) as [H1 H2].
  exists (concat (mutex_queue <$> mutexes k) ++ concat (sem_queue <$> semaphores k) ++
    concat (cond_queue <$> delete i (condvars k)) ++ (timer_task <$> timers k)).
  unfold waiting. cbn [mutexes semaphores condvars timers set_condvar]. rewrite H1, H2. split; perm_solve.
Qed.

(** Waking the head of a queue, and queueing the current task. *)
Lemma pop_wakeup k k1 t q R a k' :
  same_running k k1 -> waiting k ≡ₚ (t :: q) ++ R -> waiting k1 ≡ₚ q ++ R -> k_inv k ->
  wakeup t k1 = Ok (a, k') -> k_inv k'.
Proof.
  intros Hs Hw Hw1 HI Hrun. destruct (wakeup_inv k k1 t Hs) as (k2 & Hrun2 & HI2); [|done|congruence].
  by rewrite Hw, Hw1.
Qed.

Lemma push_block k k1 t q R a k' :
  same_running k k1 -> processor k = Some t -> waiting k ≡ₚ q ++ R -> waiting k1 ≡ₚ (q ++ [t]) ++ R -> k_inv k ->
  block_current k1 = Ok (a, k') -> k_inv k'.
Proof.
  intros Hs Hp Hw Hw1 HI Hrun. destruct (block_inv k k1 t Hs Hp) as (k2 & Hrun2 & HI2); [|done|congruence].
  rewrite Hw, Hw1, <- app_assoc. cbn. by rewrite Permutation_middle.
Qed.

Lemma suspend_preserves : preserves suspend_current.
Proof.
  intros k a k' H HI. destruct (processor k) as [t|] eqn:Hp.
  - destruct (suspend_inv k t Hp HI) as (k2 & H2 & ?). congruence.
  - unfold suspend_current, take_current_tcb, st_bind, of_option, of_res in H. by rewrite Hp in H.
Qed.

Lemma bind_current {B} (f : option Z -> st kernel B) k : st_bind current_tcb f k = f (processor k) k.
Proof. done. Qed.
#[local] Hint Rewrite @bind_current : run.

(** Split a run at the lookups it makes. *)
Ltac run_cases H :=
  autorewrite with run in H;
  repeat (match type of H with
          | match ?o with Some _ => _ | None => _ end = Ok _ => destruct o eqn:?; [|done]
          | (if ?b then _ else _) _ = Ok _ => destruct b eqn:?
          | (match ?q with [] => _ | _ :: _ => _ end) _ = Ok _ => destruct q eqn:?
          end; autorewrite with run in H).

Lemma mutex_lock_preserves i : preserves (mutex_lock i).
Proof.
  intros k a k' H HI. unfold mutex_lock in H. run_cases H. destruct m as [[]|[] q]; run_cases H.
  - apply st_bind_inv in H as (u & k1 & H1 & [= <- <-]). by eapply suspend_preserves.
  - destruct (set_mutex_waiting k i _ (Spin true) Heqo) as (R & H1 & H2). injection H as <- <-.
    apply (neutral_inv k); [by split_and!|by rewrite H1, H2|done].
  - apply st_bind_inv in H as (u & k1 & H & [= <- <-]).
    destruct (set_mutex_waiting k i _ (Blocking true (q ++ [z])) Heqo) as (R & H1 & H2).
    eapply (push_block k); [|done|exact H1|exact H2|done|exact H]. by split_and!.
  - destruct (set_mutex_waiting k i _ (Blocking true q) Heqo) as (R & H1 & H2). injection H as <- <-.
    apply (neutral_inv k); [by split_and!|by rewrite H1, H2|done].
Qed.

Lemma mutex_unlock_preserves i : preserves (mutex_unlock i).
Proof.
  intros k a k' H HI. unfold mutex_unlock in H. run_cases H. destruct m as [b|[] q].
  - destruct (set_mutex_waiting k i _ (Spin false) Heqo) as (R & H1 & H2). injection H as <- <-.
    apply (neutral_inv k); [by split_and!|by rewrite H1, H2|done].
  - rewrite bind_check in H. destruct q as [|t q]; cbn beta iota in H.
    + destruct (set_mutex_waiting k i _ (Blocking false []) Heqo) as (R & H1 & H2). injection H as <- <-.
      apply (neutral_inv k); [by split_and!|by rewrite H1, H2|done].
    + rewrite bind_modify in H.
      destruct (set_mutex_waiting k i _ (Blocking true q) Heqo) as (R & H1 & H2).
      eapply (pop_wakeup k); [|exact H1|exact H2|done|exact H]. by split_and!.
  - by rewrite bind_check in H.
Qed.

Lemma semaphore_up_preserves i : preserves (semaphore_up i).
Proof.
  intros k a k' H HI. unfold semaphore_up in H. rewrite bind_get, bind_option in H.
  destruct (semaphores k !! i) as [[c q]|] eqn:Hs; [|done]. cbn [count sem_queue] in H.
  set (c' := i64 (c + 1)) in *. destruct (c' <=? 0); [destruct q as [|t q]|].
  - destruct (set_semaphore_waiting k i _ (MkSem c' []) Hs) as (R & H1 & H2). injection H as <- <-.
    apply (neutral_inv k); [by split_and!|by rewrite H1, H2|done].
  - rewrite bind_modify in H. destruct (set_semaphore_waiting k i _ (MkSem c' q) Hs) as (R & H1 & H2).
    eapply (pop_wakeup k); [|exact H1|exact H2|done|exact H]. by split_and!.
  - destruct (set_semaphore_waiting k i _ (MkSem c' q) Hs) as (R & H1 & H2). injection H as <- <-.
    apply (neutral_inv k); [by split_and!|by rewrite H1, H2|done].
Qed.

Lemma semaphore_down_preserves i : preserves (semaphore_down i).
Proof.
  intros k a k' H HI. unfold semaphore_down in H. rewrite bind_get, bind_option in H.
  destruct (semaphores k !! i) as [[c q]|] eqn:Hs; [|done]. cbn [count sem_queue] in H.
  set (c' := i64 (c - 1)) in *. destruct (c' <? 0).
  - run_cases H. apply st_bind_inv in H as (u & k1 & H & [= <- <-]).
    destruct (set_semaphore_waiting k i _ (MkSem c' (q ++ [z])) Hs) as (R & H1 & H2).
    eapply (push_block k); [|done|exact H1|exact H2|done|exact H]. by split_and!.
  - run_cases H. destruct (set_semaphore_waiting k i _ (MkSem c' q) Hs) as (R & H1 & H2). injection H as <- <-.
    apply (neutral_inv k); [by split_and!|by rewrite H1, H2|done].
Qed.

Lemma condvar_signal_preserves i : preserves (condvar_signal i).
Proof.
  intros k a k' H HI. unfold condvar_signal in H. rewrite bind_get, bind_option in H.
  destruct (condvars k !! i) as [[[|t q]]|] eqn:Hc; [| |done]; cbn [cond_queue] in H.
  - by injection H as <- <-.
  - rewrite bind_modify in H. destruct (set_condvar_waiting k i _ (MkCond q) Hc) as (R & H1 & H2).
    eapply (pop_wakeup k); [|exact H1|exact H2|done|exact H]. by split_and!.
Qed.

Lemma condvar_wait_preserves i : preserves (condvar_wait_no_sched i).
Proof.
  intros k a k' H HI. unfold condvar_wait_no_sched in H. run_cases H.
  destruct (set_condvar_waiting k i _ (MkCond (cond_queue c ++ [z])) Heqo) as (R & H1 & H2).
  eapply (push_block k); [|done|exact H1|exact H2|done|exact H]. by split_and!.
Qed.

Lemma sys_sleep_preserves now ms : preserves (sys_sleep now ms).
Proof.
  intros k a k' H HI. unfold sys_sleep in H. run_cases H.
  unfold add_timer in H. rewrite bind_modify in H.
  destruct (block_inv k (set_timers (MkTimer (w64 (now + ms)) z :: timers k) k) z) as (k2 & Hrun & HI2);
    [by split_and!|done| |done|congruence].
  unfold waiting. cbn [mutexes semaphores condvars timers set_timers fmap list_fmap timer_task].
  by rewrite <- !Permutation_middle.
Qed.

(** ** Timers *)

Lemma peek_None l : peek l = None -> l = [].
Proof. destruct l as [|t l]; [done|]. cbn. destruct (peek l) as [u|]; [destruct (_ <=? _)|]; done. Qed.

Lemma peek_least l x : peek l = Some x -> x ∈ l /\ Forall (fun y => expire_ms x <= expire_ms y) l.
Proof.
  revert x. induction l as [|t l IH]; intros x; [done|]. cbn. destruct (peek l) as [u|] eqn:E.
  - destruct (IH u eq_refl) as [Hin Hall]. destruct (Z.leb_spec (expire_ms t) (expire_ms u)); intros [= <-].
    + split; [by left|]. apply Forall_cons. split; [lia|]. eapply Forall_impl; [exact Hall|]. cbn. lia.
    + split; [by right|]. apply Forall_cons. split; [lia|done].
  - intros [= <-]. apply peek_None in E as ->. split; [by left|]. by apply Forall_singleton.
Qed.

Lemma remove_timer_perm x l : x ∈ l -> l ≡ₚ x :: remove_timer x l.
Proof.
  induction l as [|t l IH]; [by intros ?%not_elem_of_nil|]. intros Hin. cbn. case_decide as E; [by subst|].
  apply elem_of_cons in Hin as [?|Hin]; [congruence|]. rewrite (IH Hin) at 1. apply Permutation_swap.
Qed.

(** The state after the timers [es] have gone off. *)
Definition fired (es rest : list TimeCondVar) (k : kernel) : kernel :=
  MkKernel (foldl (fun m t => <[timer_task t := Ready]> m) (task_status k) es)
    (ready_queue k ++ (timer_task <$> es)) (processor k) (mutexes k) (semaphores k) (condvars k) rest.

Lemma check_timer_loop_spec now : forall fuel k,
  (length (timers k) < fuel)%nat ->
  exists es rest, check_timer_loop fuel now k = Ok (tt, fired es rest k) /\
    timers k ≡ₚ es ++ rest /\ Forall (fun t => expire_ms t <= now) es /\
    Forall (fun t => now < expire_ms t) rest /\ Sorted Z.le (expire_ms <$> es) /\
    (k_inv k -> k_inv (fired es rest k)).
Proof.
  induction fuel as [|fuel IH]; intros k Hf; [lia|]. cbn [check_timer_loop]. rewrite bind_get.
  assert (fired [] (timers k) k = k) as Hnone by (destruct k; unfold fired; cbn; by rewrite app_nil_r).
  destruct (peek (timers k)) as [x|] eqn:Ep.
  2:{ apply peek_None in Ep. exists [], (timers k). rewrite Hnone, Ep. split_and!; try done; constructor. }
  apply peek_least in Ep as [Hin Hleast]. destruct (Z.leb_spec (expire_ms x) now) as [Hx|Hx].
  2:{ exists [], (timers k). rewrite Hnone. split_and!; try done; try constructor.
      eapply Forall_impl; [exact Hleast|]. cbn. lia. }
  pose proof (remove_timer_perm x _ Hin) as Hperm.
  set (k1 := fired [x] (remove_timer x (timers k)) k).
  assert ((wakeup (timer_task x) ;* modify (fun k => set_timers (remove_timer x (timers k)) k) ;*
           check_timer_loop fuel now) k = check_timer_loop fuel now k1) as -> by done.
  destruct (IH k1) as (es & rest & Hrun & Hp & He & Hr & Hs & HI).
  { cbn [k1 fired timers]. apply Permutation_length in Hperm. cbn in Hperm. lia. }
  cbn [k1 fired timers] in Hp. rewrite Hp in Hperm.
  exists (x :: es), rest. split_and!; try done.
  - rewrite Hrun. do 2 f_equal. unfold fired, k1. cbn. by rewrite <- app_assoc.
  - by apply Forall_cons.
  - cbn [fmap list_fmap]. apply Sorted_cons; [done|]. destruct es as [|e es]; [constructor|]. constructor.
    rewrite Forall_forall in Hleast. apply Hleast. rewrite Hperm. set_solver.
  - intros HK. assert (k_inv k1) as HK1.
    { destruct (wakeup_inv k (set_timers (remove_timer x (timers k)) k) (timer_task x)) as (k2 & Hrun2 & HI2);
        [by split_and!| |done|].
      - unfold waiting. cbn [mutexes semaphores condvars timers set_timers].
        rewrite (remove_timer_perm x _ Hin) at 1. cbn [fmap list_fmap]. by rewrite <- !Permutation_middle.
      - unfold wakeup, st_bind, modify, add in Hrun2. cbn [res_bind] in Hrun2. by injection Hrun2 as <-. }
    specialize (HI HK1). unfold fired, k1 in HI |- *. cbn in HI |- *. by rewrite <- app_assoc in HI.
Qed.

(** [check_timer] wakes exactly the tasks whose timer has expired, in the
    order of expiry, and keeps exactly the other timers. *)
Theorem check_timer_correct now k :
  exists es rest, check_timer now k = Ok (tt, fired es rest k) /\
    timers k ≡ₚ es ++ rest /\ Forall (fun t => expire_ms t <= now) es /\
    Forall (fun t => now < expire_ms t) rest /\ Sorted Z.le (expire_ms <$> es).
Proof.
  unfold check_timer. destruct (check_timer_loop_spec now (S (length (timers k))) k) as (es & rest & H); [lia|].
  exists es, rest. naive_solver.
Qed.

(** A timer interrupt in the kernel between the two steps of [sys_sleep] that
    finds the time over: the task is woken while it runs, and is then in the
    ready queue with the status of a blocked task. *)
Lemma sleep_window k t expire now :
  processor k = Some t -> timers k = [] -> expire <= now ->
  exists k', (add_timer expire t ;* check_timer now ;* block_current) k = Ok (tt, k') /\
    ready_queue k' = ready_queue k ++ [t] /\ task_status k' !! t = Some Blocked /\ timers k' = [] /\ processor k' = None.
Proof.
  intros Hp Ht He. unfold add_timer. rewrite bind_modify, Ht. set (k1 := set_timers _ k).
  destruct (check_timer_correct now k1) as (es & rest & Hrun & Hperm & _ & Hrest & _).
  rewrite (st_bind_Ok _ _ _ _ _ Hrun). cbn in Hperm. symmetry in Hperm. apply Permutation_singleton_r in Hperm.
  apply app_eq_unit in Hperm as [[-> ->]|[-> ->]].
  { inversion Hrest as [|? ? H]; subst. cbn in H. lia. }
  unfold block_current, take_current_tcb, st_bind. cbn. rewrite Hp. cbn. eexists. split; [done|]. cbn.
  split_and!; [done|by rewrite lookup_insert_eq|done|done].
Qed.

(** ** Every run *)

Inductive op :=
  | ORun                          (** a round of [run_tasks] *)
  | OYield | OLock (i : nat) | OUnlock (i : nat) | OUp (i : nat) | ODown (i : nat)
  | OSignal (i : nat) | OWait (i m : nat) | OWaitIrq (i : nat)
  | OSleep (now ms : Z) | OTimer (now : Z)
  | OSpawn (t : Z)                (** a new task, added to the ready queue *)
  | OExit                         (** the current task ends *)
  | ONewMutex (blocking : bool) | ONewSemaphore (n : Z) | ONewCondvar.

Definition spawn (t : Z) : st kernel () :=
  let* k := get in
  check (negb (bool_decide (is_Some (task_status k !! t)))) ;*
  modify (set_status t Ready) ;*
  add t.

Definition exit_current : st kernel () :=
  let* o := take_current_tcb in
  let* t := of_option o in
  modify (fun k => MkKernel (delete t (task_status k)) (ready_queue k) (processor k) (mutexes k)
                     (semaphores k) (condvars k) (timers k)).

Definition void {A} (p : st kernel A) : st kernel () := let* _ := p in ret tt.

Definition exec (o : op) : st kernel () :=
  match o with
  | ORun => let* k := get in check (bool_decide (processor k = None)) ;* void run_tasks_once
  | OYield => suspend_current
  | OLock i => void (mutex_lock i)
  | OUnlock i => mutex_unlock i
  | OUp i => semaphore_up i
  | ODown i => void (semaphore_down i)
  | OSignal i => condvar_signal i
  | OWait i m => condvar_wait_with_mutex i m
  | OWaitIrq i => condvar_wait_no_sched i
  | OSleep now ms => sys_sleep now ms
  | OTimer now => check_timer now
  | OSpawn t => spawn t
  | OExit => exit_current
  | ONewMutex b => modify (fun k => MkKernel (task_status k) (ready_queue k) (processor k)
      (mutexes k ++ [if b then Blocking false [] else Spin false]) (semaphores k) (condvars k) (timers k))
  | ONewSemaphore n => modify (fun k => MkKernel (task_status k) (ready_queue k) (processor k)
      (mutexes k) (semaphores k ++ [Semaphore_new n]) (condvars k) (timers k))
  | ONewCondvar => modify (fun k => MkKernel (task_status k) (ready_queue k) (processor k)
      (mutexes k) (semaphores k) (condvars k ++ [MkCond []]) (timers k))
  end.

Definition boot : kernel := MkKernel ∅ [] None [] [] [] [].

Lemma spawn_preserves t : preserves (spawn t).
Proof.
  intros k a k' H [Hn Hi]. unfold spawn in H. autorewrite with run in H. case_bool_decide as Ht; [done|].
  rewrite <- eq_None_not_Some in Ht. injection H as <- <-.
  set (k2 := set_ready _ _). assert (located k2 ≡ₚ (t, Ready) :: located k) as Hl.
  { unfold located, k2. cbn [processor ready_queue set_status set_ready]. rewrite fmap_app, <- app_assoc.
    cbn [fmap list_fmap app]. by rewrite <- !Permutation_middle. }
  split.
  - rewrite Hl. cbn. apply NoDup_cons. split; [|done]. intros ([u s] & -> & Hin)%list_elem_of_fmap.
    apply Hi in Hin. cbn in Ht. congruence.
  - intros u s. rewrite Hl, elem_of_cons. cbn [k2 set_ready task_status set_status].
    destruct (decide (u = t)) as [->|Hne].
    + rewrite lookup_insert_eq. split; [intros [= <-]; by left|]. intros [[= ->]|Hin%Hi]; [done|congruence].
    + rewrite lookup_insert_ne by done. rewrite Hi. naive_solver.
Qed.

Lemma exit_preserves : preserves exit_current.
Proof.
  intros k a k' H [Hn Hi]. unfold exit_current, take_current_tcb, st_bind, of_option, of_res in H.
  destruct (processor k) as [t|] eqn:Hp; [|done]. cbn [unwrap res_bind] in H. injection H as <- <-.
  set (k2 := MkKernel _ _ _ _ _ _ _). assert (located k = (t, Running) :: located k2) as Hl.
  { unfold located. by rewrite Hp. }
  rewrite Hl in Hn. cbn in Hn. apply NoDup_cons in Hn as [Ht Hn]. split; [done|].
  intros u s. cbn [task_status k2 set_processor]. rewrite lookup_delete_Some, Hi, Hl, elem_of_cons. split.
  - naive_solver.
  - intros Hin. split; [|by right]. intros ->. apply Ht, list_elem_of_fmap. by exists (u, s).
Qed.

Lemma void_preserves {A} (p : st kernel A) : preserves p -> preserves (void p).
Proof. intros Hp. apply moves_bind; [done|]. intros _. apply moves_ret. Qed.

Lemma exec_preserves o : preserves (exec o).
Proof.
  destruct o; cbn [exec].
  - intros k a k' H HI. autorewrite with run in H. case_bool_decide as Hp; [|done].
    destruct (run_inv k Hp HI) as (o & k2 & Hrun & HI2 & _). unfold void in H.
    rewrite (st_bind_Ok _ _ _ _ _ Hrun) in H. by injection H as <- <-.
  - apply suspend_preserves.
  - apply void_preserves, mutex_lock_preserves.
  - apply mutex_unlock_preserves.
  - apply semaphore_up_preserves.
  - apply void_preserves, semaphore_down_preserves.
  - apply condvar_signal_preserves.
  - apply moves_bind; [apply mutex_unlock_preserves|intros _; apply condvar_wait_preserves].
  - apply condvar_wait_preserves.
  - apply sys_sleep_preserves.
  - intros k a k' H HI. unfold check_timer in H.
    destruct (check_timer_loop_spec now (S (length (timers k))) k) as (es & rest & Hrun & _ & _ & _ & _ & HI2); [lia|].
    rewrite Hrun in H. injection H as <- <-. by apply HI2.
  - apply spawn_preserves.
  - apply exit_preserves.
  - intros k a k' [= <- <-] HI. apply (neutral_inv k); [by split_and!| |done].
    unfold waiting. cbn. rewrite fmap_app, concat_app. cbn. destruct blocking; cbn; by rewrite app_nil_r.
  - intros k a k' [= <- <-] HI. apply (neutral_inv k); [by split_and!| |done].
    unfold waiting. cbn. rewrite fmap_app, concat_app. cbn. by rewrite app_nil_r.
  - intros k a k' [= <- <-] HI. apply (neutral_inv k); [by split_and!| |done].
    unfold waiting. cbn. rewrite fmap_app, concat_app. cbn. by rewrite app_nil_r.
Qed.

Lemma boot_inv : k_inv boot.
Proof. split; [constructor|]. intros t s. cbn. rewrite lookup_empty. split; [done|by intros ?%not_elem_of_nil]. Qed.


(** ** Mutual exclusion *)

Definition locked (m : Mutex) : bool := match m with Spin b => b | Blocking b _ => b end.

(** The pairs [(i, t)] of a mutex [i] and a task [t] that holds it: [lock] has
    returned, or [unlock] has passed it on to the woken waiter. *)
Abbreviation holds := (list (nat * Z)).

(** The waiter that [unlock] passes the mutex to. *)
Definition passed_to (k : kernel) (i : nat) : holds :=
  match mutexes k !! i with Some (Blocking _ (w :: _)) => [(i, w)] | _ => [] end.

Definition is_mutex_op (o : op) : bool :=
  match o with OLock _ | OUnlock _ | OWait _ _ => true | _ => false end.

(** Tasks lock mutexes they do not hold and unlock those they hold. *)
Inductive holder_step : kernel * holds -> kernel * holds -> Prop :=
  | hs_lock k h i t r k' :
      processor k = Some t -> (i, t) ∉ h -> mutex_lock i k = Ok (r, k') ->
      holder_step (k, h) (k', match r with Acquired => (i, t) :: h | _ => h end)
  | hs_unlock k h i t k' :
      processor k = Some t -> (i, t) ∈ h -> mutex_unlock i k = Ok (tt, k') ->
      holder_step (k, h) (k', passed_to k i ++ filter (fun p => p <> (i, t)) h)
  | hs_wait k h c i t k' :
      processor k = Some t -> (i, t) ∈ h -> condvar_wait_with_mutex c i k = Ok (tt, k') ->
      holder_step (k, h) (k', passed_to k i ++ filter (fun p => p <> (i, t)) h)
  | hs_other k h o k' :
      is_mutex_op o = false -> exec o k = Ok (tt, k') -> holder_step (k, h) (k', h).

Definition held (h : holds) (i : nat) : holds := filter (fun p => p.1 = i) h.

Definition excl_inv (k : kernel) (h : holds) : Prop :=
  forall i, length (held h i) =
    match mutexes k !! i with Some m => if locked m then 1%nat else O | None => O end.

(** Every operation that is none on mutexes leaves them alone. *)
Abbreviation same_mutexes := (moves (eq_on mutexes)).

Lemma fetch_moves {V} (f : kernel -> V) : (forall q k, f (set_ready q k) = f k) -> moves (eq_on f) fetch.
Proof. intros Hf k a k' H. unfold fetch in H. destruct (ready_queue k); simplify_eq; [done|]. apply Hf. Qed.
#[export] Hint Extern 1 (moves (eq_on _) fetch) => apply fetch_moves; done : moves.
#[export] Hint Extern 1 (moves (eq_on _) (modify _)) => by apply moves_modify : moves.
#[export] Hint Extern 2 (moves (eq_on _) _) => by intros ? ? ? [= <- <-] : moves.

Lemma other_same_mutexes o k k' :
  is_mutex_op o = false -> exec o k = Ok (tt, k') ->
  mutexes k' = mutexes k \/ exists b, mutexes k' = mutexes k ++ [if b : bool then Blocking false [] else Spin false].
Proof.
  intros Ho H. destruct o; try done; cbn [exec] in H; try (by injection H as <-; right; eexists);
    left; revert H; match goal with |- ?p k = _ -> _ => enough (same_mutexes p) as HS by apply HS end;
    unfold void, run_tasks_once, suspend_current, semaphore_up, semaphore_down, condvar_signal, wakeup, add,
      condvar_wait_no_sched, sys_sleep, add_timer, spawn, exit_current, block_current; follow.
  intros k0 u k1 H. destruct (check_timer_loop_spec now (S (length (timers k0))) k0) as (es & rest & Hrun & _); [lia|].
  unfold check_timer in H. rewrite Hrun in H. by injection H as <- <-.
Qed.

Lemma held_remove h i t j :
  (length (held h i) <= 1)%nat -> (i, t) ∈ h ->
  held (filter (fun p => p <> (i, t)) h) j = if decide (j = i) then [] else held h j.
Proof.
  intros Hl Hin. unfold held. rewrite list_filter_filter. case_decide as E; [subst j|].
  - apply filter_none. intros [a b] Hab [E Hne]. cbn in E. subst a.
    assert (length (held h i) >= 2)%nat; [|lia].
    assert ((i, t) ∈ held h i /\ (i, b) ∈ held h i) as [H1 H2] by (split; apply list_elem_of_filter; done).
    destruct (held h i) as [|x [|y l]]; [by apply not_elem_of_nil in H1| |cbn; lia].
    apply list_elem_of_singleton in H1, H2. congruence.
  - apply list_filter_iff. intros [a b]. cbn. naive_solver.
Qed.

Lemma held_app h h' i : held (h ++ h') i = held h i ++ held h' i.
Proof. apply filter_app. Qed.

Lemma unlock_excl k h i t k' :
  excl_inv k h -> (i, t) ∈ h -> mutex_unlock i k = Ok (tt, k') ->
  excl_inv k' (passed_to k i ++ filter (fun p => p <> (i, t)) h).
Proof.
  intros HI Hin Hrun j.
  assert (length (held h i) <= 1)%nat as Hle by (rewrite HI; destruct (mutexes k !! i) as [m|]; [destruct (locked m)|]; lia).
  rewrite held_app, held_remove by done. unfold mutex_unlock in Hrun. autorewrite with run in Hrun. unfold passed_to.
  destruct (mutexes k !! i) as [m|] eqn:Hm; [|done]. pose proof (lookup_lt_Some _ _ _ Hm) as Hlt.
  assert (exists m', mutexes k' = <[i := m']> (mutexes k) /\ locked m' = bool_decide (mutex_queue m <> [])) as (m' & -> & Hlk).
  { destruct m as [b|[] [|w q]]; rewrite ?bind_check in Hrun; try done; injection Hrun as <-; by eexists. }
  destruct (decide (j = i)) as [->|Hne].
  - rewrite list_lookup_insert_eq by done. rewrite Hlk. destruct m as [b|b [|w q]]; [done|done|].
    unfold held. by rewrite filter_cons_True.
  - rewrite list_lookup_insert_ne by done. rewrite <- HI.
    destruct m as [b|b [|w q]]; [done|done|]. unfold held. by rewrite filter_cons_False.
Qed.

Lemma lock_excl k h i t r k' :
  excl_inv k h -> mutex_lock i k = Ok (r, k') ->
  excl_inv k' (match r with Acquired => (i, t) :: h | _ => h end).
Proof.
  intros HI Hrun j. unfold mutex_lock in Hrun. autorewrite with run in Hrun.
  destruct (mutexes k !! i) as [m|] eqn:Hm; [|done]. pose proof (lookup_lt_Some _ _ _ Hm) as Hlt.
  pose proof (HI i) as Hi. rewrite Hm in Hi.
  assert ((r = Acquired /\ locked m = false /\ exists m', mutexes k' = <[i := m']> (mutexes k) /\ locked m' = true) \/
          (r <> Acquired /\ locked m = true /\ (mutexes k' = mutexes k \/ exists q', mutexes k' = <[i := Blocking true q']> (mutexes k))))
    as [(-> & Hl & m' & -> & Hl')|(Hr & Hl & Hm')].
  { destruct m as [[]|[] q]; autorewrite with run in Hrun.
    - right. apply st_bind_inv in Hrun as (u & k1 & H1 & [= <- <-]). split_and!; try done. left.
      unfold suspend_current, take_current_tcb, st_bind, of_option, of_res in H1.
      destruct (processor k); [|done]. by injection H1 as <- <-.
    - left. injection Hrun as <- <-. split_and!; try done. by eexists.
    - right. destruct (processor k) as [u|] eqn:Hp; [|done].
      autorewrite with run in Hrun. apply st_bind_inv in Hrun as (v & k1 & H1 & [= <- <-]).
      split_and!; try done. right. unfold block_current, take_current_tcb, st_bind, of_option, of_res in H1.
      cbn [processor set_mutex] in H1. rewrite Hp in H1. injection H1 as <- <-. by eexists.
    - left. injection Hrun as <- <-. split_and!; try done. by eexists. }
  - rewrite Hl in Hi. destruct (decide (j = i)) as [->|Hne].
    + rewrite list_lookup_insert_eq, Hl' by done. unfold held in *. rewrite filter_cons_True by done. cbn. by rewrite Hi.
    + rewrite list_lookup_insert_ne by done. unfold held. rewrite filter_cons_False by (cbn; congruence). apply HI.
  - destruct r; try done; (destruct Hm' as [-> |[q' ->]]; [apply HI|]);
      (destruct (decide (j = i)) as [->|Hne];
        [rewrite list_lookup_insert_eq by done; cbn; by rewrite Hi, Hl|rewrite list_lookup_insert_ne by done; apply HI]).
Qed.

Lemma holder_step_inv k h k' h' : excl_inv k h -> holder_step (k, h) (k', h') -> excl_inv k' h'.
Proof.
  intros HI Hs. inversion Hs; subst.
  - by eapply lock_excl.
  - by eapply unlock_excl.
  - unfold condvar_wait_with_mutex in H5. apply st_bind_inv in H5 as ([] & k1 & H1 & H2).
    pose proof (unlock_excl k h i t k1 HI H4 H1) as HI1.
    assert (mutexes k' = mutexes k1) as E.
    { revert H2. enough (same_mutexes (condvar_wait_no_sched c)) as HS by apply HS.
      unfold condvar_wait_no_sched, block_current. follow. }
    intros j. rewrite E. apply HI1.
  - intros j. destruct (other_same_mutexes o k k' H2 H4) as [-> |[b ->]]; [apply HI|]. rewrite HI.
    destruct (mutexes k !! j) as [m|] eqn:Hm.
    + by rewrite (lookup_app_l_Some _ _ _ _ Hm).
    + apply lookup_ge_None in Hm. rewrite lookup_app_r by done.
      destruct (j - length (mutexes k))%nat as [|n]; [destruct b; done|done].
Qed.

(** C10: mutual exclusion: as long as tasks unlock only what they hold, at most
    one task holds a mutex at any time, blocking or spinning, and a mutex is
    locked exactly while one does. *)
Theorem mutual_exclusion k h i :
  rtc holder_step (boot, []) (k, h) ->
  (forall t t', (i, t) ∈ h -> (i, t') ∈ h -> t = t') /\
  (forall m, mutexes k !! i = Some m -> locked m = true <-> exists t, (i, t) ∈ h).
Proof.
  intros Hreach. assert (excl_inv k h) as HI.
  { remember (boot, []) as s0 eqn:E0. remember (k, h) as s eqn:E. revert k h E.
    assert (excl_inv s0.1 s0.2) as H0 by (subst; done). clear E0.
    induction Hreach as [s|[k1 h1] [k2 h2] s3 H1 _ IH]; intros k h ->; [done|].
    eapply IH; [|done]. by eapply holder_step_inv. }
  specialize (HI i). assert (forall t, (i, t) ∈ h <-> (i, t) ∈ held h i) as Hh.
  { intros t. unfold held. rewrite list_elem_of_filter. naive_solver. }
  split.
  - intros t t' Ht Ht'. rewrite Hh in Ht, Ht'.
    assert (length (held h i) <= 1)%nat as Hle by (rewrite HI; destruct (mutexes k !! i) as [m|]; [destruct (locked m)|]; lia).
    destruct (held h i) as [|x [|y l]]; [by apply not_elem_of_nil in Ht| |cbn in Hle; lia].
    apply list_elem_of_singleton in Ht, Ht'. congruence.
  - intros m Hm. rewrite Hm in HI. destruct (locked m); split; try done.
    + intros _. destruct (held h i) as [|[j t] l] eqn:E; [done|].
      assert ((j, t) ∈ held h i) as Hin by (rewrite E; by left). pose proof Hin as Hin'.
      apply list_elem_of_filter in Hin' as [Hj Hth]. cbn in Hj. subst j. by exists t.
    + intros [t Ht]. rewrite Hh in Ht. apply nil_length_inv in HI. rewrite HI in Ht. by apply not_elem_of_nil in Ht.
Qed.

(** ** Semaphores *)

(** As many tasks wait as the count is below zero; [b] bounds the count. *)
Definition sem_ok (b : Z) (s : Semaphore) : Prop :=
  - b <= count s <= 2 ^ 61 + b /\ Z.of_nat (length (sem_queue s)) = Z.max 0 (- count s).

Lemma sem_ok_mono b b' s : b <= b' -> sem_ok b s -> sem_ok b' s.
Proof. unfold sem_ok. lia. Qed.

Lemma i64_id x : - 2 ^ 63 <= x < 2 ^ 63 -> i64 x = x.
Proof. intros H. unfold i64. rewrite Z.mod_small by lia. lia. Qed.

Definition fits (o : op) : Prop :=
  match o with ONewSemaphore n => 0 <= n <= 2 ^ 61 | _ => True end.

(** Operations that are none on semaphores. *)
Abbreviation same_sems := (moves (eq_on semaphores)).

Lemma block_same_sems : same_sems block_current.
Proof. unfold block_current. follow. Qed.

Lemma exec_sem_ok o b k k' :
  0 <= b < 2 ^ 62 -> fits o -> Forall (sem_ok b) (semaphores k) -> exec o k = Ok (tt, k') ->
  Forall (sem_ok (b + 1)) (semaphores k').
Proof.
  intros Hb Hfit Hall H.
  assert (Forall (sem_ok (b + 1)) (semaphores k)) as Hall'
    by (eapply Forall_impl; [exact Hall|]; intros s; apply sem_ok_mono; lia).
  assert (forall p : st kernel (), same_sems p -> p k = Ok (tt, k') -> Forall (sem_ok (b + 1)) (semaphores k')) as Hsame.
  { intros p HS Hrun. by rewrite (HS _ _ _ Hrun). }
  destruct o; cbn [exec] in H;
    try (revert H; apply Hsame; unfold void, run_tasks_once, mutex_lock, condvar_wait_with_mutex, mutex_unlock,
      condvar_signal, condvar_wait_no_sched, sys_sleep, add_timer, spawn, exit_current, suspend_current,
      block_current, wakeup, add; follow; fail).
  - unfold semaphore_up in H. rewrite bind_get, bind_option in H.
    destruct (semaphores k !! i) as [[c q]|] eqn:Hs; [|done]. cbn [count sem_queue] in H.
    pose proof (proj1 (Forall_lookup _ _) Hall i _ Hs) as [Hc Hq]. cbn [count sem_queue] in Hc, Hq.
    rewrite i64_id in H by lia.
    assert (exists q', semaphores k' = <[i := MkSem (c + 1) q']> (semaphores k) /\ Z.of_nat (length q') = Z.max 0 (- (c + 1)))
      as (q' & -> & Hq').
    { destruct (Z.leb_spec (c + 1) 0); [destruct q as [|t q]|].
      - cbn in Hq. lia.
      - injection H as <-. exists q. split; [done|]. cbn in Hq. lia.
      - injection H as <-. exists q. split; [done|]. lia. }
    apply Forall_insert; [done|]. split; cbn; lia.
  - unfold void in H. apply st_bind_inv in H as (u & k1 & H & [= <-]).
    unfold semaphore_down in H. rewrite bind_get, bind_option in H.
    destruct (semaphores k !! i) as [[c q]|] eqn:Hs; [|done]. cbn [count sem_queue] in H.
    pose proof (proj1 (Forall_lookup _ _) Hall i _ Hs) as [Hc Hq]. cbn [count sem_queue] in Hc, Hq.
    rewrite i64_id in H by lia.
    assert (exists q', semaphores k1 = <[i := MkSem (c - 1) q']> (semaphores k) /\ Z.of_nat (length q') = Z.max 0 (- (c - 1)))
      as (q' & -> & Hq').
    { destruct (Z.ltb_spec (c - 1) 0).
      - run_cases H. apply st_bind_inv in H as (v & k2 & H & [= <- <-]). apply block_same_sems in H.
        exists (q ++ [z]). split; [done|]. rewrite length_app. cbn. lia.
      - injection H as <- <-. exists q. split; [done|]. lia. }
    apply Forall_insert; [done|]. split; cbn; lia.
  - destruct (check_timer_loop_spec now (S (length (timers k))) k) as (es & rest & Hrun & _); [lia|].
    unfold check_timer in H. rewrite Hrun in H. by injection H as <-.
  - injection H as <-. cbn in Hfit |- *. apply Forall_app. split; [done|]. apply Forall_singleton.
    unfold Semaphore_new, sem_ok. cbn. rewrite i64_id by lia. lia.
Qed.

(** Semaphores: after any run of fewer than 2^62 operations (semaphores
    created with at most 2^61 resources), as many tasks
    wait on a semaphore as its count is below zero; in particular no task
    waits while a resource is available. *)
Theorem semaphore_waiters ops k i s :
  Z.of_nat (length ops) < 2 ^ 62 -> Forall fits ops ->
  iter_st exec ops boot = Ok (tt, k) -> semaphores k !! i = Some s ->
  Z.of_nat (length (sem_queue s)) = Z.max 0 (- count s).
Proof.
  intros Hlen Hfit Hrun Hs.
  assert (forall ops b k0, 0 <= b -> b + Z.of_nat (length ops) < 2 ^ 62 -> Forall fits ops ->
    Forall (sem_ok b) (semaphores k0) -> iter_st exec ops k0 = Ok (tt, k) ->
    Forall (sem_ok (b + Z.of_nat (length ops))) (semaphores k)) as Hgen.
  { clear. induction ops as [|o ops IH]; intros b k0 Hb Hl Hf Hall H; cbn [length] in *.
    - injection H as <-. by rewrite Z.add_0_r.
    - apply Forall_cons in Hf as [Ho Hf]. cbn [iter_st] in H. apply st_bind_inv in H as ([] & k1 & H1 & H2).
      pose proof (exec_sem_ok o b k0 k1 ltac:(lia) Ho Hall H1) as Hall1.
      replace (b + Z.of_nat (S (length ops))) with (b + 1 + Z.of_nat (length ops)) by lia.
      apply (IH (b + 1) k1); [lia|lia|done|done|done]. }
  specialize (Hgen ops 0 boot ltac:(lia) ltac:(lia) Hfit ltac:(constructor) Hrun).
  by apply (proj1 (Forall_lookup _ _) Hgen i s) in Hs as [_ Hq].
Qed.

(** ** Witnesses *)

(** Three tasks; the first locks a mutex, the second blocks on it. *)
Definition demo_ops : list op :=
  [ONewMutex true; ONewSemaphore 0; OSpawn 1; OSpawn 2; OSpawn 3; ORun; OLock 0; OYield; ORun; OLock 0;
   ORun; ODown 0].
Definition demo_k : kernel := match iter_st exec demo_ops boot with Ok (_, k) => k | Panic _ => boot end.


Lemma semaphore_waiters_witness :
  Z.of_nat (length (sem_queue (MkSem (-1) [3]))) = Z.max 0 (- count (MkSem (-1) [3])).
Proof.
  apply (semaphore_waiters demo_ops demo_k 0 (MkSem (-1) [3])).
  - reflexivity.
  - repeat (apply Forall_cons; split; [by vm_compute|]). constructor.
  - by vm_compute.
  - by vm_compute.
Defined.

Definition lock_k0 : kernel :=
  match iter_st exec [ONewMutex true; OSpawn 1; ORun] boot with Ok (_, k) => k | Panic _ => boot end.
Definition lock_k1 : kernel := match mutex_lock 0 lock_k0 with Ok (_, k) => k | Panic _ => boot end.

Lemma mutual_exclusion_witness :
  rtc holder_step (boot, []) (lock_k1, [(0%nat, 1)]) /\
  forall t t', (0%nat, t) ∈ [(0%nat, 1)] -> (0%nat, t') ∈ [(0%nat, 1)] -> t = t'.
Proof.
  assert (rtc holder_step (boot, []) (lock_k1, [(0%nat, 1)])) as Hr.
  { eapply rtc_l; [eapply (hs_other _ _ (ONewMutex true)); [done|reflexivity]|].
    eapply rtc_l; [eapply (hs_other _ _ (OSpawn 1)); [done|by vm_compute]|].
    eapply rtc_l; [eapply (hs_other _ _ ORun); [done|by vm_compute]|].
    apply rtc_once. eapply (hs_lock _ _ 0 1 Acquired); [done|by intros ?%not_elem_of_nil|by vm_compute]. }
  split; [exact Hr|]. apply (mutual_exclusion lock_k1 [(0%nat, 1)] 0 Hr).
Defined.
