(* ===== verification/TaskId.v ===== *)
(** * Identifiers and stacks of tasks

    [kernel/src/task/id.rs]: the kernel stacks of tasks in the kernel's
    address space and the user stacks and trap contexts of threads in the
    address space of their process, placed by an identifier of the
    [RecycleAllocator]. *)

From S2P Require Import Prelude Config Bytes StateMonad Address FrameAllocator PageTable PageTableSpec.
From S2P Require Import MemorySet MemorySetSpec.

(** ** Positions *)

(** [kernel_stack_position] *)
Definition kernel_stack_position (kstack_id : Z) : Z * Z :=
  let top := w64 (TRAMPOLINE - w64 (kstack_id * (KERNEL_STACK_SIZE + PAGE_SIZE))) in
  let bottom := w64 (top - KERNEL_STACK_SIZE) in
  (bottom, top).

(** [trap_cx_bottom_from_tid] *)
Definition trap_cx_bottom_from_tid (tid : Z) : Z := w64 (TRAP_CONTEXT_BASE - w64 (tid * PAGE_SIZE)).

(** [ustack_bottom_from_tid] *)
Definition ustack_bottom_from_tid (ustack_base tid : Z) : Z :=
  w64 (ustack_base + w64 (tid * (PAGE_SIZE + USER_STACK_SIZE))).

(** [KernelStack::top] *)
Definition KernelStack_top (id : Z) : Z := (kernel_stack_position id).2.

(** ** Kernel stacks *)

(** The state behind [KSTACK_ALLOCATOR] and [KERNEL_SPACE]. *)
Record kstacks := MkKstacks {
  kstack_allocator : RecycleAllocator;
  kernel_space : MemorySet;
  kstack_mm : mm;
}.

(** Run an operation on the memory of a [kstacks]. *)
Definition on_space (f : MemorySet -> st mm MemorySet) : st kstacks () := fun s =>
  let? (ms, m) := f (kernel_space s) (kstack_mm s) in
  Ok (tt, MkKstacks (kstack_allocator s) ms m).

Definition RW : Z := Z.lor MapPermission_R MapPermission_W.
Definition RWU : Z := Z.lor RW MapPermission_U.

(** [kstack_alloc] *)
Definition kstack_alloc : st kstacks Z := fun s =>
  let (kstack_id, ids) := id_alloc (kstack_allocator s) in
  let (kstack_bottom, kstack_top) := kernel_stack_position kstack_id in
  (on_space (fun ms =>
     insert_framed_area ms (VirtAddr_from kstack_bottom) (VirtAddr_from kstack_top) RW) ;*
   ret kstack_id) (MkKstacks ids (kernel_space s) (kstack_mm s)).

(** [KernelStack::drop] *)
Definition KernelStack_drop (id : Z) : st kstacks () :=
  let (kernel_stack_bottom, _) := kernel_stack_position id in
  let* vpn := of_res (page_from (VirtAddr_from kernel_stack_bottom)) in
  on_space (fun ms => remove_area_with_start_vpn ms vpn) ;*
  (fun s => let? ids := id_dealloc (kstack_allocator s) id in
            Ok (tt, MkKstacks ids (kernel_space s) (kstack_mm s))).

(** ** User resources of a thread *)

Record TaskUserRes := MkRes { tid : Z; ustack_base : Z }.

(** The parts of a process that the user resources of its threads live in. *)
Record proc_mem := MkProcMem {
  task_res_allocator : RecycleAllocator;
  memory_set : MemorySet;
  proc_mm : mm;
}.

Definition on_memory_set (f : MemorySet -> st mm MemorySet) : st proc_mem () := fun s =>
  let? (ms, m) := f (memory_set s) (proc_mm s) in
  Ok (tt, MkProcMem (task_res_allocator s) ms m).

(** [TaskUserRes::alloc_user_res] *)
Definition alloc_user_res (self : TaskUserRes) : st proc_mem () :=
  let ustack_bottom := ustack_bottom_from_tid (ustack_base self) (tid self) in
  let ustack_top := w64 (ustack_bottom + USER_STACK_SIZE) in
  on_memory_set (fun ms =>
    insert_framed_area ms (VirtAddr_from ustack_bottom) (VirtAddr_from ustack_top) RWU) ;*
  let trap_cx_bottom := trap_cx_bottom_from_tid (tid self) in
  let trap_cx_top := w64 (trap_cx_bottom + PAGE_SIZE) in
  on_memory_set (fun ms =>
    insert_framed_area ms (VirtAddr_from trap_cx_bottom) (VirtAddr_from trap_cx_top) RW).

(** [TaskUserRes::new] *)
Definition TaskUserRes_new (base : Z) (alloc : bool) : st proc_mem TaskUserRes := fun s =>
  let (tid, ids) := id_alloc (task_res_allocator s) in
  let res := MkRes tid base in
  ((if alloc then alloc_user_res res else ret tt) ;* ret res)
    (MkProcMem ids (memory_set s) (proc_mm s)).

(** [TaskUserRes::dealloc_user_res] *)
Definition dealloc_user_res (self : TaskUserRes) : st proc_mem () :=
  let* vpn := of_res (page_from (VirtAddr_from (ustack_bottom_from_tid (ustack_base self) (tid self)))) in
  on_memory_set (fun ms => remove_area_with_start_vpn ms vpn) ;*
  let* vpn := of_res (page_from (VirtAddr_from (trap_cx_bottom_from_tid (tid self)))) in
  on_memory_set (fun ms => remove_area_with_start_vpn ms vpn).

(** [TaskUserRes::dealloc_tid] *)
Definition dealloc_tid (self : TaskUserRes) : st proc_mem () := fun s =>
  let? ids := id_dealloc (task_res_allocator s) (tid self) in
  Ok (tt, MkProcMem ids (memory_set s) (proc_mm s)).

(** The drop of a [TaskUserRes]. *)
Definition TaskUserRes_drop (self : TaskUserRes) : st proc_mem () :=
  dealloc_tid self ;* dealloc_user_res self.

(** [TaskUserRes::trap_cx_ppn], [trap_cx_user_va], [ustack_top] *)
Definition trap_cx_ppn (self : TaskUserRes) : st proc_mem PhysPageNum := fun s =>
  let? vpn := page_from (VirtAddr_from (trap_cx_bottom_from_tid (tid self))) in
  let? pte := unwrap (MemorySet_translate (proc_mm s) (memory_set s) vpn) in
  Ok (PTE_ppn pte, s).
Definition trap_cx_user_va (self : TaskUserRes) : Z := trap_cx_bottom_from_tid (tid self).
Definition ustack_top (self : TaskUserRes) : Z :=
  w64 (ustack_bottom_from_tid (ustack_base self) (tid self) + USER_STACK_SIZE).

(** ** Positions are apart *)

(** The first page of the kernel stack [id]; it has two, and an unmapped one
    below them. *)
Definition kstack_vpn (id : Z) : Z := 2 ^ 27 - 3 - 3 * id.

(** Ids for which the stacks stay in the upper half of the address space. *)
Definition kstack_ids : Z := 2 ^ 24.

Lemma kernel_stack_position_value id :
  0 <= id < kstack_ids ->
  kernel_stack_position id = (2 ^ 64 - (3 + 3 * id) * 4096, 2 ^ 64 - (1 + 3 * id) * 4096).
Proof.
  unfold kstack_ids. intros Hid. unfold kernel_stack_position.
  change TRAMPOLINE with (2 ^ 64 - 4096). change (KERNEL_STACK_SIZE + PAGE_SIZE) with 12288.
  change KERNEL_STACK_SIZE with 8192. rewrite (w64_id (id * 12288)) by (unfold is_u64; lia).
  rewrite (w64_id (2 ^ 64 - 4096 - id * 12288)) by (unfold is_u64; lia).
  rewrite w64_id by (unfold is_u64; lia). f_equal; lia.
Qed.

(** A page-aligned address of the upper half as a page number. *)
Lemma va_high x :
  0 < x <= 2 ^ 26 ->
  VirtAddr_from (2 ^ 64 - x * 4096) = (2 ^ 27 - x) * 4096 /\
  page_from (VirtAddr_from (2 ^ 64 - x * 4096)) = Ok (2 ^ 27 - x) /\
  page_floor (VirtAddr_from (2 ^ 64 - x * 4096)) = 2 ^ 27 - x /\
  page_ceil (VirtAddr_from (2 ^ 64 - x * 4096)) = 2 ^ 27 - x.
Proof.
  intros Hx. assert (VirtAddr_from (2 ^ 64 - x * 4096) = (2 ^ 27 - x) * 4096) as E.
  { unfold VirtAddr_from. rewrite low_bits_mod by done. change (2 ^ VA_WIDTH_SV39) with (2 ^ 39).
    symmetry. apply (Z.mod_unique _ _ (2 ^ 25 - 1)); lia. }
  rewrite E. split; [done|]. unfold page_from, is_aligned, page_floor. change PAGE_SIZE with 4096.
  rewrite page_offset_mod, Z.mod_mul, Z.div_mul by lia. split; [done|]. split; [done|].
  rewrite page_ceil_spec by lia. unfold div_ceil.
  symmetry. apply (Z.div_unique _ _ _ 4095); lia.
Qed.

Lemma kstack_area id :
  0 <= id < kstack_ids ->
  MapArea_new (VirtAddr_from (kernel_stack_position id).1) (VirtAddr_from (kernel_stack_position id).2) Framed RW =
    Ok (MkArea {| range_start := kstack_vpn id; range_end := kstack_vpn id + 2 |} Framed RW) /\
  page_from (VirtAddr_from (kernel_stack_position id).1) = Ok (kstack_vpn id).
Proof.
  intros Hid. rewrite kernel_stack_position_value by done. unfold kstack_ids in Hid. cbn [fst snd].
  destruct (va_high (3 + 3 * id) ltac:(lia)) as (_ & Hp & Hf & _).
  destruct (va_high (1 + 3 * id) ltac:(lia)) as (_ & _ & _ & Hc).
  unfold kstack_vpn. replace (2 ^ 27 - 3 - 3 * id) with (2 ^ 27 - (3 + 3 * id)) by lia. split; [|done].
  unfold MapArea_new, SimpleRange_new. rewrite Hf, Hc. rewrite (proj2 (Z.leb_le _ _)) by lia. cbn [assert res_bind].
  do 3 f_equal. lia.
Qed.

(** The kernel stacks of different tasks lie in different pages, with an
    unused page below each, all below the trampoline; and the same holds of
    the user stacks and of the trap contexts of the threads of a process. *)
Theorem stacks_apart i j base :
  0 <= i < kstack_ids -> 0 <= j < kstack_ids -> i <> j -> 0 <= base < 2 ^ 37 ->
  let (bi, ti) := kernel_stack_position i in
  let (bj, tj) := kernel_stack_position j in
  ti = bi + KERNEL_STACK_SIZE /\ ti <= TRAMPOLINE /\
  (ti + PAGE_SIZE <= bj \/ tj + PAGE_SIZE <= bi) /\
  (let ui := ustack_bottom_from_tid base i in let uj := ustack_bottom_from_tid base j in
   base <= ui /\ (ui + USER_STACK_SIZE + PAGE_SIZE <= uj \/ uj + USER_STACK_SIZE + PAGE_SIZE <= ui) /\
   ui + USER_STACK_SIZE <= trap_cx_bottom_from_tid j) /\
  trap_cx_bottom_from_tid i + PAGE_SIZE <= TRAMPOLINE /\
  (trap_cx_bottom_from_tid i + PAGE_SIZE <= trap_cx_bottom_from_tid j \/
   trap_cx_bottom_from_tid j + PAGE_SIZE <= trap_cx_bottom_from_tid i).
Proof.
  intros Hi Hj Hne Hb. rewrite !kernel_stack_position_value by done. unfold kstack_ids in *.
  assert (forall t, 0 <= t < 2 ^ 24 -> ustack_bottom_from_tid base t = base + t * 12288) as Hu.
  { intros t Ht. unfold ustack_bottom_from_tid. change (PAGE_SIZE + USER_STACK_SIZE) with 12288.
    rewrite (w64_id (t * 12288)), w64_id by (unfold is_u64; lia). done. }
  assert (forall t, 0 <= t < 2 ^ 24 -> trap_cx_bottom_from_tid t = 2 ^ 64 - 8192 - t * 4096) as Ht.
  { intros t Ht. unfold trap_cx_bottom_from_tid. change TRAP_CONTEXT_BASE with (2 ^ 64 - 8192).
    change PAGE_SIZE with 4096. rewrite (w64_id (t * 4096)), w64_id by (unfold is_u64; lia). done. }
  cbv zeta. rewrite !Hu, !Ht by done. change KERNEL_STACK_SIZE with 8192. change PAGE_SIZE with 4096.
  change USER_STACK_SIZE with 8192. change TRAMPOLINE with (2 ^ 64 - 4096). lia.
Qed.

(** ** Allocating a kernel stack *)

Section kstack.
Context (lo : Z).

Definition kstack_vpns (id : Z) : list Z := [kstack_vpn id; kstack_vpn id + 1].

Record kstacks_inv (s : kstacks) : Prop := {
  ks_space : space_inv lo (kstack_mm s) (page_table (kernel_space s));
  ks_ids : ids_inv (kstack_allocator s);
  ks_free id v : 0 <= id < kstack_ids -> ~ id_used (kstack_allocator s) id -> v ∈ kstack_vpns id ->
    mapping (kstack_mm s) (page_table (kernel_space s)) v = None;
}.

Lemma kstack_vpns_ok id : 0 <= id < kstack_ids -> Forall is_vpn (kstack_vpns id) /\ NoDup (kstack_vpns id).
Proof.
  unfold kstack_ids, kstack_vpns, kstack_vpn, is_vpn. intros Hid. split.
  - repeat (apply Forall_cons; split; [lia|]). constructor.
  - apply NoDup_cons. split; [|apply NoDup_singleton]. rewrite list_elem_of_singleton. lia.
Qed.

Lemma kstack_vpns_apart i j v : v ∈ kstack_vpns i -> v ∈ kstack_vpns j -> i = j.
Proof.
  unfold kstack_vpns. rewrite !elem_of_cons, !elem_of_nil. unfold kstack_vpn. lia.
Qed.

(** [kstack_alloc] with six frames left gives a stack no task uses, its
    two pages mapped readable and writable to new zeroed frames, and leaves
    every other page of the kernel space as it was: the stacks in use keep
    their pages, and those not in use stay unmapped. *)
Theorem kstack_alloc_correct s :
  kstacks_inv s -> id_current (kstack_allocator s) < kstack_ids -> 6 <= frames_left (frames (kstack_mm s)) ->
  exists id s', kstack_alloc s = Ok (id, s') /\ ~ id_used (kstack_allocator s) id /\
    (forall j, id_used (kstack_allocator s') j <-> j = id \/ id_used (kstack_allocator s) j) /\
    filled lo (kstack_mm s) (page_table (kernel_space s)) (kstack_mm s') (page_table (kernel_space s'))
      (kstack_vpns id) RW /\
    kstacks_inv s'.
Proof.
  intros [HS HI HF] Hcur Hl. unfold kstack_alloc.
  destruct (id_alloc (kstack_allocator s)) as [id ids] eqn:Ea.
  assert (id_current (kstack_allocator s) < 2 ^ 64 - 1) as Hcur' by (unfold kstack_ids in Hcur; lia).
  destruct (id_alloc_fresh _ _ _ HI Hcur' Ea) as (HI' & Hn & Hr & Hu).
  assert (0 <= id < kstack_ids) as Hid.
  { unfold id_alloc in Ea. destruct HI as [? _ Hb]. destruct (id_recycled (kstack_allocator s)) as [|q rec]; injection Ea as <- <-.
    - rewrite (w64_id (id_current _ + 1)) by (unfold is_u64; lia). rewrite w64_id by (unfold is_u64; lia). lia.
    - apply Forall_cons in Hb as [Hb _]. lia. }
  destruct (kstack_area id Hid) as [Harea _]. destruct (kstack_vpns_ok id Hid) as [Hv Hnd].
  destruct (kernel_stack_position id) as [bot top]. cbn [fst snd] in Harea.
  set (a := MkArea {| range_start := kstack_vpn id; range_end := kstack_vpn id + 2 |} Framed RW) in *.
  assert (range_items (vpn_range a) = kstack_vpns id) as Hitems.
  { rewrite range_items_seqZ; cbn [vpn_range a range_start range_end]; unfold kstack_vpn; unfold kstack_ids in Hid; [|lia|lia].
    rewrite !seqZ_cons, seqZ_nil by lia. unfold kstack_vpns, kstack_vpn. f_equal. }
  destruct (map_pages_framed lo a (kstack_vpns id) (kstack_mm s) (page_table (kernel_space s)))
    as (pt' & m' & Hrun & Hfill); try done.
  { apply Forall_forall. intros v Hvv. by apply (HF id). }
  exists id, (MkKstacks ids (MkSet pt' (areas (kernel_space s) ++ [a])) m').
  cbn [kstack_allocator kernel_space kstack_mm page_table]. split_and!; try done.
  - unfold on_space, insert_framed_area, push, MapArea_map, st_bind, of_res.
    cbn [kernel_space kstack_mm kstack_allocator]. rewrite Harea. cbn [res_bind]. rewrite Hitems, Hrun. done.
  - split; [apply Hfill|done|]. cbn [kstack_allocator kernel_space kstack_mm page_table]. intros j v Hj Hnj Hvj.
    rewrite Hu in Hnj. rewrite (fl_mapping _ _ _ _ _ _ _ Hfill); [apply (HF j); tauto| |].
    + destruct (kstack_vpns_ok j Hj) as [Hvs _]. rewrite Forall_forall in Hvs. by apply Hvs.
    + intros Hvi. apply Hnj. left. by apply (kstack_vpns_apart j id v).
Qed.
End kstack.

(** ** Witnesses *)

Lemma stacks_apart_witness :
  ustack_bottom_from_tid 0x11000 1 + USER_STACK_SIZE <= trap_cx_bottom_from_tid 0 /\
  trap_cx_bottom_from_tid 1 + PAGE_SIZE <= TRAMPOLINE.
Proof.
  pose proof (stacks_apart 1 0 0x11000 ltac:(split; [done|reflexivity]) ltac:(split; [done|reflexivity])
    ltac:(lia) ltac:(lia)) as H.
  destruct (kernel_stack_position 1), (kernel_stack_position 0). cbv zeta in H. tauto.
Defined.

Definition bare_kstacks : kstacks := MkKstacks RecycleAllocator_new bare_ms empty_pt_mm.

Lemma bare_kstacks_inv : kstacks_inv 100 bare_kstacks.
Proof.
  split.
  - exact bare_space.
  - split; cbn; (lia || constructor).
  - intros id v Hid _ Hv. apply bare_unmapped. destruct (kstack_vpns_ok id Hid) as [Hvs _].
    rewrite Forall_forall in Hvs. by apply Hvs.
Qed.

Lemma kstack_alloc_correct_witness :
  exists id s', kstack_alloc bare_kstacks = Ok (id, s') /\ ~ id_used RecycleAllocator_new id.
Proof.
  destruct (kstack_alloc_correct 100 bare_kstacks bare_kstacks_inv) as (id & s' & Hrun & Hn & _).
  - reflexivity.
  - by vm_compute.
  - exists id, s'. exact (conj Hrun Hn).
Defined.
