(* ===== verification/Paths.v ===== *)
(** * Paths

    [get_full_path] of [kernel/src/fs/mod.rs]: the absolute path of a path
    relative to a working directory.  Strings are lists of bytes; ['/'] is a
    byte of its own in UTF-8, so splitting at it is splitting the bytes. *)

From S2P Require Import Prelude Bytes.

Definition slash : u8 := Byte.x2f.
Definition dot : list u8 := [Byte.x2e].
Definition dotdot : list u8 := [Byte.x2e; Byte.x2e].

(** [str::split('/')]: one part more than there are slashes. *)
Fixpoint split_slash (s : list u8) : list (list u8) :=
  match s with
  | [] => [[]]
  | c :: s =>
      if Byte.eqb c slash then [] :: split_slash s
      else match split_slash s with
           | p :: ps => (c :: p) :: ps
           | [] => [[c]]
           end
  end.

(** [parts.join("/")] *)
Fixpoint join_slash (parts : list (list u8)) : list u8 :=
  match parts with
  | [] => []
  | [p] => p
  | p :: ps => p ++ slash :: join_slash ps
  end.

(** The body of the loop of [get_full_path]; [parts] is kept with its last
    part first. *)
Definition push_part (parts : list (list u8)) (part : list u8) : list (list u8) :=
  if bool_decide (part = [] \/ part = dot) then parts
  else if bool_decide (part = dotdot) then tail parts
  else part :: parts.

Definition starts_with_slash (path : list u8) : bool :=
  match path with c :: _ => Byte.eqb c slash | [] => false end.

(** [get_full_path] *)
Definition get_full_path (cwd path : list u8) : list u8 :=
  let resolved_path := if starts_with_slash path then path else cwd ++ [slash] ++ path in
  slash :: join_slash (reverse (foldl push_part [] (split_slash resolved_path))).

(** [str::rsplit_once('/')]: the parts before and after the last slash. *)
Fixpoint rsplit_once (s : list u8) : option (list u8 * list u8) :=
  match s with
  | [] => None
  | c :: s =>
      match rsplit_once s with
      | Some (a, b) => Some (c :: a, b)
      | None => if Byte.eqb c slash then Some ([], s) else None
      end
  end.

(** ** Correctness *)

Lemma byte_eqb_spec a b : Byte.eqb a b = bool_decide (a = b).
Proof.
  destruct (Byte.eqb a b) eqn:E.
  - apply Byte.byte_dec_bl in E. by rewrite bool_decide_true.
  - rewrite bool_decide_false; [done|]. intros ->. by rewrite Byte.byte_dec_lb in E.
Qed.

(** A file name: not empty, not ["."] or [".."], no slash. *)
Definition name_ok (p : list u8) : Prop := p <> [] /\ p <> dot /\ p <> dotdot /\ slash ∉ p.

Lemma split_slash_cons s : exists p ps, split_slash s = p :: ps.
Proof.
  induction s as [|c s (p & ps & IH)]; [by do 2 eexists|]. cbn. destruct (Byte.eqb c slash); [by do 2 eexists|].
  rewrite IH. by do 2 eexists.
Qed.

Lemma split_slash_parts s : Forall (fun p => slash ∉ p) (split_slash s).
Proof.
  induction s as [|c s IH]; cbn; [by apply Forall_singleton, not_elem_of_nil|].
  rewrite byte_eqb_spec. case_bool_decide as E; [apply Forall_cons; split; [apply not_elem_of_nil|done]|].
  destruct (split_slash_cons s) as (p & ps & Es). rewrite Es in IH |- *.
  apply Forall_cons in IH as [Hp Hps]. apply Forall_cons. split; [|done].
  apply not_elem_of_cons. split; [congruence|done].
Qed.

Lemma split_slash_app s t : slash ∉ s -> split_slash (s ++ slash :: t) = s :: split_slash t.
Proof.
  induction s as [|c s IH]; intros Hs; [done|]. apply not_elem_of_cons in Hs as [Hc Hs]. cbn.
  rewrite byte_eqb_spec, bool_decide_false by congruence. by rewrite IH.
Qed.

Lemma split_slash_none s : slash ∉ s -> split_slash s = [s].
Proof.
  induction s as [|c s IH]; intros Hs; [done|]. apply not_elem_of_cons in Hs as [Hc Hs]. cbn.
  rewrite byte_eqb_spec, bool_decide_false by congruence. by rewrite IH.
Qed.

Lemma split_join ps :
  ps <> [] -> Forall (fun p => slash ∉ p) ps -> split_slash (join_slash ps) = ps.
Proof.
  induction ps as [|p ps IH]; intros Hne Hall; [done|]. apply Forall_cons in Hall as [Hp Hall].
  destruct ps as [|q ps]; [by apply split_slash_none|].
  change (join_slash (p :: q :: ps)) with (p ++ slash :: join_slash (q :: ps)).
  rewrite split_slash_app by done. by rewrite IH.
Qed.

Lemma push_part_ok parts part :
  Forall name_ok parts -> slash ∉ part -> Forall name_ok (push_part parts part).
Proof.
  intros Hall Hp. unfold push_part. case_bool_decide as E1; [done|]. case_bool_decide as E2.
  - destruct parts; [done|]. by apply Forall_cons in Hall as [_ ?].
  - apply Forall_cons. split; [|done]. unfold name_ok. tauto.
Qed.

Lemma foldl_push_ok l parts :
  Forall name_ok parts -> Forall (fun p => slash ∉ p) l -> Forall name_ok (foldl push_part parts l).
Proof.
  revert parts. induction l as [|p l IH]; intros parts Hp Hl; [done|]. apply Forall_cons in Hl as [Hpp Hl].
  cbn. apply IH; [by apply push_part_ok|done].
Qed.

Lemma foldl_push_names l parts :
  Forall name_ok l -> foldl push_part parts l = reverse l ++ parts.
Proof.
  revert parts. induction l as [|p l IH]; intros parts Hl; [done|].
  apply Forall_cons in Hl as [(H1 & H2 & H3 & _) Hl]. cbn [foldl]. rewrite IH by done.
  unfold push_part. rewrite bool_decide_false by tauto. rewrite bool_decide_false by done.
  by rewrite reverse_cons, <- app_assoc.
Qed.

Lemma dots_no_slash : (slash ∉ dot) /\ (slash ∉ dotdot).
Proof. unfold dot, dotdot, slash. rewrite !not_elem_of_cons. by split_and!; try apply not_elem_of_nil. Qed.

(** The names of an absolute path. *)
Definition absolute (names : list (list u8)) : list u8 := slash :: join_slash names.

Lemma absolute_names names :
  Forall name_ok names -> foldl push_part [] (split_slash (absolute names)) = reverse names.
Proof.
  intros Hall. unfold absolute. cbn. destruct names as [|n ns]; [done|].
  rewrite split_join; [|done|eapply Forall_impl; [exact Hall|]; by intros p (_ & _ & _ & ?)].
  rewrite foldl_push_names by done. by rewrite app_nil_r.
Qed.

Lemma foldl_push_absolute names path :
  Forall name_ok names ->
  foldl push_part [] (split_slash (absolute names ++ [slash] ++ path)) =
  foldl push_part (reverse names) (split_slash path).
Proof.
  intros Hall. assert (forall l a, Forall (fun p => slash ∉ p) l -> l <> [] ->
    split_slash (join_slash l ++ slash :: a) = l ++ split_slash a) as Hsj.
  { clear. induction l as [|p l IH]; intros a Hall Hne; [done|]. apply Forall_cons in Hall as [Hp Hall].
    destruct l as [|q l]; [by apply split_slash_app|].
    change (join_slash (p :: q :: l)) with (p ++ slash :: join_slash (q :: l)).
    rewrite <- app_assoc. cbn [app]. rewrite split_slash_app by done. by rewrite IH. }
  unfold absolute. cbn [app split_slash Byte.eqb]. change (Byte.eqb slash slash) with true. cbn beta iota.
  destruct names as [|n ns].
  - cbn. done.
  - rewrite Hsj; [|eapply Forall_impl; [exact Hall|]; by intros p (_ & _ & _ & ?)|done].
    cbn [foldl]. rewrite foldl_app. change (push_part [] []) with (@nil (list u8)).
    rewrite (foldl_push_names (n :: ns) []) by done. by rewrite app_nil_r.
Qed.

(** [get_full_path] gives a normal absolute path: its parts are file names,
    no empty part, ["."] or [".."] is left, and it is a fixed point from every
    working directory. *)
Theorem get_full_path_normal cwd path :
  exists names, get_full_path cwd path = absolute names /\ Forall name_ok names /\
    forall cwd', get_full_path cwd' (get_full_path cwd path) = get_full_path cwd path.
Proof.
  set (r := if starts_with_slash path then path else cwd ++ [slash] ++ path).
  set (names := reverse (foldl push_part [] (split_slash r))).
  assert (get_full_path cwd path = absolute names) as E by done.
  assert (Forall name_ok names) as Hok.
  { unfold names. apply Forall_reverse, foldl_push_ok; [constructor|apply split_slash_parts]. }
  exists names. split_and!; [done|done|]. intros cwd'. rewrite E. unfold get_full_path.
  cbn [starts_with_slash absolute]. change (Byte.eqb slash slash) with true. cbn beta iota.
  fold (absolute names). rewrite absolute_names by done. by rewrite reverse_involutive.
Qed.

(** Resolution steps through the parts: from the working directory
    [names], a plain name descends, [".."] goes to the parent and at the root
    stays there, ["."] and empty parts stay, and an absolute path ignores the
    working directory. *)
Theorem get_full_path_steps names name path cwd :
  Forall name_ok names -> name_ok name ->
  get_full_path (absolute names) name = absolute (names ++ [name]) /\
  get_full_path (absolute names) dotdot = absolute (take (length names - 1) names) /\
  get_full_path (absolute names) dot = absolute names /\
  get_full_path (absolute names) [] = absolute names /\
  get_full_path cwd (slash :: path) = get_full_path [] (slash :: path).
Proof.
  intros Hall (H1 & H2 & H3 & H4).
  assert (forall p, slash ∉ p -> get_full_path (absolute names) p =
    absolute (reverse (push_part (reverse names) p))) as Hrel.
  { intros p Hp. unfold get_full_path. assert (starts_with_slash p = false) as ->.
    { destruct p as [|c p]; [done|]. apply not_elem_of_cons in Hp as [Hc _]. cbn.
      rewrite byte_eqb_spec. by apply bool_decide_false. }
    rewrite foldl_push_absolute by done. by rewrite split_slash_none. }
  split_and!.
  - rewrite Hrel by done. unfold push_part. rewrite bool_decide_false by tauto. rewrite bool_decide_false by done.
    by rewrite reverse_cons, reverse_involutive.
  - rewrite Hrel by apply dots_no_slash.
    unfold push_part. change (bool_decide (dotdot = [] \/ dotdot = dot)) with false.
    rewrite bool_decide_true by done. f_equal. destruct names as [|n ns _] using rev_ind; [done|].
    rewrite reverse_snoc. cbn [tail]. rewrite reverse_involutive, length_app. cbn [length].
    by rewrite Nat.add_sub, take_app_length.
  - rewrite Hrel by apply dots_no_slash. unfold push_part.
    rewrite bool_decide_true by (by right). by rewrite reverse_involutive.
  - rewrite Hrel by apply not_elem_of_nil. unfold push_part. rewrite bool_decide_true by (by left).
    by rewrite reverse_involutive.
  - done.
Qed.

Lemma get_full_path_steps_witness :
  get_full_path (absolute [[Byte.x61]]) [Byte.x62] = absolute [[Byte.x61]; [Byte.x62]].
Proof.
  assert (forall b, b <> slash -> b <> Byte.x2e -> name_ok [b]) as Hn.
  { intros b H1 H2. unfold name_ok, dot, dotdot. split_and!; try done; [congruence|].
    rewrite list_elem_of_singleton. congruence. }
  apply (get_full_path_steps [[Byte.x61]] [Byte.x62] [] []).
  - apply Forall_singleton, Hn; done.
  - apply Hn; done.
Defined.
