(* ===== verification/Files.v ===== *)
(** * Files of the kernel

    [kernel/src/fs/inode.rs] and [kernel/src/fs/mod.rs]: looking up and
    opening inodes by path, the open file [OSInode] with its offset, and the
    file descriptor table of a process with the system calls of
    [kernel/src/syscall/fs.rs] that change it.  The root inode is an argument
    of the operations. *)

From S2P Require Import Prelude Bytes Config BlockStore Bitmap Layout Efs LayoutIO Vfs VfsSpec Paths.

(** ** Inodes by path *)

(** [inode::find] *)
Fixpoint find_parts (node : Inode) (parts : list (list u8)) : prog (option Inode) :=
  match parts with
  | [] => Ret (Some node)
  | [] :: parts => find_parts node parts
  | name :: parts =>
      let! o := Inode_find node name in
      match o with
      | None => Ret None
      | Some node => find_parts node parts
      end
  end.

Definition find (root : Inode) (path : list u8) : prog (option Inode) :=
  find_parts root (split_slash path).

(** ** Open files *)

Definition RDONLY : Z := 0.
Definition WRONLY : Z := 1.
Definition RDWR : Z := 2.
Definition CREATE : Z := 512.
Definition TRUNC : Z := 1024.

(** [OpenFlags::contains], [OpenFlags::from_bits] *)
Definition contains (flags other : Z) : bool := Z.land flags other =? other.
Definition OpenFlags_from_bits (bits : Z) : option Z :=
  let all := Z.lor (Z.lor WRONLY RDWR) (Z.lor CREATE TRUNC) in
  if Z.land bits all =? bits then Some bits else None.

Record OSInode := MkOSInode { readable : bool; writable : bool; offset : Z; inode : Inode }.

(** [OSInode::new] *)
Definition OSInode_new (r w : bool) (i : Inode) : OSInode := MkOSInode r w 0 i.

(** [open_file] *)
Definition open_file (root : Inode) (path : list u8) (flags : Z) : prog (option OSInode) :=
  let r := contains flags RDONLY || contains flags RDWR in
  let w := contains flags WRONLY || contains flags RDWR in
  if contains flags CREATE then
    let! o := find root path in
    match o with
    | Some i =>
        let! b := Inode_is_file i in
        (if b then Inode_clear i else Ret tt) ;;;
        Ret (Some (OSInode_new r w i))
    | None =>
        let '(parent_path, target) :=
          match rsplit_once path with Some (p, t) => (p, t) | None => ([], path) end in
        let! o := find root parent_path in
        match o with
        | None => Ret None
        | Some parent_inode =>
            let! o := Inode_create parent_inode target in
            Ret (option_map (OSInode_new r w) o)
        end
    end
  else
    let! o := find root path in
    match o with
    | None => Ret None
    | Some i =>
        (if contains flags TRUNC then Inode_clear i else Ret tt) ;;;
        Ret (Some (OSInode_new r w i))
    end.

Definition with_offset (self : OSInode) (off : Z) : OSInode :=
  MkOSInode (readable self) (writable self) off (inode self).

(** [File::read] of [OSInode]: the slices of the user's buffer, filled as far
    as the file goes. *)
Fixpoint OSInode_read (self : OSInode) (buffers : list (list u8)) (total : Z) :
    prog (Z * list (list u8) * OSInode) :=
  match buffers with
  | [] => Ret (total, [], self)
  | slice :: buffers =>
      let! (read_size, slice) := Inode_read_at (inode self) (offset self) slice in
      if read_size =? 0 then Ret (total, slice :: buffers, self)
      else
        let! (total, rest, self) :=
          OSInode_read (with_offset self (w64 (offset self + read_size))) buffers (w64 (total + read_size)) in
        Ret (total, slice :: rest, self)
  end.

(** [File::write] of [OSInode] *)
Fixpoint OSInode_write (self : OSInode) (buffers : list (list u8)) (total : Z) : prog (Z * OSInode) :=
  match buffers with
  | [] => Ret (total, self)
  | slice :: buffers =>
      let! write_size := Inode_write_at (inode self) (offset self) slice in
      lift (assert (write_size =? Z.of_nat (length slice))) ;;;
      OSInode_write (with_offset self (w64 (offset self + write_size))) buffers (w64 (total + write_size))
  end.

(** The loop of [OSInode::read_all]; [v] is the vector so far. *)
Fixpoint read_all_loop (fuel : nat) (self : OSInode) (buffer v : list u8) : prog (list u8 * OSInode) :=
  match fuel with
  | O => Fail OutOfFuel
  | S fuel =>
      let! (len, buffer) := Inode_read_at (inode self) (offset self) buffer in
      if len =? 0 then Ret (v, self)
      else
        read_all_loop fuel (with_offset self (w64 (offset self + len))) buffer
          (v ++ take (Z.to_nat len) buffer)
  end.

(** [OSInode::read_all] *)
Definition OSInode_read_all (fuel : nat) (self : OSInode) : prog (list u8 * OSInode) :=
  read_all_loop fuel self zero_block [].

(** [File::file_size], [inode_id], [mode] of [OSInode] *)
Definition STAT_DIR : Z := 0x4000.
Definition STAT_REG : Z := 0x8000.
Definition STAT_LNK : Z := 0xa000.
Definition OSInode_file_size (self : OSInode) : prog Z := file_size (inode self).
Definition OSInode_inode_id (self : OSInode) : Z := inode_id (inode self).
Definition OSInode_mode (self : OSInode) : prog Z :=
  let! f := Inode_is_file (inode self) in
  if f then Ret STAT_REG
  else let! b := Inode_is_dir (inode self) in Ret (if b then STAT_DIR else STAT_LNK).

(** ** System calls on the file system

    [path] is the string the user passed, [cwd] the working directory. *)

(** [sys_chdir]: the result and the new working directory. *)
Definition sys_chdir (root : Inode) (cwd path : list u8) : prog (Z * list u8) :=
  let path := get_full_path cwd path in
  let! o := find root path in
  match o with
  | Some i => let! b := Inode_is_dir i in if b then Ret (0, path) else Ret (-2, cwd)
  | None => Ret (-1, cwd)
  end.

(** [sys_mkdir] *)
Definition sys_mkdir (root : Inode) (cwd path : list u8) : prog Z :=
  let path := get_full_path cwd path in
  let! (parent_path, target) := lift (unwrap (rsplit_once path)) in
  let! o := find root parent_path in
  match o with
  | Some parent_inode =>
      let! o := Inode_create_dir parent_inode target in
      Ret (match o with Some _ => 0 | None => -2 end)
  | None => Ret (-1)
  end.

Definition AT_REMOVEDIR : Z := 1.

(** [sys_unlink] *)
Definition sys_unlink (root : Inode) (cwd path : list u8) (flags : Z) : prog Z :=
  let path := get_full_path cwd path in
  let! (parent_path, target) := lift (unwrap (rsplit_once path)) in
  let! o := find root parent_path in
  match o with
  | None => Ret (-1)
  | Some parent_inode =>
      let! o := Inode_find parent_inode target in
      match o with
      | None => Ret (-1)
      | Some i =>
          let remove_dir := Z.land flags AT_REMOVEDIR =? AT_REMOVEDIR in
          let! b := (if negb remove_dir then let! d := Inode_is_dir i in Ret (negb d) else Ret false) in
          if b then
            Inode_clear i ;;;
            Inode_delete parent_inode target ;;;
            Ret 0
          else
            let! b := (if remove_dir then Inode_is_dir i else Ret false) in
            if b then
              let! n := file_size i in
              if n =? DIRENT_SIZE * 2 then
                Inode_clear i ;;;
                Inode_delete parent_inode target ;;;
                Ret 0
              else Ret (-3)
            else Ret (-2)
      end
  end.

(** ** File descriptors *)

Section fd_table.
Context {F : Type}.
Abbreviation table := (list (option F)).

(** The first free descriptor. *)
Fixpoint first_none (t : table) : option nat :=
  match t with
  | [] => None
  | None :: _ => Some O
  | Some _ :: t => S <$> first_none t
  end.

(** [ProcessControlBlockInner::alloc_fd]; the lists of mutexes, semaphores
    and condition variables allocate their slots in the same way. *)
Definition alloc_fd (t : table) : nat * table :=
  match first_none t with
  | Some idx => (idx, t)
  | None => (length t, t ++ [None])
  end.

(** A new file in a new descriptor, as in [sys_open], [sys_dup] and
    [sys_pipe]. *)
Definition install (f : F) (t : table) : nat * table :=
  let (fd, t) := alloc_fd t in (fd, <[fd := Some f]> t).

(** [sys_dup] *)
Definition sys_dup (fd : nat) (t : table) : Z * table :=
  match t !! fd with
  | Some (Some f) => let (new_fd, t) := install f t in (Z.of_nat new_fd, t)
  | _ => (-1, t)
  end.

(** [sys_dup2]; [new_fd + 1] wraps, and an index past the end of the table
    stops the kernel.  ([resize] is the one of [Vec].) *)
Definition sys_dup2 (old_fd new_fd : nat) (t : table) : res (Z * table) :=
  if Nat.leb (length t) old_fd then Ok (-1, t)
  else
    let t := if Nat.leb (length t) new_fd then resize (Z.to_nat (w64 (Z.of_nat new_fd + 1))) None t else t in
    match t !! old_fd with
    | None => Panic IndexOutOfBounds
    | Some file => if Nat.ltb new_fd (length t) then Ok (0, <[new_fd := file]> t) else Panic IndexOutOfBounds
    end.

(** [sys_close] *)
Definition sys_close (fd : nat) (t : table) : Z * table :=
  if Nat.leb (length t) fd then (-1, t)
  else match t !! fd with
       | Some (Some _) => (0, <[fd := None]> t)
       | _ => (-1, <[fd := None]> t)
       end.

(** [sys_pipe]: the two descriptors. *)
Definition sys_pipe (pipe_read pipe_write : F) (t : table) : (nat * nat) * table :=
  let (read_fd, t) := install pipe_read t in
  let (write_fd, t) := install pipe_write t in
  ((read_fd, write_fd), t).

(** The file open at a descriptor. *)
Definition opened (t : table) (fd : nat) : option F := mjoin (t !! fd).

Lemma first_none_Some t i :
  first_none t = Some i -> t !! i = Some None /\ forall j, (j < i)%nat -> is_Some (opened t j).
Proof.
  revert i. induction t as [|[f|] t IH]; intros i; cbn; [done| |].
  - destruct (first_none t) as [k|]; [|done]. intros [= <-]. destruct (IH k eq_refl) as [H1 H2].
    split; [done|]. intros [|j] Hj; [by eexists|]. apply H2. lia.
  - intros [= <-]. split; [done|]. lia.
Qed.

Lemma first_none_None t : first_none t = None -> forall j, (j < length t)%nat -> is_Some (opened t j).
Proof.
  induction t as [|[f|] t IH]; cbn; [lia| |done]. destruct (first_none t); [done|].
  intros _ [|j] Hj; [by eexists|]. apply IH; [done|lia].
Qed.

Lemma install_spec f t :
  let (fd, t') := install f t in
  opened t fd = None /\ (forall j, (j < fd)%nat -> is_Some (opened t j)) /\
  forall j, opened t' j = if decide (j = fd) then Some f else opened t j.
Proof.
  unfold install, alloc_fd, opened. destruct (first_none t) as [i|] eqn:E.
  - destruct (first_none_Some t i E) as [Hi Hlt]. pose proof (lookup_lt_Some _ _ _ Hi). rewrite Hi.
    split_and!; [done|done|]. intros j. case_decide; [subst; by rewrite list_lookup_insert_eq|].
    by rewrite list_lookup_insert_ne.
  - rewrite lookup_ge_None_2 by lia. split_and!; [done|by apply first_none_None|]. intros j. case_decide as D.
    + subst. by rewrite list_lookup_insert_eq by (rewrite length_app; cbn; lia).
    + rewrite list_lookup_insert_ne by done. destruct (decide (j < length t)%nat).
      * by rewrite lookup_app_l by done.
      * rewrite !(lookup_ge_None_2 t), (lookup_ge_None_2 (t ++ [None])); [done|rewrite length_app; cbn; lia|lia].
Qed.

Lemma opened_resize t n : (length t <= n)%nat -> forall j, opened (resize n None t) j = opened t j.
Proof.
  intros Hn j. unfold opened. destruct (decide (j < length t)%nat); [by rewrite lookup_resize by lia|].
  rewrite (lookup_ge_None_2 t) by lia. destruct (decide (j < n)%nat); [by rewrite lookup_resize_new by lia|].
  by rewrite lookup_resize_old by lia.
Qed.

(** The last two steps of [sys_dup2], in a table with room. *)
Lemma dup2_insert t t1 fd new_fd :
  (new_fd < length t1)%nat -> (fd < length t1)%nat -> (forall j, opened t1 j = opened t j) ->
  exists t', match t1 !! fd with
      | None => Panic IndexOutOfBounds
      | Some file => if Nat.ltb new_fd (length t1) then Ok (0, <[new_fd := file]> t1) else Panic IndexOutOfBounds
      end = Ok (0, t') /\
    forall j, opened t' j = if decide (j = new_fd) then opened t fd else opened t j.
Proof.
  intros H0 H1 H2. destruct (lookup_lt_is_Some_2 t1 fd H1) as [o Ho]. rewrite Ho, (proj2 (Nat.ltb_lt _ _)) by done.
  eexists. split; [done|]. intros j. unfold opened at 1. case_decide as E.
  - subst j. rewrite list_lookup_insert_eq by done. rewrite <- H2. unfold opened. by rewrite Ho.
  - rewrite list_lookup_insert_ne by done. apply H2.
Qed.

(** [sys_dup2] within the table, and to a descriptor behind it that is not
    the largest number. *)
Lemma dup2_within t fd new_fd :
  (fd < length t)%nat -> (new_fd < length t)%nat ->
  exists t', sys_dup2 fd new_fd t = Ok (0, t') /\
    forall j, opened t' j = if decide (j = new_fd) then opened t fd else opened t j.
Proof.
  intros Hl Hn. unfold sys_dup2. rewrite !(proj2 (Nat.leb_gt _ _)) by done. by apply dup2_insert.
Qed.
Lemma dup2_grows t fd new_fd :
  (fd < length t)%nat -> (length t <= new_fd)%nat -> Z.of_nat new_fd < 2 ^ 64 - 1 ->
  exists t', sys_dup2 fd new_fd t = Ok (0, t') /\
    forall j, opened t' j = if decide (j = new_fd) then opened t fd else opened t j.
Proof.
  intros Hl Hn Hb. unfold sys_dup2. rewrite (proj2 (Nat.leb_gt _ _)), (proj2 (Nat.leb_le _ _)) by done.
  rewrite w64_id by (unfold is_u64; lia). apply dup2_insert; rewrite ?length_resize; [lia|lia|].
  apply opened_resize. lia.
Qed.

Lemma dup2_invalid t fd new_fd : (length t <= fd)%nat -> sys_dup2 fd new_fd t = Ok (-1, t).
Proof. intros H. unfold sys_dup2. by rewrite (proj2 (Nat.leb_le _ _)). Qed.

(** The largest descriptor: the size of the table wraps to 0, the table loses
    every file, and the kernel stops. *)
Lemma dup2_largest_panics t fd new_fd :
  Z.of_nat new_fd = 2 ^ 64 - 1 -> (fd < length t <= new_fd)%nat -> sys_dup2 fd new_fd t = Panic IndexOutOfBounds.
Proof.
  intros Hn Hl. unfold sys_dup2. rewrite (proj2 (Nat.leb_gt _ _)), (proj2 (Nat.leb_le _ _)), Hn by lia.
  change (Z.to_nat (w64 (2 ^ 64 - 1 + 1))) with O. by rewrite lookup_resize_old by lia.
Qed.

(** [sys_dup] gives the lowest free descriptor and opens the same file
    there. *)
Lemma dup_spec t fd :
  match opened t fd with
  | Some f => exists n t', sys_dup fd t = (Z.of_nat n, t') /\ opened t n = None /\
      (forall j, (j < n)%nat -> is_Some (opened t j)) /\
      forall j, opened t' j = if decide (j = n) then Some f else opened t j
  | None => sys_dup fd t = (-1, t)
  end.
Proof.
  unfold sys_dup, opened at 1. destruct (t !! fd) as [[f|]|]; cbn [mjoin option_join]; [|done|done].
  pose proof (install_spec f t) as H. destruct (install f t) as [n t']. exists n, t'. naive_solver.
Qed.

(** [sys_close] closes exactly [fd] and succeeds only on an open one. *)
Lemma close_spec t fd :
  exists t', sys_close fd t = (match opened t fd with Some _ => 0 | None => -1 end, t') /\
    forall j, opened t' j = if decide (j = fd) then None else opened t j.
Proof.
  unfold sys_close. destruct (Nat.leb_spec (length t) fd).
  { unfold opened. rewrite (lookup_ge_None_2 t fd) by done. eexists. split; [done|]. intros j. case_decide; [|done].
    subst. by rewrite lookup_ge_None_2. }
  assert (forall j, opened (<[fd := None]> t) j = if decide (j = fd) then None else opened t j) as Hins.
  { intros j. unfold opened. case_decide; [subst; by rewrite list_lookup_insert_eq|].
    by rewrite list_lookup_insert_ne. }
  exists (<[fd := None]> t). split; [|done]. unfold opened at 1. by destruct (t !! fd) as [[f|]|].
Qed.
End fd_table.

(** ** Reading an open file *)

Section open_file.
Context (efs : EasyFileSystem) (area : Z) (node : Inode).

Abbreviation file_state := (VfsSpec.file_state efs area node).

Lemma file_content_length d di f : file_state d di f -> Z.of_nat (length (content d di f)) = size di.
Proof.
  intros Hst. pose proof (file_readable efs area node d di f Hst) as Hrd.
  apply length_content in Hrd. by change (content (hold (block_id node) d) di f) with (content d di f) in Hrd.
Qed.

Lemma splice_cover {A} (a b x c : list A) : length a = length b -> splice 0 (a ++ x) (b ++ c) = a ++ splice 0 x c.
Proof.
  intros H. unfold splice. rewrite !take_0, !app_nil_l, !Nat.add_0_l, length_app, H, drop_app_add. by rewrite app_assoc.
Qed.

Lemma OSInode_read_run d di f bufs : forall self total,
  inode self = node -> file_state d di f -> Forall (fun b => b <> []) bufs ->
  0 <= offset self -> 0 <= total ->
  offset self + Z.of_nat (length (concat bufs)) < 2 ^ 62 -> total + Z.of_nat (length (concat bufs)) < 2 ^ 62 ->
  let n := io_len di (offset self) (Z.of_nat (length (concat bufs))) in
  exists bufs', run (OSInode_read self bufs total) d = Ok ((total + n, bufs', with_offset self (offset self + n)), d) /\
    length <$> bufs' = length <$> bufs /\
    concat bufs' = splice 0 (slice (Z.to_nat (offset self)) (Z.to_nat n) (content d di f)) (concat bufs).
Proof.
  induction bufs as [|b bufs IH]; intros self total Hi Hst Hne Ho Ht Hl1 Hl2 n; cbn [OSInode_read].
  { assert (n = 0) as -> by (unfold n, io_len; cbn; lia). exists []. rewrite !Z.add_0_r.
    split_and!; [|done|done]. destruct self. done. }
  apply Forall_cons in Hne as [Hb Hne]. cbn [concat] in *. rewrite length_app in *.
  assert (0 < length b)%nat as Hb0 by (destruct b; cbn; done || lia).
  pose proof (file_content_length d di f Hst) as HC.
  pose proof (Inode_read_at_run efs area node d di f (offset self) b Hst Ho ltac:(lia)) as Hrd.
  rewrite <- Hi in Hrd. rewrite (run_bind_Ok _ _ _ _ _ Hrd). set (k := io_len di (offset self) (Z.of_nat (length b))) in *.
  assert (0 <= k <= Z.of_nat (length b)) as Hk by (unfold k, io_len; lia).
  assert (0 < k -> offset self + k <= size di) as Hks by (unfold k, io_len; lia).
  destruct (Z.eqb_spec k 0) as [Hz|Hz].
  { assert (n = 0) as -> by (unfold n, k, io_len in *; lia). rewrite Hz, !Z.add_0_r. eexists. split_and!.
    - cbn [run]. by destruct self.
    - reflexivity.
    - unfold slice. cbn [Z.to_nat]. by rewrite !take_0. }
  rewrite !w64_id by (unfold is_u64; lia).
  destruct (IH (with_offset self (offset self + k)) (total + k)) as (bufs' & Hrun & Hlen & Hcat); try done;
    cbn [with_offset offset]; try lia.
  cbn [with_offset offset] in Hrun, Hcat.
  set (k' := io_len di (offset self + k) (Z.of_nat (length (concat bufs)))) in *.
  assert (n = k + k' /\ (k < Z.of_nat (length b) -> k' = 0) /\ 0 <= k') as (-> & Hshort & Hk').
  { assert (k = Z.min (Z.of_nat (length b)) (size di - offset self)) as Ek by (unfold k, io_len in *; lia).
    unfold n, k', io_len. rewrite length_app. clearbody k.
    lia. }
  assert (length (slice (Z.to_nat (offset self)) (Z.to_nat k) (content d di f)) = Z.to_nat k) as Hls
    by (unfold slice; rewrite length_take, length_drop; lia).
  eexists. split_and!.
  - rewrite (run_bind_Ok _ _ _ _ _ Hrun). cbn [run]. by rewrite !Z.add_assoc.
  - cbn [fmap list_fmap]. f_equal; [|done]. unfold splice. rewrite take_0, app_nil_l, length_app, length_drop, Hls. lia.
  - cbn [concat]. rewrite Hcat. replace (Z.to_nat (k + k')) with (Z.to_nat k + Z.to_nat k')%nat by lia.
    rewrite slice_app. replace (Z.to_nat (offset self) + Z.to_nat k)%nat with (Z.to_nat (offset self + k)) by lia.
    destruct (Z.lt_ge_cases k (Z.of_nat (length b))) as [Hlt|Hge].
    + rewrite (Hshort Hlt). unfold slice at 2 4. cbn [Z.to_nat]. rewrite !take_0, app_nil_r.
      rewrite splice_app_l by lia. done.
    + rewrite splice_cover by lia. f_equal. unfold splice at 1.
      rewrite take_0, app_nil_l, drop_ge, app_nil_r by lia. done.
Qed.

(** [File::read] of an open file fills the user's slices with the bytes
    of the file from the offset on, as many as fit and exist, returns their
    number, advances the offset by it, and leaves the disk unchanged. *)
Theorem OSInode_read_correct d di f self bufs :
  inode self = node -> file_state d di f -> Forall (fun b => b <> []) bufs ->
  0 <= offset self -> offset self + Z.of_nat (length (concat bufs)) < 2 ^ 62 ->
  let n := io_len di (offset self) (Z.of_nat (length (concat bufs))) in
  exists bufs', run (OSInode_read self bufs 0) d = Ok ((n, bufs', with_offset self (offset self + n)), d) /\
    length <$> bufs' = length <$> bufs /\
    concat bufs' = splice 0 (slice (Z.to_nat (offset self)) (Z.to_nat n) (content d di f)) (concat bufs).
Proof. intros Hi Hst Hne Ho Hl n. by apply (OSInode_read_run d di f bufs self 0); try lia. Qed.

Lemma read_all_run d di f fuel : forall self buffer v,
  inode self = node -> file_state d di f -> length buffer = 512%nat ->
  0 <= offset self <= size di -> (Z.to_nat ((size di - offset self + 511) / 512) < fuel)%nat ->
  run (read_all_loop fuel self buffer v) d =
    Ok ((v ++ drop (Z.to_nat (offset self)) (content d di f), with_offset self (size di)), d).
Proof.
  induction fuel as [|fuel IH]; intros self buffer v Hi Hst Hb Ho Hf; [lia|]. cbn [read_all_loop].
  pose proof (file_content_length d di f Hst) as HC.
  assert (size di < 2 ^ 32) as Hsz.
  { destruct Hst as [_ _ [_ Hok _ _] _]. destruct (InodeForest.fo_wf _ _ _ Hok) as [_ Hw].
    unfold DiskInode_words in Hw. apply Forall_cons in Hw as [Hw _]. apply Hw. }
  pose proof (Inode_read_at_run efs area node d di f (offset self) buffer Hst ltac:(lia) ltac:(lia)) as Hrd.
  rewrite <- Hi in Hrd. rewrite (run_bind_Ok _ _ _ _ _ Hrd). rewrite Hb.
  set (k := io_len di (offset self) (Z.of_nat 512)) in *.
  assert (k = Z.min 512 (size di - offset self)) as Hk by (unfold k, io_len; lia).
  destruct (Z.eqb_spec k 0) as [Hz|Hz].
  { assert (offset self = size di) as Ho' by lia. rewrite <- Ho', drop_ge, app_nil_r by lia. cbn [run]. by destruct self. }
  rewrite w64_id by (unfold is_u64; lia).
  assert (length (slice (Z.to_nat (offset self)) (Z.to_nat k) (content d di f)) = Z.to_nat k) as Hls
    by (unfold slice; rewrite length_take, length_drop; lia).
  rewrite IH; try done; cbn [with_offset offset].
  - unfold splice at 1. rewrite take_0, app_nil_l, take_app_length' by done. rewrite <- app_assoc.
    unfold slice. replace (Z.to_nat (offset self + k)) with (Z.to_nat (offset self) + Z.to_nat k)%nat by lia.
    by rewrite <- drop_drop, take_drop.
  - unfold splice. rewrite take_0, app_nil_l, length_app, length_drop, Hls. lia.
  - lia.
  - assert ((size di - (offset self + k) + 511) / 512 < (size di - offset self + 511) / 512 \/ k < 512) as [?|?].
    { destruct (Z.lt_ge_cases k 512); [by right|left]. assert (k = 512) as -> by lia.
      replace (size di - offset self + 511) with (size di - (offset self + 512) + 511 + 1 * 512) by lia.
      rewrite Z.div_add by lia. lia. }
    + pose proof (Z.div_pos (size di - (offset self + k) + 511) 512 ltac:(lia) ltac:(lia)). lia.
    + replace (size di - (offset self + k) + 511) with 511 by lia. change (511 / 512) with 0.
      assert (1 <= (size di - offset self + 511) / 512) by (apply Z.div_le_lower_bound; lia). lia.
Qed.

(** [OSInode::read_all] of a freshly opened file returns the whole content
    of the file; a round for every 512 bytes, and one that finds the end,
    are enough. *)
Theorem OSInode_read_all_correct d di f self fuel :
  inode self = node -> offset self = 0 -> file_state d di f ->
  (Z.to_nat ((size di + 511) / 512) < fuel)%nat ->
  run (OSInode_read_all fuel self) d = Ok ((content d di f, with_offset self (size di)), d).
Proof.
  intros Hi Ho Hst Hf. assert (0 <= size di) as Hsz by (rewrite <- (file_content_length d di f Hst); lia).
  unfold OSInode_read_all. rewrite (read_all_run d di f fuel); try done; [by rewrite Ho|lia|].
  rewrite Ho. by replace (size di - 0 + 511) with (size di + 511) by lia.
Qed.
End open_file.

(** ** Witnesses *)

(** The small file with 900 bytes written at 700. *)
Lemma written_file :
  exists di f d, file_state small_fs 60 small_file d di f /\ size di = 1600.
Proof.
  destruct (Inode_write_at_run small_fs 60 small_file eq_refl (blank_disk 64) (LayoutGrow.blank_inode File)
    InodeForest.empty_forest 700 (replicate 900 Byte.x41)) as (di' & f' & d' & u & pad & _ & Hst & _ & Hsz & _);
    [apply small_file_state|done|done|lia|by vm_compute|by vm_compute| |].
  - unfold enough_free. rewrite small_free. vm_compute. lia.
  - exists di', f', d'. split; [exact Hst|]. exact Hsz.
Qed.

Lemma OSInode_read_correct_witness :
  exists di f d bufs', size di = 1600 /\
    run (OSInode_read (MkOSInode true true 1500 small_file) [replicate 60 Byte.x00; replicate 60 Byte.x00] 0) d =
      Ok ((100, bufs', MkOSInode true true 1600 small_file), d) /\
    concat bufs' = splice 0 (slice 1500 100 (content d di f)) (replicate 120 Byte.x00).
Proof.
  destruct written_file as (di & f & d & Hst & Hsz).
  destruct (OSInode_read_correct small_fs 60 small_file d di f (MkOSInode true true 1500 small_file)
    [replicate 60 Byte.x00; replicate 60 Byte.x00]) as (bufs' & Hrun & _ & Hcat).
  - reflexivity.
  - exact Hst.
  - by repeat (apply Forall_cons; split; [done|]).
  - cbn; lia.
  - by vm_compute.
  - exists di, f, d, bufs'. split; [exact Hsz|]. unfold io_len in Hrun, Hcat. rewrite Hsz in Hrun, Hcat.
    split; [exact Hrun|exact Hcat].
Defined.

Lemma OSInode_read_all_correct_witness :
  exists di f d, size di = 1600 /\
    run (OSInode_read_all 5 (OSInode_new true false small_file)) d =
      Ok ((content d di f, MkOSInode true false 1600 small_file), d).
Proof.
  destruct written_file as (di & f & d & Hst & Hsz). exists di, f, d. split; [exact Hsz|].
  rewrite (OSInode_read_all_correct small_fs 60 small_file d di f (OSInode_new true false small_file) 5);
    [by rewrite Hsz|reflexivity|reflexivity|exact Hst|]. rewrite Hsz. vm_compute. lia.
Defined.
