(* ===== verification/IntrCell.v ===== *)
(** * Cells that mask interrupts

    [kernel/src/sync/up.rs]: [UPIntrFreeCell] disables supervisor interrupts
    for as long as any of its values is borrowed.  The state is the [sie] bit
    of [sstatus], the two fields of [INTR_MASKING_INFO], and the set of the
    cells borrowed ([RefCell::borrow_mut] panics on a borrowed one). *)

From S2P Require Import Prelude StateMonad.

Record intr := MkIntr {
  sie : bool;
  nested_level : Z;
  sie_before_masking : bool;
  borrowed : gset Z;
}.

(** [IntrMaskingInfo::new] *)
Definition IntrMaskingInfo_new (sie : bool) : intr := MkIntr sie 0 false ∅.

(** [IntrMaskingInfo::enter] *)
Definition enter (s : intr) : intr :=
  MkIntr false (w64 (nested_level s + 1))
    (if nested_level s =? 0 then sie s else sie_before_masking s) (borrowed s).

(** [IntrMaskingInfo::exit] *)
Definition exit (s : intr) : intr :=
  let level := w64 (nested_level s - 1) in
  MkIntr (if (level =? 0) && sie_before_masking s then true else sie s) level
    (sie_before_masking s) (borrowed s).

(** [UPIntrFreeCell::exclusive_access] of cell [c] *)
Definition exclusive_access (c : Z) : st intr () := fun s =>
  let s := enter s in
  if bool_decide (c ∈ borrowed s) then Panic AlreadyBorrowed
  else Ok (tt, MkIntr (sie s) (nested_level s) (sie_before_masking s) ({[c]} ∪ borrowed s)).

(** The drop of a [UPIntrRefMut] of cell [c]. *)
Definition drop_ref (c : Z) : st intr () := fun s =>
  Ok (tt, exit (MkIntr (sie s) (nested_level s) (sie_before_masking s) (borrowed s ∖ {[c]}))).

(** [UPIntrFreeCell::exclusive_session] *)
Definition exclusive_session {V} (c : Z) (f : st intr V) : st intr V :=
  exclusive_access c ;*
  let* v := f in
  drop_ref c ;*
  ret v.

(** ** Correctness *)

(** Borrows and drops in any order. *)
Inductive access := Borrow (c : Z) | Drop (c : Z).

Definition do_access (a : access) : st intr () :=
  match a with
  | Borrow c => exclusive_access c
  | Drop c => fun s => if bool_decide (c ∈ borrowed s) then drop_ref c s else Panic ExplicitPanic
  end.

(** With [sie0] the bit outside: interrupts are masked exactly while a cell is
    borrowed, and the level counts the borrowed cells. *)
Record intr_inv (sie0 : bool) (s : intr) : Prop := {
  iv_level : nested_level s = Z.of_nat (size (borrowed s));
  iv_bound : nested_level s < 2 ^ 63;
  iv_before : nested_level s <> 0 -> sie_before_masking s = sie0;
  iv_sie : sie s = if nested_level s =? 0 then sie0 else false;
}.

Lemma borrow_inv sie0 c s s' :
  intr_inv sie0 s -> nested_level s < 2 ^ 63 - 1 -> exclusive_access c s = Ok (tt, s') ->
  intr_inv sie0 s' /\ borrowed s' = {[c]} ∪ borrowed s /\ (c ∉ borrowed s) /\ sie s' = false.
Proof.
  intros [Hl Hb Hbe Hs] Hlt H. unfold exclusive_access in H. cbn in H. case_bool_decide as Hc; [done|].
  injection H as <-. assert (0 <= nested_level s) by lia. rewrite w64_id by (unfold is_u64; lia).
  split_and!; try done. split; cbn [nested_level borrowed sie sie_before_masking].
  - rewrite size_union, size_singleton by set_solver. lia.
  - lia.
  - intros _. destruct (Z.eqb_spec (nested_level s) 0); [congruence|by apply Hbe].
  - by rewrite (proj2 (Z.eqb_neq _ _)) by lia.
Qed.

Lemma drop_inv sie0 c s :
  intr_inv sie0 s -> c ∈ borrowed s ->
  exists s', drop_ref c s = Ok (tt, s') /\ intr_inv sie0 s' /\ borrowed s' = borrowed s ∖ {[c]}.
Proof.
  intros [Hl Hb Hbe Hs] Hc. eexists. split; [done|].
  assert (size (borrowed s) = S (size (borrowed s ∖ {[c]}))) as Hsz.
  { rewrite (union_difference_singleton_L c (borrowed s) Hc) at 1.
    rewrite size_union, size_singleton by set_solver. lia. }
  unfold exit. cbn [nested_level borrowed sie sie_before_masking]. rewrite w64_id by (unfold is_u64; lia).
  specialize (Hbe ltac:(lia)). rewrite (proj2 (Z.eqb_neq _ _)) in Hs by lia.
  split; [|done]. split; cbn [nested_level borrowed sie sie_before_masking]; [lia|lia|done|].
  rewrite Hbe, Hs. destruct (nested_level s - 1 =? 0), sie0; done.
Qed.

(** C38: with any pattern of borrows and drops, interrupts are masked while any
    cell is borrowed and have their original setting when none is; and
    borrowing a cell twice panics. *)
Theorem interrupts_masked sie0 accs s :
  Z.of_nat (length accs) < 2 ^ 62 ->
  iter_st do_access accs (IntrMaskingInfo_new sie0) = Ok (tt, s) ->
  nested_level s = Z.of_nat (size (borrowed s)) /\
  sie s = (if decide (borrowed s = ∅) then sie0 else false) /\
  (forall c, c ∈ borrowed s -> exclusive_access c s = Panic AlreadyBorrowed).
Proof.
  intros Hlen Hrun.
  assert (forall accs s0, intr_inv sie0 s0 -> nested_level s0 + Z.of_nat (length accs) < 2 ^ 62 ->
    iter_st do_access accs s0 = Ok (tt, s) -> intr_inv sie0 s) as Hgen.
  { clear. induction accs as [|a accs IH]; intros s0 HI Hl H; [by injection H as <-|].
    cbn [iter_st length] in *. apply st_bind_inv in H as ([] & s1 & H1 & H2). destruct a as [c|c]; cbn in H1.
    - destruct (borrow_inv sie0 c s0 s1 HI ltac:(lia) H1) as (HI1 & Hb & Hc & _). apply (IH s1 HI1); [|done].
      rewrite (iv_level _ _ HI1), Hb, size_union, size_singleton by set_solver. rewrite (iv_level _ _ HI) in Hl. lia.
    - case_bool_decide as Hc; [|done]. destruct (drop_inv sie0 c s0 HI Hc) as (s2 & Hr & HI1 & Hb).
      assert (s2 = s1) as -> by congruence. apply (IH s1 HI1); [|done].
      rewrite (iv_level _ _ HI1), Hb. rewrite (iv_level _ _ HI) in Hl.
      assert (size (borrowed s0 ∖ {[c]}) <= size (borrowed s0))%nat by (apply subseteq_size; set_solver). lia. }
  destruct (Hgen accs (IntrMaskingInfo_new sie0)) as [Hl Hb Hbe Hs]; [|done|done|].
  { split; done. }
  split_and!; [done| |].
  - rewrite Hs. case_decide as E.
    + rewrite Hl, E, size_empty. done.
    + rewrite (proj2 (Z.eqb_neq _ _)); [done|]. rewrite Hl. intros E0. apply E. apply leibniz_equiv, size_empty_inv. lia.
  - intros c Hc. unfold exclusive_access. cbn. by rewrite bool_decide_true.
Qed.

Lemma interrupts_masked_witness :
  exists s, iter_st do_access [Borrow 1; Borrow 2; Drop 1] (IntrMaskingInfo_new true) = Ok (tt, s) /\
    sie s = (if decide (borrowed s = ∅) then true else false).
Proof.
  eexists. split; [by vm_compute|].
  eapply (interrupts_masked true [Borrow 1; Borrow 2; Drop 1]); [reflexivity|by vm_compute].
Defined.
