(* ===== verification/Plic.v ===== *)
(** * The interrupt controller

    [kernel/src/drivers/plic.rs] and the interrupt setup of
    [kernel/src/boards/qemu.rs].  The registers of the controller are reached
    through volatile loads and stores; the device behind them is a parameter,
    of which the theorems use that its configuration registers hold what was
    written to them. *)

From S2P Require Import Prelude Config StateMonad.

(** ** Volatile memory *)

(** Loads and stores of [n] bytes at an address of a device with state [D]. *)
Class Mmio (D : Type) := {
  mmio_read : nat -> Z -> st D Z;
  mmio_write : nat -> Z -> Z -> st D ();
}.

(** ** Registers *)

Inductive IntrTargetPriority := Machine | Supervisor.

#[global] Instance IntrTargetPriority_eq_dec : EqDecision IntrTargetPriority.
Proof. solve_decision. Defined.

Definition prio_num (p : IntrTargetPriority) : Z := match p with Machine => 0 | Supervisor => 1 end.

(** [IntrTargetPriority::supported_number] *)
Definition supported_number : Z := 2.

Record Plic := MkPlic { base_addr : Z }.

(** [Plic::priority_ptr] *)
Definition priority_ptr (self : Plic) (id : Z) : res Z :=
  let? _ := assert ((0 <? id) && (id <=? 132)) in
  Ok (w64 (base_addr self + id * 4)).

(** [Plic::hart_id_with_priority] *)
Definition hart_id_with_priority (hart_id : Z) (p : IntrTargetPriority) : Z :=
  w64 (hart_id * supported_number + prio_num p).

(** [Plic::enable_ptr]: the register and the bit. *)
Definition enable_ptr (self : Plic) (hart_id : Z) (p : IntrTargetPriority) (id : Z) : Z * Z :=
  let c := hart_id_with_priority hart_id p in
  (w64 (base_addr self + 0x2000 + 0x80 * c + 0x4 * (id / 32)), id mod 32).

(** [Plic::threshold_ptr_of_hart_with_priority],
    [Plic::claim_comp_ptr_of_hart_with_priority] *)
Definition threshold_ptr (self : Plic) (hart_id : Z) (p : IntrTargetPriority) : Z :=
  w64 (base_addr self + 0x200000 + 0x1000 * hart_id_with_priority hart_id p).
Definition claim_comp_ptr (self : Plic) (hart_id : Z) (p : IntrTargetPriority) : Z :=
  w64 (base_addr self + 0x200004 + 0x1000 * hart_id_with_priority hart_id p).

Section operations.
Context {D : Type} `{Mmio D} (self : Plic).

(** [Plic::set_priority], [Plic::priority] *)
Definition set_priority (id priority : Z) : st D () :=
  check (priority <? 8) ;*
  let* ptr := of_res (priority_ptr self id) in
  mmio_write 4 ptr priority.
Definition get_priority (id : Z) : st D Z :=
  let* ptr := of_res (priority_ptr self id) in
  let* v := mmio_read 4 ptr in
  ret (Z.land v 7).

(** [Plic::enable], [Plic::disable] *)
Definition enable (hart_id : Z) (p : IntrTargetPriority) (id : Z) : st D () :=
  let '(ptr, shift) := enable_ptr self hart_id p id in
  let* v := mmio_read 4 ptr in
  mmio_write 4 ptr (Z.lor v (w32 (Z.shiftl 1 shift))).
Definition disable (hart_id : Z) (p : IntrTargetPriority) (id : Z) : st D () :=
  let '(ptr, shift) := enable_ptr self hart_id p id in
  let* v := mmio_read 4 ptr in
  mmio_write 4 ptr (Z.land v (w32 (Z.lnot (w32 (Z.shiftl 1 shift))))).

(** [Plic::set_threshold], [Plic::threshold] *)
Definition set_threshold (hart_id : Z) (p : IntrTargetPriority) (threshold : Z) : st D () :=
  check (threshold <? 8) ;*
  mmio_write 4 (threshold_ptr self hart_id p) threshold.
Definition get_threshold (hart_id : Z) (p : IntrTargetPriority) : st D Z :=
  let* v := mmio_read 4 (threshold_ptr self hart_id p) in
  ret (Z.land v 7).

(** [Plic::claim], [Plic::complete] *)
Definition claim (hart_id : Z) (p : IntrTargetPriority) : st D Z :=
  mmio_read 4 (claim_comp_ptr self hart_id p).
Definition complete (hart_id : Z) (p : IntrTargetPriority) (completion : Z) : st D () :=
  mmio_write 4 (claim_comp_ptr self hart_id p) completion.
End operations.

(** ** The board *)

Definition VIRT_PLIC : Z := 0x0c000000.
Definition VIRT_UART : Z := 0x10000000.

Section board.
Context {D : Type} `{Mmio D}.

Definition plic : Plic := MkPlic VIRT_PLIC.

(** [board::init], without the interrupt bit of the processor: the sources
    are the keyboard, the mouse, the disk and the serial line. *)
Definition board_init : st D () :=
  set_threshold plic 0 Supervisor 0 ;*
  set_threshold plic 0 Machine 1 ;*
  iter_st (fun id => enable plic 0 Supervisor id ;* set_priority plic id 1) [5; 6; 8; 10].

(** [board::irq_handler]; the handlers of the four devices are parameters. *)
Definition irq_handler (keyboard mouse block uart : st D ()) : st D () :=
  let* id := claim plic 0 Supervisor in
  (if id =? 5 then keyboard
   else if id =? 6 then mouse
   else if id =? 8 then block
   else if id =? 10 then uart
   else panic ExplicitPanic) ;*
  complete plic 0 Supervisor id.
End board.

(** ** Where the registers are *)

(** The registers the driver uses, by their meaning. *)
Inductive register :=
  | RPriority (id : Z)
  | REnable (p : IntrTargetPriority) (word : Z)
  | RThreshold (p : IntrTargetPriority)
  | RClaim (p : IntrTargetPriority).

(** The addresses the operations use for hart 0. *)
Definition address (r : register) : Z :=
  match r with
  | RPriority id => match priority_ptr plic id with Ok a => a | Panic _ => 0 end
  | REnable p word => (enable_ptr plic 0 p (word * 32)).1
  | RThreshold p => threshold_ptr plic 0 p
  | RClaim p => claim_comp_ptr plic 0 p
  end.

(** Sources up to 132, in five words of enable bits. *)
Definition register_ok (r : register) : Prop :=
  match r with
  | RPriority id => 0 < id <= 132
  | REnable _ word => 0 <= word <= 4
  | _ => True
  end.

Lemma address_value r :
  register_ok r ->
  address r = VIRT_PLIC +
    match r with
    | RPriority id => id * 4
    | REnable p word => 0x2000 + 0x80 * prio_num p + 4 * word
    | RThreshold p => 0x200000 + 0x1000 * prio_num p
    | RClaim p => 0x200004 + 0x1000 * prio_num p
    end.
Proof.
  unfold address, priority_ptr, enable_ptr, threshold_ptr, claim_comp_ptr, hart_id_with_priority, supported_number.
  cbn [plic base_addr]. unfold VIRT_PLIC. intros Hr. destruct r as [id|p word|p|p]; cbn in Hr.
  - rewrite (proj2 (Z.ltb_lt _ _)), (proj2 (Z.leb_le _ _)) by lia. cbn. apply w64_id. unfold is_u64. lia.
  - cbn [fst]. rewrite Z.div_mul by lia. destruct p; cbn [prio_num]; rewrite !w64_id; unfold is_u64; try rewrite w64_id; unfold is_u64; lia.
  - destruct p; cbn [prio_num]; rewrite !w64_id; unfold is_u64; try rewrite w64_id; unfold is_u64; lia.
  - destruct p; cbn [prio_num]; rewrite !w64_id; unfold is_u64; try rewrite w64_id; unfold is_u64; lia.
Qed.

Lemma registers_apart r r' :
  register_ok r -> register_ok r' ->
  (exists size, (VIRT_PLIC, size) ∈ MMIO /\ VIRT_PLIC <= address r /\ address r + 4 <= VIRT_PLIC + size) /\
  address r mod 4 = 0 /\ (r <> r' -> address r + 4 <= address r' \/ address r' + 4 <= address r).
Proof.
  intros Hr Hr'. rewrite !address_value by done. split_and!.
  - exists 0x210000. split; [unfold MMIO; set_solver|]. unfold VIRT_PLIC.
    destruct r as [id|[] word|[]|[]]; cbn in *; lia.
  - unfold VIRT_PLIC. destruct r as [id|[] word|[]|[]]; cbn in *; Z.div_mod_to_equations; lia.
  - intros Hne. unfold VIRT_PLIC.
    destruct r as [id|[] word|[]|[]], r' as [id'|[] word'|[]|[]]; cbn in *; try lia; try congruence;
      match goal with
      | H : RPriority ?a <> RPriority ?b |- _ => assert (a <> b) by congruence; lia
      | H : REnable _ ?a <> REnable _ ?b |- _ => assert (a <> b) by congruence; lia
      end.
Qed.

(** The registers the driver uses for hart 0 are four aligned bytes each
    inside the window of the controller that the kernel maps, and no two of
    them overlap. *)
Theorem plic_registers_apart r r' :
  register_ok r -> register_ok r' ->
  (exists size, (VIRT_PLIC, size) ∈ MMIO /\ VIRT_PLIC <= address r /\ address r + 4 <= VIRT_PLIC + size) /\
  address r mod 4 = 0 /\ (r <> r' -> address r + 4 <= address r' \/ address r' + 4 <= address r).
Proof. apply registers_apart. Qed.

(** ** What the operations do *)

(** The configuration registers of the device hold what was written to them. *)
Class PlicDevice (D : Type) `{Mmio D} := {
  reg : D -> register -> Z;
  read_reg d r : register_ok r -> (forall p, r <> RClaim p) -> mmio_read 4 (address r) d = Ok (reg d r, d);
  write_reg d r v : register_ok r -> (forall p, r <> RClaim p) ->
    exists d', mmio_write 4 (address r) v d = Ok (tt, d') /\
      forall r', register_ok r' -> (forall p, r' <> RClaim p) ->
        (r' = r -> reg d' r' = v) /\ (r' <> r -> reg d' r' = reg d r');
}.

Section device.
Context {D : Type} `{PlicDevice D}.

(** Source [id] is enabled for [p]. *)
Definition enabled (d : D) (p : IntrTargetPriority) (id : Z) : bool :=
  Z.testbit (reg d (REnable p (id / 32))) (id mod 32).

Definition source (id : Z) : Prop := 0 < id <= 132.

Lemma enable_ptr_address p id :
  source id -> enable_ptr plic 0 p id = (address (REnable p (id / 32)), id mod 32) /\ register_ok (REnable p (id / 32)).
Proof.
  intros Hid. unfold source in Hid. split.
  - unfold address, enable_ptr. cbn [fst]. by rewrite Z.div_mul by lia.
  - cbn. split; [apply Z.div_pos; lia|]. assert (id / 32 < 5) by (apply Z.div_lt_upper_bound; lia). lia.
Qed.

Lemma bit_word id : source id -> w32 (Z.shiftl 1 (id mod 32)) = 2 ^ (id mod 32).
Proof.
  intros _. pose proof (Z.mod_pos_bound id 32 ltac:(lia)). rewrite Z.shiftl_1_l. apply w32_id. unfold is_u32.
  split; [apply Z.pow_nonneg; lia|]. apply Z.pow_lt_mono_r; lia.
Qed.

Lemma same_source id id' : id / 32 = id' / 32 -> id mod 32 = id' mod 32 -> id = id'.
Proof. intros Hd Hm. rewrite (Z.div_mod id 32), (Z.div_mod id' 32) by lia. congruence. Qed.

(** The configuration of [d'] is that of [d], except for a register of
    enable bits. *)
Definition others_same (d d' : D) (r : register) : Prop :=
  forall r', register_ok r' -> (forall p, r' <> RClaim p) -> r' <> r -> reg d' r' = reg d r'.

(** A source's bit in the word of another source. *)
Lemma enabled_other d d' p p' id id' :
  others_same d d' (REnable p (id / 32)) -> source id' ->
  (p = p' -> id / 32 <> id' / 32) -> enabled d' p' id' = enabled d p' id'.
Proof.
  intros Hs Hid' Hne. unfold enabled. rewrite Hs; [done| |by intros ? ?|].
  - apply (enable_ptr_address p' id' Hid').
  - intros [= E1 E2]. subst. by apply Hne.
Qed.

Lemma enable_run d p id :
  source id -> exists d', enable plic 0 p id d = Ok (tt, d') /\ others_same d d' (REnable p (id / 32)) /\
    forall p' id', source id' ->
      enabled d' p' id' = bool_decide (p' = p /\ id' = id) || enabled d p' id'.
Proof.
  intros Hid. destruct (enable_ptr_address p id Hid) as [Ep Hok]. unfold enable. rewrite Ep, bit_word by done.
  set (r := REnable p (id / 32)) in *. rewrite (st_bind_Ok _ _ _ _ _ (read_reg d r Hok ltac:(done))).
  destruct (write_reg d r (Z.lor (reg d r) (2 ^ (id mod 32))) Hok ltac:(done)) as (d' & Hw & Hreg).
  exists d'. split; [done|].
  assert (others_same d d' r) as Hs by (intros r' ? ? ?; by apply Hreg). split; [done|].
  intros p' id' Hid'. pose proof (Z.mod_pos_bound id' 32 ltac:(lia)). pose proof (Z.mod_pos_bound id 32 ltac:(lia)).
  destruct (decide (p = p' /\ id / 32 = id' / 32)) as [[-> Hd]|Hne].
  - unfold enabled. rewrite <- Hd. fold r. destruct (Hreg r Hok ltac:(done)) as [-> _]; [|done].
    rewrite Z.lor_spec, Z.pow2_bits_eqb by lia. rewrite orb_comm. f_equal.
    destruct (Z.eqb_spec (id mod 32) (id' mod 32)) as [Hm|Hm].
    + symmetry. apply bool_decide_eq_true. split; [done|]. symmetry. by apply same_source.
    + symmetry. apply bool_decide_eq_false. intros [_ ->]. done.
  - rewrite bool_decide_eq_false_2 by (intros [-> ->]; by apply Hne). cbn. eapply enabled_other; [exact Hs|done|].
    intros E1 E2. by apply Hne.
Qed.

Lemma disable_run d p id :
  source id -> exists d', disable plic 0 p id d = Ok (tt, d') /\ others_same d d' (REnable p (id / 32)) /\
    forall p' id', source id' ->
      enabled d' p' id' = negb (bool_decide (p' = p /\ id' = id)) && enabled d p' id'.
Proof.
  intros Hid. destruct (enable_ptr_address p id Hid) as [Ep Hok]. unfold disable. rewrite Ep, bit_word by done.
  set (r := REnable p (id / 32)) in *. rewrite (st_bind_Ok _ _ _ _ _ (read_reg d r Hok ltac:(done))).
  destruct (write_reg d r (Z.land (reg d r) (w32 (Z.lnot (2 ^ (id mod 32))))) Hok ltac:(done)) as (d' & Hw & Hreg).
  exists d'. split; [done|].
  assert (others_same d d' r) as Hs by (intros r' ? ? ?; by apply Hreg). split; [done|].
  intros p' id' Hid'. pose proof (Z.mod_pos_bound id' 32 ltac:(lia)). pose proof (Z.mod_pos_bound id 32 ltac:(lia)).
  destruct (decide (p = p' /\ id / 32 = id' / 32)) as [[-> Hd]|Hne].
  - unfold enabled. rewrite <- Hd. fold r. destruct (Hreg r Hok ltac:(done)) as [-> _]; [|done].
    unfold w32. rewrite Z.land_spec, Z.mod_pow2_bits_low, Z.lnot_spec, Z.pow2_bits_eqb by lia. rewrite andb_comm. do 2 f_equal.
    destruct (Z.eqb_spec (id mod 32) (id' mod 32)) as [Hm|Hm].
    + symmetry. apply bool_decide_eq_true. split; [done|]. symmetry. by apply same_source.
    + symmetry. apply bool_decide_eq_false. intros [_ ->]. done.
  - rewrite bool_decide_eq_false_2 by (intros [-> ->]; by apply Hne). cbn. eapply enabled_other; [exact Hs|done|].
    intros E1 E2. by apply Hne.
Qed.

(** [Plic::enable] sets the bit of its source for its target and no other;
    [Plic::disable] clears it and no other, so that it undoes [enable] of a
    source that was not enabled.  Neither touches another register. *)
Theorem plic_enable_disable d p id :
  source id -> exists d1 d2, enable plic 0 p id d = Ok (tt, d1) /\ disable plic 0 p id d1 = Ok (tt, d2) /\
    others_same d d1 (REnable p (id / 32)) /\ others_same d1 d2 (REnable p (id / 32)) /\
    forall p' id', source id' ->
      enabled d1 p' id' = bool_decide (p' = p /\ id' = id) || enabled d p' id' /\
      enabled d2 p' id' = negb (bool_decide (p' = p /\ id' = id)) && enabled d p' id'.
Proof.
  intros Hid. destruct (enable_run d p id Hid) as (d1 & H1 & S1 & E1).
  destruct (disable_run d1 p id Hid) as (d2 & H2 & S2 & E2).
  exists d1, d2. split_and!; try done. intros p' id' Hid'. split; [by apply E1|].
  rewrite E2, E1 by done. destruct (bool_decide _); [done|]. done.
Qed.
Lemma set_priority_run d id v :
  source id -> 0 <= v < 8 -> exists d', set_priority plic id v d = Ok (tt, d') /\
    reg d' (RPriority id) = v /\ others_same d d' (RPriority id).
Proof.
  intros Hid Hv. assert (priority_ptr plic id = Ok (address (RPriority id))) as Hp.
  { unfold address, priority_ptr. unfold source in Hid. by rewrite (proj2 (Z.ltb_lt _ _)), (proj2 (Z.leb_le _ _)) by lia. }
  destruct (write_reg d (RPriority id) v Hid ltac:(done)) as (d' & Hw & Hreg). exists d'. split_and!.
  - unfold set_priority. rewrite bind_check, (proj2 (Z.ltb_lt _ _)) by lia. unfold st_bind, of_res. by rewrite Hp.
  - by apply (Hreg (RPriority id)).
  - intros r' ? ? ?. by apply Hreg.
Qed.

Lemma set_threshold_run d p v :
  0 <= v < 8 -> exists d', set_threshold plic 0 p v d = Ok (tt, d') /\
    reg d' (RThreshold p) = v /\ others_same d d' (RThreshold p).
Proof.
  intros Hv. destruct (write_reg d (RThreshold p) v I ltac:(done)) as (d' & Hw & Hreg). exists d'. split_and!.
  - unfold set_threshold. by rewrite bind_check, (proj2 (Z.ltb_lt _ _)) by lia.
  - by apply (Hreg (RThreshold p)).
  - intros r' ? ? ?. by apply Hreg.
Qed.

Lemma enabled_same d d' r p id :
  others_same d d' r -> source id -> (forall w, r <> REnable p w) -> enabled d' p id = enabled d p id.
Proof.
  intros Hs Hid Hr. unfold enabled. rewrite Hs; [done|by apply enable_ptr_address|by intros ? ?|]. intros E. by apply (Hr (id / 32)).
Qed.

(** The configuration after the sources [l] were enabled with priority 1. *)
Record configured (l : list Z) (d d' : D) : Prop := {
  cf_supervisor id : source id -> enabled d' Supervisor id = bool_decide (id ∈ l) || enabled d Supervisor id;
  cf_machine id : source id -> enabled d' Machine id = enabled d Machine id;
  cf_priority id : source id -> reg d' (RPriority id) = if bool_decide (id ∈ l) then 1 else reg d (RPriority id);
  cf_threshold p : reg d' (RThreshold p) = reg d (RThreshold p);
}.

Lemma configure_run l : forall d, Forall source l ->
  exists d', iter_st (fun id => enable plic 0 Supervisor id ;* set_priority plic id 1) l d = Ok (tt, d') /\
    configured l d d'.
Proof.
  induction l as [|id l IH]; intros d Hl; cbn [iter_st].
  { exists d. split; [done|]. by split. }
  apply Forall_cons in Hl as [Hid Hl]. destruct (enable_run d Supervisor id Hid) as (d1 & H1 & S1 & E1).
  destruct (set_priority_run d1 id 1 Hid ltac:(lia)) as (d2 & H2 & P2 & S2).
  destruct (IH d2 Hl) as (d' & H' & [Cs Cm Cp Ct]). exists d'.
  assert ((enable plic 0 Supervisor id ;* set_priority plic id 1) d = Ok (tt, d2)) as H12
    by (by rewrite (st_bind_Ok _ _ _ _ _ H1)).
  rewrite (st_bind_Ok _ _ _ _ _ H12). split; [done|]. split.
  - intros x Hx. rewrite Cs, (enabled_same d1 d2 (RPriority id)), E1 by done. rewrite orb_assoc. f_equal.
    rewrite <- bool_decide_or. apply bool_decide_ext. rewrite elem_of_cons. naive_solver.
  - intros x Hx. rewrite Cm, (enabled_same d1 d2 (RPriority id)), E1 by done.
    by rewrite bool_decide_eq_false_2 by (intros [? _]; done).
  - intros x Hx. rewrite Cp by done. destruct (bool_decide_reflect (x ∈ l)).
    + rewrite bool_decide_eq_true_2; [done|]. by right.
    + destruct (decide (x = id)) as [->|Hne].
      * rewrite P2, bool_decide_eq_true_2; [done|]. by left.
      * rewrite bool_decide_eq_false_2 by (rewrite elem_of_cons; naive_solver).
        rewrite S2, S1; try done; congruence.
  - intros p. rewrite Ct, S2, S1; done.
Qed.

(** After [board::init] the four sources of the board are enabled for the
    supervisor of hart 0, no other source is newly enabled and none for the
    machine; they have priority 1, above the threshold of the supervisor and
    not above that of the machine. *)
Theorem board_init_correct d :
  exists d', board_init d = Ok (tt, d') /\
    (forall id, source id ->
       enabled d' Supervisor id = bool_decide (id ∈ [5; 6; 8; 10]) || enabled d Supervisor id /\
       enabled d' Machine id = enabled d Machine id) /\
    (forall id, id ∈ [5; 6; 8; 10] ->
       reg d' (RThreshold Supervisor) < reg d' (RPriority id) <= reg d' (RThreshold Machine)).
Proof.
  destruct (set_threshold_run d Supervisor 0 ltac:(lia)) as (d1 & H1 & T1 & S1).
  destruct (set_threshold_run d1 Machine 1 ltac:(lia)) as (d2 & H2 & T2 & S2).
  assert (Forall source [5; 6; 8; 10]) as Hl by (unfold source; repeat (constructor; [lia|]); constructor).
  destruct (configure_run [5; 6; 8; 10] d2 Hl) as (d' & H' & [Cs Cm Cp Ct]). exists d'. split_and!.
  - unfold board_init. by rewrite (st_bind_Ok _ _ _ _ _ H1), (st_bind_Ok _ _ _ _ _ H2).
  - intros id Hid. rewrite Cs, Cm by done.
    by rewrite !(enabled_same d1 d2 (RThreshold Machine)), !(enabled_same d d1 (RThreshold Supervisor)).
  - intros id Hid. rewrite Forall_forall in Hl. rewrite Cp, bool_decide_eq_true_2, !Ct by auto.
    rewrite T2, S2, T1 by done. lia.
Qed.
End device.

(** ** Witnesses *)

(** A device whose registers are plain words. *)
#[global] Instance words_mmio : Mmio (gmap Z Z) := {
  mmio_read _ a := fun d => Ok (default 0 (d !! a), d);
  mmio_write _ a v := modify (<[a := v]>);
}.

#[global] Program Instance words_plic : PlicDevice (gmap Z Z) := {
  reg d r := default 0 (d !! address r);
}.
Next Obligation. done. Qed.
Next Obligation.
  intros d r v Hr _. eexists. split; [done|]. intros r' Hr' _. split.
  - intros ->. cbn. by rewrite lookup_insert_eq.
  - intros Hne. cbn. rewrite lookup_insert_ne; [done|]. destruct (registers_apart r r' Hr Hr') as (_ & _ & Ha).
    specialize (Ha ltac:(congruence)). lia.
Qed.

Lemma plic_registers_apart_witness :
  address (RPriority 132) + 4 <= address (REnable Machine 0) \/ address (REnable Machine 0) + 4 <= address (RPriority 132).
Proof.
  apply (plic_registers_apart (RPriority 132) (REnable Machine 0)); [cbn; lia|cbn; lia|discriminate].
Defined.

Lemma plic_enable_disable_witness :
  exists d1 d2 : gmap Z Z, enable plic 0 Supervisor 10 ∅ = Ok (tt, d1) /\ enabled d1 Supervisor 10 = true /\
    disable plic 0 Supervisor 10 d1 = Ok (tt, d2) /\ enabled d2 Supervisor 10 = false.
Proof.
  destruct (plic_enable_disable (∅ : gmap Z Z) Supervisor 10 ltac:(unfold source; lia)) as
    (d1 & d2 & H1 & H2 & _ & _ & H). destruct (H Supervisor 10 ltac:(unfold source; lia)) as [E1 E2].
  exists d1, d2. split_and!; [exact H1|by rewrite E1|exact H2|by rewrite E2].
Defined.
