(* ===== verification/InputDevice.v ===== *)
(** * Input devices

    The serial line of [kernel/src/drivers/chardev/ns16550a.rs] and the
    keyboard and mouse of [kernel/src/drivers/input/mod.rs] work in the same
    way: an interrupt moves what has arrived into a queue in memory and wakes a
    reader; a reader takes the front of the queue, or waits on a condition
    variable.  The common part is written over an interface of a source of
    input and its laws; the serial line discharges it from the behaviour of
    its registers.  The system calls of [kernel/src/syscall/input.rs] and the
    decoding of events in [user/src/input.rs] are here as well. *)

From S2P Require Import Prelude Config StateMonad Scheduler SchedulerSpec Plic.

(** ** Sources of input *)

(** The next item a device has, if any. *)
Class InputSource (D E : Type) := next_input : st D (option E).

(** [arrived] is what the device holds, oldest first. *)
Class InputLaws (D E : Type) `{InputSource D E} := {
  arrived : D -> list E;
  next_spec d : exists d', next_input d = Ok (head (arrived d), d') /\ arrived d' = tail (arrived d);
}.

(** ** The queue of a device *)

Record queue_state (D E : Type) := MkQueue { raw : D; read_buffer : list E; sched : kernel }.
Arguments MkQueue {_ _}.
Arguments raw {_ _}.
Arguments read_buffer {_ _}.
Arguments sched {_ _}.

Section queue.
Context {D E : Type} `{InputSource D E}.

(** The condition variable of the device. *)
Context (condvar : nat).

Definition on_sched {A} (f : st kernel A) : st (queue_state D E) A := fun s =>
  let? (a, k) := f (sched s) in Ok (a, MkQueue (raw s) (read_buffer s) k).

(** The loop of [handle_irq]: the number of items it moved. *)
Fixpoint drain (fuel : nat) (count : Z) : st (queue_state D E) Z := fun s =>
  match fuel with
  | O => Panic OutOfFuel
  | S fuel =>
      let? (o, d) := next_input (raw s) in
      match o with
      | None => Ok (count, MkQueue d (read_buffer s) (sched s))
      | Some e => drain fuel (count + 1) (MkQueue d (read_buffer s ++ [e]) (sched s))
      end
  end.

(** [CharDevice::handle_irq], [InputDevice::handle_irq] *)
Definition handle_irq (fuel : nat) : st (queue_state D E) () :=
  let* count := drain fuel 0 in
  if 0 <? count then on_sched (condvar_signal condvar) else ret tt.

(** A turn of [CharDevice::read], [InputDevice::read_event]: the front of the
    queue, or the task waits and tries again when it runs. *)
Definition read_turn : st (queue_state D E) (option E) := fun s =>
  match read_buffer s with
  | e :: rest => Ok (Some e, MkQueue (raw s) rest (sched s))
  | [] => (on_sched (condvar_wait_no_sched condvar) ;* ret None) s
  end.

(** [is_read_buffer_empty], [InputDevice::is_empty] *)
Definition is_empty (s : queue_state D E) : bool := match read_buffer s with [] => true | _ => false end.
End queue.

(** ** The serial line *)

(** The registers, as addresses. *)
Record NS16550aRaw := MkRaw { rbr : Z; thr : Z; ier : Z; iir : Z; lcr : Z; mcr : Z; lsr : Z }.

(** [NonNull::new(a).expect(..)] *)
Definition non_null (a : Z) : res Z := if w64 a =? 0 then Panic UnwrapNone else Ok (w64 a).

(** [NS16550aRaw::new]: the read end and the write end have the same
    registers but for [rbr] and [thr], which share an address. *)
Definition NS16550aRaw_new (base : Z) : res NS16550aRaw :=
  let? rbr := non_null base in
  let? ier := non_null (base + 1) in
  let? iir := non_null (base + 2) in
  let? lcr := non_null (base + 3) in
  let? mcr := non_null (base + 4) in
  let? lsr := non_null (base + 5) in
  let? _ := non_null (base + 6) in
  let? _ := non_null (base + 7) in
  let? thr := non_null base in
  Ok (MkRaw rbr thr ier iir lcr mcr lsr).

Definition RX_AVAILABLE : Z := Z.shiftl 1 0.
Definition DATA_AVAILABLE : Z := Z.shiftl 1 0.
Definition THR_EMPTY : Z := Z.shiftl 1 5.
Definition DATA_TERMINAL_READY : Z := Z.shiftl 1 0.
Definition REQUEST_TO_SEND : Z := Z.shiftl 1 1.
Definition AUX_OUTPUT2 : Z := Z.shiftl 1 3.
Definition lsr_contains (v flag : Z) : bool := Z.land v flag =? flag.

Section uart.
Context {D : Type} `{Mmio D} (self : NS16550aRaw).

(** [NS16550aRaw::init] *)
Definition raw_init : st D () :=
  mmio_write 1 (mcr self) (Z.lor (Z.lor (Z.lor 0 DATA_TERMINAL_READY) REQUEST_TO_SEND) AUX_OUTPUT2) ;*
  mmio_write 1 (ier self) RX_AVAILABLE.

(** [NS16550aRaw::read] *)
Definition raw_read : st D (option Z) :=
  let* v := mmio_read 1 (lsr self) in
  if lsr_contains v DATA_AVAILABLE then
    let* ch := mmio_read 1 (rbr self) in
    ret (Some ch)
  else ret None.

(** [NS16550aRaw::write]: [fuel] bounds the number of polls. *)
Fixpoint raw_write (fuel : nat) (ch : Z) : st D () :=
  match fuel with
  | O => panic OutOfFuel
  | S fuel =>
      let* v := mmio_read 1 (lsr self) in
      if lsr_contains v THR_EMPTY then mmio_write 1 (thr self) ch
      else raw_write fuel ch
  end.
End uart.

(** ** Events *)

Record InputEvent := MkEvent { event_type : Z; code : Z; value : Z }.

#[global] Instance InputEvent_eq_dec : EqDecision InputEvent.
Proof. solve_decision. Defined.

(** The word [handle_irq] makes of an event. *)
Definition pack (e : InputEvent) : Z :=
  Z.lor (Z.lor (w64 (Z.shiftl (event_type e) 48)) (w64 (Z.shiftl (code e) 32))) (value e).

(** The keyboard and the mouse: the next word to queue is the next event of
    the device, packed. *)
Class EventDevice (D : Type) := pop_pending_event : st D (option InputEvent).

#[export] Instance event_source {D} `{EventDevice D} : InputSource D Z :=
  let* o := pop_pending_event in ret (pack <$> o).

(** [InputEvent::from] of the user library *)
Definition InputEvent_from (v : Z) : InputEvent :=
  let value := w32 v in
  let v := Z.shiftr v 32 in
  let code := v mod 2 ^ 16 in
  let v := Z.shiftr v 16 in
  MkEvent (v mod 2 ^ 16) code value.

(** [event_get] of the user library, on the result of [sys_event_get] *)
Definition event_get (raw_value : Z) : option InputEvent :=
  if raw_value =? 0 then None else Some (InputEvent_from (w64 raw_value)).

(** [sys_event_get] on the queues of the keyboard and the mouse: a queue that
    is not empty is read without waiting. *)
Definition sys_event_get (keyboard mouse : list Z) : Z * (list Z * list Z) :=
  match keyboard with
  | e :: keyboard => (i64 e, (keyboard, mouse))
  | [] =>
      match mouse with
      | e :: mouse => (i64 e, ([], mouse))
      | [] => (0, ([], []))
      end
  end.

(** [sys_key_pressed] *)
Definition sys_key_pressed (received : list Z) : Z := if bool_decide (received = []) then 0 else 1.

(** ** The queue is first in, first out *)

Section fifo.
Context {D E : Type} `{InputLaws D E} (condvar : nat).
Abbreviation queue := (queue_state D E).

Lemma drain_run fuel : forall count (s : queue),
  (length (arrived (raw s)) < fuel)%nat ->
  exists d, drain fuel count s =
      Ok (count + Z.of_nat (length (arrived (raw s))), MkQueue d (read_buffer s ++ arrived (raw s)) (sched s)) /\
    arrived d = [].
Proof.
  induction fuel as [|fuel IH]; intros count s Hf; [lia|]. cbn [drain].
  destruct (next_spec (raw s)) as (d & Hn & Hd). rewrite Hn. cbn [res_bind].
  destruct (arrived (raw s)) as [|e l] eqn:El; cbn [head tail] in *.
  - exists d. rewrite app_nil_r. cbn. by rewrite Z.add_0_r.
  - cbn [length] in Hf |- *. destruct (IH (count + 1) (MkQueue d (read_buffer s ++ [e]) (sched s))) as (d' & Hr & Hd').
    { cbn. rewrite Hd. lia. }
    cbn [raw read_buffer sched] in Hr. rewrite Hd in Hr. exists d'. rewrite Hr, <- app_assoc. split; [|done].
    do 2 f_equal. lia.
Qed.

(** The interrupt handler moves all that has arrived behind the queue and
    signals the condition variable when that is not nothing. *)
Lemma handle_irq_run fuel (s : queue) c :
  condvars (sched s) !! condvar = Some c -> (length (arrived (raw s)) < fuel)%nat ->
  exists d k, handle_irq condvar fuel s = Ok (tt, MkQueue d (read_buffer s ++ arrived (raw s)) k) /\ arrived d = [] /\
    (if bool_decide (arrived (raw s) = []) then k = sched s else condvar_signal condvar (sched s) = Ok (tt, k)).
Proof.
  intros Hc Hf. destruct (drain_run fuel 0 s Hf) as (d & Hr & Hd). unfold handle_irq.
  rewrite (st_bind_Ok _ _ _ _ _ Hr), Z.add_0_l.
  destruct (bool_decide_reflect (arrived (raw s) = [])) as [E0|Hne].
  - rewrite E0. cbn. exists d, (sched s). by rewrite app_nil_r.
  - rewrite (proj2 (Z.ltb_lt _ _)); [|destruct (arrived (raw s)); [done|cbn; lia]].
    assert (exists k, condvar_signal condvar (sched s) = Ok (tt, k)) as [k Hk].
    { unfold condvar_signal. rewrite bind_get, bind_option, Hc. destruct (cond_queue c); by eexists. }
    exists d, k. split_and!; [|done|done]. unfold on_sched. cbn [sched]. by rewrite Hk.
Qed.

Lemma signal_run k c t q :
  condvars k !! condvar = Some c -> cond_queue c = t :: q ->
  condvar_signal condvar k =
    Ok (tt, Scheduler.set_ready (ready_queue k ++ [t]) (set_status t Ready (set_condvar condvar (MkCond q) k))).
Proof. intros Hc Hq. unfold condvar_signal. rewrite bind_get, bind_option, Hc, Hq. done. Qed.

(** The items received so far and those delivered, with a run of the device:
    items arrive, interrupts are handled, the running task reads, and the rest
    of the kernel runs without touching the condition variable. *)
Record history := MkHistory { received : list E; delivered : list E; state : queue }.

Inductive input_step : history -> history -> Prop :=
  | Arrive r v s d es :
      arrived d = arrived (raw s) ++ es ->
      input_step (MkHistory r v s) (MkHistory (r ++ es) v (MkQueue d (read_buffer s) (sched s)))
  | Irq r v s s' fuel :
      (length (arrived (raw s)) < fuel)%nat -> handle_irq condvar fuel s = Ok (tt, s') ->
      input_step (MkHistory r v s) (MkHistory r v s')
  | Read r v s s' e :
      read_turn condvar s = Ok (Some e, s') -> input_step (MkHistory r v s) (MkHistory r (v ++ [e]) s')
  | Block r v s s' :
      read_turn condvar s = Ok (None, s') -> input_step (MkHistory r v s) (MkHistory r v s')
  | Other r v s k :
      condvars k !! condvar = condvars (sched s) !! condvar ->
      input_step (MkHistory r v s) (MkHistory r v (MkQueue (raw s) (read_buffer s) k)).

Definition input_inv (h : history) : Prop :=
  is_Some (condvars (sched (state h)) !! condvar) /\
  received h = delivered h ++ read_buffer (state h) ++ arrived (raw (state h)).

(** What a waiting turn does. *)
Lemma block_run (s : queue) s' :
  read_turn condvar s = Ok (None, s') -> read_buffer s = [] /\ raw s' = raw s /\ read_buffer s' = [] /\
    exists c t, condvars (sched s) !! condvar = Some c /\ processor (sched s) = Some t /\
      condvars (sched s') !! condvar = Some (MkCond (cond_queue c ++ [t])).
Proof.
  unfold read_turn. destruct (read_buffer s) as [|e l] eqn:Eb; [|done]. intros Hr.
  apply st_bind_inv in Hr as ([] & s1 & Hw & Hr). inv_st. unfold on_sched in Hw.
  destruct (condvar_wait_no_sched condvar (sched s)) as [[[] k]|] eqn:Ek; [|done]. cbn in Hw. simplify_eq. cbn.
  split_and!; try done. unfold condvar_wait_no_sched in Ek. rewrite bind_get, bind_option in Ek.
  destruct (condvars (sched s) !! condvar) as [c|] eqn:Hc; [|done]. exists c.
  unfold current_tcb, st_bind at 1 in Ek. cbn [res_bind] in Ek. rewrite bind_option in Ek.
  destruct (processor (sched s)) as [t|] eqn:Hp; [|done]. exists t. split_and!; try done.
  rewrite bind_modify in Ek. unfold block_current, take_current_tcb in Ek. unfold st_bind at 1 in Ek. cbn in Ek.
  rewrite Hp in Ek. cbn in Ek. unfold modify in Ek. simplify_eq. cbn. rewrite list_lookup_insert_eq; [done|]. by eapply lookup_lt_Some.
Qed.

Lemma input_step_inv h h' : input_inv h -> input_step h h' -> input_inv h'.
Proof.
  unfold input_inv. intros [[c Hc] HI] Hs. destruct Hs as [r v s d es Hd|r v s s' fuel Hf Hr|r v s s' e Hr|r v s s' Hr|r v s k Hk];
    cbn [received delivered state] in *.
  - split; [by eexists|]. cbn. rewrite HI, Hd. by rewrite !app_assoc.
  - destruct (handle_irq_run fuel s c Hc Hf) as (d & k & Hr' & Hd & Hk). rewrite Hr in Hr'. simplify_eq. cbn.
    rewrite Hd, app_nil_r. split; [|done]. case_bool_decide; [subst k; by eexists|].
    destruct (cond_queue c) as [|t q] eqn:Eq.
    + unfold condvar_signal in Hk. rewrite bind_get, bind_option, Hc, Eq in Hk. injection Hk as <-. by eexists.
    + rewrite (signal_run _ _ _ _ Hc Eq) in Hk. simplify_eq. cbn.
      rewrite list_lookup_insert_eq; [by eexists|]. by eapply lookup_lt_Some.
  - unfold read_turn in Hr. destruct (read_buffer s) as [|e' l] eqn:Eb.
    + apply st_bind_inv in Hr as (u & s1 & _ & Hr). inv_st.
    + simplify_eq. cbn. split; [by eexists|]. by rewrite <- app_assoc.
  - destruct (block_run s s' Hr) as (Eb & Er & Eb' & c' & t & _ & _ & Hc'). rewrite Er, Eb', HI, Eb.
    split; [by eexists|done].
  - cbn. rewrite Hk. split; [by eexists|done].
Qed.

(** A device just made. *)
Definition device_new (s : queue) : Prop :=
  arrived (raw s) = [] /\ read_buffer s = [] /\ condvars (sched s) !! condvar = Some (MkCond []).

Lemma device_new_inv s : device_new s -> input_inv (MkHistory [] [] s).
Proof. intros (Ha & Hb & Hc). split; [by eexists|]. cbn. by rewrite Ha, Hb. Qed.

(** In every run, what readers got, the queue and what the device still
    holds are together the items received, in order: none is lost, none is
    read twice, none overtakes another. *)
Theorem input_fifo s0 h :
  device_new s0 -> rtc input_step (MkHistory [] [] s0) h ->
  received h = delivered h ++ read_buffer (state h) ++ arrived (raw (state h)).
Proof.
  intros H0'%device_new_inv Hs. revert H0'.
  induction Hs as [x|x y z Hxy _ IH]; intros HI; [by apply HI|]. apply IH. by eapply input_step_inv.
Qed.
End fifo.

(** ** Wake-ups *)

Section wakeup.
Context {D E : Type} `{InputLaws D E} (condvar : nat).

Definition waiters (h : history (D := D) (E := E)) : list Z :=
  match condvars (sched (state h)) !! condvar with Some c => cond_queue c | None => [] end.

(** A step after which no task but [t] waits for the device. *)
Definition solo_step (t : Z) (h h' : history) : Prop :=
  input_step condvar h h' /\ k_inv (sched (state h')) /\ Forall (eq t) (waiters h').

Lemma waiters_NoDup h : k_inv (sched (state h)) -> NoDup (waiters h).
Proof.
  intros [Hn _]. unfold waiters. destruct (condvars (sched (state h)) !! condvar) as [c|] eqn:Hc; [|constructor].
  destruct (set_condvar_waiting _ _ _ c Hc) as (R & HR & _).
  unfold located in Hn. rewrite HR, !fmap_app, <- !list_fmap_compose in Hn.
  apply NoDup_app in Hn as (_ & _ & Hn). apply NoDup_app in Hn as (_ & _ & Hn).
  apply NoDup_app in Hn as (Hn & _). by rewrite list_fmap_id in Hn.
Qed.

Lemma alone (t : Z) l : Forall (eq t) l -> NoDup l -> l = [] \/ l = [t].
Proof.
  intros Hf Hn. destruct l as [|a [|b l]]; [by left|right; by inversion Hf; subst|exfalso].
  inversion Hf as [|? ? ? Hf']; inversion Hf'; subst. apply NoDup_cons in Hn as [Hn _]. apply Hn. by left.
Qed.

Definition solo_inv (t : Z) (h : history) : Prop :=
  waiters h = [] \/ waiters h = [t] /\ read_buffer (state h) = [].

(** An interrupt wakes the only waiter as soon as it brings an item. *)
Lemma irq_solo t r v s s' fuel :
  is_Some (condvars (sched s) !! condvar) -> (length (arrived (raw s)) < fuel)%nat ->
  handle_irq condvar fuel s = Ok (tt, s') -> solo_inv t (MkHistory r v s) -> solo_inv t (MkHistory r v s').
Proof.
  intros [c Hc] Hf Hr HI. destruct (handle_irq_run condvar fuel s c Hc Hf) as (d & k & Hr' & Hd & Hk).
  rewrite Hr in Hr'. simplify_eq. unfold solo_inv, waiters in *. cbn [state sched read_buffer] in *. rewrite Hc in HI.
  case_bool_decide as Ha; [subst k; by rewrite Hc, Ha, app_nil_r|left].
  destruct (cond_queue c) as [|u q] eqn:Eq.
  - unfold condvar_signal in Hk. rewrite bind_get, bind_option, Hc, Eq in Hk. injection Hk as <-. by rewrite Hc.
  - rewrite (signal_run _ _ _ _ _ Hc Eq) in Hk. simplify_eq. cbn.
    rewrite list_lookup_insert_eq by (by eapply lookup_lt_Some). cbn. destruct HI as [?|[? _]]; by simplify_eq.
Qed.

Lemma solo_step_inv t h h' : input_inv condvar h -> solo_inv t h -> solo_step t h h' -> solo_inv t h'.
Proof.
  intros [Hc _] HI (Hs & Hk & Hf). pose proof (alone t _ Hf (waiters_NoDup _ Hk)) as Ha.
  destruct Hs as [r v s d es Hd|r v s s' fuel Hfuel Hr|r v s s' e Hr|r v s s' Hr|r v s k Hk'].
  - exact HI.
  - by eapply irq_solo.
  - unfold read_turn in Hr. destruct (read_buffer s) as [|e' l] eqn:Eb.
    + apply st_bind_inv in Hr as (u & s1 & _ & Hr). inv_st.
    + simplify_eq. destruct HI as [HI|[_ HI]]; [by left|]. cbn in HI. congruence.
  - destruct (block_run condvar s s' Hr) as (_ & _ & Hb & _). destruct Ha as [Ha|Ha]; [by left|by right].
  - unfold solo_inv, waiters in *. cbn in *. by rewrite Hk'.
Qed.

(** A device with a single reader never leaves it asleep with input in
    the queue: in every run in which no other task waits for the device, if
    the reader waits then the queue is empty. *)
Theorem single_reader_woken t s0 h :
  device_new condvar s0 -> rtc (solo_step t) (MkHistory [] [] s0) h ->
  waiters h <> [] -> read_buffer (state h) = [].
Proof.
  intros Hn Hs. pose proof (device_new_inv condvar s0 Hn) as HI.
  assert (solo_inv t (MkHistory [] [] s0)) as HS.
  { left. unfold waiters. cbn. destruct Hn as (_ & _ & Hc). by rewrite Hc. }
  revert HI HS. induction Hs as [x|x y z Hxy _ IH]; intros HI HS; [by destruct HS as [|[_ ?]]|].
  apply IH; [|by eapply solo_step_inv]. eapply input_step_inv; [done|apply Hxy].
Qed.
End wakeup.

(** ** The serial line as a source of input *)

(** What the driver relies on: reading the line status tells whether a byte
    is waiting (bit 0) and whether the transmitter is free (bit 5), which it
    is after [busy] more readings; the data register yields the oldest byte
    waiting and, when the transmitter is free, sends what is written to it. *)
Class UartLaws (D : Type) `{Mmio D} (base : Z) := {
  rx : D -> list Z;
  tx : D -> list Z;
  busy : D -> nat;
  lsr_spec d : exists v d', mmio_read 1 (base + 5) d = Ok (v, d') /\
    rx d' = rx d /\ tx d' = tx d /\ busy d' = Nat.pred (busy d) /\
    Z.testbit v 0 = bool_decide (rx d <> []) /\ Z.testbit v 5 = bool_decide (busy d = 0%nat);
  rbr_spec d b l : rx d = b :: l -> exists d', mmio_read 1 base d = Ok (b, d') /\ rx d' = l /\ tx d' = tx d;
  thr_spec d b : busy d = 0%nat -> exists d', mmio_write 1 base b d = Ok (tt, d') /\ rx d' = rx d /\ tx d' = tx d ++ [b];
}.

(** The driver's registers at an address. *)
Definition uart_at (base : Z) : NS16550aRaw :=
  MkRaw base base (base + 1) (base + 2) (base + 3) (base + 4) (base + 5).

Lemma NS16550aRaw_new_ok base : 0 < base < 2 ^ 64 - 7 -> NS16550aRaw_new base = Ok (uart_at base).
Proof.
  intros Hb. unfold NS16550aRaw_new, non_null, uart_at.
  rewrite !w64_id by (unfold is_u64; lia).
  repeat (rewrite (proj2 (Z.eqb_neq _ _)) by lia; cbn [res_bind]). done.
Qed.

Lemma contains_bit v i : 0 <= i -> lsr_contains v (Z.shiftl 1 i) = Z.testbit v i.
Proof.
  intros Hi. unfold lsr_contains. rewrite Z.shiftl_1_l.
  destruct (Z.testbit v i) eqn:Et; [apply Z.eqb_eq|apply Z.eqb_neq; intros E].
  - apply Z.bits_inj'. intros n Hn. rewrite Z.land_spec, Z.pow2_bits_eqb by done.
    destruct (Z.eqb_spec i n) as [<-|]; by rewrite ?Et, ?andb_false_r.
  - apply (f_equal (fun x => Z.testbit x i)) in E. rewrite Z.land_spec, Z.pow2_bits_true, Et in E by done. done.
Qed.

Section serial.
Context {D : Type} {M : Mmio D} (base : Z) {L : UartLaws D base}.

#[export] Instance uart_source : InputSource D Z := raw_read (uart_at base).

Lemma uart_next d : exists d', raw_read (uart_at base) d = Ok (head (rx d), d') /\ rx d' = tail (rx d) /\ tx d' = tx d.
Proof.
  destruct (lsr_spec d) as (v & d1 & Hr & Hrx & Htx & _ & H0' & _). unfold raw_read, uart_at. cbn [lsr rbr].
  rewrite (st_bind_Ok _ _ _ _ _ Hr). unfold DATA_AVAILABLE. rewrite contains_bit, H0' by done.
  destruct (rx d) as [|b l] eqn:Ed.
  - exists d1. by rewrite Hrx.
  - cbn. destruct (rbr_spec d1 b l) as (d2 & Hb & Hl & Ht); [by rewrite Hrx|]. exists d2.
    rewrite (st_bind_Ok _ _ _ _ _ Hb). by rewrite Hl, Ht.
Qed.

#[export, refine] Instance uart_laws : InputLaws D Z := {| arrived := rx |}.
Proof. intros d. destruct (uart_next d) as (d' & H & H' & _). by exists d'. Defined.

(** Writing a byte returns once the transmitter is free, after sending
    exactly that byte, and without disturbing what has arrived. *)
Theorem raw_write_sends fuel d ch :
  (busy d < fuel)%nat ->
  exists d', raw_write (uart_at base) fuel ch d = Ok (tt, d') /\ tx d' = tx d ++ [ch] /\ rx d' = rx d.
Proof.
  revert d. induction fuel as [|fuel IH]; intros d Hf; [lia|]. cbn [raw_write].
  destruct (lsr_spec d) as (v & d1 & Hr & Hrx & Htx & Hb & _ & H5). cbn [uart_at lsr thr].
  rewrite (st_bind_Ok _ _ _ _ _ Hr). unfold THR_EMPTY. rewrite contains_bit, H5 by done.
  case_bool_decide as E0.
  - destruct (thr_spec d1 ch) as (d2 & Hw & Hr2 & Ht2); [by rewrite Hb, E0|]. exists d2. by rewrite Hr2, Ht2, Htx.
  - destruct (IH d1) as (d2 & Hw & Ht2 & Hr2); [lia|]. exists d2. by rewrite Hw, Hr2, Ht2, Htx.
Qed.
End serial.

(** The interrupt handler and a turn of the reader of the serial line. *)
Definition NS16550a_handle_irq {D} `{Mmio D} (base : Z) (condvar fuel : nat) : st (queue_state D Z) () :=
  handle_irq (H := uart_source base) condvar fuel.
Definition NS16550a_read {D} (condvar : nat) : st (queue_state D Z) (option Z) := read_turn condvar.

(** ** Events *)

(** [pending] is what the device has to report, oldest first. *)
Class EventLaws (D : Type) `{EventDevice D} := {
  pending : D -> list InputEvent;
  pop_spec d : exists d', pop_pending_event d = Ok (head (pending d), d') /\ pending d' = tail (pending d);
}.

#[export, refine] Instance event_laws {D} `{EventLaws D} : InputLaws D Z := {| arrived d := pack <$> pending d |}.
Proof.
  intros d. destruct (pop_spec d) as (d' & Hp & Ht). exists d'. unfold next_input, event_source.
  rewrite (st_bind_Ok _ _ _ _ _ Hp), Ht. by destruct (pending d).
Defined.

Definition event_ok (e : InputEvent) : Prop :=
  0 <= event_type e < 2 ^ 16 /\ 0 <= code e < 2 ^ 16 /\ 0 <= value e < 2 ^ 32.

Lemma pack_sum e : event_ok e -> pack e = event_type e * 2 ^ 48 + code e * 2 ^ 32 + value e.
Proof.
  intros (Ht & Hc & Hv). unfold pack. rewrite !Z.shiftl_mul_pow2 by lia. rewrite !w64_id by (unfold is_u64; lia).
  assert (forall a b n, 0 <= n -> 0 <= b < 2 ^ n -> Z.lor (a * 2 ^ n) b = a * 2 ^ n + b) as Hor.
  { intros a b n Hn Hb. rewrite <- Z.lxor_lor, <- Z.add_nocarry_lxor; try done;
      apply Z.bits_inj'; intros i Hi; rewrite Z.land_spec, Z.bits_0;
      (destruct (decide (i < n)); [by rewrite Z.mul_pow2_bits_low|];
       rewrite (Z.testbit_eqb b) by done; rewrite (Z.div_small b) by (split; [lia|];
         apply (Z.lt_le_trans _ (2 ^ n)); [lia|apply Z.pow_le_mono_r; lia]); by rewrite andb_false_r). }
  replace (event_type e * 2 ^ 48) with ((event_type e * 2 ^ 16) * 2 ^ 32) by lia.
  replace (Z.lor (event_type e * 2 ^ 16 * 2 ^ 32) (code e * 2 ^ 32)) with ((event_type e * 2 ^ 16 + code e) * 2 ^ 32).
  - rewrite Hor by lia. lia.
  - rewrite <- Hor by lia. rewrite <- !Z.shiftl_mul_pow2 by lia. by rewrite Z.shiftl_lor.
Qed.

Lemma event_get_pack e : event_ok e ->
  event_get (i64 (pack e)) = if bool_decide (e = MkEvent 0 0 0) then None else Some e.
Proof.
  intros He. pose proof He as (Ht & Hc & Hv). pose proof (pack_sum e He) as Hp.
  unfold event_get. assert (w64 (i64 (pack e)) = pack e) as Hw.
  { unfold w64, i64. rewrite Zminus_mod_idemp_l, Z.add_simpl_r. apply Z.mod_small. lia. }
  destruct e as [t c v]. cbn [event_type code value] in *.
  case_bool_decide as E0; [simplify_eq; by rewrite Hp|].
  rewrite (proj2 (Z.eqb_neq _ _)).
  - f_equal. rewrite Hw, Hp. unfold InputEvent_from, w32. rewrite !Z.shiftr_div_pow2 by lia.
    assert ((t * 2 ^ 48 + c * 2 ^ 32 + v) / 2 ^ 32 = t * 2 ^ 16 + c) as ->
      by (symmetry; apply (Z.div_unique _ _ _ v); lia).
    f_equal; [|rewrite Z.add_comm, Z.mod_add by lia; by apply Z.mod_small|].
    2:{ replace (t * 2 ^ 48 + c * 2 ^ 32 + v) with (v + (t * 2 ^ 16 + c) * 2 ^ 32) by lia.
        rewrite Z.mod_add by lia. by apply Z.mod_small. }
    rewrite Z.div_add_l, (Z.div_small c), Z.add_0_r by lia. by apply Z.mod_small.
  - intros E1. rewrite E1 in Hw. change (w64 0) with 0 in Hw. rewrite Hp in Hw. apply E0. f_equal; lia.
Qed.

(** A program that asks for events [n] times, and the queues that are left. *)
Fixpoint poll (n : nat) (keyboard mouse : list Z) : list (option InputEvent) * (list Z * list Z) :=
  match n with
  | O => ([], (keyboard, mouse))
  | S n =>
      let '(v, (keyboard, mouse)) := sys_event_get keyboard mouse in
      let '(es, q) := poll n keyboard mouse in
      (event_get v :: es, q)
  end.

(** The events a keyboard reports reach the program that polls for them:
    the interrupt handler packs and queues them, and polling as many times
    yields them in order with the fields the device reported; the exception is
    an event whose fields are all zero, which the program takes for no event. *)
Theorem event_roundtrip {D} `{EventLaws D} (s : queue_state D Z) c condvar fuel mouse :
  read_buffer s = [] -> condvars (sched s) !! condvar = Some c -> Forall event_ok (pending (raw s)) ->
  (length (pending (raw s)) < fuel)%nat ->
  exists s', handle_irq condvar fuel s = Ok (tt, s') /\
    poll (length (pending (raw s))) (read_buffer s') mouse =
      ((fun e => if bool_decide (e = MkEvent 0 0 0) then None else Some e) <$> pending (raw s), ([], mouse)).
Proof.
  intros Hb Hc Hok Hf.
  destruct (handle_irq_run condvar fuel s c Hc) as (d & k & Hr & _); [cbn; by rewrite length_fmap|].
  eexists. split; [exact Hr|]. cbn [read_buffer]. rewrite Hb. cbn [app arrived event_laws]. clear Hr Hf Hb.
  induction Hok as [|e es He _ IH]; [done|]. rewrite !fmap_cons. cbn [length poll sys_event_get].
  by rewrite IH, (event_get_pack e He).
Qed.

(** ** Concrete runs *)

(** A serial line in memory. *)
Record line := MkLine { line_rx : list Z; line_tx : list Z; line_busy : nat }.

#[global] Instance line_mmio : Mmio line := {
  mmio_read n a d :=
    if a =? VIRT_UART + 5 then
      Ok ((if bool_decide (line_rx d = []) then 0 else 1) + (if decide (line_busy d = 0%nat) then 32 else 0),
        MkLine (line_rx d) (line_tx d) (Nat.pred (line_busy d)))
    else Ok (default 0 (head (line_rx d)), MkLine (tail (line_rx d)) (line_tx d) (line_busy d));
  mmio_write n a v d := Ok (tt, MkLine (line_rx d) (line_tx d ++ [v]) 3);
}.

#[global, refine] Instance line_laws : UartLaws line VIRT_UART :=
  {| rx := line_rx; tx := line_tx; busy := line_busy |}.
Proof.
  - intros [r t b]. do 2 eexists. split; [done|]. cbn [line_rx line_tx line_busy]. split_and!; [done..| |].
    + by destruct r, b.
    + by destruct r, b.
  - intros [r t b] x l [= ->]. by eexists.
  - intros [r t b] x Hb. by eexists.
Defined.

(** A keyboard in memory. *)
#[global] Instance keys_device : EventDevice (list InputEvent) := fun l => Ok (head l, tail l).
#[global, refine] Instance keys_laws : EventLaws (list InputEvent) := {| pending := id |}.
Proof. intros d. by exists (tail d). Defined.

Definition demo_keys : queue_state (list InputEvent) Z :=
  MkQueue [MkEvent 1 30 1; MkEvent 0 0 0] [] (MkKernel ∅ [] None [] [] [MkCond []] []).

Lemma event_roundtrip_witness :
  exists s', handle_irq 0 9 demo_keys = Ok (tt, s') /\
    poll 2 (read_buffer s') [5] = ([Some (MkEvent 1 30 1); None], ([], [5])).
Proof.
  assert (Forall event_ok (pending (raw demo_keys))) as He by (repeat constructor; unfold event_ok; cbn; lia).
  assert (condvars (sched demo_keys) !! 0%nat = Some (MkCond [])) as Hc by done.
  assert (length (pending (raw demo_keys)) < 9)%nat as Hf by (cbn; lia).
  exact (event_roundtrip demo_keys (MkCond []) 0 9 [5] eq_refl Hc He Hf).
Defined.

Lemma raw_write_sends_witness :
  exists d', raw_write (uart_at VIRT_UART) 4 65 (MkLine [7] [66] 3) = Ok (tt, d') /\ tx d' = [66; 65] /\ rx d' = [7].
Proof.
  assert (busy (MkLine [7%Z] [66%Z] 3) < 4)%nat as Hb by (cbn; lia).
  exact (raw_write_sends VIRT_UART 4 (MkLine [7] [66] 3) 65 Hb).
Defined.

(** Two tasks, one running and one ready, and the condition variable of the
    line. *)
Definition two_readers : kernel :=
  MkKernel (<[1 := Running]> (<[2 := Ready]> ∅)) [2] (Some 1) [] [] [MkCond []] [].

Abbreviation turn := (NS16550a_read (D := line) 0).
Abbreviation irq := (NS16550a_handle_irq (D := line) VIRT_UART 0 9).

Definition run_next : st (queue_state line Z) (option Z) := on_sched run_tasks_once.

Definition after {A} (p : st (queue_state line Z) A) (s : queue_state line Z) : queue_state line Z :=
  match p s with Ok (_, s') => s' | Panic _ => s end.

Abbreviation line_history := (history (D := line) (E := Z)).

(** Both tasks find nothing and wait; two bytes arrive; the interrupt wakes
    the first task, which reads one byte. *)
Definition lost0 : queue_state line Z := MkQueue (MkLine [] [] 0) [] two_readers.
Definition lost1 := after turn lost0.
Definition lost2 := after turn (after run_next lost1).
Definition lost3 : queue_state line Z := MkQueue (MkLine [104; 105] [] 0) (read_buffer lost2) (sched lost2).
Definition lost4 := after run_next (after irq lost3).
Definition lost5 := after turn lost4.

Lemma lost_run :
  rtc (input_step (H0 := uart_laws VIRT_UART) 0) (MkHistory [] [] lost0) (MkHistory [104; 105] [104] lost5).
Proof.
  eapply rtc_l. { eapply (Block 0 _ _ lost0 lost1). by vm_compute. }
  eapply rtc_l. { apply (Other 0 [] [] lost1 (sched (after run_next lost1))). by vm_compute. }
  eapply rtc_l. { eapply (Block 0 _ _ _ lost2). by vm_compute. }
  eapply rtc_l. { apply (Arrive 0 [] [] lost2 (MkLine [104; 105] [] 0) [104; 105]). by vm_compute. }
  eapply rtc_l. { eapply (Irq 0 _ _ lost3 (after irq lost3) 9); [vm_compute; lia|by vm_compute]. }
  eapply rtc_l. { apply (Other 0 _ _ (after irq lost3) (sched lost4)). by vm_compute. }
  eapply rtc_l. { eapply (Read 0 _ _ _ lost5 104). by vm_compute. }
  vm_compute. constructor.
Qed.

(** The second reader: an interrupt that brings several bytes signals once,
    so with two readers one can stay blocked while a byte is in the queue and
    no task is ready to run. *)
Theorem lost_wakeup :
  rtc (input_step (H0 := uart_laws VIRT_UART) 0) (MkHistory [] [] lost0) (MkHistory [104; 105] [104] lost5) /\
  read_buffer lost5 = [105] /\ waiters 0 (MkHistory [104; 105] [104] lost5 : line_history) = [2] /\
  task_status (sched lost5) !! 2 = Some Blocked /\ ready_queue (sched lost5) = [].
Proof. split; [exact lost_run|by vm_compute]. Qed.

Lemma input_fifo_witness :
  device_new (H0 := uart_laws VIRT_UART) 0 lost0 /\ [104; 105] = [104] ++ read_buffer lost5 ++ rx (raw lost5).
Proof.
  assert (device_new (H0 := uart_laws VIRT_UART) 0 lost0) as Hn by (by vm_compute). split; [exact Hn|].
  exact (input_fifo (H0 := uart_laws VIRT_UART) 0 lost0 (MkHistory [104; 105] [104] lost5) Hn lost_run).
Defined.

(** The first task alone. *)
Definition solo0 : queue_state line Z :=
  MkQueue (MkLine [] [] 0) [] (MkKernel (<[1 := Running]> ∅) [] (Some 1) [] [] [MkCond []] []).
Definition solo1 := after turn solo0.

Lemma solo_run : rtc (solo_step (H0 := uart_laws VIRT_UART) 0 1) (MkHistory [] [] solo0) (MkHistory [] [] solo1).
Proof.
  apply rtc_once. split_and!.
  - eapply Block. by vm_compute.
  - assert (solo1 = MkQueue (MkLine [] [] 0) [] (MkKernel (<[1 := Blocked]> ∅) [] None [] [] [MkCond [1]] [])) as ->
      by (by vm_compute).
    split; cbn; [repeat constructor; set_solver|]. intros t s.
    destruct (decide (t = 1)) as [->|]; [rewrite lookup_insert_eq|rewrite lookup_insert_ne by done];
      rewrite list_elem_of_singleton; naive_solver.
  - vm_compute. by repeat constructor.
Qed.

Lemma single_reader_woken_witness :
  waiters 0 (MkHistory [] [] solo1 : line_history) = [1] /\ read_buffer solo1 = [].
Proof.
  assert (device_new (H0 := uart_laws VIRT_UART) 0 solo0) as Hn by (by vm_compute).
  assert (waiters 0 (MkHistory [] [] solo1 : line_history) <> []) as Hw by (by vm_compute).
  split; [by vm_compute|].
  exact (single_reader_woken (H0 := uart_laws VIRT_UART) 0 1 solo0 (MkHistory [] [] solo1) Hn solo_run Hw).
Defined.
