(* ===== verification/SyncCalls.v ===== *)
(** * System calls of synchronization

    [kernel/src/syscall/sync.rs]: a process names its mutexes, semaphores and
    condition variables by their places in three lists of its control block.
    The objects themselves are those of [Scheduler.v], named by their index
    there, as an [Arc] names them.  A call that gives up the processor ends
    there; its outcome says what is left to do when the task runs again. *)

From S2P Require Import Prelude Config StateMonad Scheduler SchedulerSpec Files.

(** ** State *)

(** The three lists of [ProcessControlBlockInner]. *)
Record sync_lists := MkLists {
  mutex_list : list (option nat);
  semaphore_list : list (option nat);
  condvar_list : list (option nat);
}.

(** The lists of every process, the process of every task, and the
    scheduler with all objects. *)
Record sync_world := MkSync {
  lists : gmap Z sync_lists;
  process_of : gmap Z Z;
  sched : kernel;
}.

Definition set_lists (p : Z) (l : sync_lists) (w : sync_world) : sync_world :=
  MkSync (<[p := l]> (lists w)) (process_of w) (sched w).
Definition set_sched (k : kernel) (w : sync_world) : sync_world := MkSync (lists w) (process_of w) k.

Definition on_sched {A} (f : st kernel A) : st sync_world A := fun w =>
  let? (a, k) := f (sched w) in Ok (a, set_sched k w).

(** [current_pcb] and its lists *)
Definition current_pcb : st sync_world (Z * sync_lists) := fun w =>
  let? t := unwrap (processor (sched w)) in
  let? p := unwrap (process_of w !! t) in
  let? l := unwrap (lists w !! p) in
  Ok ((p, l), w).

(** What a call does: it returns; the task is blocked and the call returns
    once it runs again; once it runs again, it locks the mutex (the loop of
    [Spin::lock], the end of [Condvar::wait_with_mutex]) and returns. *)
Inductive outcome :=
  | Return (code : Z)
  | ReturnLater (code : Z)
  | LockLater (m : nat).

(** A new object goes into the first empty slot, or behind the list. *)
Definition add_slot (x : nat) (l : list (option nat)) : nat * list (option nat) :=
  match first_none l with
  | Some idx => (idx, <[idx := Some x]> l)
  | None => (length l, l ++ [Some x])
  end.

(** ** Mutexes *)

(** [Mutex::lock] on an object, as a part of a call *)
Definition lock_outcome (m : nat) : st sync_world outcome :=
  let* r := on_sched (mutex_lock m) in
  ret match r with Acquired => Return 0 | Queued => ReturnLater 0 | Yielded => LockLater m end.

(** [sys_mutex_create] *)
Definition sys_mutex_create (blocking : bool) : st sync_world outcome :=
  let* (p, l) := current_pcb in
  let* w := get in
  let m := length (mutexes (sched w)) in
  on_sched (exec (ONewMutex blocking)) ;*
  let '(idx, ml) := add_slot m (mutex_list l) in
  modify (set_lists p (MkLists ml (semaphore_list l) (condvar_list l))) ;*
  ret (Return (Z.of_nat idx)).

(** [sys_mutex_lock] *)
Definition sys_mutex_lock (mutex_id : nat) : st sync_world outcome :=
  let* (p, l) := current_pcb in
  match mutex_list l !! mutex_id with
  | Some (Some m) => lock_outcome m
  | _ => ret (Return (-1))
  end.

(** [sys_mutex_unlock] *)
Definition sys_mutex_unlock (mutex_id : nat) : st sync_world outcome :=
  let* (p, l) := current_pcb in
  match mutex_list l !! mutex_id with
  | Some (Some m) => on_sched (mutex_unlock m) ;* ret (Return 0)
  | _ => ret (Return (-1))
  end.

(** ** Semaphores *)

(** [sys_semaphore_create] *)
Definition sys_semaphore_create (res_count : Z) : st sync_world outcome :=
  let* (p, l) := current_pcb in
  let* w := get in
  let s := length (semaphores (sched w)) in
  on_sched (exec (ONewSemaphore res_count)) ;*
  let '(idx, sl) := add_slot s (semaphore_list l) in
  modify (set_lists p (MkLists (mutex_list l) sl (condvar_list l))) ;*
  ret (Return (Z.of_nat idx)).

(** [sys_semaphore_up] *)
Definition sys_semaphore_up (sem_id : nat) : st sync_world outcome :=
  let* (p, l) := current_pcb in
  match semaphore_list l !! sem_id with
  | Some (Some s) => on_sched (semaphore_up s) ;* ret (Return 0)
  | _ => ret (Return (-1))
  end.

(** [sys_semaphore_down] *)
Definition sys_semaphore_down (sem_id : nat) : st sync_world outcome :=
  let* (p, l) := current_pcb in
  match semaphore_list l !! sem_id with
  | Some (Some s) =>
      let* blocked := on_sched (semaphore_down s) in
      ret (if blocked then ReturnLater 0 else Return 0)
  | _ => ret (Return (-1))
  end.

(** ** Condition variables *)

(** [sys_condvar_create] *)
Definition sys_condvar_create : st sync_world outcome :=
  let* (p, l) := current_pcb in
  let* w := get in
  let c := length (condvars (sched w)) in
  on_sched (exec ONewCondvar) ;*
  let '(idx, cl) := add_slot c (condvar_list l) in
  modify (set_lists p (MkLists (mutex_list l) (semaphore_list l) cl)) ;*
  ret (Return (Z.of_nat idx)).

(** [sys_condvar_signal] *)
Definition sys_condvar_signal (condvar_id : nat) : st sync_world outcome :=
  let* (p, l) := current_pcb in
  match condvar_list l !! condvar_id with
  | Some (Some c) => on_sched (condvar_signal c) ;* ret (Return 0)
  | _ => ret (Return (-1))
  end.

(** [sys_condvar_wait] *)
Definition sys_condvar_wait (condvar_id mutex_id : nat) : st sync_world outcome :=
  let* (p, l) := current_pcb in
  match condvar_list l !! condvar_id with
  | Some (Some c) =>
      match mutex_list l !! mutex_id with
      | Some (Some m) => on_sched (condvar_wait_with_mutex c m) ;* ret (LockLater m)
      | _ => ret (Return (-1))
      end
  | _ => ret (Return (-1))
  end.

(** ** Objects an operation touches *)

Definition target_mutex (o : op) : option nat :=
  match o with OLock i | OUnlock i | OWait _ i => Some i | _ => None end.
Definition target_semaphore (o : op) : option nat :=
  match o with OUp i | ODown i => Some i | _ => None end.
Definition target_condvar (o : op) : option nat :=
  match o with OSignal i | OWait i _ | OWaitIrq i => Some i | _ => None end.

(** No objects are made. *)
Definition makes_none (o : op) : bool :=
  match o with ONewMutex _ | ONewSemaphore _ | ONewCondvar => false | _ => true end.

(** [k'] has the objects of [k], changed at most at the given places. *)
Record touched (tm ts tc : option nat) (k k' : kernel) : Prop := {
  to_mutexes : length (mutexes k') = length (mutexes k) /\
    forall j, tm <> Some j -> mutexes k' !! j = mutexes k !! j;
  to_semaphores : length (semaphores k') = length (semaphores k) /\
    forall j, ts <> Some j -> semaphores k' !! j = semaphores k !! j;
  to_condvars : length (condvars k') = length (condvars k) /\
    forall j, tc <> Some j -> condvars k' !! j = condvars k !! j;
}.

#[export] Instance touched_preorder tm ts tc : PreOrder (touched tm ts tc).
Proof.
  split; [by split|]. intros k1 k2 k3 [[? M1] [? S1] [? C1]] [[? M2] [? S2] [? C2]].
  split; (split; [congruence|]); intros j Hj; [rewrite M2, M1|rewrite S2, S1|rewrite C2, C1]; done.
Qed.

Abbreviation touches tm ts tc := (moves (touched tm ts tc)).

Lemma touches_take tm ts tc : touches tm ts tc take_current_tcb.
Proof. intros k b k' [= <- <-]. by split. Qed.
Lemma touches_current tm ts tc : touches tm ts tc current_tcb.
Proof. intros k b k' [= <- <-]. reflexivity. Qed.

Lemma touched_mutex i m ts tc k : touched (Some i) ts tc k (set_mutex i m k).
Proof.
  split; [|done|done]. split; [apply length_insert|]. intros j Hj. apply list_lookup_insert_ne. congruence.
Qed.
Lemma touched_semaphore i s tm tc k : touched tm (Some i) tc k (set_semaphore i s k).
Proof.
  split; [done| |done]. split; [apply length_insert|]. intros j Hj. apply list_lookup_insert_ne. congruence.
Qed.
Lemma touched_condvar i c tm ts k : touched tm ts (Some i) k (set_condvar i c k).
Proof.
  split; [done|done|]. split; [apply length_insert|]. intros j Hj. apply list_lookup_insert_ne. congruence.
Qed.
Lemma touched_other tm ts tc k st rq pr ti :
  touched tm ts tc k (MkKernel st rq pr (mutexes k) (semaphores k) (condvars k) ti).
Proof. by split. Qed.

#[local] Hint Resolve touches_take touches_current touched_mutex touched_semaphore touched_condvar : moves.
#[local] Hint Extern 1 (touched _ _ _ ?k (set_status _ _ ?k)) => apply touched_other : moves.
#[local] Hint Extern 1 (touched _ _ _ ?k (set_ready _ ?k)) => apply touched_other : moves.
#[local] Hint Extern 1 (touched _ _ _ ?k (set_processor _ ?k)) => apply touched_other : moves.
#[local] Hint Extern 1 (touched _ _ _ ?k (set_timers _ ?k)) => apply touched_other : moves.

#[local] Hint Extern 1 (moves (touched _ _ _) (modify _)) => apply moves_modify; intros ?; auto with moves : moves.

Lemma wakeup_touches tm ts tc t : touches tm ts tc (wakeup t).
Proof. unfold wakeup, add. follow. Qed.
Lemma block_touches tm ts tc : touches tm ts tc block_current.
Proof. unfold block_current. follow. Qed.
Lemma suspend_touches tm ts tc : touches tm ts tc suspend_current.
Proof. unfold suspend_current, add. follow. Qed.
#[local] Hint Resolve wakeup_touches block_touches suspend_touches : moves.

Lemma check_timer_touches now fuel : touches None None None (check_timer_loop fuel now).
Proof.
  induction fuel as [|fuel IH]; [by intros k a k' ?|]. cbn [check_timer_loop].
  apply moves_bind; [apply moves_get|]. intros k. follow.
Qed.

(** An operation on objects touches the ones it names. *)
Lemma exec_touches o :
  makes_none o = true -> touches (target_mutex o) (target_semaphore o) (target_condvar o) (exec o).
Proof.
  destruct o; try done; intros _; cbn [exec target_mutex target_semaphore target_condvar];
    unfold void, mutex_lock, mutex_unlock, semaphore_up, semaphore_down, condvar_signal, condvar_wait_with_mutex,
      condvar_wait_no_sched, sys_sleep, add_timer, spawn, add, exit_current, run_tasks_once; follow.
  - intros k o k' H. unfold fetch in H. destruct (ready_queue k); simplify_eq; reflexivity || by split.
  - unfold mutex_unlock. follow.
  - intros k u k' H. by apply (check_timer_touches now) in H.
  - apply moves_modify. intros k. apply touched_other.
Qed.

(** ** Runs *)

(** What happens in the kernel: a system call of the current task, the end of
    a call that had to wait, a step of the scheduler, and new tasks and
    processes. *)
Inductive call :=
  | CMutexCreate (blocking : bool) | CMutexLock (i : nat) | CMutexUnlock (i : nat)
  | CSemaphoreCreate (n : Z) | CSemaphoreUp (i : nat) | CSemaphoreDown (i : nat)
  | CCondvarCreate | CCondvarSignal (i : nat) | CCondvarWait (i m : nat).

Inductive event :=
  | ECall (c : call)
  | EResume (m : nat)
  | ESched (o : op)
  | EThread (t p : Z)
  | EProcess (t p : Z).

Definition run_call (c : call) : st sync_world outcome :=
  match c with
  | CMutexCreate b => sys_mutex_create b
  | CMutexLock i => sys_mutex_lock i
  | CMutexUnlock i => sys_mutex_unlock i
  | CSemaphoreCreate n => sys_semaphore_create n
  | CSemaphoreUp i => sys_semaphore_up i
  | CSemaphoreDown i => sys_semaphore_down i
  | CCondvarCreate => sys_condvar_create
  | CCondvarSignal i => sys_condvar_signal i
  | CCondvarWait i m => sys_condvar_wait i m
  end.

(** The steps of the scheduler that are no calls on objects. *)
Definition sched_op (o : op) : bool :=
  match o with ORun | OYield | OSleep _ _ | OTimer _ | OExit => true | _ => false end.

Definition add_task (t p : Z) : st sync_world () :=
  modify (fun w => MkSync (lists w) (<[t := p]> (process_of w)) (sched w)).

Definition exec_event (e : event) : st sync_world () :=
  match e with
  | ECall c => let* _ := run_call c in ret tt
  | EResume m => let* _ := lock_outcome m in ret tt
  | ESched o => check (sched_op o) ;* on_sched (exec o)
  | EThread t p => on_sched (exec (OSpawn t)) ;* add_task t p
  | EProcess t p =>
      let* w := get in
      check (negb (bool_decide (is_Some (lists w !! p)))) ;*
      on_sched (exec (OSpawn t)) ;*
      modify (set_lists p (MkLists [] [] [])) ;*
      add_task t p
  end.

Definition sync_boot : sync_world := MkSync ∅ ∅ boot.

(** *** Names *)

(** Slot [i] of process [p] names the object [m]. *)
Definition names (sel : sync_lists -> list (option nat)) (w : sync_world) (p : Z) (i m : nat) : Prop :=
  exists l, lists w !! p = Some l /\ sel l !! i = Some (Some m).

(** Every name is one of the [n] objects, and no object has two names. *)
Record names_ok (sel : sync_lists -> list (option nat)) (n : nat) (w : sync_world) : Prop := {
  no_bound : forall p i m, names sel w p i m -> (m < n)%nat;
  no_once : forall p p' i i' m, names sel w p i m -> names sel w p' i' m -> p = p' /\ i = i';
}.

Record sync_inv (w : sync_world) : Prop := {
  si_mutexes : names_ok mutex_list (length (mutexes (sched w))) w;
  si_semaphores : names_ok semaphore_list (length (semaphores (sched w))) w;
  si_condvars : names_ok condvar_list (length (condvars (sched w))) w;
}.

Lemma names_ok_same sel n n' w w' :
  lists w' = lists w -> (n <= n')%nat -> names_ok sel n w -> names_ok sel n' w'.
Proof.
  intros El Hn [Hb Ho]. assert (forall p i m, names sel w' p i m -> names sel w p i m) as Hsub.
  { unfold names. by rewrite El. }
  split; [|by eauto]. intros p i m H%Hsub%Hb. lia.
Qed.

Lemma add_slot_spec x l :
  let '(idx, l') := add_slot x l in
  ~ (exists y, l !! idx = Some (Some y)) /\ (forall j, (j < idx)%nat -> exists y, l !! j = Some (Some y)) /\
  forall j y, l' !! j = Some (Some y) <-> (j = idx /\ y = x) \/ (l !! j = Some (Some y)).
Proof.
  unfold add_slot. destruct (first_none l) as [i|] eqn:E.
  - destruct (first_none_Some l i E) as [Hi Hlt]. pose proof (lookup_lt_Some _ _ _ Hi) as Hlen. split_and!.
    + intros [y Hy]. congruence.
    + intros j Hj. destruct (Hlt j Hj) as [y Hy]. unfold opened in Hy. destruct (l !! j) as [[]|]; naive_solver.
    + intros j y. destruct (decide (j = i)) as [->|Hne].
      * rewrite list_lookup_insert_eq by done. rewrite Hi. naive_solver.
      * rewrite list_lookup_insert_ne by done. naive_solver.
  - pose proof (first_none_None l E) as Hall. split_and!.
    + intros [y Hy%lookup_lt_Some]. lia.
    + intros j Hj. destruct (Hall j Hj) as [y Hy]. unfold opened in Hy. destruct (l !! j) as [[]|]; naive_solver.
    + intros j y. destruct (decide (j < length l)%nat).
      * rewrite lookup_app_l by done. naive_solver lia.
      * rewrite lookup_app_r, (lookup_ge_None_2 l) by lia.
        destruct (j - length l)%nat as [|n0] eqn:En; cbn; [assert (j = length l) by lia|]; naive_solver lia.
Qed.

(** ** What a call does *)

(** The operation of the scheduler and the slots behind a call. *)
Definition call_op (l : sync_lists) (c : call) : option op :=
  match c with
  | CMutexCreate b => Some (ONewMutex b)
  | CMutexLock i => OLock <$> mjoin (mutex_list l !! i)
  | CMutexUnlock i => OUnlock <$> mjoin (mutex_list l !! i)
  | CSemaphoreCreate n => Some (ONewSemaphore n)
  | CSemaphoreUp i => OUp <$> mjoin (semaphore_list l !! i)
  | CSemaphoreDown i => ODown <$> mjoin (semaphore_list l !! i)
  | CCondvarCreate => Some ONewCondvar
  | CCondvarSignal i => OSignal <$> mjoin (condvar_list l !! i)
  | CCondvarWait i m =>
      c ← mjoin (condvar_list l !! i); OWait c <$> mjoin (mutex_list l !! m)
  end.

(** The lists after a call, with a slot for the object it makes. *)
Definition call_lists (k : kernel) (l : sync_lists) (c : call) : sync_lists :=
  match c with
  | CMutexCreate _ => MkLists (add_slot (length (mutexes k)) (mutex_list l)).2 (semaphore_list l) (condvar_list l)
  | CSemaphoreCreate _ =>
      MkLists (mutex_list l) (add_slot (length (semaphores k)) (semaphore_list l)).2 (condvar_list l)
  | CCondvarCreate =>
      MkLists (mutex_list l) (semaphore_list l) (add_slot (length (condvars k)) (condvar_list l)).2
  | _ => l
  end.

Lemma current_pcb_Ok w p l w' :
  current_pcb w = Ok ((p, l), w') ->
  w' = w /\ lists w !! p = Some l /\ exists t, processor (sched w) = Some t /\ process_of w !! t = Some p.
Proof. unfold current_pcb. intros H. inv_res. split_and!; eauto. Qed.

Lemma on_sched_Ok {A} (f : st kernel A) w a w' :
  on_sched f w = Ok (a, w') <-> exists k, f (sched w) = Ok (a, k) /\ w' = set_sched k w.
Proof.
  unfold on_sched. destruct (f (sched w)) as [[a0 k]|]; cbn [res_bind]; naive_solver.
Qed.

Lemma void_Ok {A} (p : st kernel A) k a k' : p k = Ok (a, k') -> void p k = Ok (tt, k').
Proof. intros H. unfold void. by rewrite (st_bind_Ok _ _ _ _ _ H). Qed.

Lemma set_lists_id p l w : lists w !! p = Some l -> set_lists p l w = w.
Proof. intros H. unfold set_lists. rewrite insert_id by done. by destruct w. Qed.

(** The two shapes of a call in [run_call_spec]: it makes an object, or it uses
    the object of a slot. *)
Ltac call_makes H :=
  let k' := fresh "k'" in let Hk := fresh "Hk" in let x := fresh "x" in
  rewrite bind_get in H; apply st_bind_inv in H as (x & ? & (k' & Hk & ->)%on_sched_Ok & H); destruct x;
  exists k'; split; [done|]; destruct (add_slot _ _); autorewrite with run in H; unfold ret in H; by simplify_eq.
Ltac call_slot H o :=
  destruct o as [[?|]|]; cbn [mjoin option_join fmap option_fmap option_map mbind option_bind];
  try by (unfold ret in H; simplify_eq).
Ltac call_uses H :=
  let k' := fresh "k'" in let Hk := fresh "Hk" in let x := fresh "x" in
  apply st_bind_inv in H as (x & ? & (k' & Hk & ->)%on_sched_Ok & H); exists k'; (lazymatch type of x with unit => destruct x | _ => idtac end); unfold ret in H; simplify_eq;
  split; [first [eassumption | by eapply void_Ok]|by rewrite set_lists_id].

(** A call with a name that is none returns -1 and changes nothing; any other
    call is the operation of the scheduler on the named object. *)
Lemma run_call_spec c w r w' :
  run_call c w = Ok (r, w') ->
  exists t p l, processor (sched w) = Some t /\ process_of w !! t = Some p /\ lists w !! p = Some l /\
    match call_op l c with
    | None => r = Return (-1) /\ w' = w
    | Some o => exists k', exec o (sched w) = Ok (tt, k') /\
        w' = set_lists p (call_lists (sched w) l c) (set_sched k' w)
    end.
Proof.
  intros H. destruct c; cbn [run_call] in H;
    apply st_bind_inv in H as ([p l] & w0 & (-> & Hl & t & Ht & Hp)%current_pcb_Ok & H);
    exists t, p, l; (split_and!; [done|done|done|]); cbn [call_op call_lists].
  - call_makes H.
  - call_slot H (mutex_list l !! i). call_uses H.
  - call_slot H (mutex_list l !! i). call_uses H.
  - call_makes H.
  - call_slot H (semaphore_list l !! i). call_uses H.
  - call_slot H (semaphore_list l !! i). call_uses H.
  - call_makes H.
  - call_slot H (condvar_list l !! i). call_uses H.
  - call_slot H (condvar_list l !! i). call_slot H (mutex_list l !! m). call_uses H.
Qed.

(** ** Every name is an object of its own *)

Section slots.
Context (sel : sync_lists -> list (option nat)) (w : sync_world) (p : Z) (l l' : sync_lists).
Hypothesis Hl : lists w !! p = Some l.

Lemma names_set_lists q i m :
  names sel (set_lists p l' w) q i m <-> (q = p /\ sel l' !! i = Some (Some m)) \/ (q <> p /\ names sel w q i m).
Proof using.
  unfold names, set_lists. cbn [lists]. destruct (decide (q = p)) as [->|Hne].
  - rewrite lookup_insert_eq. naive_solver.
  - rewrite lookup_insert_ne by done. naive_solver.
Qed.

(** A new object in a slot of its own. *)
Lemma names_ok_add n :
  sel l' = (add_slot n (sel l)).2 -> names_ok sel n w -> names_ok sel (S n) (set_lists p l' w).
Proof.
  intros El [Hb Ho]. pose proof (add_slot_spec n (sel l)) as Hs.
  destruct (add_slot n (sel l)) as [idx s]. cbn in El. subst s. destruct Hs as (_ & _ & Hs).
  assert (forall q i m, names sel (set_lists p l' w) q i m <->
    (q = p /\ i = idx /\ m = n) \/ names sel w q i m) as Hn.
  { intros q i m. rewrite names_set_lists, Hs. unfold names. destruct (decide (q = p)) as [->|]; [|naive_solver].
    rewrite Hl. naive_solver. }
  split.
  - intros q i m [(_ & _ & ->)|H%Hb]%Hn; lia.
  - intros q q' i i' m [(-> & -> & ->)|H1]%Hn [(-> & -> & E)|H2]%Hn; [done|apply Hb in H2; lia|subst; apply Hb in H1; lia|].
    by eapply Ho.
Qed.

Lemma names_ok_keep n n' :
  sel l' = sel l -> (n <= n')%nat -> names_ok sel n w -> names_ok sel n' (set_lists p l' w).
Proof.
  intros El Hn [Hb Ho].
  assert (forall q i m, names sel (set_lists p l' w) q i m -> names sel w q i m) as Hsub.
  { intros q i m. rewrite names_set_lists, El. unfold names. naive_solver. }
  split; [|by eauto]. intros q i m H%Hsub%Hb. lia.
Qed.
End slots.

Lemma sched_inv w k tm ts tc : touched tm ts tc (sched w) k -> sync_inv w -> sync_inv (set_sched k w).
Proof.
  intros [[Em _] [Es _] [Ec _]] [Hm Hs Hc].
  split; cbn [set_sched sched]; [rewrite Em|rewrite Es|rewrite Ec]; (eapply (names_ok_same _ _ _ w); [done|reflexivity|eassumption]).
Qed.

Lemma call_inv c w r w' : sync_inv w -> run_call c w = Ok (r, w') -> sync_inv w'.
Proof.
  intros HI H. destruct (run_call_spec c w r w' H) as (t & p & l & _ & _ & Hl & Hop).
  destruct (call_op l c) as [o|] eqn:Eo; [|by destruct Hop as [_ ->]].
  destruct Hop as (k' & Hk & ->). destruct (makes_none o) eqn:Emk.
  - assert (call_lists (sched w) l c = l) as ->.
    { destruct c; cbn in Eo; try done; simplify_eq; done. }
    rewrite set_lists_id by done. eapply sched_inv; [|done]. by apply (exec_touches o Emk) in Hk.
  - destruct HI as [Hm Hs Hc]. destruct c; cbn in Eo; simplify_option_eq; try done; cbn [exec] in Hk;
      unfold modify in Hk; simplify_eq; split; cbn [sched set_lists set_sched mutexes semaphores condvars];
      rewrite ?length_app, ?Nat.add_1_r;
      first [eapply names_ok_add; [exact Hl|reflexivity|] | eapply names_ok_keep; [exact Hl|reflexivity|reflexivity|]];
      (eapply (names_ok_same _ _ _ w); [done| |eassumption]; cbn; lia).
Qed.

(** Every event of the kernel is at most one operation of the scheduler, and
    keeps the names. *)
Lemma event_refines e w w' :
  sync_inv w -> exec_event e w = Ok (tt, w') ->
  sync_inv w' /\ (sched w' = sched w \/ exists o, exec o (sched w) = Ok (tt, sched w')).
Proof.
  intros HI H. destruct e as [c|m|o|t p|t p]; cbn [exec_event] in H.
  - apply st_bind_inv in H as (r & w1 & H & E). injection E as <-. split; [by eapply call_inv|].
    destruct (run_call_spec c w r w1 H) as (t & p & l & _ & _ & _ & Hop).
    destruct (call_op l c) as [o|]; [|left; by destruct Hop as [_ ->]].
    destruct Hop as (k' & Hk & ->). right. by exists o.
  - unfold lock_outcome in H. apply st_bind_inv in H as (r & w1 & H & E). injection E as <-.
    apply st_bind_inv in H as (x & w2 & (k & Hk & ->)%on_sched_Ok & E). injection E as _ <-.
    apply void_Ok in Hk. change (exec (OLock m) (sched w) = Ok (tt, k)) in Hk. split; [|right; by exists (OLock m)].
    eapply sched_inv; [|done]. by apply (exec_touches (OLock m) eq_refl) in Hk.
  - rewrite bind_check in H. destruct (sched_op o) eqn:Eo; [|done].
    apply on_sched_Ok in H as (k & Hk & ->). split; [|right; by exists o].
    assert (makes_none o = true) as Emk by (by destruct o). eapply sched_inv; [|done]. by apply (exec_touches o Emk) in Hk.
  - apply st_bind_inv in H as ([] & w1 & (k & Hk & ->)%on_sched_Ok & E). injection E as <-.
    split; [|right; by exists (OSpawn t)]. pose proof Hk as Ht. apply (exec_touches (OSpawn t) eq_refl) in Ht.
    destruct (sched_inv w k _ _ _ Ht HI) as [Hm Hs Hc]. split; (eapply (names_ok_same _ _ _ (set_sched k w)); [done|reflexivity|eassumption]).
  - autorewrite with run in H. case_bool_decide as Hp; [done|].
    apply st_bind_inv in H as ([] & w1 & (k & Hk & ->)%on_sched_Ok & E). injection E as <-.
    split; [|right; by exists (OSpawn t)]. pose proof Hk as Ht. apply (exec_touches (OSpawn t) eq_refl) in Ht.
    destruct (sched_inv w k _ _ _ Ht HI) as [Hm Hs Hc].
    assert (forall sel n, sel (MkLists [] [] []) = [] -> names_ok sel n (set_sched k w) ->
      names_ok sel n (MkSync (<[p := MkLists [] [] []]> (lists w)) (<[t := p]> (process_of w)) k)) as Hnew.
    { intros sel n En [Hb Ho]. assert (forall q i m, names sel (MkSync (<[p := MkLists [] [] []]> (lists w))
        (<[t := p]> (process_of w)) k) q i m -> names sel (set_sched k w) q i m) as Hsub.
      { intros q i m (l & Hq & Hi). cbn [lists] in Hq.
        apply lookup_insert_Some in Hq as [[<- <-]|[_ Hq]]; [by rewrite En in Hi|]. by exists l. }
      split; [intros q i m H%Hsub; by eapply Hb|by eauto]. }
    split; by apply Hnew.
Qed.

Lemma events_refine evs w :
  iter_st exec_event evs sync_boot = Ok (tt, w) ->
  sync_inv w /\ exists ops, iter_st exec ops boot = Ok (tt, sched w).
Proof.
  intros H. assert (sync_inv sync_boot) as H0.
  { split; (split; [intros p i m (l & Hl & _)|intros p p' i i' m (l & Hl & _)]); cbn in Hl; by rewrite lookup_empty in Hl. }
  assert (exists ops, iter_st exec ops boot = Ok (tt, sched sync_boot)) as H1 by (by exists []).
  revert H H0 H1. generalize sync_boot. induction evs as [|e evs IH]; intros w0 H HI [ops Hops].
  { injection H as <-. eauto. }
  cbn [iter_st] in H. apply st_bind_inv in H as ([] & w1 & H1 & H).
  destruct (event_refines e w0 w1 HI H1) as [HI1 Ho]. apply (IH w1 H HI1).
  destruct Ho as [->|[o Ho]]; [by exists ops|]. exists (ops ++ [o]). rewrite iter_st_app.
  rewrite (st_bind_Ok _ _ _ _ _ Hops). cbn [iter_st]. by rewrite (st_bind_Ok _ _ _ _ _ Ho).
Qed.

(** The objects of a call are in the slots of the process. *)
Lemma call_targets l c o :
  call_op l c = Some o ->
  (forall x, target_mutex o = Some x -> exists i, mutex_list l !! i = Some (Some x)) /\
  (forall x, target_semaphore o = Some x -> exists i, semaphore_list l !! i = Some (Some x)) /\
  (forall x, target_condvar o = Some x -> exists i, condvar_list l !! i = Some (Some x)).
Proof.
  destruct c; cbn [call_op]; intros H; simplify_option_eq; repeat match goal with
    | H : mjoin ?x = Some _ |- _ => destruct x as [[?|]|] eqn:?; cbn in H; simplify_eq end;
    cbn; split_and!; intros x Hx; simplify_eq; eauto.
Qed.

(** Another process does not name an object that process [p] names. *)
Lemma not_shared sel n w p l q i x :
  names_ok sel n w -> lists w !! p = Some l -> q <> p -> names sel w q i x ->
  ~ exists j, sel l !! j = Some (Some x).
Proof.
  intros [_ Ho] Hl Hq Hn [j Hj]. by destruct (Ho q p i j x Hn ltac:(by exists l)).
Qed.

(** C32: a system call on a mutex, semaphore or condition variable that the
    process does not have returns -1 and changes nothing.  Any other call is
    the operation on the named object, and leaves the objects of every other
    process alone. *)
Theorem sync_call_isolated c w r w' t p l :
  sync_inv w -> processor (sched w) = Some t -> process_of w !! t = Some p -> lists w !! p = Some l ->
  run_call c w = Ok (r, w') ->
  (call_op l c = None -> r = Return (-1) /\ w' = w) /\
  (forall o, call_op l c = Some o -> exec o (sched w) = Ok (tt, sched w')) /\
  forall q i x, q <> p ->
    (names mutex_list w q i x -> names mutex_list w' q i x /\ mutexes (sched w') !! x = mutexes (sched w) !! x) /\
    (names semaphore_list w q i x ->
       names semaphore_list w' q i x /\ semaphores (sched w') !! x = semaphores (sched w) !! x) /\
    (names condvar_list w q i x -> names condvar_list w' q i x /\ condvars (sched w') !! x = condvars (sched w) !! x).
Proof.
  intros HI Ht Hp Hl H. destruct (run_call_spec c w r w' H) as (t0 & p0 & l0 & Ht0 & Hp0 & Hl0 & Hop).
  rewrite Ht in Ht0. injection Ht0 as <-. rewrite Hp in Hp0. injection Hp0 as <-. rewrite Hl in Hl0. injection Hl0 as <-.
  destruct (call_op l c) as [o|] eqn:Eo.
  2:{ destruct Hop as [-> ->]. split_and!; [done|done|]. intros q i x Hq. done. }
  destruct Hop as (k' & Hk & ->). split_and!; [done|by intros ? [= <-]|]. intros q i x Hq.
  assert (forall sel, names sel w q i x -> names sel (set_lists p (call_lists (sched w) l c) (set_sched k' w)) q i x) as Hkeep.
  { intros sel Hn. apply names_set_lists. by right. }
  change (sched (set_lists _ _ _)) with k'. destruct (makes_none o) eqn:Emk.
  - apply (exec_touches o Emk) in Hk as [[_ Hm] [_ Hs] [_ Hc]]. destruct HI as [HIm HIs HIc].
    destruct (call_targets l c o Eo) as (Tm & Ts & Tc).
    split_and!; intros Hn; (split; [by apply Hkeep|]); [apply Hm|apply Hs|apply Hc]; intros Hx.
    + by eapply (not_shared mutex_list), Tm.
    + by eapply (not_shared semaphore_list), Ts.
    + by eapply (not_shared condvar_list), Tc.
  - assert (forall {A} (l1 l2 : list A), (x < length l1)%nat -> (l1 ++ l2) !! x = l1 !! x) as Happ
      by (intros; by apply lookup_app_l).
    destruct HI as [[Bm _] [Bs _] [Bc _]].
    split_and!; intros Hn; (split; [by apply Hkeep|]); [apply Bm in Hn as Hb|apply Bs in Hn as Hb|apply Bc in Hn as Hb];
      destruct o; cbn in Emk, Hk; try done; unfold modify in Hk; simplify_eq; cbn; by rewrite ?Happ.
Qed.

(** [sys_mutex_create], called by a task of a process: it returns the
    lowest slot without a mutex, which then names a new mutex, unlocked and
    of the wanted kind; every other slot of the process and every other
    mutex is as before. *)
Theorem sys_mutex_create_correct b w t p l :
  processor (sched w) = Some t -> process_of w !! t = Some p -> lists w !! p = Some l ->
  exists idx w' l', sys_mutex_create b w = Ok (Return (Z.of_nat idx), w') /\
    ~ (exists x, mutex_list l !! idx = Some (Some x)) /\
    (forall j, (j < idx)%nat -> exists x, mutex_list l !! j = Some (Some x)) /\
    lists w' = <[p := l']> (lists w) /\
    (forall j x, mutex_list l' !! j = Some (Some x) <->
       (j = idx /\ x = length (mutexes (sched w))) \/ mutex_list l !! j = Some (Some x)) /\
    mutexes (sched w') = mutexes (sched w) ++ [if b then Blocking false [] else Spin false].
Proof.
  intros Ht Hp Hl. pose proof (add_slot_spec (length (mutexes (sched w))) (mutex_list l)) as Hs.
  unfold sys_mutex_create, current_pcb, st_bind, on_sched, get, modify. rewrite Ht. cbn [unwrap res_bind].
  rewrite Hp. cbn [unwrap res_bind]. rewrite Hl. cbn [unwrap res_bind exec].
  destruct (add_slot _ _) as [idx ml]. destruct Hs as (H1 & H2 & H3).
  exists idx. do 2 eexists. split; [reflexivity|]. split_and!; [done|done|done| |done].
  exact H3.
Qed.

(** ** Witnesses *)

(** Process 100 with the tasks 1 and 2: task 1 makes a blocking mutex and a
    semaphore and locks the mutex, task 2 waits for it. *)
Definition demo_events : list event :=
  [EProcess 1 100; ESched ORun; ECall (CMutexCreate true); ECall (CSemaphoreCreate 1); ECall (CMutexLock 0);
   EThread 2 100; EProcess 3 200; ESched OYield; ESched ORun; ECall (CMutexLock 0); ESched ORun].

(** Before task 1 gives up the processor. *)
Definition demo_sync_1 : sync_world :=
  match iter_st exec_event (take 7 demo_events) sync_boot with Ok (_, w) => w | Panic _ => sync_boot end.

Lemma sync_call_isolated_witness :
  exists r w', run_call (CMutexUnlock 0) demo_sync_1 = Ok (r, w') /\
    forall q i x, q <> 100 ->
      names mutex_list demo_sync_1 q i x ->
      names mutex_list w' q i x /\ mutexes (sched w') !! x = mutexes (sched demo_sync_1) !! x.
Proof.
  assert (sync_inv demo_sync_1) as HI by (apply (events_refine (take 7 demo_events)); vm_compute; reflexivity).
  destruct (run_call (CMutexUnlock 0) demo_sync_1) as [[r w']|f] eqn:E; [|vm_compute in E; discriminate E].
  exists r, w'. split; [reflexivity|]. intros q i x Hq.
  exact (proj1 (proj2 (proj2 (sync_call_isolated (CMutexUnlock 0) demo_sync_1 r w' 1 100
    (MkLists [Some 0%nat] [Some 0%nat] []) HI ltac:(vm_compute; reflexivity) ltac:(vm_compute; reflexivity)
    ltac:(vm_compute; reflexivity) E)) q i x Hq)).
Defined.

Lemma sys_mutex_create_correct_witness :
  exists idx w' l', sys_mutex_create false demo_sync_1 = Ok (Return (Z.of_nat idx), w') /\
    ~ (exists x, [Some 0%nat] !! idx = Some (Some x)) /\
    (forall j, (j < idx)%nat -> exists x, [Some 0%nat] !! j = Some (Some x)) /\
    lists w' = <[100 := l']> (lists demo_sync_1) /\
    (forall j x, mutex_list l' !! j = Some (Some x) <->
       (j = idx /\ x = length (mutexes (sched demo_sync_1))) \/ [Some 0%nat] !! j = Some (Some x)) /\
    mutexes (sched w') = mutexes (sched demo_sync_1) ++ [Spin false].
Proof.
  exact (sys_mutex_create_correct false demo_sync_1 1 100 (MkLists [Some 0%nat] [Some 0%nat] [])
    ltac:(vm_compute; reflexivity) ltac:(vm_compute; reflexivity) ltac:(vm_compute; reflexivity)).
Defined.
