(* ===== verification/SchedulerRuns.v ===== *)
(** * The population of the scheduler, and fairness

    No operation of the scheduler but a new task and the end of one changes
    which tasks there are; what each does to the processor; and the ready
    queue is fair: a task that is ready runs after those before it. *)

From S2P Require Import Prelude Config StateMonad Scheduler SchedulerSpec SyncCalls.

(** ** Tasks of a set *)

(** All tasks the state mentions are in [T]. *)
Record within (T : gset Z) (k : kernel) : Prop := {
  wi_status t : is_Some (task_status k !! t) -> t ∈ T;
  wi_proc t : processor k = Some t -> t ∈ T;
  wi_ready t : t ∈ ready_queue k -> t ∈ T;
  wi_mutex i m t : mutexes k !! i = Some m -> t ∈ mutex_queue m -> t ∈ T;
  wi_sem i s t : semaphores k !! i = Some s -> t ∈ sem_queue s -> t ∈ T;
  wi_cond i c t : condvars k !! i = Some c -> t ∈ cond_queue c -> t ∈ T;
  wi_timer x : x ∈ timers k -> timer_task x ∈ T;
}.

Section setters.
Context (T : gset Z) (k : kernel) (Hk : within T k).

Lemma within_status t s : t ∈ T -> within T (set_status t s k).
Proof using Hk.
  intros Ht. destruct Hk. split; try done. intros u. cbn.
  destruct (decide (u = t)) as [->|]; [done|]. rewrite lookup_insert_ne by done. auto.
Qed.
Lemma within_ready q : (forall t, t ∈ q -> t ∈ T) -> within T (set_ready q k).
Proof using Hk. intros Hq. by destruct Hk. Qed.
Lemma within_processor o : (forall t, o = Some t -> t ∈ T) -> within T (set_processor o k).
Proof using Hk. intros Ho. by destruct Hk. Qed.
Lemma within_mutex i m : (forall t, t ∈ mutex_queue m -> t ∈ T) -> within T (set_mutex i m k).
Proof using Hk.
  intros Hm. destruct Hk. split; try done. intros j m' t Hj Ht. cbn in Hj.
  apply list_lookup_insert_Some in Hj as [(<- & <- & _)|[_ Hj]]; eauto.
Qed.
Lemma within_semaphore i s : (forall t, t ∈ sem_queue s -> t ∈ T) -> within T (set_semaphore i s k).
Proof using Hk.
  intros Hm. destruct Hk. split; try done. intros j m' t Hj Ht. cbn in Hj.
  apply list_lookup_insert_Some in Hj as [(<- & <- & _)|[_ Hj]]; eauto.
Qed.
Lemma within_condvar i c : (forall t, t ∈ cond_queue c -> t ∈ T) -> within T (set_condvar i c k).
Proof using Hk.
  intros Hm. destruct Hk. split; try done. intros j m' t Hj Ht. cbn in Hj.
  apply list_lookup_insert_Some in Hj as [(<- & <- & _)|[_ Hj]]; eauto.
Qed.
Lemma within_timers l : (forall x, x ∈ l -> timer_task x ∈ T) -> within T (set_timers l k).
Proof using Hk. intros Hq. by destruct Hk. Qed.
End setters.

(** ** No operation brings in a task *)

Section population.
Context (T : gset Z).
Abbreviation keeps m := (moves (through (within T)) m).

Lemma wakeup_within t : t ∈ T -> keeps (wakeup t).
Proof.
  intros Ht k a k' [= _ <-] Hk. apply within_ready; [by apply within_status|]. cbn. intros u.
  rewrite elem_of_app, list_elem_of_singleton. intros [Hu| ->]; [by apply (wi_ready _ _ Hk)|done].
Qed.

(** The current task changes its status and leaves the processor. *)
Lemma leave_within s k t :
  processor k = Some t -> within T k -> within T (set_status t s (set_processor None k)).
Proof. intros Hp Hk. apply within_status; [by apply within_processor|]. by apply (wi_proc _ _ Hk). Qed.

Lemma suspend_within : keeps suspend_current.
Proof.
  intros k a k' H Hk. unfold suspend_current, take_current_tcb, st_bind, of_option, of_res in H.
  destruct (processor k) as [t|] eqn:Hp; [|done]. cbn in H. injection H as _ <-.
  apply within_ready; [by apply (leave_within Ready)|]. cbn. intros u.
  rewrite elem_of_app, list_elem_of_singleton. intros [Hu| ->]; [by apply (wi_ready _ _ Hk)|by apply (wi_proc _ _ Hk)].
Qed.

Lemma block_within : keeps block_current.
Proof.
  intros k a k' H Hk. unfold block_current, take_current_tcb, st_bind, of_option, of_res in H.
  destruct (processor k) as [t|] eqn:Hp; [|done]. cbn in H. injection H as _ <-. by apply leave_within.
Qed.

Lemma run_within : keeps run_tasks_once.
Proof.
  intros k a k' H Hk. unfold run_tasks_once, fetch, st_bind in H.
  destruct (ready_queue k) as [|t q] eqn:Hq; cbn in H; injection H as _ <-; [done|].
  assert (t ∈ T) as Ht by (apply (wi_ready _ _ Hk); rewrite Hq; by left).
  apply within_processor; [apply within_status; [apply within_ready; [done|]|done]|by intros ? [= <-]].
  intros u Hu. apply (wi_ready _ _ Hk). rewrite Hq. by right.
Qed.

Lemma lock_within i : keeps (mutex_lock i).
Proof.
  intros k a k' H Hk. unfold mutex_lock in H. rewrite bind_get, bind_option in H.
  destruct (mutexes k !! i) as [m|] eqn:Hm; [|done]. pose proof (fun t => wi_mutex _ _ Hk i m t Hm) as Hq.
  destruct m as [[]|[] q]; cbn in Hq.
  - apply st_bind_inv in H as ([] & k1 & H & [= _ <-]). by eapply suspend_within.
  - injection H as _ <-. by apply within_mutex.
  - unfold current_tcb, st_bind at 1 in H. cbn [res_bind] in H. rewrite bind_option in H.
    destruct (processor k) as [t|] eqn:Hp; [|done]. rewrite bind_modify in H.
    apply st_bind_inv in H as ([] & k1 & H & [= _ <-]). eapply block_within; [exact H|].
    apply within_mutex; [done|]. cbn. intros u. rewrite elem_of_app, list_elem_of_singleton.
    intros [Hu| ->]; [by apply Hq|by apply (wi_proc _ _ Hk)].
  - injection H as _ <-. by apply within_mutex.
Qed.

Lemma unlock_within i : keeps (mutex_unlock i).
Proof.
  intros k a k' H Hk. unfold mutex_unlock in H. rewrite bind_get, bind_option in H.
  destruct (mutexes k !! i) as [m|] eqn:Hm; [|done]. pose proof (fun t => wi_mutex _ _ Hk i m t Hm) as Hq.
  destruct m as [b|b q]; cbn in Hq; [injection H as _ <-; apply within_mutex; [done|]; by intros t ?%not_elem_of_nil|].
  rewrite bind_check in H. destruct b; [|done]. destruct q as [|t q].
  - injection H as _ <-. by apply within_mutex.
  - rewrite bind_modify in H. eapply wakeup_within; [apply Hq; by left|exact H|].
    apply within_mutex; [done|]. cbn. intros u Hu. apply Hq. by right.
Qed.

Lemma up_within i : keeps (semaphore_up i).
Proof.
  intros k a k' H Hk. unfold semaphore_up in H. rewrite bind_get, bind_option in H.
  destruct (semaphores k !! i) as [[c q]|] eqn:Hs; [|done]. pose proof (fun t => wi_sem _ _ Hk i _ t Hs) as Hq.
  cbn [count sem_queue] in *. repeat case_match.
  - injection H as _ <-. by apply within_semaphore.
  - rewrite bind_modify in H. eapply wakeup_within; [apply Hq; by left|exact H|].
    apply within_semaphore; [done|]. cbn. intros u Hu. apply Hq. by right.
  - injection H as _ <-. by apply within_semaphore.
Qed.

Lemma wait_within i : keeps (condvar_wait_no_sched i).
Proof.
  intros k a k' H Hk. unfold condvar_wait_no_sched in H. rewrite bind_get, bind_option in H.
  destruct (condvars k !! i) as [c|] eqn:Hc; [|done]. pose proof (fun t => wi_cond _ _ Hk i _ t Hc) as Hq.
  unfold current_tcb, st_bind at 1 in H. cbn [res_bind] in H. rewrite bind_option in H.
  destruct (processor k) as [t|] eqn:Hp; [|done]. rewrite bind_modify in H.
  eapply block_within; [exact H|]. apply within_condvar; [done|]. cbn. intros u.
  rewrite elem_of_app, list_elem_of_singleton. intros [Hu| ->]; [by apply Hq|by apply (wi_proc _ _ Hk)].
Qed.

Lemma signal_within i : keeps (condvar_signal i).
Proof.
  intros k a k' H Hk. unfold condvar_signal in H. rewrite bind_get, bind_option in H.
  destruct (condvars k !! i) as [c|] eqn:Hc; [|done]. pose proof (fun t => wi_cond _ _ Hk i _ t Hc) as Hq.
  destruct (cond_queue c) as [|t q]; [by injection H as _ <-|].
  rewrite bind_modify in H. eapply wakeup_within; [apply Hq; by left|exact H|].
  apply within_condvar; [done|]. cbn. intros u Hu. apply Hq. by right.
Qed.

Lemma down_within i : keeps (semaphore_down i).
Proof.
  intros k a k' H Hk. unfold semaphore_down in H. rewrite bind_get, bind_option in H.
  destruct (semaphores k !! i) as [[c q]|] eqn:Hs; [|done]. pose proof (fun t => wi_sem _ _ Hk i _ t Hs) as Hq.
  cbn [count sem_queue] in *. case_match; [|injection H as _ <-; by apply within_semaphore].
  unfold current_tcb, st_bind at 1 in H. cbn [res_bind] in H. rewrite bind_option in H.
  destruct (processor k) as [t|] eqn:Hp; [|done]. rewrite bind_modify in H.
  apply st_bind_inv in H as ([] & k1 & H & [= _ <-]). eapply block_within; [exact H|].
  apply within_semaphore; [done|]. cbn. intros u.
  rewrite elem_of_app, list_elem_of_singleton. intros [Hu| ->]; [by apply Hq|by apply (wi_proc _ _ Hk)].
Qed.

Lemma sleep_within now ms : keeps (sys_sleep now ms).
Proof.
  intros k a k' H Hk. unfold sys_sleep, current_tcb, st_bind at 1 in H. cbn [res_bind] in H. rewrite bind_option in H.
  destruct (processor k) as [t|] eqn:Hp; [|done]. unfold add_timer in H. rewrite bind_modify in H.
  eapply block_within; [exact H|]. apply within_timers; [done|]. intros x [->|Hx]%elem_of_cons;
    [by apply (wi_proc _ _ Hk)|by apply (wi_timer _ _ Hk)].
Qed.

Lemma timer_within now : keeps (check_timer now).
Proof.
  intros k a k' H Hk. destruct (check_timer_loop_spec now (S (length (timers k))) k) as (es & rest & Hr & Hp & _); [lia|].
  unfold check_timer in H. rewrite Hr in H. injection H as _ <-.
  assert (forall x, x ∈ es ++ rest -> timer_task x ∈ T) as Hx by (intros x; rewrite <- Hp; apply (wi_timer _ _ Hk)).
  assert (forall x, x ∈ es -> timer_task x ∈ T) as He by (intros x Hin; apply Hx, elem_of_app; by left).
  destruct Hk. split; try done; cbn.
  - clear Hr Hp Hx. revert He. generalize (task_status k) as ts, wi_status0.
    induction es as [|e es IH]; intros ts Hts He; [done|]. cbn [foldl]. apply IH.
    + intros t. destruct (decide (t = timer_task e)) as [->|]; [intros _; apply He; by left|].
      rewrite lookup_insert_ne by done. apply Hts.
    + intros x Hin. apply He. by right.
  - intros t [Ht|(x & -> & Hin)%list_elem_of_fmap]%elem_of_app; [by apply wi_ready0|by apply He].
  - intros x Hin. apply Hx, elem_of_app. by right.
Qed.

Lemma exec_within o : (forall t, o <> OSpawn t) -> keeps (exec o).
Proof.
  intros Ho. destruct o; cbn [exec]; try by destruct (Ho t).
  - pose proof run_within. unfold void. follow.
  - apply suspend_within.
  - apply moves_bind; [apply lock_within|follow].
  - apply unlock_within.
  - apply up_within.
  - apply moves_bind; [apply down_within|follow].
  - apply signal_within.
  - apply moves_bind; [apply unlock_within|intros _; apply wait_within].
  - apply wait_within.
  - apply sleep_within.
  - apply timer_within.
  - intros k a k' H Hk. unfold exit_current, take_current_tcb, st_bind, of_option, of_res in H.
    destruct (processor k) as [t|]; [|done]. cbn in H. injection H as _ <-. destruct Hk. split; try done.
    intros u. cbn. intros [s [_ Hs]%lookup_delete_Some]. by eauto.
  - intros k a k' [= _ <-] Hk. destruct Hk. split; try done. cbn.
    intros i m t [Hi|[_ Hi]]%lookup_app_Some Ht; [by eauto|]. apply list_lookup_singleton_Some in Hi as [_ <-].
    destruct blocking; by apply not_elem_of_nil in Ht.
  - intros k a k' [= _ <-] Hk. destruct Hk. split; try done. cbn.
    intros i m t [Hi|[_ Hi]]%lookup_app_Some Ht; [by eauto|]. apply list_lookup_singleton_Some in Hi as [_ <-].
    by apply not_elem_of_nil in Ht.
  - intros k a k' [= _ <-] Hk. destruct Hk. split; try done. cbn.
    intros i m t [Hi|[_ Hi]]%lookup_app_Some Ht; [by eauto|]. apply list_lookup_singleton_Some in Hi as [_ <-].
    by apply not_elem_of_nil in Ht.
Qed.
End population.

(** The tasks of a state that satisfies the invariant. *)
Definition tasks_of (k : kernel) : gset Z := dom (task_status k).

Lemma located_within k : k_inv k -> within (tasks_of k) k.
Proof.
  intros [_ Hi]. assert (forall t, t ∈ (located k).*1 -> t ∈ tasks_of k) as Hl.
  { intros t ([u s] & -> & Hin)%list_elem_of_fmap. apply elem_of_dom. exists s. by apply Hi. }
  assert (forall t s, (t, s) ∈ located k -> t ∈ tasks_of k) as Hl'.
  { intros t s Hin. apply Hl, list_elem_of_fmap. by exists (t, s). }
  unfold located, waiting in Hl'. split.
  - intros t Ht. by apply elem_of_dom.
  - intros t Ht. apply (Hl' t Running), elem_of_app. left. rewrite Ht. by left.
  - intros t Ht. apply (Hl' t Ready). rewrite !elem_of_app, !list_elem_of_fmap. right. left. by exists t.
  - intros i m t Hm Ht. apply (Hl' t Blocked). rewrite !elem_of_app, !list_elem_of_fmap. right. right. exists t. split; [done|].
    apply elem_of_app. left. apply list_elem_of_In, in_concat. exists (mutex_queue m). rewrite <- !list_elem_of_In.
    split; [apply list_elem_of_fmap; exists m; split; [done|by eapply list_elem_of_lookup_2]|done].
  - intros i m t Hm Ht. apply (Hl' t Blocked). rewrite !elem_of_app, !list_elem_of_fmap. right. right. exists t. split; [done|].
    apply elem_of_app. right. apply elem_of_app. left. apply list_elem_of_In, in_concat. exists (sem_queue m). rewrite <- !list_elem_of_In.
    split; [apply list_elem_of_fmap; exists m; split; [done|by eapply list_elem_of_lookup_2]|done].
  - intros i m t Hm Ht. apply (Hl' t Blocked). rewrite !elem_of_app, !list_elem_of_fmap. right. right. exists t. split; [done|].
    rewrite !elem_of_app. right. right. left. apply list_elem_of_In, in_concat. exists (cond_queue m). rewrite <- !list_elem_of_In.
    split; [apply list_elem_of_fmap; exists m; split; [done|by eapply list_elem_of_lookup_2]|done].
  - intros x Hx. apply (Hl' (timer_task x) Blocked). rewrite !elem_of_app, !list_elem_of_fmap. right. right. exists (timer_task x).
    split; [done|]. rewrite !elem_of_app. right. right. right. apply list_elem_of_fmap. by exists x.
Qed.

(** ** Statuses and the ready queue grow *)

(** No task loses its status, and tasks only join the queue at its end. *)
Record grows (k k' : kernel) : Prop := {
  gr_tasks : tasks_of k ⊆ tasks_of k';
  gr_queue : ready_queue k `prefix_of` ready_queue k';
}.

#[export] Instance grows_preorder : PreOrder grows.
Proof. split; [by split|]. intros k1 k2 k3 [T1 Q1] [T2 Q2]. split; [set_solver|by transitivity (ready_queue k2)]. Qed.

Lemma grows_status t s k : grows k (set_status t s k).
Proof. split; [|done]. unfold tasks_of. cbn. rewrite dom_insert. set_solver. Qed.
Lemma grows_ready t k : grows k (set_ready (ready_queue k ++ [t]) k).
Proof. split; [done|]. by exists [t]. Qed.
Lemma grows_other k pr ms ss cs ti : grows k (MkKernel (task_status k) (ready_queue k) pr ms ss cs ti).
Proof. by split. Qed.

#[local] Hint Resolve grows_status grows_ready grows_other : moves.
#[local] Hint Extern 1 (grows ?k (set_processor _ ?k)) => apply grows_other : moves.
#[local] Hint Extern 1 (grows ?k (set_mutex _ _ ?k)) => apply grows_other : moves.
#[local] Hint Extern 1 (grows ?k (set_semaphore _ _ ?k)) => apply grows_other : moves.
#[local] Hint Extern 1 (grows ?k (set_condvar _ _ ?k)) => apply grows_other : moves.
#[local] Hint Extern 1 (grows ?k (set_timers _ ?k)) => apply grows_other : moves.
#[local] Hint Extern 1 (moves grows (modify _)) => apply moves_modify; intros ?; auto with moves : moves.

Lemma take_grows : moves grows take_current_tcb.
Proof. intros k o k' [= _ <-]. apply grows_other. Qed.
Lemma current_grows : moves grows current_tcb.
Proof. by intros k o k' [= _ <-]. Qed.
#[local] Hint Resolve take_grows current_grows : moves.
Lemma wakeup_grows t : moves grows (wakeup t).
Proof. unfold wakeup, add. follow. Qed.
Lemma suspend_grows : moves grows suspend_current.
Proof. unfold suspend_current, add. follow. Qed.
Lemma block_grows : moves grows block_current.
Proof. unfold block_current. follow. Qed.
#[local] Hint Resolve wakeup_grows suspend_grows block_grows : moves.
Lemma unlock_grows i : moves grows (mutex_unlock i).
Proof. unfold mutex_unlock. follow. Qed.
#[local] Hint Resolve unlock_grows : moves.

Lemma timer_grows now : moves grows (check_timer now).
Proof.
  intros k. unfold check_timer. generalize (S (length (timers k))). intros fuel. revert k.
  change (moves grows (check_timer_loop fuel now)). induction fuel as [|fuel IH]; cbn [check_timer_loop]; follow.
Qed.

(** The operations that neither dispatch a task nor end one. *)
Lemma exec_grows o : o <> ORun -> o <> OExit -> moves grows (exec o).
Proof.
  intros Hr He. destruct o; try done; cbn [exec];
    unfold void, mutex_lock, semaphore_up, semaphore_down, condvar_signal, condvar_wait_with_mutex,
      condvar_wait_no_sched, sys_sleep, add_timer, spawn, add; follow.
  apply timer_grows.
Qed.

(** A round of [run_tasks] takes the head of the queue. *)
Lemma run_once_spec k :
  run_tasks_once k =
    match ready_queue k with
    | [] => Ok (None, k)
    | t :: q => Ok (Some t, set_processor (Some t) (set_status t Running (set_ready q k)))
    end.
Proof. unfold run_tasks_once, fetch, st_bind. by destruct (ready_queue k). Qed.

#[global] Instance op_eq_dec : EqDecision op.
Proof. solve_decision. Defined.

(** *** Steps of a fixed population *)

(** What every operation but a new task and the end of one does. *)
Record settled (k k' : kernel) : Prop := {
  se_inv : k_inv k';
  se_tasks : tasks_of k' = tasks_of k;
  se_mutexes : (length (mutexes k) <= length (mutexes k'))%nat;
  se_semaphores : (length (semaphores k) <= length (semaphores k'))%nat;
  se_condvars : (length (condvars k) <= length (condvars k'))%nat;
}.
Definition settles (k k' : kernel) : Prop := k_inv k -> settled k k'.

#[export] Instance settles_preorder : PreOrder settles.
Proof.
  split; [intros k Hk; by split|]. intros k1 k2 k3 H1 H2 Hk. destruct (H1 Hk) as [Hk2 T1 M1 S1 C1].
  destruct (H2 Hk2) as [Hk3 T2 M2 S2 C2]. split; [done|congruence|lia..].
Qed.

Lemma exec_settles o : (forall t, o <> OSpawn t) -> o <> OExit -> moves settles (exec o).
Proof.
  intros Hs He k [] k' H Hk. assert (k_inv k') as Hk' by (by eapply exec_preserves).
  pose proof (located_within k Hk) as Hw. pose proof (exec_within (tasks_of k) o Hs k tt k' H Hw) as Hw'.
  assert (tasks_of k' = tasks_of k) as Et.
  { apply set_eq. intros t. split.
    - intros Ht. apply (wi_status _ _ Hw'). unfold tasks_of in Ht. by apply elem_of_dom.
    - destruct (decide (o = ORun)) as [->|Hr]; [|by apply (gr_tasks _ _ (exec_grows o Hr He k tt k' H))].
      cbn [exec] in H. rewrite bind_get, bind_check in H. case_bool_decide; [|done]. unfold void, st_bind in H.
      rewrite run_once_spec in H. destruct (ready_queue k); cbn in H; injection H as <-; [done|].
      unfold tasks_of. cbn. rewrite dom_insert. set_solver. }
  destruct (makes_none o) eqn:Em.
  - apply (exec_touches o Em) in H as [[M _] [S _] [C _]]. split; [done|done|lia..].
  - destruct o; try done; cbn in H; unfold modify in H; simplify_eq; split; cbn; rewrite ?length_app; try done; cbn; lia.
Qed.

(** ** The processor *)

Lemma suspend_run k t :
  processor k = Some t ->
  suspend_current k = Ok (tt, set_ready (ready_queue k ++ [t]) (set_status t Ready (set_processor None k))).
Proof. intros Hp. unfold suspend_current, take_current_tcb, st_bind. rewrite Hp. done. Qed.

(** An operation that wakes tasks keeps the current one. *)
Lemma wakeup_stays t : moves (eq_on processor) (wakeup t).
Proof. by intros k a k' [= _ <-]. Qed.
#[local] Hint Resolve wakeup_stays : moves.
#[local] Hint Extern 1 (moves (eq_on processor) (modify _)) => apply moves_modify; intros ?; reflexivity : moves.

Lemma current_stays : moves (eq_on processor) current_tcb.
Proof. by intros k a k' [= _ <-]. Qed.
#[local] Hint Resolve current_stays : moves.

Lemma unlock_stays i : moves (eq_on processor) (mutex_unlock i).
Proof. unfold mutex_unlock. follow. Qed.
Lemma up_stays i : moves (eq_on processor) (semaphore_up i).
Proof. unfold semaphore_up. follow. Qed.
Lemma signal_stays i : moves (eq_on processor) (condvar_signal i).
Proof. unfold condvar_signal. follow. Qed.
Lemma timer_stays now : moves (eq_on processor) (check_timer now).
Proof.
  intros k. unfold check_timer. generalize (S (length (timers k))). intros fuel. revert k.
  change (moves (eq_on processor) (check_timer_loop fuel now)).
  induction fuel as [|fuel IH]; cbn [check_timer_loop]; follow.
Qed.

(** [frees m]: when [m] returns, no task is on the processor. *)
Definition frees {A} (m : st kernel A) : Prop := moves (fun _ k' => processor k' = None) m.

Lemma frees_bind {A B} (m : st kernel A) (f : A -> st kernel B) : (forall a, frees (f a)) -> frees (st_bind m f).
Proof. intros Hf k b k' (a & k1 & _ & H)%st_bind_inv. by eapply Hf. Qed.

Lemma suspend_frees : frees suspend_current.
Proof.
  intros k a k' H. unfold suspend_current, take_current_tcb, st_bind in H.
  destruct (processor k); [|done]. cbn in H. by injection H as _ <-.
Qed.
Lemma block_frees : frees block_current.
Proof.
  intros k a k' H. unfold block_current, take_current_tcb, st_bind in H.
  destruct (processor k); [|done]. cbn in H. by injection H as _ <-.
Qed.
Lemma exit_frees : frees exit_current.
Proof.
  intros k a k' H. unfold exit_current, take_current_tcb, st_bind in H.
  destruct (processor k); [|done]. cbn in H. by injection H as _ <-.
Qed.
Lemma wait_frees i : frees (condvar_wait_no_sched i).
Proof. unfold condvar_wait_no_sched. do 5 (apply frees_bind; intros ?). apply block_frees. Qed.
Lemma sleep_frees now ms : frees (sys_sleep now ms).
Proof. unfold sys_sleep. do 3 (apply frees_bind; intros ?). apply block_frees. Qed.

(** [lock] and [down] keep the task if they return at once. *)
Lemma lock_processor i k r k' :
  mutex_lock i k = Ok (r, k') ->
  processor k' = match r with Acquired => processor k | Queued | Yielded => None end.
Proof.
  unfold mutex_lock. rewrite bind_get, bind_option. destruct (mutexes k !! i) as [[[]|[] q]|]; [| | | |done].
  - by intros ([] & k1 & ?%suspend_frees & [= <- <-])%st_bind_inv.
  - by intros [= <- <-].
  - unfold current_tcb, st_bind at 1. cbn [res_bind]. rewrite bind_option. destruct (processor k); [|done].
    rewrite bind_modify. by intros ([] & k1 & ?%block_frees & [= <- <-])%st_bind_inv.
  - by intros [= <- <-].
Qed.

Lemma down_processor i k r k' :
  semaphore_down i k = Ok (r, k') -> processor k' = if r : bool then None else processor k.
Proof.
  unfold semaphore_down. rewrite bind_get, bind_option. destruct (semaphores k !! i) as [s|]; [|done].
  case_match; [|by intros [= <- <-]].
  unfold current_tcb, st_bind at 1. cbn [res_bind]. rewrite bind_option. destruct (processor k); [|done].
  rewrite bind_modify. by intros ([] & k1 & ?%block_frees & [= <- <-])%st_bind_inv.
Qed.

(** A call on an object: the task stays if the call returns, and is off the
    processor if it has to wait. *)
Definition after_call (o : outcome) (p : option Z) : option Z :=
  match o with Return _ => p | ReturnLater _ | LockLater _ => None end.

Lemma lock_outcome_processor m w o w' :
  lock_outcome m w = Ok (o, w') -> processor (sched w') = after_call o (processor (sched w)).
Proof.
  unfold lock_outcome. intros (r & w1 & (k & H%lock_processor & ->)%on_sched_Ok & [= <- <-])%st_bind_inv.
  cbn. rewrite H. by destruct r.
Qed.

Lemma run_call_processor c w o w' :
  run_call c w = Ok (o, w') -> processor (sched w') = after_call o (processor (sched w)).
Proof.
  destruct c; cbn [run_call]; intros H; apply st_bind_inv in H as ([p l] & w0 & (-> & _)%current_pcb_Ok & H).
  - rewrite bind_get in H. apply st_bind_inv in H as ([] & w1 & (k & [= <-] & ->)%on_sched_Ok & H).
    destruct (add_slot _ _). rewrite bind_modify in H. by injection H as <- <-.
  - destruct (mutex_list l !! i) as [[m|]|]; [by apply lock_outcome_processor in H|by injection H as <- <-..].
  - destruct (mutex_list l !! i) as [[m|]|]; [|by injection H as <- <-..].
    by apply st_bind_inv in H as ([] & w1 & (k & Hk%unlock_stays & ->)%on_sched_Ok & [= <- <-]).
  - rewrite bind_get in H. apply st_bind_inv in H as ([] & w1 & (k & [= <-] & ->)%on_sched_Ok & H).
    destruct (add_slot _ _). rewrite bind_modify in H. by injection H as <- <-.
  - destruct (semaphore_list l !! i) as [[m|]|]; [|by injection H as <- <-..].
    by apply st_bind_inv in H as ([] & w1 & (k & Hk%up_stays & ->)%on_sched_Ok & [= <- <-]).
  - destruct (semaphore_list l !! i) as [[m|]|]; [|by injection H as <- <-..].
    apply st_bind_inv in H as (b & w1 & (k & Hk%down_processor & ->)%on_sched_Ok & [= <- <-]). cbn. by destruct b.
  - rewrite bind_get in H. apply st_bind_inv in H as ([] & w1 & (k & [= <-] & ->)%on_sched_Ok & H).
    destruct (add_slot _ _). rewrite bind_modify in H. by injection H as <- <-.
  - destruct (condvar_list l !! i) as [[m|]|]; [|by injection H as <- <-..].
    by apply st_bind_inv in H as ([] & w1 & (k & Hk%signal_stays & ->)%on_sched_Ok & [= <- <-]).
  - destruct (condvar_list l !! i) as [[c|]|]; [|by injection H as <- <-..].
    destruct (mutex_list l !! m) as [[j|]|]; [|by injection H as <- <-..].
    apply st_bind_inv in H as ([] & w1 & (k & Hk & ->)%on_sched_Ok & [= <- <-]).
    apply st_bind_inv in Hk as ([] & k1 & _ & Hk). by apply wait_frees in Hk.
Qed.

(** ** Tasks that come and go *)

Lemma wakeup_new k t :
  k_inv k -> t ∉ tasks_of k ->
  exists k', wakeup t k = Ok (tt, k') /\ k_inv k' /\ tasks_of k' = {[t]} ∪ tasks_of k /\
    processor k' = processor k /\ touched None None None k k'.
Proof.
  intros Hk Ht. assert (spawn t k = wakeup t k) as E.
  { unfold spawn. rewrite bind_get, bind_check. rewrite bool_decide_eq_false_2; [done|]. intros Hs. apply Ht. by apply elem_of_dom. }
  eexists. split; [done|]. split_and!.
  - eapply spawn_preserves; [|exact Hk]. by rewrite E.
  - unfold tasks_of. cbn. by rewrite dom_insert_L.
  - done.
  - by split.
Qed.

Lemma exit_current_run k t :
  k_inv k -> processor k = Some t ->
  exists k', exit_current k = Ok (tt, k') /\ k_inv k' /\ tasks_of k' = tasks_of k ∖ {[t]} /\
    processor k' = None /\ touched None None None k k'.
Proof.
  intros Hk Hp. eexists. split; [unfold exit_current, take_current_tcb, st_bind; rewrite Hp; done|]. split_and!.
  - eapply exit_preserves; [|exact Hk]. unfold exit_current, take_current_tcb, st_bind. by rewrite Hp.
  - unfold tasks_of. cbn. by rewrite dom_delete_L.
  - done.
  - by split.
Qed.
