(* ===== verification/BlockDriver.v ===== *)
(** * The disk driver

    [kernel/src/drivers/block/virtio_blk.rs]: a request of the current task
    gets a channel of the virtio queue and the task waits on the condition
    variable of the channel; the interrupt takes the finished channels from
    the queue and signals their condition variables.  The queue itself is the
    crate [virtio_drivers]: how it chooses a free channel is a parameter. *)

From S2P Require Import Prelude Config StateMonad Scheduler SchedulerSpec SyncCalls SchedulerRuns.

(** ** State *)

(** [condvars] of [VirtIOBlock] by channel; what the queue holds: the task of
    every request the device has, and the channels it is done with. *)
Record VirtIOBlock := MkBlk {
  channels : gmap Z nat;
  in_flight : gmap Z Z;
  used_ring : list Z;
}.

Record disk_state := MkDisk { blk : VirtIOBlock; dk : kernel }.

Definition on_dk {A} (f : st kernel A) : st disk_state A := fun s =>
  let? (a, k) := f (dk s) in Ok (a, MkDisk (blk s) k).
Definition set_blk (b : VirtIOBlock) (s : disk_state) : disk_state := MkDisk b (dk s).

(** [VirtIOBlock::new]: a condition variable for each of the [n] channels from
    [i] on. *)
Fixpoint new_channels (n : nat) (i : Z) : st disk_state () :=
  match n with
  | O => ret tt
  | S n =>
      let* s := get in
      let c := length (condvars (dk s)) in
      on_dk (exec ONewCondvar) ;*
      modify (set_blk (MkBlk (<[i := c]> (channels (blk s))) (in_flight (blk s)) (used_ring (blk s)))) ;*
      new_channels n (i + 1)
  end.
Definition VirtIOBlock_new (virt_queue_size : nat) : st disk_state () :=
  modify (set_blk (MkBlk ∅ ∅ [])) ;* new_channels virt_queue_size 0.

(** How a transfer ends for now: it is done, or the task waits on a channel. *)
Inductive transfer := Finished | Waits (token : Z).

Section driver.
(** The channel [read_block_nb] and [write_block_nb] take when those in use
    are given: none if the queue is full. *)
Context (take_token : gset Z -> option Z).

(** [read_block], [write_block] up to [schedule]; [nb] is
    [DEV_NON_BLOCKING_ACCESS].  Otherwise the driver polls the device until it
    is done. *)
Definition block_request (nb : bool) : st disk_state transfer :=
  if nb then
    let* s := get in
    let* token := of_option (take_token (dom (in_flight (blk s)))) in
    let* t := of_option (processor (dk s)) in
    modify (set_blk (MkBlk (channels (blk s)) (<[token := t]> (in_flight (blk s))) (used_ring (blk s)))) ;*
    let* c := of_option (channels (blk s) !! token) in
    on_dk (condvar_wait_no_sched c) ;*
    ret (Waits token)
  else ret Finished.

(** The rest of [read_block] and [write_block]: [ok] is whether the device
    reports success. *)
Definition block_resume (ok : bool) : st disk_state () := check ok.

(** [handle_irq]: [pop_used] gives the channels the device is done with, and
    frees them. *)
Fixpoint pop_loop (fuel : nat) : st disk_state () :=
  match fuel with
  | O => panic OutOfFuel
  | S fuel =>
      let* s := get in
      match used_ring (blk s) with
      | [] => ret tt
      | token :: rest =>
          modify (set_blk (MkBlk (channels (blk s)) (delete token (in_flight (blk s))) rest)) ;*
          let* c := of_option (channels (blk s) !! token) in
          on_dk (condvar_signal c) ;*
          pop_loop fuel
      end
  end.
Definition handle_irq : st disk_state () := fun s => pop_loop (S (length (used_ring (blk s)))) s.
End driver.

(** The device finishes a request. *)
Definition device_done (token : Z) (s : disk_state) : disk_state :=
  set_blk (MkBlk (channels (blk s)) (in_flight (blk s)) (used_ring (blk s) ++ [token])) s.

(** ** The invariant *)

Record disk_inv (s : disk_state) : Prop := {
  di_sched : k_inv (dk s);
  di_channel i c : channels (blk s) !! i = Some c ->
    condvars (dk s) !! c = Some (MkCond (option_list (in_flight (blk s) !! i)));
  di_apart i j c : channels (blk s) !! i = Some c -> channels (blk s) !! j = Some c -> i = j;
  di_flight i : is_Some (in_flight (blk s) !! i) -> is_Some (channels (blk s) !! i);
  di_used_once : NoDup (used_ring (blk s));
  di_used i : i ∈ used_ring (blk s) -> is_Some (in_flight (blk s) !! i);
}.

(** Signalling a channel that one task waits on. *)
Lemma signal_one k c t :
  condvars k !! c = Some (MkCond [t]) ->
  condvar_signal c k = Ok (tt, set_ready (ready_queue k ++ [t]) (set_status t Ready (set_condvar c (MkCond []) k))).
Proof. intros Hc. unfold condvar_signal. rewrite bind_get, bind_option, Hc. done. Qed.

(** The task of a channel. *)
Definition task_of (s : disk_state) (token : Z) : Z := default 0 (in_flight (blk s) !! token).

(** One turn of the loop. *)
Lemma pop_one s token rest :
  disk_inv s -> used_ring (blk s) = token :: rest ->
  exists c t k, channels (blk s) !! token = Some c /\ in_flight (blk s) !! token = Some t /\
    condvar_signal c (dk s) = Ok (tt, k) /\ ready_queue k = ready_queue (dk s) ++ [t] /\ processor k = processor (dk s) /\
    disk_inv (MkDisk (MkBlk (channels (blk s)) (delete token (in_flight (blk s))) rest) k).
Proof.
  intros [Hk Hc Ha Hf Hn Hu] Hr. rewrite Hr in Hn, Hu. apply NoDup_cons in Hn as [Hnot Hn].
  destruct (Hu token ltac:(by left)) as [t Ht]. destruct (Hf token ltac:(by rewrite Ht)) as [c Hch].
  pose proof (Hc _ _ Hch) as Hq. rewrite Ht in Hq. cbn in Hq. pose proof (signal_one (dk s) c t Hq) as Hs.
  exists c, t. eexists. split_and!; [done|done|exact Hs|done|done|]. split; cbn [blk dk channels in_flight used_ring]; try done.
  - eapply condvar_signal_preserves; [exact Hs|done].
  - intros i c' Hi. cbn. destruct (decide (i = token)) as [->|Hne].
    + rewrite Hch in Hi. injection Hi as <-. rewrite lookup_delete_eq. apply list_lookup_insert_eq. by eapply lookup_lt_Some.
    + rewrite lookup_delete_ne by done. rewrite list_lookup_insert_ne by (intros ->; by eapply Hne, Ha). by apply Hc.
  - intros i [x [_ Hi]%lookup_delete_Some]. apply Hf. by eexists.
  - intros i Hi. destruct (Hu i ltac:(by right)) as [x Hx]. rewrite lookup_delete_ne; [by eexists|]. by intros <-.
Qed.

Lemma pop_loop_spec fuel : forall s,
  disk_inv s -> (length (used_ring (blk s)) < fuel)%nat ->
  exists s', pop_loop fuel s = Ok (tt, s') /\ disk_inv s' /\ used_ring (blk s') = [] /\
    channels (blk s') = channels (blk s) /\ processor (dk s') = processor (dk s) /\
    ready_queue (dk s') = ready_queue (dk s) ++ (task_of s <$> used_ring (blk s)) /\
    forall i, in_flight (blk s') !! i = if decide (i ∈ used_ring (blk s)) then None else in_flight (blk s) !! i.
Proof.
  induction fuel as [|fuel IH]; intros s Hs Hf; [lia|]. cbn [pop_loop]. rewrite bind_get.
  destruct (used_ring (blk s)) as [|token rest] eqn:Hr.
  { exists s. cbn [fmap list_fmap]. rewrite app_nil_r. by split_and!. }
  destruct (pop_one s token rest Hs Hr) as (c & t & k & Hch & Ht & Hsig & Hq & Hp & Hs1).
  rewrite bind_modify, bind_option, Hch. cbn [set_blk].
  set (s1 := MkDisk (MkBlk (channels (blk s)) (delete token (in_flight (blk s))) rest) k) in *.
  unfold st_bind at 1, on_dk. cbn [dk set_blk blk]. rewrite Hsig. cbn [res_bind]. fold s1.
  destruct (IH s1 Hs1) as (s2 & -> & H2 & Hr2 & Hch2 & Hp2 & Hq2 & Hf2); [cbn in Hf |- *; lia|].
  exists s2. split_and!; try done.
  - by rewrite Hp2.
  - rewrite Hq2. cbn [s1 dk]. rewrite Hq, <- app_assoc. cbn [app fmap list_fmap]. do 2 f_equal.
    + unfold task_of. by rewrite Ht.
    + apply list_fmap_ext. intros j x Hx. unfold task_of. cbn [s1 blk in_flight]. rewrite lookup_delete_ne; [done|].
      intros <-. pose proof (di_used_once _ Hs) as Hn. rewrite Hr in Hn. apply NoDup_cons in Hn as [Hn _].
      apply Hn. by eapply list_elem_of_lookup_2.
  - intros i. rewrite Hf2. cbn [s1 blk in_flight used_ring]. destruct (decide (i ∈ rest)) as [Hi|Hi].
    + by rewrite decide_True by (by right).
    + destruct (decide (i = token)) as [->|Hne]; [by rewrite lookup_delete_eq, decide_True by (by left)|].
      rewrite lookup_delete_ne by done. rewrite decide_False; [done|]. by intros [?|?]%elem_of_cons.
Qed.

(** ** Runs of the driver *)

Section runs.
Context (take_token : gset Z -> option Z) (virt_queue_size : nat).
(** The queue hands out a free channel of its own. *)
Context (take_token_free : forall used i, take_token used = Some i -> (i ∉ used) /\ 0 <= i < Z.of_nat virt_queue_size).

(** All channels have a condition variable. *)
Record driver_inv (s : disk_state) : Prop := {
  dr_disk : disk_inv s;
  dr_all i : 0 <= i < Z.of_nat virt_queue_size -> is_Some (channels (blk s) !! i);
}.

(** Between the events of the driver the rest of the kernel runs: it leaves
    the driver's condition variables alone. *)
Inductive disk_step : disk_state -> disk_state -> Prop :=
  | DRequest s token s' : block_request take_token true s = Ok (Waits token, s') -> disk_step s s'
  | DDevice s token : is_Some (in_flight (blk s) !! token) -> token ∉ used_ring (blk s) ->
      disk_step s (device_done token s)
  | DIrq s s' : handle_irq s = Ok (tt, s') -> disk_step s s'
  | DOther s o k : exec o (dk s) = Ok (tt, k) ->
      (forall i c, channels (blk s) !! i = Some c -> condvars k !! c = condvars (dk s) !! c) ->
      disk_step s (MkDisk (blk s) k).

(** A request: the current task waits on a channel nobody else uses. *)
Lemma request_spec s t token :
  driver_inv s -> processor (dk s) = Some t -> take_token (dom (in_flight (blk s))) = Some token ->
  exists s', block_request take_token true s = Ok (Waits token, s') /\ driver_inv s' /\
    processor (dk s') = None /\ ready_queue (dk s') = ready_queue (dk s) /\
    used_ring (blk s') = used_ring (blk s) /\ in_flight (blk s') = <[token := t]> (in_flight (blk s)).
Proof.
  intros [[Hk Hc Ha Hf Hn Hu] Hall] Hp Ht. destruct (take_token_free _ _ Ht) as [Hfree Hrange].
  apply not_elem_of_dom in Hfree. destruct (Hall _ Hrange) as [c Hch]. pose proof (Hc _ _ Hch) as Hq. rewrite Hfree in Hq.
  assert (condvar_wait_no_sched c (dk s) = Ok (tt, set_status t Blocked (set_processor None (set_condvar c (MkCond [t]) (dk s)))))
    as Hw.
  { unfold condvar_wait_no_sched. rewrite bind_get, bind_option, Hq. unfold block_current, take_current_tcb, current_tcb, st_bind. cbn. rewrite Hp. cbn.
    by rewrite Hp. }
  unfold block_request. rewrite bind_get, bind_option, Ht, bind_option, Hp, bind_modify, bind_option, Hch.
  unfold st_bind at 1, on_dk. cbn [set_blk dk blk]. rewrite Hw. cbn [res_bind].
  eexists. split; [done|]. cbn [blk dk in_flight used_ring]. split_and!; try done.
  split; [|done]. split; cbn [blk dk channels in_flight used_ring]; try done.
  - by eapply condvar_wait_preserves.
  - intros i c' Hi. cbn. destruct (decide (i = token)) as [->|Hne].
    + rewrite Hch in Hi. injection Hi as <-. rewrite lookup_insert_eq. apply list_lookup_insert_eq. by eapply lookup_lt_Some.
    + rewrite lookup_insert_ne by done. rewrite list_lookup_insert_ne by (intros ->; by eapply Hne, Ha). by apply Hc.
  - intros i Hi. destruct (decide (i = token)) as [->|Hne]; [by eexists|]. rewrite lookup_insert_ne in Hi by done. by apply Hf.
  - intros i Hi. destruct (decide (i = token)) as [->|Hne]; [by rewrite lookup_insert_eq|].
    rewrite lookup_insert_ne by done. by apply Hu.
Qed.

Lemma request_inv s token s' :
  block_request take_token true s = Ok (Waits token, s') ->
  exists t, processor (dk s) = Some t /\ take_token (dom (in_flight (blk s))) = Some token.
Proof.
  unfold block_request. rewrite bind_get, bind_option. destruct (take_token _) as [i|]; [|done].
  rewrite bind_option. destruct (processor (dk s)) as [t|]; [|done]. rewrite bind_modify, bind_option.
  destruct (channels (blk s) !! i) as [c|]; [|done]. unfold st_bind. destruct (on_dk _ _) as [[[] s1]|]; [|done]. cbn.
  intros [= <- <-]. by exists t.
Qed.

Lemma disk_step_inv s s' : disk_step s s' -> driver_inv s -> driver_inv s'.
Proof.
  intros H Hs. destruct H as [s token s' H|s token Hf Hu|s s' H|s o k H Hsame].
  - destruct (request_inv _ _ _ H) as (t & Hp & Ht). destruct (request_spec s t token Hs Hp Ht) as (s1 & H1 & Hi & _).
    congruence.
  - destruct Hs as [[Hk Hc Ha Hfl Hn Hus] Hall]. split; [|done]. split; cbn; try done.
    + apply NoDup_app. split_and!; [done| |apply NoDup_singleton]. intros i Hi ->%list_elem_of_singleton. done.
    + intros i [Hi| ->%list_elem_of_singleton]%elem_of_app; [by apply Hus|done].
  - destruct (pop_loop_spec (S (length (used_ring (blk s)))) s (dr_disk _ Hs)) as (s1 & H1 & Hi & _ & Hch & _); [lia|].
    unfold handle_irq in H. rewrite H1 in H. injection H as <-. split; [done|]. rewrite Hch. by apply Hs.
  - destruct Hs as [[Hk Hc Ha Hf Hn Hu] Hall]. split; [|done]. split; cbn; try done; [by eapply exec_preserves|].
    intros i c Hi. rewrite (Hsame i c Hi). by apply Hc.
Qed.

(** [new] on a kernel that runs. *)
Lemma new_channels_spec n : forall i s,
  disk_inv s -> in_flight (blk s) = ∅ -> (forall j, i <= j -> channels (blk s) !! j = None) ->
  exists s', new_channels n i s = Ok (tt, s') /\ disk_inv s' /\ in_flight (blk s') = ∅ /\
    used_ring (blk s') = used_ring (blk s) /\
    forall j, is_Some (channels (blk s') !! j) <-> is_Some (channels (blk s) !! j) \/ i <= j < i + Z.of_nat n.
Proof.
  induction n as [|n IH]; intros i s Hs Hfl Hnew.
  { exists s. cbn. split_and!; try done. intros j. split; [by left|]. intros [?|?]; [done|lia]. }
  cbn [new_channels]. rewrite bind_get. unfold st_bind at 1, on_dk. cbn [exec modify res_bind dk]. rewrite bind_modify.
  unfold set_blk. cbn [dk]. set (c := length (condvars (dk s))). set (s1 := MkDisk _ _).
  assert (disk_inv s1) as H1.
  { destruct Hs as [Hk Hc Ha Hf Hn Hu].
    assert (forall j c', channels (blk s) !! j = Some c' -> (c' < c)%nat) as Hlt.
    { intros j c' Hj. eapply lookup_lt_Some. by apply (Hc j c'). }
    split; cbn [s1 blk dk channels in_flight used_ring]; try done.
    - eapply (exec_preserves ONewCondvar (dk s)); [reflexivity|done].
    - intros j c' Hj. rewrite Hfl, lookup_empty. cbn. destruct (decide (j = i)) as [->|Hne].
      + rewrite lookup_insert_eq in Hj. injection Hj as <-. apply list_lookup_middle. done.
      + rewrite lookup_insert_ne in Hj by done. rewrite lookup_app_l by eauto. pose proof (Hc j c' Hj) as Hq.
        rewrite Hfl, lookup_empty in Hq. done.
    - intros j k c' [[-> <-]|[Hji Hj]]%lookup_insert_Some [[-> E]|[Hki Hk']]%lookup_insert_Some; try done.
      + pose proof (Hlt _ _ Hk'). lia.
      + subst c'. pose proof (Hlt _ _ Hj). lia.
      + by eapply Ha.
    - intros j Hj. rewrite Hfl in Hj. by rewrite lookup_empty in Hj; destruct Hj. }
  destruct (IH (i + 1) s1 H1 Hfl) as (s2 & Hrun & H2 & Hfl2 & Hu2 & Hch2).
  { intros j Hj. cbn. rewrite lookup_insert_ne by lia. apply Hnew. lia. }
  exists s2. split_and!; try done. intros j. rewrite Hch2. cbn. destruct (decide (j = i)) as [->|Hne].
  - rewrite lookup_insert_eq. split; [intros _; right; lia|intros _; left; by eexists].
  - rewrite lookup_insert_ne by done. split; (intros [?|?]; [by left|right; lia]).
Qed.

Lemma new_inv s : k_inv (dk s) -> exists s', VirtIOBlock_new virt_queue_size s = Ok (tt, s') /\ driver_inv s'.
Proof.
  intros Hk. unfold VirtIOBlock_new. rewrite bind_modify. destruct (new_channels_spec virt_queue_size 0 (set_blk (MkBlk ∅ ∅ []) s))
    as (s' & H & Hi & _ & _ & Hch); [|done|done|].
  - split; cbn; [done|by intros|by intros|by intros ? []|constructor|by intros ? ?%elem_of_nil].
  - exists s'. split; [done|]. split; [done|]. intros j Hj. apply Hch. right. lia.
Qed.
End runs.

Lemma flight_blocked s i t : disk_inv s -> in_flight (blk s) !! i = Some t -> task_status (dk s) !! t = Some Blocked.
Proof.
  intros Hs Ht. destruct (di_flight _ Hs i) as [c Hc]; [by rewrite Ht|]. pose proof (di_channel _ Hs _ _ Hc) as Hq. rewrite Ht in Hq.
  apply (ki_status _ (di_sched _ Hs)). unfold located. rewrite !elem_of_app. right. right.
  apply list_elem_of_fmap. exists t. split; [done|]. unfold waiting. rewrite !elem_of_app. do 2 right. left.
  apply list_elem_of_In, in_concat. exists [t]. split; [|by left]. apply list_elem_of_In, list_elem_of_fmap.
  exists (MkCond [t]). split; [done|by eapply list_elem_of_lookup_2].
Qed.

(** C14: no wake-up of the disk is lost.  In every state the driver and the
    kernel reach, the task of a request sleeps alone on the condition variable
    of its channel and nobody sleeps on a channel without request; the
    interrupt wakes exactly the tasks whose transfers are done, in the order
    the device finished them, frees their channels and no others, and leaves
    the current task alone. *)
Theorem disk_no_lost_wakeup take_token virt_queue_size s0 s1 s :
  (forall used i, take_token used = Some i -> (i ∉ used) /\ 0 <= i < Z.of_nat virt_queue_size) ->
  k_inv (dk s0) -> VirtIOBlock_new virt_queue_size s0 = Ok (tt, s1) -> rtc (disk_step take_token) s1 s ->
  (forall i c, channels (blk s) !! i = Some c ->
     condvars (dk s) !! c = Some (MkCond (option_list (in_flight (blk s) !! i)))) /\
  (forall i t, in_flight (blk s) !! i = Some t -> task_status (dk s) !! t = Some Blocked) /\
  exists s', handle_irq s = Ok (tt, s') /\ used_ring (blk s') = [] /\
    processor (dk s') = processor (dk s) /\
    ready_queue (dk s') = ready_queue (dk s) ++ (task_of s <$> used_ring (blk s)) /\
    forall i, in_flight (blk s') !! i = if decide (i ∈ used_ring (blk s)) then None else in_flight (blk s) !! i.
Proof.
  intros Hfree Hk Hnew Hrun. destruct (new_inv virt_queue_size s0 Hk) as (s1' & H1 & Hi). rewrite Hnew in H1.
  injection H1 as <-. assert (driver_inv virt_queue_size s) as [Hs _] by (clear Hnew; induction Hrun; eauto using disk_step_inv).
  split_and!; [apply Hs|intros i t; by apply flight_blocked|].
  destruct (pop_loop_spec (S (length (used_ring (blk s)))) s Hs) as (s' & ? & _ & ? & _ & ? & ? & ?); [lia|].
  by exists s'.
Qed.

(** A disk with two channels: the tasks 5 and 6 read, the device finishes the
    second request first. *)
Definition demo_token (used : gset Z) : option Z := List.find (fun i => negb (bool_decide (i ∈ used))) [0; 1].
Definition demo_ops : list (st disk_state ()) :=
  [on_dk (exec ORun); (let* _ := block_request demo_token true in ret tt);
   on_dk (exec ORun); (let* _ := block_request demo_token true in ret tt); modify (device_done 1)].
Definition demo_boot : disk_state :=
  MkDisk (MkBlk ∅ ∅ []) (MkKernel (<[5 := Ready]> (<[6 := Ready]> ∅)) [5; 6] None [] [] [] []).
Definition demo_disk (n : nat) : disk_state :=
  match (VirtIOBlock_new 2 ;* iter_st (fun f => f) (take n demo_ops)) demo_boot with Ok (_, s) => s | _ => demo_boot end.

Lemma demo_token_free used i : demo_token used = Some i -> (i ∉ used) /\ 0 <= i < Z.of_nat 2.
Proof.
  intros [Hin Hu]%List.find_some. apply negb_true_iff, bool_decide_eq_false in Hu. split; [done|].
  cbn in Hin. lia.
Qed.

Lemma demo_boot_inv : k_inv (dk demo_boot).
Proof.
  split.
  - cbn. apply NoDup_cons. split; [set_solver|apply NoDup_singleton].
  - intros t st. cbn. rewrite !lookup_insert_Some, lookup_empty. set_solver.
Qed.

Lemma demo_other n o :
  exec o (dk (demo_disk n)) = Ok (tt, dk (demo_disk (S n))) -> blk (demo_disk (S n)) = blk (demo_disk n) ->
  condvars (dk (demo_disk (S n))) = condvars (dk (demo_disk n)) -> disk_step demo_token (demo_disk n) (demo_disk (S n)).
Proof.
  intros Ho Hb Hc. pose proof (DOther demo_token (demo_disk n) o _ Ho) as H. rewrite <- Hb in H.
  destruct (demo_disk (S n)) as [b k]. apply H. intros i c _. cbn in *. by rewrite Hc.
Qed.

Lemma demo_disk_steps : rtc (disk_step demo_token) (demo_disk 0) (demo_disk 5).
Proof.
  eapply rtc_l; [apply (demo_other 0 ORun); vm_compute; reflexivity|].
  eapply rtc_l; [apply (DRequest _ _ 0 (demo_disk 2)); vm_compute; reflexivity|].
  eapply rtc_l; [apply (demo_other 2 ORun); vm_compute; reflexivity|].
  eapply rtc_l; [apply (DRequest _ _ 1 (demo_disk 4)); vm_compute; reflexivity|].
  assert (demo_disk 5 = device_done 1 (demo_disk 4)) as -> by (vm_compute; reflexivity).
  apply rtc_once, DDevice; [vm_compute; by eexists|]. apply (bool_decide_eq_false (1 ∈ used_ring (blk (demo_disk 4)))).
  vm_compute. reflexivity.
Qed.

Lemma demo_new : VirtIOBlock_new 2 demo_boot = Ok (tt, demo_disk 0).
Proof. vm_compute. reflexivity. Qed.

Lemma disk_no_lost_wakeup_witness :
  in_flight (blk (demo_disk 5)) !! 0 = Some 5 /\ in_flight (blk (demo_disk 5)) !! 1 = Some 6 /\
  exists s', handle_irq (demo_disk 5) = Ok (tt, s') /\ ready_queue (dk s') = [6] /\ in_flight (blk s') !! 0 = Some 5 /\
    in_flight (blk s') !! 1 = None.
Proof.
  split; [vm_compute; reflexivity|]. split; [vm_compute; reflexivity|].
  destruct (disk_no_lost_wakeup demo_token 2 demo_boot (demo_disk 0) (demo_disk 5) demo_token_free demo_boot_inv
    demo_new demo_disk_steps) as (_ & _ & s' & H & _ & _ & Hq & Hf).
  exists s'. split; [exact H|]. rewrite Hq, !Hf. split; [|split]; vm_compute; reflexivity.
Defined.
