(* ===== verification/Process.v ===== *)
(** * Processes and threads

    The process and task control blocks of [kernel/src/task/pcb.rs] and
    [tcb.rs], the trap context of [kernel/src/trap/context.rs], the exit of a
    task in [kernel/src/task/mod.rs], the table of processes of
    [kernel/src/task/manager.rs], the signals of [kernel/src/task/signal.rs]
    and the system calls of [kernel/src/syscall/process.rs] and [thread.rs]
    on them.  Processes are named by their pids and task control blocks by
    numbers.  The entry that a process has below [/proc] is kept by the
    operations of [Vfs.v] on the disk of the state. *)

From S2P Require Import Prelude Config Bytes BlockStore Bitmap Layout Efs Vfs Paths Files.
From S2P Require Import StateMonad Address FrameAllocator PageTable MemorySet TaskId.

(** ** Signals *)

Definition SIGINT : Z := Z.shiftl 1 2.
Definition SIGILL : Z := Z.shiftl 1 4.
Definition SIGABRT : Z := Z.shiftl 1 6.
Definition SIGFPE : Z := Z.shiftl 1 8.
Definition SIGSEGV : Z := Z.shiftl 1 11.
Definition all_signals : Z := Z.lor SIGINT (Z.lor SIGILL (Z.lor SIGABRT (Z.lor SIGFPE SIGSEGV))).

(** [SignalFlags::from_bits], [contains] *)
Definition SignalFlags_from_bits (bits : Z) : option Z :=
  if Z.land bits all_signals =? bits then Some bits else None.
Definition sig_contains (flags other : Z) : bool := Z.land flags other =? other.

(** [SignalFlags::check_error]: the exit code; the message is left out. *)
Definition check_error (self : Z) : option Z :=
  if sig_contains self SIGINT then Some (-2)
  else if sig_contains self SIGILL then Some (-4)
  else if sig_contains self SIGABRT then Some (-6)
  else if sig_contains self SIGFPE then Some (-8)
  else if sig_contains self SIGSEGV then Some (-11)
  else None.

(** ** The trap context *)

Record Context := MkContext {
  regs : list Z;   (** [x] *)
  sstatus : Z;
  sepc : Z;
  kernel_satp : Z;
  kernel_sp : Z;
  trap_handler : Z;
}.

(** The bit SPP of [sstatus]; [set_spp(SPP::User)] clears it. *)
Definition SPP_BIT : Z := 8.

(** [Context::app_init_context]; [status] is what [sstatus::read] gives. *)
Definition app_init_context (status entry sp satp ksp handler : Z) : Context :=
  MkContext (<[2%nat := sp]> (replicate 32 0)) (Z.clearbit status SPP_BIT) entry satp ksp handler.

(** A context is [repr(C)]: 37 words at the start of its page. *)
Definition context_words (c : Context) : list Z :=
  regs c ++ [sstatus c; sepc c; kernel_satp c; kernel_sp c; trap_handler c].

(** [*trap_cx = c], [trap_cx.x[i] = v], [trap_cx.kernel_sp = v] *)
Definition store_context (ppn : PhysPageNum) (c : Context) (m : mm) : mm :=
  set_page ppn (splice 0 (context_words c) (page_at m ppn)) m.
Definition store_word (ppn : PhysPageNum) (i : nat) (v : Z) (m : mm) : mm :=
  set_page ppn (<[i := v]> (page_at m ppn)) m.
Definition KERNEL_SP : nat := 35.

(** Bytes stored one by one through a reference to a physical address. *)
Fixpoint store_bytes (pa : PhysAddr) (bs : list u8) (m : mm) : mm :=
  match bs with
  | [] => m
  | b :: bs => store_bytes (pa + 1) bs (write_bytes (pa / PAGE_SIZE) (Z.to_nat (pa mod PAGE_SIZE)) [b] m)
  end.

(** ** State *)

Record TaskControlBlock := MkTcb {
  process : Z;
  kstack : Z;
  res_ : option TaskUserRes;
  tcb_trap_cx_ppn : PhysPageNum;
  task_exit_code : option Z;
}.
Abbreviation tcb := TaskControlBlock.

Record ProcessControlBlockInner := MkPcb {
  is_zombie : bool;
  pcb_memory_set : MemorySet;
  parent : option Z;
  children : list Z;
  exit_code : Z;
  cwd : list u8;
  fd_table : list (option Z);   (** the files, by identity *)
  signals : Z;
  tasks : list (option Z);
  pcb_task_res_allocator : RecycleAllocator;
}.
Abbreviation pcb := ProcessControlBlockInner.

(** The processes and tasks that exist, [PID2PCB], [PID_ALLOCATOR], the
    queue of [TASK_MANAGER], the kernel's memory, and the file system. *)
Record world := MkWorld {
  procs : gmap Z pcb;
  tcbs : gmap Z tcb;
  next_tcb : Z;
  pid2process : gset Z;
  pid_allocator : RecycleAllocator;
  ready : list Z;
  kern : kstacks;
  fs_disk : disk;
}.

Definition with_tree (z : bool) (p : option Z) (cs : list Z) (b : pcb) : pcb :=
  MkPcb z (pcb_memory_set b) p cs (exit_code b) (cwd b) (fd_table b) (signals b) (tasks b) (pcb_task_res_allocator b).
Definition with_parent (p : option Z) (b : pcb) : pcb := with_tree (is_zombie b) p (children b) b.
Definition with_children (cs : list Z) (b : pcb) : pcb := with_tree (is_zombie b) (parent b) cs b.
Definition with_exit (code : Z) (b : pcb) : pcb :=
  MkPcb true (pcb_memory_set b) (parent b) (children b) code (cwd b) (fd_table b) (signals b) (tasks b)
    (pcb_task_res_allocator b).
Definition with_fds (fds : list (option Z)) (b : pcb) : pcb :=
  MkPcb (is_zombie b) (pcb_memory_set b) (parent b) (children b) (exit_code b) (cwd b) fds (signals b) (tasks b)
    (pcb_task_res_allocator b).
Definition with_signals (s : Z) (b : pcb) : pcb :=
  MkPcb (is_zombie b) (pcb_memory_set b) (parent b) (children b) (exit_code b) (cwd b) (fd_table b) s (tasks b)
    (pcb_task_res_allocator b).
Definition with_tasks (ts : list (option Z)) (b : pcb) : pcb :=
  MkPcb (is_zombie b) (pcb_memory_set b) (parent b) (children b) (exit_code b) (cwd b) (fd_table b) (signals b) ts
    (pcb_task_res_allocator b).
Definition with_memory (ids : RecycleAllocator) (ms : MemorySet) (b : pcb) : pcb :=
  MkPcb (is_zombie b) ms (parent b) (children b) (exit_code b) (cwd b) (fd_table b) (signals b) (tasks b) ids.

Definition set_procs (ps : gmap Z pcb) (w : world) : world :=
  MkWorld ps (tcbs w) (next_tcb w) (pid2process w) (pid_allocator w) (ready w) (kern w) (fs_disk w).
Definition set_tcbs (ts : gmap Z tcb) (w : world) : world :=
  MkWorld (procs w) ts (next_tcb w) (pid2process w) (pid_allocator w) (ready w) (kern w) (fs_disk w).
Definition set_table (s : gset Z) (w : world) : world :=
  MkWorld (procs w) (tcbs w) (next_tcb w) s (pid_allocator w) (ready w) (kern w) (fs_disk w).
Definition set_pids (ids : RecycleAllocator) (w : world) : world :=
  MkWorld (procs w) (tcbs w) (next_tcb w) (pid2process w) ids (ready w) (kern w) (fs_disk w).
Definition set_ready (q : list Z) (w : world) : world :=
  MkWorld (procs w) (tcbs w) (next_tcb w) (pid2process w) (pid_allocator w) q (kern w) (fs_disk w).
Definition set_kern (k : kstacks) (w : world) : world :=
  MkWorld (procs w) (tcbs w) (next_tcb w) (pid2process w) (pid_allocator w) (ready w) k (fs_disk w).
Definition set_disk (d : disk) (w : world) : world :=
  MkWorld (procs w) (tcbs w) (next_tcb w) (pid2process w) (pid_allocator w) (ready w) (kern w) d.
Definition set_mm (m : mm) (w : world) : world :=
  set_kern (MkKstacks (kstack_allocator (kern w)) (kernel_space (kern w)) m) w.
Definition w_mm (w : world) : mm := kstack_mm (kern w).

(** Access to a control block: the process exists, so that a weak reference to
    it can be upgraded. *)
Definition get_pcb (p : Z) : st world pcb := fun w => let? b := unwrap (procs w !! p) in Ok (b, w).
Definition get_tcb (t : Z) : st world tcb := fun w => let? b := unwrap (tcbs w !! t) in Ok (b, w).
Definition mod_pcb (p : Z) (f : pcb -> pcb) : st world () := modify (fun w => set_procs (alter f p (procs w)) w).
Definition mod_tcb (t : Z) (f : tcb -> tcb) : st world () := modify (fun w => set_tcbs (alter f t (tcbs w)) w).
Definition mod_mm (f : mm -> mm) : st world () := modify (fun w => set_mm (f (w_mm w)) w).

(** Run an operation on the file system, on the memory, on the kernel's
    stacks, on the memory of a process. *)
Definition on_fs {A} (f : prog A) : st world A := fun w =>
  let? (a, d) := run f (fs_disk w) in Ok (a, set_disk d w).
Definition on_mm {A} (f : st mm A) : st world A := fun w =>
  let? (a, m) := f (w_mm w) in Ok (a, set_mm m w).
Definition on_kernel {A} (f : st kstacks A) : st world A := fun w =>
  let? (a, k) := f (kern w) in Ok (a, set_kern k w).
Definition on_proc_mem {A} (p : Z) (f : st proc_mem A) : st world A := fun w =>
  let? b := unwrap (procs w !! p) in
  let? (a, s) := f (MkProcMem (pcb_task_res_allocator b) (pcb_memory_set b) (w_mm w)) in
  Ok (a, set_mm (proc_mm s)
           (set_procs (<[p := with_memory (task_res_allocator s) (memory_set s) b]> (procs w)) w)).

(** [pid_alloc] *)
Definition pid_alloc : st world Z := fun w =>
  let (pid, ids) := id_alloc (pid_allocator w) in Ok (pid, set_pids ids w).

(** [insert_into_pid2process], [remove_from_pid2process] *)
Definition insert_into_pid2process (p : Z) : st world () :=
  modify (fun w => set_table ({[p]} ∪ pid2process w) w).
Definition remove_from_pid2process (p : Z) : st world () := fun w =>
  let? _ := assert (bool_decide (p ∈ pid2process w)) in
  Ok (tt, set_table (pid2process w ∖ {[p]}) w).

(** [manager::add] *)
Definition add_ready (t : Z) : st world () := modify (fun w => set_ready (ready w ++ [t]) w).

(** ** Control blocks *)

(** [TaskControlBlock::new] *)
Definition TaskControlBlock_new (p base : Z) (alloc_user_res : bool) : st world Z :=
  let* r := on_proc_mem p (TaskUserRes_new base alloc_user_res) in
  let* ppn := on_proc_mem p (trap_cx_ppn r) in
  let* k := on_kernel kstack_alloc in
  fun w =>
    let t := next_tcb w in
    Ok (t, MkWorld (procs w) (<[t := MkTcb p k (Some r) ppn None]> (tcbs w)) (t + 1) (pid2process w)
             (pid_allocator w) (ready w) (kern w) (fs_disk w)).

(** [ProcessControlBlockInner::task] *)
Definition task (b : pcb) (tid : nat) : res Z :=
  match tasks b !! tid with
  | Some o => unwrap o
  | None => Panic IndexOutOfBounds
  end.

(** [ProcessControlBlockInner::thread_count] *)
Definition thread_count (b : pcb) : nat := length (tasks b).

(** The drop of a task control block: its kernel stack, and what is left of
    its user resources. *)
Definition drop_tcb (t : Z) : st world () :=
  let* tb := get_tcb t in
  on_kernel (KernelStack_drop (kstack tb)) ;*
  match res_ tb with
  | Some r => on_proc_mem (process tb) (TaskUserRes_drop r)
  | None => ret tt
  end ;*
  modify (fun w => set_tcbs (delete t (tcbs w)) w).

(** An entry leaves a list of tasks.  A task that has exited is in no queue,
    so this was the last reference; any other is still held by a queue. *)
Definition release_task (o : option Z) : st world () :=
  match o with
  | None => ret tt
  | Some t =>
      let* tb := get_tcb t in
      match task_exit_code tb with Some _ => drop_tcb t | None => ret tt end
  end.

(** [DAEMON] is the first process. *)
Definition DAEMON : Z := 0.
Definition IDLE_PID : Z := 0.

(** ** Entries of processes below [/proc] *)

(** [pid.to_string()]: the decimal digits; a [usize] has at most 20. *)
Fixpoint digits (fuel : nat) (n : Z) : list u8 :=
  match fuel with
  | O => []
  | S fuel => (if n <? 10 then [] else digits fuel (n / 10)) ++ [byte.of_Z (48 + n mod 10)]
  end.
Definition to_string (n : Z) : list u8 := digits 20 n.

(** ["cmdline"], ["/proc/"], [" "] *)
Definition str_cmdline : list u8 := [Byte.x63; Byte.x6d; Byte.x64; Byte.x6c; Byte.x69; Byte.x6e; Byte.x65].
Definition str_proc : list u8 := [Byte.x2f; Byte.x70; Byte.x72; Byte.x6f; Byte.x63; Byte.x2f].

(** [args.join(" ")] *)
Fixpoint join_space (args : list (list u8)) : list u8 :=
  match args with
  | [] => []
  | [a] => a
  | a :: args => a ++ Byte.x20 :: join_space args
  end.

Section operations.
(** The linker's symbols, the ELF parser, the address of [user_handler], what
    [sstatus::read] gives, and the inodes of [/] and [/proc]. *)
Context (sym : symbols) (ElfFile_new : list u8 -> option ElfFile) (user_handler status : Z).
Context (ROOT_INODE PROC_INODE : Inode).

(** The end of [fork]: [/proc/<pid>/cmdline] with the contents of the
    parent's. *)
Definition write_proc_info (parent_pid pid : Z) : prog () :=
  let! o := Inode_create_dir PROC_INODE (to_string pid) in
  let! proc_inode := lift (unwrap o) in
  set_default_dirent proc_inode (inode_id PROC_INODE) ;;;
  let! o := Inode_create proc_inode str_cmdline in
  let! cmdline_inode := lift (unwrap o) in
  let! o := find ROOT_INODE (str_proc ++ to_string parent_pid ++ slash :: str_cmdline) in
  match o with
  | None => Ret tt
  | Some parent_cmdline_inode =>
      let! n := Vfs.file_size parent_cmdline_inode in
      let! (_, cmdline) := Inode_read_at parent_cmdline_inode 0 (replicate (Z.to_nat n) Byte.x00) in
      let! _ := Inode_write_at cmdline_inode 0 cmdline in
      Ret tt
  end.

(** The part of [exec] that writes the arguments to [/proc/<pid>/cmdline]. *)
Definition write_cmdline (pid : Z) (args : list (list u8)) : prog () :=
  let! o := Inode_find PROC_INODE (to_string pid) in
  let! proc_inode := lift (unwrap o) in
  let! o := Inode_find proc_inode str_cmdline in
  let! cmdline_inode := lift (unwrap o) in
  Inode_clear cmdline_inode ;;;
  let! _ := Inode_write_at cmdline_inode 0 (join_space args) in
  Ret tt.

(** [ProcessControlBlock::drop] *)
Definition drop_proc_info (pid : Z) : prog () :=
  let! o := Inode_find PROC_INODE (to_string pid) in
  match o with
  | None => Ret tt
  | Some proc_inode =>
      Inode_delete proc_inode str_cmdline ;;;
      Inode_delete PROC_INODE (to_string pid)
  end.

(** The drop of a process control block: its entry below
    [/proc], then its fields: its pid, its memory, its tasks. *)
Definition drop_pcb (c : Z) : st world () :=
  let* b := get_pcb c in
  on_fs (drop_proc_info c) ;*
  (fun w => let? ids := id_dealloc (pid_allocator w) c in
            Ok (tt, set_pids ids (set_procs (delete c (procs w)) w))) ;*
  on_mm (MemorySet_drop (pcb_memory_set b)) ;*
  iter_st release_task (tasks b).


(** ** Processes *)

(** [kernel_token] *)
Definition kernel_token (w : world) : Z := MemorySet_token (kernel_space (kern w)).

(** [ProcessControlBlock::new] *)
Definition ProcessControlBlock_new (elf_data : list u8) : st world Z :=
  let* (ms, base, entry) := on_mm (from_elf sym ElfFile_new elf_data) in
  let* pid := pid_alloc in
  let fds := [Some 0; Some 1; Some 2] in
  modify (fun w => set_procs (<[pid := MkPcb false ms None [] 0 [Byte.x2f] fds 0 [] RecycleAllocator_new]> (procs w)) w) ;*
  let* task := TaskControlBlock_new pid base true in
  let* tb := get_tcb task in
  let* r := of_option (res_ tb) in
  let* w := get in
  mod_mm (store_context (tcb_trap_cx_ppn tb)
    (app_init_context status entry (ustack_top r) (kernel_token w) (KernelStack_top (kstack tb)) user_handler)) ;*
  mod_pcb pid (fun b => with_tasks (tasks b ++ [Some task]) b) ;*
  insert_into_pid2process pid ;*
  add_ready task ;*
  ret pid.

(** [ProcessControlBlock::fork] *)
Definition fork (p : Z) : st world Z :=
  let* b := get_pcb p in
  check (Nat.eqb (thread_count b) 1) ;*
  let* ms := on_mm (MemorySet_clone sym (pcb_memory_set b)) in
  let* pid := pid_alloc in
  let child := MkPcb false ms (Some p) [] 0 (cwd b) (fd_table b) 0 [] RecycleAllocator_new in
  modify (fun w => set_procs (<[pid := child]> (procs w)) w) ;*
  mod_pcb p (fun b => with_children (children b ++ [pid]) b) ;*
  let* t0 := of_res (task b 0) in
  let* tb0 := get_tcb t0 in
  let* r := of_option (res_ tb0) in
  let* t := TaskControlBlock_new pid (ustack_base r) false in
  mod_pcb pid (fun b => with_tasks (tasks b ++ [Some t]) b) ;*
  let* tb := get_tcb t in
  mod_mm (store_word (tcb_trap_cx_ppn tb) KERNEL_SP (KernelStack_top (kstack tb))) ;*
  insert_into_pid2process pid ;*
  add_ready t ;*
  on_fs (write_proc_info p pid) ;*
  ret pid.

(** [sys_fork]: the child sees 0. *)
Definition sys_fork (p : Z) : st world Z :=
  let* pid := fork p in
  let* b := get_pcb pid in
  let* t := of_res (task b 0) in
  let* tb := get_tcb t in
  mod_mm (store_word (tcb_trap_cx_ppn tb) 10 0) ;*
  ret pid.

(** A store through [translated_mut_ref]. *)
Definition store_user (token va : Z) (bs : list u8) : st world () :=
  let* w := get in
  let* pa := of_res (translated_ref (w_mm w) token va) in
  mod_mm (store_bytes pa bs).

(** The bytes of one argument, each through its own translation. *)
Fixpoint store_string (token p : Z) (bs : list u8) : st world () :=
  match bs with
  | [] => store_user token p [Byte.x00]
  | c :: bs => store_user token p [c] ;* store_string token (w64 (p + 1)) bs
  end.

(** The loop over the arguments: [argv] are the translated addresses. *)
Fixpoint push_args (token : Z) (args : list (list u8)) (argv : list PhysAddr) (user_sp : Z) : st world Z :=
  match args, argv with
  | arg :: args, pa :: argv =>
      let user_sp := w64 (user_sp - (Z.of_nat (length arg) + 1)) in
      mod_mm (store_bytes pa (le_put 8 user_sp)) ;*
      store_string token user_sp arg ;*
      push_args token args argv user_sp
  | _, _ => ret user_sp
  end.

(** [(0..=argc).map(translated_mut_ref)] *)
Fixpoint argv_refs (m : mm) (token base : Z) (n : nat) : res (list PhysAddr) :=
  match n with
  | O => Ok []
  | S n =>
      let? pa := translated_ref m token base in
      let? rest := argv_refs m token (w64 (base + 8)) n in
      Ok (pa :: rest)
  end.

(** The part of [exec] that puts the arguments on the new user stack, from
    [top] down: the pointers with a null pointer behind them, and below these
    the texts.  It gives the address of the pointers and the stack pointer. *)
Definition write_args (token : Z) (args : list (list u8)) (top : Z) : st world (Z * Z) :=
  let argc := length args in
  let argv_base := w64 (top - (Z.of_nat argc + 1) * 8) in
  let* w := get in
  let* argv := of_res (argv_refs (w_mm w) token argv_base (S argc)) in
  let* last := of_option (argv !! argc) in
  mod_mm (store_bytes last (le_put 8 0)) ;*
  let* user_sp := push_args token args argv argv_base in
  ret (argv_base, user_sp).

(** [ProcessControlBlock::exec] *)
Definition exec (p : Z) (elf_data : list u8) (args : list (list u8)) : st world () :=
  let* b := get_pcb p in
  check (Nat.eqb (thread_count b) 1) ;*
  let* (ms, base, entry) := on_mm (from_elf sym ElfFile_new elf_data) in
  let new_token := MemorySet_token ms in
  mod_pcb p (fun b => with_memory (pcb_task_res_allocator b) ms b) ;*
  on_mm (MemorySet_drop (pcb_memory_set b)) ;*
  let* t := of_res (task b 0) in
  let* tb := get_tcb t in
  let* r := of_option (res_ tb) in
  let r := MkRes (tid r) base in
  on_proc_mem p (alloc_user_res r) ;*
  let* ppn := on_proc_mem p (trap_cx_ppn r) in
  mod_tcb t (fun tb => MkTcb (process tb) (kstack tb) (Some r) ppn (task_exit_code tb)) ;*
  let* (argv_base, user_sp) := write_args new_token args (ustack_top r) in
  on_fs (write_cmdline p args) ;*
  let* w := get in
  let c := app_init_context status entry user_sp (kernel_token w) (KernelStack_top (kstack tb)) user_handler in
  mod_mm (store_context ppn (MkContext (<[11%nat := argv_base]> (<[10%nat := Z.of_nat (length args)]> (regs c)))
    (sstatus c) (sepc c) (kernel_satp c) (kernel_sp c) (trap_handler c))).

(** The loop of [exit_current_and_run_next] that hands the children of a
    process to the daemon. *)
Definition adopt (cs : list Z) (ps : gmap Z pcb) : gmap Z pcb :=
  foldl (fun ps c => alter (fun d => with_children (children d ++ [c]) d) DAEMON
                       (alter (with_parent (Some DAEMON)) c ps)) ps cs.

(** [task_inner.res.take()] for every task of a list. *)
Fixpoint take_all_res (ts : list (option Z)) : st world (list TaskUserRes) :=
  match ts with
  | [] => ret []
  | None :: ts => take_all_res ts
  | Some t :: ts =>
      let* tb := get_tcb t in
      mod_tcb t (fun tb => MkTcb (process tb) (kstack tb) None (tcb_trap_cx_ppn tb) (task_exit_code tb)) ;*
      let* rest := take_all_res ts in
      ret (match res_ tb with Some r => r :: rest | None => rest end)
  end.

(** The part of [exit_current_and_run_next] for the main thread of [p]. *)
Definition exit_process (p code : Z) : st world () :=
  remove_from_pid2process p ;*
  let* b := get_pcb p in
  mod_pcb p (with_exit code) ;*
  modify (fun w => set_procs (adopt (children b) (procs w)) w) ;*
  let* recycle_res := take_all_res (tasks b) in
  iter_st (fun r => on_proc_mem p (TaskUserRes_drop r)) recycle_res ;*
  mod_pcb p (with_children []) ;*
  mod_pcb p (fun b => with_memory (pcb_task_res_allocator b) (recycle_data_pages (pcb_memory_set b)) b) ;*
  mod_pcb p (with_fds []) ;*
  iter_st release_task (drop 1 (tasks b)) ;*
  mod_pcb p (fun b => with_tasks (take 1 (tasks b)) b).

(** How [exit_current_and_run_next] ends: the machine is shut down, or the
    processor goes to the next task. *)
Inductive exited := Shutdown (failure : bool) | Scheduled.

(** [exit_current_and_run_next] of the current task [t] *)
Definition exit_current_and_run_next (t code : Z) : st world exited :=
  let* tb := get_tcb t in
  let p := process tb in
  let* _ := get_pcb p in
  let* r := of_option (res_ tb) in
  mod_tcb t (fun tb => MkTcb p (kstack tb) None (tcb_trap_cx_ppn tb) (Some code)) ;*
  on_proc_mem p (TaskUserRes_drop r) ;*
  if tid r =? 0 then
    if p =? IDLE_PID then ret (Shutdown (negb (code =? 0)))
    else exit_process p code ;* ret Scheduled
  else ret Scheduled.

(** ** Waiting and signals *)

(** References to a process from lists of children. *)
Definition child_refs (ps : gmap Z pcb) : list Z := map_to_list ps ≫= (fun kv => children kv.2).

(** References to a process that its caller holds once, without those on the
    kernel stacks of waiting tasks: from lists of children and from
    [PID2PCB] besides. *)
Definition strong_count (w : world) (c : Z) : nat :=
  1 + length (filter (fun d => d = c) (child_refs (procs w))) +
  (if decide (c ∈ pid2process w) then 1 else 0).

Definition pid_matches (pid c : Z) : bool := (pid =? -1) || (w64 pid =? c).

(** The first child that has exited and matches, with its index. *)
Fixpoint find_zombie (ps : gmap Z pcb) (pid : Z) (cs : list Z) : option (nat * Z) :=
  match cs with
  | [] => None
  | c :: cs =>
      if match ps !! c with Some b => is_zombie b | None => false end && pid_matches pid c then Some (O, c)
      else match find_zombie ps pid cs with Some (i, c) => Some (S i, c) | None => None end
  end.

(** [sys_waitpid] of process [p]; [held c] are the references to process [c]
    that calls keep while they wait: [sys_read] and [sys_write] hold [process]
    across [file.read] and [file.write].  The assertion is on
    [Arc::strong_count]. *)
Definition sys_waitpid (held : Z -> nat) (p pid exit_code_ptr : Z) : st world Z :=
  let* b := get_pcb p in
  if negb (existsb (pid_matches pid) (children b)) then ret (-1)
  else
    let* w := get in
    match find_zombie (procs w) pid (children b) with
    | None => ret (-2)
    | Some (idx, c) =>
        mod_pcb p (with_children (delete idx (children b))) ;*
        let* w := get in
        check (Nat.eqb (strong_count w c + held c) 1) ;*
        let* cb := get_pcb c in
        store_user (MemorySet_token (pcb_memory_set b)) exit_code_ptr (le_put 4 (exit_code cb)) ;*
        drop_pcb c ;*
        ret c
    end.

(** [sys_kill] *)
Definition sys_kill (pid signal : Z) : st world Z := fun w =>
  if bool_decide (pid ∈ pid2process w) then
    match SignalFlags_from_bits signal with
    | Some flag => (mod_pcb pid (fun b => with_signals (Z.lor (signals b) flag) b) ;* ret 0) w
    | None => Ok (-1, w)
    end
  else Ok (-1, w).

(** [add_signal_to_current], [check_signals_error_of_current], of process [p] *)
Definition add_signal_to_current (p signal : Z) : st world () :=
  let* _ := get_pcb p in mod_pcb p (fun b => with_signals (Z.lor (signals b) signal) b).
Definition check_signals_error_of_current (p : Z) : st world (option Z) :=
  let* b := get_pcb p in ret (check_error (signals b)).

(** ** Threads *)

(** [sys_thread_create] of the current task [t] *)
Definition sys_thread_create (t entry arg : Z) : st world Z :=
  let* tb := get_tcb t in
  let p := process tb in
  let* _ := get_pcb p in
  let* r := of_option (res_ tb) in
  let* new_task := TaskControlBlock_new p (ustack_base r) true in
  add_ready new_task ;*
  let* ntb := get_tcb new_task in
  let* nr := of_option (res_ ntb) in
  let new_tid := Z.to_nat (tid nr) in
  let* b := get_pcb p in
  mod_pcb p (with_tasks (<[new_tid := Some new_task]> (resize (S new_tid) None (tasks b)))) ;*
  iter_st release_task (drop (S new_tid) (tasks b)) ;*
  release_task (default None (tasks b !! new_tid)) ;*
  let* w := get in
  let c := app_init_context status entry (ustack_top nr) (kernel_token w) (KernelStack_top (kstack ntb)) user_handler in
  mod_mm (store_context (tcb_trap_cx_ppn ntb) c) ;*
  mod_mm (store_word (tcb_trap_cx_ppn ntb) 10 arg) ;*
  ret (tid nr).

(** [sys_gettid] *)
Definition sys_gettid (t : Z) : st world Z :=
  let* tb := get_tcb t in
  let* r := of_option (res_ tb) in
  ret (tid r).

(** [sys_waittid] of the current task [t] *)
Definition sys_waittid (t wtid : Z) : st world Z :=
  let* tb := get_tcb t in
  let p := process tb in
  let* b := get_pcb p in
  let* r := of_option (res_ tb) in
  if tid r =? wtid then ret (-1)
  else
    match tasks b !! Z.to_nat wtid with
    | None => panic IndexOutOfBounds
    | Some None => ret (-1)
    | Some (Some wt) =>
        let* wtb := get_tcb wt in
        match task_exit_code wtb with
        | Some code =>
            mod_pcb p (fun b => with_tasks (<[Z.to_nat wtid := None]> (tasks b)) b) ;*
            release_task (Some wt) ;*
            ret code
        | None => ret (-2)
        end
    end.
End operations.
