(* ===== verification/ProcessTree.v ===== *)
(** * The tree of processes

    What [fork], exit and [waitpid] do to the parents and children of
    processes, apart from memory and threads: a node per process, the table
    [PID2PCB] and the allocator of pids.  [tree_inv] is the invariant of this
    abstraction; [ProcessSpec.v] shows that the kernel's operations are steps
    of it. *)

From S2P Require Import Prelude FrameAllocator Process.

Record node := MkNode { n_zombie : bool; n_parent : option Z; n_children : list Z; n_exit : Z }.

Record tree := MkTree {
  nodes : gmap Z node;
  table : gset Z;
  pids : RecycleAllocator;
}.

(** ** Steps *)

Definition push_child (c : Z) (n : node) : node := MkNode (n_zombie n) (n_parent n) (n_children n ++ [c]) (n_exit n).
Definition set_parent (p : Z) (n : node) : node := MkNode (n_zombie n) (Some p) (n_children n) (n_exit n).
Definition set_children (cs : list Z) (n : node) : node := MkNode (n_zombie n) (n_parent n) cs (n_exit n).
Definition set_zombie (code : Z) (n : node) : node := MkNode true (n_parent n) (n_children n) code.

Definition t_fork (p : Z) (t : tree) : tree :=
  let (c, ids) := id_alloc (pids t) in
  MkTree (alter (push_child c) p (<[c := MkNode false (Some p) [] 0]> (nodes t))) ({[c]} ∪ table t) ids.

Definition t_adopt (cs : list Z) (ns : gmap Z node) : gmap Z node :=
  foldl (fun ns c => alter (push_child c) DAEMON (alter (set_parent DAEMON) c ns)) ns cs.

Definition t_exit (p code : Z) (cs : list Z) (t : tree) : tree :=
  MkTree (alter (set_children []) p (t_adopt cs (alter (set_zombie code) p (nodes t)))) (table t ∖ {[p]}) (pids t).

Definition t_reap (p : Z) (idx : nat) (cs : list Z) (c : Z) (ids : RecycleAllocator) (t : tree) : tree :=
  MkTree (delete c (alter (set_children (delete idx cs)) p (nodes t))) (table t) ids.

(** ** The invariant *)

(** The chain of parents of a process leads to the daemon. *)
Inductive descends (ns : gmap Z node) : Z -> Prop :=
  | descends_daemon : descends ns DAEMON
  | descends_child c n p : ns !! c = Some n -> n_parent n = Some p -> descends ns p -> descends ns c.

Record tree_inv (t : tree) : Prop := {
  ti_pids : ids_inv (pids t);
  ti_used c : id_used (pids t) c <-> is_Some (nodes t !! c);
  ti_table c : c ∈ table t <-> exists n, nodes t !! c = Some n /\ n_zombie n = false;
  ti_zombie c n : nodes t !! c = Some n -> n_zombie n = true -> n_children n = [];
  ti_child p n c : nodes t !! p = Some n -> c ∈ n_children n ->
    exists m, nodes t !! c = Some m /\ n_parent m = Some p;
  ti_nodup p n : nodes t !! p = Some n -> NoDup (n_children n);
  ti_parent c m : nodes t !! c = Some m -> c <> DAEMON ->
    exists p n, n_parent m = Some p /\ nodes t !! p = Some n /\ c ∈ n_children n;
  ti_daemon : exists n, nodes t !! DAEMON = Some n /\ n_zombie n = false /\ n_parent n = None;
  ti_root c : is_Some (nodes t !! c) -> descends (nodes t) c;
}.

(** Consequences. *)
Lemma ti_not_daemon t p n : tree_inv t -> nodes t !! p = Some n -> DAEMON ∉ n_children n.
Proof.
  intros Hi Hp Hin. destruct (ti_child t Hi p n DAEMON Hp Hin) as (m & Hm & Hpm).
  destruct (ti_daemon t Hi) as (m' & Hm' & _ & ?). congruence.
Qed.

(** No process lists itself as a child, since its parents lead elsewhere. *)
Lemma descends_self ns c n : ns !! c = Some n -> n_parent n = Some c -> c <> DAEMON -> ~ descends ns c.
Proof. intros Hc Hp Hne Hd. induction Hd as [|c n' p Hc' Hp' _ IH]; [done|]. simplify_eq. by apply IH. Qed.

Lemma ti_not_self t p n : tree_inv t -> nodes t !! p = Some n -> p ∉ n_children n.
Proof.
  intros Hi Hp Hin. destruct (decide (p = DAEMON)) as [->|Hne]; [by eapply ti_not_daemon|].
  destruct (ti_child t Hi p n p Hp Hin) as (m & Hm & Hpm). simplify_eq.
  by apply (descends_self (nodes t) p n Hp Hpm Hne), (ti_root t Hi).
Qed.

(** Only its parent lists a process as a child. *)
Lemma ti_unique t p n q m c :
  tree_inv t -> nodes t !! p = Some n -> nodes t !! q = Some m ->
  c ∈ n_children n -> c ∈ n_children m -> q = p.
Proof.
  intros Hi Hp Hq Hcp Hcq. destruct (ti_child t Hi p n c Hp Hcp) as (k & Hk & Hkp).
  destruct (ti_child t Hi q m c Hq Hcq) as (k' & Hk' & Hkq). congruence.
Qed.

Lemma ti_zombie_parent t c m p : tree_inv t -> nodes t !! c = Some m -> n_zombie m = true ->
  forall d k, nodes t !! d = Some k -> d <> DAEMON -> n_parent k = Some p -> p <> c.
Proof.
  intros Hi Hc Hz d k Hd Hne Hp ->. destruct (ti_parent t Hi d k Hd Hne) as (q & n & Hq & Hn & Hin).
  simplify_eq. rewrite (ti_zombie t Hi c m) in Hin by done. by apply not_elem_of_nil in Hin.
Qed.

(** ** Preservation *)

Section fork.
Context (t : tree) (p c : Z) (n : node).
Hypotheses (Hi : tree_inv t) (Hp : nodes t !! p = Some n) (Hz : n_zombie n = false) (Hc : nodes t !! c = None).

Let ns := alter (push_child c) p (<[c:=MkNode false (Some p) [] 0]> (nodes t)).

Lemma fork_ne : p <> c.
Proof using Hi Hp Hz Hc. intros ->. congruence. Qed.

Lemma fork_at_child : ns !! c = Some (MkNode false (Some p) [] 0).
Proof using Hi Hp Hz Hc. pose proof fork_ne. unfold ns. by rewrite lookup_alter_ne, lookup_insert_eq by done. Qed.

Lemma fork_at_parent : ns !! p = Some (push_child c n).
Proof using Hi Hp Hz Hc.
  pose proof fork_ne. unfold ns. by rewrite lookup_alter_eq, lookup_insert_ne, Hp by done.
Qed.

Lemma fork_old q m : nodes t !! q = Some m -> exists m', ns !! q = Some m' /\
  n_zombie m' = n_zombie m /\ n_parent m' = n_parent m /\ (forall d, d ∈ n_children m -> d ∈ n_children m').
Proof using Hi Hp Hz Hc.
  intros Hq. assert (q <> c) by congruence. destruct (decide (q = p)) as [->|].
  - rewrite fork_at_parent. simplify_eq. eexists. split; [done|]. cbn. split_and!; [done|done|]. set_solver.
  - exists m. unfold ns. by rewrite lookup_alter_ne, lookup_insert_ne by done.
Qed.

Lemma fork_new q m' : ns !! q = Some m' -> q <> c -> exists m, nodes t !! q = Some m /\
  n_zombie m' = n_zombie m /\ n_parent m' = n_parent m /\
  n_children m' = n_children m ++ (if decide (q = p) then [c] else []).
Proof using Hi Hp Hz Hc.
  intros Hq Hqc. destruct (decide (q = p)) as [->|Hne].
  - rewrite fork_at_parent in Hq. simplify_eq. by exists n.
  - unfold ns in Hq. rewrite lookup_alter_ne, lookup_insert_ne in Hq by done. exists m'. by rewrite app_nil_r.
Qed.

Lemma fork_children q m' d : ns !! q = Some m' -> d ∈ n_children m' ->
  exists k, ns !! d = Some k /\ n_parent k = Some q.
Proof using Hi Hp Hz Hc.
  intros Hq Hd. destruct (decide (q = c)) as [->|].
  { rewrite fork_at_child in Hq. simplify_eq. by apply not_elem_of_nil in Hd. }
  destruct (fork_new q m' Hq) as (m & Hm & _ & _ & Hch); [done|]. rewrite Hch in Hd.
  apply elem_of_app in Hd as [Hd|Hd].
  - destruct (ti_child t Hi q m d Hm Hd) as (k & Hk & Hkp). destruct (fork_old d k Hk) as (k' & ? & _ & ? & _).
    exists k'. by split; [|congruence].
  - destruct (decide (q = p)) as [->|]; [|by apply not_elem_of_nil in Hd].
    apply list_elem_of_singleton in Hd as ->. eexists. by split; [apply fork_at_child|].
Qed.

Lemma fork_nodup q m' : ns !! q = Some m' -> NoDup (n_children m').
Proof using Hi Hp Hz Hc.
  intros Hq. destruct (decide (q = c)) as [->|]; [rewrite fork_at_child in Hq; simplify_eq; constructor|].
  destruct (fork_new q m' Hq) as (m & Hm & _ & _ & ->); [done|]. pose proof (ti_nodup t Hi q m Hm) as Hnd.
  destruct (decide (q = p)) as [->|]; [|by rewrite app_nil_r].
  apply NoDup_app. split_and!; [done| |apply NoDup_singleton]. intros d Hd Hdc.
  apply list_elem_of_singleton in Hdc as ->. destruct (ti_child t Hi p m c Hm Hd) as (k & ? & _). congruence.
Qed.

Lemma fork_parents q m' : ns !! q = Some m' -> q <> DAEMON ->
  exists r k, n_parent m' = Some r /\ ns !! r = Some k /\ q ∈ n_children k.
Proof using Hi Hp Hz Hc.
  intros Hq Hqd. destruct (decide (q = c)) as [->|].
  { rewrite fork_at_child in Hq. simplify_eq. exists p, (push_child c n).
    split_and!; [done|apply fork_at_parent|]. cbn. set_solver. }
  destruct (fork_new q m' Hq) as (m & Hm & _ & Hpm & _); [done|].
  destruct (ti_parent t Hi q m Hm Hqd) as (r & k & Hr & Hk & Hin).
  destruct (fork_old r k Hk) as (k' & Hk' & _ & _ & Hsub). exists r, k'. split_and!; [congruence|done|by apply Hsub].
Qed.

Lemma fork_descends q : is_Some (ns !! q) -> descends ns q.
Proof using Hi Hp Hz Hc.
  assert (forall q, descends (nodes t) q -> descends ns q) as Hmono.
  { intros r Hd. induction Hd as [|r m s Hr Hs _ IH]; [constructor|].
    destruct (fork_old r m Hr) as (m' & ? & _ & ? & _). apply (descends_child ns r m' s); [done|congruence|done]. }
  intros [m' Hq]. destruct (decide (q = c)) as [->|].
  - apply (descends_child ns c _ p fork_at_child eq_refl), Hmono, (ti_root t Hi). by eexists.
  - destruct (fork_new q m' Hq) as (m & Hm & _); [done|]. apply Hmono, (ti_root t Hi). by eexists.
Qed.

Lemma fork_zombies q m' : ns !! q = Some m' -> n_zombie m' = true -> n_children m' = [].
Proof using Hi Hp Hz Hc.
  intros Hq Hz'. destruct (decide (q = c)) as [->|]; [rewrite fork_at_child in Hq; by simplify_eq|].
  destruct (fork_new q m' Hq) as (m & Hm & Hmz & _ & Hch); [done|].
  destruct (decide (q = p)) as [->|]; [congruence|]. rewrite Hch, app_nil_r.
  apply (ti_zombie t Hi q m Hm). congruence.
Qed.

Lemma fork_step ids :
  ids_inv ids -> (forall q, id_used ids q <-> q = c \/ id_used (pids t) q) ->
  tree_inv (MkTree ns ({[c]} ∪ table t) ids).
Proof using Hi Hp Hz Hc.
  intros Hids Hused. split; cbn [nodes table pids].
  - done.
  - intros q. rewrite Hused, (ti_used t Hi). split.
    + intros [->|[m Hm]]; [by rewrite fork_at_child|]. destruct (fork_old q m Hm) as (m' & -> & _). done.
    + intros [m' Hm']. destruct (decide (q = c)) as [->|]; [by left|]. right.
      destruct (fork_new q m' Hm') as (m & -> & _); done.
  - intros q. rewrite elem_of_union, elem_of_singleton, (ti_table t Hi). split.
    + intros [->|(m & Hm & Hmz)]; [eexists; by split; [apply fork_at_child|]|].
      destruct (fork_old q m Hm) as (m' & ? & Hz' & _). exists m'. by split; [|congruence].
    + intros (m' & Hm' & Hz'). destruct (decide (q = c)) as [->|]; [by left|]. right.
      destruct (fork_new q m' Hm') as (m & ? & ? & _); [done|]. exists m. by split; [|congruence].
  - apply fork_zombies.
  - apply fork_children.
  - apply fork_nodup.
  - apply fork_parents.
  - destruct (ti_daemon t Hi) as (m & Hm & ? & ?). destruct (fork_old DAEMON m Hm) as (m' & ? & ? & ? & _).
    exists m'. split_and!; [done|congruence|congruence].
  - apply fork_descends.
Qed.
End fork.

Lemma fork_inv t p n :
  tree_inv t -> nodes t !! p = Some n -> n_zombie n = false -> id_current (pids t) < 2 ^ 64 - 1 ->
  tree_inv (t_fork p t).
Proof.
  intros Hi Hp Hz Hb. unfold t_fork. destruct (id_alloc (pids t)) as [c ids] eqn:E.
  destruct (id_alloc_fresh (pids t) c ids (ti_pids t Hi) Hb E) as (Hids & Hfresh & _ & Hused).
  apply (fork_step t p c n); try done. apply eq_None_not_Some. by rewrite <- (ti_used t Hi).
Qed.

(** *** Exit *)

Definition adopted (cs : list Z) (q : Z) (m : node) : node :=
  if decide (q = DAEMON) then set_children (n_children m ++ cs) m
  else if decide (q ∈ cs) then set_parent DAEMON m else m.

Lemma t_adopt_lookup cs : forall ns q,
  DAEMON ∉ cs -> t_adopt cs ns !! q = adopted cs q <$> ns !! q.
Proof.
  induction cs as [|c cs IH]; intros ns q Hd.
  - change (t_adopt [] ns) with ns. destruct (ns !! q) as [[z pa ch ex]|]; cbn; [|done]. unfold adopted, set_children. cbn. rewrite app_nil_r.
    destruct (decide (q = DAEMON)); [done|]. by rewrite decide_False by apply not_elem_of_nil.
  - apply not_elem_of_cons in Hd as [Hdc Hd]. 
    change (t_adopt (c :: cs) ns) with (t_adopt cs (alter (push_child c) DAEMON (alter (set_parent DAEMON) c ns))).
    rewrite IH by done.
    unfold adopted. destruct (decide (q = DAEMON)) as [->|Hq].
    + rewrite lookup_alter_eq, lookup_alter_ne by done. destruct (ns !! DAEMON) as [m|]; [|done].
      cbn. unfold set_children, push_child. cbn. by rewrite <- app_assoc.
    + rewrite lookup_alter_ne by done. destruct (decide (q = c)) as [->|Hqc].
      * rewrite lookup_alter_eq. destruct (ns !! c) as [m|]; [|done]. cbn.
        rewrite (decide_True (P := c ∈ c :: cs)) by set_solver. by destruct (decide (c ∈ cs)).
      * rewrite lookup_alter_ne by done. destruct (ns !! q) as [m|]; [|done]. cbn.
        destruct (decide (q ∈ cs)), (decide (q ∈ c :: cs)); done || set_solver.
Qed.

Section exit.
Context (t : tree) (p code : Z) (n : node).
Hypotheses (Hi : tree_inv t) (Hp : nodes t !! p = Some n) (Hpd : p <> DAEMON).

Let cs := n_children n.
Let ns := nodes (t_exit p code cs t).

(** Every node after the exit of [p]. *)
Definition exit_node (q : Z) (m : node) : node :=
  if decide (q = p) then MkNode true (n_parent m) [] code else adopted cs q m.

Lemma exit_lookup q : ns !! q = exit_node q <$> nodes t !! q.
Proof using Hi Hp Hpd.
  pose proof (ti_not_daemon t p n Hi Hp) as Hd. pose proof (ti_not_self t p n Hi Hp) as Hs.
  unfold ns, t_exit, exit_node. cbn [nodes]. destruct (decide (q = p)) as [->|Hq].
  - rewrite lookup_alter_eq, t_adopt_lookup, lookup_alter_eq, Hp by done. cbn. unfold adopted.
    by rewrite !decide_False by done.
  - by rewrite lookup_alter_ne, t_adopt_lookup, lookup_alter_ne by done.
Qed.

Lemma exit_node_zombie q m : n_zombie (exit_node q m) = if decide (q = p) then true else n_zombie m.
Proof using. unfold exit_node, adopted. by repeat case_decide. Qed.

Lemma exit_node_parent q m :
  nodes t !! q = Some m -> n_parent (exit_node q m) = if decide (q ∈ cs) then Some DAEMON else n_parent m.
Proof using Hi Hp Hpd.
  intros Hq. pose proof (ti_not_daemon t p n Hi Hp). pose proof (ti_not_self t p n Hi Hp).
  unfold exit_node, adopted. repeat case_decide; subst; done.
Qed.

Lemma exit_node_children q m :
  n_children (exit_node q m) =
    if decide (q = p) then [] else if decide (q = DAEMON) then n_children m ++ cs else n_children m.
Proof using. unfold exit_node, adopted. by repeat case_decide. Qed.

Lemma exit_children q m d : nodes t !! q = Some m -> d ∈ n_children (exit_node q m) ->
  exists k, nodes t !! d = Some k /\ n_parent (exit_node d k) = Some q.
Proof using Hi Hp Hpd.
  intros Hq Hd. rewrite exit_node_children in Hd. destruct (decide (q = p)) as [|Hqp]; [by apply not_elem_of_nil in Hd|].
  assert (d ∈ cs /\ q = DAEMON \/ d ∈ n_children m /\ (d ∉ cs)) as [[Hdc ->]|[Hdm Hdc]].
  { destruct (decide (d ∈ n_children m)) as [Hdm|Hdm].
    - right. split; [done|]. intros Hdc. by pose proof (ti_unique t p n q m d Hi Hp Hq Hdc Hdm).
    - destruct (decide (q = DAEMON)); [|done]. left. split; [|done]. set_solver. }
  - destruct (ti_child t Hi p n d Hp Hdc) as (k & Hk & _). exists k. split; [done|].
    rewrite exit_node_parent by done. by rewrite decide_True.
  - destruct (ti_child t Hi q m d Hq Hdm) as (k & Hk & Hkp). exists k. split; [done|].
    rewrite exit_node_parent by done. by rewrite decide_False.
Qed.

Lemma exit_nodup q m : nodes t !! q = Some m -> NoDup (n_children (exit_node q m)).
Proof using Hi Hp Hpd.
  intros Hq. rewrite exit_node_children. pose proof (ti_nodup t Hi q m Hq).
  destruct (decide (q = p)); [constructor|]. destruct (decide (q = DAEMON)) as [->|]; [|done].
  apply NoDup_app. split_and!; [done| |apply (ti_nodup t Hi p n Hp)].
  intros d Hd Hdc. by pose proof (ti_unique t p n DAEMON m d Hi Hp Hq Hdc Hd).
Qed.

Lemma exit_parents q m : nodes t !! q = Some m -> q <> DAEMON ->
  exists r k, n_parent (exit_node q m) = Some r /\ nodes t !! r = Some k /\ q ∈ n_children (exit_node r k).
Proof using Hi Hp Hpd.
  intros Hq Hqd. rewrite exit_node_parent by done. destruct (decide (q ∈ cs)) as [Hc|Hc].
  - destruct (ti_daemon t Hi) as (k & Hk & _). exists DAEMON, k. split_and!; [done|done|].
    rewrite exit_node_children. rewrite decide_False, decide_True by done. set_solver.
  - destruct (ti_parent t Hi q m Hq Hqd) as (r & k & Hr & Hk & Hin). exists r, k. split_and!; [done|done|].
    rewrite exit_node_children. destruct (decide (r = p)) as [->|]; [simplify_eq; done|].
    destruct (decide (r = DAEMON)); [set_solver|done].
Qed.

Lemma exit_descends q : descends (nodes t) q -> descends ns q.
Proof using Hi Hp Hpd.
  intros Hd. induction Hd as [|q m r Hq Hr _ IH]; [constructor|].
  pose proof (exit_node_parent q m Hq) as Hpa. destruct (decide (q ∈ cs)).
  - apply (descends_child ns q (exit_node q m) DAEMON); [by rewrite exit_lookup, Hq|done|constructor].
  - apply (descends_child ns q (exit_node q m) r); [by rewrite exit_lookup, Hq|congruence|done].
Qed.

Lemma exit_inv : tree_inv (t_exit p code cs t).
Proof using Hi Hp Hpd.
  assert (forall q m', ns !! q = Some m' -> exists m, nodes t !! q = Some m /\ m' = exit_node q m) as Hn.
  { intros q m'. rewrite exit_lookup. destruct (nodes t !! q); [|done]. intros [= <-]. by eexists. }
  split; fold ns; cbn [table pids t_exit].
  - apply (ti_pids t Hi).
  - intros q. by rewrite (ti_used t Hi), exit_lookup, fmap_is_Some.
  - intros q. rewrite elem_of_difference, not_elem_of_singleton, (ti_table t Hi). split.
    + intros [(m & Hm & Hz) Hne]. exists (exit_node q m). rewrite exit_lookup, Hm, exit_node_zombie.
      by rewrite decide_False.
    + intros (m' & Hm' & Hz). destruct (Hn q m' Hm') as (m & Hm & ->). rewrite exit_node_zombie in Hz.
      destruct (decide (q = p)); [done|]. split; [by exists m|done].
  - intros q m' Hq Hz. destruct (Hn q m' Hq) as (m & Hm & ->). rewrite exit_node_zombie in Hz.
    rewrite exit_node_children. destruct (decide (q = p)); [done|]. destruct (decide (q = DAEMON)) as [->|].
    + destruct (ti_daemon t Hi) as (k & Hk & ? & _). congruence.
    + by apply (ti_zombie t Hi q m).
  - intros q m' d Hq Hd. destruct (Hn q m' Hq) as (m & Hm & ->).
    destruct (exit_children q m d Hm Hd) as (k & Hk & Hkp). exists (exit_node d k). by rewrite exit_lookup, Hk.
  - intros q m' Hq. destruct (Hn q m' Hq) as (m & Hm & ->). by apply exit_nodup.
  - intros q m' Hq Hqd. destruct (Hn q m' Hq) as (m & Hm & ->).
    destruct (exit_parents q m Hm Hqd) as (r & k & Hr & Hk & Hin). exists r, (exit_node r k).
    by rewrite exit_lookup, Hk.
  - destruct (ti_daemon t Hi) as (k & Hk & Hz & Hnp). exists (exit_node DAEMON k).
    rewrite exit_lookup, Hk, exit_node_zombie, exit_node_parent by done.
    rewrite (decide_False (P := DAEMON ∈ cs)) by (by apply (ti_not_daemon t p n)). by rewrite decide_False.
  - intros q [m' Hq]. destruct (Hn q m' Hq) as (m & Hm & _). apply exit_descends, (ti_root t Hi). by eexists.
Qed.
End exit.

(** *** Reaping *)

(** Removing an entry of a list without duplicates. *)
Lemma delete_elem (l : list Z) i c d :
  NoDup l -> l !! i = Some c -> d ∈ delete i l <-> d ∈ l /\ d <> c.
Proof.
  intros Hnd Hi. rewrite (delete_Permutation _ _ _ Hi) in Hnd. apply NoDup_cons in Hnd as [Hnin _].
  rewrite (delete_Permutation l i c Hi) at 2. rewrite elem_of_cons.
  split; [intros Hd; split; [by right|by intros ->]|tauto].
Qed.

Section reap.
Context (t : tree) (p c : Z) (n m : node) (idx : nat) (ids : RecycleAllocator).
Hypotheses (Hi : tree_inv t) (Hp : nodes t !! p = Some n) (Hidx : n_children n !! idx = Some c).
Hypotheses (Hc : nodes t !! c = Some m) (Hz : n_zombie m = true).
Hypotheses (Hids : ids_inv ids) (Hused : forall q, id_used ids q <-> q <> c /\ id_used (pids t) q).

Let ns := nodes (t_reap p idx (n_children n) c ids t).

Definition reap_node (q : Z) (k : node) : node :=
  if decide (q = p) then set_children (delete idx (n_children n)) k else k.

Lemma reap_lookup q : q <> c -> ns !! q = reap_node q <$> nodes t !! q.
Proof using.
  intros Hq. unfold ns, t_reap, reap_node. cbn [nodes]. rewrite lookup_delete_ne by done.
  destruct (decide (q = p)) as [->|]; [by rewrite lookup_alter_eq|].
  rewrite lookup_alter_ne by done. by destruct (nodes t !! q).
Qed.

Lemma reap_gone : ns !! c = None.
Proof using. unfold ns, t_reap. cbn [nodes]. apply lookup_delete_eq. Qed.

Lemma reap_old q k' : ns !! q = Some k' -> q <> c /\ exists k, nodes t !! q = Some k /\ k' = reap_node q k.
Proof using.
  intros Hq. destruct (decide (q = c)) as [->|Hqc]; [by rewrite reap_gone in Hq|]. split; [done|].
  rewrite reap_lookup in Hq by done. destruct (nodes t !! q); [|done]. injection Hq as <-. by eexists.
Qed.

Lemma reap_node_same q k : n_zombie (reap_node q k) = n_zombie k /\ n_parent (reap_node q k) = n_parent k.
Proof using. unfold reap_node. by case_decide. Qed.

Lemma reap_node_children q k d :
  nodes t !! q = Some k -> d ∈ n_children (reap_node q k) <-> d ∈ n_children k /\ d <> c.
Proof using Hi Hp Hidx Hc Hz Hids Hused.
  intros Hq. unfold reap_node. case_decide as E; [subst; simplify_eq; cbn; apply delete_elem; [by apply (ti_nodup t Hi p)|done]|].
  split; [|tauto]. intros Hd. split; [done|]. intros ->. apply E.
  apply (ti_unique t p n q k c Hi Hp Hq); [by eapply list_elem_of_lookup_2|done].
Qed.

Lemma c_not_daemon : c <> DAEMON.
Proof using Hi Hp Hidx Hc Hz Hids Hused.
  intros ->. apply (ti_not_daemon t p n Hi Hp). by eapply list_elem_of_lookup_2.
Qed.

Lemma reap_descends q : descends (nodes t) q -> q <> c -> descends ns q.
Proof using Hi Hp Hidx Hc Hz Hids Hused.
  intros Hd. induction Hd as [|q k r Hq Hr _ IH]; [constructor|]. intros Hqc.
  destruct (decide (q = DAEMON)) as [->|Hqd]; [constructor|].
  apply (descends_child ns q (reap_node q k) r); [by rewrite reap_lookup, Hq|by rewrite (proj2 (reap_node_same q k))|].
  apply IH. by apply (ti_zombie_parent t c m r Hi Hc Hz q k).
Qed.

Lemma reap_inv : tree_inv (t_reap p idx (n_children n) c ids t).
Proof using Hi Hp Hidx Hc Hz Hids Hused.
  pose proof c_not_daemon as Hcd. split; fold ns; cbn [table pids t_reap].
  - done.
  - intros q. rewrite Hused, (ti_used t Hi). destruct (decide (q = c)) as [->|Hq].
    + rewrite reap_gone. split; [by intros [? _]|by intros [? ?]].
    + rewrite reap_lookup, fmap_is_Some by done. tauto.
  - intros q. rewrite (ti_table t Hi). split.
    + intros (k & Hk & Hkz). assert (q <> c) by congruence. exists (reap_node q k).
      rewrite reap_lookup, Hk by done. split; [done|]. by rewrite (proj1 (reap_node_same q k)).
    + intros (k' & Hk' & Hkz). destruct (reap_old q k' Hk') as (_ & k & Hk & ->). exists k. split; [done|].
      by rewrite (proj1 (reap_node_same q k)) in Hkz.
  - intros q k' Hq Hkz. destruct (reap_old q k' Hq) as (_ & k & Hk & ->).
    rewrite (proj1 (reap_node_same q k)) in Hkz. pose proof (ti_zombie t Hi q k Hk Hkz) as Hn.
    unfold reap_node. case_decide; [|done]. subst. simplify_eq. by rewrite Hn in Hidx.
  - intros q k' d Hq Hd. destruct (reap_old q k' Hq) as (_ & k & Hk & ->).
    apply reap_node_children in Hd as [Hd Hdc]; [|done]. destruct (ti_child t Hi q k d Hk Hd) as (j & Hj & Hjp).
    exists (reap_node d j). rewrite reap_lookup, Hj by done. split; [done|]. by rewrite (proj2 (reap_node_same d j)).
  - intros q k' Hq. destruct (reap_old q k' Hq) as (_ & k & Hk & ->). pose proof (ti_nodup t Hi q k Hk) as Hnd.
    unfold reap_node. case_decide; [|done]. cbn. subst. simplify_eq.
    apply (sublist_NoDup _ _ Hnd), sublist_delete.
  - intros q k' Hq Hqd. destruct (reap_old q k' Hq) as (Hqc & k & Hk & ->).
    destruct (ti_parent t Hi q k Hk Hqd) as (r & j & Hr & Hj & Hin).
    assert (r <> c) by (by apply (ti_zombie_parent t c m r Hi Hc Hz q k)).
    exists r, (reap_node r j). rewrite reap_lookup, Hj by done.
    split_and!; [by rewrite (proj2 (reap_node_same q k))|done|]. by apply reap_node_children.
  - destruct (ti_daemon t Hi) as (k & Hk & Hkz & Hkp). exists (reap_node DAEMON k).
    destruct (reap_node_same DAEMON k) as [-> ->]. by rewrite reap_lookup, Hk.
  - intros q [k' Hq]. destruct (reap_old q k' Hq) as (Hqc & k & Hk & _).
    apply reap_descends; [|done]. apply (ti_root t Hi). by eexists.
Qed.
End reap.

(** *** The first process *)

Lemma first_process ids :
  id_alloc RecycleAllocator_new = (DAEMON, ids) ->
  tree_inv (MkTree {[DAEMON := MkNode false None [] 0]} {[DAEMON]} ids).
Proof.
  intros [= <-]. split; cbn [nodes table pids].
  - split; [by vm_compute|constructor|constructor].
  - intros c. assert (id_used (MkIds 1 []) c <-> c = DAEMON) as Hu.
    { unfold id_used, DAEMON. cbn. pose proof (not_elem_of_nil c). split; [intros [? _]; lia|]. intros ->. split; [lia|done]. }
    change (MkIds _ _) with (MkIds 1 []). rewrite Hu. destruct (decide (c = DAEMON)) as [->|Hc].
    + by rewrite lookup_singleton_eq.
    + rewrite lookup_singleton_ne by done. split; [done|by intros [? ?]].
  - intros c. rewrite elem_of_singleton. split; [intros ->; by eexists|].
    intros (n & Hn & _). by apply lookup_singleton_Some in Hn as [<- _].
  - intros c n Hn. by apply lookup_singleton_Some in Hn as [_ <-].
  - intros p n c Hn Hc. apply lookup_singleton_Some in Hn as [_ <-]. by apply not_elem_of_nil in Hc.
  - intros p n Hn. apply lookup_singleton_Some in Hn as [_ <-]. constructor.
  - intros c m Hn. by apply lookup_singleton_Some in Hn as [<- _].
  - eexists. by rewrite lookup_singleton_eq.
  - intros c [n Hn]. apply lookup_singleton_Some in Hn as [<- _]. constructor.
Qed.
