(* ===== verification/ProcessSpec.v ===== *)
(** * Correctness of process management

    [view] forgets all of a [world] but its tree of processes.  The kernel's
    operations are steps of [ProcessTree.v] under [view]; those that work on
    memory, threads and signals leave it alone.  So the invariant of the tree
    holds in every state the kernel reaches, and gives what [waitpid] and exit
    promise. *)

From S2P Require Import Prelude Config Bytes BlockStore Bitmap Layout Efs Vfs.
From S2P Require Import StateMonad Address FrameAllocator PageTable MemorySet TaskId.
From S2P Require Import PageTableSpec MemorySetSpec Process ProcessTree.

Definition node_of (b : pcb) : node := MkNode (is_zombie b) (parent b) (children b) (exit_code b).
Definition view (w : world) : tree := MkTree (node_of <$> procs w) (pid2process w) (pid_allocator w).

(** ** Operations that leave the tree alone *)

Abbreviation keeps := (moves (eq_on view)).

Lemma view_alter f p w : (forall b, node_of (f b) = node_of b) -> view (set_procs (alter f p (procs w)) w) = view w.
Proof.
  intros Hf. unfold view. cbn [procs pid2process pid_allocator set_procs]. f_equal.
  apply map_eq. intros q. rewrite !lookup_fmap. destruct (decide (q = p)) as [->|Hq].
  - rewrite lookup_alter_eq. destruct (procs w !! p); [|done]. cbn. by rewrite Hf.
  - by rewrite lookup_alter_ne.
Qed.

Lemma keeps_get_pcb p : keeps (get_pcb p).
Proof. intros w b w' E. unfold get_pcb in E. by inv_res. Qed.
Lemma keeps_get_tcb t : keeps (get_tcb t).
Proof. intros w b w' E. unfold get_tcb in E. by inv_res. Qed.
Lemma keeps_mod_pcb p f : (forall b, node_of (f b) = node_of b) -> keeps (mod_pcb p f).
Proof. intros Hf w b w' [= _ <-]. by apply view_alter. Qed.
Lemma keeps_mod_tcb t f : keeps (mod_tcb t f).
Proof. intros w b w' [= _ <-]. done. Qed.
Lemma keeps_mod_mm f : keeps (mod_mm f).
Proof. intros w b w' [= _ <-]. done. Qed.
Lemma keeps_on_fs {A} (f : prog A) : keeps (on_fs f).
Proof. intros w b w' E. unfold on_fs in E. inv_res. destruct a. by simplify_eq. Qed.
Lemma keeps_on_mm {A} (f : st mm A) : keeps (on_mm f).
Proof. intros w b w' E. unfold on_mm in E. inv_res. destruct a. by simplify_eq. Qed.
Lemma keeps_on_kernel {A} (f : st kstacks A) : keeps (on_kernel f).
Proof. intros w b w' E. unfold on_kernel in E. inv_res. destruct a. by simplify_eq. Qed.
Lemma keeps_add_ready t : keeps (add_ready t).
Proof. intros w b w' [= _ <-]. done. Qed.
Lemma keeps_set_tcbs g : keeps (modify (fun w => set_tcbs (g w) w)).
Proof. intros w b w' [= _ <-]. done. Qed.

Lemma nodes_insert p b b' (ps : gmap Z pcb) :
  ps !! p = Some b -> node_of b' = node_of b -> node_of <$> <[p := b']> ps = node_of <$> ps.
Proof. intros Hp Hn. rewrite fmap_insert, Hn. apply insert_id. by rewrite lookup_fmap, Hp. Qed.

Lemma keeps_on_proc_mem {A} p (f : st proc_mem A) : keeps (on_proc_mem p f).
Proof.
  intros w b w' E. unfold on_proc_mem in E. inv_res. destruct a0 as [a0 s]. simplify_eq.
  unfold eq_on, view. cbn. f_equal. by apply (nodes_insert p a).
Qed.

#[export] Hint Resolve
  keeps_get_pcb keeps_get_tcb keeps_mod_tcb keeps_mod_mm keeps_on_fs keeps_on_mm keeps_on_kernel keeps_on_proc_mem
  keeps_add_ready keeps_set_tcbs : moves.
#[export] Hint Extern 1 (moves (eq_on view) (mod_pcb _ _)) => apply keeps_mod_pcb; done : moves.

#[export] Hint Extern 1 (moves (eq_on view) (iter_st _ _)) => apply moves_iter; solve [eauto with moves] : moves.

Lemma keeps_new_tcb p base b : keeps (TaskControlBlock_new p base b).
Proof. unfold TaskControlBlock_new. follow. intros w c w' [= _ <-]. done. Qed.
Lemma keeps_drop_tcb t : keeps (drop_tcb t).
Proof. unfold drop_tcb. follow. Qed.
#[export] Hint Resolve keeps_new_tcb keeps_drop_tcb : moves.
Lemma keeps_release_task o : keeps (release_task o).
Proof. unfold release_task. follow. Qed.
#[export] Hint Resolve keeps_release_task : moves.
Lemma keeps_store_user token va bs : keeps (store_user token va bs).
Proof. unfold store_user. follow. Qed.
#[export] Hint Resolve keeps_store_user : moves.
Lemma keeps_store_string token p bs : keeps (store_string token p bs).
Proof. revert p. induction bs; cbn [store_string]; follow. Qed.
#[export] Hint Resolve keeps_store_string : moves.
Lemma keeps_push_args token args : forall argv sp, keeps (push_args token args argv sp).
Proof. induction args; intros [|pa argv] sp; cbn [push_args]; follow. Qed.
#[export] Hint Resolve keeps_push_args : moves.
Lemma keeps_take_all_res ts : keeps (take_all_res ts).
Proof. induction ts as [|[t|] ts IH]; cbn [take_all_res]; follow. Qed.
#[export] Hint Resolve keeps_take_all_res : moves.

Section operations.
Context (sym : symbols) (ElfFile_new : list u8 -> option ElfFile) (user_handler status : Z) (prc : Inode).

Lemma keeps_exec p elf args : keeps (exec sym ElfFile_new user_handler status prc p elf args).
Proof. unfold exec, write_args. follow. Qed.
Lemma keeps_thread_create t entry arg : keeps (sys_thread_create user_handler status t entry arg).
Proof. unfold sys_thread_create. follow. Qed.
Lemma keeps_waittid t wtid : keeps (sys_waittid t wtid).
Proof. unfold sys_waittid. follow. Qed.
Lemma keeps_kill pid signal : keeps (sys_kill pid signal).
Proof.
  intros w a w'. unfold sys_kill. repeat case_match; try (intros [= _ <-]; done).
  assert (keeps (mod_pcb pid (fun b => with_signals (Z.lor (signals b) z) b) ;* ret 0)) as Hk by follow. apply Hk.
Qed.
End operations.

(** ** Operations that change the tree *)

Definition t_put (c : Z) (n : node) (t : tree) : tree := MkTree (<[c := n]> (nodes t)) (table t) (pids t).
Definition t_alter (f : node -> node) (p : Z) (t : tree) : tree := MkTree (alter f p (nodes t)) (table t) (pids t).

Lemma view_put c b w : view (set_procs (<[c := b]> (procs w)) w) = t_put c (node_of b) (view w).
Proof. unfold view, t_put. cbn. by rewrite fmap_insert. Qed.

Lemma view_mod p f g w u w' :
  mod_pcb p f w = Ok (u, w') -> (forall b, node_of (f b) = g (node_of b)) -> view w' = t_alter g p (view w).
Proof.
  intros [= _ <-] Hf. unfold view, t_alter. cbn. f_equal. by apply fmap_alter.
Qed.

Lemma view_lookup w p b : procs w !! p = Some b -> nodes (view w) !! p = Some (node_of b).
Proof. intros Hp. cbn. by rewrite lookup_fmap, Hp. Qed.

Lemma view_lookup_inv w p n : nodes (view w) !! p = Some n -> exists b, procs w !! p = Some b /\ n = node_of b.
Proof. cbn. rewrite lookup_fmap. destruct (procs w !! p) as [b|]; [|done]. intros [= <-]. by eexists. Qed.

Lemma get_pcb_run p w b w' : get_pcb p w = Ok (b, w') -> procs w !! p = Some b /\ w' = w.
Proof. unfold get_pcb. intros E. by inv_res. Qed.

Lemma pid_alloc_run w c w' :
  pid_alloc w = Ok (c, w') ->
  c = (id_alloc (pid_allocator w)).1 /\
  view w' = MkTree (nodes (view w)) (table (view w)) (id_alloc (pids (view w))).2.
Proof. unfold pid_alloc. destruct (id_alloc (pid_allocator w)) as [i ids] eqn:Ei. intros [= <- <-]. unfold view. cbn. by rewrite Ei. Qed.

(** Replace each step that keeps the tree by the equality of the views. *)
Ltac track :=
  repeat match goal with
  | E : ?m ?w = Ok (?a, ?w') |- _ =>
      lazymatch type of w with world => idtac end;
      let K := fresh "K" in
      assert (keeps m) as K by (eauto 2 with moves);
      apply K in E; unfold eq_on in E; clear K
  end.

Lemma fork_run sym root prc p w pid w' :
  fork sym root prc p w = Ok (pid, w') ->
  view w' = t_fork p (view w) /\ is_Some (procs w !! p) /\ pid = (id_alloc (pid_allocator w)).1.
Proof.
  intros E. unfold fork in E. inv_st. apply get_pcb_run in E0 as [Hp ->].
  apply pid_alloc_run in E3 as [Hpid V2].
  apply (view_mod _ _ (push_child pid)) in E5 as V4; [|done]. rewrite view_put in V4.
  injection E13 as _ <-. track. 
  assert (pid_allocator s1 = pid_allocator w) as Hids by (by apply (f_equal pids) in E2).
  rewrite Hids in Hpid. split_and!; [|by eexists|done].
  assert (view w' = MkTree (nodes (view s9)) ({[pid]} ∪ table (view s9)) (pids (view s9))) as ->.
  { rewrite E15, E14, <- E11, <- E12. done. }
  rewrite E10, E9, E7, V4, V2, E2. unfold t_fork. rewrite (surjective_pairing (id_alloc (pids (view w)))).
  cbn [pids view]. by rewrite <- Hpid.
Qed.

Lemma nodes_adopt cs : forall ps, node_of <$> adopt cs ps = t_adopt cs (node_of <$> ps).
Proof.
  induction cs as [|c cs IH]; intros ps; [done|].
  change (t_adopt (c :: cs) (node_of <$> ps)) with
    (t_adopt cs (alter (push_child c) DAEMON (alter (set_parent DAEMON) c (node_of <$> ps)))).
  rewrite <- (fmap_alter node_of (with_parent (Some DAEMON)) (set_parent DAEMON)) by done.
  rewrite <- (fmap_alter node_of (fun d => with_children (children d ++ [c]) d) (push_child c)) by done.
  by rewrite <- IH.
Qed.

Lemma exit_process_run p code w u w' :
  exit_process p code w = Ok (u, w') ->
  p ∈ pid2process w /\
  exists b, procs w !! p = Some b /\ view w' = t_exit p code (children b) (view w).
Proof.
  intros E. unfold exit_process, remove_from_pid2process in E. inv_st. reflect_bools.
  apply get_pcb_run in E1 as [Hp ->]. cbn in Hp.
  apply (view_mod _ _ (set_zombie code)) in E2 as V2; [|done].
  apply (view_mod _ _ (set_children [])) in E6 as V6; [|done]. track.
  apply bool_decide_eq_true in E10. split; [done|]. exists a0. split; [done|].
  rewrite E, E9, E8, E7, V6, E5, E4. unfold t_exit, t_alter. cbn [nodes table pids view set_procs procs pid2process pid_allocator].
  rewrite nodes_adopt. apply (f_equal nodes) in V2 as Vn. apply (f_equal table) in V2 as Vt. apply (f_equal pids) in V2 as Vp.
  cbn in Vn, Vt, Vp. by rewrite Vn, Vt, Vp.
Qed.

Lemma drop_pcb_run prc c w u w' :
  drop_pcb prc c w = Ok (u, w') ->
  exists ids, id_dealloc (pid_allocator w) c = Ok ids /\
    view w' = MkTree (delete c (nodes (view w))) (table (view w)) ids.
Proof.
  intros E. unfold drop_pcb in E. inv_st. apply get_pcb_run in E0 as [Hp ->]. track.
  exists a3. change (pid_allocator w) with (pids (view w)). rewrite <- E1. split; [done|].
  rewrite E, E3. unfold view. cbn. by rewrite fmap_delete.
Qed.

(** The child that [waitpid] takes. *)
Lemma find_zombie_Some ps pid cs : forall idx c,
  find_zombie ps pid cs = Some (idx, c) ->
  cs !! idx = Some c /\ pid_matches pid c = true /\ exists b, ps !! c = Some b /\ is_zombie b = true /\
    forall j d e, (j < idx)%nat -> cs !! j = Some d -> pid_matches pid d = true -> ps !! d = Some e -> is_zombie e = false.
Proof.
  induction cs as [|d cs IH]; intros idx c E; [done|]. cbn [find_zombie] in E.
  destruct (_ && _) eqn:Hd.
  - simplify_eq. apply andb_prop in Hd as [Hz Hm]. destruct (ps !! c) as [b|] eqn:Hb; [|done].
    split_and!; [done|done|]. exists b. split_and!; [done|done|]. lia.
  - destruct (find_zombie ps pid cs) as [[i e]|]; [|done]. simplify_eq.
    destruct (IH i c eq_refl) as (H1 & H2 & b & H3 & H4 & H5). split_and!; [done|done|]. exists b. split_and!; [done|done|].
    intros [|j] d' e Hj Hd' Hm He; [|by eapply (H5 j); [lia|..]]. cbn in Hd'. simplify_eq. rewrite He, Hm in Hd. by destruct (is_zombie e).
Qed.

Lemma find_zombie_None ps pid cs :
  find_zombie ps pid cs = None <->
  forall c b, c ∈ cs -> ps !! c = Some b -> pid_matches pid c = true -> is_zombie b = false.
Proof.
  induction cs as [|d cs IH]; cbn [find_zombie].
  { split; [|done]. intros _ c b Hc. by apply not_elem_of_nil in Hc. }
  split.
  - intros E c b Hc Hb Hm. destruct (_ && _) eqn:Hd; [done|].
    destruct (find_zombie ps pid cs) as [[]|]; [done|]. apply elem_of_cons in Hc as [->|Hc]; [|by apply (proj1 IH eq_refl c)].
    rewrite Hb, Hm, andb_true_r in Hd. done.
  - intros H. destruct (_ && _) eqn:Hd.
    + apply andb_prop in Hd as [Hz Hm]. destruct (ps !! d) as [b|] eqn:Hb; [|done].
      rewrite (H d b) in Hz; [done|by left|done|done].
    + rewrite (proj2 IH); [done|]. intros c b Hc. apply H. by right.
Qed.

(** [exit_current_and_run_next] on the tree *)
Lemma exit_run t code w e w' tb r :
  exit_current_and_run_next t code w = Ok (e, w') -> tcbs w !! t = Some tb -> res_ tb = Some r ->
  if (tid r =? 0) && negb (process tb =? IDLE_PID) then
    e = Scheduled /\ process tb ∈ pid2process w /\
    exists b, procs w !! process tb = Some b /\ view w' = t_exit (process tb) code (children b) (view w)
  else view w' = view w.
Proof.
  intros E Ht Hr. unfold exit_current_and_run_next in E. inv_st. unfold get_tcb in E0. inv_res.
  assert (a = tb) as -> by congruence. assert (a1 = r) as -> by congruence. apply get_pcb_run in E1 as [Hp ->].
  destruct (tid r =? 0); cbn [andb]; [destruct (process tb =? IDLE_PID); cbn [negb]|]; inv_st;
    apply keeps_mod_tcb in E3; apply keeps_on_proc_mem in E4; unfold eq_on in E3, E4; rewrite E3 in E4; [done| |done].
  match goal with H : exit_process _ _ _ = _ |- _ => apply exit_process_run in H as (Hin & b & Hb & Hv) end.
  apply view_lookup in Hb. split; [done|]. split.
  - apply (f_equal table) in E4. cbn in E4. by rewrite <- E4.
  - rewrite E4 in Hb. destruct (view_lookup_inv _ _ _ Hb) as (b0 & Hb0 & Hn). exists b0. split; [done|].
    rewrite Hv, E4. by injection Hn as _ _ -> _.
Qed.

(** [sys_waitpid] on the tree *)
Lemma waitpid_run prc held p pid ptr w r w' b :
  sys_waitpid prc held p pid ptr w = Ok (r, w') -> procs w !! p = Some b ->
  view w' = view w \/
  exists idx ids, find_zombie (procs w) pid (children b) = Some (idx, r) /\
    id_dealloc (pid_allocator w) r = Ok ids /\ view w' = t_reap p idx (children b) r ids (view w).
Proof.
  intros E Hp. unfold sys_waitpid in E. inv_st. apply get_pcb_run in E0 as [Hb ->].
  assert (a = b) as -> by congruence. destruct (negb _); [left; by inv_st|]. inv_st.
  destruct (find_zombie _ _ _) as [[idx c]|]; [|left; by inv_st]. inv_st. right.
  apply get_pcb_run in E3 as [Hc ->]. apply keeps_store_user in E4. unfold eq_on in E4. apply drop_pcb_run in E5 as (ids & Hids & V).
  apply (view_mod _ _ (set_children (delete idx (children b)))) in E0 as V0; [|done].
  rewrite V0 in E4. exists idx, ids. split; [done|]. split.
  - apply (f_equal pids) in E4. cbn in E4. by rewrite <- E4.
  - by rewrite V, E4.
Qed.

(** What a call that returned has found. *)
Lemma exit_found t code w e w' :
  exit_current_and_run_next t code w = Ok (e, w') ->
  exists tb r, tcbs w !! t = Some tb /\ res_ tb = Some r.
Proof.
  intros E. unfold exit_current_and_run_next in E. apply st_bind_inv in E as (tb & s & E0 & E).
  unfold get_tcb in E0. inv_st. apply get_pcb_run in E1 as [_ ->]. by exists tb, a0.
Qed.

Lemma waitpid_found prc held p pid ptr w r w' : sys_waitpid prc held p pid ptr w = Ok (r, w') -> exists b, procs w !! p = Some b.
Proof.
  intros E. unfold sys_waitpid in E. apply st_bind_inv in E as (b & s & E0 & _).
  apply get_pcb_run in E0 as [Hp _]. by exists b.
Qed.

(** ** Every run *)

(** A step of the kernel on processes.  The caller of [fork] has not exited,
    and the 64-bit pids are not used up. *)
Inductive proc_step (sym : symbols) (elf : list u8 -> option ElfFile) (handler status : Z)
    (root prc : Inode) : world -> world -> Prop :=
  | step_fork p b w pid w' :
      procs w !! p = Some b -> is_zombie b = false -> id_current (pid_allocator w) < 2 ^ 64 - 1 ->
      sys_fork sym root prc p w = Ok (pid, w') -> proc_step sym elf handler status root prc w w'
  | step_exec p data args w u w' :
      exec sym elf handler status prc p data args w = Ok (u, w') -> proc_step sym elf handler status root prc w w'
  | step_exit t code w e w' :
      exit_current_and_run_next t code w = Ok (e, w') -> proc_step sym elf handler status root prc w w'
  | step_waitpid held p pid ptr w r w' :
      sys_waitpid prc held p pid ptr w = Ok (r, w') -> proc_step sym elf handler status root prc w w'
  | step_kill pid signal w r w' :
      sys_kill pid signal w = Ok (r, w') -> proc_step sym elf handler status root prc w w'
  | step_thread_create t entry arg w r w' :
      sys_thread_create handler status t entry arg w = Ok (r, w') -> proc_step sym elf handler status root prc w w'
  | step_waittid t wtid w r w' :
      sys_waittid t wtid w = Ok (r, w') -> proc_step sym elf handler status root prc w w'.

(** The kernel before its first process. *)
Definition booting (k : kstacks) (d : disk) : world := MkWorld ∅ ∅ 0 ∅ RecycleAllocator_new [] k d.

Ltac views := repeat match goal with H : view ?w = _ |- context [view ?w] => rewrite H; clear H end.

Lemma sys_fork_run sym root prc p w pid w' :
  sys_fork sym root prc p w = Ok (pid, w') -> view w' = t_fork p (view w) /\ is_Some (procs w !! p).
Proof.
  intros E. unfold sys_fork in E. inv_st. track. apply fork_run in E0 as (V & Hp & _).
  by views.
Qed.

Lemma proc_step_inv sym elf handler status root prc w w' :
  proc_step sym elf handler status root prc w w' -> tree_inv (view w) -> tree_inv (view w').
Proof.
  intros Hs Hi. destruct Hs as [p b w pid w' Hb Hz Hlt E| | t code w e w' E|held p pid ptr w r w' E| | |].
  - destruct (sys_fork_run _ _ _ _ _ _ _ E) as (-> & _). by apply (fork_inv _ p (node_of b)); [|apply view_lookup|..].
  - by rewrite (keeps_exec _ _ _ _ _ _ _ _ _ _ _ H).
  - destruct (exit_found _ _ _ _ _ E) as (tb & r & Ht & Hr). pose proof (exit_run _ _ _ _ _ _ _ E Ht Hr) as V.
    destruct (tid r =? 0); cbn [andb] in V; [|by rewrite V].
    destruct (Z.eqb_spec (process tb) IDLE_PID) as [|Hne]; cbn [negb] in V; [by rewrite V|].
    destruct V as (_ & _ & b & Hb & ->). by apply (exit_inv (view w) _ _ (node_of b)); [|apply view_lookup|].
  - destruct (waitpid_found _ _ _ _ _ _ _ _ E) as (b & Hp).
    destruct (waitpid_run _ _ _ _ _ _ _ _ _ E Hp) as [->|(idx & ids & Hf & Hd & ->)]; [done|].
    apply find_zombie_Some in Hf as (Hidx & _ & cb & Hc & Hz & _).
    assert (id_used (pid_allocator w) r) as Hu by (apply (ti_used _ Hi); eexists; by apply view_lookup).
    destruct (id_dealloc_used _ _ (ti_pids _ Hi) Hu) as (ids' & Hd' & Hids & Hused).
    change (pids (view w)) with (pid_allocator w) in Hd'. assert (ids' = ids) as -> by congruence.
    by apply (reap_inv (view w) p r (node_of b) (node_of cb) idx ids); try done; try apply view_lookup.
  - by rewrite (keeps_kill _ _ _ _ _ H).
  - by rewrite (keeps_thread_create _ _ _ _ _ _ _ _ H).
  - by rewrite (keeps_waittid _ _ _ _ _ H).
Qed.

Lemma proc_steps_inv sym elf handler status root prc w w' :
  rtc (proc_step sym elf handler status root prc) w w' -> tree_inv (view w) -> tree_inv (view w').
Proof.
  intros Hr. induction Hr as [|w1 w2 w3 Hs _ IH]; [done|]. intros Hi.
  by apply IH, (proc_step_inv sym elf handler status root prc w1).
Qed.

Lemma first_process_inv sym elf handler status data k d pid w :
  ProcessControlBlock_new sym elf handler status data (booting k d) = Ok (pid, w) ->
  pid = DAEMON /\ tree_inv (view w).
Proof.
  intros E. unfold ProcessControlBlock_new in E. apply st_bind_inv in E as ([[ms base] entry] & s & E0 & E).
  inv_st. apply keeps_on_mm in E0. unfold eq_on in E0. apply pid_alloc_run in E1 as [Hpid V1].
  match goal with H : insert_into_pid2process _ _ = _ |- _ => injection H as _ <- end. track.
  assert (pid_allocator s = RecycleAllocator_new) as Hs by (by apply (f_equal pids) in E0).
  rewrite Hs in Hpid. split; [by rewrite Hpid|]. rewrite view_put in E3.
  assert (view w = MkTree (nodes (view s7)) ({[pid]} ∪ table (view s7)) (pids (view s7))) as -> by (by rewrite E10).
  views. assert (pid = DAEMON) as -> by done. unfold t_put. cbn [nodes table pids view booting procs pid2process pid_allocator].
  rewrite fmap_empty, insert_empty, (right_id_L ∅ (∪)). by apply first_process.
Qed.

(** C5: from the first process on, whatever forks, exits, waits, signals,
    program loads and thread calls the processes make, the processes form a
    tree: pids in use are those of the processes that exist, [PID2PCB] holds
    exactly the processes that have not exited, children and parents agree
    with no child listed twice, a process that has exited has no children, and
    the daemon is an ancestor of every process. *)
Theorem process_tree sym elf handler status root prc data k d pid w0 w :
  ProcessControlBlock_new sym elf handler status data (booting k d) = Ok (pid, w0) ->
  rtc (proc_step sym elf handler status root prc) w0 w ->
  tree_inv (view w).
Proof.
  intros E Hr. apply first_process_inv in E as [_ Hi]. by apply (proc_steps_inv _ _ _ _ _ _ _ _ Hr).
Qed.

(** ** [waitpid] *)

Lemma strong_count_one w p b idx c cb u w1 :
  tree_inv (view w) -> procs w !! p = Some b -> children b !! idx = Some c ->
  procs w !! c = Some cb -> is_zombie cb = true ->
  mod_pcb p (with_children (delete idx (children b))) w = Ok (u, w1) ->
  strong_count w1 c = 1%nat.
Proof.
  intros Hi Hp Hidx Hc Hz [= _ <-]. unfold strong_count. cbn [procs pid2process set_procs].
  rewrite decide_False.
  2:{ change (c ∉ table (view w)). rewrite (ti_table _ Hi). intros (n & Hn & Hnz).
      apply view_lookup in Hc. rewrite Hc in Hn. injection Hn as <-. cbn in Hnz. congruence. }
  rewrite filter_none; [done|]. intros d Hd ->. unfold child_refs in Hd.
  apply list_elem_of_bind in Hd as ([q b'] & Hcq & Hq). apply elem_of_map_to_list in Hq. cbn [snd] in Hcq.
  destruct (decide (q = p)) as [->|Hqp].
  - rewrite lookup_alter_eq, Hp in Hq. injection Hq as <-. cbn in Hcq.
    apply (delete_elem _ _ c) in Hcq as [_ ?]; [done| |done].
    apply (ti_nodup _ Hi p (node_of b)). by apply view_lookup.
  - rewrite lookup_alter_ne in Hq by done.
    apply Hqp, (ti_unique (view w) p (node_of b) q (node_of b') c Hi); try (by apply view_lookup); [|done].
    by eapply list_elem_of_lookup_2.
Qed.

(** C30: [waitpid] answers -1 exactly when no child matches and -2 when a child
    matches but none that does has exited; the state is unchanged.  Otherwise
    it takes the first child in the caller's list that matches and has exited
    out of the list and goes on to store that child's exit code at the caller's
    pointer, free the child and return its pid.  Its assertion that no other
    reference to the child is left holds when no call holds one ([held]); when
    one does, as that of a thread of the child that waits in [read] or [write],
    the kernel stops there. *)
Theorem sys_waitpid_correct prc held p pid ptr w b :
  tree_inv (view w) -> procs w !! p = Some b ->
  let matching c := c ∈ children b /\ pid_matches pid c = true in
  ((forall c, ~ matching c) -> sys_waitpid prc held p pid ptr w = Ok (-1, w)) /\
  ((exists c, matching c) ->
   (forall c cb, matching c -> procs w !! c = Some cb -> is_zombie cb = false) ->
   sys_waitpid prc held p pid ptr w = Ok (-2, w)) /\
  (forall c cb, matching c -> procs w !! c = Some cb -> is_zombie cb = true ->
   exists idx z zb, children b !! idx = Some z /\ pid_matches pid z = true /\
     procs w !! z = Some zb /\ is_zombie zb = true /\
     (forall j d db, (j < idx)%nat -> children b !! j = Some d -> pid_matches pid d = true ->
        procs w !! d = Some db -> is_zombie db = false) /\
     sys_waitpid prc held p pid ptr w =
       if decide (held z = O) then
         (store_user (MemorySet_token (pcb_memory_set b)) ptr (le_put 4 (exit_code zb)) ;* drop_pcb prc z ;* ret z)
           (set_procs (alter (with_children (delete idx (children b))) p (procs w)) w)
       else Panic AssertFailed).
Proof.
  intros Hi Hp matching.
  assert (existsb (pid_matches pid) (children b) = true <-> exists c, matching c) as Hex.
  { rewrite existsb_exists. unfold matching. by setoid_rewrite <- list_elem_of_In. }
  unfold sys_waitpid. rewrite (st_bind_Ok (get_pcb p) _ w b w) by (unfold get_pcb; by rewrite Hp). split_and!.
  - intros Hn. destruct (existsb _ _); [|done]. destruct (proj1 Hex eq_refl) as [c Hc]. by destruct (Hn c).
  - intros Hm Ha. rewrite (proj2 Hex Hm). cbn [negb]. autorewrite with run.
    rewrite (proj2 (find_zombie_None _ _ _)); [done|]. intros c cb Hc Hcb Hmc. by apply (Ha c).
  - intros c cb Hm Hc Hz. rewrite (proj2 Hex) by (by exists c). cbn [negb]. autorewrite with run.
    destruct (find_zombie (procs w) pid (children b)) as [[idx z]|] eqn:Ef.
    2:{ rewrite (proj1 (find_zombie_None _ _ _) Ef c cb) in Hz; [done|apply Hm|done|apply Hm]. }
    apply find_zombie_Some in Ef as (Hidx & Hmz & zb & Hzb & Hzz & Hfirst). exists idx, z, zb. split_and!; try done.
    unfold mod_pcb at 1. autorewrite with run.
    rewrite (strong_count_one w p b idx z zb tt _ Hi Hp Hidx Hzb Hzz eq_refl).
    destruct (held z) as [|n]; cbn [Nat.add Nat.eqb]; [|done].
    rewrite (st_bind_Ok (get_pcb z) _ _ zb (set_procs (alter (with_children (delete idx (children b))) p (procs w)) w)); [done|].
    unfold get_pcb. cbn [procs set_procs]. rewrite lookup_alter_ne, Hzb; [done|]. intros ->.
    apply (ti_not_self (view w) z (node_of b) Hi); [by apply view_lookup|by eapply list_elem_of_lookup_2].
Qed.

(** When the main thread of a process other than the first exits, the
    process is left a zombie with its exit code, without children and gone
    from [PID2PCB]; every child it had is now a child of the daemon, after the
    daemon's own; and its parent still lists it, so that it can be reaped. *)
Theorem exit_reparents t code w e w' tb r b d :
  tree_inv (view w) -> tcbs w !! t = Some tb -> res_ tb = Some r -> tid r = 0 ->
  process tb <> IDLE_PID -> procs w !! process tb = Some b -> procs w !! DAEMON = Some d ->
  exit_current_and_run_next t code w = Ok (e, w') ->
  e = Scheduled /\ (process tb ∉ pid2process w') /\
  (exists b', procs w' !! process tb = Some b' /\ is_zombie b' = true /\ exit_code b' = code /\ children b' = []) /\
  (forall c, c ∈ children b -> exists cb, procs w' !! c = Some cb /\ parent cb = Some DAEMON) /\
  (exists d', procs w' !! DAEMON = Some d' /\ children d' = children d ++ children b) /\
  (exists q qb, parent b = Some q /\ procs w' !! q = Some qb /\ process tb ∈ children qb).
Proof.
  intros Hi Ht Hr H0 Hne Hb Hd E. pose proof (exit_run _ _ _ _ _ _ _ E Ht Hr) as V.
  rewrite H0, (proj2 (Z.eqb_neq _ _) Hne) in V. cbn in V. destruct V as (-> & _ & b0 & Hb0 & V).
  assert (b0 = b) as -> by congruence. set (p := process tb) in *.
  assert (nodes (view w) !! p = Some (node_of b)) as Np by (by apply view_lookup).
  pose proof (exit_lookup (view w) p code (node_of b) Hi Np Hne) as HL. change (n_children (node_of b)) with (children b) in HL.
  rewrite <- V in HL.
  assert (forall q qb, procs w !! q = Some qb -> exists qb', procs w' !! q = Some qb' /\
    node_of qb' = exit_node p code (node_of b) q (node_of qb)) as HN.
  { intros q qb Hq. apply view_lookup in Hq. specialize (HL q). rewrite Hq in HL. cbn [fmap option_fmap option_map] in HL.
    destruct (view_lookup_inv _ _ _ HL) as (qb' & Hq' & Hn). by exists qb'. }
  split_and!.
  - done.
  - change (p ∉ table (view w')). rewrite V. cbn. set_solver.
  - destruct (HN p b Hb) as (b' & Hb' & Hn). exists b'. unfold exit_node in Hn. rewrite decide_True in Hn by done.
    injection Hn as -> _ -> ->. done.
  - intros c Hc. destruct (ti_child _ Hi p (node_of b) c Np Hc) as (k & Hk & _).
    destruct (view_lookup_inv _ _ _ Hk) as (cb & Hcb & ->). destruct (HN c cb Hcb) as (cb' & Hcb' & Hn). exists cb'.
    split; [done|]. change (parent cb') with (n_parent (node_of cb')). rewrite Hn.
    rewrite (exit_node_parent (view w) p code (node_of b)) by done. by rewrite decide_True.
  - destruct (HN DAEMON d Hd) as (d' & Hd' & Hn). exists d'. split; [done|].
    change (children d') with (n_children (node_of d')). rewrite Hn, exit_node_children.
    by rewrite decide_False, decide_True by done.
  - destruct (exit_parents (view w) p code (node_of b) Hi Np Hne p (node_of b) Np Hne) as (q & k & Hq & Hk & Hin).
    rewrite (exit_node_parent (view w) p code (node_of b)) in Hq by done.
    rewrite decide_False in Hq by (by apply (ti_not_self (view w) p (node_of b))).
    destruct (view_lookup_inv _ _ _ Hk) as (qb & Hqb & ->). destruct (HN q qb Hqb) as (qb' & Hqb' & Hn).
    exists q, qb'. split_and!; [done|done|]. change (children qb') with (n_children (node_of qb')). by rewrite Hn.
Qed.

(** ** Signals *)

Lemma sig_contains_bit flags i : 0 <= i -> sig_contains flags (Z.shiftl 1 i) = Z.testbit flags i.
Proof.
  intros Hi. unfold sig_contains. rewrite Z.shiftl_1_l.
  destruct (Z.testbit flags i) eqn:E.
  - apply Z.eqb_eq. apply Z.bits_inj'. intros j Hj. rewrite Z.land_spec, Z.pow2_bits_eqb by done.
    destruct (Z.eqb_spec i j) as [->|]; [by rewrite E|apply andb_false_r].
  - apply Z.eqb_neq. intros Hc. apply (f_equal (fun z => Z.testbit z i)) in Hc.
    rewrite Z.land_spec, E, Z.pow2_bits_true in Hc by done. done.
Qed.

(** The signals pending in [flags], lowest first. *)
Definition pending (flags : Z) : list Z := filter (fun n => Z.testbit flags n = true) [2; 4; 6; 8; 11].

Lemma check_error_pending flags :
  check_error flags = match pending flags with n :: _ => Some (- n) | [] => None end.
Proof.
  unfold check_error, SIGINT, SIGILL, SIGABRT, SIGFPE, SIGSEGV. rewrite !sig_contains_bit by done.
  unfold pending. rewrite !filter_cons, filter_nil.
  repeat (case_decide as Hd; [by rewrite Hd|apply not_true_is_false in Hd; rewrite Hd; clear Hd]). done.
Qed.

Lemma all_signals_bits j : 0 <= j -> Z.testbit all_signals j = bool_decide (j ∈ [2; 4; 6; 8; 11]).
Proof.
  intros Hj. unfold all_signals, SIGINT, SIGILL, SIGABRT, SIGFPE, SIGSEGV.
  rewrite !Z.lor_spec, !Z.shiftl_1_l, !Z.pow2_bits_eqb by done.
  apply eq_true_iff_eq. rewrite bool_decide_eq_true, !orb_true_iff, !Z.eqb_eq, !elem_of_cons, elem_of_nil.
  intuition.
Qed.

(** [check_error] reports the pending signal with the lowest number; a
    valid set of signals is reported clean only when it is empty.  What
    [sys_kill] accepts is a valid set, so a signal sent is noticed. *)
Theorem check_error_lowest flags :
  check_error flags = match pending flags with n :: _ => Some (- n) | [] => None end /\
  (forall b, SignalFlags_from_bits flags = Some b -> check_error flags = None <-> flags = 0).
Proof.
  split; [apply check_error_pending|]. intros b Hb. unfold SignalFlags_from_bits in Hb.
  destruct (Z.eqb_spec (Z.land flags all_signals) flags) as [Hall|]; [|done].
  split; [|by intros ->]. rewrite check_error_pending. intros Hn.
  rewrite <- Hall. apply Z.bits_inj'. intros j Hj. rewrite Z.land_spec, Z.bits_0, all_signals_bits by done.
  case_bool_decide as Hin; [|apply andb_false_r]. rewrite andb_true_r. apply not_true_is_false. intros Ht.
  assert (j ∈ pending flags) as Hp by (by apply list_elem_of_filter).
  destruct (pending flags); [by apply not_elem_of_nil in Hp|done].
Qed.

(** A signal sent to a process that has not exited is pending there until
    it exits: [sys_kill] answers 0, adds the signal to those pending and
    leaves every other process alone; for an unknown pid or signal it answers
    -1 and changes nothing. *)
Theorem sys_kill_correct w pid signal :
  tree_inv (view w) ->
  match SignalFlags_from_bits signal, procs w !! pid with
  | Some flag, Some b =>
      if is_zombie b then sys_kill pid signal w = Ok (-1, w)
      else sys_kill pid signal w =
             Ok (0, set_procs (<[pid := with_signals (Z.lor (signals b) flag) b]> (procs w)) w)
  | _, _ => sys_kill pid signal w = Ok (-1, w)
  end.
Proof.
  intros Hi. unfold sys_kill. pose proof (ti_table _ Hi pid) as Ht.
  change (table (view w)) with (pid2process w) in Ht. destruct (procs w !! pid) as [b|] eqn:Hp.
  - destruct (is_zombie b) eqn:Hz.
    + assert (pid ∉ pid2process w) as Hn.
      { rewrite Ht. intros (n & Hn & Hnz). apply view_lookup in Hp. rewrite Hp in Hn. injection Hn as <-. by cbn in Hnz; rewrite Hz in Hnz. }
      rewrite bool_decide_false by done. by destruct (SignalFlags_from_bits signal).
    + rewrite bool_decide_true by (apply Ht; exists (node_of b); split; [by apply view_lookup|done]).
      destruct (SignalFlags_from_bits signal) as [flag|]; [|done].
      unfold mod_pcb. autorewrite with run. unfold ret. do 2 f_equal. unfold set_procs. f_equal.
      apply map_eq. intros q. destruct (decide (q = pid)) as [->|].
      * by rewrite lookup_alter_eq, lookup_insert_eq, Hp.
      * by rewrite lookup_alter_ne, lookup_insert_ne.
  - rewrite bool_decide_false; [by destruct (SignalFlags_from_bits signal)|].
    rewrite Ht. intros (n & Hn & _). destruct (view_lookup_inv _ _ _ Hn) as (b & Hb & _). congruence.
Qed.

(** ** Witnesses *)

(** A program without segments, and the kernel after its first process has
    forked a child, which has forked a child, and has exited with code 7. *)
Definition tiny_elf (_ : list u8) : option ElfFile :=
  Some {| magic := [0x7f; 0x45; 0x4c; 0x46]; ph_count := 0; program_header := fun _ => None; entry_point := 0x10000 |}.

(** A file system of 32 inodes with the directories [/] and [/proc]. *)
Definition demo_fs : EasyFileSystem := MkEfs (Bitmap_new 1 1) (Bitmap_new 10 1) 2 11.
Definition demo_root : Inode := root_inode demo_fs.
Definition demo_setup : prog (option Inode) :=
  let! _ := alloc_inode demo_fs in
  get_modify 2 0 (fun di : DiskInode => Ret (tt, DiskInode_init Directory di)) ;;;
  set_default_dirent demo_root (inode_id demo_root) ;;;
  Inode_create_dir demo_root [Byte.x70; Byte.x72; Byte.x6f; Byte.x63].
Definition demo_formatted : Inode * disk :=
  match run demo_setup (blank_disk 80) with
  | Ok (Some i, d) => (i, d)
  | _ => (demo_root, blank_disk 80)
  end.
Definition demo_proc : Inode := Eval vm_compute in demo_formatted.1.

Definition after {A} (r : Prelude.res (A * world)) : world :=
  match r with Ok (_, w) => w | Panic _ => booting bare_kstacks (blank_disk 0) end.

Definition demo_boot_world : world := booting bare_kstacks demo_formatted.2.
Definition demo0 : world := after (ProcessControlBlock_new tiny_sym tiny_elf 0x80 0 [] demo_boot_world).
Definition demo1 : world := after (sys_fork tiny_sym demo_root demo_proc 0 demo0).
Definition demo2 : world := after (sys_fork tiny_sym demo_root demo_proc 1 demo1).
Definition demo3 : world := after (exit_current_and_run_next 1 7 demo2).

(** An entry found by computation. *)
Lemma found {A} (o : option A) (f : A -> bool) :
  match o with Some b => f b | None => false end = true -> exists b, o = Some b /\ f b = true.
Proof. destruct o as [b|]; [|done]. by exists b. Qed.

Lemma demo_boot : ProcessControlBlock_new tiny_sym tiny_elf 0x80 0 [] demo_boot_world = Ok (0, demo0).
Proof. by vm_compute. Qed.

Lemma demo_steps : rtc (proc_step tiny_sym tiny_elf 0x80 0 demo_root demo_proc) demo0 demo2.
Proof.
  destruct (found (procs demo0 !! 0) (fun b => negb (is_zombie b)) ltac:(by vm_compute)) as (b0 & H0 & Z0%negb_true_iff).
  destruct (found (procs demo1 !! 1) (fun b => negb (is_zombie b)) ltac:(by vm_compute)) as (b1 & H1 & Z1%negb_true_iff).
  apply rtc_l with demo1; [|apply rtc_once].
  - apply (step_fork _ _ _ _ _ _ 0 b0 _ 1); [done|done|reflexivity|by vm_compute].
  - apply (step_fork _ _ _ _ _ _ 1 b1 _ 2); [done|done|reflexivity|by vm_compute].
Qed.

Lemma demo_exit : exit_current_and_run_next 1 7 demo2 = Ok (Scheduled, demo3).
Proof. by vm_compute. Qed.

Lemma demo2_inv : tree_inv (view demo2).
Proof.
  apply (proc_steps_inv _ _ _ _ _ _ _ _ demo_steps), (first_process_inv _ _ _ _ _ _ _ _ _ demo_boot).
Qed.

Lemma process_tree_witness : tree_inv (view demo2).
Proof. apply (process_tree tiny_sym tiny_elf 0x80 0 demo_root demo_proc [] bare_kstacks demo_formatted.2 0 demo0 demo2
  demo_boot demo_steps). Defined.

Lemma exit_reparents_witness :
  (1 ∉ pid2process demo3) /\ exists d', procs demo3 !! DAEMON = Some d' /\ children d' = [1; 2].
Proof.
  destruct (found (tcbs demo2 !! 1)
    (fun tb => match res_ tb with Some r => tid r =? 0 | None => false end && (process tb =? 1)) ltac:(by vm_compute))
    as (tb & Ht & [Hr Hpr%Z.eqb_eq]%andb_prop). destruct (res_ tb) as [r|] eqn:Er; [|discriminate].
  apply Z.eqb_eq in Hr.
  destruct (found (procs demo2 !! 1) (fun b => bool_decide (children b = [2])) ltac:(by vm_compute))
    as (b & Hb & Hcb%bool_decide_eq_true).
  destruct (found (procs demo2 !! DAEMON) (fun b => bool_decide (children b = [1])) ltac:(by vm_compute))
    as (d & Hd & Hcd%bool_decide_eq_true).
  rewrite <- Hpr in Hb.
  destruct (exit_reparents 1 7 demo2 Scheduled demo3 tb r b d demo2_inv Ht Er Hr
    ltac:(rewrite Hpr; discriminate) Hb Hd demo_exit) as (_ & Hn & _ & _ & (d' & Hd' & Hc) & _).
  rewrite Hpr in Hn. split; [exact Hn|]. exists d'. split; [exact Hd'|]. by rewrite Hc, Hcd, Hcb.
Defined.

Lemma demo3_inv : tree_inv (view demo3).
Proof. apply (proc_step_inv tiny_sym tiny_elf 0x80 0 demo_root demo_proc demo2); [by apply (step_exit _ _ _ _ _ _ 1 7 _ Scheduled), demo_exit|apply demo2_inv]. Qed.

(** The daemon waits for any child, with a pointer into its stack. *)
Lemma sys_waitpid_correct_witness :
  exists z zb w, procs demo3 !! z = Some zb /\ sys_waitpid demo_proc (fun _ => O) 0 (-1) 0x1800 demo3 =
    (store_user (MemorySet_token (match procs demo3 !! 0 with Some b => pcb_memory_set b | None => bare_ms end))
       0x1800 (le_put 4 (exit_code zb)) ;* drop_pcb demo_proc z ;* ret z) w.
Proof.
  destruct (found (procs demo3 !! 0) (fun b => bool_decide (children b = [1; 2])) ltac:(by vm_compute))
    as (b & Hb & Hcb%bool_decide_eq_true).
  destruct (found (procs demo3 !! 1) is_zombie ltac:(by vm_compute)) as (c & Hc & Hz).
  destruct (sys_waitpid_correct demo_proc (fun _ => O) 0 (-1) 0x1800 demo3 b demo3_inv Hb) as (_ & _ & H).
  destruct (H 1 c) as (idx & z & zb & _ & _ & Hzb & _ & _ & Hrun).
  - split; [rewrite Hcb; by left|reflexivity].
  - exact Hc.
  - exact Hz.
  - exists z, zb, (set_procs (alter (with_children (delete idx (children b))) 0 (procs demo3)) demo3).
    rewrite Hb. exact (conj Hzb Hrun).
Defined.

Lemma sys_kill_correct_witness : exists w, sys_kill 2 SIGINT demo3 = Ok (0, w).
Proof.
  destruct (found (procs demo3 !! 2) (fun b => negb (is_zombie b)) ltac:(by vm_compute)) as (b & Hb & Hz%negb_true_iff).
  pose proof (sys_kill_correct demo3 2 SIGINT demo3_inv) as H. rewrite Hb, Hz in H.
  eexists. exact H.
Defined.

(** The whole run: the daemon gets the pid and, at its pointer, the code. *)
Lemma demo_waitpid :
  match sys_waitpid demo_proc (fun _ => O) 0 (-1) 0x1800 demo3 with
  | Ok (c, w) =>
      c = 1 /\ match procs w !! 0 with
              | Some b => user_byte (w_mm w) (PageTable_from_token (MemorySet_token (pcb_memory_set b))) 0x1800 = Ok Byte.x07
              | None => False
              end
  | Panic _ => False
  end.
Proof. by vm_compute. Qed.

(** The daemon starts threads 1 and 2; when 1 has exited, a new thread takes
    its id, the list of tasks ends with it, and waiting for thread 2, which
    still runs, panics. *)
Definition threads_demo : st world Z :=
  let* _ := sys_thread_create 0x80 0 0 0x10000 0 in
  let* _ := sys_thread_create 0x80 0 0 0x10000 0 in
  let* _ := exit_current_and_run_next 1 0 in
  sys_thread_create 0x80 0 0 0x10000 0.

(** Reusing a thread id hides the threads with larger ids. *)
Lemma thread_create_truncates :
  match threads_demo demo0 with
  | Ok (ntid, w) =>
      ntid = 1 /\ (length <$> (tasks <$> procs w !! 0)) = Some 2%nat /\
      (task_exit_code <$> tcbs w !! 2) = Some None /\
      sys_waittid 0 2 w = Panic IndexOutOfBounds
  | Panic _ => False
  end.
Proof. by vm_compute. Qed.
