(* ===== verification/ExecArgs.v ===== *)
(** * The arguments of a program

    [exec] of [kernel/src/task/pcb.rs] puts the arguments on the stack of the
    new program, and [_start] of [user/src/lib.rs] collects them before it
    calls [main].  Between the two is the page table: the kernel writes each
    text byte by byte through it, and the program reads at its own
    addresses. *)

From S2P Require Import Prelude Config Bytes Utf8 BlockStore Efs Vfs.
From S2P Require Import StateMonad Address FrameAllocator PageTable PageTableSpec MemorySet MemorySetSpec UserMemory TaskId Process.

(** ** [_start] *)

Section start.
(** What the program reads at an address. *)
Context (load : Z -> res u8).

(** [(a as *const usize).read_volatile()] *)
Fixpoint load_bytes (n : nat) (a : Z) : res (list u8) :=
  match n with
  | O => Ok []
  | S n =>
      let? b := load a in
      let? rest := load_bytes n (w64 (a + 1)) in
      Ok (b :: rest)
  end.
Definition load_usize (a : Z) : res Z := let? bs := load_bytes 8 a in Ok (le_get bs).

(** The search for the zero byte, and the bytes before it; [fuel] bounds the
    length of the text. *)
Fixpoint load_str (fuel : nat) (a : Z) : res (list u8) :=
  match fuel with
  | O => Panic OutOfFuel
  | S fuel =>
      let? c := load a in
      if Byte.eqb c Byte.x00 then Ok []
      else
        let? rest := load_str fuel (w64 (a + 1)) in
        Ok (c :: rest)
  end.

(** [_start]: the slice of arguments that [main] gets. *)
Fixpoint start_args (fuel argc : nat) (argv : Z) : res (list (list u8)) :=
  match argc with
  | O => Ok []
  | S argc =>
      let? str_start := load_usize argv in
      let? s := load_str fuel str_start in
      let? _ := if from_utf8_ok s then Ok tt else Panic UnwrapNone in
      let? rest := start_args fuel argc (w64 (argv + 8)) in
      Ok (s :: rest)
  end.
End start.

(** ** Stores through the page table *)

Section args.
(** The first frame of the allocator is behind the kernel, not frame 0. *)
Context (lo : Z) (lo_pos : 0 < lo) (pt : PageTable).
Abbreviation space_inv := (MemorySetSpec.space_inv lo).
Abbreviation token := (PageTable_token pt).

Lemma translated_ref_framed m a f :
  space_inv m pt -> 0 <= a < 2 ^ 38 -> data_frames pt !! (a / 4096) = Some f ->
  translated_ref m token a = Ok (f * 4096 + a mod 4096).
Proof.
  intros HS Ha Hf. destruct (framed_page lo m pt _ f HS Hf) as (e & He & <- & _).
  pose proof (Z.div_mod a 4096 ltac:(lia)). pose proof (Z.mod_pos_bound a 4096 ltac:(lia)).
  assert (0 <= a / 4096 < 2 ^ 26) by (split; [apply Z.div_pos|apply Z.div_lt_upper_bound]; lia).
  assert (0 < PTE_ppn e) by (destruct (sp_data _ _ _ HS _ _ Hf) as (_ & [? _] & _); lia).
  unfold translated_ref. replace a with (a / 4096 * 4096 + a mod 4096) at 1 by lia.
  rewrite (translate_va_page m _ (a / 4096) e (a mod 4096)) by (done || lia). cbn [unwrap res_bind]. unfold as_mut_ref.
  by rewrite (proj2 (Z.eqb_neq _ _)) by lia.
Qed.

(** The memory [m'] is [m] with the bytes [bs] from [a] on. *)
Record put (m : mm) (a : Z) (bs : list u8) (m' : mm) : Prop := {
  pu_stored : stored lo m m' pt;
  pu_data x : user_data m' pt x =
    if decide (a <= x < a + Z.of_nat (length bs)) then bs !! Z.to_nat (x - a) else user_data m pt x;
}.

Lemma put_nil m a : space_inv m pt -> put m a [] m.
Proof. intros HS. split; [by apply stored_refl|]. intros x. cbn. by rewrite decide_False by lia. Qed.

Lemma put_app m1 m2 m3 a bs bs' :
  put m1 a bs m2 -> put m2 (a + Z.of_nat (length bs)) bs' m3 -> put m1 a (bs ++ bs') m3.
Proof.
  intros [S1 D1] [S2 D2]. split; [by eapply stored_trans|]. intros x. rewrite D2, D1, length_app.
  destruct (decide (a + Z.of_nat (length bs) <= x < _)) as [H|H].
  - rewrite decide_True by lia. rewrite lookup_app_r by lia. f_equal. lia.
  - destruct (decide (a <= x < a + Z.of_nat (length bs))) as [H'|H'].
    + rewrite decide_True by lia. by rewrite lookup_app_l by lia.
    + by rewrite decide_False by lia.
Qed.

(** A store of bytes that stay in one page. *)
Lemma store_bytes_put bs : forall m a f,
  space_inv m pt -> data_frames pt !! (a / 4096) = Some f -> a mod 4096 + Z.of_nat (length bs) <= 4096 ->
  put m a bs (store_bytes (f * 4096 + a mod 4096) bs m).
Proof.
  induction bs as [|b bs IH]; intros m a f HS Hf Hle; cbn [store_bytes]; [by apply put_nil|].
  cbn [length] in Hle. pose proof (Z.mod_pos_bound a 4096 ltac:(lia)) as Hm. pose proof (Z.div_mod a 4096 ltac:(lia)) as Ha.
  change PAGE_SIZE with 4096. rewrite Z.div_add_l, (Z.div_small (a mod 4096)), Z.add_0_r, mul_add_mod by lia.
  destruct (write_data lo m pt (a / 4096) f (Z.to_nat (a mod 4096)) [b] HS Hf) as [Hs Hd]; [cbn; lia|].
  set (m1 := write_bytes f _ [b] m) in *.
  assert (put m a [b] m1) as H1.
  { split; [done|]. intros x. rewrite Hd. pose proof (Z.div_mod x 4096 ltac:(lia)). cbn [length].
    destruct (decide (a <= x < a + Z.of_nat 1)) as [Hx|Hx].
    - assert (x = a) as -> by lia. rewrite decide_True by lia. f_equal. lia.
    - rewrite decide_False; [done|]. intros [E1 E2]. apply Hx. lia. }
  change (b :: bs) with ([b] ++ bs). eapply put_app; [exact H1|]. cbn [length].
  destruct (decide (a mod 4096 + 1 = 4096)) as [Hend|Hend].
  { assert (bs = []) as -> by (destruct bs; [done|cbn in Hle; lia]). cbn [store_bytes]. apply put_nil, Hs. }
  destruct (page_of_next a 2 ltac:(lia) ltac:(lia) (a + 1) ltac:(lia)) as [E1 E2].
  replace (f * 4096 + a mod 4096 + 1) with (f * 4096 + (a + Z.of_nat 1) mod 4096) by (change (Z.of_nat 1) with 1; lia).
  apply IH; [apply Hs|by change (Z.of_nat 1) with 1; rewrite E1|change (Z.of_nat 1) with 1; lia].
Qed.

(** The world after a store by the kernel. *)
Lemma store_user_run w a bs f :
  space_inv (w_mm w) pt -> 0 <= a < 2 ^ 38 -> data_frames pt !! (a / 4096) = Some f ->
  a mod 4096 + Z.of_nat (length bs) <= 4096 ->
  exists m, store_user token a bs w = Ok (tt, set_mm m w) /\ put (w_mm w) a bs m.
Proof.
  intros HS Ha Hf Hle. eexists. split; [|by apply store_bytes_put]. unfold store_user. rewrite bind_get.
  unfold st_bind, of_res. by rewrite (translated_ref_framed _ a f) by done.
Qed.

Lemma w_mm_set m w : w_mm (set_mm m w) = m.
Proof. done. Qed.
Lemma set_mm_twice m m' w : set_mm m' (set_mm m w) = set_mm m' w.
Proof. done. Qed.

(** Another region keeps its bytes. *)
Lemma framed_sub a b a' b' : framed pt a b -> a <= a' -> b' <= b -> framed pt a' b'.
Proof. intros Hf H1 H2 x Hx. apply Hf. lia. Qed.

Lemma page_room a : a mod 4096 + 1 <= 4096.
Proof. pose proof (Z.mod_pos_bound a 4096 ltac:(lia)). lia. Qed.

(** A text with its zero byte. *)
Lemma store_string_run s : forall w a,
  space_inv (w_mm w) pt -> 0 <= a -> a + Z.of_nat (length s) + 1 < 2 ^ 38 ->
  framed pt a (a + Z.of_nat (length s) + 1) ->
  exists m, store_string token a s w = Ok (tt, set_mm m w) /\ put (w_mm w) a (s ++ [Byte.x00]) m.
Proof.
  induction s as [|c s IH]; intros w a HS Ha Hb Hf; cbn [store_string length app] in *.
  - destruct (Hf a ltac:(lia)) as [f Hff]. apply (store_user_run w a [Byte.x00] f); try done; [lia|apply page_room].
  - destruct (Hf a ltac:(lia)) as [f Hff].
    destruct (store_user_run w a [c] f) as (m1 & H1 & P1); try done; [lia|apply page_room|].
    rewrite (st_bind_Ok _ _ _ _ _ H1). rewrite w64_id by (unfold is_u64; lia).
    destruct (IH (set_mm m1 w) (a + 1)) as (m2 & H2 & P2).
    + rewrite w_mm_set. apply P1.
    + lia.
    + lia.
    + eapply framed_sub; [exact Hf|lia|lia].
    + exists m2. rewrite H2. split; [done|]. change (c :: s ++ [Byte.x00]) with ([c] ++ (s ++ [Byte.x00])).
      by eapply put_app.
Qed.

(** ** The loop over the arguments *)

(** The bytes from [a] on are [bs]. *)
Definition holds (m : mm) (a : Z) (bs : list u8) : Prop :=
  forall i b, bs !! i = Some b -> user_data m pt (a + Z.of_nat i) = Some b.

Lemma put_holds m a bs m' : put m a bs m' -> holds m' a bs.
Proof.
  intros [_ D] i b Hi. pose proof (lookup_lt_Some _ _ _ Hi). rewrite D, decide_True by lia. rewrite <- Hi. f_equal. lia.
Qed.

(** [m'] differs from [m] within two regions only. *)
Definition kept_but (m m' : mm) (a b a' b' : Z) : Prop :=
  forall x, ~ (a <= x < b) -> ~ (a' <= x < b') -> user_data m' pt x = user_data m pt x.

Lemma put_keeps m a bs m' c cs :
  put m a bs m' -> holds m c cs ->
  (forall x, c <= x < c + Z.of_nat (length cs) -> ~ (a <= x < a + Z.of_nat (length bs))) -> holds m' c cs.
Proof.
  intros [_ D] Hh Hd i b Hi. pose proof (lookup_lt_Some _ _ _ Hi). rewrite D, decide_False; [by apply Hh|].
  apply Hd. lia.
Qed.

(** The room the texts take. *)
Definition text_room (args : list (list u8)) : Z := foldr (fun s n => Z.of_nat (length s) + 1 + n) 0 args.

Lemma text_room_pos args : 0 <= text_room args.
Proof. induction args; cbn [text_room foldr]; [lia|]. unfold text_room in IHargs. lia. Qed.

(** Every pointer [p] is the address of its text. *)
Definition texts (m : mm) (ps : list Z) (args : list (list u8)) : Prop :=
  Forall2 (fun p s => holds m p (s ++ [Byte.x00])) ps args.

(** The places of the pointers as the kernel has them. *)
Fixpoint slots (refs : list PhysAddr) (a : Z) : Prop :=
  match refs with
  | [] => True
  | pa :: refs =>
      (exists f, data_frames pt !! (a / 4096) = Some f /\ pa = f * 4096 + a mod 4096) /\ slots refs (a + 8)
  end.

Lemma push_args_run args : forall w refs a sp,
  space_inv (w_mm w) pt -> (length args <= length refs)%nat -> slots refs a -> a mod 8 = 0 ->
  sp <= a -> 0 <= sp - text_room args -> a + 8 * Z.of_nat (length args) < 2 ^ 38 ->
  framed pt (sp - text_room args) sp ->
  exists m ps, push_args token args refs sp w = Ok (sp - text_room args, set_mm m w) /\
    stored lo (w_mm w) m pt /\
    kept_but (w_mm w) m a (a + 8 * Z.of_nat (length args)) (sp - text_room args) sp /\
    length ps = length args /\ holds m a (concat (le_put 8 <$> ps)) /\ texts m ps args /\
    Forall2 (fun p s => sp - text_room args <= p /\ p + Z.of_nat (length s) + 1 <= sp) ps args.
Proof.
  induction args as [|s args IH]; intros w refs a sp HS Hlen Hsl Ha8 Hsp Hroom Hb Hf.
  { cbn [push_args text_room foldr length] in *. exists (w_mm w), []. rewrite Z.sub_0_r.
    assert (set_mm (w_mm w) w = w) as -> by (by destruct w as [? ? ? ? ? ? [] ?]).
    split; [done|]. split; [by apply stored_refl|]. split; [done|]. split; [done|]. split; [by intros i b ?|].
    split; constructor. }
  destruct refs as [|pa refs]; [cbn in Hlen; lia|]. cbn [slots] in Hsl. destruct Hsl as [(f & Hff & ->) Hsl].
  cbn [push_args text_room foldr length] in *. fold (text_room args) in *. pose proof (text_room_pos args) as Hpos.
  set (p := sp - (Z.of_nat (length s) + 1)) in *. rewrite (w64_id p) by (unfold is_u64, p; lia).
  assert (a mod 4096 + 8 <= 4096) as Hin.
  { pose proof (Z.mod_pos_bound a 4096 ltac:(lia)). assert (a mod 4096 mod 8 = 0) as E by (rewrite Z.mod_mod_divide; [done|by exists 512]).
    pose proof (Z.div_mod (a mod 4096) 8 ltac:(lia)). lia. }
  pose proof (store_bytes_put (le_put 8 p) (w_mm w) a f HS Hff ltac:(rewrite length_le_put; lia)) as P1.
  unfold mod_mm at 1. rewrite bind_modify. set (m1 := store_bytes _ _ (w_mm w)) in *.
  destruct (store_string_run s (set_mm m1 w) p) as (m2 & H2 & P2); rewrite ?w_mm_set in *.
  { apply P1. } { unfold p. lia. } { unfold p. lia. }
  { eapply framed_sub; [exact Hf|unfold p; lia|unfold p; lia]. }
  rewrite (st_bind_Ok _ _ _ _ _ H2), set_mm_twice.
  destruct (IH (set_mm m2 w) refs (a + 8) p) as (m3 & ps & H3 & S3 & K3 & L3 & W3 & T3 & R3); rewrite ?w_mm_set in *.
  { apply P2. } { cbn in Hlen. lia. } { done. }
  { rewrite <- Z.add_mod_idemp_l, Ha8 by lia. done. }
  { unfold p. lia. } { unfold p. lia. } { lia. }
  { eapply framed_sub; [exact Hf|unfold p; lia|unfold p; lia]. }
  exists m3, (p :: ps). replace (p - text_room args) with (sp - (Z.of_nat (length s) + 1 + text_room args)) in * by (unfold p; lia).
  rewrite H3, set_mm_twice. split; [done|]. split; [|split; [|split; [|split; [|split]]]].
  - eapply stored_trans; [apply P1|]. eapply stored_trans; [apply P2|done].
  - intros x Hx1 Hx2. rewrite K3 by lia. rewrite (pu_data _ _ _ _ P2), length_app, decide_False by (cbn; unfold p; lia).
    rewrite (pu_data _ _ _ _ P1), length_le_put, decide_False by lia. done.
  - cbn. lia.
  - cbn [fmap list_fmap concat]. intros i b Hi. destruct (decide (i < 8)%nat) as [Hlt|Hge].
    + rewrite lookup_app_l in Hi by (rewrite length_le_put; lia). rewrite K3 by (unfold p in *; lia).
      rewrite (pu_data _ _ _ _ P2), length_app, decide_False by (cbn; unfold p; lia). by apply (put_holds _ _ _ _ P1).
    + rewrite lookup_app_r in Hi by (rewrite length_le_put; lia). rewrite length_le_put in Hi.
      replace (a + Z.of_nat i) with (a + 8 + Z.of_nat (i - 8)) by lia. by apply W3.
  - constructor; [|done]. pose proof (put_holds _ _ _ _ P2) as Hh. intros i b Hi. pose proof (lookup_lt_Some _ _ _ Hi) as Hl.
    rewrite length_app in Hl. cbn in Hl. rewrite K3 by (unfold p in *; lia). by apply Hh.
  - constructor; [unfold p; lia|]. eapply Forall2_impl; [exact R3|]. cbn. intros y t Hy. unfold p in Hy. lia.
Qed.

(** ** Before and after the loop *)

Lemma argv_refs_run m n : forall a,
  space_inv m pt -> 0 <= a -> a + 8 * Z.of_nat n < 2 ^ 38 -> framed pt a (a + 8 * Z.of_nat n) ->
  exists refs, argv_refs m token a n = Ok refs /\ length refs = n /\ slots refs a.
Proof.
  induction n as [|n IH]; intros a HS Ha Hb Hf; cbn [argv_refs]; [by exists []|].
  destruct (Hf a ltac:(lia)) as [f Hff]. rewrite (translated_ref_framed m a f) by (done || lia). cbn [res_bind].
  rewrite w64_id by (unfold is_u64; lia).
  destruct (IH (a + 8)) as (refs & -> & Hl & Hs); [done|lia|lia|eapply framed_sub; [exact Hf|lia|lia]|].
  cbn [res_bind]. eexists. split; [done|]. split; [cbn; lia|]. cbn [slots]. split; [by exists f|done].
Qed.

Lemma slots_lookup refs : forall a i pa,
  slots refs a -> refs !! i = Some pa ->
  exists f, data_frames pt !! ((a + 8 * Z.of_nat i) / 4096) = Some f /\ pa = f * 4096 + (a + 8 * Z.of_nat i) mod 4096.
Proof.
  induction refs as [|r refs IH]; intros a i pa Hs Hi; [done|]. destruct Hs as [Hf Hs]. destruct i as [|i].
  - injection Hi as ->. rewrite Z.mul_0_r, Z.add_0_r. exact Hf.
  - destruct (IH (a + 8) i pa Hs Hi) as (f & H1 & H2). exists f.
    replace (a + 8 * Z.of_nat (S i)) with (a + 8 + 8 * Z.of_nat i) by lia. done.
Qed.

(** Where the arguments go: the pointers, and the stack pointer below the
    texts. *)
Definition argv_of (top : Z) (args : list (list u8)) : Z := top - 8 * (Z.of_nat (length args) + 1).
Definition sp_of (top : Z) (args : list (list u8)) : Z := argv_of top args - text_room args.

Lemma write_args_run w args top :
  space_inv (w_mm w) pt -> top mod 8 = 0 -> top < 2 ^ 38 -> 0 <= sp_of top args ->
  framed pt (sp_of top args) top ->
  exists m ps, write_args token args top w = Ok ((argv_of top args, sp_of top args), set_mm m w) /\
    stored lo (w_mm w) m pt /\
    (forall x, ~ (sp_of top args <= x < top) -> user_data m pt x = user_data (w_mm w) pt x) /\
    length ps = length args /\ holds m (argv_of top args) (concat (le_put 8 <$> ps)) /\ texts m ps args /\
    Forall2 (fun p s => sp_of top args <= p /\ p + Z.of_nat (length s) + 1 <= argv_of top args) ps args.
Proof.
  intros HS H8 Htop Hsp Hf. pose proof (text_room_pos args) as Hpos. unfold write_args.
  replace (top - (Z.of_nat (length args) + 1) * 8) with (argv_of top args) by (unfold argv_of; lia).
  set (a := argv_of top args) in *. assert (a = top - 8 * (Z.of_nat (length args) + 1)) as Ea by done.
  assert (sp_of top args = a - text_room args) as Es by done.
  assert (a mod 8 = 0) as Ha8.
  { rewrite Ea. replace (top - 8 * _) with (top + (- (Z.of_nat (length args) + 1)) * 8) by lia. by rewrite Z.mod_add by lia. }
  rewrite w64_id by (unfold is_u64; lia). rewrite bind_get.
  destruct (argv_refs_run (w_mm w) (S (length args)) a) as (refs & Hrefs & Hl & Hsl);
    [done|lia|lia|eapply framed_sub; [exact Hf|lia|lia]|].
  unfold st_bind at 1, of_res. rewrite Hrefs. cbn [res_bind]. rewrite bind_option.
  destruct (refs !! length args) as [last|] eqn:Elast; [|apply lookup_ge_None in Elast; lia].
  destruct (slots_lookup refs a _ last Hsl Elast) as (f & Hff & ->).
  set (z := a + 8 * Z.of_nat (length args)) in *.
  assert (z mod 4096 + 8 <= 4096) as Hin.
  { assert (z mod 8 = 0) as Hz by (unfold z; rewrite Z.add_comm, Z.mul_comm, Z.add_mod, Z.mod_mul, Ha8 by lia; done).
    pose proof (Z.mod_pos_bound z 4096 ltac:(lia)). assert (z mod 4096 mod 8 = 0) as E by (rewrite Z.mod_mod_divide; [done|by exists 512]).
    pose proof (Z.div_mod (z mod 4096) 8 ltac:(lia)). lia. }
  pose proof (store_bytes_put (le_put 8 0) (w_mm w) z f HS Hff ltac:(rewrite length_le_put; lia)) as P1.
  unfold mod_mm at 1. rewrite bind_modify. set (m1 := store_bytes _ _ (w_mm w)) in *.
  destruct (push_args_run args (set_mm m1 w) refs a a) as (m & ps & Hrun & S & K & L & W & T & R); rewrite ?w_mm_set in *;
    [apply P1|lia|done|done|lia|lia|lia|eapply framed_sub; [exact Hf|lia|lia]|].
  rewrite (st_bind_Ok _ _ _ _ _ Hrun), set_mm_twice. exists m, ps. rewrite Es. split_and!; try done.
  - eapply stored_trans; [apply P1|done].
  - intros x Hx. rewrite K by lia. rewrite (pu_data _ _ _ _ P1), length_le_put, decide_False by (unfold z; lia). done.
Qed.

(** ** What the program reads *)

Abbreviation load_of m := (user_load m (PageTable_from_token token)).

Lemma load_bytes_run m bs : forall a,
  space_inv m pt -> 0 <= a -> a + Z.of_nat (length bs) <= 2 ^ 38 -> holds m a bs ->
  load_bytes (load_of m) (length bs) a = Ok bs.
Proof.
  induction bs as [|b bs IH]; intros a HS Ha Hb Hh; cbn [load_bytes length] in *; [done|].
  pose proof (Hh O b eq_refl) as H0. rewrite Z.add_0_r in H0.
  rewrite (user_load_data lo m pt a b) by (done || lia). cbn [res_bind]. rewrite w64_id by (unfold is_u64; lia).
  rewrite IH; [done|done|lia|lia|]. intros i c Hi. replace (a + 1 + Z.of_nat i) with (a + Z.of_nat (S i)) by lia. by apply Hh.
Qed.

Lemma load_str_run m fuel : forall s a,
  space_inv m pt -> 0 <= a -> a + Z.of_nat (length s) + 1 <= 2 ^ 38 -> holds m a (s ++ [Byte.x00]) ->
  Forall (fun c => c <> Byte.x00) s -> (length s < fuel)%nat -> load_str (load_of m) fuel a = Ok s.
Proof.
  induction fuel as [|fuel IH]; intros s a HS Ha Hb Hh Hz Hfu; [lia|]. cbn [load_str].
  destruct s as [|c s]; cbn [app length] in *; pose proof (Hh O _ eq_refl) as H0; rewrite Z.add_0_r in H0;
    rewrite (user_load_data lo m pt a _ HS) by (exact H0 || lia); cbn [res_bind]; [done|].
  apply Forall_cons in Hz as [Hc Hz]. destruct (Byte.eqb c Byte.x00) eqn:E; [by apply Byte.byte_dec_bl in E|].
  rewrite w64_id by (unfold is_u64; lia). rewrite (IH s (a + 1)); [done|done|lia|lia| |done|lia].
  intros i b Hi. replace (a + 1 + Z.of_nat i) with (a + Z.of_nat (S i)) by lia. by apply Hh.
Qed.

(** A text the program can take as [str]. *)
Definition is_text (s : list u8) : Prop := Forall (fun c => c <> Byte.x00) s /\ from_utf8_ok s = true.

Lemma start_args_run m fuel args : forall ps a,
  space_inv m pt -> 0 <= a -> a + 8 * Z.of_nat (length args) <= 2 ^ 38 -> length ps = length args ->
  holds m a (concat (le_put 8 <$> ps)) -> texts m ps args ->
  Forall2 (fun p s => 0 <= p /\ p + Z.of_nat (length s) + 1 <= 2 ^ 38) ps args ->
  Forall is_text args -> Forall (fun s => (length s < fuel)%nat) args ->
  start_args (load_of m) fuel (length args) a = Ok args.
Proof.
  induction args as [|s args IH]; intros ps a HS Ha Hb Hl Hh Ht Hp Hx Hfu; [done|].
  destruct ps as [|p ps]; [done|]. cbn [length fmap list_fmap concat start_args] in *.
  apply Forall2_cons in Ht as [Hs Ht]. apply Forall2_cons in Hp as [[Hp0 Hp1] Hp]. apply Forall_cons in Hx as [[Hz Hu] Hx].
  apply Forall_cons in Hfu as [Hfs Hfu].
  assert (load_usize (load_of m) a = Ok p) as ->.
  { unfold load_usize. assert (length (le_put 8 p) = 8%nat) as E by apply length_le_put.
    pose proof (load_bytes_run m (le_put 8 p) a HS Ha) as Hload. rewrite E in Hload. rewrite Hload; [|lia|].
    2:{ intros i b Hi. apply Hh. rewrite lookup_app_l; [done|]. by eapply lookup_lt_Some. }
    cbn [res_bind]. rewrite le_get_put by lia. done. }
  cbn [res_bind]. rewrite (load_str_run m fuel s p) by (done || lia). cbn [res_bind]. rewrite Hu. cbn [res_bind].
  rewrite w64_id by (unfold is_u64; lia). rewrite (IH ps (a + 8)); try done; try lia.
  intros i b Hi. replace (a + 8 + Z.of_nat i) with (a + Z.of_nat (8 + i)) by lia. apply Hh.
  rewrite lookup_app_r by (rewrite length_le_put; lia). rewrite length_le_put. rewrite <- Hi. f_equal. lia.
Qed.

(** C15: the arguments of [exec] arrive.  When the stack of the new program has
    room for them, the kernel's part of [exec] and [_start] are inverse: the
    program gets the very texts it was started with, in order, below them is
    the stack pointer, and all other memory of the program is as before.  (The
    frames of the allocator begin behind frame 0, whose address is null.) *)
Theorem exec_args_arrive w args top fuel :
  space_inv (w_mm w) pt -> top mod 8 = 0 -> top < 2 ^ 38 -> 0 <= sp_of top args ->
  framed pt (sp_of top args) top -> Forall is_text args -> Forall (fun s => (length s < fuel)%nat) args ->
  exists m, write_args token args top w = Ok ((argv_of top args, sp_of top args), set_mm m w) /\
    start_args (user_load m (PageTable_from_token token)) fuel (length args) (argv_of top args) = Ok args /\
    stored lo (w_mm w) m pt /\
    forall x, ~ (sp_of top args <= x < top) -> user_data m pt x = user_data (w_mm w) pt x.
Proof.
  intros HS H8 Htop Hsp Hf Hx Hfu. destruct (write_args_run w args top) as (m & ps & Hrun & S & K & L & W & T & R); try done.
  exists m. split_and!; try done. pose proof (text_room_pos args).
  assert (argv_of top args = top - 8 * (Z.of_nat (length args) + 1)) as Ea by done.
  assert (sp_of top args = argv_of top args - text_room args) as Es by done.
  apply start_args_run with ps; try done; try lia; [apply S|].
  eapply Forall2_impl; [exact R|]. cbn. intros p s Hp. lia.
Qed.
End args.

(** ** Witnesses *)

Definition args_world : world :=
  MkWorld ∅ ∅ 0 ∅ RecycleAllocator_new [] (MkKstacks RecycleAllocator_new two_ms two_mm) (blank_disk 0).

(** [ls -l] *)
Definition demo_args : list (list u8) := [[Byte.x6c; Byte.x73]; [Byte.x2d; Byte.x6c]].

Lemma two_framed : framed (page_table two_ms) 65536 73728.
Proof.
  intros a Ha. assert (a / 4096 = 16 \/ a / 4096 = 17) as [-> | ->].
  { assert (16 <= a / 4096 < 18) by (split; [apply Z.div_le_lower_bound|apply Z.div_lt_upper_bound]; lia). lia. }
  - destruct (data_frames (page_table two_ms) !! 16) eqn:E; [by eexists|by vm_compute in E].
  - destruct (data_frames (page_table two_ms) !! 17) eqn:E; [by eexists|by vm_compute in E].
Qed.

(** The stack pointer the program starts with is no multiple of 4, although
    the calling convention wants a multiple of 16. *)
Lemma exec_args_arrive_witness :
  exists m, write_args (PageTable_token (page_table two_ms)) demo_args 73728 args_world =
      Ok ((73704, 73698), set_mm m args_world) /\
    start_args (user_load m (PageTable_from_token (PageTable_token (page_table two_ms)))) 10 2 73704 = Ok demo_args.
Proof.
  destruct (exec_args_arrive 100 ltac:(lia) (page_table two_ms) args_world demo_args 73728 10) as (m & H1 & H2 & _).
  - exact (proj1 two_space).
  - done.
  - done.
  - done.
  - eapply framed_sub; [exact two_framed|done|done].
  - repeat constructor; done.
  - repeat constructor; cbn; lia.
  - exists m. split; [exact H1|exact H2].
Defined.

(** Arguments that do not fit: with the top of the stack at 65560, 24 bytes
    above its lowest page, a text of 20 bytes begins in a page that is not
    mapped.  Its table exists, so that [translate_va] does not fail but gives
    physical page 0, and the kernel writes the text there. *)
Lemma long_args_stray :
  exists w', write_args (PageTable_token (page_table two_ms)) [replicate 20 Byte.x61] 65560 args_world =
      Ok ((65544, 65523), w') /\
    data_frames (page_table two_ms) !! 15 = None /\ page_bytes (w_mm w') 0 !! 4083%nat = Some Byte.x61.
Proof. eexists. split; [vm_compute; reflexivity|]. by vm_compute. Qed.
