(* ===== verification/Shell.v ===== *)
(** * The shell

    [apps/src/bin/shell.rs]: the line editor, the parser of a command line
    and what the shell does with a command.  A [String] is its list of
    characters, and a character its code point. *)

From S2P Require Import Prelude Config Bytes.

Abbreviation text := (list Z).

(** ** The command line *)

(** [char::is_whitespace] *)
Definition is_whitespace (c : Z) : bool :=
  (9 <=? c) && (c <=? 13) || (c =? 32) || (c =? 0x85) || (c =? 0xa0) || (c =? 0x1680) ||
  (0x2000 <=? c) && (c <=? 0x200a) || (c =? 0x2028) || (c =? 0x2029) || (c =? 0x202f) || (c =? 0x205f) || (c =? 0x3000).

(** [str::split_whitespace]; [word] is the current word, reversed. *)
Definition flush (word : text) : list text := match word with [] => [] | _ => [reverse word] end.
Fixpoint split_words (word s : text) : list text :=
  match s with
  | [] => flush word
  | c :: s => if is_whitespace c then flush word ++ split_words [] s else split_words (c :: word) s
  end.
Definition split_whitespace (s : text) : list text := split_words [] s.

Record CommandArguments := MkArgs {
  argc : nat;
  argv : list text;
  input_file : option text;
  output_file : option text;
}.

Definition GT : text := [62].
Definition LT : text := [60].

(** The loop of [CommandArguments::new] over the words. *)
Fixpoint parse_words (words : list text) (a : CommandArguments) : CommandArguments :=
  match words with
  | [] => a
  | w :: rest =>
      if bool_decide (w = GT) then
        match rest with
        | [] => MkArgs (argc a) (argv a) (input_file a) None
        | f :: rest => parse_words rest (MkArgs (argc a) (argv a) (input_file a) (Some f))
        end
      else if bool_decide (w = LT) then
        match rest with
        | [] => MkArgs (argc a) (argv a) None (output_file a)
        | f :: rest => parse_words rest (MkArgs (argc a) (argv a) (Some f) (output_file a))
        end
      else parse_words rest (MkArgs (S (argc a)) (argv a ++ [w]) (input_file a) (output_file a))
  end.

(** [CommandArguments::new] *)
Definition CommandArguments_new (command : text) : CommandArguments :=
  parse_words (split_whitespace command) (MkArgs 0 [] None None).

(** ** Commands *)

(** What a line makes the shell do. *)
Inductive action :=
  | Prompt                                                       (** the next prompt *)
  | ChangeDir (path : text)                                      (** [cd] and [getcwd] *)
  | TooManyArgs                                                  (** the message *)
  | Quit                                                         (** [break] *)
  | Spawn (path : text) (args : list text) (input output : option text).  (** [fork], and [exec] in the child *)

Definition str_cd : text := [99; 100].
Definition str_exit : text := [101; 120; 105; 116].
Definition str_bin : text := [47; 98; 105; 110; 47].
Definition SLASH : Z := 47.

(** The path of [exec] in the child. *)
Definition exec_path (path : text) : text := if bool_decide (SLASH ∈ path) then path else str_bin ++ path.

(** A turn of the loop of [main], on the line read; [is_dir] tells what
    [is_dir] finds. *)
Definition shell_turn (is_dir : text -> bool) (line : text) : res action :=
  match line with
  | [] => Ok Prompt
  | _ =>
      let a := CommandArguments_new line in
      let? cmd := match argv a with c :: _ => Ok c | [] => Panic IndexOutOfBounds end in
      Ok (if bool_decide (cmd = str_cd) then
            match argc a with
            | 1%nat => ChangeDir [SLASH]
            | 2%nat => ChangeDir (default [] (argv a !! 1%nat))
            | _ => TooManyArgs
            end
          else if bool_decide (cmd = str_exit) then Quit
          else if is_dir cmd && Nat.eqb (argc a) 1 then ChangeDir cmd
          else Spawn (exec_path cmd) (argv a) (input_file a) (output_file a))
  end.

(** ** The line editor *)

Definition LF : Z := 0x0a.
Definition CR : Z := 0x0d.
Definition DL : Z := 0x7f.
Definition BS : Z := 0x08.

(** The loop of [getline] over the bytes of the keyboard: the line, what was
    printed, and the bytes not read; without a line end it waits. *)
Fixpoint getline_loop (keys : list Z) (input echo : text) : option (text * text * list Z) :=
  match keys with
  | [] => None
  | ch :: keys =>
      if ch =? DL then
        match input with
        | [] => getline_loop keys input echo
        | _ => getline_loop keys (removelast input) (echo ++ [BS; 32; BS])
        end
      else if (ch =? LF) || (ch =? CR) then Some (input, echo ++ [LF], keys)
      else getline_loop keys (input ++ [ch]) (echo ++ [ch])
  end.
Definition getline (keys : list Z) : option (text * text * list Z) := getline_loop keys [] [].

(** ** Words *)

(** A word of a command line. *)
Definition is_word (w : text) : Prop := w <> [] /\ Forall (fun c => is_whitespace c = false) w.
Definition is_blank (s : text) : Prop := Forall (fun c => is_whitespace c = true) s.

Lemma split_words_word w : forall word s,
  Forall (fun c => is_whitespace c = false) w -> split_words word (w ++ s) = split_words (reverse w ++ word) s.
Proof.
  induction w as [|c w IH]; intros word s Hw; [done|]. apply Forall_cons in Hw as [Hc Hw]. cbn [split_words app].
  rewrite Hc, IH by done. by rewrite reverse_cons, <- app_assoc.
Qed.

Lemma split_words_blank b : forall s, is_blank b -> split_words [] (b ++ s) = split_words [] s.
Proof.
  induction b as [|c b IH]; intros s Hb; [done|]. apply Forall_cons in Hb as [Hc Hb]. cbn [split_words app]. rewrite Hc.
  by apply IH.
Qed.

(** A word and the blanks behind it. *)
Lemma split_word w b s : is_word w -> is_blank b -> b <> [] -> split_whitespace (w ++ b ++ s) = w :: split_whitespace s.
Proof.
  intros [Hn Hw] Hb Hbn. unfold split_whitespace. rewrite split_words_word, app_nil_r by done.
  destruct b as [|c b]; [done|]. apply Forall_cons in Hb as [Hc Hb]. cbn [app split_words]. rewrite Hc.
  rewrite split_words_blank by done. unfold flush. destruct (reverse w) as [|x r] eqn:E.
  - apply (f_equal reverse) in E. rewrite reverse_involutive in E. done.
  - rewrite <- E, reverse_involutive. done.
Qed.

Lemma split_last w : is_word w -> split_whitespace w = [w].
Proof.
  intros [Hn Hw]. unfold split_whitespace. rewrite <- (app_nil_r w) at 1. rewrite split_words_word, app_nil_r by done.
  cbn [split_words]. unfold flush. destruct (reverse w) as [|x r] eqn:E.
  - apply (f_equal reverse) in E. rewrite reverse_involutive in E. done.
  - by rewrite <- E, reverse_involutive.
Qed.

(** ** Command lines *)

(** A line of words with blanks before, between and behind them. *)
Inductive spaced : text -> list text -> Prop :=
  | spaced_blank b : is_blank b -> spaced b []
  | spaced_last b w : is_blank b -> is_word w -> spaced (b ++ w) [w]
  | spaced_word b w c line words :
      is_blank b -> is_word w -> is_blank c -> c <> [] -> spaced line words -> spaced (b ++ w ++ c ++ line) (w :: words).

Lemma split_spaced line words : spaced line words -> split_whitespace line = words.
Proof.
  intros H. induction H as [b Hb|b w Hb Hw|b w c line words Hb Hw Hc Hn _ IH]; unfold split_whitespace.
  - rewrite <- (app_nil_r b), split_words_blank by done. done.
  - rewrite split_words_blank by done. by apply split_last.
  - rewrite split_words_blank by done. fold (split_whitespace (w ++ c ++ line)). by rewrite split_word, IH.
Qed.

(** The parts of a command: arguments, and files for input and output. *)
Inductive item := Arg (w : text) | In (f : text) | Out (f : text).

Definition item_words (i : item) : list text := match i with Arg w => [w] | In f => [LT; f] | Out f => [GT; f] end.
Definition item_ok (i : item) : Prop :=
  match i with Arg w => is_word w /\ w <> LT /\ w <> GT | In f | Out f => is_word f end.
Definition item_arg (i : item) : option text := match i with Arg w => Some w | _ => None end.
Definition item_in (i : item) : option text := match i with In f => Some f | _ => None end.
Definition item_out (i : item) : option text := match i with Out f => Some f | _ => None end.

(** The last file of a kind counts. *)
Definition last_or (o : option text) (l : list text) : option text := match last l with Some f => Some f | None => o end.

Lemma last_or_cons o f l : last_or o (f :: l) = last_or (Some f) l.
Proof. unfold last_or. rewrite last_cons. by destruct (last l). Qed.

Lemma parse_items items : forall a,
  Forall item_ok items ->
  parse_words (concat (item_words <$> items)) a =
    MkArgs (argc a + length (omap item_arg items)) (argv a ++ omap item_arg items)
      (last_or (input_file a) (omap item_in items)) (last_or (output_file a) (omap item_out items)).
Proof.
  induction items as [|i items IH]; intros a Hok.
  { cbn. destruct a as [n l i o]. cbn. by rewrite Nat.add_0_r, app_nil_r. }
  apply Forall_cons in Hok as [Hi Hok]. destruct i as [w|f|f]; cbn [item_words fmap list_fmap concat app parse_words].
  - destruct Hi as (_ & H1 & H2). rewrite !bool_decide_eq_false_2 by done. rewrite IH by done. cbn.
    rewrite <- app_assoc. f_equal. lia.
  - rewrite bool_decide_eq_false_2, bool_decide_eq_true_2 by done. rewrite IH by done. cbn. by rewrite last_or_cons.
  - rewrite bool_decide_eq_true_2 by done. rewrite IH by done. cbn. by rewrite last_or_cons.
Qed.

(** C16: the shell understands the command lines it is given.  Whatever blanks
    separate its words, a line of arguments and redirections, in any order,
    is parsed to the arguments in their order and to the last file of each
    kind of redirection. *)
Theorem command_line_parsed line items :
  Forall item_ok items -> spaced line (concat (item_words <$> items)) ->
  CommandArguments_new line =
    MkArgs (length (omap item_arg items)) (omap item_arg items) (last (omap item_in items)) (last (omap item_out items)).
Proof.
  intros Hok Hs. unfold CommandArguments_new. rewrite (split_spaced _ _ Hs), parse_items by done. cbn.
  unfold last_or. f_equal; by destruct (last _).
Qed.

(** A line without arguments makes the shell panic: one of blanks, or one
    with redirections only. *)
Theorem no_argument_panics is_dir line items :
  Forall item_ok items -> omap item_arg items = [] -> line <> [] -> spaced line (concat (item_words <$> items)) ->
  shell_turn is_dir line = Panic IndexOutOfBounds.
Proof.
  intros Hok Ha Hn Hs. unfold shell_turn, CommandArguments_new. rewrite (split_spaced _ _ Hs), parse_items, Ha by done.
  by destruct line.
Qed.

(** ** The screen *)

(** A line of the terminal: the cells before the cursor, the nearest first,
    and the cells from it on. *)
Record screen := MkScreen { before : text; after : text }.

(** A character goes into the cell of the cursor; a backspace moves the cursor
    back. *)
Definition show (c : Z) (s : screen) : screen :=
  if c =? BS then
    match before s with
    | [] => s
    | x :: b => MkScreen b (x :: after s)
    end
  else MkScreen (c :: before s) (tail (after s)).
Definition shows (cs : text) (s : screen) : screen := foldl (fun s c => show c s) s cs.

Lemma shows_app cs cs' s : shows (cs ++ cs') s = shows cs' (shows cs s).
Proof. apply foldl_app. Qed.

(** A key that is neither a line end nor a control character, or the key that
    deletes. *)
Definition is_key (k : Z) : Prop := k = DL \/ 32 <= k < 256 /\ k <> DL.

(** The screen shows [prompt] and [input], and blanks behind them. *)
Definition displays (prompt input : text) (s : screen) : Prop :=
  before s = reverse (prompt ++ input) /\ Forall (fun c => c = 32) (after s).

Lemma displays_key prompt input s c :
  displays prompt input s -> c <> BS -> displays prompt (input ++ [c]) (show c s).
Proof.
  intros [Hb Ha] Hc. unfold show. rewrite (proj2 (Z.eqb_neq _ _)) by done. split; cbn.
  - by rewrite Hb, app_assoc, reverse_snoc.
  - destruct (after s); [done|]. by apply Forall_cons in Ha as [_ Ha].
Qed.

Lemma displays_delete prompt input c s :
  displays prompt (input ++ [c]) s -> displays prompt input (shows [BS; 32; BS] s).
Proof.
  intros [Hb Ha]. rewrite app_assoc, reverse_snoc in Hb. cbn [shows foldl]. unfold show at 3. cbn [Z.eqb].
  change (BS =? BS) with true. cbn iota. rewrite Hb. unfold show at 2. change (32 =? BS) with false. cbn iota. cbn [before after tail].
  unfold show. change (BS =? BS) with true. cbn iota. cbn [before after]. split; [done|]. by constructor.
Qed.

(** The line that keys leave: [DL] deletes the last character there is. *)
Definition edit (line : text) (keys : list Z) : text :=
  foldl (fun l k => if k =? DL then removelast l else l ++ [k]) line keys.

Lemma getline_run prompt e rest keys : forall input echo s,
  Forall is_key keys -> e = LF \/ e = CR -> displays prompt input (shows echo s) ->
  exists out, getline_loop (keys ++ e :: rest) input echo = Some (edit input keys, out ++ [LF], rest) /\
    displays prompt (edit input keys) (shows out s).
Proof.
  induction keys as [|k keys IH]; intros input echo s Hk He Hd; cbn [app getline_loop edit foldl].
  - exists echo. rewrite (proj2 (Z.eqb_neq e DL)) by (by destruct He as [->| ->]).
    assert ((e =? LF) || (e =? CR) = true) as -> by (by destruct He as [->| ->]). done.
  - apply Forall_cons in Hk as [Hk Hks]. destruct (Z.eqb_spec k DL) as [->|Hne].
    + destruct input as [|x input]; [by apply IH|].
      destruct (IH (removelast (x :: input)) (echo ++ [BS; 32; BS]) s) as (out & Hrun & Hout); [done|done| |by exists out].
      rewrite shows_app. apply (displays_delete prompt _ (List.last (x :: input) 0)). by rewrite <- app_removelast_last.
    + destruct Hk as [->|[Hk _]]; [done|]. assert ((k =? LF) || (k =? CR) = false) as ->.
      { apply orb_false_iff. split; apply Z.eqb_neq; unfold LF, CR; lia. }
      apply IH; [done|done|]. rewrite shows_app. apply displays_key; [done|]. unfold BS. lia.
Qed.

(** What the user sees is what the shell reads.  After any keys, deletions
    included, [getline] returns at the line end with the line the keys leave,
    and the screen, if it showed the prompt before, shows the prompt and that
    very line, with nothing behind the cursor. *)
Theorem getline_shows prompt keys e rest s :
  Forall is_key keys -> e = LF \/ e = CR -> displays prompt [] s ->
  exists out, getline (keys ++ e :: rest) = Some (edit [] keys, out ++ [LF], rest) /\
    displays prompt (edit [] keys) (shows out s).
Proof. intros Hk He Hd. by apply (getline_run prompt e rest keys [] []). Qed.

(** A backspace character, which some terminals send, is kept in the line,
    while the screen loses a character. *)
Lemma backspace_kept :
  getline [97; 98; BS; LF] = Some ([97; 98; BS], [97; 98; BS; LF], []) /\
  ~ displays [] [97; 98; BS] (shows [97; 98; BS] (MkScreen [] [])).
Proof. split; [done|]. by intros [Hb _]. Qed.

(** ** Witnesses *)

(** [cat < in a > out] with some blanks, and a line of two blanks *)
Definition demo_items : list item := [Arg [99; 97; 116]; In [105; 110]; Arg [97]; Out [111; 117; 116]].
Definition demo_line : text := [32; 99; 97; 116; 9; 60; 32; 105; 110; 32; 97; 32; 32; 62; 32; 111; 117; 116].

Lemma demo_spaced : spaced demo_line (concat (item_words <$> demo_items)).
Proof.
  assert (is_blank [32]) as B1 by (by repeat constructor). assert (is_blank [9]) as B2 by (by repeat constructor).
  assert (is_blank [32; 32]) as B3 by (by repeat constructor). assert (is_blank []) as B0 by constructor.
  assert (forall w, w <> [] -> forallb (fun c => negb (is_whitespace c)) w = true -> is_word w) as Hw.
  { intros w Hn H. split; [done|]. apply Forall_forall. intros c Hc. rewrite List.forallb_forall in H. apply negb_true_iff, H. by apply list_elem_of_In. }
  apply (spaced_word [32] [99; 97; 116] [9]); [done|by apply Hw|done|done|].
  apply (spaced_word [] [60] [32]); [done|by apply Hw|done|done|].
  apply (spaced_word [] [105; 110] [32]); [done|by apply Hw|done|done|].
  apply (spaced_word [] [97] [32; 32]); [done|by apply Hw|done|done|].
  apply (spaced_word [] [62] [32]); [done|by apply Hw|done|done|].
  apply (spaced_last [] [111; 117; 116]); [done|by apply Hw].
Qed.

Lemma demo_items_ok : Forall item_ok demo_items.
Proof. repeat constructor; done. Qed.

Lemma command_line_parsed_witness :
  CommandArguments_new demo_line = MkArgs 2 [[99; 97; 116]; [97]] (Some [105; 110]) (Some [111; 117; 116]).
Proof. exact (command_line_parsed demo_line demo_items demo_items_ok demo_spaced). Defined.

Lemma no_argument_panics_witness : shell_turn (fun _ => false) [32; 32] = Panic IndexOutOfBounds.
Proof.
  apply (no_argument_panics (fun _ => false) [32; 32] []); [constructor|done|done|]. apply spaced_blank. by repeat constructor.
Defined.

(** The keys [l], [x], delete, [s] *)
Lemma getline_shows_witness :
  exists out, getline [108; 120; DL; 115; CR] = Some ([108; 115], out ++ [LF], []) /\
    displays [36; 32] [108; 115] (shows out (MkScreen [32; 36] [])).
Proof.
  apply (getline_shows [36; 32] [108; 120; DL; 115] CR [] (MkScreen [32; 36] [])); [|by right|by split].
  assert (forall k, 32 <= k < 127 -> is_key k) as Hk by (intros k H; right; unfold DL; lia).
  constructor; [apply Hk; lia|]. constructor; [apply Hk; lia|]. constructor; [by left|]. constructor; [apply Hk; lia|constructor].
Defined.
