(* ===== verification/Apps.v ===== *)
(** * Applications

    [apps/src/bin/sleep.rs] and [ls.rs]: the parser of times, and the names
    that are printed for a directory. *)

From S2P Require Import Prelude Config Bytes Utf8 BlockStore Layout Process.

(** ** [sleep] *)

Module Sleep.
Definition MS_PER_SECOND : Z := 1000.
Definition SECONDS_PER_MINUTE : Z := 60.
Definition SECONDS_PER_HOUR : Z := 3600.
Definition SECONDS_PER_DAY : Z := 86400.

Definition digit (c : u8) : option Z :=
  let z := byte.unsigned c in if (48 <=? z) && (z <=? 57) then Some (z - 48) else None.

(** [str::parse::<usize>]: digits, with the overflow checks, behind an
    optional plus sign. *)
Fixpoint parse_digits (bs : list u8) (acc : Z) : option Z :=
  match bs with
  | [] => Some acc
  | c :: bs =>
      d ← digit c;
      let n := acc * 10 + d in
      if n <? 2 ^ 64 then parse_digits bs n else None
  end.
Definition parse_usize (bs : list u8) : option Z :=
  match bs with
  | [] => None
  | c :: rest =>
      if Byte.eqb c Byte.x2b then match rest with [] => None | _ => parse_digits rest 0 end
      else parse_digits bs 0
  end.

Inductive error := InvalidNumber | UnsupportedTimeUnit.

(** [str::is_char_boundary] at the last byte: [split_at] panics elsewhere. *)
Definition splits_before_last (bs : list u8) : bool :=
  match last bs with Some c => negb (continuation c) | None => false end.

(** [parse_time_argument] of a text that is not empty *)
Definition parse_time_argument (arg : list u8) : res (Z + error) :=
  match parse_usize arg with
  | Some time => Ok (inl (w64 (time * MS_PER_SECOND)))
  | None =>
      let? _ := assert (splits_before_last arg) in
      match parse_usize (removelast arg) with
      | None => Ok (inr InvalidNumber)
      | Some number =>
          match last arg with
          | Some Byte.x73 => Ok (inl (w64 (number * MS_PER_SECOND)))
          | Some Byte.x6d => Ok (inl (w64 (w64 (number * SECONDS_PER_MINUTE) * MS_PER_SECOND)))
          | Some Byte.x68 => Ok (inl (w64 (w64 (number * SECONDS_PER_HOUR) * MS_PER_SECOND)))
          | Some Byte.x64 => Ok (inl (w64 (w64 (number * SECONDS_PER_DAY) * MS_PER_SECOND)))
          | _ => Ok (inr UnsupportedTimeUnit)
          end
      end
  end.

(** The loop of [main]: the time to sleep, or an error. *)
Fixpoint total_time (args : list (list u8)) (total : Z) : res (Z + error) :=
  match args with
  | [] => Ok (inl total)
  | [] :: args => total_time args total
  | arg :: args =>
      let? r := parse_time_argument arg in
      match r with
      | inl ms => total_time args (w64 (total + ms))
      | inr e => Ok (inr e)
      end
  end.
End Sleep.

(** ** [ls] *)

Module Ls.
(** The names [list] prints for the bytes of a directory: the entries from
    the third on, each up to its first zero byte.  What is left over behind
    the last whole entry is not printed. *)
Fixpoint chunks_exact (fuel : nat) (bs : list u8) : list (list u8) :=
  match fuel with
  | O => []
  | S fuel =>
      if Nat.leb 32 (length bs) then take 32 bs :: chunks_exact fuel (drop 32 bs) else []
  end.
Definition entry_name (entry : list u8) : res (list u8) :=
  let nm := take 28 entry in
  let len := from_option fst (length nm) (list_find (fun c => c = Byte.x00) nm) in
  let s := take len nm in
  if from_utf8_ok s then Ok s else Panic UnwrapNone.
Fixpoint print_entries (entries : list (list u8)) : res (list (list u8)) :=
  match entries with
  | [] => Ok []
  | e :: entries =>
      let? n := entry_name e in
      let? rest := print_entries entries in
      Ok (n :: rest)
  end.
Definition list_dir (buf : list u8) : res (list (list u8)) :=
  print_entries (drop 2 (chunks_exact (length buf) buf)).
End Ls.

(** ** Times *)

Module SleepSpec.
Import Sleep.

Lemma parse_digits_app bs : forall c acc,
  parse_digits (bs ++ [c]) acc = (n ← parse_digits bs acc; d ← digit c; if n * 10 + d <? 2 ^ 64 then Some (n * 10 + d) else None).
Proof.
  induction bs as [|b bs IH]; intros c acc; cbn [app parse_digits].
  - cbn. by destruct (digit c).
  - destruct (digit b) as [d|]; [|done]. cbn. destruct (_ <? _); [|done]. apply IH.
Qed.

Lemma digit_of d : 0 <= d < 10 -> digit (byte.of_Z (48 + d)) = Some d.
Proof.
  intros Hd. unfold digit. rewrite unsigned_of_Z by lia.
  rewrite (proj2 (Z.leb_le _ _)), (proj2 (Z.leb_le _ _)) by lia. cbn. f_equal. lia.
Qed.

Lemma parse_digits_print fuel : forall n,
  0 <= n < 2 ^ 64 -> n < 10 ^ Z.of_nat fuel -> parse_digits (digits fuel n) 0 = Some n.
Proof.
  induction fuel as [|fuel IH]; intros n Hn Hf; cbn [digits].
  { change (10 ^ Z.of_nat 0) with 1 in Hf. assert (n = 0) as -> by lia. done. }
  pose proof (Z.div_mod n 10 ltac:(lia)) as Hd. pose proof (Z.mod_pos_bound n 10 ltac:(lia)) as Hm.
  rewrite parse_digits_app. destruct (Z.ltb_spec n 10) as [Hlt|Hge].
  - cbn. rewrite digit_of by lia. cbn. rewrite Z.mod_small by lia. by rewrite (proj2 (Z.ltb_lt _ _)) by lia.
  - assert (0 <= n / 10) by (apply Z.div_pos; lia). rewrite IH; [|lia|].
    + cbn. rewrite digit_of by lia. cbn. rewrite (proj2 (Z.ltb_lt _ _)) by lia. f_equal. lia.
    + rewrite Nat2Z.inj_succ, Z.pow_succ_r in Hf by lia. lia.
Qed.

Lemma digits_nonempty fuel n : digits (S fuel) n <> [].
Proof. cbn [digits]. by destruct (if n <? 10 then _ else _). Qed.

(** The printed number starts with a digit. *)
Lemma digits_head fuel : forall n, 0 <= n -> exists d bs, 0 <= d < 10 /\ digits (S fuel) n = byte.of_Z (48 + d) :: bs.
Proof.
  induction fuel as [|fuel IH]; intros n Hn.
  - pose proof (Z.mod_pos_bound n 10 ltac:(lia)). exists (n mod 10), []. split; [done|]. cbn [digits]. by destruct (n <? 10).
  - pose proof (Z.mod_pos_bound n 10 ltac:(lia)). change (digits (S (S fuel)) n) with
      ((if n <? 10 then [] else digits (S fuel) (n / 10)) ++ [byte.of_Z (48 + n mod 10)]).
    destruct (n <? 10); [by exists (n mod 10), []|].
    destruct (IH (n / 10)) as (d & bs & Hd & ->); [by apply Z.div_pos|]. by exists d, (bs ++ [byte.of_Z (48 + n mod 10)]).
Qed.

Lemma parse_usize_print n : 0 <= n < 2 ^ 64 -> parse_usize (to_string n) = Some n.
Proof.
  intros Hn. unfold to_string. destruct (digits_head 19 n) as (d & bs & Hd & E); [lia|].
  assert (n < 10 ^ Z.of_nat 20) as H20 by (change (10 ^ Z.of_nat 20) with 100000000000000000000; lia).
  pose proof (parse_digits_print 20 n Hn H20) as Hp. rewrite E in *. unfold parse_usize.
  destruct (Byte.eqb (byte.of_Z (48 + d)) Byte.x2b) eqn:Eb; [|done].
  apply Byte.byte_dec_bl in Eb. apply (f_equal byte.unsigned) in Eb. rewrite unsigned_of_Z in Eb by lia. change (byte.unsigned Byte.x2b) with 43 in Eb. lia.
Qed.

(** The multiplier of a unit; without one the number is of seconds. *)
Inductive unit_of : list u8 -> Z -> Prop :=
  | unit_none : unit_of [] 1000
  | unit_s : unit_of [Byte.x73] 1000
  | unit_m : unit_of [Byte.x6d] 60000
  | unit_h : unit_of [Byte.x68] 3600000
  | unit_d : unit_of [Byte.x64] 86400000.

Lemma parse_digits_bad bs : forall c acc, digit c = None -> parse_digits (bs ++ [c]) acc = None.
Proof. intros c acc Hc. rewrite parse_digits_app, Hc. by destruct (parse_digits bs acc). Qed.

Lemma parse_usize_bad n c : 0 <= n < 2 ^ 64 -> digit c = None -> parse_usize (to_string n ++ [c]) = None.
Proof.
  intros Hn Hc. unfold to_string. destruct (digits_head 19 n) as (d & bs & Hd & E); [lia|]. rewrite E. cbn [app parse_usize].
  destruct (Byte.eqb _ Byte.x2b).
  - by destruct bs; cbn [app]; [cbn; rewrite Hc|rewrite app_comm_cons; apply parse_digits_bad].
  - rewrite app_comm_cons. by apply parse_digits_bad.
Qed.

(** [sleep] understands its arguments.  A number of seconds, or a number
    with one of the units s, m, h and d, gives that time in milliseconds, as
    long as it fits into 64 bits; the arguments add up. *)
Theorem sleep_argument n u k :
  0 <= n -> unit_of u k -> n * k < 2 ^ 64 -> parse_time_argument (to_string n ++ u) = Ok (inl (n * k)).
Proof.
  intros Hn Hu Hk. assert (0 <= n < 2 ^ 64) as Hr by (destruct Hu; lia). unfold parse_time_argument. destruct Hu.
  1: { rewrite app_nil_r, parse_usize_print by done. unfold MS_PER_SECOND. by rewrite w64_id by (unfold is_u64; lia). }
  all: rewrite parse_usize_bad by done; unfold splits_before_last; rewrite last_snoc; cbn [assert negb continuation res_bind];
    rewrite removelast_last, parse_usize_print by done.
  all: change (assert (negb _)) with (Ok tt); cbn [res_bind]; unfold MS_PER_SECOND, SECONDS_PER_MINUTE, SECONDS_PER_HOUR, SECONDS_PER_DAY.
  all: rewrite ?(w64_id (n * 60)), ?(w64_id (n * 3600)), ?(w64_id (n * 86400)) by (unfold is_u64; lia).
  all: rewrite w64_id by (unfold is_u64; lia); do 2 f_equal; lia.
Qed.

(** An argument that ends in a character of several bytes makes [split_at]
    panic, and a time too long for 64 bits is cut without a message. *)
Lemma sleep_oddities :
  parse_time_argument [Byte.x35; Byte.xc3; Byte.xa9] = Panic AssertFailed /\
  parse_time_argument (to_string 18446744073709552) = Ok (inl 384).
Proof. by vm_compute. Qed.

(** [5m] *)
Lemma sleep_argument_witness : parse_time_argument [Byte.x35; Byte.x6d] = Ok (inl 300000).
Proof. exact (sleep_argument 5 [Byte.x6d] 60000 ltac:(lia) unit_m ltac:(lia)). Defined.
End SleepSpec.

(** ** Listings *)

Module LsSpec.
Import Ls.

Lemma chunks_exact_concat es : forall fuel rest,
  Forall (fun e => length e = 32%nat) es -> (length rest < 32)%nat -> (length es < fuel)%nat ->
  chunks_exact fuel (concat es ++ rest) = es.
Proof.
  induction es as [|e es IH]; intros [|fuel] rest He Hr Hf; cbn [length] in Hf; try lia; cbn [chunks_exact concat app].
  - by rewrite (proj2 (Nat.leb_gt _ _)) by lia.
  - apply Forall_cons in He as [He Hes]. rewrite <- app_assoc, length_app, (proj2 (Nat.leb_le _ _)) by lia.
    rewrite take_app_length', drop_app_length' by done. f_equal. apply IH; [done|done|lia].
Qed.

(** A name as a directory can have it. *)
Definition is_name (nm : list u8) : Prop := (length nm <= 28)%nat /\ (Byte.x00 ∉ nm) /\ from_utf8_ok nm = true.

Definition entry_bytes (nm : list u8) (i : Z) : list u8 := nm ++ replicate (28 - length nm) Byte.x00 ++ le_put 4 i.

Lemma entry_bytes_new nm i : is_name nm -> exists e, DirEntry_new nm i = Ok e /\ as_bytes e = entry_bytes nm i.
Proof.
  intros (Hl & _ & _). unfold DirEntry_new. efs_consts. rewrite (proj2 (Z.leb_le _ _)) by lia. eexists. split; [done|].
  unfold as_bytes, entry_bytes. cbn [name inode_number]. unfold splice. rewrite drop_replicate, <- !app_assoc. done.
Qed.

Lemma length_entry_bytes nm i : is_name nm -> length (entry_bytes nm i) = 32%nat.
Proof. intros (Hl & _ & _). unfold entry_bytes. rewrite !length_app, length_replicate, length_le_put. lia. Qed.

Lemma entry_name_new nm i : is_name nm -> entry_name (entry_bytes nm i) = Ok nm.
Proof.
  intros (Hl & Hz & Hu). unfold entry_name, entry_bytes. rewrite app_assoc.
  rewrite take_app_length' by (rewrite length_app, length_replicate; lia).
  rewrite length_app, length_replicate. destruct (28 - length nm)%nat as [|k] eqn:Ek.
  - cbn [replicate]. rewrite app_nil_r. assert (list_find (fun c => c = Byte.x00) nm = None) as ->.
    { apply list_find_None, Forall_forall. by intros x Hx ->. }
    cbn [from_option]. rewrite take_ge by lia. by rewrite Hu.
  - rewrite list_find_zero by done. cbn [from_option fst]. by rewrite take_app_length, Hu.
Qed.

(** [ls] lists a directory.  For the bytes of a directory whose entries
    are those of the names [dot], [dotdot] and [nms], as [DirEntry::new] makes
    them, it prints exactly the names [nms], in their order. *)
Theorem ls_lists_directory entries d1 d2 nms ino :
  Forall is_name (d1 :: d2 :: nms) -> length ino = length (d1 :: d2 :: nms) ->
  Forall2 (fun p e => DirEntry_new p.1 p.2 = Ok e) (zip (d1 :: d2 :: nms) ino) entries ->
  list_dir (concat (as_bytes <$> entries)) = Ok nms.
Proof.
  intros Hn Hl Hes. set (names := d1 :: d2 :: nms) in *.
  assert (as_bytes <$> entries = zip_with entry_bytes names ino) as ->.
  { clearbody names. revert ino entries Hl Hes. induction Hn as [|nm names Hnm _ IH]; intros [|i ino] entries Hl Hes; try done.
    - by apply Forall2_nil_inv_l in Hes as ->.
    - cbn [zip zip_with] in Hes. apply Forall2_cons_inv_l in Hes as (e & es & He & Hes & ->). cbn [fst snd] in He.
      destruct (entry_bytes_new nm i Hnm) as (e' & He' & Hb). assert (e' = e) as -> by congruence.
      cbn [fmap list_fmap zip_with]. rewrite Hb. f_equal. apply IH; [by injection Hl|done]. }
  unfold list_dir. set (es := zip_with entry_bytes names ino).
  assert (Forall (fun e => length e = 32%nat) es) as H32.
  { unfold es. clear -Hn. clearbody names. revert ino. induction Hn as [|nm names Hnm _ IH]; intros [|i ino]; cbn; constructor; auto.
    by apply length_entry_bytes. }
  rewrite <- (app_nil_r (concat es)) at 2. rewrite chunks_exact_concat; [|done|cbn; lia|].
  2:{ assert (length (concat es) = (32 * length es)%nat) as ->.
      { clear -H32. induction H32 as [|e es He _ IH]; cbn; [done|]. rewrite length_app, IH, He. lia. }
      assert (0 < length es)%nat; [|lia]. unfold es, names. destruct ino; [done|]. cbn. lia. }
  unfold es, names in *. destruct ino as [|i1 [|i2 ino]]; try done. cbn [zip_with drop]. rewrite drop_0.
  apply Forall_cons in Hn as [_ Hn]. apply Forall_cons in Hn as [_ Hn]. clear -Hn Hl. cbn in Hl. injection Hl as Hl.
  revert ino Hl. induction Hn as [|nm nms Hnm _ IH]; intros [|i ino] Hl; try done. cbn [zip_with print_entries].
  rewrite entry_name_new by done. cbn [res_bind]. rewrite IH; [done|by injection Hl].
Qed.

(** A directory with the one file [a] *)
Lemma ls_lists_directory_witness :
  exists entries, list_dir (concat (as_bytes <$> entries)) = Ok [[Byte.x61]] /\ length entries = 3%nat.
Proof.
  assert (forall n, (n < 28)%nat -> is_name (replicate n Byte.x2e)) as Hd.
  { intros n Hn. split; [rewrite length_replicate; lia|]. split; [by intros [? _]%elem_of_replicate|].
    clear Hn. induction n as [|n IH]; [done|]. exact IH. }
  assert (is_name [Byte.x61]) as Ha by (split; [cbn; lia|split; [set_solver|done]]).
  destruct (entry_bytes_new [Byte.x2e] 0 (Hd 1%nat ltac:(lia))) as (e1 & E1 & _).
  destruct (entry_bytes_new [Byte.x2e; Byte.x2e] 0 (Hd 2%nat ltac:(lia))) as (e2 & E2 & _).
  destruct (entry_bytes_new [Byte.x61] 1 Ha) as (e3 & E3 & _).
  exists [e1; e2; e3]. split; [|done].
  apply (ls_lists_directory [e1; e2; e3] [Byte.x2e] [Byte.x2e; Byte.x2e] [[Byte.x61]] [0; 0; 1]); [|done|].
  - constructor; [apply (Hd 1%nat); lia|]. constructor; [apply (Hd 2%nat); lia|]. by constructor.
  - cbn. by repeat constructor.
Defined.
End LsSpec.
