(* ===== verification/UserLib.v ===== *)
(** * The user library

    [user/src/fs.rs], [process.rs], [thread.rs], [sync.rs], [signal.rs] and
    [console.rs].  A program is a tree of system calls: a call carries the
    bytes behind its pointers, and the reply the result and the bytes the
    kernel wrote.  [wp] quantifies over the replies of every kernel that
    behaves as a relation says; [run_user] runs a program on one kernel. *)

From Stdlib Require Import String.
From S2P Require Import Prelude Config Bytes Utf8 Process.

(** ** Calls *)

Inductive ucall :=
  | UGetcwd (len : Z) | UDup (fd : Z) | UDup2 (old_fd new_fd : Z)
  | UMkdir (path : list u8) | UUnlink (path : list u8) (flags : Z) | UChdir (path : list u8)
  | UOpen (path : list u8) (flags : Z) | UClose (fd : Z) | UPipe
  | URead (fd len : Z) | UWrite (fd : Z) (buf : list u8) | UFstat (fd : Z)
  | USleep (ms : Z) | UYield | UKill (pid signal : Z) | UGetTime | UGetpid | UFork
  | UExec (path : list u8) (args : list (list u8)) | UWaitpid (pid : Z)
  | UThreadCreate (entry arg : Z) | UGettid | UWaittid (tid : Z)
  | UMutexCreate (blocking : bool) | UMutexLock (id : Z) | UMutexUnlock (id : Z)
  | USemaphoreCreate (res_count : Z) | USemaphoreUp (id : Z) | USemaphoreDown (id : Z)
  | UCondvarCreate | UCondvarSignal (id : Z) | UCondvarWait (id mutex_id : Z)
  | UFramebuffer | UFramebufferFlush | UKeyPressed | UExit (code : Z).

#[global] Instance ucall_eq_dec : EqDecision ucall.
Proof. solve_decision. Defined.

(** The result in [a0], and what the kernel wrote behind the pointer the call
    passed: the buffer, the [Stat], the exit code or the two descriptors. *)
Record reply := MkReply { result : Z; written : list u8 }.

(** ** Programs *)

Inductive uprog (A : Type) :=
  | UDone (a : A)
  | UPanic (f : fault)
  | UCall (c : ucall) (k : reply -> uprog A).
Arguments UDone {A}.
Arguments UPanic {A}.
Arguments UCall {A}.

Fixpoint ubind {A B} (p : uprog A) (f : A -> uprog B) : uprog B :=
  match p with
  | UDone a => f a
  | UPanic e => UPanic e
  | UCall c k => UCall c (fun r => ubind (k r) f)
  end.
Notation "'do' x '<-' p 'in' q" := (ubind p (fun x => q))
  (at level 10, x pattern, p at level 100, q at level 200) : lemon_scope.
Notation "p ';~' q" := (ubind p (fun _ => q)) (at level 100, right associativity) : lemon_scope.

Definition call (c : ucall) : uprog reply := UCall c UDone.
Definition call_z (c : ucall) : uprog Z := do r <- call c in UDone (result r).
Definition ulift {A} (r : res A) : uprog A := match r with Ok a => UDone a | Panic f => UPanic f end.

(** [for x in l] *)
Fixpoint ueach {X} (f : X -> uprog ()) (l : list X) : uprog () :=
  match l with [] => UDone tt | x :: l => f x ;~ ueach f l end.

(** A string literal. *)
Definition lit (s : string) : list u8 := list_byte_of_string s.

(** ** [user/src/fs.rs] *)

Module OpenFlags.
Definition RDONLY : Z := 0.
Definition WRONLY : Z := Z.shiftl 1 0.
Definition RDWR : Z := Z.shiftl 1 1.
Definition CREATE : Z := Z.shiftl 1 9.
Definition TRUNC : Z := Z.shiftl 1 10.
End OpenFlags.

Module StatMode.
Definition NULL : Z := 0.
Definition DIR : Z := 0x4000.
Definition REG : Z := 0x8000.
Definition LNK : Z := 0xa000.
End StatMode.

(** [Stat], whose fields are at these places of its 32 bytes. *)
Record Stat := MkStat { dev : Z; ino : Z; mode : Z; off : Z; size : Z }.
Definition Stat_new : Stat := MkStat 0 0 StatMode.NULL 0 0.
Definition Stat_of_bytes (bs : list u8) : Stat :=
  MkStat (le_get (slice 0 4 bs)) (le_get (slice 4 4 bs)) (le_get (slice 8 4 bs)) (le_get (slice 16 8 bs))
    (le_get (slice 24 4 bs)).

Definition AT_REMOVEDIR : Z := 1.

(** [format!("{path}\0")] *)
Definition c_string (path : list u8) : list u8 := path ++ [Byte.x00].

(** [getcwd]: the slice and the conversion panic; the new value of the string.
    A result of -1 is a length beyond the buffer. *)
Definition getcwd : uprog (list u8) :=
  do r <- call (UGetcwd 128) in
  let len := w64 (result r) in
  if 128 <? len then UPanic IndexOutOfBounds
  else
    let s := take (Z.to_nat len) (written r) in
    if from_utf8_ok s then UDone s else UPanic UnwrapNone.

Definition dup (fd : Z) : uprog Z := call_z (UDup fd).
Definition dup2 (old_fd new_fd : Z) : uprog Z := call_z (UDup2 old_fd new_fd).
Definition mkdir (path : list u8) : uprog Z := call_z (UMkdir (c_string path)).
Definition unlink (path : list u8) (flags : Z) : uprog Z := call_z (UUnlink (c_string path) flags).
Definition chdir (path : list u8) : uprog Z := call_z (UChdir (c_string path)).
Definition open (path : list u8) (flags : Z) : uprog Z := call_z (UOpen (c_string path) flags).
Definition close (fd : Z) : uprog Z := call_z (UClose fd).
Definition pipe : uprog reply := call UPipe.
Definition read (fd len : Z) : uprog reply := call (URead fd len).
Definition write (fd : Z) (buf : list u8) : uprog Z := call_z (UWrite fd buf).
(** [fstat] into a new [Stat] *)
Definition fstat (fd : Z) : uprog (Z * Stat) :=
  do r <- call (UFstat fd) in
  UDone (result r, if result r =? 0 then Stat_of_bytes (written r) else Stat_new).

(** ** [user/src/console.rs] *)

Definition STDIN : Z := 0.
Definition STDOUT : Z := 1.

(** [print!] and [println!]: [write_fmt] writes the literals and the arguments
    one after the other. *)
Fixpoint print (pieces : list (list u8)) : uprog () :=
  match pieces with
  | [] => UDone tt
  | p :: pieces => write STDOUT p ;~ print pieces
  end.
Definition NL : list u8 := [Byte.x0a].

(** [getchar] *)
Definition getchar : uprog u8 :=
  do r <- read STDIN 1 in UDone (default Byte.x00 (written r !! 0%nat)).

(** ** [user/src/process.rs] *)

Definition yield_ : uprog Z := call_z UYield.
Definition get_time : uprog Z := call_z UGetTime.
Definition getpid : uprog Z := call_z UGetpid.
Definition fork : uprog Z := call_z UFork.
Definition exec (path : list u8) (args : list (list u8)) : uprog Z :=
  call_z (UExec (c_string path) (c_string <$> args)).

(** The loop of [wait] and [waitpid]; the kernel writes the exit code. *)
Fixpoint poll_pid (fuel : nat) (pid : Z) : uprog reply :=
  match fuel with
  | O => UPanic OutOfFuel
  | S fuel =>
      do r <- call (UWaitpid pid) in
      if result r =? -2 then yield_ ;~ poll_pid fuel pid else UDone r
  end.
Definition wait (fuel : nat) : uprog reply := poll_pid fuel (-1).
Definition waitpid (fuel : nat) (pid : Z) : uprog reply := poll_pid fuel (i64 pid).
Definition waitpid_nb (pid : Z) : uprog reply := call (UWaitpid (i64 pid)).

(** ** [user/src/thread.rs] *)

Definition thread_create (entry arg : Z) : uprog Z := call_z (UThreadCreate entry arg).
Definition gettid : uprog Z := call_z UGettid.
Fixpoint waittid (fuel : nat) (tid : Z) : uprog Z :=
  match fuel with
  | O => UPanic OutOfFuel
  | S fuel =>
      do r <- call_z (UWaittid tid) in
      if r =? -2 then yield_ ;~ waittid fuel tid else UDone r
  end.

(** ** [user/src/sync.rs], [user/src/signal.rs] *)

Definition sleep (sleep_ms : Z) : uprog () := call (USleep sleep_ms) ;~ UDone tt.
Definition mutex_create : uprog Z := call_z (UMutexCreate false).
Definition mutex_blocking_create : uprog Z := call_z (UMutexCreate true).
Definition mutex_lock (id : Z) : uprog () := call (UMutexLock id) ;~ UDone tt.
Definition mutex_unlock (id : Z) : uprog () := call (UMutexUnlock id) ;~ UDone tt.
Definition semaphore_create (res_count : Z) : uprog Z := call_z (USemaphoreCreate res_count).
Definition semaphore_up (id : Z) : uprog () := call (USemaphoreUp id) ;~ UDone tt.
Definition semaphore_down (id : Z) : uprog () := call (USemaphoreDown id) ;~ UDone tt.
Definition condvar_create : uprog Z := call_z UCondvarCreate.
Definition condvar_signal (id : Z) : uprog () := call (UCondvarSignal id) ;~ UDone tt.
Definition condvar_wait (id mutex_id : Z) : uprog () := call (UCondvarWait id mutex_id) ;~ UDone tt.
Definition kill (pid signum : Z) : uprog Z := call_z (UKill pid signum).

Module SignalFlags.
Definition SIGINT : Z := Z.shiftl 1 2.
Definition SIGILL : Z := Z.shiftl 1 4.
Definition SIGABRT : Z := Z.shiftl 1 6.
Definition SIGFPE : Z := Z.shiftl 1 8.
Definition SIGSEGV : Z := Z.shiftl 1 11.
End SignalFlags.

(** ** The end of a program *)

(** [exit] does not return. *)
Definition exit (exit_code : Z) : uprog () := call (UExit exit_code) ;~ UPanic ExplicitPanic.

(** The panic handler of [user/src/lang_items.rs]; the compiler gives the place
    and the text. *)
Definition panic_handler (location : option (list u8 * Z)) (message : list u8) : uprog () :=
  match location with
  | Some (file, line) => print [lit "Panicked at "; file; lit ":"; to_string line; lit ", "; message; NL]
  | None => print [lit "Panicked: "; message; NL]
  end ;~
  do pid <- getpid in
  kill (w64 pid) SignalFlags.SIGABRT ;~ UPanic ExplicitPanic.

(** [_start], once it has the arguments: [exit(main(..))], or the handler. *)
Fixpoint start (info : fault -> option (list u8 * Z) * list u8) (main : uprog Z) : uprog () :=
  match main with
  | UDone code => exit code
  | UPanic f => panic_handler (info f).1 (info f).2
  | UCall c k => UCall c (fun r => start info (k r))
  end.

(** ** What every kernel makes of a program *)

Abbreviation event := (ucall * reply)%type.

Section wp.
(** The replies a kernel may give to a call, after the calls so far. *)
Context (ok : list event -> ucall -> reply -> Prop).

(** The program ends without a panic, with [Q] of its calls and its result. *)
Fixpoint wp {A} (p : uprog A) (tr : list event) (Q : list event -> A -> Prop) : Prop :=
  match p with
  | UDone a => Q tr a
  | UPanic _ => False
  | UCall c k => forall r, ok tr c r -> wp (k r) (tr ++ [(c, r)]) Q
  end.

Lemma wp_mono {A} (p : uprog A) : forall tr (Q Q' : list event -> A -> Prop),
  wp p tr Q -> (forall tr' a, Q tr' a -> Q' tr' a) -> wp p tr Q'.
Proof. induction p as [a|f|c k IH]; intros tr Q Q' H HQ; cbn in *; [by apply HQ|done|]. intros r Hr. by eapply IH; eauto. Qed.

Lemma wp_bind {A B} (p : uprog A) (f : A -> uprog B) : forall tr Q,
  wp (ubind p f) tr Q <-> wp p tr (fun tr' a => wp (f a) tr' Q).
Proof.
  induction p as [a|e|c k IH]; intros tr Q; cbn; [done|done|].
  split; intros H r Hr; by apply IH, H.
Qed.

Lemma wp_call_z c tr Q : wp (call_z c) tr Q <-> forall r, ok tr c r -> Q (tr ++ [(c, r)]) (result r).
Proof. done. Qed.

(** An invariant of the body of a loop over a list. *)
Lemma wp_ueach {X} (f : X -> uprog ()) (I : list X -> list event -> Prop) l :
  (forall done_ x rest tr, l = done_ ++ x :: rest -> I done_ tr -> wp (f x) tr (fun tr' _ => I (done_ ++ [x]) tr')) ->
  forall tr, I [] tr -> wp (ueach f l) tr (fun tr' _ => I l tr').
Proof.
  intros Hf. enough (forall rest done_ tr, l = done_ ++ rest -> I done_ tr -> wp (ueach f rest) tr (fun tr' _ => I l tr')) as H
    by (intros tr; by apply (H l [])).
  induction rest as [|x rest IH]; intros done_ tr Hl HI; cbn [ueach].
  { cbn. by rewrite Hl, app_nil_r. }
  apply wp_bind. eapply wp_mono; [by apply (Hf done_ x rest)|]. cbn. intros tr' _ HI'. apply (IH (done_ ++ [x])); [|done].
  by rewrite <- app_assoc.
Qed.
End wp.

(** ** One kernel *)

Section run.
Context {S : Type} (kernel : ucall -> S -> reply * S).

Fixpoint run_user {A} (p : uprog A) (s : S) (tr : list event) : res A * list event * S :=
  match p with
  | UDone a => (Ok a, tr, s)
  | UPanic f => (Panic f, tr, s)
  | UCall c k => let '(r, s') := kernel c s in run_user (k r) s' (tr ++ [(c, r)])
  end.

(** The replies of a run are ones that [ok] allows. *)
Fixpoint trace_ok (ok : list event -> ucall -> reply -> Prop) (tr es : list event) : Prop :=
  match es with
  | [] => True
  | e :: es => ok tr e.1 e.2 /\ trace_ok ok (tr ++ [e]) es
  end.

(** A run with such replies comes to its end. *)
Lemma run_wp ok {A} (p : uprog A) Q : forall s tr a tr' s',
  run_user p s tr = (a, tr', s') -> exists es, tr' = tr ++ es /\
    (trace_ok ok tr es -> wp ok p tr Q -> exists x, a = Ok x /\ Q tr' x).
Proof.
  induction p as [x|f|c k IH]; intros s tr a tr' s' Hrun; cbn in Hrun.
  - simplify_eq. exists []. split; [by rewrite app_nil_r|]. intros _ H. by exists x.
  - simplify_eq. exists []. split; [by rewrite app_nil_r|]. by intros _ [].
  - destruct (kernel c s) as [r s1]. destruct (IH r s1 _ _ _ _ Hrun) as (es & -> & H). exists ((c, r) :: es).
    split; [by rewrite <- app_assoc|]. cbn. intros [Hc Hes] Hw. by apply H, Hw.
Qed.
End run.

(** ** What a trace shows *)

(** The bytes written to the standard output. *)
Definition stdout (tr : list event) : list u8 :=
  flat_map (fun e : event => match e.1 with UWrite fd bs => if fd =? STDOUT then bs else [] | _ => [] end) tr.
Lemma stdout_app tr tr' : stdout (tr ++ tr') = stdout tr ++ stdout tr'.
Proof. apply flat_map_app. Qed.
(** Printing, on any kernel, adds calls that write. *)
Definition prints (pieces : list (list u8)) (es : list event) : Prop :=
  Forall2 (fun p (e : event) => e.1 = UWrite STDOUT p) pieces es.

Lemma prints_stdout pieces es : prints pieces es -> stdout es = concat pieces.
Proof. induction 1 as [|p e ps es He _ IH]; [done|]. cbn. rewrite He, Z.eqb_refl. cbn. by rewrite <- IH. Qed.
Lemma wp_print ok pieces : forall tr (Q : list event -> () -> Prop),
  (forall es, prints pieces es -> Q (tr ++ es) tt) -> wp ok (print pieces) tr Q.
Proof.
  induction pieces as [|p pieces IH]; intros tr Q HQ; cbn [print].
  - rewrite <- (app_nil_r tr). apply (HQ []). constructor.
  - apply wp_bind, wp_call_z. intros r _. apply IH. intros es Hes. rewrite <- app_assoc. apply HQ. by constructor.
Qed.

(** ** The results of calls *)

(** The range of the results the kernel has for a call, not which one it gives
    when: [flags] of [unlink] decides whether a directory can be found not to
    be empty. *)
Definition result_ok (c : ucall) (r : Z) : Prop :=
  match c with
  | UMkdir _ | UChdir _ => r = 0 \/ r = -1 \/ r = -2
  | UUnlink _ flags => r = 0 \/ r = -1 \/ r = -2 \/ r = -3 /\ Z.land flags AT_REMOVEDIR = AT_REMOVEDIR
  | UOpen _ _ | UDup _ => -1 <= r
  | UClose _ | UFstat _ | UDup2 _ _ => r = 0 \/ r = -1
  | UGetcwd len => r = -1 \/ 0 <= r <= len
  | _ => True
  end.

(** ** What programs rely on *)

(** The files the program has open by their paths, with the offsets: a
    descriptor whose offset another one shares is left out. *)
Definition track (m : gmap Z (list u8 * Z)) (e : event) : gmap Z (list u8 * Z) :=
  match e.1 with
  | UOpen path _ => if 0 <=? result e.2 then <[result e.2 := (path, 0)]> m else m
  | UClose fd => delete fd m
  | URead fd _ => alter (fun x => (x.1, x.2 + Z.max 0 (result e.2))) fd m
  | UWrite fd _ => alter (fun x => (x.1, x.2 + Z.max 0 (result e.2))) fd m
  | UDup fd => delete fd (delete (result e.2) m)
  | UDup2 old_fd new_fd => delete old_fd (delete new_fd m)
  | UFork => ∅
  | _ => m
  end.
Definition fds (tr : list event) : gmap Z (list u8 * Z) := foldl track ∅ tr.

Lemma fds_snoc tr e : fds (tr ++ [e]) = track (fds tr) e.
Proof. unfold fds. by rewrite foldl_app. Qed.

(** The program has left its standard streams alone. *)
Definition leaves_std (c : ucall) : Prop := match c with UClose fd | UDup2 _ fd => 3 <= fd | _ => True end.
Definition std_open (tr : list event) : Prop := Forall (fun e : event => leaves_std e.1) tr.

Lemma std_open_snoc tr e : std_open tr -> leaves_std e.1 -> std_open (tr ++ [e]).
Proof. intros Ht He. by apply Forall_app_2; [|constructor]. Qed.

(** A kernel, as programs rely on it: its results, and that an open descriptor
    is open and can be put in the place of a standard one. *)
Class Kernel (ok : list event -> ucall -> reply -> Prop) : Prop := {
  kernel_result tr c r : ok tr c r -> result_ok c (result r);
  kernel_open tr path flags r : ok tr (UOpen path flags) r -> result r < 2 ^ 63 /\ fds tr !! result r = None;
  kernel_std tr path flags r : ok tr (UOpen path flags) r -> std_open tr -> result r = -1 \/ 3 <= result r;
  kernel_fstat tr fd r : ok tr (UFstat fd) r -> is_Some (fds tr !! fd) -> result r = 0;
  kernel_dup2 tr old_fd new_fd r : ok tr (UDup2 old_fd new_fd) r -> is_Some (fds tr !! old_fd) ->
    0 <= new_fd < 3 -> result r = 0;
}.

(** A file or a directory, and its bytes. *)
Inductive node := NFile (bs : list u8) | NDir (bs : list u8).
Definition node_bytes (n : node) : list u8 := match n with NFile bs | NDir bs => bs end.
Definition node_mode (n : node) : Z := match n with NFile _ => StatMode.REG | NDir _ => StatMode.DIR end.

(** A kernel that serves the files [F], which has them by their paths. *)
Class FileServer (F : list u8 -> option node) (ok : list event -> ucall -> reply -> Prop) : Prop := {
  server_kernel :: Kernel ok;
  server_open tr path r : ok tr (UOpen path OpenFlags.RDONLY) r -> (result r = -1 <-> F path = None);
  server_fstat tr fd r path pos n :
    ok tr (UFstat fd) r -> fds tr !! fd = Some (path, pos) -> F path = Some n ->
    mode (Stat_of_bytes (written r)) = node_mode n /\ size (Stat_of_bytes (written r)) = Z.of_nat (length (node_bytes n));
  server_read tr fd len r path pos n :
    ok tr (URead fd len) r -> fds tr !! fd = Some (path, pos) -> F path = Some n ->
    written r = take (Z.to_nat len) (drop (Z.to_nat pos) (node_bytes n));
}.

(** Printing leaves the files alone. *)
Lemma fds_prints pieces es tr : prints pieces es -> fds tr !! STDOUT = None -> fds (tr ++ es) = fds tr.
Proof.
  intros Hp. revert tr. induction Hp as [|p e ps es He _ IH]; intros tr H1; [by rewrite app_nil_r|].
  assert (fds (tr ++ [e]) = fds tr) as He' by (rewrite fds_snoc; unfold track; rewrite He; apply alter_id; congruence).
  rewrite <- He'. rewrite <- (IH (tr ++ [e])) by (by rewrite He'). by rewrite <- app_assoc.
Qed.
Lemma std_open_prints pieces es tr : prints pieces es -> std_open tr -> std_open (tr ++ es).
Proof.
  intros Hp Hs. apply Forall_app. split; [done|]. induction Hp as [|p e ps es He _ IH]; constructor; [by rewrite He|done].
Qed.

(** The kernel that gives the replies of a list, for examples. *)
Definition scripted (c : ucall) (rs : list reply) : reply * list reply :=
  match rs with [] => (MkReply (-1) [], []) | r :: rs => (r, rs) end.

(** ** A kernel with files *)

(** The replies a kernel may give that has the files [F], which nobody
    changes. *)
Definition fs_ok (F : list u8 -> option node) (tr : list event) (c : ucall) (r : reply) : Prop :=
  result_ok c (result r) /\
  match c with
  | UOpen path flags =>
      result r < 2 ^ 63 /\ fds tr !! result r = None /\ (result r = -1 \/ 3 <= result r) /\ (result r = -1 <-> F path = None)
  | UFstat fd =>
      match fds tr !! fd with
      | None => True
      | Some (path, _) =>
          result r = 0 /\
          match F path with
          | None => True
          | Some n => mode (Stat_of_bytes (written r)) = node_mode n /\
                      size (Stat_of_bytes (written r)) = Z.of_nat (length (node_bytes n))
          end
      end
  | URead fd len =>
      match fds tr !! fd with
      | None => True
      | Some (path, pos) =>
          match F path with
          | None => True
          | Some n => written r = take (Z.to_nat len) (drop (Z.to_nat pos) (node_bytes n))
          end
      end
  | UDup2 old_fd _ => match fds tr !! old_fd with None => True | Some _ => result r = 0 end
  | _ => True
  end.

#[export] Instance fs_server F : FileServer F (fs_ok F).
Proof.
  split; [split|..].
  - by intros tr c r [H _].
  - by intros tr path flags r (_ & H1 & H2 & _).
  - intros tr path flags r (_ & _ & _ & H & _) _. done.
  - intros tr fd r [_ H] [[path pos] E]. rewrite E in H. by destruct H.
  - intros tr old_fd new_fd r [_ H] [x E]. by rewrite E in H.
  - intros tr path r (_ & _ & _ & _ & H). done.
  - intros tr fd r path pos n [_ H] E En. rewrite E, En in H. by destruct H.
  - intros tr fd len r path pos n [_ H] E En. by rewrite E, En in H.
Qed.

(** ** How a program ends *)

(** A program that comes to its end calls [exit] with its code; one that panics
    sends itself [SIGABRT].  Neither call returns. *)
Theorem start_ends ok info (main : uprog Z) (pid : Z) :
  (forall tr code r, ~ ok tr (UExit code) r) ->
  (forall tr signum r, ~ ok tr (UKill pid signum) r) ->
  (forall tr r, ok tr UGetpid r -> result r = pid) -> 0 <= pid < 2 ^ 63 ->
  forall tr, wp ok (start info main) tr (fun _ _ => False).
Proof.
  intros Hexit Hkill Hpid Hr. induction main as [code|f|c k IH]; intros tr; cbn [start].
  - intros r Hok. by apply Hexit in Hok.
  - unfold panic_handler.
    assert (forall tr', wp ok (do p <- getpid in kill (w64 p) SignalFlags.SIGABRT ;~ UPanic ExplicitPanic) tr' (fun _ (_ : ()) => False)) as H.
    { intros tr'. apply wp_bind, wp_call_z. intros r Hok. rewrite (Hpid _ _ Hok), w64_id by (unfold is_u64; lia).
      intros r2 Hok2. by apply Hkill in Hok2. }
    destruct (info f) as [[[file line]|] message]; apply wp_bind, wp_print; intros es _; apply H.
  - intros r Hok. apply IH.
Qed.
