(* ===== verification/Programs.v ===== *)
(** * Programs

    [apps/src/bin/]: [mkdir], [rm], [rmdir], [touch], [echo], [cat], [ls],
    [sleep] and [daemon], over the user library.  An argument is the bytes of
    its text.  The theorems hold on every kernel that keeps the promises of
    [Kernel], and for [cat] and [ls] on every kernel that serves files. *)

From Stdlib Require Import String.
From S2P Require Import Prelude Config Bytes Utf8 Process Apps UserLib.

(** [&argv[1..]] *)
Definition operands (argv : list (list u8)) : uprog (list (list u8)) :=
  match argv with [] => UPanic IndexOutOfBounds | _ :: l => UDone l end.

(** [vec![0u8; size]] after a [read] into it *)
Definition filled (size : nat) (r : reply) : list u8 := take size (written r ++ replicate size Byte.x00).

Definition missing_operand : uprog Z := print [lit "missing operand" ++ NL] ;~ UDone 1.

Module Mkdir.
Definition target_turn (target : list u8) : uprog () :=
  do r <- mkdir target in
  match r with
  | 0 => UDone tt
  | -1 => print [lit "cannot create directory '"; target; lit "': No such file or directory" ++ NL]
  | -2 => print [lit "cannot create directory '"; target; lit "': File exists" ++ NL]
  | _ => UPanic ExplicitPanic
  end.
Definition main (argc : nat) (argv : list (list u8)) : uprog Z :=
  if Nat.eqb argc 1 then missing_operand
  else do targets <- operands argv in ueach target_turn targets ;~ UDone 0.
End Mkdir.

Module Rm.
Definition filename_turn (filename : list u8) : uprog () :=
  print [filename; NL] ;~
  do r <- unlink filename 0 in
  match r with
  | 0 => UDone tt
  | -1 => print [lit "cannot remove '"; filename; lit "': No such file or directory" ++ NL]
  | -2 => print [lit "cannot remove '"; filename; lit "': Is a directory" ++ NL]
  | _ => UPanic ExplicitPanic
  end.
Definition main (argc : nat) (argv : list (list u8)) : uprog Z :=
  if Nat.eqb argc 1 then missing_operand
  else do filenames <- operands argv in ueach filename_turn filenames ;~ UDone 0.
End Rm.

Module Rmdir.
Definition filename_turn (filename : list u8) : uprog () :=
  print [filename; NL] ;~
  do r <- unlink filename AT_REMOVEDIR in
  match r with
  | 0 => UDone tt
  | -1 => print [lit "cannot remove '"; filename; lit "': No such file or directory" ++ NL]
  | -2 => print [lit "failed to remove '"; filename; lit "': Not a directory" ++ NL]
  | -3 => print [lit "failed to remove '"; filename; lit "': Directory not empty" ++ NL]
  | _ => UPanic ExplicitPanic
  end.
Definition main (argc : nat) (argv : list (list u8)) : uprog Z :=
  if Nat.eqb argc 1 then missing_operand
  else do filenames <- operands argv in ueach filename_turn filenames ;~ UDone 0.
End Rmdir.

Module Touch.
Definition filename_turn (filename : list u8) : uprog () :=
  do fd <- open filename (Z.lor OpenFlags.RDONLY OpenFlags.CREATE) in
  if fd =? -1 then print [lit "cannot access '"; filename; lit "'" ++ NL]
  else close (w64 fd) ;~ UDone tt.
Definition main (argc : nat) (argv : list (list u8)) : uprog Z :=
  if Nat.eqb argc 1 then missing_operand
  else do filenames <- operands argv in ueach filename_turn filenames ;~ UDone 0.
End Touch.

Module Echo.
Definition main (argc : nat) (argv : list (list u8)) : uprog Z :=
  do l <- operands argv in print [join_space l; NL] ;~ UDone 0.
End Echo.

Module Cat.
Definition filename_turn (filename : list u8) : uprog () :=
  do fd <- open filename OpenFlags.RDONLY in
  if fd =? -1 then print [filename; lit ": No such file or directory" ++ NL]
  else
    do (r, stat) <- fstat (w64 fd) in
    match r with
    | 0 =>
        (if mode stat =? StatMode.REG then
           do r <- read (w64 fd) (size stat) in
           let buf := filled (Z.to_nat (size stat)) r in
           if from_utf8_ok buf then print [buf] else UPanic UnwrapNone
         else print [filename; lit ": Is not a file" ++ NL]) ;~
        close (w64 fd) ;~ UDone tt
    | -1 => print [to_string fd; lit ": Bad file descriptor" ++ NL]
    | _ => UPanic ExplicitPanic
    end.
Definition main (argc : nat) (argv : list (list u8)) : uprog Z :=
  do filenames <- operands argv in ueach filename_turn filenames ;~ UDone 0.
End Cat.

Module LsMain.
(** The loop over the entries *)
Definition entry_turn (entry : list u8) : uprog () :=
  do name <- ulift (Ls.entry_name entry) in print [name; NL].
Definition list_target (target : list u8) : uprog () :=
  do fd <- open target OpenFlags.RDONLY in
  if fd =? -1 then print [lit "cannot access '"; target; lit "': No such file or directory" ++ NL]
  else
    do (r, stat) <- fstat (w64 fd) in
    match r with
    | 0 =>
        (if mode stat =? StatMode.REG then print [target; NL]
         else if mode stat =? StatMode.DIR then
           do r <- read (w64 fd) (size stat) in
           let buf := filled (Z.to_nat (size stat)) r in
           ueach entry_turn (drop 2 (Ls.chunks_exact (length buf) buf))
         else UPanic ExplicitPanic) ;~
        close (w64 fd) ;~ UDone tt
    | -1 => print [to_string fd; lit ": Bad file descriptor" ++ NL]
    | _ => UPanic ExplicitPanic
    end.
Definition main (argc : nat) (argv : list (list u8)) : uprog Z :=
  do targets <- (if Nat.ltb 1 argc then operands argv else UDone [lit "."]) in
  ueach list_target targets ;~ UDone 0.
End LsMain.

Module SleepMain.
Definition error_text (e : Sleep.error) : list u8 :=
  match e with Sleep.InvalidNumber => lit "Invalid number" | Sleep.UnsupportedTimeUnit => lit "Unsupported time unit" end.
(** The loop over the arguments: the time, or the code to return. *)
Fixpoint args_loop (args : list (list u8)) (total_sleep_ms : Z) : uprog (Z + Z) :=
  match args with
  | [] => UDone (inl total_sleep_ms)
  | [] :: args => args_loop args total_sleep_ms
  | arg :: args =>
      do r <- ulift (Sleep.parse_time_argument arg) in
      match r with
      | inl ms => args_loop args (w64 (total_sleep_ms + ms))
      | inr e => print [lit "Error parsing time argument '"; arg; lit "': "; error_text e; NL] ;~ UDone (inr 1)
      end
  end.
Definition main (argc : nat) (argv : list (list u8)) : uprog Z :=
  do r <- args_loop (drop 1 argv) 0 in
  match r with
  | inl total_sleep_ms => sleep total_sleep_ms ;~ UDone 0
  | inr code => UDone code
  end.
End SleepMain.

Module Daemon.
(** The loop that collects the children; it has no end. *)
Fixpoint reap_loop (fuel wait_fuel : nat) : uprog Z :=
  match fuel with
  | O => UPanic OutOfFuel
  | S fuel =>
      do r <- wait wait_fuel in
      if result r =? -1 then yield_ ;~ reap_loop fuel wait_fuel else reap_loop fuel wait_fuel
  end.
Definition BANNER : list u8 := lit "
██╗     ███████╗███╗   ███╗ ██████╗ ███╗   ██╗ ██████╗ ██████╗ ██████╗ ███████╗
██║     ██╔════╝████╗ ████║██╔═══██╗████╗  ██║██╔════╝██╔═══██╗██╔══██╗██╔════╝
██║     █████╗  ██╔████╔██║██║   ██║██╔██╗ ██║██║     ██║   ██║██████╔╝█████╗  
██║     ██╔══╝  ██║╚██╔╝██║██║   ██║██║╚██╗██║██║     ██║   ██║██╔══██╗██╔══╝  
███████╗███████╗██║ ╚═╝ ██║╚██████╔╝██║ ╚████║╚██████╗╚██████╔╝██║  ██║███████╗
╚══════╝╚══════╝╚═╝     ╚═╝ ╚═════╝ ╚═╝  ╚═══╝ ╚═════╝ ╚═════╝ ╚═╝  ╚═╝╚══════╝
".
Definition main (fuel wait_fuel : nat) : uprog Z :=
  print [BANNER; NL] ;~
  do pid <- fork in
  if pid =? 0 then exec (lit "/bin/shell") [lit "/bin/shell"] ;~ UDone 0
  else reap_loop fuel wait_fuel.
End Daemon.

(** ** Programs over operands *)

(** The calls a program made, with their results, but for what it printed. *)
Definition calls (tr : list event) : list (ucall * Z) :=
  flat_map (fun e : event => match e.1 with
                             | UWrite fd _ => if fd =? STDOUT then [] else [(e.1, result e.2)]
                             | c => [(c, result e.2)]
                             end) tr.
Lemma calls_app tr tr' : calls (tr ++ tr') = calls tr ++ calls tr'.
Proof. apply flat_map_app. Qed.
Lemma prints_calls pieces es : prints pieces es -> calls es = [].
Proof. induction 1 as [|p e ps es He _ IH]; [done|]. cbn. by rewrite He. Qed.

(** What the programs say about a result. *)
Definition mkdir_says (target : list u8) (r : Z) : list u8 :=
  match r with
  | -1 => lit "cannot create directory '" ++ target ++ lit "': No such file or directory" ++ NL
  | -2 => lit "cannot create directory '" ++ target ++ lit "': File exists" ++ NL
  | _ => []
  end.
Definition rm_says (filename : list u8) (r : Z) : list u8 :=
  filename ++ NL ++
  match r with
  | -1 => lit "cannot remove '" ++ filename ++ lit "': No such file or directory" ++ NL
  | -2 => lit "cannot remove '" ++ filename ++ lit "': Is a directory" ++ NL
  | _ => []
  end.
Definition rmdir_says (filename : list u8) (r : Z) : list u8 :=
  filename ++ NL ++
  match r with
  | -1 => lit "cannot remove '" ++ filename ++ lit "': No such file or directory" ++ NL
  | -2 => lit "failed to remove '" ++ filename ++ lit "': Not a directory" ++ NL
  | -3 => lit "failed to remove '" ++ filename ++ lit "': Directory not empty" ++ NL
  | _ => []
  end.

Section programs.
Context (ok : list event -> ucall -> reply -> Prop) `{!Kernel ok}.

(** A turn makes one call, and says what it says about its result. *)
Definition one_call (c : list u8 -> ucall) (says : list u8 -> Z -> list u8) (f : list u8 -> uprog ()) : Prop :=
  forall x tr, wp ok (f x) tr (fun tr' _ => exists r,
    calls tr' = calls tr ++ [(c x, r)] /\ stdout tr' = stdout tr ++ says x r).

Lemma wp_one_call c says f l : one_call c says f -> forall tr,
  wp ok (ueach f l) tr (fun tr' _ => exists rs, length rs = length l /\
    calls tr' = calls tr ++ zip (c <$> l) rs /\ stdout tr' = stdout tr ++ concat (zip_with says l rs)).
Proof.
  intros Hf. induction l as [|x l IH]; intros tr; cbn [ueach].
  { exists []. cbn. by rewrite !app_nil_r. }
  apply wp_bind. eapply wp_mono; [apply Hf|]. cbn. intros tr1 _ (r & Hc & Hs).
  eapply wp_mono; [apply IH|]. cbn. intros tr2 _ (rs & Hl & Hc2 & Hs2). exists (r :: rs).
  split; [cbn; by rewrite Hl|]. rewrite Hc2, Hc, Hs2, Hs, <- !app_assoc. done.
Qed.

(** A program with operands: without one it complains; else it makes one call
    for each, in order and whatever the others returned, and ends with 0. *)
Definition reports (main : nat -> list (list u8) -> uprog Z) (c : list u8 -> ucall) (says : list u8 -> Z -> list u8) : Prop :=
  forall name l, wp ok (main (length (name :: l)) (name :: l)) [] (fun tr code =>
    match l with
    | [] => code = 1 /\ calls tr = [] /\ stdout tr = lit "missing operand" ++ NL
    | _ => code = 0 /\ exists rs, length rs = length l /\ calls tr = zip (c <$> l) rs /\
             stdout tr = concat (zip_with says l rs)
    end).

Lemma one_call_reports c says f :
  one_call c says f ->
  reports (fun argc argv => if Nat.eqb argc 1 then missing_operand
                            else do l <- operands argv in ueach f l ;~ UDone 0) c says.
Proof.
  intros Hf name [|x l]; cbn [length Nat.eqb operands ubind].
  - apply wp_bind, wp_print. intros es Hes. cbn [wp app]. rewrite (prints_calls _ _ Hes), (prints_stdout _ _ Hes). done.
  - apply wp_bind. eapply wp_mono; [by apply wp_one_call|]. cbn [wp]. intros tr _ (rs & H). by split; [|exists rs].
Qed.

(** A message behind a call. *)
Lemma wp_said (c : ucall) tr0 tr r pre pieces (says : Z -> list u8) :
  (match c with UWrite _ _ => False | _ => True end) ->
  calls tr = calls tr0 -> stdout tr = stdout tr0 ++ pre -> says (result r) = pre ++ concat pieces ->
  wp ok (print pieces) (tr ++ [(c, r)]) (fun tr' _ => exists r',
    calls tr' = calls tr0 ++ [(c, r')] /\ stdout tr' = stdout tr0 ++ says r').
Proof.
  intros Hc Hcs Hs Hsay. apply wp_print. intros es Hes. exists (result r).
  rewrite !calls_app, !stdout_app, (prints_calls _ _ Hes), (prints_stdout _ _ Hes), Hcs, Hs, Hsay.
  rewrite app_nil_r, <- !app_assoc. by destruct c.
Qed.

(** The cases of the result of the call. *)
Ltac said E tr pre :=
  rewrite E;
  match goal with
  | |- wp _ (UDone tt) (_ ++ [(?c, ?r)]) _ => apply (wp_said c _ tr r pre []); [done| | |rewrite E]
  | |- wp _ (print ?ps) (_ ++ [(?c, ?r)]) _ => apply (wp_said c _ tr r pre ps); [done| | |rewrite E]
  end.

Lemma mkdir_turn : one_call (fun x => UMkdir (c_string x)) mkdir_says Mkdir.target_turn.
Proof.
  intros x tr. apply wp_bind, wp_call_z. intros r Hr. pose proof (kernel_result _ _ _ Hr) as H. cbn in H.
  destruct H as [E|[E|E]]; said E tr (@nil u8); rewrite ?app_nil_r; done.
Qed.

Lemma unlink_turn_start x tr (f : uprog ()) says :
  (forall tr1, calls tr1 = calls tr -> stdout tr1 = stdout tr ++ x ++ NL -> wp ok f tr1 says) ->
  wp ok (print [x; NL] ;~ f) tr says.
Proof.
  intros H. apply wp_bind, wp_print. intros es Hes. apply H.
  - by rewrite calls_app, (prints_calls _ _ Hes), app_nil_r.
  - by rewrite stdout_app, (prints_stdout _ _ Hes).
Qed.

Lemma rm_turn : one_call (fun x => UUnlink (c_string x) 0) rm_says Rm.filename_turn.
Proof.
  intros x tr. apply unlink_turn_start. intros tr1 Hc Hs. apply wp_bind, wp_call_z. intros r Hr.
  pose proof (kernel_result _ _ _ Hr) as H. cbn in H.
  destruct H as [E|[E|[E|[_ [=]]]]]; said E tr1 (x ++ NL); try done.
  all: unfold rm_says; cbn [concat]; by rewrite <- !app_assoc, ?app_nil_r.
Qed.

Lemma rmdir_turn : one_call (fun x => UUnlink (c_string x) AT_REMOVEDIR) rmdir_says Rmdir.filename_turn.
Proof.
  intros x tr. apply unlink_turn_start. intros tr1 Hc Hs. apply wp_bind, wp_call_z. intros r Hr.
  pose proof (kernel_result _ _ _ Hr) as H. cbn in H.
  destruct H as [E|[E|[E|[E _]]]]; said E tr1 (x ++ NL); try done.
  all: unfold rmdir_says; cbn [concat]; by rewrite <- !app_assoc, ?app_nil_r.
Qed.
End programs.

(** C37: [mkdir], [rm] and [rmdir] on every kernel whose [mkdir] returns 0, -1
    or -2 and whose [unlink] returns 0, -1, -2, or, only when asked to remove a
    directory, -3, as [sys_mkdir] and [sys_unlink] do.  Whichever of these
    results the calls have, the programs do not panic: each makes one call for
    every operand, in order and whatever the others returned, prints the
    message that belongs to the result, and ends with 0; without an operand it
    says so and ends with 1.  (On any other result they panic.) *)
Theorem operands_reported ok :
  Kernel ok ->
  reports ok Mkdir.main (fun x => UMkdir (c_string x)) mkdir_says /\
  reports ok Rm.main (fun x => UUnlink (c_string x) 0) rm_says /\
  reports ok Rmdir.main (fun x => UUnlink (c_string x) AT_REMOVEDIR) rmdir_says.
Proof.
  intros H. split_and!; apply one_call_reports; [by apply mkdir_turn|by apply rm_turn|by apply rmdir_turn].
Qed.

(** ** Programs that read files *)

(** The program has no file open. *)
Definition idle (tr : list event) : Prop := fds tr = ∅ /\ std_open tr.

Lemma idle_snoc tr e : idle tr -> track ∅ e = ∅ -> leaves_std e.1 -> idle (tr ++ [e]).
Proof. intros [Hf Hs] Ht Hl. split; [by rewrite fds_snoc, Hf|by apply std_open_snoc]. Qed.

Lemma idle_prints pieces es tr : prints pieces es -> idle tr -> idle (tr ++ es).
Proof.
  intros Hp [Hf Hs]. split; [|by eapply std_open_prints]. rewrite (fds_prints _ _ _ Hp); [done|]. by rewrite Hf.
Qed.

Lemma wp_print_idle ok pieces tr says :
  idle tr -> concat pieces = says -> wp ok (print pieces) tr (fun tr' _ => idle tr' /\ stdout tr' = stdout tr ++ says).
Proof.
  intros Hi <-. apply wp_print. intros es Hes. split; [by eapply idle_prints|].
  by rewrite stdout_app, (prints_stdout _ _ Hes).
Qed.

(** A loop whose turns print what they say and leave no file open. *)
Lemma wp_says ok f (says : list u8 -> list u8) l :
  (forall x tr, x ∈ l -> idle tr -> wp ok (f x) tr (fun tr' _ => idle tr' /\ stdout tr' = stdout tr ++ says x)) ->
  forall tr, idle tr -> wp ok (ueach f l) tr (fun tr' _ => idle tr' /\ stdout tr' = stdout tr ++ concat (says <$> l)).
Proof.
  intros Hf. induction l as [|x l IH]; intros tr Hi; cbn [ueach]; [by rewrite app_nil_r|].
  apply wp_bind. eapply wp_mono; [by apply Hf; [left|]|]. cbn. intros tr1 _ (Hi1 & Hs1).
  eapply wp_mono; [apply IH; [|done]|]. { intros y tr' Hy. apply Hf. by right. }
  cbn. intros tr2 _ [Hi2 Hs2]. split; [done|]. by rewrite Hs2, Hs1, <- app_assoc.
Qed.

Section readers.
Context (F : list u8 -> option node) (ok : list event -> ucall -> reply -> Prop) `{!FileServer F ok}.

(** The file [target] is open at [fd], and nothing else. *)
Definition one_open (target : list u8) (fd pos : Z) (tr : list event) : Prop :=
  fds tr = {[fd := (c_string target, pos)]} /\ 3 <= fd < 2 ^ 63 /\ std_open tr.

Lemma one_open_prints pieces es tr target fd pos :
  prints pieces es -> one_open target fd pos tr -> one_open target fd pos (tr ++ es).
Proof.
  intros Hp (Hf & Hr & Hs). split; [|split; [done|by eapply std_open_prints]].
  rewrite (fds_prints _ _ _ Hp); [done|]. rewrite Hf. apply lookup_singleton_ne. unfold STDOUT. lia.
Qed.

Lemma wp_print_open pieces tr target fd pos says :
  one_open target fd pos tr -> concat pieces = says ->
  wp ok (print pieces) tr (fun tr' _ => (exists pos', one_open target fd pos' tr') /\ stdout tr' = stdout tr ++ says).
Proof.
  intros Ho <-. apply wp_print. intros es Hes. split; [exists pos; by eapply one_open_prints|].
  by rewrite stdout_app, (prints_stdout _ _ Hes).
Qed.

(** Opening [target], the call [fstat], the work on the file and closing it. *)
Lemma wp_opened target tr (body : Z -> Stat -> uprog ()) (bad : Z -> uprog ()) miss says :
  idle tr -> (F (c_string target) = None -> concat miss = says) ->
  (forall tr1 fd stat n, F (c_string target) = Some n -> one_open target fd 0 tr1 -> stdout tr1 = stdout tr ->
     mode stat = node_mode n -> size stat = Z.of_nat (length (node_bytes n)) ->
     wp ok (body fd stat) tr1 (fun tr' _ => (exists pos, one_open target fd pos tr') /\ stdout tr' = stdout tr ++ says)) ->
  wp ok (do fd <- open target OpenFlags.RDONLY in
         if fd =? -1 then print miss
         else
           do (r, stat) <- fstat (w64 fd) in
           match r with
           | 0 => body fd stat ;~ close (w64 fd) ;~ UDone tt
           | -1 => bad fd
           | _ => UPanic ExplicitPanic
           end) tr (fun tr' _ => idle tr' /\ stdout tr' = stdout tr ++ says).
Proof.
  intros [Hf Hs] Hmiss Hbody. apply wp_bind, wp_call_z. intros r Hr. cbn beta.
  pose proof (server_open _ _ _ Hr) as Hopen. destruct (kernel_open _ _ _ _ Hr) as [Hlt Hfresh].
  destruct (kernel_std _ _ _ _ Hr Hs) as [E|Hge].
  { rewrite E. cbn [Z.eqb Pos.eqb]. apply wp_print. intros es Hes.
    assert (idle (tr ++ [(UOpen (c_string target) OpenFlags.RDONLY, r)])) as Hi.
    { split; [|by apply std_open_snoc]. rewrite fds_snoc, Hf. cbn. by rewrite E. }
    split; [by eapply idle_prints|]. rewrite !stdout_app, (prints_stdout _ _ Hes), Hmiss by (by apply Hopen).
    cbn. by rewrite app_nil_r. }
  set (fd := result r) in *. rewrite (proj2 (Z.eqb_neq fd (-1))) by lia.
  rewrite (w64_id fd) by (unfold is_u64; lia).
  destruct (F (c_string target)) as [n|] eqn:En; [|by rewrite (proj2 Hopen) in Hge].
  set (tr1 := tr ++ _). assert (one_open target fd 0 tr1) as Ho1.
  { split; [|split; [lia|by apply std_open_snoc]].
    unfold tr1. rewrite fds_snoc, Hf. cbn. rewrite (proj2 (Z.leb_le 0 _)) by (subst fd; lia). done. }
  apply wp_bind, wp_bind. cbn [call wp]. intros r2 Hr2. cbn beta.
  assert (fds tr1 !! fd = Some (c_string target, 0)) as Hfd by (rewrite (proj1 Ho1); apply lookup_singleton_eq).
  destruct (server_fstat _ _ _ _ _ _ Hr2 Hfd En) as [Hm Hz]. rewrite (kernel_fstat _ _ _ Hr2) by (by eexists).
  cbn [Z.eqb wp]. apply wp_bind. eapply wp_mono.
  { apply (Hbody _ fd (Stat_of_bytes (written r2)) n); [done| | |done|done].
    - destruct Ho1 as (H1 & H2 & H3). split; [|split; [done|by apply std_open_snoc]]. by rewrite fds_snoc.
    - unfold tr1. rewrite !stdout_app. cbn. by rewrite !app_nil_r. }
  cbn beta. intros tr3 _ [[pos (Hf3 & _ & Hs3)] Hout]. apply wp_bind, wp_call_z. intros r4 _. cbn [wp]. split.
  - split; [|by apply std_open_snoc; [|cbn; lia]]. rewrite fds_snoc, Hf3. cbn. apply delete_singleton_eq.
  - rewrite stdout_app, Hout. cbn. by rewrite app_nil_r.
Qed.

(** Reading the whole file into a buffer of its size. *)
Lemma filled_all bs r : written r = take (Z.to_nat (Z.of_nat (length bs))) (drop (Z.to_nat 0) bs) ->
  filled (Z.to_nat (Z.of_nat (length bs))) r = bs.
Proof.
  rewrite Nat2Z.id, drop_0, take_ge by done. unfold filled. intros ->. by rewrite take_app_length.
Qed.

Lemma wp_read_all target fd n tr sz (k : list u8 -> uprog ()) Q :
  F (c_string target) = Some n -> one_open target fd 0 tr -> sz = Z.of_nat (length (node_bytes n)) ->
  (forall tr' pos, one_open target fd pos tr' -> stdout tr' = stdout tr -> wp ok (k (node_bytes n)) tr' Q) ->
  wp ok (do r <- read (w64 fd) sz in k (filled (Z.to_nat sz) r)) tr Q.
Proof.
  intros Hn Ho -> Hk. pose proof Ho as (Hf & Hr & Hs). rewrite w64_id by (unfold is_u64; lia). apply wp_bind.
  cbn [read call wp]. intros r Hr'. cbn beta. rewrite (filled_all (node_bytes n)).
  2:{ eapply server_read; [done| |done]. rewrite Hf. apply lookup_singleton_eq. }
  eapply (Hk _ (0 + Z.max 0 (result r))).
  - split; [|split; [done|by apply std_open_snoc]]. rewrite fds_snoc, Hf. cbn.
    by rewrite alter_singleton_eq.
  - rewrite stdout_app. cbn. by rewrite app_nil_r.
Qed.

(** What [cat] prints for an operand. *)
Definition cat_says (filename : list u8) : list u8 :=
  match F (c_string filename) with
  | None => filename ++ lit ": No such file or directory" ++ NL
  | Some (NFile bs) => bs
  | Some (NDir _) => filename ++ lit ": Is not a file" ++ NL
  end.

Lemma cat_turn x tr :
  (forall bs, F (c_string x) = Some (NFile bs) -> from_utf8_ok bs = true) -> idle tr ->
  wp ok (Cat.filename_turn x) tr (fun tr' _ => idle tr' /\ stdout tr' = stdout tr ++ cat_says x).
Proof.
  intros Hu Hi. unfold Cat.filename_turn.
  apply (wp_opened x tr (fun fd stat =>
    if mode stat =? StatMode.REG then
      do r <- read (w64 fd) (size stat) in
      let buf := filled (Z.to_nat (size stat)) r in
      if from_utf8_ok buf then print [buf] else UPanic UnwrapNone
    else print [x; lit ": Is not a file" ++ NL]) (fun fd => print [to_string fd; lit ": Bad file descriptor" ++ NL])); [done| |].
  { unfold cat_says. intros ->. cbn. done. }
  intros tr1 fd stat n En Ho Hout Hm Hz. rewrite <- Hout. unfold cat_says. rewrite En, Hm.
  destruct n as [bs|bs]; cbn [node_mode].
  - change (StatMode.REG =? StatMode.REG) with true. cbn iota.
    apply (wp_read_all x fd (NFile bs) tr1 (size stat) (fun buf => if from_utf8_ok buf then print [buf] else UPanic UnwrapNone)); [done..|].
    intros tr2 pos Ho2 Hout2. cbn [node_bytes]. rewrite (Hu bs) by done. rewrite <- Hout2.
    eapply wp_print_open; [done|]. apply app_nil_r.
  - change (StatMode.DIR =? StatMode.REG) with false. cbn iota. by eapply wp_print_open.
Qed.
(** What [ls] prints for an operand. *)
Definition ls_says (target : list u8) : list u8 :=
  match F (c_string target) with
  | None => lit "cannot access '" ++ target ++ lit "': No such file or directory" ++ NL
  | Some (NFile _) => target ++ NL
  | Some (NDir bs) => match Ls.list_dir bs with Ok names => concat ((fun name => name ++ NL) <$> names) | Panic _ => [] end
  end.

Lemma wp_entries target fd es : forall names pos tr,
  Ls.print_entries es = Ok names -> one_open target fd pos tr ->
  wp ok (ueach LsMain.entry_turn es) tr (fun tr' _ =>
    (exists pos', one_open target fd pos' tr') /\ stdout tr' = stdout tr ++ concat ((fun name => name ++ NL) <$> names)).
Proof.
  induction es as [|e es IH]; intros names pos tr Hes Ho; cbn [Ls.print_entries] in Hes.
  { simplify_eq. cbn. rewrite app_nil_r. by split; [exists pos|]. }
  destruct (Ls.entry_name e) as [nm|] eqn:En; [|done]. cbn [res_bind] in Hes.
  destruct (Ls.print_entries es) as [nms|]; [|done]. cbn [res_bind] in Hes. simplify_eq. cbn [ueach].
  unfold LsMain.entry_turn at 1. rewrite En. cbn [ulift ubind]. apply wp_bind.
  eapply wp_mono; [by eapply wp_print_open|]. cbn beta. intros tr1 _ [[pos1 Ho1] Hs1].
  eapply wp_mono; [by eapply IH|]. cbn beta. intros tr2 _ [Ho2 Hs2]. split; [done|]. rewrite Hs2, Hs1. cbn.
  by rewrite <- !app_assoc.
Qed.

Lemma ls_turn x tr :
  (forall bs, F (c_string x) = Some (NDir bs) -> exists names, Ls.list_dir bs = Ok names) -> idle tr ->
  wp ok (LsMain.list_target x) tr (fun tr' _ => idle tr' /\ stdout tr' = stdout tr ++ ls_says x).
Proof.
  intros Hu Hi. unfold LsMain.list_target.
  apply (wp_opened x tr (fun fd stat =>
    if mode stat =? StatMode.REG then print [x; NL]
    else if mode stat =? StatMode.DIR then
      do r <- read (w64 fd) (size stat) in
      let buf := filled (Z.to_nat (size stat)) r in
      ueach LsMain.entry_turn (drop 2 (Ls.chunks_exact (length buf) buf))
    else UPanic ExplicitPanic) (fun fd => print [to_string fd; lit ": Bad file descriptor" ++ NL])); [done| |].
  { unfold ls_says. intros ->. done. }
  intros tr1 fd stat n En Ho Hout Hm Hz. rewrite <- Hout. unfold ls_says. rewrite En, Hm.
  destruct n as [bs|bs]; cbn [node_mode].
  - change (StatMode.REG =? StatMode.REG) with true. cbn iota. by eapply wp_print_open.
  - change (StatMode.DIR =? StatMode.REG) with false. change (StatMode.DIR =? StatMode.DIR) with true. cbn iota.
    apply (wp_read_all x fd (NDir bs) tr1 (size stat) (fun buf => ueach LsMain.entry_turn (drop 2 (Ls.chunks_exact (length buf) buf)))); [done..|].
    intros tr2 pos Ho2 Hout2. cbn [node_bytes]. rewrite <- Hout2. destruct (Hu bs En) as [names Hl]. rewrite Hl.
    by eapply wp_entries.
Qed.
End readers.

(** C19: On every kernel that serves files, [cat] prints the bytes of the files
    it is given one after the other, and [ls] the names of the directories it
    is given, or of the current one; what is not there, or of the wrong kind,
    gets its message.  Neither panics, as long as the files of [cat] are UTF-8
    and the names of [ls] too; both close every file they open, and end
    with 0. *)
Theorem readers_print F ok name l :
  FileServer F ok ->
  ((forall x bs, x ∈ l -> F (c_string x) = Some (NFile bs) -> from_utf8_ok bs = true) ->
   wp ok (Cat.main (length (name :: l)) (name :: l)) [] (fun tr code =>
     code = 0 /\ fds tr = ∅ /\ stdout tr = concat (cat_says F <$> l))) /\
  (let targets := match l with [] => [lit "."] | _ => l end in
   (forall x bs, x ∈ targets -> F (c_string x) = Some (NDir bs) -> exists names, Ls.list_dir bs = Ok names) ->
   wp ok (LsMain.main (length (name :: l)) (name :: l)) [] (fun tr code =>
     code = 0 /\ fds tr = ∅ /\ stdout tr = concat (ls_says F <$> targets))).
Proof.
  intros HF. assert (idle []) as Hi by (split; [done|constructor]). split.
  - intros Hu. unfold Cat.main. cbn [operands ubind]. apply wp_bind. eapply wp_mono.
    { apply (wp_says ok Cat.filename_turn (cat_says F) l); [|exact Hi]. intros x tr Hx. apply cat_turn; [done|].
      intros bs. by apply Hu. }
    cbn. by intros tr _ [[-> _] ->].
  - intros targets Hu. unfold LsMain.main. apply wp_bind.
    assert (wp ok (ueach LsMain.list_target targets) [] (fun tr _ => idle tr /\ stdout tr = stdout [] ++ concat (ls_says F <$> targets))) as Hw.
    { apply wp_says; [|exact Hi]. intros x tr Hx. apply ls_turn; [done|]. intros bs. by apply Hu. }
    subst targets. destruct l as [|x l]; cbn [length Nat.ltb Nat.leb operands wp]; apply wp_bind;
      (eapply wp_mono; [exact Hw|]); cbn [wp]; by intros tr _ [[-> _] ->].
Qed.

(** ** The other programs *)

(** [touch] closes every file it opens. *)
Theorem touch_closes ok name l :
  Kernel ok ->
  wp ok (Touch.main (length (name :: l)) (name :: l)) [] (fun tr code =>
    code = (if decide (l = []) then 1 else 0) /\ fds tr = ∅).
Proof.
  intros HK. assert (idle []) as Hi by (split; [done|constructor]). unfold Touch.main.
  destruct l as [|x l]; cbn [length Nat.eqb operands ubind].
  { apply wp_bind. eapply wp_mono; [by apply wp_print_idle|]. by intros tr _ [[Hf _] _]. }
  rewrite decide_False by done. apply wp_bind. eapply wp_mono.
  { apply (wp_ueach ok Touch.filename_turn (fun _ => idle)); [|exact Hi]. clear Hi. intros _ y _ tr _ [Hf Hs].
    apply wp_bind, wp_call_z. intros r Hr. cbn beta. destruct (kernel_open _ _ _ _ Hr) as [Hlt _].
    destruct (kernel_std _ _ _ _ Hr Hs) as [E|Hge].
    - rewrite E. cbn [Z.eqb Pos.eqb]. eapply wp_mono; [apply wp_print_idle; [|done]|by intros tr' _ [H _]].
      split; [|by apply std_open_snoc]. rewrite fds_snoc, Hf. cbn. by rewrite E.
    - rewrite (proj2 (Z.eqb_neq (result r) (-1))), w64_id by (unfold is_u64; lia). apply wp_bind, wp_call_z.
      intros r2 _. cbn [wp]. split.
      + rewrite !fds_snoc, Hf. cbn. rewrite (proj2 (Z.leb_le 0 _)) by lia.
        by rewrite delete_insert_eq, delete_empty.
      + apply std_open_snoc; [by apply std_open_snoc|cbn; lia]. }
  cbn. by intros tr _ [-> _].
Qed.

(** [echo] prints its arguments. *)
Theorem echo_prints ok name l :
  wp ok (Echo.main (length (name :: l)) (name :: l)) [] (fun tr code => code = 0 /\ stdout tr = join_space l ++ NL).
Proof.
  unfold Echo.main. cbn [operands ubind]. apply wp_bind, wp_print. intros es Hes. cbn [wp app].
  by rewrite (prints_stdout _ _ Hes).
Qed.

(** [sleep] sleeps for the sum of its arguments. *)
Lemma args_loop_total args : forall total n,
  Sleep.total_time args total = Ok (inl n) -> SleepMain.args_loop args total = UDone (inl n).
Proof.
  induction args as [|[|b arg] args IH]; intros total n H; cbn [Sleep.total_time SleepMain.args_loop] in *; [by simplify_eq|by apply IH|].
  destruct (Sleep.parse_time_argument (b :: arg)) as [[ms|e]|]; cbn [res_bind ulift ubind] in *; [by apply IH|done|done].
Qed.

Theorem sleep_sleeps ok name l n :
  Sleep.total_time l 0 = Ok (inl n) ->
  wp ok (SleepMain.main (length (name :: l)) (name :: l)) [] (fun tr code => code = 0 /\ tr.*1 = [USleep n]).
Proof. intros H. unfold SleepMain.main. cbn [drop]. rewrite drop_0, (args_loop_total _ _ _ H). by intros r _. Qed.

(** The daemon, after it has started the shell, only waits for children and
    yields, for ever. *)
Fixpoint only_calls {A} (P : ucall -> Prop) (p : uprog A) : Prop :=
  match p with
  | UDone _ => False
  | UPanic f => f = OutOfFuel
  | UCall c k => P c /\ forall r, only_calls P (k r)
  end.

Lemma only_poll {A} P pid fuel (k : reply -> uprog A) :
  P (UWaitpid pid) -> P UYield -> (forall r, only_calls P (k r)) -> only_calls P (ubind (poll_pid fuel pid) k).
Proof.
  intros H1 H2 Hk. induction fuel as [|fuel IH]; cbn; [done|]. split; [done|]. intros r.
  destruct (result r =? -2); cbn; [|by apply Hk]. by split.
Qed.

Theorem daemon_reaps fuel wait_fuel :
  only_calls (fun c => c = UWaitpid (-1) \/ c = UYield) (Daemon.reap_loop fuel wait_fuel).
Proof.
  induction fuel as [|fuel IH]; cbn [Daemon.reap_loop]; [done|]. apply only_poll; [by left|by right|]. intros r.
  destruct (result r =? -1); [|done]. cbn. split; [by right|done].
Qed.

(** ** Witnesses *)

(** A file [a] and a directory with it *)
Definition demo_files (path : list u8) : option node :=
  if bool_decide (path = c_string (lit "a")) then Some (NFile (lit "hello"))
  else if bool_decide (path = c_string (lit ".")) then
    Some (NDir (LsSpec.entry_bytes (lit ".") 0 ++ LsSpec.entry_bytes (lit "..") 0 ++ LsSpec.entry_bytes (lit "a") 1))
  else None.
Definition demo_stat (m n : Z) : list u8 := le_put 8 0 ++ le_put 8 m ++ le_put 8 0 ++ le_put 8 n.

(** [cat a b] *)
Definition demo_events : list event :=
  [(UOpen (c_string (lit "a")) 0, MkReply 3 []); (UFstat 3, MkReply 0 (demo_stat StatMode.REG 5));
   (URead 3 5, MkReply 5 (lit "hello")); (UWrite STDOUT (lit "hello"), MkReply 5 []); (UClose 3, MkReply 0 []);
   (UOpen (c_string (lit "b")) 0, MkReply (-1) []); (UWrite STDOUT (lit "b"), MkReply 1 []);
   (UWrite STDOUT (lit ": No such file or directory" ++ NL), MkReply 28 [])].
Definition demo_cat : uprog Z := Cat.main 3 [lit "cat"; lit "a"; lit "b"].

Lemma demo_cat_run : run_user scripted demo_cat (snd <$> demo_events) [] = (Ok 0, demo_events, []).
Proof. reflexivity. Qed.
Lemma demo_cat_ok : trace_ok (fs_ok demo_files) [] demo_events.
Proof.
  repeat (split; [split; [cbn; lia|cbn; try done; repeat split; try done; try lia]|]).
  exact I.
Qed.

Lemma readers_print_witness :
  exists rs, run_user scripted demo_cat (snd <$> demo_events) [] = (Ok 0, demo_events, rs) /\ fds demo_events = ∅ /\
    stdout demo_events = lit "hello" ++ lit "b: No such file or directory" ++ NL.
Proof.
  destruct (run_wp scripted (fs_ok demo_files) demo_cat
    (fun tr code => code = 0 /\ fds tr = ∅ /\ stdout tr = concat (cat_says demo_files <$> [lit "a"; lit "b"]))
    _ _ _ _ _ demo_cat_run) as (es & Htr & Hrun).
  exists []. split; [exact demo_cat_run|]. destruct Hrun as (x & _ & _ & Hf & Hs); [cbn in Htr; rewrite <- Htr; exact demo_cat_ok| |].
  - apply (readers_print demo_files (fs_ok demo_files) (lit "cat") [lit "a"; lit "b"] _).
    intros x bs _. unfold demo_files. intros Hb. repeat case_bool_decide; simplify_eq. reflexivity.
  - split; [exact Hf|]. rewrite Hs. reflexivity.
Defined.

(** [mkdir a b], where [a] exists *)
Definition demo_mkdir_events : list event :=
  [(UMkdir (c_string (lit "a")), MkReply (-2) []);
   (UWrite STDOUT (lit "cannot create directory '"), MkReply 25 []); (UWrite STDOUT (lit "a"), MkReply 1 []);
   (UWrite STDOUT (lit "': File exists" ++ NL), MkReply 15 []); (UMkdir (c_string (lit "b")), MkReply 0 [])].
Definition demo_mkdir : uprog Z := Mkdir.main 3 [lit "mkdir"; lit "a"; lit "b"].

Lemma demo_mkdir_run : run_user scripted demo_mkdir (snd <$> demo_mkdir_events) [] = (Ok 0, demo_mkdir_events, []).
Proof. reflexivity. Qed.
Lemma demo_mkdir_ok : trace_ok (fs_ok demo_files) [] demo_mkdir_events.
Proof. repeat (split; [split; [cbn; lia|exact I]|]). exact I. Qed.

Lemma operands_reported_witness :
  exists rs, calls demo_mkdir_events = zip [UMkdir (c_string (lit "a")); UMkdir (c_string (lit "b"))] rs /\
    stdout demo_mkdir_events = concat (zip_with mkdir_says [lit "a"; lit "b"] rs).
Proof.
  destruct (operands_reported (fs_ok demo_files) _) as [H _].
  specialize (H (lit "mkdir") [lit "a"; lit "b"]).
  edestruct (run_wp scripted (fs_ok demo_files) demo_mkdir) as (es & Htr & Hrun); [exact demo_mkdir_run|].
  destruct Hrun as (x & _ & Hx); [cbn in Htr; rewrite <- Htr; exact demo_mkdir_ok|exact H|].
  destruct Hx as (_ & rs & _ & Hc & Hs). exists rs. split; [exact Hc|exact Hs].
Defined.
