(* ===== verification/ShellMain.v ===== *)
(** * The shell as a program

    [apps/src/bin/shell.rs] over the user library: the line editor, the
    redirections, the child that runs a command and the loop of [main], with
    the parser of [Shell].  The theorems hold on every kernel that keeps the
    promises of [ShellKernel]. *)

From Stdlib Require Import String.
From S2P Require Import Prelude Config Bytes Utf8 Process Apps Shell UserLib Programs.

(** The bytes of a text *)
Definition encode (t : text) : list u8 := flat_map encode_char t.

(** [getline]: [fuel] bounds the keys it reads. *)
Fixpoint read_line (fuel : nat) (input : text) : uprog text :=
  match fuel with
  | O => UPanic OutOfFuel
  | S fuel =>
      do c <- getchar in
      let ch := byte.unsigned c in
      if ch =? DL then
        match input with
        | [] => read_line fuel input
        | _ => print [encode [BS]; lit " "; encode [BS]] ;~ read_line fuel (removelast input)
        end
      else if (ch =? LF) || (ch =? CR) then print [NL] ;~ UDone input
      else print [encode [ch]] ;~ read_line fuel (input ++ [ch])
  end.

(** [cd] *)
Definition cd (path : text) : uprog () :=
  do r <- chdir (encode path) in
  match r with
  | 0 => UDone tt
  | -1 => print [encode path; lit ": No such file or directory" ++ NL]
  | -2 => print [encode path; lit ": Not a directory" ++ NL]
  | _ => UPanic ExplicitPanic
  end.

(** [is_dir] *)
Definition is_dir (path : text) : uprog bool :=
  do fd <- open (encode path) OpenFlags.RDONLY in
  if fd =? -1 then UDone false
  else
    do (r, stat) <- fstat (w64 fd) in
    if r =? -1 then close (w64 fd) ;~ UDone false
    else close (w64 fd) ;~ UDone (mode stat =? StatMode.DIR).

(** [redirect_io] *)
Definition redirect_io (file_name : text) (fd flags : Z) : uprog () :=
  do file_fd <- open (encode file_name) flags in
  if file_fd =? -1 then print [lit "Error when opening file "; encode file_name; NL]
  else
    do r <- dup2 (w64 file_fd) fd in
    if r =? -1 then UPanic AssertFailed else close (w64 file_fd) ;~ UDone tt.

(** [if let Some(file) = o { redirect_io(&file, fd, flags) }] *)
Definition redirect (o : option text) (fd flags : Z) : uprog () :=
  match o with Some file => redirect_io file fd flags | None => UDone tt end.

(** The child: [path] is the first argument. *)
Definition run_command (a : CommandArguments) (path : text) : uprog Z :=
  redirect (input_file a) 0 OpenFlags.RDONLY ;~
  redirect (output_file a) 1 (Z.lor OpenFlags.CREATE OpenFlags.WRONLY) ;~
  exec (encode (exec_path path)) (encode <$> argv a) ;~
  print [encode (exec_path path); lit ": command not found" ++ NL] ;~
  UDone (-1).

(** What a turn of the loop leads to: the next turn with a directory to show,
    or the end of [main]. *)
Inductive next := Continue (cwd : list u8) | Return (code : Z).

(** The rest of a turn, once the line is read. *)
Definition line_turn (wait_fuel : nat) (cwd : list u8) (line : text) : uprog next :=
  match line with
  | [] => UDone (Continue cwd)
  | _ =>
      let a := CommandArguments_new line in
      do path <- ulift (match argv a with c :: _ => Ok c | [] => Panic IndexOutOfBounds end) in
      if bool_decide (path = str_cd) then
        match argc a with
        | 1%nat => cd [SLASH] ;~ do cwd <- getcwd in UDone (Continue cwd)
        | 2%nat =>
            do dir <- ulift (match argv a !! 1%nat with Some d => Ok d | None => Panic IndexOutOfBounds end) in
            cd dir ;~ do cwd <- getcwd in UDone (Continue cwd)
        | _ => print [lit "Too many args for cd command" ++ NL] ;~ UDone (Continue cwd)
        end
      else if bool_decide (path = str_exit) then UDone (Return 0)
      else
        do b <- is_dir path in
        if b && Nat.eqb (argc a) 1 then cd path ;~ do cwd <- getcwd in UDone (Continue cwd)
        else
          do pid <- fork in
          if pid =? 0 then do code <- run_command a path in UDone (Return code)
          else
            do r <- waitpid wait_fuel (w64 pid) in
            if result r =? pid then UDone (Continue cwd) else UPanic AssertFailed
  end.

(** The loop of [main]: [fuel] bounds its turns. *)
Fixpoint main_loop (fuel key_fuel wait_fuel : nat) (cwd : list u8) : uprog Z :=
  match fuel with
  | O => UPanic OutOfFuel
  | S fuel =>
      print [lit "[root@lemon-core:"; cwd; lit "]$ "] ;~
      do line <- read_line key_fuel [] in
      do n <- line_turn wait_fuel cwd line in
      match n with
      | Continue cwd => main_loop fuel key_fuel wait_fuel cwd
      | Return code => UDone code
      end
  end.

(** [main] *)
Definition main (fuel key_fuel wait_fuel : nat) : uprog Z :=
  do cwd <- getcwd in main_loop fuel key_fuel wait_fuel cwd.

(** ** Promises *)

(** The keys read, the result of the last [fork], and how often the shell
    asked since for the child. *)
Fixpoint reads (tr : list event) : nat :=
  match tr with
  | [] => O
  | e :: tr => Nat.add (match e.1 with URead fd _ => if fd =? STDIN then 1%nat else O | _ => O end) (reads tr)
  end.
Definition forked (tr : list event) : option Z :=
  foldl (fun o e => match e.1 with UFork => Some (result e.2) | _ => o end) None tr.
Definition asked (tr : list event) : nat :=
  foldl (fun n e => match e.1 with UFork => O | UWaitpid _ => S n | _ => n end) O tr.

Lemma reads_app tr tr' : reads (tr ++ tr') = (reads tr + reads tr')%nat.
Proof. induction tr as [|e tr IH]; cbn; [done|]. rewrite IH. lia. Qed.
Lemma forked_snoc tr e : forked (tr ++ [e]) = match e.1 with UFork => Some (result e.2) | _ => forked tr end.
Proof. unfold forked. by rewrite foldl_app. Qed.
Lemma asked_snoc tr e : asked (tr ++ [e]) = match e.1 with UFork => O | UWaitpid _ => S (asked tr) | _ => asked tr end.
Proof. unfold asked. by rewrite foldl_app. Qed.
Lemma prints_reads pieces es : prints pieces es -> reads es = O.
Proof. induction 1 as [|p e ps es He _ IH]; [done|]. cbn [reads]. by rewrite He. Qed.

Lemma prints_forked pieces es tr : prints pieces es -> forked (tr ++ es) = forked tr.
Proof.
  intros Hp. revert tr. induction Hp as [|p e ps es He _ IH]; intros tr; [by rewrite app_nil_r|].
  change (e :: es) with ([e] ++ es). rewrite app_assoc, IH, forked_snoc. by rewrite He.
Qed.

(** A kernel for the shell: the keyboard gives [keys], and after the last one
    the shell waits; [getcwd] returns -1 or the length of a name in UTF-8; a
    child ends before it has been asked for [patience] times; [exec] comes
    back only when it fails. *)
Class ShellKernel (keys : list u8) (patience : nat) (ok : list event -> ucall -> reply -> Prop) : Prop := {
  shell_kernel :: Kernel ok;
  shell_key tr len r : ok tr (URead STDIN len) r -> exists k, keys !! reads tr = Some k /\ written r = [k];
  shell_getcwd tr len r : ok tr (UGetcwd len) r ->
    result r = -1 \/ 0 <= result r <= len /\ from_utf8_ok (take (Z.to_nat (result r)) (written r)) = true;
  shell_fork tr r : ok tr UFork r -> 0 <= result r < 2 ^ 63;
  shell_waitpid tr pid r : ok tr (UWaitpid pid) r -> forked tr = Some pid ->
    result r = pid \/ result r = -2 /\ (S (asked tr) < patience)%nat;
}.

(** The working directory always fits the 128 bytes that [getcwd] asks for. *)
Definition short_dirs (ok : list event -> ucall -> reply -> Prop) : Prop :=
  forall tr r, ok tr (UGetcwd 128) r -> result r <> -1.

(** When it does not, [getcwd] panics, and the shell with it. *)
Lemma getcwd_long_panics ok tr r Q :
  ok tr (UGetcwd 128) r -> result r = -1 -> ~ wp ok getcwd tr Q.
Proof. intros Hr E H. specialize (H r Hr). cbn in H. by rewrite E in H. Qed.

(** The lines that keys make, up to the last line end. *)
Fixpoint lines (fuel : nat) (keys : list Z) : list text :=
  match fuel with
  | O => []
  | S fuel => match getline keys with Some (line, _, rest) => line :: lines fuel rest | None => [] end
  end.
(** A line the shell can take: an empty one, or one with an argument. *)
Definition good_line (line : text) : Prop := line = [] \/ argv (CommandArguments_new line) <> [].

(** The shell is at rest, and no key was read. *)
Abbreviation rests tr tr' := (idle tr' /\ reads tr' = reads tr).

Section shell.
Context (keys : list u8) (patience : nat) (ok : list event -> ucall -> reply -> Prop) `{!ShellKernel keys patience ok}.

Abbreviation codes ks := (byte.unsigned <$> ks).

(** The line editor reads a line as [getline] does. *)
Lemma wp_read_line fuel : forall input echo tr,
  idle tr -> (length keys - reads tr < fuel)%nat ->
  wp ok (read_line fuel input) tr (fun tr' line => idle tr' /\ (reads tr < reads tr')%nat /\
    exists out, getline_loop (codes (drop (reads tr) keys)) input echo = Some (line, out, codes (drop (reads tr') keys))).
Proof.
  induction fuel as [|fuel IH]; intros input echo tr Hi Hf; [lia|]. cbn [read_line]. apply wp_bind, wp_bind.
  cbn [read call wp]. intros r Hr. destruct (shell_key _ _ _ Hr) as (k & Hk & Hw). rewrite Hw. cbn [default lookup list_lookup wp]. unfold id.
  set (tr1 := tr ++ _). assert (idle tr1) as Hi1.
  { by apply idle_snoc. }
  assert (reads tr1 = S (reads tr)) as Hr1 by (unfold tr1; rewrite reads_app; cbn; lia).
  pose proof (lookup_lt_Some _ _ _ Hk) as Hlt.
  assert (codes (drop (reads tr) keys) = byte.unsigned k :: codes (drop (reads tr1) keys)) as ->.
  { rewrite Hr1. erewrite (drop_S keys k) by done. done. }
  cbn [getline_loop].
  (* a turn that prints and goes on *)
  assert (forall pieces input' echo',
    wp ok (print pieces ;~ read_line fuel input') tr1 (fun tr' line => idle tr' /\ (reads tr < reads tr')%nat /\
      exists out, getline_loop (codes (drop (reads tr1) keys)) input' echo' = Some (line, out, codes (drop (reads tr') keys)))) as Hgo.
  { intros pieces input' echo'. apply wp_bind, wp_print. intros es Hes.
    assert (reads (tr1 ++ es) = reads tr1) as Hre by (rewrite reads_app, (prints_reads _ _ Hes); lia).
    eapply wp_mono; [apply (IH input' echo'); [by eapply idle_prints|lia]|]. rewrite Hre. cbn beta. intros tr' line (H1 & H2 & H3).
    split_and!; [done|lia|done]. }
  destruct (byte.unsigned k =? DL).
  { destruct input as [|x input]; [exact (Hgo [] [] echo)|]. exact (Hgo [encode [BS]; lit " "; encode [BS]] _ _). }
  destruct ((byte.unsigned k =? LF) || (byte.unsigned k =? CR)); [|exact (Hgo [encode [byte.unsigned k]] _ _)].
  apply wp_bind, wp_print. intros es Hes. cbn [wp]. rewrite reads_app, (prints_reads _ _ Hes), Nat.add_0_r.
  split_and!; [by eapply idle_prints|lia|by eexists].
Qed.

(** Waiting for the child. *)
Lemma wp_waitpid fuel : forall tr pid,
  forked tr = Some pid -> 0 <= pid < 2 ^ 63 -> (patience <= asked tr + fuel)%nat -> (0 < fuel)%nat -> idle tr ->
  wp ok (waitpid fuel (w64 pid)) tr (fun tr' r => result r = pid /\ idle tr' /\ reads tr' = reads tr).
Proof.
  intros tr pid Hf Hp. unfold waitpid. rewrite (w64_id pid) by (unfold is_u64; lia).
  assert (i64 pid = pid) as -> by (unfold i64; rewrite Z.mod_small; lia).
  revert tr Hf. induction fuel as [|fuel IH]; intros tr Hf Ha H0 Hi; [lia|]. cbn [poll_pid]. apply wp_bind. cbn [call wp]. intros r Hr.
  set (tr1 := tr ++ _). assert (idle tr1) as Hi1 by (by apply idle_snoc).
  assert (reads tr1 = reads tr) as Hr1 by (unfold tr1; rewrite reads_app; cbn; lia).
  destruct (shell_waitpid _ _ _ Hr Hf) as [E|[E Hlt]].
  { rewrite (proj2 (Z.eqb_neq _ _)) by lia. done. }
  rewrite E. cbn [Z.eqb Pos.eqb]. apply wp_bind, wp_call_z. intros r2 _. set (tr2 := tr1 ++ _).
  assert (reads tr2 = reads tr) as Hr2 by (unfold tr2; rewrite reads_app; cbn; lia). rewrite <- Hr2.
  assert (asked tr2 = S (asked tr)) as Ha2 by (unfold tr2, tr1; by rewrite !asked_snoc).
  apply IH; [unfold tr2, tr1; by rewrite !forked_snoc|lia|lia|by apply idle_snoc].
Qed.
Lemma rests_call tr c r : idle tr -> track ∅ (c, r) = ∅ -> leaves_std c ->
  (match c with URead _ _ => False | _ => True end) -> rests tr (tr ++ [(c, r)]).
Proof. intros Hi Ht Hl Hc. split; [by apply idle_snoc|]. rewrite reads_app. destruct c; cbn; try lia; done. Qed.

Lemma wp_print_rests pieces tr : idle tr -> wp ok (print pieces) tr (fun tr' _ => rests tr tr').
Proof.
  intros Hi. apply wp_print. intros es Hes. split; [by eapply idle_prints|]. rewrite reads_app, (prints_reads _ _ Hes). lia.
Qed.

Lemma wp_cd path tr : idle tr -> wp ok (cd path) tr (fun tr' _ => rests tr tr').
Proof.
  intros Hi. apply wp_bind, wp_call_z. intros r Hr. pose proof (kernel_result _ _ _ Hr) as H. cbn in H.
  destruct (rests_call tr (UChdir (c_string (encode path))) r) as [Hi1 Hr1]; [done..|]. rewrite <- Hr1.
  destruct H as [E|[E|E]]; rewrite E; [done|by apply wp_print_rests|by apply wp_print_rests].
Qed.

Lemma wp_getcwd tr : short_dirs ok -> idle tr -> wp ok getcwd tr (fun tr' _ => rests tr tr').
Proof.
  intros Hd Hi. apply wp_bind. cbn [call wp]. intros r Hr. destruct (shell_getcwd _ _ _ Hr) as [E|[Hlen Hu]]; [by destruct (Hd _ _ Hr)|].
  rewrite w64_id by (unfold is_u64; lia). rewrite (proj2 (Z.ltb_ge _ _)) by lia. rewrite Hu. by apply rests_call.
Qed.

Lemma wp_cd_getcwd path tr (Q : next -> Prop) :
  short_dirs ok -> idle tr -> (forall cwd, Q (Continue cwd)) ->
  wp ok (cd path ;~ do cwd <- getcwd in UDone (Continue cwd)) tr (fun tr' n => rests tr tr' /\ Q n).
Proof.
  intros Hd Hi HQ. apply wp_bind. eapply wp_mono; [by apply wp_cd|]. cbn beta. intros tr1 _ [Hi1 <-].
  apply wp_bind. eapply wp_mono; [by apply wp_getcwd|]. cbn. intros tr2 cwd H. by split.
Qed.

Lemma wp_is_dir path tr : idle tr -> wp ok (is_dir path) tr (fun tr' _ => rests tr tr').
Proof.
  intros [Hf Hs]. apply wp_bind, wp_call_z. intros r Hr. cbn beta. destruct (kernel_open _ _ _ _ Hr) as [Hlt _].
  set (c := UOpen (c_string (encode path)) OpenFlags.RDONLY) in *.
  destruct (kernel_std _ _ _ _ Hr Hs) as [E|Hge].
  { rewrite E. cbn [Z.eqb Pos.eqb wp]. apply rests_call; [done| |done|done]. cbn. by rewrite E. }
  set (fd := result r) in *. rewrite (proj2 (Z.eqb_neq fd (-1))) by lia. rewrite (w64_id fd) by (unfold is_u64; lia).
  assert (fds (tr ++ [(c, r)]) = {[fd := (c_string (encode path), 0)]}) as Hf1.
  { rewrite fds_snoc, Hf. cbn. by rewrite (proj2 (Z.leb_le 0 _)) by (subst fd; lia). }
  apply wp_bind, wp_bind. cbn [call wp]. intros r2 Hr2. cbn beta.
  rewrite (kernel_fstat _ _ _ Hr2) by (rewrite Hf1; eexists; apply lookup_singleton_eq). cbn [Z.eqb].
  apply wp_bind, wp_call_z. intros r3 _. cbn [wp]. split; [split|].
  - rewrite !fds_snoc, Hf. cbn. rewrite (proj2 (Z.leb_le 0 _)) by (subst fd; lia). by rewrite delete_insert_eq, delete_empty.
  - apply std_open_snoc; [by do 2 (apply std_open_snoc; [|done])|]. cbn. lia.
  - rewrite !reads_app. cbn. lia.
Qed.
End shell.

(** ** The command *)

(** The calls of a redirection. *)
Inductive redirected (o : option text) (fd flags : Z) : list (ucall * Z) -> Prop :=
  | redirect_none : o = None -> redirected o fd flags []
  | redirect_failed f : o = Some f -> redirected o fd flags [(UOpen (c_string (encode f)) flags, -1)]
  | redirect_done f n r :
      o = Some f -> 0 <= n ->
      redirected o fd flags [(UOpen (c_string (encode f)) flags, n); (UDup2 n fd, 0); (UClose n, r)].

Section command.
Context (ok : list event -> ucall -> reply -> Prop) `{!Kernel ok}.

Lemma wp_redirect o fd flags tr :
  0 <= fd < 3 -> wp ok (redirect o fd flags) tr (fun tr' _ => forked tr' = forked tr /\
    exists cs, redirected o fd flags cs /\ calls tr' = calls tr ++ cs).
Proof.
  intros Hfd. destruct o as [f|]; cbn [redirect].
  2:{ cbn. split; [done|]. exists []. split; [by constructor|]. by rewrite app_nil_r. }
  apply wp_bind, wp_call_z. intros r Hr. cbn beta. set (c := UOpen (c_string (encode f)) flags) in *.
  pose proof (kernel_result _ _ _ Hr) as Hge. cbn in Hge. destruct (kernel_open _ _ _ _ Hr) as [Hlt _].
  destruct (decide (result r = -1)) as [E|Hne].
  { rewrite E. cbn [Z.eqb Pos.eqb]. apply wp_print. intros es Hes. rewrite (prints_forked _ _ _ Hes), forked_snoc.
    split; [done|]. exists [(c, -1)]. split; [by eapply redirect_failed|].
    rewrite !calls_app, (prints_calls _ _ Hes), app_nil_r. cbn. by rewrite E. }
  set (n := result r) in *. rewrite (proj2 (Z.eqb_neq n (-1))) by lia. rewrite (w64_id n) by (unfold is_u64; lia).
  apply wp_bind, wp_call_z. intros r2 Hr2. rewrite (kernel_dup2 _ _ _ _ Hr2); [|clear Hr2|done].
  2:{ rewrite fds_snoc. cbn. rewrite (proj2 (Z.leb_le 0 _)) by (subst n; lia). eexists. apply lookup_insert_eq. }
  cbn [Z.eqb Pos.eqb]. apply wp_bind, wp_call_z. intros r3 _. cbn [wp]. rewrite !forked_snoc. split; [done|].
  exists [(c, n); (UDup2 n fd, 0); (UClose n, result r3)]. split; [eapply redirect_done; [done|lia]|].
  rewrite !calls_app. cbn. rewrite <- !app_assoc. cbn. do 3 f_equal.
  rewrite (kernel_dup2 _ _ _ _ Hr2); [done| |done].
  rewrite fds_snoc. cbn. rewrite (proj2 (Z.leb_le 0 _)) by (subst n; lia). eexists. apply lookup_insert_eq.
Qed.

Lemma wp_run_command a path tr :
  wp ok (run_command a path) tr (fun tr' code => code = -1 /\ forked tr' = forked tr /\
    exists ins outs r, redirected (input_file a) 0 OpenFlags.RDONLY ins /\
      redirected (output_file a) 1 (Z.lor OpenFlags.CREATE OpenFlags.WRONLY) outs /\
      calls tr' = calls tr ++ ins ++ outs ++
        [(UExec (c_string (encode (exec_path path))) ((fun w => c_string (encode w)) <$> argv a), r)]).
Proof.
  apply wp_bind. eapply wp_mono; [by apply wp_redirect|]. cbn beta. intros tr1 _ (Hk1 & ins & Hin & Hc1).
  apply wp_bind. eapply wp_mono; [by apply wp_redirect|]. cbn beta. intros tr2 _ (Hk2 & outs & Hout & Hc2).
  apply wp_bind, wp_call_z. intros r _. apply wp_bind, wp_print. intros es Hes. cbn [wp].
  rewrite (prints_forked _ _ _ Hes), forked_snoc. split; [done|]. split; [cbn; congruence|].
  exists ins, outs, (result r). split; [done|]. split; [done|].
  rewrite !calls_app, (prints_calls _ _ Hes), Hc2, Hc1, app_nil_r. cbn. rewrite <- list_fmap_compose.
  by rewrite <- !app_assoc.
Qed.
End command.

Section session.
Context (keys : list u8) (patience : nat) (ok : list event -> ucall -> reply -> Prop) `{!ShellKernel keys patience ok}.

(** Where a turn leaves the shell. *)
Definition turn_ends (line : text) (tr tr' : list event) (n : next) : Prop :=
  match n with
  | Continue _ => rests tr tr'
  | Return code =>
      code = 0 /\ fds tr' = ∅ /\ head (argv (CommandArguments_new line)) = Some str_exit \/
      code = -1 /\ forked tr' = Some 0
  end.

Lemma argc_argv n : forall words a, (length words <= n)%nat ->
  argc a = length (argv a) -> argc (parse_words words a) = length (argv (parse_words words a)).
Proof.
  induction n as [|n IH]; intros [|w words] a Hn Ha; cbn [length] in Hn; try done; [lia|]. cbn [parse_words].
  case_bool_decide; [destruct words as [|f words]; [done|]; cbn [length] in Hn; apply IH; [lia|done]|].
  case_bool_decide; [destruct words as [|f words]; [done|]; cbn [length] in Hn; apply IH; [lia|done]|].
  apply IH; [lia|]. cbn. rewrite length_app, Ha. cbn. lia.
Qed.

Lemma new_argc line : argc (CommandArguments_new line) = length (argv (CommandArguments_new line)).
Proof. by eapply argc_argv. Qed.

Lemma wp_line_turn wait_fuel cwd line tr :
  short_dirs ok -> good_line line -> idle tr -> (patience <= wait_fuel)%nat -> (0 < wait_fuel)%nat ->
  wp ok (line_turn wait_fuel cwd line) tr (turn_ends line tr).
Proof.
  intros Hd Hg Hi Hw H0. unfold line_turn. destruct line as [|x line]; [done|]. destruct Hg as [?|Hg]; [done|].
  set (l := x :: line) in *. clearbody l. unfold turn_ends. pose proof (new_argc l) as Hargc.
  destruct (CommandArguments_new l) as [n av inp out] eqn:Ea. cbn [argc argv] in *. rewrite Hargc.
  destruct av as [|path av]; [done|]. cbn [ulift ubind].
  assert (forall p, wp ok (cd p ;~ do cwd <- getcwd in UDone (Continue cwd)) tr (turn_ends l tr)) as Hcd.
  { intros p. eapply wp_mono; [by apply (wp_cd_getcwd keys patience ok p tr (fun n => exists d, n = Continue d)); [..|eexists]|].
    by intros tr' n' [H [d ->]]. }
  unfold turn_ends in Hcd. rewrite Ea in Hcd. cbn [argv] in Hcd.
  case_bool_decide as Hpath.
  { destruct av as [|d [|d2 av]]; cbn [length lookup list_lookup ulift ubind]; [apply Hcd|apply Hcd|].
    apply wp_bind. eapply wp_mono; [by eapply wp_print_rests|]. done. }
  case_bool_decide as Hexit.
  { cbn [wp]. left. subst path. destruct Hi. done. }
  apply wp_bind. eapply wp_mono; [by apply (wp_is_dir keys patience)|]. cbn beta. intros tr1 b [Hi1 Hr1].
  destruct (b && Nat.eqb (length (path :: av)) 1).
  { eapply wp_mono; [by apply (wp_cd_getcwd keys patience ok path tr1 (fun n => exists d, n = Continue d)); [..|eexists]|].
    cbn beta. intros tr' n' [[H1 H2] [d ->]]. by rewrite H2. }
  apply wp_bind, wp_call_z. intros r Hr. cbn beta. pose proof (shell_fork _ _ Hr) as Hp. set (pid := result r) in *.
  assert (rests tr (tr1 ++ [(UFork, r)])) as [Hi2 Hr2].
  { destruct (rests_call tr1 UFork r) as [H1 H2]; [done..|]. by rewrite H2. }
  assert (forked (tr1 ++ [(UFork, r)]) = Some pid) as Hf2 by (by rewrite forked_snoc).
  assert (asked (tr1 ++ [(UFork, r)]) = O) as Ha2 by (by rewrite asked_snoc).
  destruct (Z.eqb_spec pid 0) as [E|Hne].
  { apply wp_bind. eapply wp_mono; [apply (@wp_run_command ok shell_kernel)|]. cbn [wp]. intros tr3 code (-> & Hf & _). right. split; [done|].
    congruence. }
  apply wp_bind. eapply wp_mono; [apply (wp_waitpid keys patience ok wait_fuel _ pid); [done|done|lia|done|done]|].
  cbn beta. intros tr3 r3 (E3 & Hi3 & Hr3). rewrite E3, Z.eqb_refl. cbn [wp]. split; [done|congruence].
Qed.

(** The lines from a key on. *)
Lemma lines_step fuel ks line out rest :
  getline ks = Some (line, out, rest) -> lines (S fuel) ks = line :: lines fuel rest.
Proof. intros H. cbn [lines]. by rewrite H. Qed.

Lemma wp_main_loop key_fuel wait_fuel : short_dirs ok -> (length keys < key_fuel)%nat -> (patience <= wait_fuel)%nat -> (0 < wait_fuel)%nat ->
  forall fuel cwd tr,
  Forall good_line (lines fuel (byte.unsigned <$> drop (reads tr) keys)) -> idle tr -> (length keys - reads tr < fuel)%nat ->
  wp ok (main_loop fuel key_fuel wait_fuel cwd) tr (fun tr' code =>
    code = 0 /\ fds tr' = ∅ /\
      Exists (fun line => head (argv (CommandArguments_new line)) = Some str_exit) (lines fuel (byte.unsigned <$> drop (reads tr) keys)) \/
    code = -1 /\ forked tr' = Some 0).
Proof.
  intros Hd Hk Hw H0. induction fuel as [|fuel IH]; intros cwd tr Hg Hi Hf; [lia|]. cbn [main_loop].
  apply wp_bind. eapply wp_mono; [by eapply wp_print_rests|]. cbn beta. intros tr1 _ [Hi1 Hr1]. rewrite <- Hr1 in *. clear Hr1 Hi tr.
  apply wp_bind. eapply wp_mono; [apply (wp_read_line keys patience ok key_fuel [] []); [done|lia]|].
  cbn beta. intros tr2 line (Hi2 & Hr2 & out & Hline). fold (getline (byte.unsigned <$> drop (reads tr1) keys)) in Hline.
  assert (reads tr1 < length keys)%nat as Hlt.
  { destruct (decide (reads tr1 < length keys)%nat); [done|]. by rewrite drop_ge in Hline by lia. }
  rewrite (lines_step _ _ _ _ _ Hline) in *. apply Forall_cons in Hg as [Hgl Hg].
  apply wp_bind. eapply wp_mono; [by apply wp_line_turn|]. cbn beta. intros tr3 [cwd'|code] Hn; cbn [turn_ends] in Hn.
  - destruct Hn as [Hi3 Hr3]. rewrite <- Hr3 in *. eapply wp_mono; [apply IH; [done|done|lia]|].
    cbn beta. intros tr' code [(H1 & H2 & H3)|H]; [left|by right]. split_and!; [done|done|by apply Exists_cons_tl].
  - cbn [wp]. destruct Hn as [(H1 & H2 & H3)|H]; [left|by right]. split_and!; [done|done|by apply Exists_cons_hd].
Qed.
End session.

(** C17: A session of the shell.  On every kernel that keeps its promises, as
    long as the working directory has at most 128 bytes, so that [getcwd] does
    not return -1, and every line the keys make is empty or has an argument,
    the shell never panics: it goes on until the keys are used up, ends with 0
    after a line whose command is [exit], with no file left open, and returns
    -1 only in a child whose command could not be run. *)
Theorem shell_session keys patience ok fuel key_fuel wait_fuel :
  ShellKernel keys patience ok -> short_dirs ok ->
  (length keys < fuel)%nat -> (length keys < key_fuel)%nat -> (patience <= wait_fuel)%nat -> (0 < wait_fuel)%nat ->
  Forall good_line (lines fuel (byte.unsigned <$> keys)) ->
  wp ok (main fuel key_fuel wait_fuel) [] (fun tr code =>
    code = 0 /\ fds tr = ∅ /\
      Exists (fun line => head (argv (CommandArguments_new line)) = Some str_exit) (lines fuel (byte.unsigned <$> keys)) \/
    code = -1 /\ forked tr = Some 0).
Proof.
  intros HK Hd Hf Hk Hw H0 Hg. assert (idle []) as Hi by (split; [done|constructor]). apply wp_bind.
  eapply wp_mono; [by apply (wp_getcwd keys patience)|]. cbn beta. intros tr cwd [Hi1 Hr1]. cbn in Hr1.
  pose proof (wp_main_loop keys patience ok key_fuel wait_fuel Hd Hk Hw H0 fuel cwd tr) as H.
  rewrite Hr1, drop_0 in H. apply H; [done|done|lia].
Qed.

(** C18: The command in the child.  On every kernel, the child of the shell first
    puts the input file, if there is one, in place of its standard input, and
    then the output file in place of its standard output, each by opening it,
    [dup2] and closing it, then runs the program with exactly the arguments of
    the line, from /bin when its name has no slash; when that fails it ends
    with -1.  A file that cannot be opened is left out. *)
Theorem command_runs ok a path tr :
  Kernel ok ->
  wp ok (run_command a path) tr (fun tr' code => code = -1 /\
    exists ins outs r, redirected (input_file a) 0 OpenFlags.RDONLY ins /\
      redirected (output_file a) 1 (Z.lor OpenFlags.CREATE OpenFlags.WRONLY) outs /\
      calls tr' = calls tr ++ ins ++ outs ++
        [(UExec (c_string (encode (exec_path path))) ((fun w => c_string (encode w)) <$> argv a), r)]).
Proof. intros HK. eapply wp_mono; [by apply wp_run_command|]. by intros tr' code (H1 & _ & H2). Qed.

(** ** Witnesses *)

(** A kernel with a keyboard and no files *)
Definition shell_ok (keys : list u8) (patience : nat) (tr : list event) (c : ucall) (r : reply) : Prop :=
  fs_ok (fun _ => None) tr c r /\
  match c with
  | URead fd _ => fd = STDIN -> exists k, keys !! reads tr = Some k /\ written r = [k]
  | UGetcwd len => 0 <= result r <= len /\ from_utf8_ok (take (Z.to_nat (result r)) (written r)) = true
  | UFork => 0 <= result r < 2 ^ 63
  | UWaitpid pid => forked tr = Some pid -> result r = pid \/ result r = -2 /\ (S (asked tr) < patience)%nat
  | _ => True
  end.

#[export] Instance shell_ok_kernel keys patience : ShellKernel keys patience (shell_ok keys patience).
Proof.
  split.
  - pose proof (fs_server (fun _ => None)) as [[H1 H2 H3 H4 H5] _ _ _].
    split; intros * [Hok _]; [by eapply H1|by eapply H2|by eapply H3|by eapply H4|by eapply H5].
  - intros tr len r [_ H]. by apply H.
  - intros tr len r [_ H]. by right.
  - by intros tr r [_ H].
  - intros tr pid r [_ H]. done.
Qed.

Lemma shell_ok_short keys patience : short_dirs (shell_ok keys patience).
Proof. intros tr r [_ [[H _] _]]. lia. Qed.

(** The keys of a command and of [exit]; the command ends after the shell has
    asked for it twice. *)
Definition demo_keys : list u8 := lit "a" ++ NL ++ lit "exit" ++ NL.
Definition demo_replies : list reply :=
  let key k := MkReply 1 [k] in
  let done := MkReply 0 [] in
  MkReply 1 (lit "/") :: replicate 3 done ++
  [key Byte.x61; done; key Byte.x0a; done; MkReply (-1) []; MkReply 2 []; MkReply (-2) []; done; MkReply 2 []] ++
  replicate 3 done ++
  [key Byte.x65; done; key Byte.x78; done; key Byte.x69; done; key Byte.x74; done; key Byte.x0a; done].
Definition demo_shell : uprog Z := main 9 9 3.
Definition demo_session : list event := Eval cbv in (run_user scripted demo_shell demo_replies []).1.2.

Lemma demo_session_run : run_user scripted demo_shell demo_replies [] = (Ok 0, demo_session, []).
Proof. vm_compute. reflexivity. Qed.
Lemma demo_session_ok : trace_ok (shell_ok demo_keys 3) [] demo_session.
Proof.
  repeat (split; [split; [split; [cbn; try lia; done|cbn; try done; repeat split; try done; try lia]
                         |cbn; try done; try lia; try (intros _; eexists; split; reflexivity)]|]).
  exact I.
Qed.

Lemma demo_lines_good : Forall good_line (lines 9 (byte.unsigned <$> demo_keys)).
Proof. repeat (constructor; [right; discriminate|]). constructor. Qed.

Lemma shell_session_witness :
  exists x, run_user scripted demo_shell demo_replies [] = (Ok x, demo_session, []) /\
    (x = 0 /\ fds demo_session = ∅ \/ x = -1 /\ forked demo_session = Some 0).
Proof.
  edestruct (run_wp scripted (shell_ok demo_keys 3) demo_shell) as (es & Htr & Hrun); [exact demo_session_run|].
  destruct Hrun as (x & Hx & Hpost).
  - change ([] ++ es) with es in Htr. rewrite <- Htr. exact demo_session_ok.
  - apply (shell_session demo_keys 3 (shell_ok demo_keys 3) 9 9 3 _); [apply shell_ok_short|cbn; lia|cbn; lia|lia|lia|exact demo_lines_good].
  - exists x. rewrite demo_session_run, Hx. split; [reflexivity|].
    destruct Hpost as [(H1 & H2 & _)|H]; [left; by split|by right].
Defined.

(** The command of [demo_line]: [cat < in a > out] *)
Definition demo_args : CommandArguments := CommandArguments_new demo_line.
Definition demo_command_replies : list reply :=
  [MkReply 3 []; MkReply 0 []; MkReply 0 []; MkReply 3 []; MkReply 0 []; MkReply 0 []; MkReply (-1) []; MkReply 8 []; MkReply 20 []].
Definition demo_command : uprog Z := run_command demo_args [99; 97; 116].
Definition demo_child : list event := Eval cbv in (run_user scripted demo_command demo_command_replies []).1.2.

Lemma demo_command_run : run_user scripted demo_command demo_command_replies [] = (Ok (-1), demo_child, []).
Proof. vm_compute. reflexivity. Qed.
Lemma demo_command_ok : trace_ok (fs_ok (fun _ => Some (NFile []))) [] demo_child.
Proof. repeat (split; [split; [cbn; try lia; done|cbn; try done; repeat split; try done; try lia]|]). exact I. Qed.

Lemma command_runs_witness :
  exists ins outs r, redirected (Some [105; 110]) 0 OpenFlags.RDONLY ins /\
    redirected (Some [111; 117; 116]) 1 (Z.lor OpenFlags.CREATE OpenFlags.WRONLY) outs /\
    calls demo_child = ins ++ outs ++ [(UExec (c_string (lit "/bin/cat")) [c_string (lit "cat"); c_string (lit "a")], r)].
Proof.
  edestruct (run_wp scripted (fs_ok (fun _ => Some (NFile []))) demo_command) as (es & Htr & Hrun); [exact demo_command_run|].
  destruct Hrun as (x & _ & Hpost).
  - change ([] ++ es) with es in Htr. rewrite <- Htr. exact demo_command_ok.
  - apply (command_runs (fs_ok (fun _ => Some (NFile []))) demo_args [99; 97; 116] [] _).
  - destruct Hpost as (_ & ins & outs & r & Hi & Ho & Hc). exists ins, outs, r. split; [exact Hi|]. split; [exact Ho|exact Hc].
Defined.
