(* ===== verification/Gui.v ===== *)
(** * Graphics

    [user/src/gui.rs]: the display a program draws on, a buffer of four bytes
    per pixel that it shares with the device; and the cursor of
    [kernel/src/drivers/gpu/mod.rs], an image of three bytes per pixel that
    gets an alpha channel. *)

From S2P Require Import Prelude Config Bytes UserLib.

Definition VIRTGPU_XRES : Z := 1280.
Definition VIRTGPU_YRES : Z := 800.
Definition VIRTGPU_LEN : Z := VIRTGPU_XRES * VIRTGPU_YRES * 4.

Definition framebuffer : uprog Z := call_z UFramebuffer.
Definition framebuffer_flush : uprog Z := call_z UFramebufferFlush.
(** [key_pressed] of [user/src/input.rs] *)
Definition key_pressed : uprog bool := do r <- call_z UKeyPressed in UDone (r =? 1).

(** Colours, points and sizes, as the crate [embedded_graphics] has them: three
    bytes, two [i32] and two [u32]. *)
Record Rgb888 := MkRgb { red : u8; green : u8; blue : u8 }.
Record Point := MkPoint { px : Z; py : Z }.
Record Size := MkSize { width : Z; height : Z }.

Record Display := MkDisplay { disp_size : Size; fb : list u8 }.

(** [Display::new]; [bytes_at] is the memory at the address the kernel returns. *)
Definition Display_new (bytes_at : Z -> list u8) (sz : Size) : uprog Display :=
  do fb_ptr <- framebuffer in UDone (MkDisplay sz (take (Z.to_nat VIRTGPU_LEN) (bytes_at (w64 fb_ptr)))).

(** [as i32] *)
Definition as_i32 (x : Z) : Z := (x + 2 ^ 31) mod 2 ^ 32 - 2 ^ 31.

(** [self.fb[i] = b] *)
Definition store (i : Z) (b : u8) (l : list u8) : res (list u8) :=
  if i <? Z.of_nat (length l) then Ok (<[Z.to_nat i := b]> l) else Panic IndexOutOfBounds.

(** The closure of [draw_iter] *)
Definition draw_pixel (p : Point) (c : Rgb888) (l : list u8) : res (list u8) :=
  let idx := w64 (w64 (as_i32 (as_i32 (py p * VIRTGPU_XRES) + px p)) * 4) in
  if w64 (idx + 2) <? Z.of_nat (length l) then
    let? l := store idx (blue c) l in
    let? l := store (w64 (idx + 1)) (green c) l in
    store (w64 (idx + 2)) (red c) l
  else Ok l.

Fixpoint draw_pixels (pixels : list (Point * Rgb888)) (l : list u8) : res (list u8) :=
  match pixels with
  | [] => Ok l
  | (p, c) :: pixels => let? l := draw_pixel p c l in draw_pixels pixels l
  end.

(** [draw_iter] *)
Definition draw_iter (pixels : list (Point * Rgb888)) (d : Display) : uprog Display :=
  do l <- ulift (draw_pixels pixels (fb d)) in
  framebuffer_flush ;~
  UDone (MkDisplay (disp_size d) l).

(** [paint_on_framebuffer] *)
Definition paint_on_framebuffer (p : list u8 -> list u8) (d : Display) : uprog Display :=
  let l := p (fb d) in
  framebuffer_flush ;~ UDone (MkDisplay (disp_size d) l).

(** ** The cursor *)

(** [chunks(3)] *)
Fixpoint chunks3 (bs : list u8) : list (list u8) :=
  match bs with
  | a :: b :: c :: bs => [a; b; c] :: chunks3 bs
  | [] => []
  | rest => [rest]
  end.

(** The loop of [VirtIOGpuWarpper::new] over the pixels of the image. *)
Definition cursor_pixel (pixel : list u8) : list u8 :=
  let alpha := if bool_decide (pixel = [Byte.xff; Byte.xff; Byte.xff]) then Byte.x00 else Byte.xff in
  pixel ++ [alpha].
Definition cursor_data (image_data : list u8) : list u8 := concat (cursor_pixel <$> chunks3 image_data).

(** ** What is on the screen *)

Definition on_screen (p : Point) : Prop := 0 <= px p < VIRTGPU_XRES /\ 0 <= py p < VIRTGPU_YRES.
#[export] Instance point_eq_dec : EqDecision Point.
Proof. solve_decision. Defined.

(** Where the device finds a pixel, and the colour it shows there. *)
Definition place (p : Point) : nat := Z.to_nat (4 * (py p * VIRTGPU_XRES + px p)).
Definition shown (l : list u8) (p : Point) : option Rgb888 :=
  b ← l !! place p; g ← l !! S (place p); r ← l !! S (S (place p)); Some (MkRgb r g b).

(** The last colour drawn at a point. *)
Fixpoint last_drawn (pixels : list (Point * Rgb888)) (p : Point) (old : option Rgb888) : option Rgb888 :=
  match pixels with
  | [] => old
  | (q, c) :: pixels => last_drawn pixels p (if decide (q = p) then Some c else old)
  end.

Definition screen_size (l : list u8) : Prop := Z.of_nat (length l) = VIRTGPU_LEN.

Lemma as_i32_range x : - 2 ^ 31 <= as_i32 x < 2 ^ 31.
Proof. unfold as_i32. pose proof (Z.mod_pos_bound (x + 2 ^ 31) (2 ^ 32) ltac:(lia)). lia. Qed.
Lemma as_i32_id x : - 2 ^ 31 <= x < 2 ^ 31 -> as_i32 x = x.
Proof. intros H. unfold as_i32. rewrite Z.mod_small; lia. Qed.

Lemma w64_neg x : - 2 ^ 64 <= x < 0 -> w64 x = x + 2 ^ 64.
Proof. intros H. unfold w64. symmetry. apply (Z.mod_unique _ _ (-1)); lia. Qed.

(** The guard is right: a store is made only inside the buffer. *)
Lemma draw_pixel_at p c l (v := as_i32 (as_i32 (py p * VIRTGPU_XRES) + px p)) :
  screen_size l ->
  draw_pixel p c l =
    Ok (if decide (0 <= v /\ 4 * v + 2 < VIRTGPU_LEN)
        then <[Z.to_nat (4 * v + 2) := red c]> (<[Z.to_nat (4 * v + 1) := green c]> (<[Z.to_nat (4 * v) := blue c]> l))
        else l).
Proof.
  intros Hl. unfold draw_pixel. fold v. pose proof (as_i32_range (as_i32 (py p * VIRTGPU_XRES) + px p)) as Hv. fold v in Hv.
  unfold screen_size in Hl. unfold VIRTGPU_LEN, VIRTGPU_XRES, VIRTGPU_YRES in *. clearbody v.
  destruct (decide (v < 0)) as [Hn|Hn].
  { rewrite decide_False by lia. rewrite (w64_neg v) by lia.
    assert (w64 ((v + 2 ^ 64) * 4) = 4 * v + 2 ^ 64) as -> by (unfold w64; symmetry; apply (Z.mod_unique _ _ 3); lia).
    rewrite (w64_id (_ + 2)) by (unfold is_u64; lia). by rewrite (proj2 (Z.ltb_ge _ _)) by lia. }
  rewrite (w64_id v), (w64_id (v * 4)), !w64_id by (unfold is_u64; lia). rewrite (Z.mul_comm v 4).
  case_decide as Hd; [|by rewrite (proj2 (Z.ltb_ge _ _)) by lia].
  rewrite (proj2 (Z.ltb_lt _ _)) by lia. unfold store.
  rewrite (proj2 (Z.ltb_lt _ _)) by lia. cbn [res_bind]. rewrite length_insert, (proj2 (Z.ltb_lt _ _)) by lia. cbn [res_bind].
  by rewrite !length_insert, (proj2 (Z.ltb_lt _ _)) by lia.
Qed.

Lemma draw_pixel_total p c l : screen_size l -> exists l', draw_pixel p c l = Ok l' /\ screen_size l'.
Proof.
  intros Hl. rewrite draw_pixel_at by done. eexists. split; [done|]. case_decide; [|done]. unfold screen_size. by rewrite !length_insert.
Qed.

(** The three stores of a pixel. *)
Definition paint3 (i : nat) (c : Rgb888) (l : list u8) : list u8 :=
  <[S (S i) := red c]> (<[S i := green c]> (<[i := blue c]> l)).

Lemma paint3_same i c l : (S (S i) < length l)%nat ->
  paint3 i c l !! i = Some (blue c) /\ paint3 i c l !! S i = Some (green c) /\ paint3 i c l !! S (S i) = Some (red c).
Proof.
  intros H. unfold paint3. split_and!.
  - rewrite !list_lookup_insert_ne by lia. apply list_lookup_insert_eq. lia.
  - rewrite list_lookup_insert_ne by lia. apply list_lookup_insert_eq. rewrite length_insert. lia.
  - apply list_lookup_insert_eq. rewrite !length_insert. lia.
Qed.
Lemma paint3_other i c l j : (j < i \/ i + 2 < j)%nat -> paint3 i c l !! j = l !! j.
Proof. intros H. unfold paint3. by rewrite !list_lookup_insert_ne by lia. Qed.

(** Inside the screen, a pixel is at the place where the device has it. *)
Lemma draw_pixel_screen p c l q :
  screen_size l -> on_screen p -> on_screen q ->
  exists l', draw_pixel p c l = Ok l' /\ shown l' q = if decide (p = q) then Some c else shown l q.
Proof.
  intros Hl [Hx Hy] [Hx' Hy']. rewrite draw_pixel_at by done. eexists. split; [done|].
  unfold screen_size, VIRTGPU_LEN, VIRTGPU_XRES, VIRTGPU_YRES in *.
  rewrite (as_i32_id (py p * 1280)), as_i32_id by lia. rewrite decide_True by lia.
  assert (Z.to_nat (4 * (py p * 1280 + px p)) = place p) as Hp by done.
  replace (Z.to_nat (4 * (py p * 1280 + px p) + 1)) with (S (place p)) by (rewrite <- Hp; lia).
  replace (Z.to_nat (4 * (py p * 1280 + px p) + 2)) with (S (S (place p))) by (rewrite <- Hp; lia).
  rewrite Hp. fold (paint3 (place p) c l). unfold shown. case_decide as E.
  - subst q. destruct (paint3_same (place p) c l) as (-> & -> & ->); [lia|]. by destruct c.
  - assert (place p + 4 <= place q \/ place q + 4 <= place p)%nat.
    { unfold place, VIRTGPU_XRES. destruct p as [x y], q as [x' y']. cbn [px py] in *.
      assert (y * 1280 + x <> y' * 1280 + x') as Hne; [|lia]. intros Heq. apply E.
      assert (y = y') by lia. f_equal; lia. }
    by rewrite !paint3_other by lia.
Qed.

(** C39: Drawing stays on the display.  Whatever points are drawn, on the screen
    or not, [draw_iter] makes no access outside the buffer and keeps its size;
    and when they are all on the screen, every pixel then shows the last colour
    drawn there, or what it showed before. *)
Theorem drawing_in_bounds pixels l :
  screen_size l ->
  exists l', draw_pixels pixels l = Ok l' /\ screen_size l' /\
    (Forall (fun x => on_screen x.1) pixels -> forall q, on_screen q -> shown l' q = last_drawn pixels q (shown l q)).
Proof.
  revert l. induction pixels as [|[p c] pixels IH]; intros l Hl; cbn [draw_pixels last_drawn]; [by exists l|].
  destruct (draw_pixel_total p c l Hl) as (l1 & E & Hl1). rewrite E. cbn [res_bind]. destruct (IH l1 Hl1) as (l' & Hrun & Hl' & Hs).
  exists l'. split_and!; [done|done|]. intros [Hp Hps]%Forall_cons q Hq. rewrite Hs by done. f_equal.
  destruct (draw_pixel_screen p c l q Hl Hp Hq) as (l2 & E2 & H2). congruence.
Qed.

(** A point to the right of the screen is drawn on the next line. *)
Lemma right_of_screen_wraps c l :
  screen_size l -> draw_pixel (MkPoint 1280 0) c l = draw_pixel (MkPoint 0 1) c l.
Proof. done. Qed.

(** ** The cursor *)

(** An image of whole pixels gets one byte more for each, 0 for white. *)
Lemma chunks3_whole pixels : Forall (fun p => length p = 3%nat) pixels -> chunks3 (concat pixels) = pixels.
Proof.
  induction 1 as [|p pixels Hp _ IH]; [done|]. destruct p as [|a [|b [|c [|]]]]; try done. cbn. by rewrite IH.
Qed.
Theorem cursor_alpha pixels :
  Forall (fun p => length p = 3%nat) pixels ->
  cursor_data (concat pixels) = concat ((fun p => p ++ [if bool_decide (p = replicate 3 Byte.xff) then Byte.x00 else Byte.xff]) <$> pixels).
Proof. intros H. unfold cursor_data. by rewrite chunks3_whole. Qed.

(** ** Witnesses *)

(** A black screen, and two pixels *)
Definition black : list u8 := replicate (Z.to_nat VIRTGPU_LEN) Byte.x00.
Definition demo_pixels : list (Point * Rgb888) :=
  [(MkPoint 5 7, MkRgb Byte.x01 Byte.x02 Byte.x03); (MkPoint 6 7, MkRgb Byte.x04 Byte.x05 Byte.x06)].

Lemma drawing_in_bounds_witness :
  exists l', draw_pixels demo_pixels black = Ok l' /\ shown l' (MkPoint 5 7) = Some (MkRgb Byte.x01 Byte.x02 Byte.x03).
Proof.
  destruct (drawing_in_bounds demo_pixels black) as (l' & Hrun & _ & Hs).
  { unfold screen_size, black. rewrite length_replicate. unfold VIRTGPU_LEN, VIRTGPU_XRES, VIRTGPU_YRES. lia. }
  exists l'. split; [exact Hrun|]. rewrite Hs; [reflexivity| |].
  - repeat constructor; cbn; unfold VIRTGPU_XRES, VIRTGPU_YRES; lia.
  - split; cbn; unfold VIRTGPU_XRES, VIRTGPU_YRES; lia.
Defined.
