(* ===== verification/Console.v ===== *)
(** * The kernel's console and log

    [kernel/src/console.rs] and [kernel/src/logging.rs]: texts go byte by byte
    to the serial line; a record of the log is one line with a colour.  The
    filter is the one of the crate [log]: a record is printed when its level is
    at most the maximum level set. *)

From Stdlib Require Import String.
From S2P Require Import Prelude Config Bytes StateMonad Process UserLib.

(** ** The console *)

(** [UART.write]: the bytes sent. *)
Definition uart_write (b : u8) : st (list u8) () := modify (fun sent => sent ++ [b]).

(** [Stdout::write_str] *)
Definition write_str (s : list u8) : st (list u8) () := iter_st uart_write s.
(** [print]: [write_fmt] writes the literals and the arguments in order. *)
Definition kprint (pieces : list (list u8)) : st (list u8) () := iter_st write_str pieces.

Lemma write_str_run s : forall sent, write_str s sent = Ok (tt, sent ++ s).
Proof.
  unfold write_str. induction s as [|b s IH]; intros sent; cbn [iter_st]; [by rewrite app_nil_r|].
  unfold uart_write at 1. rewrite bind_modify, IH, <- app_assoc. done.
Qed.
Lemma kprint_run pieces : forall sent, kprint pieces sent = Ok (tt, sent ++ concat pieces).
Proof.
  unfold kprint. induction pieces as [|p pieces IH]; intros sent; cbn [iter_st concat]; [by rewrite app_nil_r|].
  by rewrite (st_bind_Ok _ _ _ _ _ (write_str_run p sent)), IH, <- app_assoc.
Qed.

(** ** The log *)

Inductive Level := Error | Warn | Info | Debug | Trace.
#[export] Instance Level_eq_dec : EqDecision Level.
Proof. solve_decision. Defined.

Definition level_rank (l : Level) : Z := match l with Error => 1 | Warn => 2 | Info => 3 | Debug => 4 | Trace => 5 end.
Definition level_name (l : Level) : list u8 :=
  lit match l with Error => "ERROR" | Warn => "WARN" | Info => "INFO" | Debug => "DEBUG" | Trace => "TRACE" end.

(** The level [init] sets, from the variable [LOG] of the build; [None] is off. *)
Definition init_level (LOG : option (list u8)) : option Level :=
  match LOG with
  | None => None
  | Some s =>
      if bool_decide (s = lit "ERROR") then Some Error
      else if bool_decide (s = lit "WARN") then Some Warn
      else if bool_decide (s = lit "INFO") then Some Info
      else if bool_decide (s = lit "DEBUG") then Some Debug
      else if bool_decide (s = lit "TRACE") then Some Trace
      else None
  end.

(** The test of the macros of the crate. *)
Definition passes (max_level : option Level) (l : Level) : bool :=
  match max_level with None => false | Some m => level_rank l <=? level_rank m end.

Definition color (l : Level) : Z := match l with Error => 31 | Warn => 93 | Info => 34 | Debug => 32 | Trace => 90 end.

(** [{:>5}] *)
Definition pad5 (s : list u8) : list u8 := replicate (5 - length s) Byte.x20 ++ s.
Definition ESC : u8 := Byte.x1b.

(** [Logger::log], of a record that passed. *)
Definition log (l : Level) (args : list (list u8)) : st (list u8) () :=
  kprint ([ESC :: lit "["; to_string (color l); lit "m["; pad5 (level_name l); lit "] "] ++ args ++ [ESC :: lit "[0m" ++ NL]).
Definition log_record (LOG : option (list u8)) (l : Level) (args : list (list u8)) : st (list u8) () :=
  if passes (init_level LOG) l then log l args else ret tt.

(** ** The end of the kernel *)

(** [shutdown]: what the firmware is asked for. *)
Inductive reset := SystemFailure | NoReason.
Definition shutdown (failure : bool) : reset := if failure then SystemFailure else NoReason.

(** The panic handler of [kernel/src/lang_items.rs]; the compiler gives the
    place and the text. *)
Definition kernel_panic_handler (LOG : option (list u8)) (location : option (list u8 * Z)) (message : list u8) :
    st (list u8) reset :=
  match location with
  | Some (file, line) =>
      log_record LOG Error [lit "[kernel] Panicked at "; file; lit ":"; to_string line; lit " "; message]
  | None => log_record LOG Error [lit "[kernel] Panicked: "; message]
  end ;*
  ret (shutdown true).

(** ** What a terminal shows *)

(** The text without its colours: an escape goes up to its letter m. *)
Fixpoint visible (escaped : bool) (bs : list u8) : list u8 :=
  match bs with
  | [] => []
  | b :: bs =>
      if escaped then visible (negb (Byte.eqb b Byte.x6d)) bs
      else if Byte.eqb b ESC then visible true bs
      else b :: visible false bs
  end.

Lemma visible_text bs : forall rest, ESC ∉ bs -> visible false (bs ++ rest) = bs ++ visible false rest.
Proof.
  induction bs as [|b bs IH]; intros rest Hn; cbn [visible app]; [done|]. apply not_elem_of_cons in Hn as [Hb Hn].
  destruct (Byte.eqb b ESC) eqn:E; [by apply Byte.byte_dec_bl in E|]. by rewrite IH.
Qed.

Lemma visible_head l rest :
  visible false (concat [ESC :: lit "["; to_string (color l); lit "m["; pad5 (level_name l); lit "] "] ++ rest) =
    lit "[" ++ pad5 (level_name l) ++ lit "] " ++ visible false rest.
Proof. by destruct l; vm_compute. Qed.

(** A record of the log is one line.  For every value of [LOG] and every text
    without an escape character, the terminal shows the level in a field of
    five characters and the text, exactly when the level is at most the one
    [LOG] names, and is back at its own colour. *)
Theorem log_shown LOG l args sent :
  ESC ∉ concat args ->
  exists out, log_record LOG l args sent = Ok (tt, sent ++ out) /\
    visible false out =
      if passes (init_level LOG) l then lit "[" ++ pad5 (level_name l) ++ lit "] " ++ concat args ++ NL else [].
Proof.
  intros Ha. unfold log_record. destruct (passes (init_level LOG) l); [|by exists []; rewrite app_nil_r].
  unfold log. rewrite kprint_run. eexists. split; [done|]. rewrite !concat_app.
  by rewrite visible_head, visible_text.
Qed.

(** The kernel's last words, which it has only in a build that logs. *)
Lemma kernel_panic_runs LOG location message sent :
  exists out, kernel_panic_handler LOG location message sent = Ok (SystemFailure, sent ++ out) /\
    (init_level LOG = None <-> out = []).
Proof.
  assert (forall args, exists out, log_record LOG Error args sent = Ok (tt, sent ++ out) /\ (init_level LOG = None <-> out = [])) as H.
  { intros args. unfold log_record, passes. destruct (init_level LOG) as [m|]; [|by exists []; rewrite app_nil_r].
    assert ((level_rank Error <=? level_rank m) = true) as -> by (by destruct m). unfold log. rewrite kprint_run. eexists.
    split; [done|]. split; [done|]. intros E. by destruct args. }
  unfold kernel_panic_handler. destruct location as [[file line]|];
    match goal with |- context [log_record LOG Error ?args] => destruct (H args) as (out & Hr & Ho) end;
    exists out; by rewrite (st_bind_Ok _ _ _ _ _ Hr).
Qed.

(** A warning, with the log at [WARN] *)
Lemma log_shown_witness :
  exists out, log_record (Some (lit "WARN")) Warn [lit "low"] [] = Ok (tt, out) /\ visible false out = lit "[ WARN] low" ++ NL.
Proof. exact (log_shown (Some (lit "WARN")) Warn [lit "low"] [] ltac:(apply (bool_decide_unpack _); reflexivity)). Defined.
