(* ===== verification/FileCalls.v ===== *)
(** * System calls on files

    [kernel/src/syscall/fs.rs] and [sys_exec] of
    [kernel/src/syscall/process.rs], with the user's memory: paths, buffers
    and results go through the page table of the calling process.  Open files
    are shared objects: descriptors of any number of processes name the same
    file by its identity.  The files are inodes with an offset, the ends of
    pipes and the standard streams of [kernel/src/fs/stdio.rs].  A call that
    has to wait is kept with what it still has to do. *)

From S2P Require Import Prelude Config Bytes Utf8 Pipe BlockStore Layout Efs Vfs Paths Files.
From S2P Require Import StateMonad Address FrameAllocator PageTable MemorySet UserMemory TaskId Process.

(** ** State *)

(** What implements the trait [File]. *)
Inductive file :=
  | FInode (o : OSInode)
  | FPipe (rd wr : bool) (buffer : Z)
  | FStdin
  | FStdout.

(** The buffer of a pipe with the file its weak reference [write_end] points
    to. *)
Record pipe_buffer := MkPipe { pipe_ring : PipeRingBuffer; pipe_writer : Z }.

(** A call that gave up the processor, with the file it holds. *)
Inductive pending :=
  | PRead (f buffer : Z) (bufs : list segment) (got : list u8)
  | PWrite (f buffer : Z) (bufs : list segment) (sent : nat)
  | PStdin (f : Z) (bufs : list segment).

Definition pending_file (c : pending) : Z :=
  match c with PRead f _ _ _ | PWrite f _ _ _ | PStdin f _ => f end.

(** The processes with their memory and the disk, the files made so far, the
    pipes, the calls that wait, and the serial line: the bytes received and not
    read yet, and the bytes sent.  A file whose last reference is dropped stays
    in [files]; whether one is alive is told by [refs], its strong references,
    which is what the pipes ask for. *)
Record io := MkIO {
  base : world;
  files : gmap Z file;
  next_file : Z;
  pipes : gmap Z pipe_buffer;
  waiting : list pending;
  received : list u8;
  sent : list u8;
}.

Definition set_base (w : world) (s : io) : io :=
  MkIO w (files s) (next_file s) (pipes s) (waiting s) (received s) (sent s).
Definition set_file (f : Z) (x : file) (s : io) : io :=
  MkIO (base s) (<[f := x]> (files s)) (next_file s) (pipes s) (waiting s) (received s) (sent s).
Definition set_pipe (b : Z) (x : pipe_buffer) (s : io) : io :=
  MkIO (base s) (files s) (next_file s) (<[b := x]> (pipes s)) (waiting s) (received s) (sent s).
Definition set_waiting (l : list pending) (s : io) : io :=
  MkIO (base s) (files s) (next_file s) (pipes s) l (received s) (sent s).
Definition set_received (l : list u8) (s : io) : io :=
  MkIO (base s) (files s) (next_file s) (pipes s) (waiting s) l (sent s).
Definition set_sent (l : list u8) (s : io) : io :=
  MkIO (base s) (files s) (next_file s) (pipes s) (waiting s) (received s) l.

Definition on_base {A} (f : st world A) : st io A := fun s =>
  let? (a, w) := f (base s) in Ok (a, set_base w s).
Definition on_disk {A} (f : prog A) : st io A := on_base (on_fs f).

(** [Arc::new] of a file *)
Definition new_file (x : file) : st io Z := fun s =>
  let f := next_file s in
  Ok (f, MkIO (base s) (<[f := x]> (files s)) (f + 1) (pipes s) (waiting s) (received s) (sent s)).

(** The files open in a table of descriptors. *)
Definition table_files (b : pcb) : list Z := omap id (fd_table b).

(** The strong references to a file: descriptors of all processes, and calls
    that wait. *)
Definition file_refs (s : io) : list Z :=
  (map_to_list (procs (base s)) ≫= (fun kv => table_files kv.2)) ++ (pending_file <$> waiting s).
Definition refs (s : io) (f : Z) : nat := length (filter (fun g => g = f) (file_refs s)).

(** ** Memory of the user *)

(** The token of a process, as [current_user_token] gives it. *)
Definition user_token (b : pcb) : Z := MemorySet_token (pcb_memory_set b).

Definition user_buffer (b : pcb) (ptr len : Z) : st io (list segment) :=
  let* s := get in of_res (translated_byte_buffer (w_mm (base s)) (user_token b) ptr len).
Definition fill_user (bufs : list segment) (bs : list u8) : st io () := on_base (mod_mm (fill bufs bs)).

(** ** Files *)

(** [File::is_readable], [File::is_writable] *)
Definition is_readable (x : file) : bool :=
  match x with FInode o => readable o | FPipe rd _ _ => rd | FStdin => true | FStdout => false end.
Definition is_writable (x : file) : bool :=
  match x with FInode o => writable o | FPipe _ wr _ => wr | FStdin => false | FStdout => true end.

(** How a call ends: it returns, or it waits. *)
Inductive io_outcome := Done (n : Z) | Wait (c : pending).

(** A turn of [Pipe::read] and of [Pipe::write]. *)
Definition pipe_read_turn (f b : Z) (bufs : list segment) (got : list u8) : st io io_outcome :=
  let* s := get in
  let* p := of_option (pipes s !! b) in
  let r := set_write_end (pipe_ring p) (refs s (pipe_writer p)) in
  let* (t, r, got') := of_res (Pipe_read r (UserBuffer_len bufs) got) in
  modify (set_pipe b (MkPipe r (pipe_writer p))) ;*
  fill_user (skip (length got) bufs) (drop (length got) got') ;*
  ret match t with Returned n => Done n | Suspended => Wait (PRead f b bufs got') end.

Definition pipe_write_turn (f b : Z) (bufs : list segment) (sent : nat) : st io io_outcome :=
  let* s := get in
  let* p := of_option (pipes s !! b) in
  let* (t, r, sent') := of_res (Pipe_write (pipe_ring p) (buffer_bytes (w_mm (base s)) bufs) sent) in
  modify (set_pipe b (MkPipe r (pipe_writer p))) ;*
  ret match t with Returned n => Done n | Suspended => Wait (PWrite f b bufs sent') end.

(** [UART.read] and the store of [Stdin::read], once the length is checked. *)
Definition stdin_turn (f : Z) (bufs : list segment) : st io io_outcome :=
  let* s := get in
  match received s with
  | [] => ret (Wait (PStdin f bufs))
  | ch :: rest =>
      modify (set_received rest) ;*
      let* g := of_res (match bufs with g :: _ => Ok g | [] => Panic IndexOutOfBounds end) in
      fill_user [g] [ch] ;*
      ret (Done 1)
  end.

(** [File::read] *)
Definition file_read (f : Z) (x : file) (bufs : list segment) : st io io_outcome :=
  match x with
  | FInode o =>
      let* s := get in
      let* (n, slices, o) := on_disk (OSInode_read o (segment_bytes (w_mm (base s)) <$> bufs) 0) in
      modify (set_file f (FInode o)) ;*
      fill_user bufs (concat slices) ;*
      ret (Done n)
  | FPipe rd _ b => check rd ;* pipe_read_turn f b bufs []
  | FStdin => check (UserBuffer_len bufs =? 1) ;* stdin_turn f bufs
  | FStdout => panic ExplicitPanic
  end.

(** The loop of [Stdout::write]: each slice is printed as a text of its own. *)
Fixpoint print_slices (slices : list (list u8)) : st io () :=
  match slices with
  | [] => ret tt
  | bs :: slices =>
      of_res (if from_utf8_ok bs then Ok tt else Panic UnwrapNone) ;*
      modify (fun s => set_sent (sent s ++ bs) s) ;*
      print_slices slices
  end.

(** [File::write] *)
Definition file_write (f : Z) (x : file) (bufs : list segment) : st io io_outcome :=
  let* s := get in
  match x with
  | FInode o =>
      let* (n, o) := on_disk (OSInode_write o (segment_bytes (w_mm (base s)) <$> bufs) 0) in
      modify (set_file f (FInode o)) ;*
      ret (Done n)
  | FPipe _ wr b => check wr ;* pipe_write_turn f b bufs 0
  | FStdin => panic ExplicitPanic
  | FStdout => print_slices (segment_bytes (w_mm (base s)) <$> bufs) ;* ret (Done (UserBuffer_len bufs))
  end.

(** A call that has to wait is put aside. *)
Definition finish (r : io_outcome) : st io io_outcome :=
  match r with
  | Done n => ret (Done n)
  | Wait c => modify (fun s => set_waiting (waiting s ++ [c]) s) ;* ret (Wait c)
  end.

(** The [i]-th waiting call goes on. *)
Definition resume (i : nat) : st io io_outcome :=
  let* s := get in
  let* c := of_option (waiting s !! i) in
  modify (set_waiting (delete i (waiting s))) ;*
  let* r := match c with
            | PRead f b bufs got => pipe_read_turn f b bufs got
            | PWrite f b bufs n => pipe_write_turn f b bufs n
            | PStdin f bufs => stdin_turn f bufs
            end in
  finish r.

(** ** System calls

    [p] is the current process.  [str_fuel] bounds the length of a string or
    of a list of arguments in the user's memory, [file_fuel] the number of
    blocks of an executable.  The bytes between the fields of [Stat] are not
    set by the kernel: [padding] is what they happen to be. *)

Section calls.
Context (sym : symbols) (ElfFile_new : list u8 -> option ElfFile) (user_handler status : Z).
Context (ROOT_INODE PROC_INODE : Inode) (str_fuel file_fuel : nat) (padding : list u8).

Definition current (p : Z) : st io pcb := on_base (get_pcb p).

Definition user_string (b : pcb) (ptr : Z) : st io (list u8) :=
  let* s := get in of_res (translated_str str_fuel (w_mm (base s)) (user_token b) ptr).

Definition put_fds (p : Z) (fds : list (option Z)) : st io () := on_base (mod_pcb p (with_fds fds)).

(** [sys_getcwd] *)
Definition sys_getcwd (p buf len : Z) : st io Z :=
  let* b := current p in
  let* bufs := user_buffer b buf len in
  if len <? Z.of_nat (length (cwd b)) then ret (-1)
  else
    fill_user bufs (cwd b) ;*
    ret (Z.of_nat (length (cwd b))).

(** [sys_dup], [sys_dup2], [sys_close] *)
Definition sys_dup (p fd : Z) : st io Z :=
  let* b := current p in
  let '(r, fds) := Files.sys_dup (Z.to_nat fd) (fd_table b) in
  put_fds p fds ;* ret r.
Definition sys_dup2 (p old_fd new_fd : Z) : st io Z :=
  let* b := current p in
  let* (r, fds) := of_res (Files.sys_dup2 (Z.to_nat old_fd) (Z.to_nat new_fd) (fd_table b)) in
  put_fds p fds ;* ret r.
Definition sys_close (p fd : Z) : st io Z :=
  let* b := current p in
  let '(r, fds) := Files.sys_close (Z.to_nat fd) (fd_table b) in
  put_fds p fds ;* ret r.

Definition with_cwd (dir : list u8) (b : pcb) : pcb :=
  MkPcb (is_zombie b) (pcb_memory_set b) (parent b) (children b) (exit_code b) dir (fd_table b) (signals b) (tasks b)
    (pcb_task_res_allocator b).

(** [sys_chdir], [sys_mkdir], [sys_unlink] *)
Definition sys_chdir (p path : Z) : st io Z :=
  let* b := current p in
  let* path := user_string b path in
  let* (r, dir) := on_disk (Files.sys_chdir ROOT_INODE (cwd b) path) in
  on_base (mod_pcb p (with_cwd dir)) ;*
  ret r.
Definition sys_mkdir (p path : Z) : st io Z :=
  let* b := current p in
  let* path := user_string b path in
  on_disk (Files.sys_mkdir ROOT_INODE (cwd b) path).
Definition sys_unlink (p path flags : Z) : st io Z :=
  let* b := current p in
  let* path := user_string b path in
  on_disk (Files.sys_unlink ROOT_INODE (cwd b) path flags).

(** [sys_open] *)
Definition sys_open (p path flags : Z) : st io Z :=
  let* b := current p in
  let* path := user_string b path in
  let* flags := of_option (OpenFlags_from_bits flags) in
  let* o := on_disk (open_file ROOT_INODE (get_full_path (cwd b) path) flags) in
  match o with
  | None => ret (-1)
  | Some o =>
      let* f := new_file (FInode o) in
      let* b := current p in
      let '(fd, fds) := install f (fd_table b) in
      put_fds p fds ;*
      ret (Z.of_nat fd)
  end.

(** The file open at a descriptor. *)
Definition lookup_fd (b : pcb) (fd : Z) : option Z := opened (fd_table b) (Z.to_nat fd).

(** [sys_read] *)
Definition sys_read (p fd buf len : Z) : st io io_outcome :=
  let* b := current p in
  match lookup_fd b fd with
  | None => ret (Done (-1))
  | Some f =>
      let* s := get in
      let* x := of_option (files s !! f) in
      if negb (is_readable x) then ret (Done (-1))
      else
        let* bufs := user_buffer b buf len in
        let* r := file_read f x bufs in
        finish r
  end.

(** [sys_write] *)
Definition sys_write (p fd buf len : Z) : st io io_outcome :=
  let* b := current p in
  match lookup_fd b fd with
  | None => ret (Done (-1))
  | Some f =>
      let* s := get in
      let* x := of_option (files s !! f) in
      if negb (is_writable x) then ret (Done (-1))
      else
        let* bufs := user_buffer b buf len in
        let* r := file_write f x bufs in
        finish r
  end.

(** [Stat], as [repr(C)] lays it out in 32 bytes *)
Record Stat := MkStat { dev : Z; ino : Z; mode : Z; off : Z; stat_size : Z }.
Definition stat_bytes (a : Stat) : list u8 :=
  le_put 4 (dev a) ++ le_put 4 (ino a) ++ le_put 4 (mode a) ++ take 4 padding ++
  le_put 8 (off a) ++ le_put 4 (stat_size a) ++ take 4 (drop 4 padding).
Definition STAT_SIZE : Z := 32.

(** [Stat::from]: pipes and the standard streams have the default methods of
    [File]. *)
Definition stat_of (x : file) : st io Stat :=
  match x with
  | FInode o =>
      let* m := on_disk (OSInode_mode o) in
      let* n := on_disk (OSInode_file_size o) in
      ret (MkStat 0 (OSInode_inode_id o) m (offset o) n)
  | _ => ret (MkStat 0 0 0 0 0)
  end.

(** [sys_fstat] *)
Definition sys_fstat (p fd stat : Z) : st io Z :=
  let* b := current p in
  let* bufs := user_buffer b stat STAT_SIZE in
  match lookup_fd b fd with
  | None => ret (-1)
  | Some f =>
      let* s := get in
      let* x := of_option (files s !! f) in
      let* a := stat_of x in
      fill_user bufs (stat_bytes a) ;*
      ret 0
  end.

(** [sys_pipe] *)
Definition sys_pipe (p pipe : Z) : st io Z :=
  let* b := current p in
  let* s := get in
  let* r := new_file (FPipe true false (next_file s)) in
  let* w := new_file (FPipe false true r) in
  modify (set_pipe r (MkPipe make w)) ;*
  let '((read_fd, write_fd), fds) := Files.sys_pipe r w (fd_table b) in
  put_fds p fds ;*
  on_base (store_user (user_token b) pipe (le_put 8 (Z.of_nat read_fd))) ;*
  on_base (store_user (user_token b) (w64 (pipe + 8)) (le_put 8 (Z.of_nat write_fd))) ;*
  ret 0.

(** ** [sys_exec] *)

(** The word behind a pointer of the user. *)
Definition user_word (m : mm) (token ptr : Z) : res Z :=
  let? pa := translated_ref m token ptr in
  Ok (le_get ((fun i => phys_byte m (pa + i)) <$> seqZ 0 8)).

(** The loop over the arguments. *)
Fixpoint user_args (fuel : nat) (m : mm) (token args : Z) : res (list (list u8)) :=
  match fuel with
  | O => Panic OutOfFuel
  | S fuel =>
      let? ptr := user_word m token args in
      if ptr =? 0 then Ok []
      else
        let? arg := translated_str str_fuel m token ptr in
        let? rest := user_args fuel m token (w64 (args + 8)) in
        Ok (arg :: rest)
  end.

Definition sys_exec (p path args : Z) : st io Z :=
  let* b := current p in
  let* path := user_string b path in
  let* s := get in
  let* args_vec := of_res (user_args str_fuel (w_mm (base s)) (user_token b) args) in
  let* o := on_disk (open_file ROOT_INODE (get_full_path (cwd b) path) RDONLY) in
  match o with
  | None => ret (-1)
  | Some app_inode =>
      let* (data, _) := on_disk (OSInode_read_all file_fuel app_inode) in
      on_base (exec sym ElfFile_new user_handler status PROC_INODE p data args_vec) ;*
      ret (Z.of_nat (length args_vec))
  end.
End calls.
