(* ===== verification/FileCallsSpec.v ===== *)
(** * Correctness of the system calls on files

    What the calls of [FileCalls.v] do to the user's memory, to the files of
    the disk and to the open files, composed from the theorems about page
    tables, buffers, the file system and pipes. *)

From S2P Require Import Prelude Config Bytes Utf8 Pipe BlockStore Bitmap Layout InodeForest LayoutIO Efs Vfs VfsSpec.
From S2P Require Import Directory FileSystem Paths Files StateMonad Address FrameAllocator PageTable PageTableSpec.
From S2P Require Import MemorySet MemorySetSpec UserMemory TaskId Process FileCalls.

(** ** Writing an open file *)

Section open_files.
Context (efs : EasyFileSystem) (area : Z).

Abbreviation fs_rep := (FileSystem.fs_rep efs area).
Abbreviation fs_view := FileSystem.fs_view.
Abbreviation inode_of := (FileSystem.inode_of efs).
Abbreviation enough_free := (VfsSpec.enough_free efs area).

Lemma enough_free_next d d' di di' a b :
  is_u32 (size di) -> is_u32 b -> count_data_block (Z.max (size di) b) <= INDIRECT3_BOUND ->
  0 <= a <= b -> size di' = Z.max (size di) a ->
  length (free_data efs area d') = (length (free_data efs area d) - blocks_taken di a)%nat ->
  enough_free d di b -> enough_free d' di' b.
Proof.
  intros Hu Hub Hbd Hab Hsz Hf. unfold VfsSpec.enough_free, blocks_taken in *. rewrite Hsz, Hf.
  replace (Z.max (Z.max (size di) a) b) with (Z.max (size di) b) by lia.
  assert (is_u32 (Z.max (size di) a) /\ is_u32 (Z.max (size di) b)) as [? ?] by (unfold is_u32 in *; lia).
  pose proof (LayoutGrow.count_total_mono (Z.max (size di) a) (Z.max (size di) b) ltac:(done) ltac:(done) ltac:(lia) Hbd).
  pose proof (count_data_block_mono (Z.max (size di) a) (Z.max (size di) b) ltac:(lia)).
  pose proof (LayoutGrow.count_total_mono (size di) (Z.max (size di) a) Hu ltac:(done) ltac:(lia) ltac:(lia)). lia.
Qed.

(** [File::write] of an open file, slice by slice. *)
Lemma OSInode_write_run id bufs : forall self total d m di f,
  inode self = inode_of id -> fs_rep d m -> m !! id = Some (di, f) -> kind di = File ->
  Forall (fun b => b <> []) bufs -> 0 <= offset self -> 0 <= total ->
  total + Z.of_nat (length (concat bufs)) < 2 ^ 62 ->
  let e := offset self + Z.of_nat (length (concat bufs)) in
  is_u32 e -> count_data_block e <= INDIRECT3_BOUND -> enough_free d di e ->
  exists di' f' d' pad,
    run (OSInode_write self bufs total) d =
      Ok ((total + Z.of_nat (length (concat bufs)), with_offset self e), d') /\
    fs_rep d' (<[id := (di', f')]> m) /\ kind di' = File /\
    content d' di' f' = splice (Z.to_nat (offset self)) (concat bufs) (content d di f ++ pad) /\
    Z.of_nat (length (content d di f ++ pad)) = (if decide (bufs = []) then size di else Z.max (size di) e) /\
    fs_view d' (<[id := (di', f')]> m) = <[id := (File, content d' di' f')]> (fs_view d m).
Proof.
  induction bufs as [|b bufs IH]; intros self total d m di f Hi Hrep Hm Hk Hne Ho Ht Hl e He Hb Hfree; cbn [OSInode_write].
  { exists di, f, d, []. cbn [concat length] in *. replace e with (offset self) by (unfold e; lia).
    rewrite Z.add_0_r, app_nil_r, (insert_id m) by done. split_and!; try done.
    - by destruct self.
    - unfold splice. cbn [length app]. by rewrite Nat.add_0_r, take_drop.
    - rewrite decide_True by done. destruct Hrep as [Hfs _].
      eapply file_content_length. eapply (fs_file_state _ _ _ _ _ _ _ Hfs Hm).
    - symmetry. apply insert_id. rewrite <- Hk. by apply fs_view_lookup. }
  apply Forall_cons in Hne as [Hb0 Hne]. cbn [concat] in *.
  assert (e = offset self + Z.of_nat (length b) + Z.of_nat (length (concat bufs))) as Ee by (unfold e; rewrite length_app; lia).
  clearbody e. rewrite length_app, Nat2Z.inj_add in *.
  pose proof (fs_file_state _ _ _ _ _ _ _ (proj1 Hrep) Hm) as Hst.
  assert (is_u32 (size di) /\ count_data_block (size di) <= INDIRECT3_BOUND) as [Hus Hbs].
  { destruct Hst as [_ _ Hw _]. pose proof (ow_ok _ _ _ _ _ Hw) as Hok. split.
    - destruct (fo_wf _ _ _ Hok) as [_ Hu]. inversion Hu; subst. done.
    - apply Hok. }
  set (e1 := offset self + Z.of_nat (length b)).
  assert (e1 <= e) as He1 by (unfold e1; lia).
  pose proof (count_data_block_mono e1 e He1) as Hmono.
  assert (count_data_block (Z.max (size di) e) <= INDIRECT3_BOUND) as Hmax.
  { destruct (Z.max_spec (size di) e) as [[_ ->]|[_ ->]]; done. }
  assert (enough_free d di e1) as Hf1.
  { unfold VfsSpec.enough_free in *. pose proof (count_data_block_mono (Z.max (size di) e1) (Z.max (size di) e) ltac:(lia)).
    pose proof (LayoutGrow.count_total_mono (Z.max (size di) e1) (Z.max (size di) e)) as Hct.
    unfold is_u32 in *. specialize (Hct ltac:(lia) ltac:(lia) ltac:(lia) Hmax). lia. }
  destruct (fs_write_run efs area d m id di f (offset self) b) as
    (di1 & f1 & d1 & pad1 & Hrun & Hrep1 & Hk1 & Hsz1 & Hc1 & Hlc1 & Hfr1 & Hv1); try done.
  { unfold is_u32 in *. lia. } { fold e1. lia. }
  fold e1 in Hsz1, Hlc1, Hfr1.
  rewrite Hi, (run_bind_Ok _ _ _ _ _ Hrun), Z.eqb_refl. cbn [assert lift bind]. fold e1.
  unfold is_u32 in He. rewrite !w64_id by (unfold is_u64; lia).
  destruct (IH (with_offset self e1) (total + Z.of_nat (length b)) d1 (<[id := (di1, f1)]> m) di1 f1) as
    (di2 & f2 & d2 & pad2 & Hrun2 & Hrep2 & Hk2 & Hc2 & Hlc2 & Hv2); try done; cbn [with_offset offset]; try lia.
  { by rewrite lookup_insert_eq. }
  { unfold is_u32, e1. lia. } { by replace (e1 + _) with e by (unfold e1; lia). }
  { replace (e1 + Z.of_nat (length (concat bufs))) with e by (unfold e1; lia).
    by apply (enough_free_next d d1 di di1 e1 e); try done; unfold e1; lia. }
  cbn [with_offset offset] in *. replace (e1 + Z.of_nat (length (concat bufs))) with e in * by (unfold e1; lia).
  exists di2, f2, d2, (pad1 ++ pad2). rewrite insert_insert_eq in *. rewrite (decide_False (P := b :: bufs = [])) by done.
  assert (Z.of_nat (length (content d di f ++ pad1 ++ pad2)) = Z.max (size di) e) as HL.
  { rewrite Hc1, length_app, length_splice in Hlc2 by lia. rewrite app_assoc, length_app, Nat2Z.inj_add, Hlc1.
    rewrite Nat2Z.inj_add, Hlc1, Hsz1 in Hlc2. case_decide as D; [|lia]. subst bufs. cbn [concat length] in *. lia. }
  split_and!; try done.
  - rewrite Hrun2. by rewrite Z.add_assoc.
  - rewrite Hc2, Hc1, app_assoc. rewrite <- splice_app; [|rewrite <- app_assoc; lia].
    replace (Z.to_nat e1) with (Z.to_nat (offset self) + length b)%nat by (unfold e1; lia). f_equal.
    symmetry. apply splice_app_l. lia.
  - rewrite Hv2, Hv1. by rewrite insert_insert_eq.
Qed.
End open_files.

(** ** Buffers of a process *)

Section calls.
Context (efs : EasyFileSystem) (area lo : Z).

Abbreviation fs_rep := (FileSystem.fs_rep efs area).
Abbreviation fs_view := FileSystem.fs_view.
Abbreviation inode_of := (FileSystem.inode_of efs).
Abbreviation enough_free := (VfsSpec.enough_free efs area).

(** The page table of a process. *)
Abbreviation table_of b := (page_table (pcb_memory_set b)).

(** Process [p] exists and the buffer is in its framed pages. *)
Record user_ready (s : io) (p : Z) (b : pcb) (buf len : Z) : Prop := {
  ur_proc : procs (base s) !! p = Some b;
  ur_space : space_inv lo (w_mm (base s)) (table_of b);
  ur_range : 0 <= buf /\ 0 <= len /\ buf + len < 2 ^ 38;
  ur_framed : framed (table_of b) buf (buf + len);
}.

Lemma current_run s p b : procs (base s) !! p = Some b -> current p s = Ok (b, s).
Proof. intros H. unfold current, on_base, get_pcb. rewrite H. cbn. by destruct s. Qed.

Lemma user_buffer_run s p b buf len :
  user_ready s p b buf len ->
  exists segs, user_buffer b buf len s = Ok (segs, s) /\ framed_chain (table_of b) segs buf (buf + len).
Proof.
  intros [Hp HS (H1 & H2 & H3) Hf].
  destruct (user_buffer_framed lo (w_mm (base s)) (table_of b) buf len) as (segs & Hrun & Hc); try done.
  exists segs. split; [|done]. unfold user_buffer, st_bind, get, of_res, user_token, MemorySet_token. cbn. by rewrite Hrun.
Qed.

Lemma fill_user_run s segs bs :
  fill_user segs bs s = Ok (tt, set_base (set_mm (fill segs bs (w_mm (base s))) (base s)) s).
Proof. done. Qed.

Lemma on_disk_run {A} (f : prog A) s a d :
  run f (fs_disk (base s)) = Ok (a, d) -> on_disk f s = Ok (a, set_base (set_disk d (base s)) s).
Proof. intros H. unfold on_disk, on_base, on_fs. by rewrite H. Qed.

(** The bytes of a user's buffer. *)
Definition user_bytes (s : io) (b : pcb) (buf len : Z) (bs : list u8) : Prop :=
  Z.of_nat (length bs) = len /\
  forall i, (i < length bs)%nat -> user_data (w_mm (base s)) (table_of b) (buf + Z.of_nat i) = bs !! i.

(** The state [s'] differs from [s] in the user's memory only, where the
    bytes from [buf] on are [bs]. *)
Definition memory_holds (s s' : io) (b : pcb) (buf : Z) (bs : list u8) : Prop :=
  exists m', s' = set_base (set_mm m' (base s)) s /\ stored lo (w_mm (base s)) m' (table_of b) /\
    forall a, user_data m' (table_of b) a =
      if decide (buf <= a < buf + Z.of_nat (length bs)) then bs !! Z.to_nat (a - buf)
      else user_data (w_mm (base s)) (table_of b) a.

Lemma fill_user_holds s p b buf len segs bs :
  user_ready s p b buf len -> framed_chain (table_of b) segs buf (buf + len) -> Z.of_nat (length bs) <= len ->
  exists s', fill_user segs bs s = Ok (tt, s') /\ memory_holds s s' b buf bs.
Proof.
  intros [Hp HS _ _] Hc Hl. rewrite fill_user_run. eexists. split; [done|]. eexists. split; [done|].
  apply (fill_spec lo _ segs _ bs buf (buf + len)); try done. lia.
Qed.

(** Stores beyond the first [n] bytes that write back what was there. *)
Lemma fill_user_front s p b buf len segs bs :
  user_ready s p b buf len -> framed_chain (table_of b) segs buf (buf + len) -> Z.of_nat (length bs) <= len ->
  exists s', fill_user segs (splice 0 bs (buffer_bytes (w_mm (base s)) segs)) s = Ok (tt, s') /\
    memory_holds s s' b buf bs.
Proof.
  intros Hu Hc Hl. pose proof (ur_space _ _ _ _ _ Hu) as HS.
  destruct (buffer_data lo (w_mm (base s)) (table_of b) segs buf (buf + len) HS Hc) as [HL HB].
  assert (length (splice 0 bs (buffer_bytes (w_mm (base s)) segs)) = length (buffer_bytes (w_mm (base s)) segs)) as Hls
    by (apply length_splice; lia).
  destruct (fill_user_holds s p b buf len segs (splice 0 bs (buffer_bytes (w_mm (base s)) segs)))
    as (s' & Hrun & m' & Hs' & Hst & Hd); [done|done|lia|].
  exists s'. split; [done|]. exists m'. split_and!; [done|done|]. intros a. rewrite Hd, Hls.
  destruct (decide (buf <= a < buf + Z.of_nat (length bs))).
  - rewrite decide_True by lia. rewrite lookup_splice_in by lia. f_equal. lia.
  - case_decide; [|done]. rewrite lookup_splice_out, HB by lia. f_equal. lia.
Qed.

(** ** Regular files *)

(** Descriptor [fd] of [b] is the open file [o] of the inode [id]. *)
Record file_open (s : io) (b : pcb) (fd f : Z) (o : OSInode) (id : Z) : Prop := {
  fo_fd : lookup_fd b fd = Some f;
  fo_file : files s !! f = Some (FInode o);
  fo_inode : inode o = inode_of id;
  fo_offset : 0 <= offset o;
}.

Lemma sys_read_open s p b fd f x buf len :
  user_ready s p b buf len -> lookup_fd b fd = Some f -> files s !! f = Some x -> is_readable x = true ->
  exists segs, framed_chain (table_of b) segs buf (buf + len) /\
    sys_read p fd buf len s = st_bind (file_read f x segs) finish s.
Proof.
  intros Hu Hfd Hf Hr. destruct (user_buffer_run _ _ _ _ _ Hu) as (segs & Hb & Hc). exists segs. split; [done|].
  unfold sys_read. rewrite (st_bind_Ok _ _ _ _ _ (current_run _ _ _ (ur_proc _ _ _ _ _ Hu))), Hfd.
  rewrite bind_get, bind_option, Hf, Hr. cbn [negb]. by rewrite (st_bind_Ok _ _ _ _ _ Hb).
Qed.

Lemma sys_write_open s p b fd f x buf len :
  user_ready s p b buf len -> lookup_fd b fd = Some f -> files s !! f = Some x -> is_writable x = true ->
  exists segs, framed_chain (table_of b) segs buf (buf + len) /\
    sys_write p fd buf len s = st_bind (file_write f x segs) finish s.
Proof.
  intros Hu Hfd Hf Hr. destruct (user_buffer_run _ _ _ _ _ Hu) as (segs & Hb & Hc). exists segs. split; [done|].
  unfold sys_write. rewrite (st_bind_Ok _ _ _ _ _ (current_run _ _ _ (ur_proc _ _ _ _ _ Hu))), Hfd.
  rewrite bind_get, bind_option, Hf, Hr. cbn [negb]. by rewrite (st_bind_Ok _ _ _ _ _ Hb).
Qed.

(** C21: [sys_read] of a regular file: it returns the number of bytes between
    the offset and the end of the file, at most [len]; these bytes of the file
    are then in the user's buffer, at their addresses and in order; the
    offset of the open file, which all its descriptors share, advances by
    that number; no other byte of the process changes, and nothing else of
    the state. *)
Theorem sys_read_file_correct s p b fd f o id buf len m di fo :
  user_ready s p b buf len -> file_open s b fd f o id -> readable o = true ->
  fs_rep (fs_disk (base s)) m -> m !! id = Some (di, fo) -> offset o + len < 2 ^ 62 ->
  let n := io_len di (offset o) len in
  let data := slice (Z.to_nat (offset o)) (Z.to_nat n) (content (fs_disk (base s)) di fo) in
  exists s', sys_read p fd buf len s = Ok (Done n, s') /\ Z.of_nat (length data) = n /\
    memory_holds (set_file f (FInode (with_offset o (offset o + n))) s) s' b buf data.
Proof.
  intros Hu [Hfd Hf Hi Ho] Hr [Hfs _] Hm Hov n data. pose proof (fs_file_state _ _ _ _ _ _ _ Hfs Hm) as Hst.
  destruct (sys_read_open s p b fd f (FInode o) buf len Hu Hfd Hf Hr) as (segs & Hc & ->).
  pose proof (ur_space _ _ _ _ _ Hu) as HS. destruct (ur_range _ _ _ _ _ Hu) as (_ & Hlen & _).
  destruct (buffer_data lo (w_mm (base s)) (table_of b) segs buf (buf + len) HS Hc) as [HL _].
  replace (buf + len - buf) with len in HL by lia.
  pose proof (segment_nonempty lo (w_mm (base s)) (table_of b) segs buf (buf + len) HS Hc) as Hne.
  unfold buffer_bytes in HL.
  destruct (OSInode_read_run efs area (inode_of id) (fs_disk (base s)) di fo (segment_bytes (w_mm (base s)) <$> segs) o 0)
    as (bufs' & Hrun & _ & Hcat); try done; try lia.
  rewrite HL in Hrun, Hcat. fold n data in Hrun, Hcat. rewrite Z.add_0_l in Hrun.
  pose proof (file_content_length _ _ _ _ _ _ Hst) as HC.
  assert (Z.of_nat (length data) = n) as Hdn.
  { unfold data, slice. rewrite length_take, length_drop. unfold n, io_len in *. lia. }
  assert (n <= len) as Hnl by (unfold n, io_len; lia).
  set (s1 := set_file f (FInode (with_offset o (offset o + n))) s).
  destruct (fill_user_front s1 p b buf len segs data) as (s' & Hfill & Hmem); [by destruct Hu; split|done|lia|].
  exists s'. split_and!; [|done|done].
  unfold st_bind at 1, file_read. rewrite bind_get.
  rewrite (st_bind_Ok _ _ _ _ _ (on_disk_run _ _ _ _ Hrun)). rewrite bind_modify.
  replace (set_file f _ (set_base _ s)) with s1 by (unfold s1; by destruct s as [[]]).
  rewrite Hcat. change (buffer_bytes _ _) with (concat (segment_bytes (w_mm (base s)) <$> segs)) in Hfill.
  by rewrite (st_bind_Ok _ _ _ _ _ Hfill).
Qed.

Lemma buffer_user_bytes s p b buf len segs :
  user_ready s p b buf len -> framed_chain (table_of b) segs buf (buf + len) ->
  user_bytes s b buf len (buffer_bytes (w_mm (base s)) segs).
Proof.
  intros Hu Hc. destruct (buffer_data lo (w_mm (base s)) (table_of b) segs buf (buf + len) (ur_space _ _ _ _ _ Hu) Hc) as [HL HB].
  split; [lia|]. intros i Hi. symmetry. by apply HB.
Qed.

Lemma user_bytes_unique s b buf len bs bs' :
  user_bytes s b buf len bs -> user_bytes s b buf len bs' -> bs = bs'.
Proof.
  intros [HL HB] [HL' HB']. apply list_eq_same_length with (length bs); [lia|lia|]. intros i x y Hi Hx Hy.
  rewrite <- HB in Hx by lia. rewrite <- HB' in Hy by lia. congruence.
Qed.

(** C22: [sys_write] to a regular file with enough free blocks: it returns
    [len]; the file then has the bytes of the user's buffer from the offset
    on, and is longer when they reach past its end; the shared offset
    advances by [len]; no other file changes and the file system stays
    well-formed; memory, descriptors and the other open files are as
    before. *)
Theorem sys_write_file_correct s p b fd f o id buf len m di fo bs :
  user_ready s p b buf len -> file_open s b fd f o id -> writable o = true -> user_bytes s b buf len bs ->
  fs_rep (fs_disk (base s)) m -> m !! id = Some (di, fo) -> kind di = File -> 0 < len ->
  let e := offset o + len in
  is_u32 e -> count_data_block e <= INDIRECT3_BOUND -> enough_free (fs_disk (base s)) di e ->
  exists d' m' pad,
    sys_write p fd buf len s =
      Ok (Done len, set_file f (FInode (with_offset o e)) (set_base (set_disk d' (base s)) s)) /\
    fs_rep d' m' /\ Z.of_nat (length (content (fs_disk (base s)) di fo ++ pad)) = Z.max (size di) e /\
    fs_view d' m' =
      <[id := (File, splice (Z.to_nat (offset o)) bs (content (fs_disk (base s)) di fo ++ pad))]>
        (fs_view (fs_disk (base s)) m).
Proof.
  intros Hu [Hfd Hf Hi Ho] Hw [Hbl Hb] Hrep Hm Hk Hpos e He Hbd Hfree.
  destruct (sys_write_open s p b fd f (FInode o) buf len Hu Hfd Hf Hw) as (segs & Hc & ->).
  pose proof (user_bytes_unique _ _ _ _ _ _ (buffer_user_bytes s p b buf len segs Hu Hc) (conj Hbl Hb)) as Ebs.
  pose proof (segment_nonempty lo (w_mm (base s)) (table_of b) segs buf (buf + len) (ur_space _ _ _ _ _ Hu) Hc) as Hne.
  unfold buffer_bytes in *.
  destruct (OSInode_write_run efs area id (segment_bytes (w_mm (base s)) <$> segs) o 0 (fs_disk (base s)) m di fo) as
    (di' & f' & d' & pad & Hrun & Hrep' & Hk' & Hc' & Hlc & Hv); try done; rewrite ?Ebs, ?Hbl; try done; try lia.
  { unfold is_u32 in He. lia. }
  rewrite Ebs, Hbl in *. rewrite Z.add_0_l in Hrun. fold e in Hrun, Hlc.
  exists d', (<[id := (di', f')]> m), pad. split_and!; try done.
  - unfold st_bind at 1, file_write. rewrite bind_get.
    by rewrite (st_bind_Ok _ _ _ _ _ (on_disk_run _ _ _ _ Hrun)).
  - rewrite Hlc, decide_False; [done|]. intros E. rewrite E in Ebs. cbn in Ebs. subst bs. cbn in Hbl. lia.
  - by rewrite Hv, Hc'.
Qed.

(** ** Pipes *)

(** Descriptor [fd] of [b] is an end of the pipe [r], whose buffer is [pb]. *)
Record pipe_open (s : io) (b : pcb) (fd f : Z) (rd wr : bool) (r : Z) (pb : pipe_buffer) : Prop := {
  po_fd : lookup_fd b fd = Some f;
  po_file : files s !! f = Some (FPipe rd wr r);
  po_pipe : pipes s !! r = Some pb;
  po_ring : ring_inv (pipe_ring pb);
}.

Lemma skip_0 pt segs start end_ : framed_chain pt segs start end_ -> skip 0 segs = segs.
Proof.
  destruct segs as [|g segs]; [done|]. intros (_ & Hlo & Hhi & _). cbn [skip].
  assert (seg_len g <> O) by (unfold seg_len; lia).
  rewrite (proj2 (Nat.leb_gt _ _)) by lia. rewrite Z.add_0_r. by destruct g.
Qed.

(** How a call ends that either returns or waits. *)
Definition ends (s s' : io) (out : io_outcome) : Prop :=
  match out with
  | Done _ => s' = s
  | Wait c => s' = set_waiting (waiting s ++ [c]) s
  end.

Lemma finish_ends out s : exists s', finish out s = Ok (out, s') /\ ends s s' out.
Proof. destruct out; by eexists. Qed.

(** The store at the end of a turn of a read. *)
Lemma fill_turn s p b buf len segs data :
  user_ready s p b buf len -> framed_chain (table_of b) segs buf (buf + len) -> Z.of_nat (length data) <= len ->
  exists s', fill_user (skip 0 segs) data s = Ok (tt, s') /\ memory_holds s s' b buf data.
Proof. intros Hu Hc Hl. rewrite (skip_0 _ _ _ _ Hc). by eapply fill_user_holds. Qed.

Lemma sys_read_pipe_run s p b fd f wr r pb buf len :
  user_ready s p b buf len -> pipe_open s b fd f true wr r pb ->
  let q := contents (pipe_ring pb) in
  let data := take (Z.to_nat len) q in
  let writers := refs s (pipe_writer pb) in
  exists r' s1 s2 out, sys_read p fd buf len s = Ok (out, s2) /\
    ring_inv r' /\ contents r' = drop (Z.to_nat len) q /\
    memory_holds (set_pipe r (MkPipe r' (pipe_writer pb)) s) s1 b buf data /\ ends s1 s2 out /\
    match out with
    | Done n => n = Z.of_nat (length data) /\ (n = len \/ writers = O /\ contents r' = [])
    | Wait c => (exists segs, c = PRead f r segs data) /\ writers <> O /\ (q = [] \/ Z.of_nat (length q) < len)
    end.
Proof.
  intros Hu [Hfd Hf Hp Hri] q data writers.
  destruct (sys_read_open s p b fd f (FPipe true wr r) buf len Hu Hfd Hf eq_refl) as (segs & Hc & ->).
  destruct (ur_range _ _ _ _ _ Hu) as (_ & Hlen & _).
  pose proof (UserBuffer_len_chain _ _ _ _ Hc) as HL. replace (buf + len - buf) with len in HL by lia.
  destruct (Pipe_read_spec (set_write_end (pipe_ring pb) writers) len [] writers) as
    (t & r' & Hrun & Hr' & Hc' & _ & Ht); [by destruct Hri; split|done|done|].
  cbn [length app] in *. rewrite Z.sub_0_r in *. change (contents (set_write_end (pipe_ring pb) writers)) with q in *.
  fold data in Hrun, Ht.
  set (sp := set_pipe r (MkPipe r' (pipe_writer pb)) s).
  destruct (fill_turn sp p b buf len segs data) as (s1 & Hfill & Hmem); [by destruct Hu; split|done|
    unfold data; rewrite length_take; lia|].
  set (out := match t with Returned n => Done n | Suspended => Wait (PRead f r segs data) end).
  destruct (finish_ends out s1) as (s2 & Hfin & Hend).
  exists r', s1, s2, out. split_and!; try done.
  - assert (file_read f (FPipe true wr r) segs s = Ok (out, s1)) as Hread.
    { unfold file_read. rewrite bind_check. unfold pipe_read_turn. rewrite bind_get, bind_option, Hp.
      rewrite HL. unfold writers in Hrun. unfold st_bind at 1, of_res. rewrite Hrun. cbn [res_bind].
      rewrite bind_modify. cbn [length drop]. fold sp. by rewrite (st_bind_Ok _ _ _ _ _ Hfill). }
    by rewrite (st_bind_Ok _ _ _ _ _ Hread).
  - unfold out. destruct t; [done|]. destruct Ht as (Hw & _ & Hq). split_and!; [by exists segs|done|].
    destruct Hq as [Hq|Hq]; [by left|right; lia].
Qed.

Lemma sys_write_pipe_run s p b fd f rd r pb buf len bs :
  user_ready s p b buf len -> user_bytes s b buf len bs -> pipe_open s b fd f rd true r pb ->
  let q := contents (pipe_ring pb) in
  exists r' k s2 out, sys_write p fd buf len s = Ok (out, s2) /\ (k <= length bs)%nat /\
    ring_inv r' /\ contents r' = q ++ take k bs /\ ends (set_pipe r (MkPipe r' (pipe_writer pb)) s) s2 out /\
    match out with
    | Done n => n = len /\ k = length bs
    | Wait c => (exists segs, c = PWrite f r segs k) /\ length (contents r') = 32%nat /\
        (length q = 32 \/ k < length bs)%nat
    end.
Proof.
  intros Hu [Hbl Hb] [Hfd Hf Hp Hri] q.
  destruct (sys_write_open s p b fd f (FPipe rd true r) buf len Hu Hfd Hf eq_refl) as (segs & Hc & ->).
  pose proof (user_bytes_unique _ _ _ _ _ _ (buffer_user_bytes s p b buf len segs Hu Hc) (conj Hbl Hb)) as Ebs.
  destruct (Pipe_write_spec (pipe_ring pb) bs 0 Hri ltac:(lia)) as (t & r' & k & Hrun & Hk & Hr' & Hc' & _ & Ht).
  cbn [Nat.add] in *. rewrite drop_0 in Hc'. fold q in Hc', Ht.
  set (sp := set_pipe r (MkPipe r' (pipe_writer pb)) s).
  set (out := match t with Returned n => Done n | Suspended => Wait (PWrite f r segs k) end).
  destruct (finish_ends out sp) as (s2 & Hfin & Hend). exists r', k, s2, out. split_and!; try done.
  - assert (file_write f (FPipe rd true r) segs s = Ok (out, sp)) as Hwrite.
    { unfold file_write. rewrite bind_get, bind_check. unfold pipe_write_turn.
      rewrite bind_get, bind_option, Hp, Ebs. unfold st_bind at 1, of_res. by rewrite Hrun. }
    by rewrite (st_bind_Ok _ _ _ _ _ Hwrite).
  - unfold out. destruct t; [by rewrite <- Hbl; destruct Ht|]. destruct Ht as [H32 Hq]. split_and!; [by exists segs|done|done].
Qed.
(** [sys_read] of the read end of a pipe takes the oldest bytes of the
    buffer, at most [len], into the user's buffer.  It returns their number
    when this is [len], or when the pipe is drained and no descriptor of any
    process and no waiting call refers to the write end (end of file);
    otherwise it waits, having read less than [len], with some reference to
    the write end left. *)
Theorem sys_read_pipe_correct s p b fd f wr r pb buf len :
  user_ready s p b buf len -> pipe_open s b fd f true wr r pb ->
  let q := contents (pipe_ring pb) in
  let data := take (Z.to_nat len) q in
  let writers := refs s (pipe_writer pb) in
  exists r' s1 s2 out, sys_read p fd buf len s = Ok (out, s2) /\
    ring_inv r' /\ contents r' = drop (Z.to_nat len) q /\
    memory_holds (set_pipe r (MkPipe r' (pipe_writer pb)) s) s1 b buf data /\ ends s1 s2 out /\
    match out with
    | Done n => n = Z.of_nat (length data) /\ (n = len \/ writers = O /\ contents r' = [])
    | Wait c => (exists segs, c = PRead f r segs data) /\ writers <> O /\ (q = [] \/ Z.of_nat (length q) < len)
    end.
Proof. apply sys_read_pipe_run. Qed.

(** Bytes cross a pipe from one address space to another: process [p]
    writes [len] bytes, at most as many as the empty pipe holds, and process
    [q] reads as many; both calls return [len], and the buffer of [q] then
    holds the bytes of the buffer of [p]. *)
Theorem pipe_transfer s p bp wfd fw rd buf len bs q bq rfd fr wr buf' r pb :
  user_ready s p bp buf len -> user_bytes s bp buf len bs -> pipe_open s bp wfd fw rd true r pb ->
  user_ready s q bq buf' len -> pipe_open s bq rfd fr true wr r pb ->
  contents (pipe_ring pb) = [] -> 0 < len <= 32 ->
  exists s1 s2, sys_write p wfd buf len s = Ok (Done len, s1) /\ sys_read q rfd buf' len s1 = Ok (Done len, s2) /\
    user_bytes s2 bq buf' len bs.
Proof.
  intros Hup Hbs Hop Huq Hoq Hem Hlen. pose proof Hbs as [Hbl _].
  destruct (sys_write_pipe_run s p bp wfd fw rd r pb buf len bs Hup Hbs Hop) as
    (r1 & k & s1 & out & Hw & Hk & Hr1 & Hc1 & Hend & Hout).
  rewrite Hem in Hc1, Hout. cbn [app length] in Hc1, Hout. destruct out as [n|c].
  2:{ destruct Hout as (_ & H32 & H). exfalso. rewrite Hc1, length_take in H32. lia. }
  destruct Hout as [-> ->]. rewrite take_ge in Hc1 by lia. cbn [ends] in Hend.
  set (pb1 := MkPipe r1 (pipe_writer pb)) in *. subst s1. set (s1 := set_pipe r pb1 s) in *.
  destruct (sys_read_pipe_run s1 q bq rfd fr wr r pb1 buf' len) as (r2 & s2 & s3 & out & Hr & Hr2 & Hc2 & Hmem & Hend & Hout).
  { by destruct Huq; split. }
  { destruct Hoq. split; try done. unfold s1. cbn [set_pipe pipes]. by rewrite lookup_insert_eq. }
  cbn [pipe_ring pb1] in *. rewrite Hc1, take_ge in * by lia. destruct out as [n|c].
  2:{ destruct Hout as (_ & _ & [->|?]); [cbn in Hbl|]; lia. }
  destruct Hout as [-> _]. rewrite Hbl in Hr. cbn [ends] in Hend. subst s3. exists s1, s2. split_and!; try done.
  destruct Hmem as (m' & -> & _ & Hd). split; [done|]. intros i Hi.
  change (w_mm (base (set_base (set_mm m' (base (set_pipe r (MkPipe r2 (pipe_writer pb1)) s1)))
    (set_pipe r (MkPipe r2 (pipe_writer pb1)) s1)))) with m'.
  rewrite Hd, decide_True by lia. f_equal. lia.
Qed.

(** ** Errors *)

(** Descriptor [fd] is closed, or its file does not allow the operation. *)
Definition refused (s : io) (b : pcb) (fd : Z) (can : file -> bool) : Prop :=
  match lookup_fd b fd with
  | None => True
  | Some f => exists x, files s !! f = Some x /\ can x = false
  end.

(** A descriptor that is not open, and a file that is not open for the
    operation, make [sys_read] and [sys_write] return -1, whatever the buffer
    is, and nothing changes. *)
Theorem io_errors s p b fd buf len :
  procs (base s) !! p = Some b ->
  (refused s b fd is_readable -> sys_read p fd buf len s = Ok (Done (-1), s)) /\
  (refused s b fd is_writable -> sys_write p fd buf len s = Ok (Done (-1), s)).
Proof.
  intros Hp. unfold refused, sys_read, sys_write.
  rewrite !(st_bind_Ok _ _ _ _ _ (current_run _ _ _ Hp)). destruct (lookup_fd b fd) as [f|]; [|done].
  rewrite !bind_get. split; intros (x & Hx & Hc); by rewrite bind_option, Hx, Hc.
Qed.

(** ** The standard output *)

Lemma print_slices_run slices : forall s,
  print_slices slices s =
    if forallb from_utf8_ok slices then Ok (tt, set_sent (sent s ++ concat slices) s) else Panic UnwrapNone.
Proof.
  induction slices as [|bs slices IH]; intros s; cbn [print_slices forallb concat].
  { rewrite app_nil_r. by destruct s. }
  unfold st_bind at 1, of_res. destruct (from_utf8_ok bs); cbn [res_bind andb]; [|done].
  rewrite bind_modify, IH. destruct (forallb _ _); [|done]. unfold set_sent. cbn. by rewrite app_assoc.
Qed.

(** [sys_write] to the standard output sends the bytes of the buffer over
    the serial line and returns their number, when every part of the buffer
    that lies in one page is UTF-8; otherwise the kernel panics.  A buffer
    inside one page is one such part. *)
Theorem sys_write_stdout_correct s p b fd f buf len bs :
  user_ready s p b buf len -> user_bytes s b buf len bs -> lookup_fd b fd = Some f -> files s !! f = Some FStdout ->
  exists slices, concat slices = bs /\
    (0 < len -> buf / 4096 = (buf + len - 1) / 4096 -> slices = [bs]) /\
    sys_write p fd buf len s =
      if forallb from_utf8_ok slices then Ok (Done len, set_sent (sent s ++ bs) s) else Panic UnwrapNone.
Proof.
  intros Hu Hbs Hfd Hf.
  destruct (sys_write_open s p b fd f FStdout buf len Hu Hfd Hf eq_refl) as (segs & Hc & ->).
  pose proof (user_bytes_unique _ _ _ _ _ _ (buffer_user_bytes s p b buf len segs Hu Hc) Hbs) as Ebs.
  exists (segment_bytes (w_mm (base s)) <$> segs). split_and!; [done| |].
  - intros Hpos Hpg. unfold buffer_bytes in Ebs. destruct segs as [|g [|g' segs]]; cbn [framed_chain] in Hc; [lia| |].
    + cbn in Ebs |- *. by rewrite app_nil_r in Ebs; subst bs.
    + exfalso. destruct Hc as (_ & Hlo & Hhi & Hle & _ & Hlo' & Hhi' & Hle' & _).
      pose proof (Z.mod_pos_bound (buf - seg_lo g + seg_hi g) 4096 ltac:(lia)).
      pose proof (Z.div_mod buf 4096 ltac:(lia)). pose proof (Z.mod_pos_bound buf 4096 ltac:(lia)).
      pose proof (Z.div_mod (buf + len - 1) 4096 ltac:(lia)).
      pose proof (Z.mod_pos_bound (buf + len - 1) 4096 ltac:(lia)). lia.
  - unfold st_bind at 1, file_write. rewrite bind_get. unfold st_bind at 1. rewrite print_slices_run.
    unfold buffer_bytes in Ebs. rewrite Ebs. destruct (forallb _ _); [|done]. cbn [res_bind].
    pose proof (UserBuffer_len_chain _ _ _ _ Hc) as HL. replace (buf + len - buf) with len in HL by lia. by rewrite HL.
Qed.
End calls.

(** ** Witnesses

    A process with two pages, from page 16 on, and descriptors of the
    standard streams, of a file and of both ends of a pipe. *)

#[local] Opaque demo_disk demo_disk_a.

Definition demo_pcb : pcb :=
  MkPcb false two_ms None [] 0 [slash] [Some 0; Some 1; Some 2; Some 3; Some 4] 0 [] RecycleAllocator_new.
Definition demo_open : OSInode := MkOSInode true true 0 (FileSystem.inode_of demo_fs 1).
Definition demo_io (d : disk) : io :=
  MkIO (MkWorld {[1 := demo_pcb]} ∅ 0 {[1]} RecycleAllocator_new [] (MkKstacks RecycleAllocator_new two_ms two_mm) d)
    (list_to_map [(0, FStdin); (1, FStdout); (2, FInode demo_open); (3, FPipe true false 3); (4, FPipe false true 3)])
    5 {[3 := MkPipe make 4]} [] [] [].

Lemma demo_ready d buf len :
  65536 <= buf -> 0 <= len -> buf + len <= 73728 -> user_ready 100 (demo_io d) 1 demo_pcb buf len.
Proof.
  intros H1 H2 H3. split; [apply lookup_singleton_eq|apply two_space|lia|]. intros a Ha.
  assert (a / 4096 = 16 \/ a / 4096 = 17) as [-> | ->].
  { assert (16 <= a / 4096) by (apply Z.div_le_lower_bound; lia).
    assert (a / 4096 < 18) by (apply Z.div_lt_upper_bound; lia). lia. }
  - by eexists.
  - by eexists.
Qed.

Lemma make_ring : ring_inv (pipe_ring (MkPipe make 4)).
Proof. by split. Qed.

Lemma demo_pipe_ends d :
  pipe_open (demo_io d) demo_pcb 4 4 false true 3 (MkPipe make 4) /\
  pipe_open (demo_io d) demo_pcb 3 3 true false 3 (MkPipe make 4).
Proof. split; split; try reflexivity; apply make_ring. Qed.

Lemma demo_zeros d buf n :
  65536 <= buf -> buf + Z.of_nat n <= 73728 ->
  user_bytes (demo_io d) demo_pcb buf (Z.of_nat n) (replicate n Byte.x00).
Proof.
  intros H1 H2. split; [by rewrite length_replicate|]. rewrite length_replicate. intros i Hi.
  unfold user_data. set (a := buf + Z.of_nat i).
  assert (forall v, 16 <= v <= 17 -> exists f, data_frames (page_table two_ms) !! v = Some f /\ page_at two_mm f = zero_page) as Hpg.
  { intros v Hv. assert (v = 16 \/ v = 17) as [-> | ->] by lia; eexists; by vm_compute. }
  destruct (Hpg (a / 4096)) as (f & Hf & Hz).
  { split; [apply Z.div_le_lower_bound; lia|]. assert (a / 4096 < 18) by (apply Z.div_lt_upper_bound; lia). lia. }
  cbn [demo_pcb pcb_memory_set demo_io base w_mm kern kstack_mm]. rewrite Hf, (zero_page_bytes _ _ Hz).
  pose proof (Z.mod_pos_bound a 4096 ltac:(lia)).
  rewrite !lookup_replicate_2; [done|lia|]. pose proof page_len_Z. lia.
Qed.

Lemma pipe_transfer_witness :
  exists s1 s2, sys_write 1 4 65536 20 (demo_io demo_disk_a) = Ok (Done 20, s1) /\
    sys_read 1 3 70000 20 s1 = Ok (Done 20, s2) /\ user_bytes s2 demo_pcb 70000 20 (replicate 20 Byte.x00).
Proof.
  destruct (demo_pipe_ends demo_disk_a) as [Hw Hr].
  apply (pipe_transfer 100 (demo_io demo_disk_a) 1 demo_pcb 4 4 false 65536 20 (replicate 20 Byte.x00)
    1 demo_pcb 3 3 false 70000 3 (MkPipe make 4));
    [apply demo_ready; lia|apply (demo_zeros _ _ 20); lia|exact Hw|apply demo_ready; lia|exact Hr|reflexivity|lia].
Defined.

Lemma sys_read_pipe_correct_witness :
  exists r' s1 s2 out, sys_read 1 3 65536 20 (demo_io demo_disk_a) = Ok (out, s2) /\ contents r' = [] /\
    memory_holds 100 (set_pipe 3 (MkPipe r' 4) (demo_io demo_disk_a)) s1 demo_pcb 65536 [] /\ ends s1 s2 out /\
    exists segs, out = Wait (PRead 3 3 segs []).
Proof.
  destruct (demo_pipe_ends demo_disk_a) as [_ Hr].
  destruct (sys_read_pipe_correct 100 (demo_io demo_disk_a) 1 demo_pcb 3 3 false 3 (MkPipe make 4) 65536 20) as
    (r' & s1 & s2 & out & Hrun & _ & Hc & Hm & He & Ho); [apply demo_ready; lia|exact Hr|].
  exists r', s1, s2, out. split; [exact Hrun|]. split; [exact Hc|]. split; [exact Hm|]. split; [exact He|].
  destruct out as [n|c].
  - destruct Ho as [-> [Hn|[Hn _]]]; discriminate.
  - destruct Ho as [[segs ->] _]. by exists segs.
Defined.

(** [hello] in the file. *)
Definition hello5 : list u8 := [Byte.x68; Byte.x65; Byte.x6c; Byte.x6c; Byte.x6f].

Lemma demo_hello :
  exists d m di f, FileSystem.fs_rep demo_fs 73 d m /\ m !! 1 = Some (di, f) /\ content d di f = hello5 /\ size di = 5.
Proof.
  destruct demo_file as (m & _ & _ & dn & fn & Hrep & _ & _ & _ & Hm & Hk & Hs & Hfree).
  destruct (fs_write_run demo_fs 73 demo_disk_a m 1 dn fn 0 hello5 Hrep Hm Hk) as
    (di & f & d & pad & _ & Hrep' & _ & Hsz & Hc & Hlc & _); [discriminate|lia|clear; by vm_compute|clear; by vm_compute| |].
  { unfold VfsSpec.enough_free. rewrite Hfree, Hs. clear. vm_compute. lia. }
  rewrite Hs in Hsz, Hlc. cbn [Z.max] in *. exists d, (<[1 := (di, f)]> m), di, f. split_and!;
    [exact Hrep'|apply lookup_insert_eq| |exact Hsz].
  rewrite Hc. unfold splice. change (length hello5) with 5%nat in *. rewrite drop_ge, app_nil_r; [done|].
  change (Z.to_nat 0) with O. lia.
Qed.

Lemma sys_read_file_correct_witness :
  exists d s', sys_read 1 2 69630 20 (demo_io d) = Ok (Done 5, s') /\
    memory_holds 100 (set_file 2 (FInode (with_offset demo_open 5)) (demo_io d)) s' demo_pcb 69630 hello5.
Proof.
  destruct demo_hello as (d & m & di & f & Hrep & Hm & Hc & Hsz). exists d.
  destruct (sys_read_file_correct demo_fs 73 100 (demo_io d) 1 demo_pcb 2 2 demo_open 1 69630 20 m di f) as
    (s' & Hrun & _ & Hmem); [apply demo_ready; lia|split; [reflexivity|reflexivity|reflexivity|apply Z.le_refl]|reflexivity|exact Hrep|exact Hm|clear; by vm_compute|].
  unfold io_len in Hrun, Hmem. rewrite Hsz in Hrun, Hmem. cbn [demo_io base fs_disk] in Hmem. rewrite Hc in Hmem.
  exists s'. split; [exact Hrun|exact Hmem].
Defined.

Lemma sys_write_file_correct_witness :
  exists d' m m' di f pad,
    sys_write 1 2 69630 20 (demo_io demo_disk_a) =
      Ok (Done 20, set_file 2 (FInode (with_offset demo_open 20))
            (set_base (set_disk d' (base (demo_io demo_disk_a))) (demo_io demo_disk_a))) /\
    FileSystem.fs_rep demo_fs 73 d' m' /\
    FileSystem.fs_view d' m' =
      <[1 := (File, splice 0 (replicate 20 Byte.x00) (content demo_disk_a di f ++ pad))]> (FileSystem.fs_view demo_disk_a m).
Proof.
  destruct demo_file as (m & _ & _ & di & f & Hrep & _ & _ & _ & Hm & Hk & Hs & Hfree).
  destruct (sys_write_file_correct demo_fs 73 100 (demo_io demo_disk_a) 1 demo_pcb 2 2 demo_open 1 69630 20 m di f
    (replicate 20 Byte.x00)) as (d' & m' & pad & Hrun & Hrep' & _ & Hv);
    [apply demo_ready; lia|split; [reflexivity|reflexivity|reflexivity|apply Z.le_refl]|reflexivity|
     apply (demo_zeros _ _ 20); lia|exact Hrep|exact Hm|exact Hk|lia|clear; by vm_compute|clear; by vm_compute| |].
  { unfold VfsSpec.enough_free. change (fs_disk (base (demo_io demo_disk_a))) with demo_disk_a.
    rewrite Hfree, Hs. clear. vm_compute. lia. }
  exists d', m, m', di, f, pad. split; [exact Hrun|]. split; [exact Hrep'|]. exact Hv.
Defined.

Lemma io_errors_witness :
  sys_read 1 1 0 1 (demo_io demo_disk_a) = Ok (Done (-1), demo_io demo_disk_a) /\
  sys_write 1 9 0 1 (demo_io demo_disk_a) = Ok (Done (-1), demo_io demo_disk_a).
Proof.
  split.
  - apply (io_errors (demo_io demo_disk_a) 1 demo_pcb 1 0 1 (lookup_singleton_eq _ _)). exists FStdout. split; reflexivity.
  - apply (io_errors (demo_io demo_disk_a) 1 demo_pcb 9 0 1 (lookup_singleton_eq _ _)). exact I.
Defined.

Lemma sys_write_stdout_correct_witness :
  sys_write 1 1 65536 3 (demo_io demo_disk_a) = Ok (Done 3, set_sent (replicate 3 Byte.x00) (demo_io demo_disk_a)).
Proof.
  destruct (sys_write_stdout_correct 100 (demo_io demo_disk_a) 1 demo_pcb 1 1 65536 3 (replicate 3 Byte.x00)) as
    (slices & _ & Hs & Hrun); [apply demo_ready; lia|apply (demo_zeros _ _ 3); lia|reflexivity|reflexivity|].
  rewrite Hrun, (Hs ltac:(lia) eq_refl). reflexivity.
Defined.

(** A character of two bytes whose bytes are in different pages: the text is
    UTF-8 and the kernel panics. *)
Definition split_char : list u8 := [Byte.xc3; Byte.xa9].
Definition split_io : io :=
  let s := demo_io (blank_disk 0) in
  match user_buffer demo_pcb 69631 2 s with
  | Ok (segs, s) => match fill_user segs split_char s with Ok (_, s) => s | Panic _ => s end
  | Panic _ => s
  end.

Lemma stdout_split_char :
  from_utf8_ok split_char = true /\ sys_write 1 1 69631 2 split_io = Panic UnwrapNone.
Proof. split; by vm_compute. Qed.
