(* ===== verification/FileTable.v ===== *)
(** * The open files

    An invariant of the state of [FileCalls.v], a part of the invariant of the
    machine: every descriptor and every waiting call names a file that was
    made, the files and buffers of pipes match, and every pipe's buffer is
    well-formed.  Every call keeps it, so that no lookup of a file or pipe in
    the calls can fail. *)

From S2P Require Import Prelude Config Bytes Utf8 Pipe BlockStore Layout Efs Vfs Paths Files.
From S2P Require Import StateMonad Address FrameAllocator PageTable MemorySet UserMemory TaskId Process FileCalls FileCallsSpec.

(** ** The invariant *)

Definition pending_ok (s : io) (c : pending) : Prop :=
  match c with
  | PRead f r bufs got =>
      (exists wr, files s !! f = Some (FPipe true wr r)) /\ Z.of_nat (length got) <= UserBuffer_len bufs
  | PWrite f r bufs _ => exists rd, files s !! f = Some (FPipe rd true r)
  | PStdin f bufs => files s !! f = Some FStdin /\ UserBuffer_len bufs = 1
  end.

Record io_inv (s : io) : Prop := {
  ii_fresh f : is_Some (files s !! f) -> f < next_file s;
  ii_tables p b f : procs (base s) !! p = Some b -> Some f ∈ fd_table b -> is_Some (files s !! f);
  ii_pipes f rd wr r : files s !! f = Some (FPipe rd wr r) -> is_Some (pipes s !! r);
  ii_rings r pb : pipes s !! r = Some pb ->
    ring_inv (pipe_ring pb) /\ files s !! pipe_writer pb = Some (FPipe false true r);
  ii_waiting c : c ∈ waiting s -> pending_ok s c;
}.

(** ** Operations that leave the tables alone *)

Record same_tables (s s' : io) : Prop := {
  st_files : files s' = files s;
  st_next : next_file s' = next_file s;
  st_pipes : pipes s' = pipes s;
  st_waiting : waiting s' = waiting s;
  st_fds : fd_table <$> procs (base s') = fd_table <$> procs (base s);
}.

Abbreviation keeps := (moves same_tables).

#[export] Instance same_tables_preorder : PreOrder same_tables.
Proof. split; [by split|]. intros s1 s2 s3 [] []. split; congruence. Qed.

Lemma same_fds s s' p b : same_tables s s' -> procs (base s') !! p = Some b ->
  exists b', procs (base s) !! p = Some b' /\ fd_table b' = fd_table b.
Proof.
  intros Hs Hb. pose proof (st_fds _ _ Hs) as H. apply (f_equal (fun m => m !! p)) in H.
  rewrite !lookup_fmap, Hb in H. cbn in H. destruct (procs (base s) !! p) as [b'|]; [|done].
  exists b'. split; [done|]. cbn in H. congruence.
Qed.

Lemma same_inv s s' : same_tables s s' -> io_inv s -> io_inv s'.
Proof.
  intros Hs [Hf Ht Hp Hr Hw]. pose proof Hs as [E1 E2 E3 E4 _]. split; rewrite ?E1, ?E2, ?E3, ?E4; try done.
  - intros p b f Hb Hin. destruct (same_fds _ _ _ _ Hs Hb) as (b' & Hb' & E). rewrite <- E in Hin. by eapply Ht.
  - intros c Hc. pose proof (Hw c Hc) as H. destruct c; cbn in *; by rewrite E1.
Qed.

(** Steps of the world that keep every descriptor. *)
Abbreviation keeps_fds := (moves (eq_on (fun w => fd_table <$> procs w))).

Lemma keeps_on_base {A} (f : st world A) : keeps_fds f -> keeps (on_base f).
Proof.
  intros Hf s a s' H. unfold on_base in H. destruct (f (base s)) as [[a' w]|] eqn:E; [|done]. simplify_eq/=.
  split; try done. by eapply Hf.
Qed.

Lemma keeps_fds_on_fs {A} (f : prog A) : keeps_fds (on_fs f).
Proof. intros w a w' H. unfold on_fs in H. destruct (run f _) as [[]|]; by simplify_eq/=. Qed.
Lemma keeps_fds_mod_mm f : keeps_fds (mod_mm f).
Proof. by intros w a w' [= <- <-]. Qed.
Lemma keeps_fds_get_pcb p : keeps_fds (get_pcb p).
Proof. intros w a w' H. unfold get_pcb in H. destruct (procs w !! p); by simplify_eq/=. Qed.
Lemma keeps_fds_mod_pcb p f : (forall b, fd_table (f b) = fd_table b) -> keeps_fds (mod_pcb p f).
Proof.
  intros Hf w a w' [= <- <-]. unfold eq_on. cbn. apply map_eq. intros q. rewrite !lookup_fmap.
  destruct (decide (q = p)) as [->|]; [rewrite lookup_alter_eq|by rewrite lookup_alter_ne].
  destruct (procs w !! p); cbn; by rewrite ?Hf.
Qed.
Lemma keeps_fds_store_user t va bs : keeps_fds (store_user t va bs).
Proof.
  intros w a w' H. unfold store_user, mod_mm in H. by inv_st.
Qed.

#[local] Hint Resolve keeps_on_base keeps_fds_on_fs
  keeps_fds_mod_mm keeps_fds_get_pcb keeps_fds_store_user : moves.

Lemma keeps_on_disk {A} (f : prog A) : keeps (on_disk f).
Proof. unfold on_disk. follow. Qed.
Lemma keeps_fill bufs bs : keeps (fill_user bufs bs).
Proof. unfold fill_user. follow. Qed.
Lemma keeps_user_buffer b ptr len : keeps (user_buffer b ptr len).
Proof. unfold user_buffer. follow. Qed.
Lemma keeps_current p : keeps (current p).
Proof. unfold current. follow. Qed.
Lemma keeps_user_string n b ptr : keeps (user_string n b ptr).
Proof. unfold user_string. follow. Qed.
#[local] Hint Resolve keeps_on_disk keeps_fill keeps_user_buffer keeps_current keeps_user_string : moves.

(** ** Operations that change the tables *)

Abbreviation preserves := (moves (through io_inv)).

Lemma keeps_preserves {A} (f : st io A) : keeps f -> preserves f.
Proof. apply moves_weaken. intros s s' Hs Hi. by eapply same_inv. Qed.

(** Descriptors that name open files. *)
Definition table_ok (s : io) (t : list (option Z)) : Prop := forall f, Some f ∈ t -> is_Some (files s !! f).

Lemma put_fds_inv s p fds u s' : io_inv s -> table_ok s fds -> put_fds p fds s = Ok (u, s') -> io_inv s'.
Proof.
  intros [Hf Ht Hp Hr Hw] Hok [= <- <-]. split; try done.
  intros q b f Hb Hin. cbn in Hb. destruct (decide (q = p)) as [->|].
  - rewrite lookup_alter_eq in Hb. destruct (procs (base s) !! p); [|done]. simplify_eq/=. by apply Hok.
  - rewrite lookup_alter_ne in Hb by done. by eapply Ht.
Qed.

Lemma elem_insert {A} (i : nat) (x y : A) (l : list A) : y ∈ <[i := x]> l -> y = x \/ y ∈ l.
Proof.
  intros (j & Hj)%list_elem_of_lookup. apply list_lookup_insert_Some in Hj as [(-> & -> & _)|[_ Hj]]; [by left|right].
  by eapply list_elem_of_lookup_2.
Qed.

Lemma install_elem (f g : Z) t : Some g ∈ (install f t).2 -> g = f \/ Some g ∈ t.
Proof.
  unfold install, alloc_fd. destruct (first_none t); cbn; intros [H|H]%elem_insert; try (left; congruence); try by right.
  apply elem_of_app in H as [?|H]; [by right|]. apply list_elem_of_singleton in H. done.
Qed.

Lemma dup_elem fd (t : list (option Z)) g : Some g ∈ (Files.sys_dup fd t).2 -> Some g ∈ t.
Proof.
  unfold Files.sys_dup. destruct (t !! fd) as [[f|]|] eqn:E; try done.
  pose proof (install_elem f g t) as H. destruct (install f t) as [n t']. cbn in *. intros Hin.
  destruct (H Hin) as [->|]; [|done]. by eapply list_elem_of_lookup_2.
Qed.

Lemma dup2_elem fd fd' (t : list (option Z)) r t' g :
  Files.sys_dup2 fd fd' t = Ok (r, t') -> Some g ∈ t' -> Some g ∈ t.
Proof.
  unfold Files.sys_dup2. destruct (Nat.leb _ fd); [by intros [= _ <-]|]. set (t1 := if Nat.leb (length t) fd' then _ else t).
  assert (forall x : Z, Some x ∈ t1 -> Some x ∈ t) as Ht.
  { intros x. unfold t1. destruct (Nat.leb (length t) fd'); [|done]. rewrite resize_spec. intros [H|H]%elem_of_app.
    - apply list_elem_of_lookup in H as (j & [Hj _]%lookup_take_Some). by eapply list_elem_of_lookup_2.
    - by apply elem_of_replicate in H as [H _]. }
  destruct (t1 !! fd) as [o|] eqn:E; [|done]. destruct (Nat.ltb _ _); [|done]. intros [= _ <-] [H|H]%elem_insert; apply Ht; [|done].
  rewrite H. by eapply list_elem_of_lookup_2.
Qed.

Lemma close_elem fd (t : list (option Z)) g : Some g ∈ (Files.sys_close fd t).2 -> Some g ∈ t.
Proof.
  unfold Files.sys_close. destruct (Nat.leb _ fd); [done|].
  destruct (t !! fd) as [[f|]|]; cbn; intros [H|H]%elem_insert; done.
Qed.

Lemma current_Ok p s b s' : current p s = Ok (b, s') -> s' = s /\ procs (base s) !! p = Some b.
Proof.
  unfold current, on_base, get_pcb. destruct (procs (base s) !! p); cbn; [|done]. intros [= <- <-]. by destruct s.
Qed.

(** A call that replaces the table of a process by a part of it. *)
Lemma fds_preserves p (g : list (option Z) -> res (Z * list (option Z))) :
  (forall t r t' f, g t = Ok (r, t') -> Some f ∈ t' -> Some f ∈ t) ->
  preserves (let* b := current p in let* (r, fds) := of_res (g (fd_table b)) in put_fds p fds ;* ret r).
Proof.
  intros Hg s a s' (b & s1 & (-> & Hb)%current_Ok & H)%st_bind_inv Hs.
  apply st_bind_inv in H as ([r fds] & s2 & H1 & H). unfold of_res in H1.
  destruct (g (fd_table b)) as [x|] eqn:E; [|done]. simplify_eq/=. inv_st.
  eapply put_fds_inv; [exact Hs| |done]. intros f Hf. eapply (ii_tables _ Hs); [done|]. by eapply Hg.
Qed.

(** A new file that is no pipe. *)
Lemma new_file_inv s o f s' :
  io_inv s -> new_file (FInode o) s = Ok (f, s') -> io_inv s' /\ is_Some (files s' !! f) /\ base s' = base s.
Proof.
  intros [Hf Ht Hp Hr Hw] [= <- <-]. cbn. assert (files s !! next_file s = None) as Hn.
  { destruct (files s !! next_file s) eqn:E; [|done]. assert (next_file s < next_file s) by (apply Hf; by rewrite E). lia. }
  assert (forall g x, files s !! g = Some x -> <[next_file s := FInode o]> (files s) !! g = Some x) as Hold.
  { intros g x Hg. rewrite lookup_insert_ne; [done|]. intros <-. congruence. }
  split; [|by rewrite lookup_insert_eq]. split; cbn.
  - intros g [x [[<- _]|[_ Hg]]%lookup_insert_Some]; [lia|]. assert (g < next_file s) by (apply Hf; by rewrite Hg). lia.
  - intros p b g Hb Hin. destruct (Ht p b g Hb Hin) as [x Hx]. rewrite (Hold _ _ Hx). by eexists.
  - intros g rd wr r [[_ ?]|[_ Hg]]%lookup_insert_Some; [done|]. by eapply Hp.
  - intros r pb Hpb. destruct (Hr r pb Hpb) as [? Hx]. split; [done|]. by apply Hold.
  - intros c Hc. specialize (Hw c Hc). destruct c; cbn in *.
    + destruct Hw as ((wr & Hx) & ?). split; [exists wr; by apply Hold|done].
    + destruct Hw as (rd & Hx). exists rd. by apply Hold.
    + destruct Hw as [Hx ?]. split; [by apply Hold|done].
Qed.

(** ** Reading and writing *)

(** Replacing the state of an open inode. *)
Lemma set_inode_inv s f o o' : io_inv s -> files s !! f = Some (FInode o) -> io_inv (set_file f (FInode o') s).
Proof.
  intros [Hf Ht Hp Hr Hw] Ho.
  assert (forall g x, files s !! g = Some x -> (forall o, x <> FInode o) -> <[f := FInode o']> (files s) !! g = Some x) as Hold.
  { intros g x Hg Hx. rewrite lookup_insert_ne; [done|]. intros <-. simplify_eq. by apply (Hx o). }
  split; cbn.
  - intros g [x [[<- _]|[_ Hg]]%lookup_insert_Some]; apply Hf; by eexists.
  - intros p b g Hb Hin. rewrite lookup_insert_is_Some. destruct (decide (f = g)); [by left|right]. split; [done|].
    by eapply Ht.
  - intros g rd wr r [[_ ?]|[_ Hg]]%lookup_insert_Some; [done|]. by eapply Hp.
  - intros r pb Hpb. destruct (Hr r pb Hpb) as [? Hx]. split; [done|]. by apply Hold.
  - intros c Hc. specialize (Hw c Hc). destruct c; cbn in *.
    + destruct Hw as ((wr & Hx) & ?). split; [exists wr; by apply Hold|done].
    + destruct Hw as (rd & Hx). exists rd. by apply Hold.
    + destruct Hw as [Hx ?]. split; [by apply Hold|done].
Qed.

(** Replacing the buffer of a pipe. *)
Lemma set_ring_inv s r pb r' : io_inv s -> pipes s !! r = Some pb -> ring_inv r' ->
  io_inv (set_pipe r (MkPipe r' (pipe_writer pb)) s).
Proof.
  intros [Hf Ht Hp Hr Hw] Hpb Hri. split; cbn; try done.
  - intros f rd wr q Hq. rewrite lookup_insert_is_Some. destruct (decide (r = q)); [by left|right]. split; [done|].
    by eapply Hp.
  - intros q pb' [[<- <-]|[_ Hq]]%lookup_insert_Some; cbn; [|by apply Hr].
    split; [done|]. by apply (Hr r pb).
Qed.

Lemma wait_inv s c : io_inv s -> pending_ok s c -> io_inv (set_waiting (waiting s ++ [c]) s).
Proof.
  intros [Hf Ht Hp Hr Hw] Hc. split; try done. intros x [Hx| ->%list_elem_of_singleton]%elem_of_app.
  - specialize (Hw x Hx). by destruct x.
  - by destruct c.
Qed.

(** What a turn leaves: a call that waits can be put aside. *)
Definition out_ok (s : io) (out : io_outcome) : Prop :=
  match out with Done _ => True | Wait c => pending_ok s c end.

Lemma finish_inv s out a s' : io_inv s -> out_ok s out -> finish out s = Ok (a, s') -> io_inv s'.
Proof. intros Hs Hc H. destruct out; cbn in H; inv_st; [done|]. by apply wait_inv. Qed.

Lemma fill_inv s bufs bs u s' : fill_user bufs bs s = Ok (u, s') -> same_tables s s'.
Proof. apply keeps_fill. Qed.

Lemma pending_same s s' c : same_tables s s' -> pending_ok s c -> pending_ok s' c.
Proof. intros [E _ _ _ _]. destruct c; cbn; by rewrite E. Qed.

Lemma pipe_read_turn_ok f r bufs got wr :
  Z.of_nat (length got) <= UserBuffer_len bufs ->
  forall s out s', io_inv s -> files s !! f = Some (FPipe true wr r) -> pipe_read_turn f r bufs got s = Ok (out, s') ->
    io_inv s' /\ out_ok s' out.
Proof.
  intros Hg s out s' Hs Hf H. unfold pipe_read_turn in H.
  apply st_bind_inv in H as (s0 & s1 & [= <- <-] & H). apply st_bind_inv in H as (pb & s1 & H1 & H).
  apply of_res_Ok in H1 as [H1 ->]. destruct (pipes s !! r) as [pb'|] eqn:Hpb; [|done]. cbn in H1. simplify_eq.
  destruct (ii_rings _ Hs r pb Hpb) as [Hri _].
  destruct (Pipe_read_spec (set_write_end (pipe_ring pb) (refs s (pipe_writer pb))) (UserBuffer_len bufs) got
    (refs s (pipe_writer pb))) as (t & r' & Hrun & Hr' & _ & _ & _); [by destruct Hri; split|done|done|].
  unfold st_bind at 1, of_res in H. rewrite Hrun in H. cbn [res_bind] in H. rewrite bind_modify in H.
  apply st_bind_inv in H as (u & s2 & Hfill & H). apply fill_inv in Hfill. inv_st.
  set (got' := got ++ _) in *.
  assert (Z.of_nat (length got') <= UserBuffer_len bufs) as Hg'.
  { unfold got'. rewrite length_app, length_take. lia. }
  pose proof (set_ring_inv s r pb r' Hs Hpb Hr') as Hs1. split; [by eapply same_inv|]. destruct t; [done|].
  eapply pending_same; [exact Hfill|]. split; [by exists wr|done].
Qed.

Lemma Pipe_write_ring r buf n t r' n' : ring_inv r -> Pipe_write r buf n = Ok (t, r', n') -> ring_inv r'.
Proof.
  intros Hr H. destruct (decide (n <= length buf)%nat) as [Hn|Hn].
  { destruct (Pipe_write_spec r buf n Hr Hn) as (t0 & r0 & k & Hrun & _ & Hr0 & _). congruence. }
  unfold Pipe_write in H. cbn [Pipe.write_loop] in H. destruct (available_to_read_value r Hr) as (_ & Hb & _ & _ & Hw).
  destruct (Z.eqb_spec (available_to_write r) 0) as [|Ha]; [by simplify_eq|].
  assert (exists j, Z.to_nat (available_to_write r) = S j) as [j Ej] by (exists (Nat.pred (Z.to_nat (available_to_write r))); lia).
  rewrite Ej in H. cbn [Pipe.write_bytes] in H. rewrite lookup_ge_None_2 in H by lia. cbn in H. by simplify_eq.
Qed.

Lemma pipe_write_turn_ok f r bufs n rd :
  forall s out s', io_inv s -> files s !! f = Some (FPipe rd true r) -> pipe_write_turn f r bufs n s = Ok (out, s') ->
    io_inv s' /\ out_ok s' out.
Proof.
  intros s out s' Hs Hf H. unfold pipe_write_turn in H.
  apply st_bind_inv in H as (s0 & s1 & [= <- <-] & H). apply st_bind_inv in H as (pb & s1 & H1 & H).
  apply of_res_Ok in H1 as [H1 ->]. destruct (pipes s !! r) as [pb'|] eqn:Hpb; [|done]. cbn in H1. simplify_eq.
  apply st_bind_inv in H as ([[t r'] n'] & s1 & H1 & H). apply of_res_Ok in H1 as [H1 ->].
  destruct (ii_rings _ Hs r pb Hpb) as [Hri _]. pose proof (Pipe_write_ring _ _ _ _ _ _ Hri H1) as Hr'.
  rewrite bind_modify in H. inv_st. split; [by apply set_ring_inv|]. destruct t; [done|]. by exists rd.
Qed.

Lemma stdin_turn_ok f bufs :
  UserBuffer_len bufs = 1 ->
  forall s out s', io_inv s -> files s !! f = Some FStdin -> stdin_turn f bufs s = Ok (out, s') ->
    io_inv s' /\ out_ok s' out.
Proof.
  intros Hl s out s' Hs Hf H. unfold stdin_turn in H. apply st_bind_inv in H as (s0 & s1 & [= <- <-] & H).
  destruct (received s) as [|ch rest] eqn:E; [inv_st; done|]. rewrite bind_modify in H.
  apply st_bind_inv in H as (g & s1 & H1 & H). apply of_res_Ok in H1 as [_ ->].
  apply st_bind_inv in H as (u & s2 & Hfill & H). apply fill_inv in Hfill. inv_st. split; [|done].
  eapply same_inv; [exact Hfill|]. by destruct Hs.
Qed.

(** ** The calls *)

Lemma byte_buffer_len fuel : forall m pt start end_ segs,
  byte_buffer_loop fuel m pt start end_ = Ok segs -> 0 <= UserBuffer_len segs.
Proof.
  induction fuel as [|fuel IH]; intros m pt start end_ segs; cbn [byte_buffer_loop];
    (destruct (start <? end_); [|intros [= <-]; done]); [done|].
  destruct (PageTable_translate m pt _) as [pte|]; [|done]. cbn [unwrap res_bind].
  set (hi := if _ =? 0 then _ else _). destruct (Z.leb_spec (page_offset (VirtAddr_from start)) hi); [|done].
  cbn [res_bind]. destruct (byte_buffer_loop fuel m pt _ end_) as [rest|] eqn:E; [|done]. intros [= <-].
  apply IH in E. cbn [UserBuffer_len foldr seg_hi seg_lo]. change (foldr _ 0 rest) with (UserBuffer_len rest). lia.
Qed.

Lemma user_buffer_Ok b ptr len s segs s' : user_buffer b ptr len s = Ok (segs, s') -> s' = s /\ 0 <= UserBuffer_len segs.
Proof.
  unfold user_buffer. intros (s0 & s1 & [= <- <-] & H)%st_bind_inv. apply of_res_Ok in H as [H ->].
  split; [done|]. by eapply byte_buffer_len.
Qed.

Lemma file_read_ok f x bufs :
  0 <= UserBuffer_len bufs -> forall s out s', io_inv s -> files s !! f = Some x -> file_read f x bufs s = Ok (out, s') ->
    io_inv s' /\ out_ok s' out.
Proof.
  intros Hl s out s' Hs Hf H. destruct x as [o|rd wr r| |]; cbn [file_read] in H.
  - apply st_bind_inv in H as (s0 & s1 & [= <- <-] & H). apply st_bind_inv in H as ([[n sl] o'] & s1 & H1 & H).
    apply keeps_on_disk in H1. rewrite bind_modify in H. apply st_bind_inv in H as (u & s2 & Hfill & H).
    apply fill_inv in Hfill. inv_st. split; [|done]. eapply same_inv; [exact Hfill|].
    eapply set_inode_inv; [by eapply same_inv|]. by rewrite (st_files _ _ H1).
  - apply st_bind_inv in H as (u & s1 & H1 & H). apply of_res_Ok in H1 as [H1 ->]. destruct rd; [|done].
    eapply pipe_read_turn_ok; [|done..]. cbn. done.
  - apply st_bind_inv in H as (u & s1 & H1 & H). apply of_res_Ok in H1 as [H1 ->].
    destruct (Z.eqb_spec (UserBuffer_len bufs) 1); [|done]. by eapply stdin_turn_ok.
  - done.
Qed.

Lemma keeps_print slices : forall s u s', print_slices slices s = Ok (u, s') -> same_tables s s'.
Proof.
  induction slices as [|bs slices IH]; intros s u s' H; cbn [print_slices] in H; [inv_st; reflexivity|].
  apply st_bind_inv in H as (v & s1 & H1 & H). apply of_res_Ok in H1 as [_ ->]. rewrite bind_modify in H.
  apply IH in H. etransitivity; [|exact H]. by split.
Qed.

Lemma file_write_ok f x bufs s out s' :
  io_inv s -> files s !! f = Some x -> file_write f x bufs s = Ok (out, s') ->
    io_inv s' /\ out_ok s' out.
Proof.
  intros Hs Hf H. unfold file_write in H. apply st_bind_inv in H as (s0 & s1 & [= <- <-] & H).
  destruct x as [o|rd wr r| |].
  - apply st_bind_inv in H as ([n o'] & s1 & H1 & H). apply keeps_on_disk in H1. rewrite bind_modify in H. inv_st.
    split; [|done]. eapply set_inode_inv; [by eapply same_inv|]. by rewrite (st_files _ _ H1).
  - apply st_bind_inv in H as (u & s1 & H1 & H). apply of_res_Ok in H1 as [H1 ->]. destruct wr; [|done].
    by eapply pipe_write_turn_ok.
  - done.
  - apply st_bind_inv in H as (u & s1 & H1 & H). apply keeps_print in H1. inv_st. split; [|done]. by eapply same_inv.
Qed.

Lemma sys_read_preserves p fd buf len : preserves (sys_read p fd buf len).
Proof.
  intros s a s' H Hs. unfold sys_read in H. apply st_bind_inv in H as (b & s1 & (-> & Hb)%current_Ok & H).
  destruct (lookup_fd b fd) as [f|]; [|by inv_st]. apply st_bind_inv in H as (s0 & s1 & [= <- <-] & H).
  apply st_bind_inv in H as (x & s1 & H1 & H). apply of_res_Ok in H1 as [H1 ->].
  destruct (files s !! f) as [x'|] eqn:Hx; [|done]. cbn in H1. simplify_eq. destruct (is_readable x); cbn in H; [|by inv_st].
  apply st_bind_inv in H as (segs & s1 & (-> & Hl)%user_buffer_Ok & H).
  apply st_bind_inv in H as (out & s1 & H1 & H).
  destruct (file_read_ok f x segs Hl s out s1 Hs Hx H1) as [Hs1 Ho]. by eapply finish_inv.
Qed.

Lemma sys_write_preserves p fd buf len : preserves (sys_write p fd buf len).
Proof.
  intros s a s' H Hs. unfold sys_write in H. apply st_bind_inv in H as (b & s1 & (-> & Hb)%current_Ok & H).
  destruct (lookup_fd b fd) as [f|]; [|by inv_st]. apply st_bind_inv in H as (s0 & s1 & [= <- <-] & H).
  apply st_bind_inv in H as (x & s1 & H1 & H). apply of_res_Ok in H1 as [H1 ->].
  destruct (files s !! f) as [x'|] eqn:Hx; [|done]. cbn in H1. simplify_eq. destruct (is_writable x); cbn in H; [|by inv_st].
  apply st_bind_inv in H as (segs & s1 & (-> & _)%user_buffer_Ok & H).
  apply st_bind_inv in H as (out & s1 & H1 & H).
  destruct (file_write_ok f x segs s out s1 Hs Hx H1) as [Hs1 Ho]. by eapply finish_inv.
Qed.

Lemma resume_preserves i : preserves (resume i).
Proof.
  intros s a s' H Hs. unfold resume in H. apply st_bind_inv in H as (s0 & s1 & [= <- <-] & H).
  apply st_bind_inv in H as (c & s1 & H1 & H). apply of_res_Ok in H1 as [H1 ->].
  destruct (waiting s !! i) as [c'|] eqn:Hi; [|done]. cbn in H1. simplify_eq. rewrite bind_modify in H.
  pose proof (ii_waiting _ Hs c ltac:(by eapply list_elem_of_lookup_2)) as Hc.
  set (s1 := set_waiting _ s) in *.
  assert (io_inv s1) as Hs1.
  { destruct Hs as [H1 H2 H3 H4 H5]. split; try done. intros x Hx.
    pose proof (list_elem_of_delete_inv _ _ _ Hx) as Hin.
    specialize (H5 x Hin). by destruct x. }
  apply st_bind_inv in H as (out & s2 & H1 & H). destruct c as [f r bufs got|f r bufs n|f bufs]; cbn in Hc.
  - destruct Hc as [[wr Hf] Hg]. destruct (pipe_read_turn_ok f r bufs got wr Hg s1 out s2) as [? ?]; try done.
    by eapply finish_inv.
  - destruct Hc as [rd Hf]. destruct (pipe_write_turn_ok f r bufs n rd s1 out s2) as [? ?]; try done.
    by eapply finish_inv.
  - destruct Hc as [Hf Hl]. destruct (stdin_turn_ok f bufs Hl s1 out s2) as [? ?]; try done. by eapply finish_inv.
Qed.

Section calls.
Context (ROOT_INODE : Inode) (str_fuel : nat) (padding : list u8).

Lemma sys_open_preserves p path flags : preserves (sys_open ROOT_INODE str_fuel p path flags).
Proof.
  intros s a s' H Hs. unfold sys_open in H. apply st_bind_inv in H as (b & s1 & (-> & Hb)%current_Ok & H).
  apply st_bind_inv in H as (str & s1 & H1 & H). apply keeps_user_string in H1.
  apply st_bind_inv in H as (fl & s2 & H2 & H). apply of_res_Ok in H2 as [_ ->].
  apply st_bind_inv in H as (o & s2 & H2 & H). apply keeps_on_disk in H2.
  pose proof (same_inv _ _ (transitivity H1 H2) Hs) as Hs2. destruct o as [o|]; [|by inv_st].
  apply st_bind_inv in H as (f & s3 & H3 & H). destruct (new_file_inv _ _ _ _ Hs2 H3) as (Hs3 & Hf & _).
  apply st_bind_inv in H as (b' & s4 & (-> & Hb')%current_Ok & H).
  pose proof (install_elem f) as Hi. specialize (fun g => Hi g (fd_table b')). destruct (install f (fd_table b')) as [fd fds].
  inv_st. eapply put_fds_inv; [exact Hs3| |done]. intros g Hg.
  destruct (Hi g Hg) as [->|Hin]; [done|]. by eapply (ii_tables _ Hs3).
Qed.

(** The two new files of a pipe. *)
Lemma make_pipe_inv s :
  io_inv s -> let r := next_file s in
  io_inv (set_pipe r (MkPipe make (r + 1))
    (MkIO (base s) (<[r + 1 := FPipe false true r]> (<[r := FPipe true false r]> (files s))) (r + 1 + 1)
       (pipes s) (waiting s) (received s) (sent s))).
Proof.
  intros [Hf Ht Hp Hr Hw] r. assert (forall k, r <= k -> files s !! k = None) as Hn.
  { intros k Hk. destruct (files s !! k) eqn:E; [|done]. assert (k < next_file s) by (apply Hf; by rewrite E). unfold r in *. lia. }
  assert (forall g x, files s !! g = Some x ->
    <[r + 1 := FPipe false true r]> (<[r := FPipe true false r]> (files s)) !! g = Some x) as Hold.
  { intros g x Hg. assert (g < r) by (apply Hf; by rewrite Hg). by rewrite !lookup_insert_ne by lia. }
  split; cbn.
  - intros g [x [[<- _]|[_ [[<- _]|[_ Hg]]%lookup_insert_Some]]%lookup_insert_Some]; [lia|lia|].
    assert (g < r) by (apply Hf; by rewrite Hg). lia.
  - intros p b g Hb Hin. destruct (Ht p b g Hb Hin) as [x Hx]. rewrite (Hold _ _ Hx). by eexists.
  - intros g rd wr q Hg. rewrite lookup_insert_is_Some. destruct (decide (r = q)); [by left|right]. split; [done|].
    apply lookup_insert_Some in Hg as [[_ ?]|[_ [[_ ?]|[_ Hg]]%lookup_insert_Some]]; [congruence|congruence|by eapply Hp].
  - intros q pb [[<- <-]|[_ Hq]]%lookup_insert_Some; cbn; [split; [by split|by rewrite lookup_insert_eq]|].
    destruct (Hr q pb Hq) as [? Hx]. split; [done|]. by apply Hold.
  - intros c Hc. specialize (Hw c Hc). destruct c; cbn in *.
    + destruct Hw as ((wr & Hx) & ?). split; [exists wr; by apply Hold|done].
    + destruct Hw as (rd & Hx). exists rd. by apply Hold.
    + destruct Hw as [Hx ?]. split; [by apply Hold|done].
Qed.

Lemma sys_pipe_preserves p ptr : preserves (sys_pipe p ptr).
Proof.
  intros s a s' H Hs. unfold sys_pipe in H. apply st_bind_inv in H as (b & s1 & (-> & Hb)%current_Ok & H).
  apply st_bind_inv in H as (s0 & s1 & [= <- <-] & H).
  apply st_bind_inv in H as (r & s1 & [= <- <-] & H). apply st_bind_inv in H as (w & s2 & [= <- <-] & H).
  rewrite bind_modify in H. pose proof (make_pipe_inv s Hs) as Hs2. cbn [base files next_file pipes waiting received sent] in H.
  set (s2 := set_pipe _ _ _) in *.
  pose proof (install_elem (next_file s)) as Hi1. specialize (fun g => Hi1 g (fd_table b)).
  unfold Files.sys_pipe in H. destruct (install (next_file s) (fd_table b)) as [rfd t1].
  pose proof (install_elem (next_file s + 1)) as Hi2. specialize (fun g => Hi2 g t1).
  destruct (install (next_file s + 1) t1) as [wfd t2].
  apply st_bind_inv in H as (u & s3 & H3 & H).
  assert (io_inv s3) as Hs3.
  { eapply put_fds_inv; [exact Hs2| |exact H3]. intros g Hg. unfold s2. cbn.
    destruct (Hi2 g Hg) as [->|Hg1]; [by rewrite lookup_insert_eq|]. destruct (Hi1 g Hg1) as [->|Hg2].
    - rewrite lookup_insert_ne, lookup_insert_eq by lia. by eexists.
    - destruct (ii_tables _ Hs _ _ _ Hb Hg2) as [x Hx]. assert (g < next_file s) by (apply (ii_fresh _ Hs); by rewrite Hx).
      rewrite !lookup_insert_ne by lia. by eexists. }
  eapply (keeps_preserves (on_base _ ;* on_base _ ;* ret 0)); [|exact H|exact Hs3]. follow.
Qed.

(** *** Every call *)

Inductive file_call :=
  | CGetcwd (buf len : Z) | CDup (fd : Z) | CDup2 (fd fd' : Z) | CClose (fd : Z)
  | CChdir (path : Z) | CMkdir (path : Z) | CUnlink (path flags : Z) | COpen (path flags : Z)
  | CRead (fd buf len : Z) | CWrite (fd buf len : Z) | CFstat (fd stat : Z) | CPipe (ptr : Z)
  | CResume (i : nat) | CReceive (bs : list u8).

Definition drop_result {A} (f : st io A) : st io () := f ;* ret tt.

(** A call of process [p], the next turn of a waiting call, or bytes that
    arrive on the serial line. *)
Definition run_file_call (p : Z) (c : file_call) : st io () :=
  match c with
  | CGetcwd buf len => drop_result (sys_getcwd p buf len)
  | CDup fd => drop_result (sys_dup p fd)
  | CDup2 fd fd' => drop_result (sys_dup2 p fd fd')
  | CClose fd => drop_result (sys_close p fd)
  | CChdir path => drop_result (sys_chdir ROOT_INODE str_fuel p path)
  | CMkdir path => drop_result (sys_mkdir ROOT_INODE str_fuel p path)
  | CUnlink path flags => drop_result (sys_unlink ROOT_INODE str_fuel p path flags)
  | COpen path flags => drop_result (sys_open ROOT_INODE str_fuel p path flags)
  | CRead fd buf len => drop_result (sys_read p fd buf len)
  | CWrite fd buf len => drop_result (sys_write p fd buf len)
  | CFstat fd stat => drop_result (sys_fstat padding p fd stat)
  | CPipe ptr => drop_result (sys_pipe p ptr)
  | CResume i => drop_result (resume i)
  | CReceive bs => modify (fun s => set_received (received s ++ bs) s)
  end.

Lemma drop_preserves {A} (f : st io A) : preserves f -> preserves (drop_result f).
Proof. intros Hf. apply moves_bind; [done|]. intros _. apply keeps_preserves, moves_ret. Qed.

Lemma keeps_set_cwd p dir : keeps (on_base (mod_pcb p (with_cwd dir))).
Proof. by apply keeps_on_base, keeps_fds_mod_pcb. Qed.
#[local] Hint Resolve keeps_set_cwd : moves.

Lemma keeps_stat x : keeps (stat_of x).
Proof. unfold stat_of. follow. Qed.
#[local] Hint Resolve keeps_stat : moves.

Lemma file_call_preserves p c : preserves (run_file_call p c).
Proof.
  destruct c; cbn [run_file_call]; try apply drop_preserves.
  - apply keeps_preserves. unfold sys_getcwd. follow.
  - apply (fds_preserves p (fun t => Ok (Files.sys_dup (Z.to_nat fd) t))). intros t r t' f [= E].
    pose proof (dup_elem (Z.to_nat fd) t f) as Hd. by rewrite E in Hd.
  - apply (fds_preserves p (Files.sys_dup2 (Z.to_nat fd) (Z.to_nat fd'))), dup2_elem.
  - apply (fds_preserves p (fun t => Ok (Files.sys_close (Z.to_nat fd) t))). intros t r t' f [= E].
    pose proof (close_elem (Z.to_nat fd) t f) as Hd. by rewrite E in Hd.
  - apply keeps_preserves. unfold sys_chdir. follow.
  - apply keeps_preserves. unfold sys_mkdir. follow.
  - apply keeps_preserves. unfold sys_unlink. follow.
  - apply sys_open_preserves.
  - apply sys_read_preserves.
  - apply sys_write_preserves.
  - apply keeps_preserves. unfold sys_fstat. follow.
  - apply sys_pipe_preserves.
  - apply resume_preserves.
  - intros s a s' [= <- <-] [H1 H2 H3 H4 H5]. split; try done.
Qed.
End calls.
