(* ===== verification/FileResults.v ===== *)
(** * The results of calls on files

    Between the kernel and the programs: the code of
    [kernel/src/syscall/fs.rs] that serves a call of the user library returns
    one of the results the programs tell apart, and a [Stat] the kernel writes
    is the one [user/src/fs.rs] reads. *)

From S2P Require Import Prelude Config Bytes Utf8 BlockStore Layout Efs Vfs Paths Files.
From S2P Require Import StateMonad Address FrameAllocator PageTable MemorySet UserMemory TaskId Process.
From S2P Require Import Pipe MemorySetSpec ExecArgs UserLib FileCalls FileCallsSpec FileTable.

(** ** Results of programs over blocks *)

(** Every result the program can return satisfies [P]. *)
Fixpoint yields {A} (P : A -> Prop) (m : prog A) : Prop :=
  match m with
  | Ret a => P a
  | Fail _ => True
  | Acquire _ k => forall b, yields P (k b)
  | Release _ _ k | SyncAll k => yields P k
  end.

Lemma yields_bind {A B} (P : B -> Prop) (m : prog A) (f : A -> prog B) :
  (forall a, yields P (f a)) -> yields P (bind m f).
Proof. intros Hf. induction m; cbn; auto. Qed.

Lemma run_yields {S A} `{Store S} (P : A -> Prop) (m : prog A) : forall s a s',
  yields P m -> run m s = Ok (a, s') -> P a.
Proof.
  induction m as [x|f|i k IH|i n k IH|k IH]; intros s a s' Hy E; cbn in *; inv_res; simplify_eq; [done|..].
  - destruct a0 as [b t]. eapply IH; [apply Hy|exact E].
  - by eapply IH.
  - by eapply IH.
Qed.

(** Bindings and cases of a program over blocks, down to its results. *)
Ltac yield_cases :=
  repeat first
    [ progress cbn [yields bind]
    | apply yields_bind; intros
    | match goal with
      | |- yields _ (match ?x with _ => _ end) => destruct x
      | |- yields _ (let '(_, _) := ?x in _) => destruct x
      end ].

Section results.
Context (ROOT_INODE : Inode) (str_fuel : nat) (padding : list u8).

(** The code that serves a call of process [p] on files; [ptr] is the address
    of the path or of the buffer. *)
Definition serves (p ptr : Z) (c : ucall) : option (st io Z) :=
  match c with
  | UGetcwd len => Some (sys_getcwd p ptr len)
  | UDup fd => Some (sys_dup p fd)
  | UDup2 old_fd new_fd => Some (sys_dup2 p old_fd new_fd)
  | UMkdir _ => Some (sys_mkdir ROOT_INODE str_fuel p ptr)
  | UUnlink _ flags => Some (sys_unlink ROOT_INODE str_fuel p ptr flags)
  | UChdir _ => Some (sys_chdir ROOT_INODE str_fuel p ptr)
  | UOpen _ flags => Some (sys_open ROOT_INODE str_fuel p ptr flags)
  | UClose fd => Some (sys_close p fd)
  | UFstat fd => Some (sys_fstat padding p fd ptr)
  | _ => None
  end.

Lemma on_disk_yields {A} (P : A -> Prop) (m : prog A) s a s' :
  yields P m -> on_disk m s = Ok (a, s') -> P a.
Proof.
  intros Hy E. unfold on_disk, on_base, on_fs in E.
  destruct (run m (fs_disk (base s))) as [[x d]|] eqn:R; [|discriminate]. cbn in E. simplify_eq. by eapply run_yields.
Qed.

Lemma mkdir_yields cwd path bs : yields (result_ok (UMkdir bs)) (Files.sys_mkdir ROOT_INODE cwd path).
Proof. unfold Files.sys_mkdir. yield_cases; cbn; repeat case_match; lia. Qed.
Lemma chdir_yields cwd path bs : yields (fun x => result_ok (UChdir bs) x.1) (Files.sys_chdir ROOT_INODE cwd path).
Proof. unfold Files.sys_chdir. yield_cases; cbn; lia. Qed.
Lemma unlink_yields cwd path bs flags :
  yields (result_ok (UUnlink bs flags)) (Files.sys_unlink ROOT_INODE cwd path flags).
Proof.
  unfold Files.sys_unlink. apply yields_bind. intros [parent_path target].
  destruct (Z.land flags Files.AT_REMOVEDIR =? Files.AT_REMOVEDIR) eqn:Hf; cbn [negb]; yield_cases; cbn;
    unfold AT_REMOVEDIR, Files.AT_REMOVEDIR in *; lia.
Qed.

(** Calls on the table of descriptors only. *)
Lemma table_call_result (P : Z -> Prop) (f : list (option Z) -> res (Z * list (option Z))) p s r s' :
  (forall t x t', f t = Ok (x, t') -> P x) ->
  (let* b := current p in let* (r, fds) := of_res (f (fd_table b)) in put_fds p fds ;* ret r) s = Ok (r, s') -> P r.
Proof.
  intros Hf E. apply st_bind_inv in E as (b & s1 & _ & E). apply st_bind_inv in E as ([x fds] & s2 & E1 & E).
  unfold of_res in E1. destruct (f (fd_table b)) as [y|] eqn:Ef; [|done]. simplify_eq/=. inv_st. by eapply Hf.
Qed.

(** The results of the calls on files are among those the programs tell apart:
    the part of the interface [Kernel ok] of [UserLib.v] that the kernel's own
    code has to keep.  These are ranges; what a call returns in which case is
    stated below and in [PathCalls.v]. *)
Lemma file_call_results p ptr c m s r s' :
  serves p ptr c = Some m -> m s = Ok (r, s') -> result_ok c r.
Proof.
  destruct c; cbn [serves]; intros [= <-] E.
  - unfold sys_getcwd in E. inv_st. case_match; inv_st; cbn; lia.
  - refine (table_call_result _ (fun t => Ok (Files.sys_dup (Z.to_nat fd) t)) p s r s' _ E). intros t x t' [= H].
    unfold Files.sys_dup in H. repeat case_match; simplify_eq; cbn; lia.
  - refine (table_call_result _ (Files.sys_dup2 (Z.to_nat old_fd) (Z.to_nat new_fd)) p s r s' _ E). intros t x t'.
    unfold Files.sys_dup2. cbv zeta. repeat case_match; intros; simplify_eq; cbn; lia.
  - unfold sys_mkdir in E. inv_st. eapply on_disk_yields, E. apply mkdir_yields.
  - unfold sys_unlink in E. inv_st. eapply on_disk_yields, E. apply unlink_yields.
  - unfold sys_chdir in E. inv_st. destruct a1 as [x dir]. inv_st.
    match goal with H : on_disk _ _ = _ |- _ => by apply (on_disk_yields _ _ _ _ _ (chdir_yields _ _ path)) in H end.
  - unfold sys_open in E. inv_st. case_match; inv_st; [|cbn; lia]. case_match. inv_st. cbn. lia.
  - refine (table_call_result _ (fun t => Ok (Files.sys_close (Z.to_nat fd) t)) p s r s' _ E). intros t x t' [= H].
    unfold Files.sys_close in H. repeat case_match; simplify_eq; cbn; lia.
  - unfold sys_fstat in E. inv_st. case_match; inv_st; cbn; lia.
Qed.
End results.

(** A path that goes on behind a file stops the kernel: the lookup asserts that
    what it looks into is a directory. *)
Lemma find_behind_file_panics node name parts d b di :
  block_id node ∉ held d -> room 1 d -> blocks d !! block_id node = Some b ->
  as_ref b (block_offset node) = Ok di -> is_dir di = false -> name <> [] ->
  run (find_parts node (name :: parts)) d = Panic AssertFailed.
Proof.
  intros Hh Hr Hb Hd Hf Hn. destruct name as [|c name]; [done|]. cbn [find_parts].
  unfold Inode_find, read_disk_inode, get_read. cbn [bind run]. rewrite (disk_acquire_ok _ d b) by done. cbn [res_bind].
  rewrite Hd. cbn [lift bind]. unfold find_inode_id. by rewrite Hf.
Qed.

(** A field behind others. *)
Lemma get_field (l1 l2 : list u8) off n z :
  length l1 = off -> 0 <= z < 2 ^ (8 * Z.of_nat n) -> le_get (slice off n (l1 ++ le_put n z ++ l2)) = z.
Proof.
  intros <- Hz. unfold slice. rewrite drop_app_length, take_app_le, take_ge by (rewrite length_le_put; lia).
  by apply le_get_put.
Qed.

(** The kernel's [Stat], read by the program at the places of its own. *)
Lemma stat_read padding a :
  length padding = 8%nat ->
  0 <= dev a < 2 ^ 32 -> 0 <= ino a < 2 ^ 32 -> 0 <= mode a < 2 ^ 32 -> 0 <= off a < 2 ^ 64 -> 0 <= stat_size a < 2 ^ 32 ->
  Stat_of_bytes (stat_bytes padding a) = UserLib.MkStat (dev a) (ino a) (mode a) (off a) (stat_size a).
Proof.
  intros Hp Hd Hi Hm Ho Hs. unfold Stat_of_bytes, stat_bytes.
  set (p1 := take 4 padding). set (p2 := take 4 (drop 4 padding)).
  assert (length p1 = 4%nat) as Hp1 by (subst p1; rewrite length_take; lia).
  assert (length p2 = 4%nat) as Hp2 by (subst p2; rewrite length_take, length_drop; lia).
  f_equal.
  - by apply (get_field []).
  - apply (get_field (le_put 4 (dev a))); [by rewrite length_le_put|done].
  - rewrite app_assoc. apply get_field; [by rewrite length_app, !length_le_put|done].
  - pose proof (get_field (le_put 4 (dev a) ++ le_put 4 (ino a) ++ le_put 4 (mode a) ++ p1)
      (le_put 4 (stat_size a) ++ p2) 16 8 (off a)) as H. rewrite <- !app_assoc in H. apply H; [|done].
    by rewrite !length_app, !length_le_put, Hp1.
  - pose proof (get_field (le_put 4 (dev a) ++ le_put 4 (ino a) ++ le_put 4 (mode a) ++ p1 ++ le_put 8 (off a)) p2 24 4
      (stat_size a)) as H. rewrite <- !app_assoc in H. apply H; [|done]. by rewrite !length_app, !length_le_put, Hp1.
Qed.

(** ** Descriptors *)

(** Process [p] has the files [t] open. *)
Definition has_table (s : io) (p : Z) (t : list (option Z)) : Prop := exists b, procs (base s) !! p = Some b /\ fd_table b = t.

Lemma current_table p s t b s1 : has_table s p t -> current p s = Ok (b, s1) -> s1 = s /\ fd_table b = t.
Proof. intros (b' & Hb & <-) H. apply current_Ok in H as [-> H]. by simplify_eq. Qed.

(** The state with the files [t] open in process [p]. *)
Definition with_table (p : Z) (t : list (option Z)) (s : io) : io :=
  set_base (set_procs (alter (with_fds t) p (procs (base s))) (base s)) s.

Lemma put_fds_run p t s : put_fds p t s = Ok (tt, with_table p t s).
Proof. done. Qed.

Lemma has_with_table p t t' s : has_table s p t -> has_table (with_table p t' s) p t'.
Proof. intros (b & Hb & _). exists (with_fds t' b). cbn. by rewrite lookup_alter_eq, Hb. Qed.

Lemma on_disk_base {A} (m : prog A) s a s' :
  on_disk m s = Ok (a, s') -> exists d, s' = set_base (set_disk d (base s)) s.
Proof.
  intros E. unfold on_disk, on_base, on_fs in E. destruct (run m (fs_disk (base s))) as [[x d]|]; [|discriminate].
  cbn in E. simplify_eq. by exists d.
Qed.

Lemma open_installs ROOT_INODE str_fuel p ptr flags s t fd s' :
  has_table s p t -> sys_open ROOT_INODE str_fuel p ptr flags s = Ok (fd, s') ->
  exists d, let s1 := set_base (set_disk d (base s)) s in
    (fd = -1 /\ s' = s1) \/
    exists o s2, new_file (FInode o) s1 = Ok (next_file s, s2) /\
      fd = Z.of_nat (install (next_file s) t).1 /\ s' = with_table p (install (next_file s) t).2 s2.
Proof.
  intros Ht E. unfold sys_open in E. inv_st. apply (current_table _ _ t) in E0 as [-> _]; [|done].
  unfold user_string in E1. inv_st. apply on_disk_base in E3 as [d ->]. exists d. cbv zeta.
  destruct a2 as [o|]; inv_st; [right|by left].
  exists o. eexists. split; [reflexivity|]. unfold new_file in *. simplify_eq.
  match goal with H : current p ?x = _ |- _ => set (s2 := x) in *; apply (current_table _ _ t) in H as [-> Hb]; [|exact Ht] end.
  rewrite Hb in E. cbn [next_file set_base] in E. destruct (install _ t) as [n fds].
  rewrite (st_bind_Ok _ _ _ _ _ (put_fds_run _ _ _)) in E. injection E as <- <-. by split.
Qed.

Lemma table_call p t s r t' (f : list (option Z) -> res (Z * list (option Z))) :
  has_table s p t -> f t = Ok (r, t') ->
  (let* b := current p in let* (r, fds) := of_res (f (fd_table b)) in put_fds p fds ;* ret r) s = Ok (r, with_table p t' s).
Proof.
  intros (b & Hb & <-) E. rewrite (st_bind_Ok _ _ _ _ _ (current_run _ _ _ Hb)). unfold st_bind at 1, of_res. by rewrite E.
Qed.

(** The descriptor [n] is the lowest that is not open. *)
Definition lowest_free (t : list (option Z)) (n : nat) : Prop :=
  opened t n = None /\ forall j, (j < n)%nat -> is_Some (opened t j).

(** The descriptors of [t'] are those of [t] but for [n], which is [o]. *)
Definition changed_at (t : list (option Z)) (n : nat) (o : option Z) (t' : list (option Z)) : Prop :=
  forall j, opened t' j = if decide (j = n) then o else opened t j.

Lemma install_lowest f t n t' : install f t = (n, t') -> lowest_free t n /\ changed_at t n (Some f) t'.
Proof. intros E. pose proof (install_spec f t) as H. rewrite E in H. destruct H as (? & ? & ?). by split; [split|]. Qed.



(** ** Pipes *)

(** The state with a new pipe: its two ends, each a new file, and an empty
    buffer that remembers the write end. *)
Definition with_pipe (s : io) : io :=
  let r := next_file s in
  let w := r + 1 in
  set_pipe r (MkPipe make w)
    (MkIO (base s) (<[w := FPipe false true r]> (<[r := FPipe true false r]> (files s))) (w + 1)
       (pipes s) (waiting s) (received s) (sent s)).

(** Two words at an aligned address. *)
Lemma store_two_words lo (pt : PageTable) w ptr (x y : Z) :
  0 < lo -> MemorySetSpec.space_inv lo (w_mm w) pt -> 0 <= ptr -> ptr + 16 < 2 ^ 38 -> ptr mod 8 = 0 ->
  framed pt ptr (ptr + 16) ->
  exists m, (store_user (PageTable_token pt) ptr (le_put 8 x) ;* store_user (PageTable_token pt) (w64 (ptr + 8)) (le_put 8 y)) w =
      Ok (tt, set_mm m w) /\ ExecArgs.put lo pt (w_mm w) ptr (le_put 8 x ++ le_put 8 y) m.
Proof.
  intros Hlo HS H0 H38 H8 Hf. assert (forall a, a mod 8 = 0 -> a mod 4096 + Z.of_nat (length (le_put 8 x)) <= 4096) as Hpage.
  { intros a Ha. rewrite length_le_put. pose proof (Z.mod_pos_bound a 4096 ltac:(lia)).
    pose proof (Z.div_mod a 4096 ltac:(lia)). pose proof (Z.div_mod a 8 ltac:(lia)). lia. }
  destruct (Hf ptr ltac:(lia)) as [f1 Hf1]. destruct (Hf (ptr + 8) ltac:(lia)) as [f2 Hf2].
  destruct (ExecArgs.store_user_run lo Hlo pt w ptr (le_put 8 x) f1) as (m1 & E1 & P1); try done; [lia|by apply Hpage|].
  rewrite (st_bind_Ok _ _ _ _ _ E1), w64_id by (unfold is_u64; lia).
  destruct (ExecArgs.store_user_run lo Hlo pt (set_mm m1 w) (ptr + 8) (le_put 8 y) f2) as (m2 & E2 & P2); try done; [apply P1|lia| |].
  { rewrite length_le_put. specialize (Hpage (ptr + 8)). rewrite length_le_put in Hpage. apply Hpage.
    rewrite Z.add_mod, H8 by lia. done. }
  exists m2. split; [by rewrite E2|]. eapply ExecArgs.put_app; [exact P1|]. rewrite length_le_put. exact P2.
Qed.

(** [pipe] makes a pipe.  For an aligned pointer to two words of framed
    memory it returns 0, opens the two ends of a new, empty pipe at the lowest
    free descriptor and at the next free one, the end for reading first, and
    writes the two numbers to the user's memory in this order.  No other
    descriptor, file or byte of the process's memory changes. *)
Theorem sys_pipe_correct lo s p b ptr :
  0 < lo -> user_ready lo s p b ptr 16 -> ptr mod 8 = 0 ->
  let t := fd_table b in
  let r := next_file s in
  exists rfd wfd t1 t2 s', sys_pipe p ptr s = Ok (0, s') /\
    lowest_free t rfd /\ changed_at t rfd (Some r) t1 /\ lowest_free t1 wfd /\ changed_at t1 wfd (Some (r + 1)) t2 /\
    memory_holds lo (with_table p t2 (with_pipe s)) s' b ptr (le_put 8 (Z.of_nat rfd) ++ le_put 8 (Z.of_nat wfd)).
Proof.
  intros Hlo [Hp HS (H0 & _ & H38) Hf] H8 t r.
  destruct (install r t) as [rfd t1] eqn:E1. destruct (install (r + 1) t1) as [wfd t2] eqn:E2.
  set (s2 := with_table p t2 (with_pipe s)).
  destruct (store_two_words lo (page_table (pcb_memory_set b)) (base s2) ptr (Z.of_nat rfd) (Z.of_nat wfd)) as (m & Em & Pm); try done.
  exists rfd, wfd, t1, t2, (set_base (set_mm m (base s2)) s2).
  apply install_lowest in E1 as HE1. destruct HE1 as [HE1 HE1']. apply install_lowest in E2 as HE2. destruct HE2 as [HE2 HE2'].
  split_and!; try done.
  - unfold sys_pipe. rewrite (st_bind_Ok _ _ _ _ _ (current_run s p b Hp)), bind_get.
    unfold new_file. do 2 (rewrite (st_bind_Ok _ _ _ _ _ eq_refl)). rewrite bind_modify. cbn [next_file].
    unfold Files.sys_pipe. fold t r. rewrite E1, E2.
    rewrite (st_bind_Ok _ _ _ _ _ (put_fds_run _ _ _)).
    change (with_table p t2 _) with s2.
    apply st_bind_inv in Em as ([] & w1 & Ea & Eb). 
    assert (on_base (store_user (user_token b) ptr (le_put 8 (Z.of_nat rfd))) s2 = Ok (tt, set_base w1 s2)) as Ha.
    { unfold on_base. change (user_token b) with (PageTable_token (page_table (pcb_memory_set b))). by rewrite Ea. }
    rewrite (st_bind_Ok _ _ _ _ _ Ha). unfold on_base at 1.
    change (user_token b) with (PageTable_token (page_table (pcb_memory_set b))).
    unfold st_bind at 1. cbn [base set_base]. by rewrite Eb.
  - exists m. split; [done|]. destruct Pm as [Hs Hd]. by split.
Qed.

Lemma lowest_unique t n n' : lowest_free t n -> lowest_free t n' -> n = n'.
Proof.
  intros [H1 H2] [H1' H2']. destruct (Nat.lt_trichotomy n n') as [H|[H|H]]; [|done|].
  - apply H2' in H as [? H]. congruence.
  - apply H2 in H as [? H]. congruence.
Qed.

Lemma demo_lowest : lowest_free (fd_table demo_pcb) 5.
Proof. split; [done|]. intros j Hj. do 5 (destruct j as [|j]; [by eexists|]). lia. Qed.
Lemma demo_next_lowest f t : changed_at (fd_table demo_pcb) 5 (Some f) t -> lowest_free t 6.
Proof.
  intros H. split; [by rewrite H|]. intros j Hj. rewrite H. do 6 (destruct j as [|j]; [by eexists|]). lia.
Qed.

Lemma sys_pipe_correct_witness :
  exists s', sys_pipe 1 65536 (demo_io (blank_disk 0)) = Ok (0, s') /\
    user_data (w_mm (base s')) (page_table two_ms) 65536 = Some Byte.x05 /\
    user_data (w_mm (base s')) (page_table two_ms) 65544 = Some Byte.x06.
Proof.
  destruct (sys_pipe_correct 100 (demo_io (blank_disk 0)) 1 demo_pcb 65536)
    as (rfd & wfd & t1 & t2 & s' & E & L1 & C1 & L2 & C2 & (m & Es & _ & Hd)); [lia|apply demo_ready; lia|reflexivity|].
  pose proof (lowest_unique _ _ _ L1 demo_lowest) as ->.
  pose proof (lowest_unique _ _ _ L2 (demo_next_lowest _ _ C1)) as ->.
  exists s'. split; [exact E|]. clear E L1 C1 L2 C2. subst s'. cbn [base set_base w_mm set_mm].
  change (page_table two_ms) with (page_table (pcb_memory_set demo_pcb)). split; rewrite Hd; reflexivity.
Defined.
