(* ===== verification/PathCalls.v ===== *)
(** * Calls with paths

    [sys_chdir], [sys_getcwd], [sys_mkdir] and [sys_unlink] of
    [kernel/src/syscall/fs.rs] against the files of the disk: a path is
    resolved, name by name, in the directories of [fs_view], and each call
    returns exactly the number that tells how that went. *)

From S2P Require Import Prelude Config Bytes Utf8 BlockStore Bitmap Layout LayoutIO Efs BlockTree InodeForest Vfs VfsSpec Directory FileSystem Paths Files.
From S2P Require Import StateMonad Address FrameAllocator PageTable MemorySet MemorySetSpec UserMemory TaskId Process.
From S2P Require Import FileCalls FileCallsSpec.

(** ** Resolution of a path *)

Abbreviation view := (gmap Z (DiskInodeKind * list u8)).

(** Inode [id] is a directory with the entries [es]. *)
Definition lists (v : view) (id : Z) (es : list dirent) : Prop :=
  v !! id = Some (Directory, flat_map entry_bytes es) /\ Forall entry_ok es.

(** From inode [id] the names lead to the inode of [Some], or to nothing.
    There is no result for a name behind a file. *)
Inductive resolves (v : view) : Z -> list (list u8) -> option Z -> Prop :=
  | resolves_here id : resolves v id [] (Some id)
  | resolves_empty id parts r : resolves v id parts r -> resolves v id ([] :: parts) r
  | resolves_missing id nm parts es :
      nm <> [] -> lists v id es -> find_entry nm es = None -> resolves v id (nm :: parts) None
  | resolves_step id nm parts es next r :
      nm <> [] -> lists v id es -> find_entry nm es = Some next -> resolves v next parts r ->
      resolves v id (nm :: parts) r.

(** The last name of an absolute path, and the path before it. *)
Lemma full_path_split cwd path : exists parent target, rsplit_once (get_full_path cwd path) = Some (parent, target).
Proof. unfold get_full_path. cbn. destruct (rsplit_once _) as [[a b]|]; by do 2 eexists. Qed.

Section path_calls.
Context (efs : EasyFileSystem) (area : Z).
Abbreviation fs_rep := (FileSystem.fs_rep efs area).
Abbreviation fs_files := (FileSystem.fs_files efs area).
Abbreviation inode_of := (FileSystem.inode_of efs).

Lemma lists_entries d m id es :
  lists (fs_view d m) id es -> exists di f, m !! id = Some (di, f) /\ listing d di f es.
Proof. intros [H Hok]. apply view_Some in H as (di & f & Hm & Hk & Hc). exists di, f. by split. Qed.

Lemma listing_lists d m id di f es : m !! id = Some (di, f) -> listing d di f es -> lists (fs_view d m) id es.
Proof. intros Hm [Hk Hc Hok]. split; [|done]. by rewrite (fs_view_lookup _ _ _ _ _ Hm), Hk, Hc. Qed.

(** [inode::find] *)
Lemma find_parts_run d m id parts r :
  fs_rep d m -> resolves (fs_view d m) id parts r -> run (find_parts (inode_of id) parts) d = Ok (inode_of <$> r, d).
Proof.
  intros Hfs. induction 1 as [id|id parts r _ IH|id nm parts es Hnm Hes Hf|id nm parts es next r Hnm Hes Hf _ IH]; [done|done|..];
    (destruct (lists_entries _ _ _ _ Hes) as (di & g & Hm & Hls);
     pose proof (fs_find_correct efs area d m id di g es nm Hfs Hm Hls) as Hrun;
     rewrite Hf in Hrun; destruct nm as [|c nm]; [done|]; cbn [find_parts];
     rewrite (run_bind_Ok _ _ _ _ _ Hrun)).
  - done.
  - exact IH.
Qed.

(** A field of an inode of the disk. *)
Lemma read_inode_run {A} (g : DiskInode -> A) d m id di f :
  fs_rep d m -> m !! id = Some (di, f) -> run (read_disk_inode (inode_of id) (fun di => Ret (g di))) d = Ok (g di, d).
Proof.
  intros [Hfs _] Hm. destruct (fs_file_state efs area _ _ _ _ _ Hfs Hm) as [_ (b & Hb & Href) _ Hh].
  assert (d = Disk (blocks d) (held d)) as E by (by destruct d). rewrite E at 2. unfold read_disk_inode.
  eapply run_get_read; [rewrite Hh; set_solver| |exact Hb|exact Href|done].
  unfold room. rewrite Hh, size_empty. efs_consts. lia.
Qed.

Lemma is_dir_run d m id k c :
  fs_rep d m -> fs_view d m !! id = Some (k, c) -> run (Inode_is_dir (inode_of id)) d = Ok (bool_decide (k = Directory), d).
Proof.
  intros Hfs (di & f & Hm & Hk & _)%view_Some. unfold Inode_is_dir. rewrite (read_inode_run is_dir _ _ _ _ _ Hfs Hm).
  subst k. unfold is_dir. by destruct (kind di).
Qed.
Lemma file_size_run d m id k c :
  fs_rep d m -> fs_view d m !! id = Some (k, c) -> run (Vfs.file_size (inode_of id)) d = Ok (Z.of_nat (length c), d).
Proof.
  intros Hfs (di & f & Hm & _ & <-)%view_Some. unfold Vfs.file_size. rewrite (read_inode_run size _ _ _ _ _ Hfs Hm).
  pose proof (file_readable _ _ _ _ _ _ (fs_file_state efs area _ _ _ _ _ (proj1 Hfs) Hm)) as Hrd.
  f_equal. f_equal. symmetry. exact (length_content _ _ _ Hrd).
Qed.

(** [Inode::clear] and [Inode::delete] of the entry for inode [v]. *)
Lemma remove_run d m id es nm v k c :
  fs_rep d m -> lists (fs_view d m) id es -> NoDup es.*1 -> (length es <= 432)%nat -> nm <> [] ->
  find_entry nm es = Some v -> fs_view d m !! v = Some (k, c) -> v <> id ->
  exists d' m' i, run (Inode_clear (inode_of v) ;;; Inode_delete (inode_of id) nm ;;; Ret 0) d = Ok (0, d') /\
    fs_rep d' m' /\ es !! i = Some (nm, v) /\
    fs_view d' m' = <[id := (Directory, flat_map entry_bytes (swap_remove i es))]> (delete v (fs_view d m)).
Proof.
  intros Hfs [Hid Hok] Hnd Hlen Hnm Hf Hv Hne. pose proof Hv as (dv & fv & Hmv & _ & _)%view_Some.
  destruct (fs_clear_run efs area d m v dv fv Hfs Hmv) as (d1 & m1 & Hrun1 & Hfs1 & Hview1 & _).
  assert (lists (fs_view d1 m1) id es) as Hes1 by (split; [by rewrite Hview1, lookup_insert_ne|done]).
  destruct (lists_entries _ _ _ _ Hes1) as (di & f & Hm & Hls).
  assert (exists dv1 fv1, m1 !! v = Some (dv1, fv1)) as (dv1 & fv1 & Hmv1).
  { assert (fs_view d1 m1 !! v = Some (kind dv, [])) as H by (by rewrite Hview1, lookup_insert_eq).
    apply view_Some in H as (? & ? & ? & _). by do 2 eexists. }
  apply find_entry_elem in Hf as (i & Hi)%list_elem_of_lookup.
  pose proof (file_readable _ _ _ _ _ _ (fs_file_state efs area _ _ _ _ _ (proj1 Hfs1) Hm)) as Hrd.
  pose proof (listing_size _ _ _ _ Hrd (listing_hold _ _ _ _ _ Hls)) as Hsz.
  destruct (fs_delete_run efs area d1 m1 id di f es i nm v dv1 fv1) as (d2 & m2 & _ & _ & Hrun2 & Hfs2 & _ & _ & Hview2 & _); try done.
  { pose proof (count_data_block_bounds (size di)). lia. }
  exists d2, m2, i. split_and!; try done.
  - by rewrite (run_bind_Ok _ _ _ _ _ Hrun1), (run_bind_Ok _ _ _ _ _ Hrun2).
  - by rewrite Hview2, Hview1, delete_insert_eq.
Qed.

(** ** The calls *)

Section calls.
Context (str_fuel : nat).
Abbreviation root := (inode_of 0).

(** Process [p] calls with a pointer to the text [path], and the disk holds
    the files of [m]. *)
Record path_call (s : io) (p ptr : Z) (b : pcb) (path : list u8) (m : gmap Z (DiskInode * forest)) : Prop := {
  pc_proc : procs (base s) !! p = Some b;
  pc_text : translated_str str_fuel (w_mm (base s)) (user_token b) ptr = Ok path;
  pc_files : fs_rep (fs_disk (base s)) m;
}.

Definition files_of (s : io) (m : gmap Z (DiskInode * forest)) : view := fs_view (fs_disk (base s)) m.
Definition with_disk (d : disk) (s : io) : io := set_base (set_disk d (base s)) s.
Definition with_dir (p : Z) (dir : list u8) (s : io) : io :=
  set_base (set_procs (alter (with_cwd dir) p (procs (base s))) (base s)) s.

Lemma with_disk_same s : with_disk (fs_disk (base s)) s = s.
Proof. by destruct s as [[]]. Qed.

Lemma with_dir_same s p b : procs (base s) !! p = Some b -> with_dir p (cwd b) s = s.
Proof.
  intros Hb. unfold with_dir. assert (alter (with_cwd (cwd b)) p (procs (base s)) = procs (base s)) as ->; [|by destruct s as [[]]].
  apply map_eq. intros q. destruct (decide (q = p)) as [->|]; [|by rewrite lookup_alter_ne].
  rewrite lookup_alter_eq, Hb. cbn. by destruct b.
Qed.

Lemma user_string_run s p ptr b path m :
  path_call s p ptr b path m -> user_string str_fuel b ptr s = Ok (path, s).
Proof. intros [_ Ht _]. unfold user_string. rewrite bind_get. unfold of_res. by rewrite Ht. Qed.

Lemma on_disk_Ok {A} (f : prog A) s a d : run f (fs_disk (base s)) = Ok (a, d) -> on_disk f s = Ok (a, with_disk d s).
Proof. apply on_disk_run. Qed.

(** The three calls, up to what they do on the disk. *)
Lemma chdir_on_disk s p ptr b path m r dir :
  path_call s p ptr b path m ->
  run (Files.sys_chdir root (cwd b) path) (fs_disk (base s)) = Ok ((r, dir), fs_disk (base s)) ->
  sys_chdir root str_fuel p ptr s = Ok (r, with_dir p dir s).
Proof.
  intros Hc Hr. unfold sys_chdir. rewrite (st_bind_Ok _ _ _ _ _ (current_run _ _ _ (pc_proc _ _ _ _ _ _ Hc))).
  rewrite (st_bind_Ok _ _ _ _ _ (user_string_run _ _ _ _ _ _ Hc)), (st_bind_Ok _ _ _ _ _ (on_disk_Ok _ _ _ _ Hr)).
  by rewrite with_disk_same.
Qed.
Lemma mkdir_on_disk s p ptr b path m r d :
  path_call s p ptr b path m -> run (Files.sys_mkdir root (cwd b) path) (fs_disk (base s)) = Ok (r, d) ->
  sys_mkdir root str_fuel p ptr s = Ok (r, with_disk d s).
Proof.
  intros Hc Hr. unfold sys_mkdir. rewrite (st_bind_Ok _ _ _ _ _ (current_run _ _ _ (pc_proc _ _ _ _ _ _ Hc))).
  rewrite (st_bind_Ok _ _ _ _ _ (user_string_run _ _ _ _ _ _ Hc)). by apply on_disk_Ok.
Qed.
Lemma unlink_on_disk s p ptr b path m flags r d :
  path_call s p ptr b path m -> run (Files.sys_unlink root (cwd b) path flags) (fs_disk (base s)) = Ok (r, d) ->
  sys_unlink root str_fuel p ptr flags s = Ok (r, with_disk d s).
Proof.
  intros Hc Hr. unfold sys_unlink. rewrite (st_bind_Ok _ _ _ _ _ (current_run _ _ _ (pc_proc _ _ _ _ _ _ Hc))).
  rewrite (st_bind_Ok _ _ _ _ _ (user_string_run _ _ _ _ _ _ Hc)). by apply on_disk_Ok.
Qed.

(** [chdir] on the disk *)
Lemma chdir_run d m cwd path r :
  fs_rep d m -> let full := get_full_path cwd path in resolves (fs_view d m) 0 (split_slash full) r ->
  (forall id, r = Some id -> is_Some (fs_view d m !! id)) ->
  run (Files.sys_chdir root cwd path) d =
    Ok (match r with
        | None => (-1, cwd)
        | Some id =>
            match fs_view d m !! id with Some (Directory, _) => (0, full) | _ => (-2, cwd) end
        end, d).
Proof.
  intros Hfs full Hr Hin. unfold Files.sys_chdir, find. fold full.
  rewrite (run_bind_Ok _ _ _ _ _ (find_parts_run _ _ _ _ _ Hfs Hr)). destruct r as [id|]; [|done]. cbn [fmap option_fmap option_map].
  destruct (Hin id eq_refl) as [[k c] Hv]. rewrite (run_bind_Ok _ _ _ _ _ (is_dir_run _ _ _ _ _ Hfs Hv)), Hv. by destruct k.
Qed.

(** [getcwd] *)
Lemma getcwd_run lo s p b buf len :
  user_ready lo s p b buf len ->
  if decide (Z.of_nat (length (cwd b)) <= len)
  then exists s', sys_getcwd p buf len s = Ok (Z.of_nat (length (cwd b)), s') /\ memory_holds lo s s' b buf (cwd b)
  else sys_getcwd p buf len s = Ok (-1, s).
Proof.
  intros Hu. destruct (user_buffer_run lo s p b buf len Hu) as (segs & Hs & Hc). unfold sys_getcwd.
  rewrite (st_bind_Ok _ _ _ _ _ (current_run _ _ _ (ur_proc _ _ _ _ _ _ Hu))), (st_bind_Ok _ _ _ _ _ Hs). case_decide as E.
  - rewrite (proj2 (Z.ltb_ge _ _)) by lia. destruct (fill_user_holds lo s p b buf len segs (cwd b) Hu Hc E) as (s' & Hf & Hm).
    exists s'. by rewrite (st_bind_Ok _ _ _ _ _ Hf).
  - by rewrite (proj2 (Z.ltb_lt _ _)) by lia.
Qed.

(** [Inode::create_dir] of a name that is listed *)
Lemma create_dir_listed d m id di f es nm old :
  fs_rep d m -> m !! id = Some (di, f) -> listing d di f es -> find_entry nm es = Some old ->
  run (Inode_create_dir (inode_of id) nm) d = Ok (None, d).
Proof.
  intros Hfs Hm Hls Hf. unfold Inode_create_dir, create_inode.
  pose proof (create_lookup efs area d m id di f es nm (proj1 Hfs) Hm Hls) as H. rewrite Hf in H.
  rewrite (run_bind_Ok _ _ d None d); [done|]. by rewrite (run_bind_Ok _ _ _ _ _ H).
Qed.

(** [unlink] on the disk *)
Lemma unlink_run d m cwd path flags parent target :
  fs_rep d m -> rsplit_once (get_full_path cwd path) = Some (parent, target) ->
  let v := fs_view d m in
  let remove_dir := Z.land flags AT_REMOVEDIR =? AT_REMOVEDIR in
  (resolves v 0 (split_slash parent) None -> run (Files.sys_unlink root cwd path flags) d = Ok (-1, d)) /\
  (forall id es, resolves v 0 (split_slash parent) (Some id) -> lists v id es ->
     (find_entry target es = None -> run (Files.sys_unlink root cwd path flags) d = Ok (-1, d)) /\
     (forall old k c, find_entry target es = Some old -> v !! old = Some (k, c) ->
        let is_dir := bool_decide (k = Directory) in
        let result :=
          if negb (eqb remove_dir is_dir) then -2
          else if remove_dir && negb (Z.of_nat (length c) =? 2 * DIRENT_SIZE) then -3 else 0 in
        if result =? 0 then
          NoDup es.*1 -> (length es <= 432)%nat -> target <> [] -> old <> id ->
          exists d' m' i, run (Files.sys_unlink root cwd path flags) d = Ok (0, d') /\ fs_rep d' m' /\
            es !! i = Some (target, old) /\
            fs_view d' m' = <[id := (Directory, flat_map entry_bytes (swap_remove i es))]> (delete old v)
        else run (Files.sys_unlink root cwd path flags) d = Ok (result, d))).
Proof.
  intros Hfs Hs v remove_dir. unfold Files.sys_unlink. rewrite Hs. cbn [unwrap lift bind]. unfold find.
  split; [intros Hr; by rewrite (run_bind_Ok _ _ _ _ _ (find_parts_run _ _ _ _ _ Hfs Hr))|].
  intros id es Hr Hes. rewrite (run_bind_Ok _ _ _ _ _ (find_parts_run _ _ _ _ _ Hfs Hr)). cbn [fmap option_fmap option_map].
  destruct (lists_entries _ _ _ _ Hes) as (di & f & Hm & Hls).
  rewrite (run_bind_Ok _ _ _ _ _ (fs_find_correct efs area d m id di f es target Hfs Hm Hls)).
  split; [by intros ->|]. intros old k c Hf Hv. rewrite Hf. cbn [fmap option_fmap option_map]. cbv zeta. fold remove_dir.
  pose proof (remove_run d m id es target old k c Hfs Hes) as Hrem.
  pose proof (is_dir_run d m old k c Hfs Hv) as Hd. pose proof (file_size_run d m old k c Hfs Hv) as Hsz.
  assert (run (if negb remove_dir then let! d := Inode_is_dir (inode_of old) in Ret (negb d) else Ret false) d =
    Ok (negb remove_dir && negb (bool_decide (k = Directory)), d)) as H1.
  { destruct remove_dir; [done|]. cbn [negb]. by rewrite (run_bind_Ok _ _ _ _ _ Hd). }
  assert (run (if remove_dir then Inode_is_dir (inode_of old) else Ret false) d =
    Ok (remove_dir && bool_decide (k = Directory), d)) as H2.
  { by destruct remove_dir. }
  rewrite (run_bind_Ok _ _ _ _ _ H1). destruct (bool_decide (k = Directory)), remove_dir; cbn [negb eqb andb] in *;
    rewrite ?(run_bind_Ok _ _ _ _ _ H2); try done; [|cbn [Z.eqb]; intros; by apply Hrem].
  rewrite (run_bind_Ok _ _ _ _ _ Hsz), (Z.mul_comm 2). destruct (_ =? DIRENT_SIZE * 2); [cbn [Z.eqb negb]; intros; by apply Hrem|done].
Qed.

(** C23: the working directory.  [chdir] resolves its path against the working
    directory, and returns -1 and changes nothing when it leads to nothing, -2
    and changes nothing when it leads to a file, and 0 when it leads to a
    directory, whose absolute path then is the working directory.  [getcwd]
    behind it returns exactly the length of that path and writes exactly the
    path to the user's memory, or, when the buffer is shorter, returns -1 and
    writes nothing.  (A path with a name behind a file stops the kernel and is
    not covered.) *)
Theorem working_directory lo s p ptr b path m :
  path_call s p ptr b path m ->
  let v := files_of s m in
  let full := get_full_path (cwd b) path in
  let s1 := with_dir p full s in
  (resolves v 0 (split_slash full) None -> sys_chdir root str_fuel p ptr s = Ok (-1, s)) /\
  (forall id c, resolves v 0 (split_slash full) (Some id) -> v !! id = Some (File, c) ->
     sys_chdir root str_fuel p ptr s = Ok (-2, s)) /\
  (forall id c, resolves v 0 (split_slash full) (Some id) -> v !! id = Some (Directory, c) ->
     sys_chdir root str_fuel p ptr s = Ok (0, s1) /\
     forall buf len, user_ready lo s p b buf len ->
       if decide (Z.of_nat (length full) <= len)
       then exists s2, sys_getcwd p buf len s1 = Ok (Z.of_nat (length full), s2) /\ memory_holds lo s1 s2 b buf full
       else sys_getcwd p buf len s1 = Ok (-1, s1)).
Proof.
  intros Hc v full s1. pose proof (pc_files _ _ _ _ _ _ Hc) as Hfs. pose proof (pc_proc _ _ _ _ _ _ Hc) as Hb. split_and!.
  - intros Hr. rewrite (chdir_on_disk _ _ _ _ _ _ _ _ Hc (chdir_run _ _ _ _ _ Hfs Hr ltac:(done))). by rewrite (with_dir_same _ _ b).
  - intros id c Hr Hv. rewrite (chdir_on_disk _ _ _ _ _ _ (-2) (cwd b) Hc); [by rewrite (with_dir_same _ _ b)|].
    rewrite (chdir_run _ _ _ _ _ Hfs Hr); [|intros ? [= <-]; by eexists]. unfold v, files_of in Hv. by rewrite Hv.
  - intros id c Hr Hv. split.
    + apply (chdir_on_disk _ _ _ _ _ _ _ _ Hc). rewrite (chdir_run _ _ _ _ _ Hfs Hr); [|intros ? [= <-]; by eexists].
      unfold v, files_of in Hv. by rewrite Hv.
    + intros buf len [_ HS Hrg Hf]. apply (getcwd_run lo s1 p (with_cwd full b)). split; try done.
      unfold s1. cbn. by rewrite lookup_alter_eq, Hb.
Qed.

(** C25: [mkdir].  The call splits the absolute path at its last slash.  It
    returns -1 when the path before leads to nothing, and -2 when the directory
    there has an entry of the name, both without a change.  For a new name of
    at most 28 bytes, with a free inode and enough free blocks, it returns 0:
    the directory then lists the name behind its other entries, for a new
    directory that lists itself as [.] and its parent as [..], and no other
    file, and nothing but the disk, changes. *)
Theorem sys_mkdir_correct s p ptr b path m :
  path_call s p ptr b path m ->
  let v := files_of s m in
  exists parent target, rsplit_once (get_full_path (cwd b) path) = Some (parent, target) /\
  (resolves v 0 (split_slash parent) None -> sys_mkdir root str_fuel p ptr s = Ok (-1, s)) /\
  (forall id di f es, resolves v 0 (split_slash parent) (Some id) -> m !! id = Some (di, f) -> lists v id es ->
     (is_Some (find_entry target es) -> sys_mkdir root str_fuel p ptr s = Ok (-2, s)) /\
     (forall new l, find_entry target es = None -> Directory.name_ok target -> free_inodes efs (fs_disk (base s)) = new :: l ->
        let new_size := (Z.of_nat (length es) + 1) * DIRENT_SIZE in
        is_u32 new_size -> count_data_block new_size <= INDIRECT3_BOUND ->
        (blocks_taken di new_size < length (free_data efs area (fs_disk (base s))))%nat ->
        exists d' m', sys_mkdir root str_fuel p ptr s = Ok (0, with_disk d' s) /\ fs_rep d' m' /\
          files_of (with_disk d' s) m' =
            <[new := (Directory, flat_map entry_bytes [(Vfs.dot, new); (Vfs.dotdot, id)])]>
            (<[id := (Directory, flat_map entry_bytes (es ++ [(target, new)]))]> v))).
Proof.
  intros Hc v. pose proof (pc_files _ _ _ _ _ _ Hc) as Hfs.
  destruct (full_path_split (cwd b) path) as (parent & target & Hs). exists parent, target. split; [done|].
  assert (forall r d, run (let! o := find root parent in
      match o with
      | Some i => let! o := Inode_create_dir i target in Ret (match o with Some _ => 0 | None => -2 end)
      | None => Ret (-1)
      end) (fs_disk (base s)) = Ok (r, d) -> sys_mkdir root str_fuel p ptr s = Ok (r, with_disk d s)) as Hrun.
  { intros r d H. apply (mkdir_on_disk _ _ _ _ _ _ _ _ Hc). unfold Files.sys_mkdir. by rewrite Hs. }
  split.
  - intros Hr. rewrite <- (with_disk_same s) at 2. apply Hrun. unfold find.
    by rewrite (run_bind_Ok _ _ _ _ _ (find_parts_run _ _ _ _ _ Hfs Hr)).
  - intros id di f es Hr Hm Hes. pose proof Hes as (di' & f' & Hm' & Hls)%lists_entries. simplify_eq. split.
    + intros [old Hold]. rewrite <- (with_disk_same s) at 2. apply Hrun. unfold find.
      rewrite (run_bind_Ok _ _ _ _ _ (find_parts_run _ _ _ _ _ Hfs Hr)). cbn [fmap option_fmap option_map].
      by rewrite (run_bind_Ok _ _ _ _ _ (create_dir_listed _ _ _ _ _ _ _ _ Hfs Hm Hls Hold)).
    + intros new l Hnone Hnm Hfree new_size Hu Hb Hbl.
      destruct (create_dir_run efs area _ _ _ _ _ _ _ new l Hfs Hm Hls Hnone Hnm Hfree Hu Hb Hbl)
        as (d' & m' & _ & _ & _ & _ & Hcr & Hfs' & _ & _ & _ & _ & _ & _ & Hview).
      exists d', m'. split_and!; [|done|exact Hview]. apply Hrun. unfold find.
      rewrite (run_bind_Ok _ _ _ _ _ (find_parts_run _ _ _ _ _ Hfs Hr)). cbn [fmap option_fmap option_map].
      by rewrite (run_bind_Ok _ _ _ _ _ Hcr).
Qed.

(** C31: [unlink].  The call returns -1 when the path before the last slash
    leads to nothing or the directory there has no entry of the name.  Without
    [AT_REMOVEDIR] it returns -2 for a directory and removes a file; with it,
    it returns -2 for a file, -3 for a directory that does not have exactly
    two entries, and removes one that has.  Where it removes, it returns 0: in
    a directory of at most 432 entries with different names the entry is
    replaced by the last one, the inode is gone, and no other file changes.
    In the other cases nothing changes, and never anything but the disk. *)
Theorem sys_unlink_correct s p ptr b path m flags :
  path_call s p ptr b path m ->
  let v := files_of s m in
  let remove_dir := Z.land flags AT_REMOVEDIR =? AT_REMOVEDIR in
  exists parent target, rsplit_once (get_full_path (cwd b) path) = Some (parent, target) /\
  (resolves v 0 (split_slash parent) None -> sys_unlink root str_fuel p ptr flags s = Ok (-1, s)) /\
  (forall id es, resolves v 0 (split_slash parent) (Some id) -> lists v id es ->
     (find_entry target es = None -> sys_unlink root str_fuel p ptr flags s = Ok (-1, s)) /\
     (forall old k c, find_entry target es = Some old -> v !! old = Some (k, c) ->
        let is_dir := bool_decide (k = Directory) in
        let result :=
          if negb (eqb remove_dir is_dir) then -2
          else if remove_dir && negb (Z.of_nat (length c) =? 2 * DIRENT_SIZE) then -3 else 0 in
        if result =? 0 then
          NoDup es.*1 -> (length es <= 432)%nat -> target <> [] -> old <> id ->
          exists d' m' i, sys_unlink root str_fuel p ptr flags s = Ok (0, with_disk d' s) /\ fs_rep d' m' /\
            es !! i = Some (target, old) /\
            files_of (with_disk d' s) m' =
              <[id := (Directory, flat_map entry_bytes (swap_remove i es))]> (delete old v)
        else sys_unlink root str_fuel p ptr flags s = Ok (result, s))).
Proof.
  intros Hc v remove_dir. pose proof (pc_files _ _ _ _ _ _ Hc) as Hfs.
  destruct (full_path_split (cwd b) path) as (parent & target & Hs). exists parent, target. split; [done|].
  pose proof (unlink_run (fs_disk (base s)) m (cwd b) path flags parent target Hfs Hs) as [Hnone Hsome].
  assert (forall r, run (Files.sys_unlink root (cwd b) path flags) (fs_disk (base s)) = Ok (r, fs_disk (base s)) ->
    sys_unlink root str_fuel p ptr flags s = Ok (r, s)) as Hsame.
  { intros r H. apply (unlink_on_disk _ _ _ _ _ _ _ _ _ Hc) in H. by rewrite with_disk_same in H. }
  split; [intros Hr; by apply Hsame, Hnone|]. intros id es Hr Hes. destruct (Hsome id es Hr Hes) as [H1 H2].
  split; [intros Hf; by apply Hsame, H1|]. intros old k c Hf Hv. specialize (H2 old k c Hf Hv). cbv zeta in H2 |- *.
  fold remove_dir in H2.
  match goal with |- if (?r =? 0) then _ else _ => set (result := r) in * end.
  destruct (result =? 0) eqn:E; [|by apply Hsame].
  intros Hnd Hlen Hnm Hne. destruct (H2 Hnd Hlen Hnm Hne) as (d' & m' & i & Hrun & Hrest). exists d', m', i.
  split; [by apply (unlink_on_disk _ _ _ _ _ _ _ _ _ Hc)|done].
Qed.
End calls.
End path_calls.

(** ** Witnesses

    The process of [FileCallsSpec] with the text [a] at the start of its
    memory and zero bytes behind it. *)

Definition text_mm : mm :=
  match translated_ref two_mm (MemorySet_token two_ms) 65536 with
  | Ok pa => store_bytes pa name_a two_mm
  | Panic _ => two_mm
  end.
Definition text_io (d : disk) : io := set_base (set_mm text_mm (base (demo_io d))) (demo_io d).

Lemma text_a : translated_str 10 text_mm (MemorySet_token two_ms) 65536 = Ok name_a.
Proof. vm_compute. reflexivity. Qed.
Lemma text_empty : translated_str 10 text_mm (MemorySet_token two_ms) 65537 = Ok [].
Proof. vm_compute. reflexivity. Qed.

#[local] Opaque text_mm demo_disk demo_disk_a.

Lemma text_call d m ptr path :
  FileSystem.fs_rep demo_fs 73 d m -> translated_str 10 text_mm (MemorySet_token two_ms) ptr = Ok path ->
  path_call demo_fs 73 10 (text_io d) 1 ptr demo_pcb path m.
Proof. intros Hfs Ht. split; [apply lookup_singleton_eq|exact Ht|exact Hfs]. Qed.

(** [chdir "a"], where [a] is a file, and [chdir ""]. *)
Lemma working_directory_witness :
  sys_chdir (FileSystem.inode_of demo_fs 0) 10 1 65536 (text_io demo_disk_a) = Ok (-2, text_io demo_disk_a) /\
  sys_chdir (FileSystem.inode_of demo_fs 0) 10 1 65537 (text_io demo_disk_a) = Ok (0, with_dir 1 [slash] (text_io demo_disk_a)).
Proof.
  destruct demo_file as (m & di & f & dn & fn & Hrep & Hm & Hls & _ & Hmn & Hk & _).
  pose proof (fs_view_lookup demo_disk_a m 1 dn fn Hmn) as Hv1. rewrite Hk in Hv1.
  pose proof (listing_lists _ _ _ _ _ _ Hm Hls) as Hes. pose proof Hes as [Hv0 _]. split.
  - destruct (working_directory demo_fs 73 10 100 _ _ _ _ _ _ (text_call _ _ _ _ Hrep text_a)) as (_ & H & _).
    eapply (H 1); [|exact Hv1]. apply resolves_empty. eapply resolves_step; [done|exact Hes|reflexivity|]. apply resolves_here.
  - destruct (working_directory demo_fs 73 10 100 _ _ _ _ _ _ (text_call _ _ _ _ Hrep text_empty)) as (_ & _ & H).
    eapply (H 0); [|exact Hv0]. apply resolves_empty, resolves_empty, resolves_here.
Defined.

(** [mkdir "a"] on a new disk. *)
Lemma sys_mkdir_correct_witness :
  exists d', sys_mkdir (FileSystem.inode_of demo_fs 0) 10 1 65536 (text_io demo_disk) = Ok (0, with_disk d' (text_io demo_disk)).
Proof.
  destruct demo_root as (Hrep & Hls & Hfree & Hids).
  destruct (sys_mkdir_correct demo_fs 73 10 _ _ _ _ _ _ (text_call _ _ _ _ Hrep text_a)) as (parent & target & Hs & _ & H).
  injection Hs as <- <-.
  destruct (H 0 root_disk_inode empty_forest []) as [_ Hnew].
  - apply resolves_empty, resolves_here.
  - apply lookup_singleton_eq.
  - eapply listing_lists; [apply lookup_singleton_eq|exact Hls].
  - destruct (Hnew 1 (seqZ 2 4094)) as (d' & m' & Hrun & _); [reflexivity|exact name_a_ok|exact Hids|apply demo_size|apply demo_size| |].
    + change (fs_disk (base (text_io demo_disk))) with demo_disk. rewrite Hfree. apply demo_size.
    + exists d'. exact Hrun.
Defined.

(** [unlink "a"] of the file. *)
Lemma sys_unlink_correct_witness :
  exists d' m', sys_unlink (FileSystem.inode_of demo_fs 0) 10 1 65536 0 (text_io demo_disk_a) = Ok (0, with_disk d' (text_io demo_disk_a)) /\
    lists (fs_view d' m') 0 [].
Proof.
  destruct demo_file as (m & di & f & dn & fn & Hrep & Hm & Hls & _ & Hmn & Hk & _).
  pose proof (fs_view_lookup demo_disk_a m 1 dn fn Hmn) as Hv1. rewrite Hk in Hv1.
  destruct (sys_unlink_correct demo_fs 73 10 _ _ _ _ _ _ 0 (text_call _ _ _ _ Hrep text_a)) as (parent & target & Hs & _ & H).
  injection Hs as <- <-.
  destruct (H 0 [(name_a, 1)]) as [_ Hold]; [apply resolves_empty, resolves_here|by eapply listing_lists|].
  specialize (Hold 1 File _ eq_refl Hv1). cbv zeta in Hold. cbn [Z.land AT_REMOVEDIR Z.eqb negb eqb andb bool_decide] in Hold.
  destruct Hold as (d' & m' & i & Hrun & _ & Hi & Hview); [by apply NoDup_singleton|cbn; lia|done|done|].
  exists d', m'. split; [exact Hrun|]. destruct i as [|i]; [|by destruct i]. split; [|done].
  unfold files_of in Hview. cbn [fs_disk base with_disk set_base set_disk] in Hview. rewrite Hview. apply lookup_insert_eq.
Defined.
