(* ===== verification/Syscall.v ===== *)
(** * The system call interface

    The numbers and arguments of system calls, on both sides: [syscall] of
    [kernel/src/syscall/mod.rs] takes a number and three words and selects a
    call with arguments of its own types; the functions of
    [user/src/syscall.rs] make the number and the words.  The theorem is that
    the kernel performs the call the user asked for. *)

From S2P Require Import Prelude Config.

(** [as i32] *)
Definition i32 (x : Z) : Z := (x + 2 ^ 31) mod 2 ^ 32 - 2 ^ 31.

(** ** Calls *)

(** The functions [syscall] calls, with their arguments. *)
Inductive Call :=
  | Getcwd (buf len : Z)
  | Dup (fd : Z)
  | Dup2 (old_fd new_fd : Z)
  | Mkdir (path : Z)
  | Unlink (path flags : Z)
  | Chdir (path : Z)
  | Open (path flags : Z)
  | Close (fd : Z)
  | PipeCall (pipe : Z)
  | ReadCall (fd buf len : Z)
  | WriteCall (fd buf len : Z)
  | Fstat (fd stat : Z)
  | Exit (code : Z)
  | Sleep (ms : Z)
  | Yield
  | Kill (pid signal : Z)
  | GetTime
  | Getpid
  | Fork
  | Exec (path args : Z)
  | Waitpid (pid exit_code_ptr : Z)
  | ThreadCreate (entry arg : Z)
  | Gettid
  | Waittid (tid : Z)
  | MutexCreate (blocking : bool)
  | MutexLock (id : Z)
  | MutexUnlock (id : Z)
  | SemaphoreCreate (res_count : Z)
  | SemaphoreUp (id : Z)
  | SemaphoreDown (id : Z)
  | CondvarCreate
  | CondvarSignal (id : Z)
  | CondvarWait (id mutex_id : Z)
  | Framebuffer
  | FramebufferFlush
  | EventGet
  | KeyPressed.

#[global] Instance Call_eq_dec : EqDecision Call.
Proof. solve_decision. Defined.

(** ** The kernel's side *)

(** [syscall]: which call a number and three words are; a pointer is a word. *)
Definition syscall (syscall_id : Z) (args : Z * Z * Z) : res Call :=
  let '(a0, a1, a2) := args in
  match syscall_id with
  | 17 => Ok (Getcwd a0 a1)
  | 23 => Ok (Dup a0)
  | 24 => Ok (Dup2 a0 a1)
  | 34 => Ok (Mkdir a0)
  | 35 => Ok (Unlink a0 (w32 a1))
  | 49 => Ok (Chdir a0)
  | 56 => Ok (Open a0 (w32 a1))
  | 57 => Ok (Close a0)
  | 59 => Ok (PipeCall a0)
  | 63 => Ok (ReadCall a0 a1 a2)
  | 64 => Ok (WriteCall a0 a1 a2)
  | 80 => Ok (Fstat a0 a1)
  | 93 => Ok (Exit (i32 a0))
  | 101 => Ok (Sleep a0)
  | 124 => Ok Yield
  | 129 => Ok (Kill a0 (w32 a1))
  | 169 => Ok GetTime
  | 172 => Ok Getpid
  | 220 => Ok Fork
  | 221 => Ok (Exec a0 a1)
  | 260 => Ok (Waitpid (i64 a0) a1)
  | 1000 => Ok (ThreadCreate a0 a1)
  | 1001 => Ok Gettid
  | 1002 => Ok (Waittid a0)
  | 1010 => Ok (MutexCreate (a0 =? 1))
  | 1011 => Ok (MutexLock a0)
  | 1012 => Ok (MutexUnlock a0)
  | 1020 => Ok (SemaphoreCreate a0)
  | 1021 => Ok (SemaphoreUp a0)
  | 1022 => Ok (SemaphoreDown a0)
  | 1030 => Ok CondvarCreate
  | 1031 => Ok (CondvarSignal a0)
  | 1032 => Ok (CondvarWait a0 a1)
  | 2000 => Ok Framebuffer
  | 2001 => Ok FramebufferFlush
  | 3000 => Ok EventGet
  | 3001 => Ok KeyPressed
  | _ => Panic ExplicitPanic
  end.

(** ** The user's side

    What each function passes to [ecall]: the number and the three words.  A
    slice is its address and its length; a string passes its address only. *)
Module User.

Definition SYSCALL_GETCWD : Z := 17.
Definition SYSCALL_DUP : Z := 23.
Definition SYSCALL_DUP2 : Z := 24.
Definition SYSCALL_MKDIR : Z := 34.
Definition SYSCALL_UNLINK : Z := 35.
Definition SYSCALL_CHDIR : Z := 49.
Definition SYSCALL_OPEN : Z := 56.
Definition SYSCALL_CLOSE : Z := 57.
Definition SYSCALL_PIPE : Z := 59.
Definition SYSCALL_READ : Z := 63.
Definition SYSCALL_WRITE : Z := 64.
Definition SYSCALL_FSTAT : Z := 80.
Definition SYSCALL_EXIT : Z := 93.
Definition SYSCALL_SLEEP : Z := 101.
Definition SYSCALL_YIELD : Z := 124.
Definition SYSCALL_KILL : Z := 129.
Definition SYSCALL_GET_TIME : Z := 169.
Definition SYSCALL_GETPID : Z := 172.
Definition SYSCALL_FORK : Z := 220.
Definition SYSCALL_EXEC : Z := 221.
Definition SYSCALL_WAITPID : Z := 260.
Definition SYSCALL_THREAD_CREATE : Z := 1000.
Definition SYSCALL_GETTID : Z := 1001.
Definition SYSCALL_WAITTID : Z := 1002.
Definition SYSCALL_MUTEX_CREATE : Z := 1010.
Definition SYSCALL_MUTEX_LOCK : Z := 1011.
Definition SYSCALL_MUTEX_UNLOCK : Z := 1012.
Definition SYSCALL_SEMAPHORE_CREATE : Z := 1020.
Definition SYSCALL_SEMAPHORE_UP : Z := 1021.
Definition SYSCALL_SEMAPHORE_DOWN : Z := 1022.
Definition SYSCALL_CONDVAR_CREATE : Z := 1030.
Definition SYSCALL_CONDVAR_SIGNAL : Z := 1031.
Definition SYSCALL_CONDVAR_WAIT : Z := 1032.
Definition SYSCALL_FRAMEBUFFER : Z := 2000.
Definition SYSCALL_FRAMEBUFFER_FLUSH : Z := 2001.
Definition SYSCALL_EVENT_GET : Z := 3000.
Definition SYSCALL_KEY_PRESSED : Z := 3001.

Abbreviation ecall := (Z * (Z * Z * Z))%type.

Definition sys_getcwd (buf len : Z) : ecall := (SYSCALL_GETCWD, (buf, len, 0)).
Definition sys_dup (fd : Z) : ecall := (SYSCALL_DUP, (fd, 0, 0)).
Definition sys_dup2 (old_fd new_fd : Z) : ecall := (SYSCALL_DUP2, (old_fd, new_fd, 0)).
Definition sys_mkdir (path : Z) : ecall := (SYSCALL_MKDIR, (path, 0, 0)).
Definition sys_unlink (path flags : Z) : ecall := (SYSCALL_UNLINK, (path, flags, 0)).
Definition sys_chdir (path : Z) : ecall := (SYSCALL_CHDIR, (path, 0, 0)).
Definition sys_open (path flags : Z) : ecall := (SYSCALL_OPEN, (path, flags, 0)).
Definition sys_close (fd : Z) : ecall := (SYSCALL_CLOSE, (fd, 0, 0)).
Definition sys_pipe (pipe : Z) : ecall := (SYSCALL_PIPE, (pipe, 0, 0)).
Definition sys_read (fd buf len : Z) : ecall := (SYSCALL_READ, (fd, buf, len)).
Definition sys_write (fd buf len : Z) : ecall := (SYSCALL_WRITE, (fd, buf, len)).
Definition sys_fstat (fd stat : Z) : ecall := (SYSCALL_FSTAT, (fd, stat, 0)).
Definition sys_exit (exit_code : Z) : ecall := (SYSCALL_EXIT, (w64 exit_code, 0, 0)).
Definition sys_sleep (sleep_ms : Z) : ecall := (SYSCALL_SLEEP, (sleep_ms, 0, 0)).
Definition sys_yield : ecall := (SYSCALL_YIELD, (0, 0, 0)).
Definition sys_kill (pid signal : Z) : ecall := (SYSCALL_KILL, (pid, w64 signal, 0)).
Definition sys_get_time : ecall := (SYSCALL_GET_TIME, (0, 0, 0)).
Definition sys_getpid : ecall := (SYSCALL_GETPID, (0, 0, 0)).
Definition sys_fork : ecall := (SYSCALL_FORK, (0, 0, 0)).
Definition sys_exec (path args : Z) : ecall := (SYSCALL_EXEC, (path, args, 0)).
Definition sys_waitpid (pid exit_code : Z) : ecall := (SYSCALL_WAITPID, (w64 pid, exit_code, 0)).
Definition sys_thread_create (entry arg : Z) : ecall := (SYSCALL_THREAD_CREATE, (entry, arg, 0)).
Definition sys_gettid : ecall := (SYSCALL_GETTID, (0, 0, 0)).
Definition sys_waittid (tid : Z) : ecall := (SYSCALL_WAITTID, (tid, 0, 0)).
Definition sys_mutex_create (blocking : bool) : ecall :=
  (SYSCALL_MUTEX_CREATE, (if blocking then 1 else 0, 0, 0)).
Definition sys_mutex_lock (id : Z) : ecall := (SYSCALL_MUTEX_LOCK, (id, 0, 0)).
Definition sys_mutex_unlock (id : Z) : ecall := (SYSCALL_MUTEX_UNLOCK, (id, 0, 0)).
Definition sys_semaphore_create (res_count : Z) : ecall := (SYSCALL_SEMAPHORE_CREATE, (res_count, 0, 0)).
Definition sys_semaphore_up (sem_id : Z) : ecall := (SYSCALL_SEMAPHORE_UP, (sem_id, 0, 0)).
Definition sys_semaphore_down (sem_id : Z) : ecall := (SYSCALL_SEMAPHORE_DOWN, (sem_id, 0, 0)).
Definition sys_condvar_create : ecall := (SYSCALL_CONDVAR_CREATE, (0, 0, 0)).
Definition sys_condvar_signal (condvar_id : Z) : ecall := (SYSCALL_CONDVAR_SIGNAL, (condvar_id, 0, 0)).
Definition sys_condvar_wait (condvar_id mutex_id : Z) : ecall := (SYSCALL_CONDVAR_WAIT, (condvar_id, mutex_id, 0)).
Definition sys_framebuffer : ecall := (SYSCALL_FRAMEBUFFER, (0, 0, 0)).
Definition sys_framebuffer_flush : ecall := (SYSCALL_FRAMEBUFFER_FLUSH, (0, 0, 0)).
Definition sys_event_get : ecall := (SYSCALL_EVENT_GET, (0, 0, 0)).
Definition sys_key_pressed : ecall := (SYSCALL_KEY_PRESSED, (0, 0, 0)).

(** The function of the library for a call; the library has the signal of
    [kill] as an [i32], the kernel as a [u32]. *)
Definition ask (c : Call) : ecall :=
  match c with
  | Getcwd buf len => sys_getcwd buf len
  | Dup fd => sys_dup fd
  | Dup2 o n => sys_dup2 o n
  | Mkdir path => sys_mkdir path
  | Unlink path flags => sys_unlink path flags
  | Chdir path => sys_chdir path
  | Open path flags => sys_open path flags
  | Close fd => sys_close fd
  | PipeCall pipe => sys_pipe pipe
  | ReadCall fd buf len => sys_read fd buf len
  | WriteCall fd buf len => sys_write fd buf len
  | Fstat fd stat => sys_fstat fd stat
  | Exit code => sys_exit code
  | Sleep ms => sys_sleep ms
  | Yield => sys_yield
  | Kill pid signal => sys_kill pid (i32 signal)
  | GetTime => sys_get_time
  | Getpid => sys_getpid
  | Fork => sys_fork
  | Exec path args => sys_exec path args
  | Waitpid pid ptr => sys_waitpid pid ptr
  | ThreadCreate entry arg => sys_thread_create entry arg
  | Gettid => sys_gettid
  | Waittid tid => sys_waittid tid
  | MutexCreate b => sys_mutex_create b
  | MutexLock id => sys_mutex_lock id
  | MutexUnlock id => sys_mutex_unlock id
  | SemaphoreCreate n => sys_semaphore_create n
  | SemaphoreUp id => sys_semaphore_up id
  | SemaphoreDown id => sys_semaphore_down id
  | CondvarCreate => sys_condvar_create
  | CondvarSignal id => sys_condvar_signal id
  | CondvarWait id m => sys_condvar_wait id m
  | Framebuffer => sys_framebuffer
  | FramebufferFlush => sys_framebuffer_flush
  | EventGet => sys_event_get
  | KeyPressed => sys_key_pressed
  end.
End User.

(** ** The two sides agree *)

(** The values of the types of the arguments that are not words. *)
Definition typed (c : Call) : Prop :=
  match c with
  | Unlink _ flags | Open _ flags => is_u32 flags
  | Kill _ signal => is_u32 signal
  | Exit code => - 2 ^ 31 <= code < 2 ^ 31
  | Waitpid pid _ => - 2 ^ 63 <= pid < 2 ^ 63
  | _ => True
  end.

Lemma i64_w64 x : - 2 ^ 63 <= x < 2 ^ 63 -> i64 (w64 x) = x.
Proof. unfold i64, w64. intros. rewrite Zplus_mod_idemp_l, Z.mod_small; lia. Qed.

Lemma mod_2_64_32 x : w32 (w64 x) = w32 x.
Proof.
  unfold w32, w64. rewrite (Z.div_mod x (2 ^ 64)) at 2 by lia.
  replace (2 ^ 64 * (x / 2 ^ 64) + x mod 2 ^ 64) with (x mod 2 ^ 64 + (2 ^ 32 * (x / 2 ^ 64)) * 2 ^ 32) by lia.
  by rewrite Z.mod_add by lia.
Qed.

Lemma i32_w32 x : i32 (w32 x) = i32 x.
Proof. unfold i32, w32. by rewrite Zplus_mod_idemp_l. Qed.

Lemma w32_i32 x : w32 (i32 x) = w32 x.
Proof. unfold i32, w32. by rewrite Zminus_mod_idemp_l, Z.add_simpl_r. Qed.

Lemma i32_id x : - 2 ^ 31 <= x < 2 ^ 31 -> i32 x = x.
Proof. unfold i32. intros. rewrite Z.mod_small; lia. Qed.

(** C40: every function of the user library makes the kernel perform the call
    of the same name with the same arguments: the numbers agree, each argument
    is in its place, and the conversions between words and narrower or signed
    types lose nothing. *)
Theorem syscall_abi c : typed c -> let '(id, args) := User.ask c in syscall id args = Ok c.
Proof.
  destruct c; cbn -[w64 w32 i32 i64]; intros Ht; try done; do 2 f_equal.
  - by apply w32_id.
  - by apply w32_id.
  - rewrite <- i32_w32, mod_2_64_32, i32_w32. by apply i32_id.
  - rewrite mod_2_64_32, w32_i32. by apply w32_id.
  - by apply i64_w64.
  - by destruct blocking.
Qed.

Lemma syscall_abi_witness : syscall 93 (2 ^ 64 - 11, 0, 0) = Ok (Exit (-11)).
Proof. apply (syscall_abi (Exit (-11))). cbn. lia. Defined.
