(* ===== verification/WorldSteps.v ===== *)
(** * Tasks and descriptors across operations on processes

    What the operations of [Process.v] do to the control blocks of tasks, the
    queue of new tasks and the tables of descriptors: a task that has not
    exited stays, none but [fork] and [thread_create] makes one, and an open
    file of a table was open in some table before. *)

From S2P Require Import Prelude Config Bytes BlockStore Efs Vfs Files.
From S2P Require Import StateMonad Address FrameAllocator PageTable MemorySet TaskId Process ProcessSpec.

(** ** Relations *)

(** A task that has not exited. *)
Definition live (w : world) (t : Z) : Prop := exists tb, tcbs w !! t = Some tb /\ task_exit_code tb = None.

(** The control blocks were made in order. *)
Definition fresh (w : world) : Prop := forall t, is_Some (tcbs w !! t) -> t < next_tcb w.

(** No live task but [x] exits or changes its process. *)
Definition tasks_kept (x : option Z) (w w' : world) : Prop :=
  forall t tb, x <> Some t -> tcbs w !! t = Some tb -> task_exit_code tb = None ->
    exists tb', tcbs w' !! t = Some tb' /\ task_exit_code tb' = None /\ process tb' = process tb.

Definition fds_from (w w' : world) : Prop :=
  forall p b f, procs w' !! p = Some b -> Some f ∈ fd_table b ->
    exists q c, procs w !! q = Some c /\ Some f ∈ fd_table c.

(** What every operation does; [x] is the task that may exit. *)
Record world_step (x : option Z) (w w' : world) : Prop := {
  ws_fresh : fresh w -> fresh w' /\ tasks_kept x w w';
  ws_next : next_tcb w <= next_tcb w';
  ws_fds : fds_from w w';
}.

(** What an operation that makes no task does. *)
Record calm (w w' : world) : Prop := {
  ca_ready : ready w' = ready w;
  ca_next : next_tcb w' = next_tcb w;
  ca_live t : live w' t -> live w t;
}.

#[export] Instance world_step_preorder x : PreOrder (world_step x).
Proof.
  split.
  - intros w. split; [intros Hf; split; [done|]|done|]; intros ? ?; eauto.
  - intros w1 w2 w3 [F1 N1 D1] [F2 N2 D2]. split; [|lia|].
    + intros Hf. destruct (F1 Hf) as [Hf2 K1]. destruct (F2 Hf2) as [Hf3 K2]. split; [done|].
      intros t tb Hx Ht He. destruct (K1 t tb Hx Ht He) as (tb2 & Ht2 & He2 & Hp2).
      destruct (K2 t tb2 Hx Ht2 He2) as (tb3 & Ht3 & He3 & Hp3). exists tb3. split_and!; congruence.
    + intros p b f Hp Hin. destruct (D2 p b f Hp Hin) as (q & c & Hq & Hin2). by eapply D1.
Qed.

#[export] Instance calm_preorder : PreOrder calm.
Proof. split; [by split|]. intros w1 w2 w3 [] []. split; [congruence|congruence|eauto]. Qed.

(** Most steps keep all of these parts. *)
Definition skeleton (w : world) := (tcbs w, fd_table <$> procs w, ready w, next_tcb w).

Lemma skeleton_step x w w' : eq_on skeleton w w' -> world_step x w w'.
Proof.
  unfold eq_on, skeleton. intros [= Et Ef Er En]. split.
  - intros Hf. split; [intros t; rewrite Et, En; apply Hf|]. intros t tb _ Ht He. exists tb. by rewrite Et.
  - lia.
  - intros p b f Hp Hin. apply (f_equal (fun m => m !! p)) in Ef. rewrite !lookup_fmap, Hp in Ef.
    destruct (procs w !! p) as [c|] eqn:Hc; [|done]. exists p, c. split; [done|]. cbn in Ef. congruence.
Qed.
Lemma skeleton_calm w w' : eq_on skeleton w w' -> calm w w'.
Proof. unfold eq_on, skeleton. intros [= Et Ef Er En]. split; [done|done|]. intros t. unfold live. by rewrite Et. Qed.

Abbreviation plain := (moves (eq_on skeleton)).
Abbreviation steps x := (moves (world_step x)).
Abbreviation calmly := (moves calm).

Lemma plain_steps {A} x (m : st world A) : plain m -> steps x m.
Proof. apply moves_weaken, skeleton_step. Qed.
Lemma plain_calmly {A} (m : st world A) : plain m -> calmly m.
Proof. apply moves_weaken, skeleton_calm. Qed.

(** ** Steps that keep the skeleton *)

Lemma fds_alter f p (ps : gmap Z pcb) :
  (forall b, fd_table (f b) = fd_table b) -> fd_table <$> alter f p ps = fd_table <$> ps.
Proof.
  intros Hf. apply map_eq. intros q. rewrite !lookup_fmap.
  destruct (decide (q = p)) as [->|]; [rewrite lookup_alter_eq|by rewrite lookup_alter_ne].
  destruct (ps !! p); cbn; by rewrite ?Hf.
Qed.

Lemma plain_get_pcb p : plain (get_pcb p).
Proof. intros w b w' E. unfold get_pcb in E. by inv_res. Qed.
Lemma plain_get_tcb t : plain (get_tcb t).
Proof. intros w b w' E. unfold get_tcb in E. by inv_res. Qed.
Lemma plain_mod_pcb p f : (forall b, fd_table (f b) = fd_table b) -> plain (mod_pcb p f).
Proof. intros Hf w b w' [= _ <-]. unfold eq_on, skeleton. cbn. by rewrite fds_alter. Qed.
Lemma plain_mod_mm f : plain (mod_mm f).
Proof. intros w b w' [= _ <-]. done. Qed.
Lemma plain_on_fs {A} (f : prog A) : plain (on_fs f).
Proof. intros w b w' E. unfold on_fs in E. inv_res. destruct a. by simplify_eq. Qed.
Lemma plain_on_mm {A} (f : st mm A) : plain (on_mm f).
Proof. intros w b w' E. unfold on_mm in E. inv_res. destruct a. by simplify_eq. Qed.
Lemma plain_on_kernel {A} (f : st kstacks A) : plain (on_kernel f).
Proof. intros w b w' E. unfold on_kernel in E. inv_res. destruct a. by simplify_eq. Qed.
Lemma plain_on_proc_mem {A} p (f : st proc_mem A) : plain (on_proc_mem p f).
Proof.
  intros w b w' E. unfold on_proc_mem in E. inv_res. destruct a0 as [a0 s]. simplify_eq.
  unfold eq_on, skeleton. cbn. do 3 f_equal. rewrite fmap_insert. apply insert_id. by rewrite lookup_fmap, E0.
Qed.
Lemma plain_pid_alloc : plain pid_alloc.
Proof. intros w b w' E. unfold pid_alloc in E. destruct (id_alloc _). by simplify_eq. Qed.
Lemma plain_insert_pid p : plain (insert_into_pid2process p).
Proof. intros w b w' [= _ <-]. done. Qed.
Lemma plain_remove_pid p : plain (remove_from_pid2process p).
Proof. intros w b w' E. unfold remove_from_pid2process in E. by inv_res. Qed.

#[export] Hint Resolve plain_get_pcb plain_get_tcb plain_mod_mm plain_on_fs plain_on_mm plain_on_kernel
  plain_on_proc_mem plain_pid_alloc plain_insert_pid plain_remove_pid : moves.
#[export] Hint Extern 1 (moves (eq_on skeleton) (mod_pcb _ _)) => apply plain_mod_pcb; done : moves.
#[export] Hint Extern 3 (moves (world_step _) _) => apply plain_steps; solve [eauto 3 with moves] : moves.
#[export] Hint Extern 3 (moves calm _) => apply plain_calmly; solve [eauto 3 with moves] : moves.

Lemma plain_store_user token va bs : plain (store_user token va bs).
Proof. unfold store_user. follow. Qed.
#[export] Hint Resolve plain_store_user : moves.
Lemma plain_store_string token p bs : plain (store_string token p bs).
Proof. revert p. induction bs; cbn [store_string]; follow. Qed.
#[export] Hint Resolve plain_store_string : moves.
Lemma plain_push_args token args : forall argv sp, plain (push_args token args argv sp).
Proof. induction args; intros [|pa argv] sp; cbn [push_args]; follow. Qed.
#[export] Hint Resolve plain_push_args : moves.
#[export] Hint Extern 1 (moves (eq_on skeleton) (iter_st _ _)) => apply moves_iter; solve [eauto with moves] : moves.

(** ** Tasks *)

(** A change of a task's control block that is not its end. *)
Lemma mod_tcb_step x t f :
  (forall tb, task_exit_code (f tb) = task_exit_code tb /\ process (f tb) = process tb) ->
  steps x (mod_tcb t f) /\ calmly (mod_tcb t f).
Proof.
  intros Hf. split; intros w u w' [= _ <-]; split; cbn; try done.
  - intros Hw. split.
    + intros s. cbn. destruct (decide (s = t)) as [->|]; [rewrite lookup_alter_eq|rewrite lookup_alter_ne by done; apply Hw].
      rewrite fmap_is_Some. apply Hw.
    + intros s tb _ Hs He. cbn. destruct (decide (s = t)) as [->|]; [|rewrite lookup_alter_ne by done; by eauto].
      rewrite lookup_alter_eq, Hs. cbn. exists (f tb). destruct (Hf tb) as [-> ->]. done.
  - intros p b g Hp Hin. by exists p, b.
  - intros s (tb & Hs & He). cbn in Hs. unfold live. destruct (decide (s = t)) as [->|].
    + rewrite lookup_alter_eq in Hs. destruct (tcbs w !! t) as [tb0|]; [|done]. cbn in Hs. simplify_eq.
      exists tb0. split; [done|]. by rewrite <- (proj1 (Hf tb0)).
    + rewrite lookup_alter_ne in Hs by done. by eauto.
Qed.

Lemma take_all_res_step x ts : steps x (take_all_res ts) /\ calmly (take_all_res ts).
Proof.
  induction ts as [|[t|] ts [IH1 IH2]]; cbn [take_all_res]; [split; follow| |done].
  destruct (mod_tcb_step x t (fun tb => MkTcb (process tb) (kstack tb) None (tcb_trap_cx_ppn tb) (task_exit_code tb)))
    as [H1 H2]; [done|]. split; follow.
Qed.

(** Only the control block of a task that has exited is dropped. *)
Lemma release_task_step x o : steps x (release_task o) /\ calmly (release_task o).
Proof.
  destruct o as [t|]; [|split; cbn; follow]. 
  assert (forall w u w', release_task (Some t) w = Ok (u, w') ->
    exists w1 tb, eq_on skeleton w w1 /\ tcbs w !! t = Some tb /\
      (w' = w \/ task_exit_code tb <> None /\ w' = set_tcbs (delete t (tcbs w1)) w1)) as Hr.
  { intros w u w' H. cbn [release_task] in H. apply st_bind_inv in H as (tb & w0 & H0 & H).
    unfold get_tcb in H0. inv_res.
    destruct (task_exit_code tb) as [code|] eqn:Ec; [|exists w0, tb; inv_st; split_and!; eauto; reflexivity].
    unfold drop_tcb in H. apply st_bind_inv in H as (tb1 & w1 & H1 & H). apply plain_get_tcb in H1.
    apply st_bind_inv in H as ([] & w2 & H2 & H). apply plain_on_kernel in H2.
    apply st_bind_inv in H as ([] & w3 & H3 & [= <- <-]). exists w3, tb.
    assert (plain (match res_ tb1 with Some r => on_proc_mem (process tb1) (TaskUserRes_drop r) | None => ret tt end))
      as Hp by follow. apply Hp in H3. split; [|split; [done|right; by rewrite Ec]].
    transitivity w1; [done|]. transitivity w2; done. }
  split; intros w u w' H; destruct (Hr w u w' H) as (w1 & tb & Hs & Ht & [->|[He ->]]); try reflexivity.
  - transitivity w1; [by apply skeleton_step|]. unfold eq_on, skeleton in Hs. simplify_eq. split; cbn; [|done|].
    + intros Hf. split.
      * intros s Hs'. cbn in Hs'. apply Hf. destruct (decide (s = t)) as [->|]; [by rewrite lookup_delete_eq in Hs'; destruct Hs'|].
        by rewrite lookup_delete_ne in Hs'.
      * intros s tb' _ Hs' He'. cbn. rewrite lookup_delete_ne; [by eauto|]. intros ->. congruence.
    + intros p b g Hp Hin. by exists p, b.
  - transitivity w1; [by apply skeleton_calm|]. split; cbn; try done.
    intros s (tb' & Hs' & He'). cbn in Hs'. apply lookup_delete_Some in Hs' as [_ Hs']. by exists tb'.
Qed.

Lemma release_all_step x l : steps x (iter_st release_task l) /\ calmly (iter_st release_task l).
Proof. split; apply moves_iter; intros o; apply (release_task_step x o). Qed.

(** ** Exit *)

Lemma set_procs_step x f :
  (forall w, fds_from w (set_procs (f w) w)) ->
  steps x (modify (fun w => set_procs (f w) w)) /\ calmly (modify (fun w => set_procs (f w) w)).
Proof.
  intros Hf. split; intros w u w' [= _ <-]; split; cbn; try done.
  - intros Hw. split; [done|]. intros t tb _ Ht He. by exists tb.
Qed.

(** A table that is a part of the old one. *)
Lemma fewer_fds_step x p f :
  (forall b g, Some g ∈ fd_table (f b) -> Some g ∈ fd_table b) ->
  steps x (mod_pcb p f) /\ calmly (mod_pcb p f).
Proof.
  intros Hf. apply (set_procs_step x (fun w => alter f p (procs w))). intros w q b g Hq Hin. cbn in Hq.
  destruct (decide (q = p)) as [->|]; [|rewrite lookup_alter_ne in Hq by done; by eauto].
  rewrite lookup_alter_eq in Hq. destruct (procs w !! p) as [c|] eqn:Hc; [|done]. cbn in Hq. simplify_eq. eauto.
Qed.

Lemma fds_adopt cs : forall ps, fd_table <$> adopt cs ps = fd_table <$> ps.
Proof.
  induction cs as [|c cs IH]; intros ps; [done|]. cbn [adopt foldl]. unfold adopt in IH. rewrite IH.
  by rewrite !fds_alter.
Qed.

Lemma exit_process_step x p code : steps x (exit_process p code) /\ calmly (exit_process p code).
Proof.
  assert (forall cs, plain (modify (fun w => set_procs (adopt cs (procs w)) w))) as Ha.
  { intros cs w u w' [= _ <-]. unfold eq_on, skeleton. cbn. by rewrite fds_adopt. }
  destruct (fewer_fds_step x p (with_fds [])) as [F1 F2]; [by intros b g ?%not_elem_of_nil|].
  pose proof (fun ts => proj1 (take_all_res_step x ts)) as T1. pose proof (fun ts => proj2 (take_all_res_step x ts)) as T2.
  pose proof (fun l => proj1 (release_all_step x l)) as R1. pose proof (fun l => proj2 (release_all_step x l)) as R2.
  unfold exit_process. split; follow.
Qed.

(** The end of a task: it alone stops being live. *)
Lemma end_task_step t f :
  (forall tb, task_exit_code (f tb) <> None) ->
  forall w u w', mod_tcb t f w = Ok (u, w') -> world_step (Some t) w w' /\ calm w w' /\ ~ live w' t.
Proof.
  intros Hf w u w' [= _ <-]. split_and!.
  - split; cbn; [|lia|intros p b g Hp Hin; by exists p, b]. intros Hw. split.
    + intros s. cbn. destruct (decide (s = t)) as [->|]; [rewrite lookup_alter_eq|rewrite lookup_alter_ne by done; apply Hw].
      rewrite fmap_is_Some. apply Hw.
    + intros s tb Hs Ht He. cbn. rewrite lookup_alter_ne by congruence. by eauto.
  - split; cbn; try done. intros s (tb & Hs & He). cbn in Hs. destruct (decide (s = t)) as [->|].
    + rewrite lookup_alter_eq in Hs. destruct (tcbs w !! t) as [tb0|]; [|done]. cbn in Hs. simplify_eq.
      by destruct (Hf tb0).
    + rewrite lookup_alter_ne in Hs by done. by exists tb.
  - intros (tb & Hs & He). cbn in Hs. rewrite lookup_alter_eq in Hs.
    destruct (tcbs w !! t) as [tb0|]; [|done]. cbn in Hs. simplify_eq. by destruct (Hf tb0).
Qed.

Lemma exit_step t code w e w' :
  exit_current_and_run_next t code w = Ok (e, w') ->
  world_step (Some t) w w' /\ calm w w' /\ ~ live w' t.
Proof.
  intros H. unfold exit_current_and_run_next in H.
  apply st_bind_inv in H as (tb & w1 & H1%plain_get_tcb & H). apply st_bind_inv in H as (b & w2 & H2%plain_get_pcb & H).
  apply st_bind_inv in H as (r & w3 & H3%(moves_of_option (R := eq_on skeleton)) & H).
  apply st_bind_inv in H as ([] & w4 & H4 & H). apply end_task_step in H4 as (S4 & C4 & L4); [|done].
  set (rest := on_proc_mem _ _ ;* _) in H.
  assert (steps (Some t) rest /\ calmly rest) as [Sr Cr].
  { destruct (exit_process_step (Some t) (process tb) code) as [E1 E2]. unfold rest. split; follow. }
  assert (eq_on skeleton w w3) as Hs by (transitivity w1; [done|]; transitivity w2; done).
  pose proof (Sr _ _ _ H) as S5. pose proof (Cr _ _ _ H) as C5. split_and!.
  - transitivity w3; [by apply skeleton_step|]. by transitivity w4.
  - transitivity w3; [by apply skeleton_calm|]. by transitivity w4.
  - intros Hl. by apply L4, (ca_live _ _ C5).
Qed.

(** ** New tasks *)

(** [t] is the one new task, last in the queue. *)
Record spawned (t : Z) (w w' : world) : Prop := {
  sp_task : t = next_tcb w;
  sp_ready : ready w' = ready w ++ [t];
  sp_live u : live w' u -> live w u \/ u = t;
  sp_new : live w' t;
}.

(** After [calm] steps the new task of [TaskControlBlock_new] is enqueued,
    before more of them. *)
Lemma new_task_run p base b w t w' :
  TaskControlBlock_new p base b w = Ok (t, w') ->
  (forall x, world_step x w w') /\ t = next_tcb w /\ ready w' = ready w /\
  (forall u, live w' u -> live w u \/ u = t) /\ live w' t.
Proof.
  intros H. unfold TaskControlBlock_new in H. apply st_bind_inv in H as (r & w1 & H1 & H).
  apply st_bind_inv in H as (ppn & w2 & H2 & H). apply st_bind_inv in H as (k & w3 & H3 & [= <- <-]).
  apply plain_on_proc_mem in H1, H2. apply plain_on_kernel in H3.
  assert (eq_on skeleton w w3) as Hs by (transitivity w1; [done|]; transitivity w2; done).
  pose proof (skeleton_calm _ _ Hs) as [Hr Hn Hl].
  split_and!; [|done|done| |].
  - intros x. transitivity w3; [by apply skeleton_step|]. split; cbn; [|lia|].
    + intros Hf. split.
      * intros u Hu. cbn in Hu |- *. destruct (decide (u = next_tcb w3)) as [->|]; [lia|].
        rewrite lookup_insert_ne in Hu by done. pose proof (Hf u Hu). lia.
      * intros u tb _ Hu He. cbn. rewrite lookup_insert_ne; [by eauto|]. intros <-.
        assert (next_tcb w3 < next_tcb w3) by (apply Hf; by eexists). lia.
    + intros q c g Hq Hin. by exists q, c.
  - intros u (tb & Hu & He). cbn in Hu. destruct (decide (u = next_tcb w3)) as [->|Hne]; [by right|left].
    rewrite lookup_insert_ne in Hu by done. apply Hl. by exists tb.
  - eexists. split; [cbn; apply lookup_insert_eq|done].
Qed.

(** The shape of [fork] and [thread_create]: the control block is made, then
    enqueued. *)
Lemma spawn_run w w1 w2 w3 w4 t p base b :
  world_step None w w1 -> calm w w1 -> TaskControlBlock_new p base b w1 = Ok (t, w2) ->
  eq_on skeleton w2 w3 -> world_step None (Process.set_ready (ready w3 ++ [t]) w3) w4 ->
  calm (Process.set_ready (ready w3 ++ [t]) w3) w4 -> fresh w ->
  world_step None w w4 /\ spawned (next_tcb w) w w4.
Proof.
  intros S1 [Cr Cn Cl] (S2 & -> & Hr & Hl & Hn)%new_task_run E3 S4 [Dr Dn Dl] Hf.
  assert (world_step None w3 (Process.set_ready (ready w3 ++ [next_tcb w1]) w3)) as S3.
  { split; cbn; [|lia|intros q c g Hq Hin; by exists q, c]. intros Hw. split; [done|].
    intros u tb _ Hu He. by exists tb. }
  assert (world_step None w w3) as S13 by (transitivity w1; [done|]; transitivity w2; [done|by apply skeleton_step]).
  assert (forall u, live w3 u <-> live w2 u) as Hsame by (intros u; unfold live; by injection E3 as -> _ _ _).
  assert (ready w3 = ready w2) as Hr3 by (by injection E3).
  split; [by transitivity w3; [|etransitivity]|]. rewrite <- Cn. split.
  - done.
  - rewrite Dr. cbn. by rewrite Hr3, Hr, Cr.
  - intros u Hu%Dl. destruct (Hl u) as [Hu'|Hu']; [by apply Hsame|left; by apply Cl|by right].
  - apply Hsame in Hn as (tb & Ht & He). destruct (ws_fresh _ _ _ S13 Hf) as [Hf3 _].
    destruct (ws_fresh _ _ _ S3 Hf3) as [Hf3' _]. destruct (ws_fresh _ _ _ S4 Hf3') as [_ K].
    destruct (K (next_tcb w1) tb) as (tb' & ? & ? & _); [done..|]. by exists tb'.
Qed.

(** Replace each plain step by what it keeps, and chain the steps. *)
Ltac plain_track :=
  repeat match goal with
  | E : ?m ?w = Ok (?a, ?w') |- _ =>
      lazymatch type of w with world => idtac end;
      let K := fresh "K" in assert (plain m) as K by (eauto 3 with moves); apply K in E; clear K
  end.
Ltac chain :=
  repeat lazymatch goal with
  | |- ?R ?a ?a => reflexivity
  | H : ?R ?a ?b |- ?R ?a _ => transitivity b; [exact H|]; clear H
  end; try reflexivity.

Lemma skeleton_fds w w' p b :
  eq_on skeleton w w' -> procs w !! p = Some b -> exists b', procs w' !! p = Some b' /\ fd_table b' = fd_table b.
Proof.
  unfold eq_on, skeleton. intros [= _ E _ _] Hp. apply (f_equal (fun m => m !! p)) in E.
  rewrite !lookup_fmap, Hp in E. destruct (procs w' !! p) as [b'|]; [|done]. exists b'. split; [done|]. cbn in E. congruence.
Qed.

Lemma sys_fork_step sym root prc p w pid w' :
  sys_fork sym root prc p w = Ok (pid, w') -> fresh w ->
  world_step None w w' /\ spawned (next_tcb w) w w'.
Proof.
  intros H Hf. unfold sys_fork, fork in H. inv_st.
  match goal with E : add_ready _ _ = _ |- _ => injection E as _ <- end.
  match goal with E : get_pcb p w = _ |- _ => apply get_pcb_run in E as [Hp ->] end. plain_track.
  assert (eq_on skeleton w s7) as Hw by chain.
  destruct (skeleton_fds _ _ _ _ Hw Hp) as (b' & Hp' & Eb). set (child := MkPcb _ _ _ _ _ _ _ _ _ _) in *.
  assert (fds_from s7 (set_procs (<[pid := child]> (procs s7)) s7)) as Hd.
  { intros q c g Hq Hin. cbn in Hq. apply lookup_insert_Some in Hq as [[<- <-]|[_ Hq]]; [|by eauto].
    exists p, b'. split; [done|]. by rewrite Eb. }
  assert (eq_on skeleton (set_procs (<[pid := child]> (procs s7)) s7) s11) as HA by chain.
  eapply (spawn_run w s11 _ s17); [| |eassumption|by chain| | |done].
  - transitivity s7; [by apply skeleton_step|]. etransitivity; [|by apply skeleton_step].
    split; cbn; [|lia|done]. intros Hf7. split; [done|]. intros u tb _ Hu He. by exists tb.
  - transitivity s7; [by apply skeleton_calm|]. etransitivity; [|by apply skeleton_calm]. done.
  - apply skeleton_step. chain.
  - apply skeleton_calm. chain.
Qed.

Lemma thread_create_step handler status t entry arg w r w' :
  sys_thread_create handler status t entry arg w = Ok (r, w') -> fresh w ->
  world_step None w w' /\ spawned (next_tcb w) w w'.
Proof.
  intros H Hf. unfold sys_thread_create in H.
  apply st_bind_inv in H as (tb & w1 & H1%plain_get_tcb & H). apply st_bind_inv in H as (b & w2 & H2%plain_get_pcb & H).
  apply st_bind_inv in H as (u & w3 & H3%(moves_of_option (R := eq_on skeleton)) & H).
  apply st_bind_inv in H as (n & w4 & H4 & H). apply st_bind_inv in H as ([] & w5 & [= <-] & H).
  match type of H with ?rest _ = _ => assert (steps None rest /\ calmly rest) as [S5 C5] end.
  { split; follow. all: first [apply (release_task_step None)|apply (release_all_step None)]. }
  assert (eq_on skeleton w w3) as Hs by (transitivity w1; [done|]; transitivity w2; done).
  eapply (spawn_run w w3 w4 w4); [by apply skeleton_step|by apply skeleton_calm|exact H4|done| | |done];
    [by eapply S5|by eapply C5].
Qed.

(** ** Other calls *)

Lemma exec_step x sym elf handler status prc p data args :
  steps x (exec sym elf handler status prc p data args) /\ calmly (exec sym elf handler status prc p data args).
Proof.
  pose proof (fun t r ppn => mod_tcb_step x t (fun tb => MkTcb (process tb) (kstack tb) (Some r) ppn (task_exit_code tb))
    (fun tb => conj eq_refl eq_refl)) as Hm.
  unfold exec, write_args. split; follow; apply Hm.
Qed.

Lemma drop_pcb_step x prc c : steps x (drop_pcb prc c) /\ calmly (drop_pcb prc c).
Proof.
  unfold drop_pcb. pose proof (fun l => release_all_step x l) as Hr.
  split; follow; try apply Hr.
  - intros w u w' H. inv_res. split; cbn; [|lia|].
    + intros Hf. split; [done|]. intros t tb _ Ht He. by exists tb.
    + intros p b f Hp Hin. cbn in Hp. apply lookup_delete_Some in Hp as [_ Hp]. by exists p, b.
  - intros w u w' H. inv_res. by split.
Qed.

Lemma waitpid_step x prc held p pid ptr :
  steps x (sys_waitpid prc held p pid ptr) /\ calmly (sys_waitpid prc held p pid ptr).
Proof. pose proof (drop_pcb_step x prc) as Hd. unfold sys_waitpid. split; follow; apply Hd. Qed.

Lemma waittid_step x t wtid : steps x (sys_waittid t wtid) /\ calmly (sys_waittid t wtid).
Proof. pose proof (release_task_step x) as Hd. unfold sys_waittid. split; follow; apply Hd. Qed.

Lemma plain_kill pid signal : plain (sys_kill pid signal).
Proof.
  intros w a w'. unfold sys_kill. repeat case_match; try (intros [= _ <-]; reflexivity).
  assert (plain (mod_pcb pid (fun b => with_signals (Z.lor (signals b) z) b) ;* ret 0)) as Hk by follow. apply Hk.
Qed.
Lemma plain_gettid t : plain (sys_gettid t).
Proof. unfold sys_gettid. follow. Qed.
Lemma plain_add_signal p s : plain (add_signal_to_current p s).
Proof. unfold add_signal_to_current. follow. Qed.
Lemma plain_check_signals p : plain (check_signals_error_of_current p).
Proof. unfold check_signals_error_of_current. follow. Qed.
#[export] Hint Resolve plain_kill plain_gettid plain_add_signal plain_check_signals : moves.
