(* ===== verification/IoSteps.v ===== *)
(** * Tasks and waiting calls across file calls

    What the calls of [FileCalls.v] do to the tasks and to the calls that
    wait: none makes or ends a task; a read or write that waits joins the
    waiting calls, one that goes on leaves them, and every other call keeps
    them. *)

From S2P Require Import Prelude Config Bytes BlockStore Efs Vfs Files.
From S2P Require Import StateMonad Address FrameAllocator PageTable MemorySet UserMemory TaskId Process ProcessSpec.
From S2P Require Import WorldSteps FileCalls FileTable.

(** ** The relation *)

Record quiet (s s' : io) : Prop := {
  qu_kept : fresh (base s) -> fresh (base s') /\ tasks_kept None (base s) (base s');
  qu_calm : calm (base s) (base s');
  qu_inv : io_inv s -> io_inv s';
}.

#[export] Instance quiet_preorder : PreOrder quiet.
Proof.
  split.
  - intros s. split; [|reflexivity|done]. intros Hf. split; [done|]. intros t tb _ Ht He. by exists tb.
  - intros s1 s2 s3 [K1 C1 I1] [K2 C2 I2]. split; [|by transitivity (base s2)|auto].
    intros Hf. destruct (K1 Hf) as [Hf2 T1]. destruct (K2 Hf2) as [Hf3 T2]. split; [done|].
    intros t tb Hx Ht He. destruct (T1 t tb Hx Ht He) as (tb2 & Ht2 & He2 & Hp2).
    destruct (T2 t tb2 Hx Ht2 He2) as (tb3 & Ht3 & He3 & Hp3). exists tb3. split_and!; congruence.
Qed.

Abbreviation quietly := (moves quiet).
Abbreviation waits_kept := (moves (eq_on FileCalls.waiting)).

(** Descriptors that come from others keep the invariant. *)
Lemma fds_from_inv s w : fds_from (base s) w -> io_inv s -> io_inv (set_base w s).
Proof.
  intros Hd [Hf Ht Hp Hr Hw]. split; try done. intros p b f Hb Hin. cbn in Hb.
  destruct (Hd p b f Hb Hin) as (q & c & Hq & Hc). by eapply Ht.
Qed.

Lemma on_base_Ok {A} (f : st world A) s a s' :
  on_base f s = Ok (a, s') <-> exists w, f (base s) = Ok (a, w) /\ s' = set_base w s.
Proof. unfold on_base. destruct (f (base s)) as [[]|]; cbn; naive_solver. Qed.

Lemma quiet_on_base {A} (f : st world A) : steps None f -> calmly f -> quietly (on_base f).
Proof.
  intros Hs Hc s a s' (w & H & ->)%on_base_Ok. destruct (Hs _ _ _ H) as [F _ D]. split; [done|by eapply Hc|].
  by apply fds_from_inv.
Qed.
Lemma waits_on_base {A} (f : st world A) : waits_kept (on_base f).
Proof. by intros s a s' (w & H & ->)%on_base_Ok. Qed.
#[export] Hint Resolve waits_on_base : moves.

(** ** Calls on files *)

(** The parts of the state that a call on files keeps: the tasks, and the
    calls that wait. *)
Definition tasks_part (s : io) := (tcbs (base s), ready (base s), next_tcb (base s)).
Definition kept_parts (s : io) := (tasks_part s, FileCalls.waiting s).
Abbreviation still := (moves (eq_on tasks_part)).
Abbreviation hushed := (moves (eq_on kept_parts)).

Lemma hushed_still {A} (f : st io A) : hushed f -> still f.
Proof. apply moves_weaken. unfold eq_on, kept_parts. congruence. Qed.
Lemma hushed_waits {A} (f : st io A) : hushed f -> waits_kept f.
Proof. apply moves_weaken. unfold eq_on, kept_parts. congruence. Qed.

Lemma still_quiet {A} (f : st io A) : still f -> FileTable.preserves f -> quietly f.
Proof.
  intros Hs Hp s a s' H. pose proof (Hp s a s' H) as Hi. apply Hs in H. unfold eq_on, tasks_part in H.
  injection H as Et Er En. split; [|split|done].
  - intros Hf. split; [intros t; rewrite Et, En; apply Hf|]. intros t tb _ Ht He. exists tb. by rewrite Et.
  - done.
  - done.
  - intros t. unfold live. by rewrite Et.
Qed.

Lemma hushed_on_base {A} (f : st world A) : plain f -> hushed (on_base f).
Proof.
  intros Hf s a s' (w & H%Hf & ->)%on_base_Ok. unfold eq_on, skeleton, kept_parts, tasks_part in *. cbn. congruence.
Qed.
Lemma hushed_put_fds p fds : hushed (put_fds p fds).
Proof. by intros s a s' (w & [= _ <-] & ->)%on_base_Ok. Qed.
Lemma hushed_new_file x : hushed (new_file x).
Proof. by intros s a s' [= _ <-]. Qed.

#[local] Hint Resolve hushed_put_fds hushed_new_file : moves.
#[local] Hint Extern 1 (moves (eq_on kept_parts) (on_base _)) => apply hushed_on_base; solve [eauto 3 with moves] : moves.
#[local] Hint Extern 1 (moves (eq_on kept_parts) (modify _)) => apply moves_modify; intros ?; reflexivity : moves.

Lemma hushed_on_disk {A} (f : prog A) : hushed (on_disk f).
Proof. unfold on_disk. follow. Qed.
Lemma hushed_fill bufs bs : hushed (fill_user bufs bs).
Proof. unfold fill_user. follow. Qed.
Lemma hushed_user_buffer b ptr len : hushed (user_buffer b ptr len).
Proof. unfold user_buffer. follow. Qed.
Lemma hushed_current p : hushed (current p).
Proof. unfold current. follow. Qed.
Lemma hushed_user_string n b ptr : hushed (user_string n b ptr).
Proof. unfold user_string. follow. Qed.
#[local] Hint Resolve hushed_on_disk hushed_fill hushed_user_buffer hushed_current hushed_user_string : moves.

Lemma hushed_print slices : hushed (print_slices slices).
Proof. induction slices; cbn [print_slices]; follow. Qed.
Lemma hushed_pipe_read f b bufs got : hushed (pipe_read_turn f b bufs got).
Proof. unfold pipe_read_turn. follow. Qed.
Lemma hushed_pipe_write f b bufs n : hushed (pipe_write_turn f b bufs n).
Proof. unfold pipe_write_turn. follow. Qed.
Lemma hushed_stdin f bufs : hushed (stdin_turn f bufs).
Proof. unfold stdin_turn. follow. Qed.
#[local] Hint Resolve hushed_print hushed_pipe_read hushed_pipe_write hushed_stdin : moves.
Lemma hushed_file_read f x bufs : hushed (file_read f x bufs).
Proof. unfold file_read. follow. Qed.
Lemma hushed_file_write f x bufs : hushed (file_write f x bufs).
Proof. unfold file_write. follow. Qed.
Lemma hushed_stat x : hushed (stat_of x).
Proof. unfold stat_of. follow. Qed.
#[local] Hint Resolve hushed_file_read hushed_file_write hushed_stat : moves.

Lemma preserves_call {A} (f : st io A) : FileTable.preserves (drop_result f) -> FileTable.preserves f.
Proof. intros Hf s a s' H. apply (Hf s tt). unfold drop_result. by rewrite (st_bind_Ok _ _ _ _ _ H). Qed.

Section calls.
Context (sym : symbols) (ElfFile_new : list u8 -> option ElfFile) (handler status : Z).
Context (root prc : Inode) (str_fuel file_fuel : nat) (padding : list u8).

(** The calls that never wait. *)
Lemma hushed_getcwd p buf len : hushed (sys_getcwd p buf len).
Proof. unfold sys_getcwd. follow. Qed.
Lemma hushed_dup p fd : hushed (sys_dup p fd).
Proof. unfold sys_dup. follow. Qed.
Lemma hushed_dup2 p fd fd' : hushed (sys_dup2 p fd fd').
Proof. unfold sys_dup2. follow. Qed.
Lemma hushed_close p fd : hushed (sys_close p fd).
Proof. unfold sys_close. follow. Qed.
Lemma hushed_chdir p path : hushed (sys_chdir root str_fuel p path).
Proof. unfold sys_chdir. follow. Qed.
Lemma hushed_mkdir p path : hushed (sys_mkdir root str_fuel p path).
Proof. unfold sys_mkdir. follow. Qed.
Lemma hushed_unlink p path flags : hushed (sys_unlink root str_fuel p path flags).
Proof. unfold sys_unlink. follow. Qed.
Lemma hushed_open p path flags : hushed (sys_open root str_fuel p path flags).
Proof. unfold sys_open. follow. Qed.
Lemma hushed_fstat p fd stat : hushed (sys_fstat padding p fd stat).
Proof. unfold sys_fstat. follow. Qed.
Lemma hushed_pipe p ptr : hushed (sys_pipe p ptr).
Proof. unfold sys_pipe. follow. Qed.

(** A call that waits is the last of the waiting calls. *)
Definition joined (r : io_outcome) : list FileCalls.pending := match r with Done _ => [] | Wait c => [c] end.

Lemma finish_waits r s a s' :
  finish r s = Ok (a, s') -> a = r /\ tasks_part s' = tasks_part s /\ FileCalls.waiting s' = FileCalls.waiting s ++ joined r.
Proof. destruct r; cbn [finish]; intros [= <- <-]; [|done]. cbn. by rewrite app_nil_r. Qed.

(** The end of a call that may wait. *)
Lemma finish_after (m : st io io_outcome) s a s' :
  hushed m -> (let* r := m in finish r) s = Ok (a, s') ->
  tasks_part s' = tasks_part s /\ FileCalls.waiting s' = FileCalls.waiting s ++ joined a.
Proof.
  intros Hm (r & s1 & H1%Hm & H)%st_bind_inv. apply finish_waits in H as (-> & Et & Ew).
  unfold eq_on, kept_parts in H1. apply pair_equal_spec in H1 as [E1 E2]. split; congruence.
Qed.

Lemma read_waits p fd buf len s a s' :
  sys_read p fd buf len s = Ok (a, s') ->
  tasks_part s' = tasks_part s /\ FileCalls.waiting s' = FileCalls.waiting s ++ joined a.
Proof.
  unfold sys_read. intros (b & s1 & (-> & _)%current_Ok & H)%st_bind_inv.
  destruct (lookup_fd b fd) as [f|]; [|injection H as <- <-; cbn; by rewrite app_nil_r].
  rewrite bind_get, bind_option in H. destruct (files s !! f) as [x|]; [|done].
  destruct (negb (is_readable x)); [injection H as <- <-; cbn; by rewrite app_nil_r|].
  apply st_bind_inv in H as (segs & s1 & (-> & _)%user_buffer_Ok & H). by eapply finish_after, H; follow.
Qed.
Lemma write_waits p fd buf len s a s' :
  sys_write p fd buf len s = Ok (a, s') ->
  tasks_part s' = tasks_part s /\ FileCalls.waiting s' = FileCalls.waiting s ++ joined a.
Proof.
  unfold sys_write. intros (b & s1 & (-> & _)%current_Ok & H)%st_bind_inv.
  destruct (lookup_fd b fd) as [f|]; [|injection H as <- <-; cbn; by rewrite app_nil_r].
  rewrite bind_get, bind_option in H. destruct (files s !! f) as [x|]; [|done].
  destruct (negb (is_writable x)); [injection H as <- <-; cbn; by rewrite app_nil_r|].
  apply st_bind_inv in H as (segs & s1 & (-> & _)%user_buffer_Ok & H). by eapply finish_after, H; follow.
Qed.

(** The call that goes on leaves the waiting calls, and may join them again. *)
Lemma resume_waits i s a s' :
  resume i s = Ok (a, s') ->
  tasks_part s' = tasks_part s /\
  FileCalls.waiting s' = delete i (FileCalls.waiting s) ++ joined a.
Proof.
  unfold resume. rewrite bind_get, bind_option. destruct (FileCalls.waiting s !! i) as [c|]; [|done]. rewrite bind_modify.
  intros H. eapply (finish_after _ (set_waiting (delete i (FileCalls.waiting s)) s)) in H; [done|]. destruct c; follow.
Qed.

Lemma exec_quiet p path args :
  quietly (sys_exec sym ElfFile_new handler status root prc str_fuel file_fuel p path args) /\
  waits_kept (sys_exec sym ElfFile_new handler status root prc str_fuel file_fuel p path args).
Proof.
  assert (forall A (f : st io A), hushed f -> FileTable.keeps f -> quietly f) as Hq.
  { intros A f Hf Hk. apply still_quiet; [by apply hushed_still|by apply keeps_preserves]. }
  assert (forall data l, quietly (on_base (exec sym ElfFile_new handler status prc p data l))) as He.
  { intros data l. by apply quiet_on_base; apply (exec_step None). }
  assert (forall n b q, quietly (user_string n b q)) as Hu.
  { intros. apply Hq; [follow|apply keeps_user_string]. }
  assert (forall A (f : prog A), quietly (on_disk f)) as Hd.
  { intros. apply Hq; [follow|apply keeps_on_disk]. }
  assert (quietly (current p)) as Hc by (apply Hq; [follow|apply keeps_current]).
  unfold sys_exec. split; follow; by apply hushed_waits; follow.
Qed.
End calls.
