(* ===== verification/Machine.v ===== *)
(** * The machine

    The trap handlers of [kernel/src/trap/mod.rs], the loop of [run_tasks],
    and the system calls behind [kernel/src/syscall/mod.rs], over one state:
    the processes with their memory, files and disk ([FileCalls.v]), the
    mutexes, semaphores and condition variables of processes ([SyncCalls.v]),
    the scheduler ([Scheduler.v]) and the input devices.  An event is what
    makes the kernel run: a trap of the current task, a round of [run_tasks],
    an interrupt while the kernel runs.  Between events a task is in user mode,
    or it has given up the processor inside the kernel; in the second case the
    state keeps what it goes on with, which in the kernel is its stack. *)

From S2P Require Import Prelude Config Bytes BlockStore Efs Vfs Files.
From S2P Require Import StateMonad Address FrameAllocator PageTable MemorySet UserMemory.
From S2P Require Import Scheduler SchedulerSpec TaskId InputDevice SyncCalls Process FileCalls Syscall.

(** ** State *)

(** What a task that gave up the processor inside the kernel goes on with:
    its system call returns; it locks a mutex and the call returns; it reads
    or writes further; the timer trap that took the processor from it ends. *)
Inductive cont :=
  | KReturn (code : Z)
  | KLock (m : nat)
  | KIo (c : pending)
  | KTrap.

(** [m_lists] are the lists of synchronization objects of processes,
    [m_channels] is the map [condvars] of [BLOCK_DEVICE], from the channels of
    the disk to their condition variables, [m_keyboard] and [m_mouse] are the
    queues of events; [m_halted] is set by [shutdown].  The queue of bytes of the serial line is in [m_io]. *)
Record machine := MkMachine {
  m_io : io;
  m_lists : gmap Z sync_lists;
  m_sched : kernel;
  m_conts : gmap Z cont;
  m_channels : gmap Z nat;
  m_keyboard : list Z;
  m_mouse : list Z;
  m_halted : option bool;
}.

Definition set_io (s : io) (m : machine) : machine :=
  MkMachine s (m_lists m) (m_sched m) (m_conts m) (m_channels m) (m_keyboard m) (m_mouse m) (m_halted m).
Definition set_objects (l : gmap Z sync_lists) (m : machine) : machine :=
  MkMachine (m_io m) l (m_sched m) (m_conts m) (m_channels m) (m_keyboard m) (m_mouse m) (m_halted m).
Definition set_kernel (k : kernel) (m : machine) : machine :=
  MkMachine (m_io m) (m_lists m) k (m_conts m) (m_channels m) (m_keyboard m) (m_mouse m) (m_halted m).
Definition set_conts (c : gmap Z cont) (m : machine) : machine :=
  MkMachine (m_io m) (m_lists m) (m_sched m) c (m_channels m) (m_keyboard m) (m_mouse m) (m_halted m).
Definition set_events (kb ms : list Z) (m : machine) : machine :=
  MkMachine (m_io m) (m_lists m) (m_sched m) (m_conts m) (m_channels m) kb ms (m_halted m).
Definition halt (failure : bool) (m : machine) : machine :=
  MkMachine (m_io m) (m_lists m) (m_sched m) (m_conts m) (m_channels m) (m_keyboard m) (m_mouse m) (Some failure).

Definition world_of (m : machine) : world := base (m_io m).

(** Operations of a part.  A task that an operation on processes makes is
    ready: [manager::add] put it in the queue. *)
Definition on_kernel {A} (f : st kernel A) : st machine A := fun m =>
  let? (a, k) := f (m_sched m) in Ok (a, set_kernel k m).
Definition on_io {A} (f : st io A) : st machine A := fun m =>
  let? (a, s) := f (m_io m) in
  let? (_, k) := iter_st wakeup (ready (base s)) (m_sched m) in
  Ok (a, set_io (set_base (Process.set_ready [] (base s)) s) (set_kernel k m)).
Definition on_world {A} (f : st world A) : st machine A := on_io (on_base f).
Definition sync_view (m : machine) : sync_world :=
  MkSync (m_lists m) (process <$> tcbs (world_of m)) (m_sched m).
Definition on_sync {A} (f : st sync_world A) : st machine A := fun m =>
  let? (a, w) := f (sync_view m) in Ok (a, set_objects (lists w) (set_kernel (sched w) m)).

Definition set_cont (t : Z) (k : cont) : st machine () := modify (fun m => set_conts (<[t := k]> (m_conts m)) m).
Definition del_cont (t : Z) : st machine () := modify (fun m => set_conts (delete t (m_conts m)) m).

(** [current_tcb().unwrap()], and the control block of a task *)
Definition running : st machine Z := let* m := get in of_option (processor (m_sched m)).
Definition tcb_of (t : Z) : st machine tcb := on_world (get_tcb t).

(** The reads and writes of threads of process [c] that wait: each holds a
    reference to the process. *)
Definition waits_for_file (m : machine) (c : Z) (x : Z * cont) : bool :=
  match x.2, tcbs (world_of m) !! x.1 with
  | KIo _, Some tb => process tb =? c
  | _, _ => false
  end.
Definition held_by_calls (m : machine) (c : Z) : nat :=
  length (List.filter (waits_for_file m c) (map_to_list (m_conts m))).

(** ** The trap context *)

Definition SEPC : nat := 33.

(** [trap_cx().x[i]] and the like: the [i]-th word of the page. *)
Definition cx_word (m : mm) (ppn : PhysPageNum) (i : nat) : Z := default 0 (page_at m ppn !! i).

(** The condition variables the devices are made with; those of the channels
    of the disk follow. *)
Definition UART_CONDVAR : nat := 0.
Definition KEYBOARD_CONDVAR : nat := 1.
Definition MOUSE_CONDVAR : nat := 2.
Definition DISK_CONDVARS : nat := 3.

(** ** Interrupts *)

(** An interrupt with what its device has to report; the disk reports the
    channels whose requests are done. *)
Inductive irq :=
  | IKeyboard (es : list InputEvent)
  | IMouse (es : list InputEvent)
  | IDisk (tokens : list Z)
  | ISerial (bs : list u8)
  | INone.

Definition signal_if {X} (l : list X) (c : nat) : st machine () :=
  match l with [] => ret tt | _ :: _ => on_kernel (condvar_signal c) end.

(** One turn of the loop of [VirtIOBlock::handle_irq] *)
Definition disk_done (token : Z) : st machine () :=
  let* m := get in
  let* c := of_option (m_channels m !! token) in
  on_kernel (condvar_signal c).

(** [board::irq_handler] with the handlers of the devices *)
Definition board_irq (i : irq) : st machine () :=
  match i with
  | IKeyboard es =>
      modify (fun m => set_events (m_keyboard m ++ (pack <$> es)) (m_mouse m) m) ;* signal_if es KEYBOARD_CONDVAR
  | IMouse es =>
      modify (fun m => set_events (m_keyboard m) (m_mouse m ++ (pack <$> es)) m) ;* signal_if es MOUSE_CONDVAR
  | IDisk tokens => iter_st disk_done tokens
  | ISerial bs =>
      modify (fun m => set_io (set_received (received (m_io m) ++ bs) (m_io m)) m) ;* signal_if bs UART_CONDVAR
  | INone => panic ExplicitPanic
  end.

(** ** System calls *)

(** How a call ends for now: it returns, the task gave up the processor, the
    task is gone. *)
Inductive call_outcome := Back (r : Z) | Parked (k : cont) | Ended.

(** [exit_current_and_run_next] *)
Definition exit_task (t code : Z) : st machine () :=
  on_kernel exit_current ;*
  let* e := on_world (exit_current_and_run_next t code) in
  match e with
  | Shutdown failure => modify (halt failure)
  | Scheduled => ret tt
  end.

(** A read or write that waits: [Pipe] yields, [UART.read] waits for the
    interrupt. *)
Definition io_result (r : io_outcome) : st machine call_outcome :=
  match r with
  | Done n => ret (Back n)
  | Wait c =>
      on_kernel match c with PStdin _ _ => condvar_wait_no_sched UART_CONDVAR | _ => suspend_current end ;*
      ret (Parked (KIo c))
  end.

Definition sync_result (o : outcome) : call_outcome :=
  match o with
  | Return r => Back r
  | ReturnLater r => Parked (KReturn r)
  | LockLater m => Parked (KLock m)
  end.

(** A call with a result. *)
Definition back (f : st machine Z) : st machine call_outcome := let* r := f in ret (Back r).
Definition by_sync (f : st sync_world outcome) : st machine call_outcome :=
  let* o := on_sync f in ret (sync_result o).

Definition FB_VADDR : Z := 0x10000000.

Section handlers.
Context (sym : symbols) (ElfFile_new : list u8 -> option ElfFile) (handler status : Z).
Context (ROOT_INODE PROC_INODE : Inode) (str_fuel file_fuel : nat) (padding : list u8).
(** The frame buffer the graphics device set up: its address and length. *)
Context (fb_ptr fb_len : Z).

(** [sys_framebuffer] *)
Definition sys_framebuffer (p : Z) : st world Z :=
  let fb_start_pa := PhysAddr_from fb_ptr in
  check (page_offset fb_start_pa =? 0) ;*
  let pn_offset := page_floor fb_start_pa - page_floor (VirtAddr_from FB_VADDR) in
  let* b := get_pcb p in
  let* area := of_res (MapArea_new (VirtAddr_from FB_VADDR) (VirtAddr_from (w64 (FB_VADDR + fb_len)))
    (Linear pn_offset) (Z.lor (Z.lor MapPermission_R MapPermission_W) MapPermission_U)) in
  let* ms := on_mm (push (pcb_memory_set b) area None) in
  mod_pcb p (fun b => with_memory (pcb_task_res_allocator b) ms b) ;*
  ret FB_VADDR.

(** [sys_exit], [sys_yield], [sys_get_time], [sys_getpid],
    [sys_framebuffer_flush] (what the device shows is not in the model) *)
Definition sys_exit (t code : Z) : st machine call_outcome := exit_task t code ;* ret Ended.
Definition sys_yield : st machine call_outcome := on_kernel suspend_current ;* ret (Parked (KReturn 0)).
Definition sys_get_time (now : Z) : Z := i64 (get_time_ms now).
Definition sys_getpid (p : Z) : Z := p.
Definition sys_framebuffer_flush : Z := 0.

(** [sys_fork], [sys_waitpid]: a process is made with empty lists of objects,
    and takes them with it when it is reaped. *)
Definition fork_call (p : Z) : st machine Z :=
  let* pid := on_world (sys_fork sym ROOT_INODE PROC_INODE p) in
  modify (fun m => set_objects (<[pid := MkLists [] [] []]> (m_lists m)) m) ;*
  ret pid.
Definition waitpid_call (p pid ptr : Z) : st machine Z :=
  let* m := get in
  let* r := on_world (sys_waitpid PROC_INODE (held_by_calls m) p pid ptr) in
  (if 0 <=? r then modify (fun m => set_objects (delete r (m_lists m)) m) else ret tt) ;*
  ret r.

(** The call that [syscall] selects, made by task [t] of process [p] at time
    [now]. *)
Definition do_call (now t p : Z) (c : Call) : st machine call_outcome :=
  match c with
  | Getcwd buf len => back (on_io (FileCalls.sys_getcwd p buf len))
  | Dup fd => back (on_io (FileCalls.sys_dup p fd))
  | Dup2 fd fd' => back (on_io (FileCalls.sys_dup2 p fd fd'))
  | Mkdir path => back (on_io (FileCalls.sys_mkdir ROOT_INODE str_fuel p path))
  | Unlink path flags => back (on_io (FileCalls.sys_unlink ROOT_INODE str_fuel p path flags))
  | Chdir path => back (on_io (FileCalls.sys_chdir ROOT_INODE str_fuel p path))
  | Open path flags => back (on_io (FileCalls.sys_open ROOT_INODE str_fuel p path flags))
  | Close fd => back (on_io (FileCalls.sys_close p fd))
  | PipeCall ptr => back (on_io (FileCalls.sys_pipe p ptr))
  | ReadCall fd buf len => let* r := on_io (sys_read p fd buf len) in io_result r
  | WriteCall fd buf len => let* r := on_io (sys_write p fd buf len) in io_result r
  | Fstat fd stat => back (on_io (sys_fstat padding p fd stat))
  | Exit code => sys_exit t code
  | Sleep ms => on_kernel (sys_sleep (get_time_ms now) ms) ;* ret (Parked (KReturn 0))
  | Yield => sys_yield
  | Kill pid signal => back (on_world (sys_kill pid signal))
  | GetTime => ret (Back (sys_get_time now))
  | Getpid => ret (Back (sys_getpid p))
  | Fork => back (fork_call p)
  | Exec path args =>
      back (on_io (sys_exec sym ElfFile_new handler status ROOT_INODE PROC_INODE str_fuel file_fuel p path args))
  | Waitpid pid ptr => back (waitpid_call p pid ptr)
  | ThreadCreate entry arg => back (on_world (sys_thread_create handler status t entry arg))
  | Gettid => back (on_world (sys_gettid t))
  | Waittid tid => back (on_world (sys_waittid t tid))
  | MutexCreate b => by_sync (sys_mutex_create b)
  | MutexLock id => by_sync (sys_mutex_lock (Z.to_nat id))
  | MutexUnlock id => by_sync (sys_mutex_unlock (Z.to_nat id))
  | SemaphoreCreate n => by_sync (sys_semaphore_create n)
  | SemaphoreUp id => by_sync (sys_semaphore_up (Z.to_nat id))
  | SemaphoreDown id => by_sync (sys_semaphore_down (Z.to_nat id))
  | CondvarCreate => by_sync sys_condvar_create
  | CondvarSignal id => by_sync (sys_condvar_signal (Z.to_nat id))
  | CondvarWait id m => by_sync (sys_condvar_wait (Z.to_nat id) (Z.to_nat m))
  | Framebuffer => back (on_world (sys_framebuffer p))
  | FramebufferFlush => ret (Back sys_framebuffer_flush)
  | EventGet => fun m =>
      let '(v, (kb, ms)) := sys_event_get (m_keyboard m) (m_mouse m) in Ok (Back v, set_events kb ms m)
  | KeyPressed => let* m := get in ret (Back (sys_key_pressed (byte.unsigned <$> received (m_io m))))
  end.

(** ** Traps *)

(** [leave]: the task needs its user resources and its process. *)
Definition leave (t : Z) : st machine () :=
  let* tb := tcb_of t in
  let* _ := of_option (res_ tb) in
  let* _ := on_world (get_pcb (process tb)) in
  ret tt.

(** The end of [user_handler]: signals, and back to user mode. *)
Definition end_trap (t : Z) : st machine () :=
  let* tb := tcb_of t in
  let* e := on_world (check_signals_error_of_current (process tb)) in
  match e with
  | Some errno => exit_task t errno
  | None => leave t
  end.

(** [cx = current_trap_cx(); cx.x[10] = result as usize] *)
Definition call_return (t r : Z) : st machine () :=
  let* tb := tcb_of t in
  on_world (mod_mm (store_word (tcb_trap_cx_ppn tb) 10 (w64 r))) ;*
  end_trap t.

Definition settle (t : Z) (o : call_outcome) : st machine () :=
  match o with
  | Back r => call_return t r
  | Parked k => set_cont t k
  | Ended => ret tt
  end.

Inductive cause := EnvCall | AccessFault | IllegalInstruction | TimerIrq | ExternalIrq (i : irq) | OtherTrap.

(** [timer::check_timer], after [set_next_trigger] *)
Definition timer_irq (now : Z) : st machine () := on_kernel (check_timer (get_time_ms now)).

(** [user_handler] *)
Definition user_handler (now : Z) (c : cause) : st machine () :=
  let* t := running in
  let* tb := tcb_of t in
  let ppn := tcb_trap_cx_ppn tb in
  match c with
  | EnvCall =>
      on_world (mod_mm (fun m => store_word ppn SEPC (w64 (cx_word m ppn SEPC + 4)) m)) ;*
      let* m := get in
      let x i := cx_word (w_mm (world_of m)) ppn i in
      let* c := of_res (syscall (x 17%nat) (x 10%nat, x 11%nat, x 12%nat)) in
      let* o := do_call now t (process tb) c in
      settle t o
  | AccessFault => on_world (add_signal_to_current (process tb) SIGSEGV) ;* end_trap t
  | IllegalInstruction => on_world (add_signal_to_current (process tb) SIGILL) ;* end_trap t
  | TimerIrq => timer_irq now ;* on_kernel suspend_current ;* set_cont t KTrap
  | ExternalIrq i => board_irq i ;* end_trap t
  | OtherTrap => panic ExplicitPanic
  end.

(** [kernel_handler] *)
Definition kernel_handler (now : Z) (c : cause) : st machine () :=
  match c with
  | ExternalIrq i => board_irq i
  | TimerIrq => timer_irq now
  | _ => panic ExplicitPanic
  end.

(** ** The processor *)

#[global] Instance segment_eq_dec : EqDecision segment.
Proof. solve_decision. Defined.
#[global] Instance pending_eq_dec : EqDecision pending.
Proof. solve_decision. Defined.

(** Where a call is among those that wait. *)
Fixpoint position (c : pending) (l : list pending) : option nat :=
  match l with
  | [] => None
  | d :: l => if bool_decide (c = d) then Some O else S <$> position c l
  end.

(** The task goes on where it gave up the processor. *)
Definition go_on (t : Z) (k : cont) : st machine () :=
  match k with
  | KReturn r => call_return t r
  | KLock m =>
      let* o := on_sync (lock_outcome m) in
      settle t (sync_result o)
  | KIo c =>
      let* m := get in
      let* i := of_option (position c (waiting (m_io m))) in
      let* r := on_io (resume i) in
      let* o := io_result r in
      settle t o
  | KTrap => end_trap t
  end.

(** A round of [run_tasks] and what the task does until it is in user mode or
    gives up the processor; a new task starts in [leave]. *)
Definition run_next : st machine () :=
  let* o := on_kernel run_tasks_once in
  match o with
  | None => ret tt
  | Some t =>
      let* m := get in
      match m_conts m !! t with
      | None => leave t
      | Some k => del_cont t ;* go_on t k
      end
  end.

(** ** User mode *)

(** [__alltraps]: the registers but [x0] and [tp], and the two control
    registers, go to the trap context. *)
Definition save_context (ppn : PhysPageNum) (regs : list Z) (sst pc : Z) (m : mm) : mm :=
  let old := page_at m ppn in
  let r i := default 0 (regs !! i) in
  let keep i := default 0 (old !! i) in
  set_page ppn (splice 0
    ([keep 0%nat; r 1%nat; r 2%nat; r 3%nat; keep 4%nat] ++ (r <$> seq 5 27) ++ [sst; pc]) old) m.

(** A store of the program: it takes effect where its page table lets a user
    write. *)
Definition user_store (token : Z) (store : Z * u8) (m : mm) : mm :=
  let '(va, b) := store in
  match PageTable_translate m (PageTable_from_token token) (page_floor (VirtAddr_from va)) with
  | Some pte =>
      if Z.land (PTE_flags pte) (Z.lor PTE_U PTE_W) =? Z.lor PTE_U PTE_W
      then write_bytes (PTE_ppn pte) (Z.to_nat (page_offset va)) [b] m
      else m
  | None => m
  end.

(** The program runs until its next trap. *)
Definition user_run (regs : list Z) (sst pc : Z) (stores : list (Z * u8)) : st machine () :=
  let* t := running in
  let* tb := tcb_of t in
  let* b := on_world (get_pcb (process tb)) in
  on_world (mod_mm (fun m => foldl (fun m s => user_store (user_token b) s m) m stores)) ;*
  on_world (mod_mm (save_context (tcb_trap_cx_ppn tb) regs sst pc)).

(** ** Events *)

Inductive event :=
  | EUser (regs : list Z) (sst pc : Z) (stores : list (Z * u8))
  | ETrap (now : Z) (c : cause)
  | ERun
  | EKernelTrap (now : Z) (c : cause).

Definition handle (e : event) : st machine () :=
  let* m := get in
  check (bool_decide (m_halted m = None)) ;*
  match e with
  | EUser regs sst pc stores => user_run regs sst pc stores
  | ETrap now c => user_handler now c
  | ERun => check (bool_decide (processor (m_sched m) = None)) ;* run_next
  | EKernelTrap now c => kernel_handler now c
  end.

Definition run_events : list event -> st machine () := iter_st handle.

(** ** Boot *)

(** The machine before [task::init]: the devices have their condition
    variables, and the three standard streams will be the files 0, 1 and 2. *)
Definition power_on (channels : nat) (k : kstacks) (d : disk) : machine :=
  MkMachine
    (MkIO (MkWorld ∅ ∅ 0 ∅ RecycleAllocator_new [] k d)
       (<[0 := FStdin]> (<[1 := FStdout]> (<[2 := FStdout]> ∅))) 3 ∅ [] [] [])
    ∅ (MkKernel ∅ [] None [] [] (replicate (DISK_CONDVARS + channels) (MkCond [])) []) ∅
    (list_to_map ((fun i => (Z.of_nat i, (DISK_CONDVARS + i)%nat)) <$> seq 0 channels)) [] [] None.

(** [task::init]: the first process, of the program [/bin/daemon] *)
Definition task_init (elf_data : list u8) : st machine () :=
  let* pid := on_world (ProcessControlBlock_new sym ElfFile_new handler status elf_data) in
  modify (fun m => set_objects (<[pid := MkLists [] [] []]> (m_lists m)) m).
End handlers.
