(* ===== verification/MachineSpec.v ===== *)
(** * Properties of the machine

    The parts of the machine agree in every run: the scheduler schedules the
    tasks that have not ended and no others, a call that waits belongs to one
    task that gave up the processor inside it, and the invariants of the
    scheduler, of the names of synchronization objects and of the open files
    hold.  The ready queue is fair, and the timer takes the processor from
    every task. *)

From S2P Require Import Prelude Config Bytes BlockStore Efs Vfs Files.
From S2P Require Import StateMonad Address FrameAllocator PageTable MemorySet MemorySetSpec UserMemory.
From S2P Require Import Scheduler SchedulerSpec TaskId InputDevice SyncCalls SchedulerRuns.
From S2P Require Import Process ProcessSpec WorldSteps FileCalls FileTable IoSteps Syscall Machine.

(** ** The invariant *)

(** The reads and writes among the tasks that wait inside the kernel. *)
Definition pend (k : cont) : list FileCalls.pending := match k with KIo c => [c] | _ => [] end.
Definition pendings (cs : gmap Z cont) : list FileCalls.pending := (map_to_list cs).*2 ≫= pend.

(** [extra] are waiting calls no task is kept with yet: a handler is between
    the two steps that put a call aside. *)
Record minv (extra : list FileCalls.pending) (m : machine) : Prop := {
  mi_sched : k_inv (m_sched m);
  mi_names : sync_inv (sync_view m);
  mi_files : io_inv (m_io m);
  mi_fresh : fresh (world_of m);
  mi_live t : t ∈ tasks_of (m_sched m) <-> live (world_of m) t;
  mi_ready : ready (world_of m) = [];
  mi_devices : (3 <= length (condvars (m_sched m)))%nat;
  mi_conts t : is_Some (m_conts m !! t) -> live (world_of m) t;
  mi_calls : FileCalls.waiting (m_io m) ≡ₚ extra ++ pendings (m_conts m);
}.

(** A task on the processor is in user mode: it is in the middle of no call. *)
Definition in_user (m : machine) : Prop := forall t, processor (m_sched m) = Some t -> m_conts m !! t = None.

(** What a part of a handler that keeps the current task does. *)
Record stayed (e : list FileCalls.pending) (m m' : machine) : Prop := {
  sd_inv : minv e m';
  sd_proc : processor (m_sched m') = processor (m_sched m);
  sd_conts : m_conts m' = m_conts m;
}.
Definition stable (e : list FileCalls.pending) (m m' : machine) : Prop := minv e m -> stayed e m m'.

#[export] Instance stable_preorder e : PreOrder (stable e).
Proof.
  split; [intros m Hm; by split|]. intros m1 m2 m3 H1 H2 Hm. destruct (H1 Hm) as [I1 P1 C1].
  destruct (H2 I1) as [I2 P2 C2]. split; [done|congruence..].
Qed.

(** ** Names *)

Lemma names_sub sel n n' w w' :
  (forall p i x, names sel w' p i x -> names sel w p i x) -> (n <= n')%nat -> names_ok sel n w -> names_ok sel n' w'.
Proof. intros Hs Hn [Hb Ho]. split; [intros p i x H%Hs%Hb; lia|by eauto]. Qed.

Lemma sync_inv_sub w w' :
  (forall sel p i x, sel (MkLists [] [] []) = [] -> names sel w' p i x -> names sel w p i x) ->
  (length (mutexes (sched w)) <= length (mutexes (sched w')))%nat ->
  (length (semaphores (sched w)) <= length (semaphores (sched w')))%nat ->
  (length (condvars (sched w)) <= length (condvars (sched w')))%nat ->
  sync_inv w -> sync_inv w'.
Proof. intros Hs Hm Hse Hc [H1 H2 H3]. split; (eapply (names_sub _ _ _ w); [by intros; apply Hs| |done]; done). Qed.

(** ** Steps of the parts *)

Lemma on_kernel_Ok {A} (f : st kernel A) m a m' :
  Machine.on_kernel f m = Ok (a, m') <-> exists k, f (m_sched m) = Ok (a, k) /\ m' = set_kernel k m.
Proof. unfold Machine.on_kernel. destruct (f (m_sched m)) as [[]|]; cbn; naive_solver. Qed.

(** A step of the scheduler that keeps its tasks. *)
Lemma settled_inv e m k : settled (m_sched m) k -> minv e m -> minv e (set_kernel k m).
Proof.
  intros [Hk Ht Hm Hs Hc] []. split; try done.
  - by eapply (sync_inv_sub (sync_view m)).
  - intros t. cbn [set_kernel m_sched]. rewrite Ht. apply mi_live0.
  - cbn. lia.
Qed.

Lemma stable_kernel {A} e (f : st kernel A) :
  moves settles f -> moves (eq_on processor) f -> moves (stable e) (Machine.on_kernel f).
Proof.
  intros Hf Hp m a m' (k & H & ->)%on_kernel_Ok Hm. split; [|by eapply Hp|done].
  apply settled_inv; [|done]. eapply Hf; [done|]. apply Hm.
Qed.

Lemma kernel_inv {A} e (f : st kernel A) m a m' :
  moves settles f -> Machine.on_kernel f m = Ok (a, m') -> minv e m ->
  minv e m' /\ m_conts m' = m_conts m /\ m_io m' = m_io m.
Proof.
  intros Hf (k & H & ->)%on_kernel_Ok Hm. split_and!; [|done|done]. apply settled_inv; [|done]. eapply Hf; [done|]. apply Hm.
Qed.

Lemma signal_settles c : moves settles (condvar_signal c).
Proof. by apply (exec_settles (OSignal c)). Qed.
Lemma timer_settles now : moves settles (check_timer now).
Proof. by apply (exec_settles (OTimer now)). Qed.
Lemma suspend_settles : moves settles suspend_current.
Proof. by apply (exec_settles OYield). Qed.
Lemma wait_settles c : moves settles (condvar_wait_no_sched c).
Proof. by apply (exec_settles (OWaitIrq c)). Qed.
Lemma sleep_settles now ms : moves settles (sys_sleep now ms).
Proof. by apply (exec_settles (OSleep now ms)). Qed.

#[local] Hint Resolve stable_kernel signal_settles timer_settles suspend_settles wait_settles sleep_settles
  signal_stays timer_stays : moves.

(** *** Processes and files *)

(** The state with the new tasks taken into the scheduler. *)
Definition taken (s : io) : io := set_base (Process.set_ready [] (base s)) s.

Lemma on_io_Ok {A} (f : st io A) m a m' :
  on_io f m = Ok (a, m') <->
  exists s k, f (m_io m) = Ok (a, s) /\ iter_st wakeup (ready (base s)) (m_sched m) = Ok (tt, k) /\
    m' = set_io (taken s) (set_kernel k m).
Proof.
  unfold on_io, taken. split.
  - intros ([b s] & E & H)%res_bind_Ok. apply res_bind_Ok in H as ([[] k] & Ek & H). injection H as <- <-. by exists s, k.
  - intros (s & k & -> & Hk & ->). cbn [res_bind]. by rewrite Hk.
Qed.

Lemma taken_inv s : io_inv s -> io_inv (taken s).
Proof. apply fds_from_inv. intros p b f Hp Hin. by exists p, b. Qed.

(** A live task stays live. *)
Lemma kept_live w w' t : fresh w -> (fresh w -> fresh w' /\ tasks_kept None w w') -> live w t -> live w' t.
Proof. intros Hf Hk (tb & Ht & He). destruct (Hk Hf) as [_ K]. destruct (K t tb) as (tb' & ? & ? & _); [done..|]. by exists tb'. Qed.

(** A step of files and processes that makes no task. *)
Lemma quiet_inv e e' m s :
  minv e m -> quiet (m_io m) s -> FileCalls.waiting s ≡ₚ e' ++ pendings (m_conts m) ->
  ready (base s) = [] /\ minv e' (set_io (taken s) (set_kernel (m_sched m) m)).
Proof.
  intros Hm [Hk [Hr Hn Hl] Hi] Hw. destruct (Hk (mi_fresh _ _ Hm)) as [Hf K]. pose proof (mi_ready _ _ Hm) as Hr0.
  split; [by rewrite Hr|]. pose proof (fun t => kept_live _ _ t (mi_fresh _ _ Hm) Hk) as Hlive.
  destruct Hm. split; cbn; try done.
  - by eapply (sync_inv_sub (sync_view m)).
  - by apply taken_inv, Hi.
  - intros t. rewrite mi_live0. split; [apply Hlive|]. intros Ht. apply Hl, Ht.
  - intros t Ht. by apply Hlive, mi_conts0.
Qed.

Lemma stable_io {A} e (f : st io A) : quietly f -> waits_kept f -> moves (stable e) (on_io f).
Proof.
  intros Hq Hw m a m' (s & k & H & Hwk & ->)%on_io_Ok Hm. pose proof (Hq _ _ _ H) as Hs. apply Hw in H.
  destruct (quiet_inv e e m s Hm Hs) as [Hr Hi]; [by rewrite H; apply Hm|].
  rewrite Hr in Hwk. injection Hwk as <-. by split.
Qed.

Lemma stable_hushed {A} e (f : st io A) : hushed f -> FileTable.preserves f -> moves (stable e) (on_io f).
Proof. intros Hh Hp. apply stable_io; [by apply still_quiet; [apply hushed_still|]|by apply hushed_waits]. Qed.

Lemma stable_world {A} e (f : st world A) : steps None f -> calmly f -> moves (stable e) (on_world f).
Proof. intros Hs Hc. apply stable_io; [by apply quiet_on_base|apply waits_on_base]. Qed.

Lemma stable_plain {A} e (f : st world A) : plain f -> moves (stable e) (on_world f).
Proof. intros Hf. apply stable_world; [by apply plain_steps|by apply plain_calmly]. Qed.

#[local] Hint Extern 2 (moves (stable _) (on_world _)) => apply stable_plain; solve [eauto 3 with moves] : moves.

(** A step that makes one task. *)
Lemma stable_spawn {A} e (f : st world A) :
  (forall w a w', f w = Ok (a, w') -> fresh w -> world_step None w w' /\ spawned (next_tcb w) w w') ->
  moves (stable e) (on_world f).
Proof.
  intros Hf m a m' (s & k & (w & H & ->)%on_base_Ok & Hwk & ->)%on_io_Ok Hm. pose proof Hm as [].
  destruct (Hf _ _ _ H mi_fresh0) as [[Hk _ Hd] [Ht Hr Hl Hn]]. destruct (Hk mi_fresh0) as [Hf' K].
  fold (world_of m) in *. set (t := next_tcb (world_of m)) in *. cbn [base set_base] in Hwk. rewrite Hr, mi_ready0 in Hwk. cbn [app iter_st] in Hwk.
  assert (t ∉ tasks_of (m_sched m)) as Hnew.
  { rewrite mi_live0. intros (tb & Htb & _). assert (t < next_tcb (world_of m)) by (apply mi_fresh0; by eexists). lia. }
  destruct (wakeup_new _ t mi_sched0 Hnew) as (k1 & Hw1 & Hk1 & Ht1 & Hp1 & [[M1 _] [S1 _] [C1 _]]).
  rewrite (st_bind_Ok _ _ _ _ _ Hw1) in Hwk. injection Hwk as <-.
  pose proof (fun u => kept_live _ _ u mi_fresh0 Hk) as Hlive. split; [|done|done]. split; cbn; try done.
  - eapply (sync_inv_sub (sync_view m)); cbn; try done; lia.
  - apply taken_inv. by apply fds_from_inv.
  - intros u. rewrite Ht1, elem_of_union, elem_of_singleton, mi_live0. split.
    + intros [->|Hu]; [done|by apply Hlive].
    + intros [Hu| ->]%Hl; auto.
  - lia.
  - intros u Hu. by apply Hlive, mi_conts0.
Qed.

(** *** Other parts *)

Lemma stable_modify e f :
  (forall m, m_sched (f m) = m_sched m /\ m_io (f m) = m_io m /\ m_conts (f m) = m_conts m /\
     forall sel p i x, sel (MkLists [] [] []) = [] -> names sel (sync_view (f m)) p i x -> names sel (sync_view m) p i x) ->
  moves (stable e) (modify f).
Proof.
  intros Hf m a m' [= _ <-] Hm. destruct (Hf m) as (Es & Ei & Ec & En). destruct Hm.
  assert (sync_inv (sync_view (f m))) as Hn.
  { eapply sync_inv_sub; [exact En|..|done]; cbn; by rewrite Es. }
  split; [split|by rewrite Es|done]; unfold world_of; rewrite ?Es, ?Ei, ?Ec; done.
Qed.

(** The objects of a process come with it and go with it. *)
Lemma stable_new_lists e p : moves (stable e) (modify (fun m => set_objects (<[p := MkLists [] [] []]> (m_lists m)) m)).
Proof.
  apply stable_modify. intros m. split_and!; try done. intros sel q i x Hsel (l & Hl & Hi). cbn in Hl.
  apply lookup_insert_Some in Hl as [[<- <-]|[_ Hl]]; [by rewrite Hsel in Hi|by exists l].
Qed.
Lemma stable_drop_lists e p : moves (stable e) (modify (fun m => set_objects (delete p (m_lists m)) m)).
Proof.
  apply stable_modify. intros m. split_and!; try done. intros sel q i x _ (l & Hl & Hi). cbn in Hl.
  apply lookup_delete_Some in Hl as [_ Hl]. by exists l.
Qed.
Lemma stable_events e f g : moves (stable e) (modify (fun m => set_events (f m) (g m) m)).
Proof. by apply stable_modify. Qed.
Lemma stable_halt e b : moves (stable e) (modify (halt b)).
Proof. by apply stable_modify. Qed.

Lemma stable_received e g : moves (stable e) (modify (fun m => set_io (set_received (g m) (m_io m)) m)).
Proof.
  intros m a m' [= _ <-] []. split; [split|done|done]; try done. by destruct mi_files0.
Qed.

#[local] Hint Resolve stable_new_lists stable_drop_lists stable_events stable_halt stable_received : moves.

Lemma stable_disk_done e token : moves (stable e) (disk_done token).
Proof. unfold disk_done. follow. Qed.
Lemma stable_board_irq e i : moves (stable e) (board_irq i).
Proof.
  destruct i; cbn [board_irq]; unfold signal_if; [follow|follow|apply moves_iter, stable_disk_done|follow|follow].
Qed.
Lemma stable_timer e now : moves (stable e) (timer_irq now).
Proof. unfold timer_irq. follow. Qed.
Lemma stable_tcb_of e t : moves (stable e) (tcb_of t).
Proof. unfold tcb_of. follow. Qed.
Lemma stable_running e : moves (stable e) running.
Proof. unfold running. follow. Qed.
#[local] Hint Resolve stable_board_irq stable_timer stable_tcb_of stable_running : moves.
Lemma stable_leave e t : moves (stable e) (leave t).
Proof. unfold leave. follow. Qed.
#[local] Hint Resolve stable_leave : moves.

Lemma running_Ok m t m' : running m = Ok (t, m') -> m' = m /\ processor (m_sched m) = Some t.
Proof. unfold running. rewrite bind_get. unfold of_option. intros [H ->]%of_res_Ok. by apply unwrap_Ok in H. Qed.

(** *** Calls on synchronization objects *)

Lemma on_sync_Ok {A} (f : st sync_world A) m a m' :
  on_sync f m = Ok (a, m') <->
  exists w, f (sync_view m) = Ok (a, w) /\ m' = set_objects (lists w) (set_kernel (sched w) m).
Proof. unfold on_sync. destruct (f (sync_view m)) as [[]|]; cbn; naive_solver. Qed.

(** A call is at most an operation of the scheduler. *)
Lemma sync_step_inv e m w :
  sync_inv w -> (sched w = m_sched m \/ exists o, (forall t, o <> OSpawn t) /\ o <> OExit /\ SchedulerSpec.exec o (m_sched m) = Ok (tt, sched w)) ->
  minv e m -> minv e (set_objects (lists w) (set_kernel (sched w) m)).
Proof.
  intros Hw Ho Hm. assert (settled (m_sched m) (sched w)) as [Hk Ht M S C].
  { destruct Ho as [->|(o & H1 & H2 & H)]; [by split; try done; apply Hm|]. eapply exec_settles; [done..|]. apply Hm. }
  destruct Hm. split; try done; cbn.
  - destruct Hw as [W1 W2 W3]. split; (eapply (names_sub _ _ _ w); [by intros|reflexivity|done]).
  - intros t. by rewrite Ht.
  - lia.
Qed.

Lemma call_op_kind l c o : call_op l c = Some o -> (forall t, o <> OSpawn t) /\ o <> OExit.
Proof. destruct c; cbn; intros H; simplify_option_eq; done. Qed.

Lemma run_call_inv e c m o m' :
  on_sync (run_call c) m = Ok (o, m') -> minv e m ->
  minv e m' /\ m_conts m' = m_conts m /\ processor (m_sched m') = after_call o (processor (m_sched m)).
Proof.
  intros (w & H & ->)%on_sync_Ok Hm. split_and!; [|done|by apply run_call_processor in H].
  apply sync_step_inv; [by eapply call_inv, H; apply Hm| |done].
  destruct (run_call_spec _ _ _ _ H) as (t & p & l & _ & _ & _ & Hop).
  destruct (call_op l c) as [o'|] eqn:Eo; [|left; by destruct Hop as [_ ->]].
  destruct Hop as (k & Hk & ->). destruct (call_op_kind _ _ _ Eo). right. by exists o'.
Qed.

Lemma lock_inv e i m o m' :
  on_sync (lock_outcome i) m = Ok (o, m') -> minv e m ->
  minv e m' /\ m_conts m' = m_conts m /\ processor (m_sched m') = after_call o (processor (m_sched m)).
Proof.
  intros (w & H & ->)%on_sync_Ok Hm. split_and!; [|done|by apply lock_outcome_processor in H].
  unfold lock_outcome in H. apply st_bind_inv in H as (r & w1 & (k & Hk & ->)%on_sched_Ok & [= _ <-]).
  apply void_Ok in Hk. change (SchedulerSpec.exec (OLock i) (m_sched m) = Ok (tt, k)) in Hk.
  apply sync_step_inv; [|right; by exists (OLock i)|done].
  eapply sched_inv; [|apply Hm]. by apply (exec_touches (OLock i) eq_refl) in Hk.
Qed.

(** ** Handlers *)

(** What a handler leaves: the task is where it was, or off the processor. *)
Record left (e : list FileCalls.pending) (m m' : machine) : Prop := {
  le_inv : minv e m';
  le_proc : processor (m_sched m') = None;
  le_conts : m_conts m' = m_conts m;
}.

(** The end of the current task. *)
Lemma exit_task_inv e t code m u m' :
  exit_task t code m = Ok (u, m') -> minv e m -> processor (m_sched m) = Some t -> m_conts m !! t = None -> left e m m'.
Proof.
  intros H Hm Hp Hc. unfold exit_task in H.
  apply st_bind_inv in H as ([] & m1 & (k & Hk & ->)%on_kernel_Ok & H).
  destruct (exit_current_run _ t (mi_sched _ _ Hm) Hp) as (k0 & Hk0 & Ik & Tk & Pk & [[M _] [S _] [C _]]).
  rewrite Hk0 in Hk. injection Hk as ->. apply st_bind_inv in H as (x & m2 & (s & k2 & (w & Hw & ->)%on_base_Ok & Hwk & ->)%on_io_Ok & H).
  apply exit_step in Hw as ([Wf _ Wd] & [Wr _ Wl] & Wt). pose proof Hm as []. destruct (Wf mi_fresh0) as [Ff K].
  cbn [set_kernel m_io] in *. fold (world_of m) in *. cbn [base set_base] in Hwk. rewrite Wr, mi_ready0 in Hwk. injection Hwk as <-.
  assert (forall v, v <> t -> live (world_of m) v -> live w v) as Hlive.
  { intros v Hv (tb & Ht & He). destruct (K v tb) as (tb' & ? & ? & _); [congruence|done..|]. by exists tb'. }
  match type of H with _ ?m0 = _ => assert (minv e m0) as H0 end.
  { split; cbn; try done.
    - eapply (sync_inv_sub (sync_view m)); cbn; try done; lia.
    - apply taken_inv. by apply fds_from_inv.
    - intros v. rewrite Tk, elem_of_difference, elem_of_singleton, mi_live0. split.
      + intros [Hv Hne]. by apply Hlive.
      + intros Hv. split; [by apply Wl|]. intros ->. by apply Wt.
    - lia.
    - intros v Hv. apply Hlive; [|by apply mi_conts0]. intros ->. rewrite Hc in Hv. by destruct Hv. }
  destruct x as [b|]; [|by injection H as <- <-].
  destruct (stable_halt e b _ _ _ H H0) as [I P Cs]. split; [done|by rewrite P|by rewrite Cs].
Qed.

(** The end of a trap: back to user mode, or the end of the task. *)
Definition ended (e : list FileCalls.pending) (m m' : machine) : Prop := stayed e m m' \/ left e m m'.

Lemma stayed_ended e m1 m2 m3 : stayed e m1 m2 -> ended e m2 m3 -> ended e m1 m3.
Proof. intros [I P C] [[]|[]]; [left|right]; split; congruence. Qed.

Lemma end_trap_inv e t m u m' :
  end_trap t m = Ok (u, m') -> minv e m -> processor (m_sched m) = Some t -> m_conts m !! t = None -> ended e m m'.
Proof.
  intros H Hm Hp Hc. unfold end_trap in H. apply st_bind_inv in H as (tb & m1 & H1 & H).
  destruct (stable_tcb_of e _ _ _ _ H1 Hm) as [I1 P1 C1]. apply st_bind_inv in H as (x & m2 & H2 & H).
  destruct (stable_plain e _ (plain_check_signals _) _ _ _ H2 I1) as [I2 P2 C2].
  apply (stayed_ended e m m2); [split; [done|congruence..]|]. destruct x as [code|].
  - right. eapply exit_task_inv; [done|done|congruence|congruence].
  - left. by eapply stable_leave.
Qed.

Lemma call_return_inv e t r m u m' :
  call_return t r m = Ok (u, m') -> minv e m -> processor (m_sched m) = Some t -> m_conts m !! t = None -> ended e m m'.
Proof.
  intros H Hm Hp Hc. unfold call_return in H. apply st_bind_inv in H as (tb & m1 & H1 & H).
  destruct (stable_tcb_of e _ _ _ _ H1 Hm) as [I1 P1 C1]. apply st_bind_inv in H as (x & m2 & H2 & H).
  destruct (stable_plain e _ (plain_mod_mm _) _ _ _ H2 I1) as [I2 P2 C2].
  apply (stayed_ended e m m2); [split; [done|congruence..]|]. eapply end_trap_inv; [done|done|congruence|congruence].
Qed.

(** *** Calls that wait *)

Lemma pendings_insert t k cs : cs !! t = None -> pendings (<[t := k]> cs) ≡ₚ pend k ++ pendings cs.
Proof. intros Ht. unfold pendings. rewrite map_to_list_insert by done. done. Qed.

Lemma set_cont_inv t k m u m' :
  set_cont t k m = Ok (u, m') -> minv (pend k) m -> live (world_of m) t -> m_conts m !! t = None ->
  minv [] m' /\ processor (m_sched m') = processor (m_sched m).
Proof.
  intros [= _ <-] [] Ht Hc. split; [|done]. split; try done; cbn.
  - intros v. destruct (decide (v = t)) as [->|]; [done|]. rewrite lookup_insert_ne by done. apply mi_conts0.
  - rewrite pendings_insert by done. done.
Qed.

Lemma del_cont_inv t k m u m' :
  del_cont t m = Ok (u, m') -> minv [] m -> m_conts m !! t = Some k ->
  minv (pend k) m' /\ m_conts m' !! t = None /\ m_sched m' = m_sched m /\ m_io m' = m_io m.
Proof.
  intros [= _ <-] [] Hc. split_and!; [|apply lookup_delete_eq|done|done]. split; try done; cbn.
  - intros v [x [_ Hv]%lookup_delete_Some]. by eauto.
  - rewrite mi_calls0. rewrite <- (insert_delete_id (m_conts m) t k Hc) at 1.
    by rewrite pendings_insert by apply lookup_delete_eq.
Qed.

Lemma running_live e m t : minv e m -> processor (m_sched m) = Some t -> live (world_of m) t.
Proof. intros Hm Hp. apply (mi_live _ _ Hm). by apply (wi_proc _ _ (located_within _ (mi_sched _ _ Hm))). Qed.

(** *** System calls *)

(** How a call leaves the machine; [t] made it. *)
Definition call_ok (t : Z) (m : machine) (o : call_outcome) (m' : machine) : Prop :=
  m_conts m' = m_conts m /\
  match o with
  | Back _ => minv [] m' /\ processor (m_sched m') = Some t
  | Parked k => minv (pend k) m' /\ processor (m_sched m') = None /\ live (world_of m') t
  | Ended => minv [] m' /\ processor (m_sched m') = None
  end.

Definition call_fine (t : Z) (f : st machine call_outcome) : Prop :=
  forall m o m', f m = Ok (o, m') -> minv [] m -> processor (m_sched m) = Some t -> m_conts m !! t = None -> call_ok t m o m'.

Lemma back_fine t f : moves (stable []) f -> call_fine t (back f).
Proof.
  intros Hf m o m' (r & m1 & H & [= <- <-])%st_bind_inv Hm Hp Hc. destruct (Hf _ _ _ H Hm) as [I P C].
  split; [done|]. split; [done|congruence].
Qed.

(** The task gives up the processor in the middle of a call. *)
Lemma park_inv {A} (f : st kernel A) e t m a m' :
  moves settles f -> frees f -> Machine.on_kernel f m = Ok (a, m') -> minv e m -> processor (m_sched m) = Some t ->
  m_conts m' = m_conts m /\ minv e m' /\ processor (m_sched m') = None /\ live (world_of m') t.
Proof.
  intros Hs Hf H Hm Hp. pose proof (running_live _ _ _ Hm Hp) as Hl.
  destruct (kernel_inv e f m a m' Hs H Hm) as (I & C & Ei). split_and!; [done|done| |by unfold world_of; rewrite Ei].
  apply on_kernel_Ok in H as (k & H%Hf & ->). done.
Qed.

Lemma io_result_ok t m r o m' :
  io_result r m = Ok (o, m') -> minv (joined r) m -> processor (m_sched m) = Some t -> call_ok t m o m'.
Proof.
  intros H Hm Hp. destruct r as [n|c]; cbn [io_result] in H; [by injection H as <- <-|].
  apply st_bind_inv in H as ([] & m1 & H & [= <- <-]).
  eapply (park_inv _ [c]); [..|exact H|done|done]; destruct c; auto using wait_settles, suspend_settles, wait_frees, suspend_frees.
Qed.

(** A read or write, from its start or from where it waited. *)
Lemma io_call_inv (f : st io io_outcome) e m r m' :
  quietly f ->
  (forall s, f (m_io m) = Ok (r, s) -> FileCalls.waiting s ≡ₚ joined r ++ pendings (m_conts m)) ->
  on_io f m = Ok (r, m') -> minv e m ->
  minv (joined r) m' /\ processor (m_sched m') = processor (m_sched m) /\ m_conts m' = m_conts m.
Proof.
  intros Hq Hw (s & k & H & Hwk & ->)%on_io_Ok Hm. destruct (quiet_inv e (joined r) m s Hm) as [Hr Hi].
  - by eapply Hq.
  - by apply Hw.
  - rewrite Hr in Hwk. injection Hwk as <-. done.
Qed.

Lemma io_call_fine t (f : st io io_outcome) :
  FileTable.preserves f ->
  (forall s r s', f s = Ok (r, s') ->
     tasks_part s' = tasks_part s /\ FileCalls.waiting s' = FileCalls.waiting s ++ joined r) ->
  call_fine t (let* r := on_io f in io_result r).
Proof.
  intros Hp Hw m o m' (r & m1 & H1 & H)%st_bind_inv Hm Hpr Hc.
  destruct (io_call_inv f [] m r m1) as (I & P & C); [| |done|done|].
  - apply still_quiet; [|done]. intros s a s' E. by apply (Hw s a s').
  - intros s E. destruct (Hw _ _ _ E) as [_ ->]. rewrite (mi_calls _ _ Hm). cbn [app]. by rewrite Permutation_app_comm.
  - destruct (io_result_ok t m1 r o m') as [C' Ho]; [done|done|congruence|]. split; [congruence|done].
Qed.

Lemma sync_fine t c : call_fine t (by_sync (run_call c)).
Proof.
  intros m o m' (r & m1 & H & [= <- <-])%st_bind_inv Hm Hp Hc. pose proof (running_live _ _ _ Hm Hp) as Hl.
  destruct (run_call_inv [] c m r m1 H Hm) as (I & C & P). split; [done|]. rewrite P, Hp.
  assert (live (world_of m1) t) by (apply on_sync_Ok in H as (w & _ & ->); done). by destruct r.
Qed.

Section handlers.
Context (sym : symbols) (ElfFile_new : list u8 -> option ElfFile) (handler status : Z).
Context (ROOT_INODE PROC_INODE : Inode) (str_fuel file_fuel : nat) (padding : list u8) (fb_ptr fb_len : Z).
Abbreviation do_call := (do_call sym ElfFile_new handler status ROOT_INODE PROC_INODE str_fuel file_fuel padding fb_ptr fb_len).
Abbreviation user_handler := (user_handler sym ElfFile_new handler status ROOT_INODE PROC_INODE str_fuel file_fuel padding fb_ptr fb_len).
Abbreviation handle := (handle sym ElfFile_new handler status ROOT_INODE PROC_INODE str_fuel file_fuel padding fb_ptr fb_len).
Abbreviation run_events := (run_events sym ElfFile_new handler status ROOT_INODE PROC_INODE str_fuel file_fuel padding fb_ptr fb_len).

Lemma file_fine {A} e (f : st io A) (c : file_call) p :
  hushed f -> run_file_call ROOT_INODE str_fuel padding p c = drop_result f -> moves (stable e) (on_io f).
Proof.
  intros Hh Hc. apply stable_hushed; [done|]. apply preserves_call. rewrite <- Hc. apply file_call_preserves.
Qed.

Lemma value_fine t r : call_fine t (ret (Back r)).
Proof. intros m o m' [= <- <-] Hm Hp Hc. by split. Qed.

Lemma stable_fork e p : moves (stable e) (fork_call sym ROOT_INODE PROC_INODE p).
Proof.
  unfold fork_call. apply moves_bind; [|follow]. apply stable_spawn. intros w a w'. apply sys_fork_step.
Qed.

Lemma stable_waitpid e p pid ptr : moves (stable e) (waitpid_call PROC_INODE p pid ptr).
Proof.
  unfold waitpid_call. apply moves_bind; [apply moves_get|]. intros m.
  apply moves_bind; [|follow]. by apply stable_world; apply (waitpid_step None).
Qed.

Lemma plain_framebuffer p : plain (sys_framebuffer fb_ptr fb_len p).
Proof. unfold sys_framebuffer. follow. Qed.

Lemma do_call_fine now t p c : call_fine t (do_call now t p c).
Proof.
  destruct c; cbn [Machine.do_call].
  - apply back_fine, (file_fine _ _ (CGetcwd buf len) p); [apply hushed_getcwd|done].
  - apply back_fine, (file_fine _ _ (CDup fd) p); [apply hushed_dup|done].
  - apply back_fine, (file_fine _ _ (CDup2 old_fd new_fd) p); [apply hushed_dup2|done].
  - apply back_fine, (file_fine _ _ (CMkdir path) p); [apply hushed_mkdir|done].
  - apply back_fine, (file_fine _ _ (CUnlink path flags) p); [apply hushed_unlink|done].
  - apply back_fine, (file_fine _ _ (CChdir path) p); [apply hushed_chdir|done].
  - apply back_fine, (file_fine _ _ (COpen path flags) p); [apply hushed_open|done].
  - apply back_fine, (file_fine _ _ (CClose fd) p); [apply hushed_close|done].
  - apply back_fine, (file_fine _ _ (CPipe pipe) p); [apply hushed_pipe|done].
  - apply io_call_fine; [apply sys_read_preserves|apply read_waits].
  - apply io_call_fine; [apply sys_write_preserves|apply write_waits].
  - apply back_fine, (file_fine _ _ (CFstat fd stat) p); [apply hushed_fstat|done].
  - intros m o m' ([] & m1 & H & [= <- <-])%st_bind_inv Hm Hp Hc. by destruct (exit_task_inv [] t code m tt m1).
  - intros m o m' ([] & m1 & H & [= <- <-])%st_bind_inv Hm Hp Hc.
    eapply park_inv; [apply sleep_settles|apply sleep_frees|done..].
  - intros m o m' ([] & m1 & H & [= <- <-])%st_bind_inv Hm Hp Hc.
    eapply park_inv; [apply suspend_settles|apply suspend_frees|done..].
  - apply back_fine. follow.
  - apply value_fine.
  - apply value_fine.
  - apply back_fine, stable_fork.
  - apply back_fine, stable_io; apply exec_quiet.
  - apply back_fine, stable_waitpid.
  - apply back_fine, stable_spawn. intros w a w'. apply thread_create_step.
  - apply back_fine. follow.
  - apply back_fine. apply stable_world; apply (waittid_step None).
  - apply (sync_fine t (CMutexCreate blocking)).
  - apply (sync_fine t (CMutexLock (Z.to_nat id))).
  - apply (sync_fine t (CMutexUnlock (Z.to_nat id))).
  - apply (sync_fine t (CSemaphoreCreate res_count)).
  - apply (sync_fine t (CSemaphoreUp (Z.to_nat id))).
  - apply (sync_fine t (CSemaphoreDown (Z.to_nat id))).
  - apply (sync_fine t CCondvarCreate).
  - apply (sync_fine t (CCondvarSignal (Z.to_nat id))).
  - apply (sync_fine t (CCondvarWait (Z.to_nat id) (Z.to_nat mutex_id))).
  - apply back_fine, stable_plain, plain_framebuffer.
  - apply value_fine.
  - intros m o m' H Hm Hp Hc. destruct (sys_event_get _ _) as [v [kb ms]]. injection H as <- <-.
    destruct (stable_events [] (fun _ => kb) (fun _ => ms) m tt _ eq_refl Hm) as [I P C]. split; [done|]. by rewrite P.
  - intros m o m'. rewrite bind_get. apply value_fine.
Qed.

(** *** Traps and rounds *)

Definition good (m : machine) : Prop := minv [] m /\ in_user m.

Lemma stayed_good m m' : stayed [] m m' -> in_user m -> good m'.
Proof. intros [I P C] Hu. split; [done|]. intros t. rewrite P, C. apply Hu. Qed.
Lemma left_good m m' : left [] m m' -> good m'.
Proof. intros [I P C]. split; [done|]. intros t. by rewrite P. Qed.
Lemma ended_good m m' : ended [] m m' -> in_user m -> good m'.
Proof. intros [H|H] Hu; [by eapply stayed_good|by eapply left_good]. Qed.

Lemma settle_good t o m m1 u m' :
  call_ok t m o m1 -> m_conts m !! t = None -> settle t o m1 = Ok (u, m') -> good m'.
Proof.
  intros [C Ho] Hc H. rewrite <- C in Hc. destruct o as [r|k|]; cbn [settle] in H.
  - destruct Ho as [I P]. eapply ended_good; [by eapply call_return_inv|]. intros v. rewrite P. by intros [= <-].
  - destruct Ho as (I & P & L). destruct (set_cont_inv _ _ _ _ _ H I L Hc) as [I' P']. split; [done|]. intros v. by rewrite P', P.
  - injection H as _ <-. destruct Ho as [I P]. split; [done|]. intros v. by rewrite P.
Qed.

Lemma stable_good {A} (f : st machine A) : moves (stable []) f -> moves (through good) f.
Proof. intros Hf m a m' H [Hm Hu]. eapply stayed_good; [by eapply Hf|done]. Qed.

(** A part that keeps the current task, then the end of the trap. *)
Lemma then_end_trap {A} (f : st machine A) t m u m' :
  moves (stable []) f -> (f ;* end_trap t) m = Ok (u, m') -> good m -> processor (m_sched m) = Some t -> good m'.
Proof.
  intros Hf (a & m1 & H1 & H)%st_bind_inv [Hm Hu] Hp. destruct (Hf _ _ _ H1 Hm) as [I P C].
  assert (m_conts m1 !! t = None) as Hc by (rewrite C; by apply Hu).
  eapply ended_good; [eapply end_trap_inv; [done|done|congruence|done]|]. intros v. rewrite P, C. apply Hu.
Qed.

Lemma user_handler_good now c : moves (through good) (user_handler now c).
Proof.
  intros m u m' H [Hm Hu]. unfold Machine.user_handler in H.
  apply st_bind_inv in H as (t & m0 & (-> & Hp)%running_Ok & H). pose proof (Hu t Hp) as Hc.
  apply st_bind_inv in H as (tb & m1 & H1 & H). destruct (stable_tcb_of [] _ _ _ _ H1 Hm) as [I1 P1 C1].
  assert (good m1) as G1 by (split; [done|intros v; rewrite P1, C1; apply Hu]).
  rewrite <- P1 in Hp. rewrite <- C1 in Hc. destruct c.
  - apply st_bind_inv in H as ([] & m2 & H2 & H). destruct (stable_plain [] _ (plain_mod_mm _) _ _ _ H2 I1) as [I2 P2 C2].
    rewrite bind_get in H. apply st_bind_inv in H as (c & m3 & [_ ->]%of_res_Ok & H).
    apply st_bind_inv in H as (o & m3 & H3 & H). rewrite <- P2 in Hp. rewrite <- C2 in Hc.
    eapply settle_good; [|exact Hc|exact H]. by eapply do_call_fine.
  - eapply then_end_trap; [|exact H|done|done]. follow.
  - eapply then_end_trap; [|exact H|done|done]. follow.
  - apply st_bind_inv in H as ([] & m2 & H2 & H). destruct (stable_timer [] _ _ _ _ H2 I1) as [I2 P2 C2].
    apply st_bind_inv in H as ([] & m3 & H3 & H). rewrite <- P2 in Hp. rewrite <- C2 in Hc.
    apply (park_inv suspend_current [] t) in H3 as (C3 & I3 & P3 & L3); [|apply suspend_settles|apply suspend_frees|done..].
    rewrite <- C3 in Hc. destruct (set_cont_inv t KTrap _ _ _ H I3 L3 Hc) as [I4 P4]. split; [done|]. intros v. by rewrite P4, P3.
  - eapply then_end_trap; [|exact H|done|done]. follow.
  - done.
Qed.

Lemma kernel_handler_good now c : moves (through good) (kernel_handler now c).
Proof. apply stable_good. unfold kernel_handler. follow. Qed.

Lemma position_Some c l i : position c l = Some i -> l !! i = Some c.
Proof.
  revert i. induction l as [|d l IH]; intros i; cbn [position]; [done|]. case_bool_decide as E; [intros [= <-]; by subst|].
  destruct (position c l) as [j|]; [|done]. cbn. intros [= <-]. by apply IH.
Qed.

Lemma delete_lookup_perm {A} (l : list A) i x : l !! i = Some x -> l ≡ₚ x :: delete i l.
Proof. intros H. by apply delete_Permutation. Qed.

Lemma resume_call t c m u m' :
  go_on t (KIo c) m = Ok (u, m') -> minv [c] m -> processor (m_sched m) = Some t -> m_conts m !! t = None -> good m'.
Proof.
  intros H Hm Hp Hc. cbn [go_on] in H. rewrite bind_get, bind_option in H.
  destruct (position c _) as [i|] eqn:Ei; [|done]. apply position_Some in Ei.
  apply st_bind_inv in H as (r & m1 & H1 & H). apply st_bind_inv in H as (o & m2 & H2 & H).
  destruct (io_call_inv (resume i) [c] m r m1) as (I1 & P1 & C1); [| |done|done|].
  - apply still_quiet; [|apply resume_preserves]. intros s a s' E. by apply (resume_waits i s a s').
  - intros s E. destruct (resume_waits _ _ _ _ E) as [_ ->]. rewrite Permutation_app_comm. f_equiv.
    pose proof (mi_calls _ _ Hm) as Hw. rewrite (delete_lookup_perm _ _ _ Ei) in Hw. cbn in Hw. by apply Permutation_cons_inv in Hw.
  - eapply settle_good; [|by rewrite C1|exact H]. eapply io_result_ok; [done|done|congruence].
Qed.

Lemma go_on_good t k m u m' :
  go_on t k m = Ok (u, m') -> minv (pend k) m -> processor (m_sched m) = Some t -> m_conts m !! t = None -> good m'.
Proof.
  intros H Hm Hp Hc. assert (in_user m) as Hu by (intros v; rewrite Hp; by intros [= <-]). destruct k as [r|i|c|].
  - eapply ended_good; [by eapply call_return_inv|done].
  - cbn [go_on] in H. apply st_bind_inv in H as (o & m1 & H1 & H). destruct (lock_inv [] _ _ _ _ H1 Hm) as (I & C & P).
    eapply settle_good; [|exact Hc|exact H]. split; [done|]. rewrite P, Hp. pose proof (running_live _ _ _ Hm Hp) as L.
    assert (live (world_of m1) t) by (apply on_sync_Ok in H1 as (w & _ & ->); done). by destruct o.
  - by eapply resume_call.
  - eapply ended_good; [by eapply end_trap_inv|done].
Qed.

Lemma run_settles k a k' : processor k = None -> run_tasks_once k = Ok (a, k') -> settles k k'.
Proof.
  intros Hp H. apply (exec_settles ORun ltac:(done) ltac:(done) k tt). cbn [SchedulerSpec.exec]. rewrite bind_get, bind_check.
  rewrite Hp. cbn. apply void_Ok in H. done.
Qed.

Lemma run_next_good m u m' : run_next m = Ok (u, m') -> processor (m_sched m) = None -> good m -> good m'.
Proof.
  intros H Hp [Hm Hu]. unfold run_next in H. apply st_bind_inv in H as (o & m1 & (k & Hk & ->)%on_kernel_Ok & H).
  pose proof (run_settles _ _ _ Hp Hk (mi_sched _ _ Hm)) as Hs. apply (settled_inv []) in Hs; [|done].
  rewrite run_once_spec in Hk. destruct (ready_queue (m_sched m)) as [|t q]; injection Hk as <- Ek.
  { injection H as _ <-. split; [done|]. subst k. exact Hu. }
  assert (processor k = Some t) as Pk by (by subst k). rewrite bind_get in H. cbn [set_kernel m_conts] in H.
  destruct (m_conts m !! t) as [c|] eqn:Ec.
  - apply st_bind_inv in H as ([] & m2 & H2 & H). apply (del_cont_inv t c) in H2 as (I2 & C2 & S2 & _); [|done..].
    eapply go_on_good; [done|done| |done]. by rewrite S2.
  - eapply stable_good; [apply stable_leave|exact H|]. split; [done|]. intros v. cbn. rewrite Pk. by intros [= <-].
Qed.

Lemma user_run_good regs sst pc stores : moves (through good) (user_run regs sst pc stores).
Proof. apply stable_good. unfold user_run. follow. Qed.

Lemma handle_good e : moves (through good) (handle e).
Proof.
  intros m u m' H Hm. unfold Machine.handle in H. rewrite bind_get, bind_check in H. case_bool_decide; [|done].
  destruct e as [regs sst pc stores|now c| |now c].
  - by eapply user_run_good.
  - by eapply user_handler_good.
  - rewrite bind_check in H. case_bool_decide as Hp; [|done]. by eapply run_next_good.
  - by eapply kernel_handler_good.
Qed.

(** ** Boot *)

(** The first process before its task is made. *)
Definition first_pcb (ms : MemorySet) : pcb :=
  MkPcb false ms None [] 0 [Byte.x2f] [Some 0; Some 1; Some 2] 0 [] RecycleAllocator_new.

Lemma no_waiters n : concat (cond_queue <$> replicate n (MkCond [])) = [].
Proof. by induction n. Qed.

Lemma bare_good channels k d w pid ms :
  eq_on skeleton (booting k d) w ->
  good (set_io (set_base (set_procs (<[pid := first_pcb ms]> (procs w)) w) (m_io (power_on channels k d))) (power_on channels k d)).
Proof.
  unfold eq_on, skeleton. intros [= Et Ef Er En]. cbn in Et, Ef, Er, En. rewrite fmap_empty in Ef. apply fmap_empty_inv in Ef.
  assert (located (m_sched (power_on channels k d)) = []) as Hloc by (unfold located, SchedulerSpec.waiting; cbn; by rewrite no_waiters).
  split; [|done]. split; [|cbn..].
  - cbn [m_sched set_io]. split; rewrite Hloc; [constructor|]. intros t s. cbn. rewrite lookup_empty. split; [done|by intros ?%not_elem_of_nil].
  - split; (split; [intros p i x (l & Hl & _)|intros p p' i i' x (l & Hl & _)]); cbn in Hl; by rewrite lookup_empty in Hl.
  - split; cbn.
    + intros f [x Hx]. repeat (apply lookup_insert_Some in Hx as [[<- _]|[_ Hx]]; [lia|]). by rewrite lookup_empty in Hx.
    + intros p b f Hp Hin. rewrite Ef, insert_empty in Hp. apply lookup_singleton_Some in Hp as [_ <-]. cbn in Hin.
      repeat (apply elem_of_cons in Hin as [[= ->]|Hin]; [by eexists|]). by apply not_elem_of_nil in Hin.
    + intros f rd wr r Hx. repeat (apply lookup_insert_Some in Hx as [[_ Hx]|[_ Hx]]; [done|]). by rewrite lookup_empty in Hx.
    + intros r pb Hr. by rewrite lookup_empty in Hr.
    + by intros c ?%not_elem_of_nil.
  - intros t Ht. cbn in Ht. rewrite Et, lookup_empty in Ht. by destruct Ht.
  - intros t. unfold tasks_of. cbn. rewrite dom_empty. split; [by intros ?%not_elem_of_empty|].
    intros (tb & Ht & _). cbn in Ht. by rewrite Et, lookup_empty in Ht.
  - done.
  - lia.
  - intros t Ht. rewrite lookup_empty in Ht. by destruct Ht.
  - unfold pendings. by rewrite map_to_list_empty.
Qed.

Lemma boot_good data channels k d u m :
  task_init sym ElfFile_new handler status data (power_on channels k d) = Ok (u, m) -> good m.
Proof.
  intros (pid & m1 & (s & kk & (w & H & ->)%on_base_Ok & Hwk & ->)%on_io_Ok & H2)%st_bind_inv.
  eapply (stable_good _ (stable_new_lists [] pid)); [exact H2|]. clear H2.
  unfold ProcessControlBlock_new in H. apply st_bind_inv in H as ([[ms base] entry] & w0 & H0%plain_on_mm & H).
  apply st_bind_inv in H as (pid' & w1 & H1%plain_pid_alloc & H). rewrite bind_modify in H.
  match type of H with ?rest _ = _ => set (f := rest) in H end. set (w2 := set_procs _ w1) in H.
  pose proof (bare_good channels k d w1 pid' ms ltac:(by transitivity w0)) as Hg.
  eapply (stable_good (on_world f)); [|..|exact Hg].
  - apply stable_spawn. clear. intros w a w' H Hf. unfold f in H.
    apply st_bind_inv in H as (t & w1 & H1 & H). apply st_bind_inv in H as (tb & w2 & H2 & H).
    apply st_bind_inv in H as (r & w3 & H3 & H). rewrite bind_get in H.
    apply st_bind_inv in H as ([] & w4 & H4 & H). apply st_bind_inv in H as ([] & w5 & H5 & H).
    apply st_bind_inv in H as ([] & w6 & H6 & H). apply st_bind_inv in H as ([] & w7 & [= <-] & [= _ <-]).
    plain_track. eapply (spawn_run w w w1 w6); [reflexivity|reflexivity|done| |reflexivity|reflexivity|done].
    chain.
  - apply on_io_Ok. eexists _, kk. split; [apply on_base_Ok; eexists; split; [exact H|done]|]. done.
Qed.

Lemma runs_good es m u m' : run_events es m = Ok (u, m') -> good m -> good m'.
Proof. apply (moves_iter (R := through good) handle es handle_good). Qed.

End handlers.

(** ** Witnesses *)

Definition machine_or (r : res (() * machine)) : machine :=
  match r with Ok (_, m) => m | Panic _ => power_on 16 bare_kstacks (blank_disk 0) end.
Definition demo_task_init : st machine () := task_init tiny_sym tiny_elf 0x80 0 [].
Definition demo_m0 : machine := machine_or (demo_task_init (power_on 16 bare_kstacks demo_formatted.2)).
Definition demo_machine : list event -> st machine () :=
  run_events tiny_sym tiny_elf 0x80 0 demo_root demo_proc 64 64 [] 0 0.

(** Registers for a call. *)
Definition call_regs (id a0 a1 a2 : Z) : list Z :=
  <[17%nat := id]> (<[10%nat := a0]> (<[11%nat := a1]> (<[12%nat := a2]> (replicate 32 0)))).
Definition ecall (id a0 a1 a2 : Z) : list event :=
  [EUser (call_regs id a0 a1 a2) 0 0x10000 []; ETrap 0 EnvCall].

(** The first process forks, is preempted, and the child asks for its pid. *)
Definition demo_events : list event :=
  [ERun] ++ ecall 220 0 0 0 ++ [ETrap 0 TimerIrq; ERun] ++ ecall 172 0 0 0.
Definition demo_m1 : machine := machine_or (demo_machine demo_events demo_m0).

Lemma demo_booted : demo_task_init (power_on 16 bare_kstacks demo_formatted.2) = Ok (tt, demo_m0).
Proof. by vm_compute. Qed.
Lemma demo_ran : demo_machine demo_events demo_m0 = Ok (tt, demo_m1).
Proof. by vm_compute. Qed.

Lemma demo_good : good demo_m1.
Proof. eapply runs_good; [exact demo_ran|]. eapply boot_good, demo_booted. Qed.

