(* ===== verification/MachineRuns.v ===== *)
(** * Runs of the machine

    The ready queue is fair: a task that is ready runs after at most as many
    others as were before it.  The timer takes the processor from every task.
    A system call that returns gives its result to the program behind the
    instruction that made it. *)

From Stdlib Require Import Sorted.
From S2P Require Import Prelude Config Bytes BlockStore Efs Vfs Files.
From S2P Require Import StateMonad Address FrameAllocator PageTable PageTableSpec MemorySet MemorySetSpec UserMemory.
From S2P Require Import Scheduler SchedulerSpec TaskId InputDevice SyncCalls SchedulerRuns.
From S2P Require Import Process ProcessSpec WorldSteps FileCalls FileTable IoSteps Syscall Machine MachineSpec.

(** ** Fairness *)

(** Tasks join the ready queue at its end. *)
Definition later (m m' : machine) : Prop := ready_queue (m_sched m) `prefix_of` ready_queue (m_sched m').

#[export] Instance later_preorder : PreOrder later.
Proof. split; [intros m; unfold later; reflexivity|]. intros m1 m2 m3 H1 H2. unfold later. by transitivity (ready_queue (m_sched m2)). Qed.

Lemma later_kernel {A} (f : st kernel A) : moves grows f -> moves later (Machine.on_kernel f).
Proof. intros Hf m a m' (k & H%Hf & ->)%on_kernel_Ok. apply H. Qed.
Lemma later_exec o : o <> ORun -> o <> OExit -> moves later (Machine.on_kernel (SchedulerSpec.exec o)).
Proof. intros H1 H2. by apply later_kernel, exec_grows. Qed.
Lemma later_exit : moves later (Machine.on_kernel exit_current).
Proof.
  intros m a m' (k & H & ->)%on_kernel_Ok. unfold exit_current, take_current_tcb, st_bind in H.
  destruct (processor (m_sched m)); [|done]. cbn in H. injection H as _ <-. unfold later. reflexivity.
Qed.
Lemma later_io {A} (f : st io A) : moves later (on_io f).
Proof.
  intros m a m' (s & k & _ & H & ->)%on_io_Ok.
  exact (gr_queue _ _ (moves_iter (R := grows) wakeup _ wakeup_grows _ _ _ H)).
Qed.
Lemma later_world {A} (f : st world A) : moves later (on_world f).
Proof. apply later_io. Qed.
Lemma later_call c : moves later (on_sync (run_call c)).
Proof.
  intros m a m' (w & H & ->)%on_sync_Ok. destruct (run_call_spec _ _ _ _ H) as (t & p & l & _ & _ & _ & Hop).
  destruct (call_op l c) as [o|] eqn:Eo; [|destruct Hop as [_ ->]; unfold later; reflexivity].
  destruct Hop as (k & Hk & ->).
  destruct (call_op_kind _ _ _ Eo) as [_ He]. refine (gr_queue _ _ (exec_grows o _ He _ _ _ Hk)).
  by destruct c; cbn in Eo; simplify_option_eq.
Qed.
Lemma later_lock i : moves later (on_sync (lock_outcome i)).
Proof.
  intros m a m' (w & H & ->)%on_sync_Ok. unfold lock_outcome in H.
  apply st_bind_inv in H as (r & w1 & (k & Hk%void_Ok & ->)%on_sched_Ok & [= _ <-]).
  exact (gr_queue _ _ (exec_grows (OLock i) ltac:(done) ltac:(done) _ _ _ Hk)).
Qed.

#[local] Hint Resolve later_exit later_io later_world later_lock : moves.
#[local] Hint Extern 1 (moves later (modify _)) => apply moves_modify; intros ?; unfold later; reflexivity : moves.
#[local] Hint Extern 1 (moves later (Machine.on_kernel (condvar_signal ?c))) => apply (later_exec (OSignal c)); done : moves.
#[local] Hint Extern 1 (moves later (Machine.on_kernel (check_timer ?n))) => apply (later_exec (OTimer n)); done : moves.
#[local] Hint Extern 1 (moves later (Machine.on_kernel suspend_current)) => apply (later_exec OYield); done : moves.
#[local] Hint Extern 1 (moves later (Machine.on_kernel (condvar_wait_no_sched ?c))) => apply (later_exec (OWaitIrq c)); done : moves.
#[local] Hint Extern 1 (moves later (Machine.on_kernel (sys_sleep ?n ?s))) => apply (later_exec (OSleep n s)); done : moves.

Lemma later_exit_task t code : moves later (exit_task t code).
Proof. unfold exit_task. follow. Qed.
#[local] Hint Resolve later_exit_task : moves.
Lemma later_end_trap t : moves later (end_trap t).
Proof. unfold end_trap, leave, tcb_of. follow. Qed.
#[local] Hint Resolve later_end_trap : moves.
Lemma later_settle t o : moves later (settle t o).
Proof. unfold settle, call_return, set_cont, tcb_of. follow. Qed.
Lemma later_io_result r : moves later (io_result r).
Proof. destruct r as [n|[]]; cbn [io_result]; follow. Qed.
#[local] Hint Resolve later_settle later_io_result : moves.
Lemma later_board_irq i : moves later (board_irq i).
Proof.
  destruct i; cbn [board_irq]; unfold signal_if; [follow|follow| |follow|follow].
  apply moves_iter. intros token. unfold disk_done. follow.
Qed.
#[local] Hint Resolve later_board_irq : moves.
Lemma later_sync c : moves later (by_sync (run_call c)).
Proof. unfold by_sync. apply moves_bind; [apply later_call|follow]. Qed.
Lemma later_back f : moves later f -> moves later (back f).
Proof. intros Hf. unfold back. follow. Qed.
#[local] Hint Resolve later_back : moves.

Section handlers.
Context (sym : symbols) (ElfFile_new : list u8 -> option ElfFile) (handler status : Z).
Context (ROOT_INODE PROC_INODE : Inode) (str_fuel file_fuel : nat) (padding : list u8) (fb_ptr fb_len : Z).
Abbreviation do_call := (do_call sym ElfFile_new handler status ROOT_INODE PROC_INODE str_fuel file_fuel padding fb_ptr fb_len).
Abbreviation user_handler := (user_handler sym ElfFile_new handler status ROOT_INODE PROC_INODE str_fuel file_fuel padding fb_ptr fb_len).
Abbreviation handle := (handle sym ElfFile_new handler status ROOT_INODE PROC_INODE str_fuel file_fuel padding fb_ptr fb_len).
Abbreviation run_events := (run_events sym ElfFile_new handler status ROOT_INODE PROC_INODE str_fuel file_fuel padding fb_ptr fb_len).

Lemma later_fork p : moves later (fork_call sym ROOT_INODE PROC_INODE p).
Proof. unfold fork_call. follow. Qed.
Lemma later_waitpid p pid ptr : moves later (waitpid_call PROC_INODE p pid ptr).
Proof. unfold waitpid_call. follow. Qed.
#[local] Hint Resolve later_fork later_waitpid : moves.

Lemma later_do_call now t p c : moves later (do_call now t p c).
Proof.
  destruct c; cbn [Machine.do_call]; unfold sys_exit, sys_yield; try solve [follow].
  - apply (later_sync (CMutexCreate blocking)).
  - apply (later_sync (CMutexLock (Z.to_nat id))).
  - apply (later_sync (CMutexUnlock (Z.to_nat id))).
  - apply (later_sync (CSemaphoreCreate res_count)).
  - apply (later_sync (CSemaphoreUp (Z.to_nat id))).
  - apply (later_sync (CSemaphoreDown (Z.to_nat id))).
  - apply (later_sync CCondvarCreate).
  - apply (later_sync (CCondvarSignal (Z.to_nat id))).
  - apply (later_sync (CCondvarWait (Z.to_nat id) (Z.to_nat mutex_id))).
  - intros m o m' H. destruct (sys_event_get _ _) as [v [kb ms]]. injection H as _ <-. unfold later. reflexivity.
Qed.
#[local] Hint Resolve later_do_call : moves.

Lemma later_user_handler now c : moves later (user_handler now c).
Proof. unfold Machine.user_handler, running, tcb_of, timer_irq, set_cont. follow. Qed.
Lemma later_go_on t k : moves later (go_on t k).
Proof. unfold go_on, call_return, tcb_of. follow. Qed.
#[local] Hint Resolve later_go_on : moves.

(** A round dispatches the head of the queue, if there is one. *)
Lemma run_next_queue m u m' t q :
  run_next m = Ok (u, m') -> ready_queue (m_sched m) = t :: q -> q `prefix_of` ready_queue (m_sched m').
Proof.
  intros H Hq. unfold run_next in H. apply st_bind_inv in H as (o & m1 & (k & Hk & ->)%on_kernel_Ok & H).
  rewrite run_once_spec, Hq in Hk. injection Hk as <- Ek.
  assert (later (set_kernel k m) m') as Hl.
  { rewrite bind_get in H. destruct (m_conts _ !! t) as [c|].
    - assert (moves later (del_cont t ;* go_on t c)) as Hg by (unfold del_cont; follow). by apply Hg in H.
    - assert (moves later (leave t)) as Hg by (unfold leave, tcb_of; follow). by apply Hg in H. }
  unfold later in Hl. subst k. exact Hl.
Qed.

Definition is_run (e : event) : bool := match e with ERun => true | _ => false end.

Lemma later_handle e : is_run e = false -> moves later (handle e).
Proof.
  destruct e as [regs sst pc stores|now c| |now c]; [intros _|intros _|done|intros _]; unfold Machine.handle.
  - unfold user_run, running, tcb_of. follow.
  - pose proof later_user_handler. follow.
  - unfold kernel_handler, timer_irq. follow.
Qed.

Definition rounds (es : list event) : nat := length (filter is_run es).

Lemma rounds_cons e es : rounds (e :: es) = if is_run e then S (rounds es) else rounds es.
Proof. by destruct e. Qed.

(** C7: the ready queue is fair.  A task with [n] tasks before it in the
    queue is at its head, and is switched to, by the [n+1]-th round of
    [run_tasks], whatever other events, of the other tasks, of the devices
    and of the timer, happen before and in between. *)
Theorem no_starvation es m u m' n t :
  run_events es m = Ok (u, m') -> ready_queue (m_sched m) !! n = Some t -> (n < rounds es)%nat ->
  exists es1 es2 m1, es = es1 ++ ERun :: es2 /\ run_events es1 m = Ok (tt, m1) /\
    head (ready_queue (m_sched m1)) = Some t /\ (rounds es1 <= n)%nat /\
    exists k, run_tasks_once (m_sched m1) = Ok (Some t, k) /\ processor k = Some t.
Proof.
  unfold Machine.run_events. revert m n. induction es as [|e es IH]; intros m n H Hn Hr; [cbn in Hr; lia|].
  cbn [iter_st] in H. apply st_bind_inv in H as ([] & m1 & H1 & H).
  destruct (ready_queue (m_sched m)) as [|t0 q] eqn:Hq; [done|]. destruct (is_run e) eqn:Ee.
  - assert (e = ERun) as -> by (by destruct e). destruct n as [|n].
    { injection Hn as ->. exists [], es, m. split_and!; [done|done|by rewrite Hq|cbn; lia|].
      rewrite run_once_spec, Hq. eexists. by split. }
    unfold Machine.handle in H1. rewrite bind_get, bind_check in H1. case_bool_decide as Eh; [|done].
    rewrite bind_check in H1. case_bool_decide as Ep; [|done]. pose proof (run_next_queue _ _ _ _ _ H1 Hq) as Hp.
    rewrite rounds_cons in Hr. cbn in Hn, Hr.
    destruct (IH m1 n H) as (es1 & es2 & m2 & -> & Hrun & Hh & Hle & Hk); [by eapply prefix_lookup_Some|lia|].
    exists (ERun :: es1), es2, m2. split_and!; [done| |done|rewrite rounds_cons; cbn; lia|done].
    cbn [iter_st]. unfold Machine.handle. unfold st_bind at 1. rewrite bind_get, bind_check, bool_decide_eq_true_2 by done.
    rewrite bind_check, bool_decide_eq_true_2 by done. by rewrite H1.
  - pose proof (later_handle e Ee _ _ _ H1) as Hl. unfold later in Hl. rewrite Hq in Hl.
    rewrite rounds_cons, Ee in Hr.
    destruct (IH m1 n H) as (es1 & es2 & m2 & -> & Hrun & Hh & Hle & Hk); [by eapply prefix_lookup_Some|lia|].
    exists (e :: es1), es2, m2. split_and!; [done| |done| |done].
    + cbn [iter_st]. by rewrite (st_bind_Ok _ _ _ _ _ H1).
    + by rewrite rounds_cons, Ee.
Qed.

(** ** The timer *)

Lemma taken_id s : ready (base s) = [] -> taken s = s.
Proof. destruct s as [[]]. cbn. by intros ->. Qed.

(** A lookup in the processes. *)
Lemma on_world_read {A} (f : st world A) m a :
  ready (world_of m) = [] -> f (world_of m) = Ok (a, world_of m) -> on_world f m = Ok (a, m).
Proof.
  intros Hr Hf. apply on_io_Ok. exists (m_io m), (m_sched m). split_and!.
  - apply on_base_Ok. exists (world_of m). split; [done|]. unfold world_of. by destruct (m_io m).
  - unfold world_of in Hr. by rewrite Hr.
  - rewrite taken_id by done. by destruct m.
Qed.

Lemma tcb_of_run m t tb : ready (world_of m) = [] -> tcbs (world_of m) !! t = Some tb -> tcb_of t m = Ok (tb, m).
Proof. intros Hr Ht. apply on_world_read; [done|]. unfold get_tcb. by rewrite Ht. Qed.
Lemma get_pcb_read m p b : ready (world_of m) = [] -> procs (world_of m) !! p = Some b -> on_world (get_pcb p) m = Ok (b, m).
Proof. intros Hr Ht. apply on_world_read; [done|]. unfold get_pcb. by rewrite Ht. Qed.


(** ** Traps in the kernel *)

Definition ktrap (x : Z * cause) : event := EKernelTrap x.1 x.2.

Lemma ktraps_move ts : moves (stable []) (run_events (ktrap <$> ts)) /\ moves later (run_events (ktrap <$> ts)).
Proof.
  assert (forall x, moves (stable []) (handle (ktrap x))) as Hs.
  { intros [now c]. pose proof (stable_board_irq []). pose proof (stable_timer []). unfold Machine.handle, kernel_handler. cbn. follow. }
  unfold Machine.run_events. split; (induction ts as [|x ts IH]; cbn [fmap list_fmap iter_st]; [follow|]);
    (apply moves_bind; [|by intros ?]).
  - apply Hs.
  - by apply later_handle.
Qed.

(** What an interrupt adds to the machine outside the scheduler. *)
Definition serial_bytes (x : Z * cause) : list u8 := match x.2 with ExternalIrq (ISerial bs) => bs | _ => [] end.
Definition key_events (x : Z * cause) : list Z := match x.2 with ExternalIrq (IKeyboard es) => pack <$> es | _ => [] end.
Definition mouse_events (x : Z * cause) : list Z := match x.2 with ExternalIrq (IMouse es) => pack <$> es | _ => [] end.

Definition reported (bs : list u8) (kb ms : list Z) (m m' : machine) : Prop :=
  m' = set_kernel (m_sched m')
    (set_events (m_keyboard m ++ kb) (m_mouse m ++ ms) (set_io (set_received (received (m_io m) ++ bs) (m_io m)) m)).

Lemma reported_none m k : reported [] [] [] m (set_kernel k m).
Proof. unfold reported. cbn. rewrite !app_nil_r. by destruct m as [[]]. Qed.
Lemma reported_same m : reported [] [] [] m m.
Proof. pose proof (reported_none m (m_sched m)) as H. by destruct m. Qed.

Lemma reported_trans bs bs' kb kb' ms ms' m1 m2 m3 :
  reported bs kb ms m1 m2 -> reported bs' kb' ms' m2 m3 -> reported (bs ++ bs') (kb ++ kb') (ms ++ ms') m1 m3.
Proof. unfold reported. intros -> ->. cbn. by rewrite !app_assoc. Qed.

Lemma reported_kernel {A} (f : st kernel A) m a m' : Machine.on_kernel f m = Ok (a, m') -> reported [] [] [] m m'.
Proof. intros (k & _ & ->)%on_kernel_Ok. apply reported_none. Qed.
Lemma reported_signal {X} (l : list X) c m u m' : signal_if l c m = Ok (u, m') -> reported [] [] [] m m'.
Proof. destruct l; cbn [signal_if]; [intros [= _ <-]; apply reported_same|apply reported_kernel]. Qed.

Lemma reported_disk tokens m u m' : iter_st disk_done tokens m = Ok (u, m') -> reported [] [] [] m m'.
Proof.
  revert m. induction tokens as [|token tokens IH]; intros m H; cbn [iter_st] in H.
  - injection H as _ <-. apply reported_same.
  - apply st_bind_inv in H as (? & m1 & H1 & H%IH). unfold disk_done in H1. rewrite bind_get, bind_option in H1.
    destruct (m_channels m !! token); [|done]. apply reported_kernel in H1. exact (reported_trans _ _ _ _ _ _ _ _ _ H1 H).
Qed.

Lemma ktrap_reported x m u m' :
  handle (ktrap x) m = Ok (u, m') -> reported (serial_bytes x) (key_events x) (mouse_events x) m m'.
Proof.
  destruct x as [now c]. unfold Machine.handle. rewrite bind_get, bind_check. cbn [ktrap fst snd].
  destruct (bool_decide _); [|done]. unfold kernel_handler. destruct c as [| | | |[es|es|tokens|bs|]|]; try done; cbn [board_irq].
  - apply reported_kernel.
  - rewrite bind_modify. intros H%reported_signal.
    apply (reported_trans [] [] (pack <$> es) [] [] [] m _ m') in H; [by rewrite !app_nil_r in H|]. unfold reported. cbn.
    rewrite !app_nil_r. by destruct m as [[]].
  - rewrite bind_modify. intros H%reported_signal.
    apply (reported_trans [] [] [] [] (pack <$> es) [] m _ m') in H; [by rewrite !app_nil_r in H|]. unfold reported. cbn.
    rewrite !app_nil_r. by destruct m as [[]].
  - apply reported_disk.
  - rewrite bind_modify. intros H%reported_signal.
    apply (reported_trans bs [] [] [] [] [] m _ m') in H; [by rewrite !app_nil_r in H|]. unfold reported. cbn.
    rewrite !app_nil_r. by destruct m as [[]].
Qed.

Lemma ktraps_reported ts m u m' :
  run_events (ktrap <$> ts) m = Ok (u, m') ->
  reported (ts ≫= serial_bytes) (ts ≫= key_events) (ts ≫= mouse_events) m m'.
Proof.
  unfold Machine.run_events. revert m. induction ts as [|x ts IH]; intros m H; cbn [fmap list_fmap iter_st] in H.
  - injection H as _ <-. apply reported_same.
  - apply st_bind_inv in H as (? & m1 & H1%ktrap_reported & H%IH). cbn. by eapply reported_trans.
Qed.

(** An interrupt the kernel serves: of a device it knows, and of the disk for
    channels it has, each with its condition variable. *)
Definition channel_known (m : machine) (token : Z) : Prop :=
  exists c, m_channels m !! token = Some c /\ (c < length (condvars (m_sched m)))%nat.
Definition served (m : machine) (x : Z * cause) : Prop :=
  match x.2 with
  | TimerIrq | ExternalIrq (IKeyboard _ | IMouse _ | ISerial _) => True
  | ExternalIrq (IDisk tokens) => Forall (channel_known m) tokens
  | _ => False
  end.

(** Channels, condition variables and the power switch are as they were. *)
Definition wired (m m' : machine) : Prop :=
  m_channels m' = m_channels m /\ m_halted m' = m_halted m /\
  length (condvars (m_sched m')) = length (condvars (m_sched m)).

Lemma wired_served m m' x : wired m m' -> served m x -> served m' x.
Proof. intros (Hc & _ & Hl). unfold served, channel_known. by rewrite Hc, Hl. Qed.

Lemma signal_runs c m :
  (c < length (condvars (m_sched m)))%nat ->
  exists m', Machine.on_kernel (condvar_signal c) m = Ok (tt, m') /\ wired m m'.
Proof.
  intros [cv Hcv]%lookup_lt_is_Some. unfold Machine.on_kernel, condvar_signal. rewrite bind_get, bind_option, Hcv.
  destruct (cond_queue cv); cbn; eexists; (split; [reflexivity|]); split_and!; cbn; try done. by rewrite length_insert.
Qed.

Lemma signal_if_runs {X} (l : list X) c m :
  (c < length (condvars (m_sched m)))%nat -> exists m', signal_if l c m = Ok (tt, m') /\ wired m m'.
Proof. intros Hc. destruct l; cbn [signal_if]; [by exists m|by apply signal_runs]. Qed.

Lemma disk_runs tokens : forall m, Forall (channel_known m) tokens ->
  exists m', iter_st disk_done tokens m = Ok (tt, m') /\ wired m m'.
Proof.
  induction tokens as [|token tokens IH]; intros m Hk; cbn [iter_st]; [by exists m|].
  apply Forall_cons in Hk as [(c & Hc & Hl) Hk]. destruct (signal_runs c m Hl) as (m1 & H1 & W1).
  assert (disk_done token m = Ok (tt, m1)) as H0 by (unfold disk_done; by rewrite bind_get, bind_option, Hc).
  rewrite (st_bind_Ok _ _ _ _ _ H0). destruct W1 as (E1 & E2 & E3). destruct (IH m1) as (m2 & H2 & F1 & F2 & F3).
  { eapply Forall_impl; [exact Hk|]. intros x. unfold channel_known. by rewrite E1, E3. }
  exists m2. split; [done|]. split_and!; congruence.
Qed.

Lemma ktrap_runs x m :
  (3 <= length (condvars (m_sched m)))%nat -> m_halted m = None -> served m x ->
  exists m', handle (ktrap x) m = Ok (tt, m') /\ wired m m'.
Proof.
  intros H3 Hh Hx. destruct x as [now c]. unfold Machine.handle. rewrite bind_get, bind_check, bool_decide_eq_true_2 by done.
  cbn [ktrap fst snd]. unfold kernel_handler, served in *. cbn [snd] in Hx.
  destruct c as [| | | |[es|es|tokens|bs|]|]; try done; cbn [board_irq]; rewrite ?bind_modify.
  - destruct (check_timer_loop_spec (get_time_ms now) (S (length (timers (m_sched m)))) (m_sched m)) as (es & rest & Hr & _); [lia|].
    exists (set_kernel (fired es rest (m_sched m)) m). split; [|done]. apply on_kernel_Ok. by eexists.
  - apply (signal_if_runs es KEYBOARD_CONDVAR (set_events _ _ m)). unfold KEYBOARD_CONDVAR. cbn. lia.
  - apply (signal_if_runs es MOUSE_CONDVAR (set_events _ _ m)). unfold MOUSE_CONDVAR. cbn. lia.
  - by apply disk_runs.
  - apply (signal_if_runs bs UART_CONDVAR (set_io _ m)). unfold UART_CONDVAR. cbn. lia.
Qed.

Lemma ktraps_run ts : forall m,
  (3 <= length (condvars (m_sched m)))%nat -> m_halted m = None -> Forall (served m) ts ->
  exists m', run_events (ktrap <$> ts) m = Ok (tt, m').
Proof.
  unfold Machine.run_events. induction ts as [|x ts IH]; intros m H3 Hh Hs; cbn [fmap list_fmap iter_st]; [by exists m|].
  apply Forall_cons in Hs as [Hx Hs]. destruct (ktrap_runs x m H3 Hh Hx) as (m1 & H1 & W). rewrite (st_bind_Ok _ _ _ _ _ H1).
  apply IH; [by destruct W as (_ & _ & ->)|by destruct W as (_ & -> & _)|].
  eapply Forall_impl; [exact Hs|]. intros y. by apply wired_served.
Qed.


(** ** Results of calls *)

(** The calls that do not touch memory, files or processes. *)
Definition register_call (c : Call) : bool :=
  match c with
  | GetTime | Getpid | MutexCreate _ | MutexLock _ | MutexUnlock _ | SemaphoreCreate _ | SemaphoreUp _ | SemaphoreDown _
  | CondvarCreate | CondvarSignal _ | CondvarWait _ _ | Sleep _ | Yield | FramebufferFlush | EventGet | KeyPressed => true
  | _ => false
  end.

Lemma kept_kernel {A} (f : st kernel A) : moves (eq_on m_io) (Machine.on_kernel f).
Proof. by intros m a m' (k & _ & ->)%on_kernel_Ok. Qed.
Lemma kept_sync (f : st sync_world outcome) : moves (eq_on m_io) (by_sync f).
Proof. apply moves_bind; [|follow]. by intros m a m' (w & _ & ->)%on_sync_Ok. Qed.

Lemma register_call_kept now t p c : register_call c = true -> moves (eq_on m_io) (do_call now t p c).
Proof.
  pose proof @kept_kernel. pose proof kept_sync.
  destruct c; try done; intros _; cbn [Machine.do_call]; unfold sys_yield; auto; follow.
  intros m o m' H1. destruct (sys_event_get _ _) as [v [kb ms]]. by injection H1 as _ <-.
Qed.

(** The machine with the memory changed. *)
Definition with_mm (f : mm -> mm) (m : machine) : machine :=
  set_io (set_base (set_mm (f (w_mm (world_of m))) (world_of m)) (m_io m)) m.

Lemma mod_mm_run f m : ready (world_of m) = [] -> on_world (mod_mm f) m = Ok (tt, with_mm f m).
Proof.
  intros Hr. apply on_io_Ok. eexists _, (m_sched m). split_and!; [apply on_base_Ok; by eexists| |].
  - cbn [base set_base]. unfold world_of in Hr. cbn. by rewrite Hr.
  - rewrite taken_id by done. by destruct m.
Qed.

Lemma page_store_word ppn i v x q :
  page_at (store_word ppn i v x) q = if decide (q = ppn) then <[i := v]> (page_at x ppn) else page_at x q.
Proof. apply page_at_set. Qed.

(** The trap context of a task on entry to [user_handler]: the next
    instruction is the one after [ecall]. *)
Definition advance (ppn : PhysPageNum) (m : machine) : machine :=
  with_mm (fun x => store_word ppn SEPC (w64 (cx_word x ppn SEPC + 4)) x) m.

(** The way back to the program of a task that nothing is signalled to. *)
Lemma call_return_run m t tb rs b r :
  ready (world_of m) = [] -> tcbs (world_of m) !! t = Some tb -> res_ tb = Some rs ->
  procs (world_of m) !! process tb = Some b -> check_error (signals b) = None ->
  call_return t r m = Ok (tt, with_mm (store_word (tcb_trap_cx_ppn tb) 10 (w64 r)) m).
Proof.
  intros Hr Ht Hrs Hb Hsig. unfold call_return. rewrite (st_bind_Ok _ _ _ _ _ (tcb_of_run m t tb Hr Ht)).
  rewrite (st_bind_Ok _ _ _ _ _ (mod_mm_run _ m Hr)). set (m2 := with_mm _ m). unfold end_trap.
  assert (ready (world_of m2) = []) as Hr2 by done.
  assert (tcbs (world_of m2) !! t = Some tb) as Ht2 by done.
  assert (procs (world_of m2) !! process tb = Some b) as Hb2 by done.
  rewrite (st_bind_Ok _ _ _ _ _ (tcb_of_run m2 t tb Hr2 Ht2)).
  rewrite (st_bind_Ok _ _ _ _ _ (on_world_read (check_signals_error_of_current (process tb)) m2 None Hr2 ltac:(
    unfold check_signals_error_of_current, st_bind, get_pcb; rewrite Hb2; cbn; by rewrite Hsig))).
  unfold leave. rewrite (st_bind_Ok _ _ _ _ _ (tcb_of_run m2 t tb Hr2 Ht2)), bind_option, Hrs.
  by rewrite (st_bind_Ok _ _ _ _ _ (get_pcb_read m2 _ b Hr2 Hb2)).
Qed.

(** C12: a system call that returns at once, of whatever kind.  The machine
    runs the call named by the registers of the program, with the program
    counter moved behind the instruction, and then differs from what the call
    left, in memory, processes, files and queues, in one word only: register
    [a0] in the trap context that the task has then, which holds the result.
    This is for a task that still has its resources after the call, and whose
    process then has no deadly signal pending.  After the calls that only use
    registers, all pages but that of the trap context are as before the trap,
    and that one is but for the program counter and [a0]. *)
Theorem call_returns now m t tb c r m1 tb1 rs b1 :
  minv [] m -> in_user m -> processor (m_sched m) = Some t -> tcbs (world_of m) !! t = Some tb ->
  let ppn := tcb_trap_cx_ppn tb in
  let page := page_at (w_mm (world_of m)) ppn in
  let x i := cx_word (w_mm (world_of m)) ppn i in
  syscall (x 17%nat) (x 10%nat, x 11%nat, x 12%nat) = Ok c ->
  do_call now t (process tb) c (advance ppn m) = Ok (Back r, m1) ->
  tcbs (world_of m1) !! t = Some tb1 -> res_ tb1 = Some rs ->
  procs (world_of m1) !! process tb1 = Some b1 -> check_error (signals b1) = None ->
  let m' := with_mm (store_word (tcb_trap_cx_ppn tb1) 10 (w64 r)) m1 in
  user_handler now EnvCall m = Ok (tt, m') /\
  (register_call c = true ->
    page_at (w_mm (world_of m')) ppn = <[10%nat := w64 r]> (<[SEPC := w64 (x SEPC + 4)]> page) /\
    (forall q, q <> ppn -> page_at (w_mm (world_of m')) q = page_at (w_mm (world_of m)) q)).
Proof.
  intros Hm Hu Hp Ht ppn page x Hc Hdo Ht1 Hrs Hb1 Hsig m'. pose proof (mi_ready _ _ Hm) as Hr.
  assert (running m = Ok (t, m)) as H0 by (unfold running; by rewrite bind_get, Hp).
  assert (w_mm (world_of (advance ppn m)) = store_word ppn SEPC (w64 (x SEPC + 4)) (w_mm (world_of m))) as Ea by done.
  assert (forall i, i <> SEPC -> cx_word (w_mm (world_of (advance ppn m))) ppn i = x i) as Hx.
  { intros i Hi. unfold x, cx_word. rewrite Ea, page_store_word, decide_True by done. by rewrite list_lookup_insert_ne. }
  destruct (stable_plain [] _ (plain_mod_mm _) _ _ _ (mod_mm_run (fun y => store_word ppn SEPC (w64 (cx_word y ppn SEPC + 4)) y) m Hr) Hm)
    as [I1 P1 C1]. fold (advance ppn m) in I1, P1, C1.
  destruct (do_call_fine sym ElfFile_new handler status ROOT_INODE PROC_INODE str_fuel file_fuel padding fb_ptr fb_len
    now t (process tb) c _ _ _ Hdo I1) as [_ [I2 _]]; [by rewrite P1|rewrite C1; by apply Hu|].
  split.
  - unfold Machine.user_handler. rewrite (st_bind_Ok _ _ _ _ _ H0), (st_bind_Ok _ _ _ _ _ (tcb_of_run m t tb Hr Ht)).
    fold ppn. rewrite (st_bind_Ok _ _ _ _ _ (mod_mm_run _ m Hr)), bind_get. fold (advance ppn m).
    rewrite !Hx by done. unfold st_bind at 1. unfold of_res. rewrite Hc. cbn [res_bind].
    rewrite (st_bind_Ok _ _ _ _ _ Hdo). cbn [settle]. eapply call_return_run; try done. apply (mi_ready _ _ I2).
  - intros Hreg. pose proof (register_call_kept now t (process tb) c Hreg _ _ _ Hdo) as Hio. unfold eq_on in Hio.
    assert (world_of m1 = world_of (advance ppn m)) as Hw by (unfold world_of; by rewrite Hio).
    assert (tb1 = tb) as -> by (rewrite Hw in Ht1; change (tcbs (world_of m) !! t = Some tb1) in Ht1; congruence).
    assert (w_mm (world_of m') = store_word ppn 10 (w64 r) (w_mm (world_of (advance ppn m)))) as Em
      by (unfold m', with_mm; cbn; by rewrite Hw).
    rewrite Em, Ea. split.
    + by rewrite !page_store_word, !decide_True by done.
    + intros q Hq. by rewrite !page_store_word, !decide_False by done.
Qed.
End handlers.

(** ** Witnesses *)

(** The child's turn comes in the first round after the fork, whatever else
    happens before it. *)
Definition fork_events : list event := [ERun] ++ ecall 220 0 0 0.
Definition demo_forked : machine := machine_or (demo_machine fork_events demo_m0).
Definition child_events : list event := [ETrap 0 TimerIrq; ERun] ++ ecall 172 0 0 0.

Definition returns {A} (r : res A) : bool := match r with Ok _ => true | Panic _ => false end.
Lemma demo_child_runs : returns (demo_machine child_events demo_forked) = true.
Proof. vm_compute. reflexivity. Qed.

Lemma no_starvation_witness :
  ready_queue (m_sched demo_forked) !! 0%nat = Some 1 /\
  exists es1 es2 m1, child_events = es1 ++ ERun :: es2 /\ demo_machine es1 demo_forked = Ok (tt, m1) /\
    head (ready_queue (m_sched m1)) = Some 1 /\ (rounds es1 <= 0)%nat /\
    exists k, run_tasks_once (m_sched m1) = Ok (Some 1, k) /\ processor k = Some 1.
Proof.
  split; [vm_compute; reflexivity|]. pose proof demo_child_runs as Hruns.
  destruct (demo_machine child_events demo_forked) as [[u m']|] eqn:E; [|discriminate Hruns].
  eapply (no_starvation tiny_sym tiny_elf 0x80 0 demo_root demo_proc 64 64 [] 0 0 child_events demo_forked u m' 0 1);
    [exact E|by vm_compute|by apply Nat.ltb_lt; vm_compute].
Defined.


(** Before the child's [ecall] of [getpid]. *)
Definition asking_events : list event :=
  fork_events ++ [ETrap 0 TimerIrq; ERun; EUser (call_regs 172 0 0 0) 0 0x10000 []].
Definition demo_asking : machine := machine_or (demo_machine asking_events demo_m0).

Lemma demo_asked : demo_machine asking_events demo_m0 = Ok (tt, demo_asking).
Proof. by vm_compute. Qed.
Lemma demo_asking_good : good demo_asking.
Proof. eapply runs_good; [exact demo_asked|]. eapply boot_good, demo_booted. Qed.

Definition asks_pid (m : machine) (tb : tcb) : bool :=
  let mem := w_mm (world_of m) in
  let ppn := tcb_trap_cx_ppn tb in
  let x i := cx_word mem ppn i in
  (process tb =? 1) && bool_decide (is_Some (res_ tb)) && (x SEPC =? 0x10000) && Nat.ltb SEPC (length (page_at mem ppn)) &&
  match syscall (x 17%nat) (x 10%nat, x 11%nat, x 12%nat) with Ok Getpid => true | _ => false end.

Definition unsignalled (b : pcb) : bool := bool_decide (check_error (signals b) = None).

Lemma demo_asks : exists tb, tcbs (world_of demo_asking) !! 1 = Some tb /\ asks_pid demo_asking tb = true.
Proof. apply found. vm_compute. reflexivity. Qed.
Lemma demo_unsignalled : exists b, procs (world_of demo_asking) !! 1 = Some b /\ unsignalled b = true.
Proof. apply found. vm_compute. reflexivity. Qed.
Lemma demo_asking_runs : processor (m_sched demo_asking) = Some 1.
Proof. by vm_compute. Qed.

Lemma call_returns_witness :
  exists tb m', tcbs (world_of demo_asking) !! 1 = Some tb /\
    user_handler tiny_sym tiny_elf 0x80 0 demo_root demo_proc 64 64 [] 0 0 0 EnvCall demo_asking = Ok (tt, m') /\
    cx_word (w_mm (world_of m')) (tcb_trap_cx_ppn tb) 10 = 1 /\
    cx_word (w_mm (world_of m')) (tcb_trap_cx_ppn tb) SEPC = 0x10004.
Proof.
  pose proof demo_asks as Ht. pose proof demo_unsignalled as Hb.
  pose proof demo_asking_runs as Hrun. pose proof demo_asking_good as Hg.
  revert Ht Hb Hrun Hg. generalize demo_asking. intros m (tb & Ht & Hq) (b & Hb & Hs%bool_decide_eq_true_1) Hrun [Hm Hu].
  unfold asks_pid in Hq. rewrite !andb_true_iff in Hq. destruct Hq as [[[[Hp%Z.eqb_eq Hr] Hx%Z.eqb_eq] Hl%Nat.ltb_lt] Hc].
  apply bool_decide_eq_true_1 in Hr as [rs Hr]. destruct (syscall _ _) as [c|] eqn:Ec; [|done]. destruct c; try done.
  destruct (call_returns tiny_sym tiny_elf 0x80 0 demo_root demo_proc 64 64 [] 0 0 0 m 1 tb Getpid (process tb)
    (advance (tcb_trap_cx_ppn tb) m) tb rs b) as [H Hreg];
    [exact Hm|exact Hu|exact Hrun|exact Ht|exact Ec|reflexivity|exact Ht|exact Hr|by rewrite Hp|exact Hs|].
  destruct (Hreg eq_refl) as [Hpage _]. eexists tb, _. split; [exact Ht|]. split; [exact H|]. unfold cx_word at 1 2. rewrite Hpage. unfold SEPC in *. split.
  - rewrite list_lookup_insert_eq by (rewrite length_insert; lia). by rewrite Hp.
  - rewrite list_lookup_insert_ne, list_lookup_insert_eq by done. by rewrite Hx.
Defined.

(** The timer, the disk and the serial line. *)
Definition demo_traps : list (Z * cause) :=
  [(1000000, TimerIrq); (1500000, ExternalIrq (IDisk [3; 0])); (2000000, ExternalIrq (ISerial [Byte.x61]))].
Lemma demo_m1_served : m_halted demo_m1 = None /\ Forall (served demo_m1) demo_traps.
Proof.
  split; [vm_compute; reflexivity|]. unfold demo_traps, served, channel_known. repeat constructor; cbn.
  all: eexists; split; [vm_compute; reflexivity|]; vm_compute; lia.
Qed.
Lemma demo_m1_runs : processor (m_sched demo_m1) = Some 1.
Proof. vm_compute. reflexivity. Qed.

